(* ===== verification/_CoqProject ===== *)
-Q . S2P
Prelude.v
Math.v
Bits.v
Percpu.v
DList.v
Bitmap.v
Spinlock.v
Multiboot.v
ErrorCodes.v
FrameAlloc.v
Kmalloc.v
KmallocGroup.v
KmallocSpec.v
CMem.v
RwLock.v
KHeap.v
Disk.v
Fs.v
Ustar.v
Vfs.v
VfsSpec.v
VfsProps.v
Segmentation.v
SegmentationSpec.v
SegProps.v
Paging.v
PagingSpec.v
PagingRange.v
PagingFind.v
PagingBoot.v
AddrSpace.v
PagingProps.v
Ipm.v
IpmSpec.v
IpmSteps.v
IpmProps.v
Sched.v
SchedSpec.v
SchedSteps.v
SchedProps.v
SchedTurns.v
Vga.v
Tty.v
Serial.v
Interrupt.v
Apic.v
Calibrate.v
Acpi.v
AcpiProps.v
