(* ===== verification/Prelude.v ===== *)
(** * Verification of the x86-kernel

    A 32-bit kernel for i386 machines with several cpus: [src/src] holds its C
    and assembly code.  The library models the parts below as executable
    definitions over explicit states and proves what makes them correct.

    ** The parts and the files that model them

    - Machine integers, outcomes, the state monad [M], its total weakest
      precondition [wp] and the loops [for_each] ([Prelude]); [math.c] and
      address arithmetic of [kernel_map.h] ([Math]); bit fields ([Bits]).
    - The doubly-linked lists of [list.c] over a store of links ([DList]) and
      the bitmaps of [bitmap.c] and [bitmap_asm.S] ([Bitmap]).
    - [spinlock_def.c], [spinlock.S] ([Spinlock]) and [rw_lock.c] ([RwLock]):
      each cpu is a machine that makes one shared access per step, any number
      of cpus interleave; and the same functions as one call for a cpu that
      runs alone, which is how the other components use them.
    - [multiboot.c] ([Multiboot]), the frame allocator [frame_alloc.c]
      ([FrameAlloc]).
    - Paging [paging.c] ([Paging]): page directories and tables are words of
      physical memory, reached by translating addresses through the very tables
      the code edits (recursive entry, temporary mappings).  [PagingSpec] has
      the invariant of the tables and the single-page operations, [PagingRange]
      ranges with roll-back, [PagingFind] the search for a hole, [PagingBoot]
      [init_paging]; [AddrSpace] is [addr_space.c]; [PagingProps] the theorems,
      with the frame allocator of [FrameAlloc] as an instance of the interface
      [FrameLaws] that paging relies on.
    - The dynamic allocator [kmalloc.c] ([Kmalloc], [KmallocGroup],
      [KmallocSpec]), over the interface [PageLaws] of what it needs from frames
      and paging; [KHeap] is the interface [HeapLaws] of what its clients rely
      on, with [kmalloc] as an instance.
    - [memory.c], [string.c] ([CMem]); disks [disk.c] and memory disks
      [memdisk.c] ([Disk]); the file-system interface [fs.h] ([Fs]), the ustar
      file system [ustar.c] ([Ustar]) and the virtual file system [vfs.c]
      ([Vfs], [VfsSpec], [VfsProps]).
    - Per-cpu variables and preemption [percpu.c], [sched_core.c] ([Percpu]),
      descriptors, the GDT and task state segments [segmentation.c]
      ([Segmentation], [SegmentationSpec], [SegProps]).
    - Inter-processor messages, remote calls and TLB shootdowns [ipm.c] with the
      interrupt entry of [interrupt.c] ([Ipm]): each cpu is a stack of
      activations that makes one shared access per step, with nested interrupts;
      [IpmSpec] has the invariant, [IpmSteps] its preservation, [IpmProps] the
      theorems.
    ** How they fit together

    A component's state is a record, a C function a [Definition] of the same
    name; a call into another component runs that component's definition on its
    part of the state ([zoom]) or goes through a class of operations with laws
    ([Frames]/[FrameLaws], [Pages]/[PageLaws], [Heap]/[HeapLaws], [DiskOps],
    [FsOps]).  An [ASSERT] or [PANIC] that fails is [Halt (Panic _)], an access
    outside an object [Halt (Trap _)], a wait that nobody ends [Halt (Hang _)];
    [wp m Q s] says that none of them happens and that the result satisfies
    [Q], [wpx E m Q s] that only the halts in [E] can happen.

    ** What the theorems show

    - Locks: mutual exclusion, no failing [ASSERT], the interrupt flag restored,
      for any number of cpus and any interleaving.
    - Frames: the allocator refines a set of free frames, frames are exclusive,
      and initialisation leaves exactly the available memory free.
    - Paging: mapping is all-or-nothing and changes exactly the pages asked for
      in exactly the directories that share them; unmapping removes exactly
      them; the search finds the first hole; creating and deleting address
      spaces loses no frame; after boot exactly the kernel is mapped.
    - Dynamic memory: blocks are disjoint, zeroed and inside mapped pages,
      freeing merges and returns memory, for every sequence of calls.
    - Files: reads, writes, open, close and mount against a flat specification,
      through the cache of open files and down to sectors.
    - Segments: descriptors decode to what was encoded, the GDT has the
      documented layout, cpus do not share their per-cpu data.
    - Messages: no interleaving uses freed memory or fails an assertion, calls
      are executed once by each destination before a wait ends, shootdowns
      return after the flushes, nothing is lost, duplicated or leaked, and the
      handler terminates.
    ** Fuel and bounds

    Loops over a fixed range are [for_each] or structural.  Loops that follow a
    list take the length of the store as fuel, the search for a hole one round
    per page up to the limit of the search; the theorems prove that the fuel is
    enough, since running out of it is a halt.  Mutual recursion of the paging
    functions has depth two ([map_page_in_fuel]), as mapping the temporary
    table never needs another temporary mapping.  Machine integers wrap at their
    width ([u8], [u16], [u32], [u64], [s32]).

    ** Not modelled

    - The TLB and the accessed and dirty bits: flushes and shootdowns are
      counted.  The dynamic allocator assumes of paging that unmapping always
      succeeds ([PageLaws]), which [paging.c] ensures only while no kernel page
      table becomes empty ([PagingProps.unmap_frees_kernel_table]).
    - Logging ([LOG], [paging_walk], [kmalloc_list_allocations], register
      dumps), the test files ([*.test], [test.c], the test helpers).
    - Boot and trampoline assembly and the low-level entry code ([boot.S],
      [interrupt_handler.S], [proc_asm.S], [syscalls_asm.S]), which only moves
      registers.
    - Device and firmware access: [lapic.c], [ioapic.c], [acpi.c], [serial.c],
      [vga.c], [tty.c]; processes and scheduling [proc.c], [sched_core.c],
      [syscalls.c], [elf.c]; [smp.c], [initrd.c], [main.c]. *)

From stdpp Require Export base tactics numbers list gmap strings.

Open Scope Z_scope.

(** ** Machine integers

    Every C integer is a [Z]; the functions below are the conversions to the
    unsigned types of [types.h] (reduction modulo a power of two) and to
    [int32_t] (two's complement). *)

Definition u8 (x : Z) : Z := x mod 256.
Definition u16 (x : Z) : Z := x mod 65536.
Definition u32 (x : Z) : Z := x mod 4294967296.
Definition u64 (x : Z) : Z := x mod 18446744073709551616.

Definition s32 (x : Z) : Z :=
  if u32 x <? 2147483648 then u32 x else u32 x - 4294967296.

(** A C truth value. *)
Definition b2z (b : bool) : Z := if b then 1 else 0.

(** ** Outcomes of kernel code

    [Panic] is the [PANIC] macro (a failed [ASSERT] included): the cpu locks up
    and the call never returns.  [Trap] is a cpu trap ([int3]) or an access
    outside the object the code works on.  [Hang] is a loop or a spin that
    never ends. *)

Inductive halt : Type :=
| Panic (msg : string)
| Trap (msg : string)
| Hang (msg : string).

Inductive result (A : Type) : Type :=
| Ok (a : A)
| Halt (h : halt).
Arguments Ok {A} a.
Arguments Halt {A} h.

Definition is_ok {A} (r : result A) : bool := match r with Ok _ => true | Halt _ => false end.

(** The monad of kernel code over a state of type [S]. *)
Definition M (S A : Type) : Type := S -> result (A * S).

Section Monad.
Context {S : Type}.

Definition ret {A} (a : A) : M S A := fun s => Ok (a, s).

Definition bind {A B} (m : M S A) (k : A -> M S B) : M S B :=
  fun s => match m s with
           | Ok (a, s') => k a s'
           | Halt h => Halt h
           end.

Definition halt_with {A} (h : halt) : M S A := fun _ => Halt h.

Definition panic {A} (msg : string) : M S A := halt_with (Panic msg).

Definition gets {A} (f : S -> A) : M S A := fun s => Ok (f s, s).

Definition modify (f : S -> S) : M S unit := fun s => Ok (tt, f s).

(** The [ASSERT] macro. *)
Definition ASSERT (b : bool) (msg : string) : M S unit :=
  if b then ret tt else panic msg.

Definition when (b : bool) (m : M S unit) : M S unit :=
  if b then m else ret tt.

(** An access that faults when [o] is [None]. *)
Definition must {A} (o : option A) (msg : string) : M S A :=
  match o with Some a => ret a | None => halt_with (Trap msg) end.

(** [for (x in l) f(x)]: the loops of the code whose range does not depend on
    the state the body changes. *)
Fixpoint for_each {A} (l : list A) (f : A -> M S unit) : M S unit :=
  match l with
  | [] => ret tt
  | x :: l' => bind (f x) (fun _ => for_each l' f)
  end.

(** The weakest precondition of total correctness: [m] returns from [s], and
    what it returns satisfies [Q]. *)
Definition wp {A} (m : M S A) (Q : A -> S -> Prop) (s : S) : Prop :=
  match m s with
  | Ok (a, s') => Q a s'
  | Halt _ => False
  end.

End Monad.

(** Running an operation of a component on the part of a larger state the
    getter [get] and the setter [put] describe. *)
Definition zoom {S T A} (get : S -> T) (put : T -> S -> S) (m : M T A) : M S A :=
  fun s => match m (get s) with
           | Ok (a, t) => Ok (a, put t s)
           | Halt h => Halt h
           end.

Declare Scope kernel_scope.
Delimit Scope kernel_scope with kernel.
Notation "'do' x <- m ; k" := (bind m (fun x => k))
  (at level 10, x name, m at level 100, k at level 200) : kernel_scope.
Notation "'do' ' p <- m ; k" := (bind m (fun x => match x with p => k end))
  (at level 10, p pattern, m at level 100, k at level 200) : kernel_scope.
Notation "m ;;; k" := (bind m (fun _ => k))
  (at level 199, k at level 200, right associativity) : kernel_scope.
Open Scope kernel_scope.

(** [lo, lo+1, ..., lo+n-1] *)
Definition zrange (lo : Z) (n : nat) : list Z := map (fun i => lo + Z.of_nat i) (seq 0 n).

(** The indices a loop [for (i = lo; i < hi; ++i)] visits. *)
Definition range (lo hi : Z) : list Z := zrange lo (Z.to_nat (hi - lo)).

(** ** Automation *)

Create HintDb kernel.
Create Rewrite HintDb kernel.

(** Linear arithmetic with division and modulo by constants. *)
Ltac dlia := unfold u8, u16, u32, u64, s32, b2z in *;
  repeat case_match; Z.to_euclidean_division_equations; lia.

(** Turn boolean tests in the context into propositions. *)
Ltac breflect :=
  repeat match goal with
  | H : (_ && _) = true |- _ => apply andb_prop in H; destruct H
  | H : (_ || _) = false |- _ => apply orb_false_elim in H; destruct H
  | H : negb _ = true |- _ => apply negb_true_iff in H
  | H : negb _ = false |- _ => apply negb_false_iff in H
  | H : (_ =? _) = true |- _ => apply Z.eqb_eq in H
  | H : (_ =? _) = false |- _ => apply Z.eqb_neq in H
  | H : (_ <? _) = true |- _ => apply Z.ltb_lt in H
  | H : (_ <? _) = false |- _ => apply Z.ltb_ge in H
  | H : (_ <=? _) = true |- _ => apply Z.leb_le in H
  | H : (_ <=? _) = false |- _ => apply Z.leb_gt in H
  | H : bool_decide _ = true |- _ => apply bool_decide_eq_true in H
  | H : bool_decide _ = false |- _ => apply bool_decide_eq_false in H
  end.

(** ** Integer lemmas *)

Lemma u8_id x : 0 <= x < 256 -> u8 x = x.
Proof. intros; unfold u8; apply Z.mod_small; lia. Qed.

Lemma u16_id x : 0 <= x < 65536 -> u16 x = x.
Proof. intros; unfold u16; apply Z.mod_small; lia. Qed.

Lemma u32_id x : 0 <= x < 4294967296 -> u32 x = x.
Proof. intros; unfold u32; apply Z.mod_small; lia. Qed.

Lemma u64_id x : 0 <= x < 18446744073709551616 -> u64 x = x.
Proof. intros; unfold u64; apply Z.mod_small; lia. Qed.

Lemma u8_range x : 0 <= u8 x < 256.
Proof. unfold u8; apply Z.mod_pos_bound; lia. Qed.

Lemma u32_range x : 0 <= u32 x < 4294967296.
Proof. unfold u32; apply Z.mod_pos_bound; lia. Qed.

Lemma u64_range x : 0 <= u64 x < 18446744073709551616.
Proof. unfold u64; apply Z.mod_pos_bound; lia. Qed.

Lemma s32_id x : -2147483648 <= x < 2147483648 -> s32 x = x.
Proof. intros Hx. unfold s32, u32. case_match eqn:E; breflect; Z.to_euclidean_division_equations; lia. Qed.

#[export] Hint Rewrite u8_id u16_id u32_id u64_id using lia : kernel.

(** ** Lemmas of the monad *)

Section MonadLemmas.
Context {S : Type}.

Lemma wp_ret {A} (a : A) (Q : A -> S -> Prop) s : Q a s -> wp (ret a) Q s.
Proof. done. Qed.

Lemma wp_bind {A B} (m : M S A) (k : A -> M S B) Q s :
  wp m (fun a => wp (k a) Q) s -> wp (bind m k) Q s.
Proof. unfold wp, bind. by destruct (m s) as [[a s']|]. Qed.

Lemma bind_ok {A B} (m : M S A) (k : A -> M S B) s a s' :
  m s = Ok (a, s') -> bind m k s = k a s'.
Proof. unfold bind. by intros ->. Qed.

Lemma wp_bind_ok {A B} (m : M S A) (k : A -> M S B) Q s a s' :
  m s = Ok (a, s') -> wp (k a) Q s' -> wp (bind m k) Q s.
Proof. intros Hm Hk. unfold wp. by erewrite bind_ok by exact Hm. Qed.

Lemma bind_halt {A B} (m : M S A) (k : A -> M S B) s h :
  m s = Halt h -> bind m k s = Halt h.
Proof. unfold bind. by intros ->. Qed.

Lemma bind_assoc {A B C} (m : M S A) (k : A -> M S B) (k' : B -> M S C) s :
  bind (bind m k) k' s = bind m (fun a => bind (k a) k') s.
Proof. unfold bind. by destruct (m s) as [[a s']|]. Qed.

Lemma wp_mono {A} (m : M S A) (P Q : A -> S -> Prop) s :
  wp m P s -> (forall a s', P a s' -> Q a s') -> wp m Q s.
Proof. unfold wp. destruct (m s) as [[a s']|]; auto. Qed.

Lemma wp_gets {A} (f : S -> A) (Q : A -> S -> Prop) s : Q (f s) s -> wp (gets f) Q s.
Proof. done. Qed.

Lemma wp_modify (f : S -> S) (Q : unit -> S -> Prop) s : Q tt (f s) -> wp (modify f) Q s.
Proof. done. Qed.

Lemma wp_assert b msg (Q : unit -> S -> Prop) s :
  b = true -> Q tt s -> wp (ASSERT b msg) Q s.
Proof. by intros ->. Qed.

Lemma wp_must {A} (o : option A) msg (a : A) (Q : A -> S -> Prop) s :
  o = Some a -> Q a s -> wp (must o msg) Q s.
Proof. by intros ->. Qed.

Lemma wp_ok {A} (m : M S A) (Q : A -> S -> Prop) s :
  wp m Q s <-> exists a s', m s = Ok (a, s') /\ Q a s'.
Proof.
  unfold wp. destruct (m s) as [[a s']|h]; split.
  - eauto.
  - intros (? & ? & [= <- <-] & ?); done.
  - done.
  - intros (? & ? & [=] & _).
Qed.

(** A loop over a list keeps an invariant indexed by what remains. *)
Lemma wp_for_each {A} (I : list A -> S -> Prop) (l : list A) f s :
  I l s ->
  (forall x l' s0, I (x :: l') s0 -> wp (f x) (fun _ => I l') s0) ->
  wp (for_each l f) (fun _ => I []) s.
Proof.
  intros HI Hstep. revert s HI. induction l as [|x l IH]; intros s HI; [done|].
  simpl. apply wp_bind. eapply wp_mono; [by apply Hstep|]. intros [] s1 ?. by apply IH.
Qed.

End MonadLemmas.

Lemma wp_zoom {S T A} (get : S -> T) (put : T -> S -> S) (m : M T A) (Q : A -> S -> Prop) s :
  wp m (fun a t => Q a (put t s)) (get s) -> wp (zoom get put m) Q s.
Proof. unfold wp, zoom. by destruct (m (get s)) as [[a t]|]. Qed.

(** ** Lemmas of ranges *)

Lemma length_zrange lo n : length (zrange lo n) = n.
Proof. unfold zrange. by rewrite length_map, length_seq. Qed.

Lemma zrange_S lo n : zrange lo (S n) = lo :: zrange (lo + 1) n.
Proof.
  unfold zrange. simpl. f_equal; [lia|]. rewrite <- seq_shift, map_map.
  apply map_ext. intros. lia.
Qed.

Lemma elem_of_zrange x lo n : x ∈ zrange lo n <-> lo <= x < lo + Z.of_nat n.
Proof.
  revert lo. induction n as [|n IH]; intros lo.
  - split; [by intros ?%not_elem_of_nil|lia].
  - rewrite zrange_S, elem_of_cons, IH. lia.
Qed.

Lemma zrange_app lo n m : zrange lo (n + m) = zrange lo n ++ zrange (lo + Z.of_nat n) m.
Proof.
  revert lo. induction n as [|n IH]; intros lo.
  - change (Z.of_nat 0) with 0. by rewrite Z.add_0_r.
  - replace (S n + m)%nat with (S (n + m)) by lia. rewrite !zrange_S, IH.
    by replace (lo + Z.of_nat (S n)) with (lo + 1 + Z.of_nat n) by lia.
Qed.

Lemma NoDup_zrange lo n : NoDup (zrange lo n).
Proof.
  revert lo. induction n as [|n IH]; intros lo; [constructor|].
  rewrite zrange_S. constructor; [|done]. rewrite elem_of_zrange. lia.
Qed.

Lemma range_nil lo hi : hi <= lo -> range lo hi = [].
Proof. intros. unfold range. by replace (Z.to_nat (hi - lo)) with 0%nat by lia. Qed.

Lemma range_cons lo hi : lo < hi -> range lo hi = lo :: range (lo + 1) hi.
Proof.
  intros. unfold range. replace (Z.to_nat (hi - lo)) with (S (Z.to_nat (hi - (lo + 1)))) by lia.
  apply zrange_S.
Qed.

Lemma elem_of_range x lo hi : x ∈ range lo hi <-> lo <= x < hi.
Proof. unfold range. rewrite elem_of_zrange. lia. Qed.

Lemma range_app lo mid hi :
  lo <= mid <= hi -> range lo hi = range lo mid ++ range mid hi.
Proof.
  intros. unfold range.
  replace (Z.to_nat (hi - lo)) with (Z.to_nat (mid - lo) + Z.to_nat (hi - mid))%nat by lia.
  rewrite zrange_app. do 2 f_equal. lia.
Qed.

#[export] Hint Resolve NoDup_zrange : kernel.

Lemma NoDup_perm {A} (l k : list A) : l ≡ₚ k -> NoDup l -> NoDup k.
Proof. by intros ->. Qed.

Lemma size_range lo hi : size (list_to_set (range lo hi) : gset Z) = Z.to_nat (hi - lo).
Proof. rewrite size_list_to_set by apply NoDup_zrange. apply length_zrange. Qed.

(** ** Bits of machine words *)

Lemma testbit_above x k n : 0 <= x < 2 ^ k -> k <= n -> Z.testbit x n = false.
Proof.
  intros Hx Hn. destruct (Z.eq_dec x 0) as [->|Hnz]; [apply Z.testbit_0_l|].
  apply Z.bits_above_log2; [lia|]. assert (Z.log2 x < k) by (apply Z.log2_lt_pow2; lia). lia.
Qed.

Lemma bound_by_bits x k :
  0 <= x -> 0 <= k -> (forall n, k <= n -> Z.testbit x n = false) -> x < 2 ^ k.
Proof.
  intros Hx Hk Hb. destruct (Z.eq_dec x 0) as [->|Hnz]; [lia|].
  apply Z.log2_lt_pow2; [lia|].
  destruct (Z.lt_ge_cases (Z.log2 x) k); [done|].
  pose proof (Z.bit_log2 x ltac:(lia)). rewrite Hb in *; [done|lia].
Qed.

Lemma setbit_bound x k n : 0 <= x < 2 ^ k -> 0 <= n < k -> 0 <= Z.setbit x n < 2 ^ k.
Proof.
  intros Hx Hn. assert (0 <= Z.setbit x n) by (unfold Z.setbit; apply Z.lor_nonneg; rewrite Z.shiftl_nonneg; lia).
  split; [done|]. apply bound_by_bits; [done|lia|]. intros m Hm.
  rewrite Z.setbit_eqb, (testbit_above x k) by lia. rewrite orb_false_r. apply Z.eqb_neq. lia.
Qed.

Lemma clearbit_bound x k n : 0 <= x < 2 ^ k -> 0 <= n < k -> 0 <= Z.clearbit x n < 2 ^ k.
Proof.
  intros Hx Hn. assert (0 <= Z.clearbit x n) by (unfold Z.clearbit; apply Z.ldiff_nonneg; lia).
  split; [done|]. apply bound_by_bits; [done|lia|]. intros m Hm.
  rewrite Z.clearbit_eqb, (testbit_above x k) by lia. done.
Qed.

Lemma testbit_u32 x n : 0 <= n -> Z.testbit (u32 x) n = Z.testbit x n && (n <? 32).
Proof.
  intros Hn. unfold u32. change 4294967296 with (2 ^ 32).
  destruct (Z.ltb_spec n 32).
  - by rewrite Z.mod_pow2_bits_low, andb_true_r by lia.
  - by rewrite Z.mod_pow2_bits_high, andb_false_r by lia.
Qed.

(** ** Index loops *)

Lemma wp_for_range {S} (I : Z -> S -> Prop) (f : Z -> M S unit) lo hi s :
  lo <= hi -> I lo s ->
  (forall i s0, lo <= i < hi -> I i s0 -> wp (f i) (fun _ => I (i + 1)) s0) ->
  wp (for_each (range lo hi) f) (fun _ => I hi) s.
Proof.
  intros Hlh HI Hf. remember (Z.to_nat (hi - lo)) as n eqn:En. revert lo s Hlh HI Hf En.
  induction n as [|n IH]; intros lo s Hlh HI Hf En.
  - rewrite range_nil by lia. by replace hi with lo by lia.
  - rewrite range_cons by lia. simpl. apply wp_bind.
    eapply wp_mono; [apply Hf; [lia|done]|]. intros [] s1 H1.
    apply IH; [lia|done| |lia]. intros i s0 Hi. apply Hf. lia.
Qed.

(** ** Calls that may halt in a known way

    [wpx E m Q s]: [m] returns with [Q], or halts with a halt of [E]. *)

Definition wpx {S A} (E : halt -> Prop) (m : M S A) (Q : A -> S -> Prop) (s : S) : Prop :=
  match m s with
  | Ok (a, s') => Q a s'
  | Halt h => E h
  end.

Section Wpx.
Context {S : Type} (E : halt -> Prop).

Lemma wpx_ret {A} (a : A) (Q : A -> S -> Prop) s : Q a s -> wpx E (ret a) Q s.
Proof. done. Qed.

Lemma wpx_bind {A B} (m : M S A) (k : A -> M S B) Q s :
  wpx E m (fun a => wpx E (k a) Q) s -> wpx E (bind m k) Q s.
Proof. unfold wpx, bind. by destruct (m s) as [[a s']|]. Qed.

Lemma wpx_bind_ok {A B} (m : M S A) (k : A -> M S B) Q s a s' :
  m s = Ok (a, s') -> wpx E (k a) Q s' -> wpx E (bind m k) Q s.
Proof. intros Hm Hk. unfold wpx. by erewrite bind_ok by exact Hm. Qed.

Lemma wpx_mono {A} (m : M S A) (P Q : A -> S -> Prop) s :
  wpx E m P s -> (forall a s', P a s' -> Q a s') -> wpx E m Q s.
Proof. unfold wpx. destruct (m s) as [[a s']|]; auto. Qed.

Lemma wpx_eq {A} (m m' : M S A) (Q : A -> S -> Prop) s s' : m s = m' s' -> wpx E m' Q s' -> wpx E m Q s.
Proof. unfold wpx. by intros ->. Qed.

Lemma wpx_wp {A} (m : M S A) (Q : A -> S -> Prop) s : wp m Q s -> wpx E m Q s.
Proof. unfold wpx, wp. by destruct (m s) as [[a s']|]. Qed.

Lemma wpx_halt {A} h (Q : A -> S -> Prop) s : E h -> wpx E (halt_with h) Q s.
Proof. done. Qed.

Lemma wpx_must {A} (o : option A) msg (a : A) (Q : A -> S -> Prop) s :
  o = Some a -> Q a s -> wpx E (must o msg) Q s.
Proof. by intros ->. Qed.

Lemma wpx_assert b msg (Q : unit -> S -> Prop) s : b = true -> Q tt s -> wpx E (ASSERT b msg) Q s.
Proof. by intros ->. Qed.

Lemma wpx_range (I : Z -> S -> Prop) lo hi f s :
  lo <= hi -> I lo s ->
  (forall i s0, lo <= i < hi -> I i s0 -> wpx E (f i) (fun _ => I (i + 1)) s0) ->
  wpx E (for_each (range lo hi) f) (fun _ => I hi) s.
Proof.
  intros Hlh HI Hf. remember (Z.to_nat (hi - lo)) as n eqn:En. revert lo s Hlh HI Hf En.
  induction n as [|n IH]; intros lo s Hlh HI Hf En.
  - rewrite range_nil by lia. by replace hi with lo by lia.
  - rewrite range_cons by lia. simpl. apply wpx_bind.
    eapply wpx_mono; [apply Hf; [lia|done]|]. intros [] s1 H1.
    apply IH; [lia|done| |lia]. intros i s0 Hi. apply Hf. lia.
Qed.

Lemma wpx_zoom {T A} (get : S -> T) (put : T -> S -> S) (m : M T A) (Q : A -> S -> Prop) s :
  wpx E m (fun a t => Q a (put t s)) (get s) -> wpx E (zoom get put m) Q s.
Proof. unfold wpx, zoom. by destruct (m (get s)) as [[a t]|]. Qed.

End Wpx.

(** ** Bytes of a buffer *)

(** The [n] bytes at [off], and the buffer with [data] at [off]; [None] when
    they are not inside the buffer. *)
Definition get_bytes (buf : list Z) (off n : Z) : option (list Z) :=
  if (0 <=? off) && (0 <=? n) && (off + n <=? Z.of_nat (length buf))
  then Some (take (Z.to_nat n) (drop (Z.to_nat off) buf)) else None.

Definition put_bytes (buf : list Z) (off : Z) (data : list Z) : option (list Z) :=
  if (0 <=? off) && (off + Z.of_nat (length data) <=? Z.of_nat (length buf))
  then Some (take (Z.to_nat off) buf ++ data ++ drop (Z.to_nat off + length data) buf) else None.

(** The bytes [lo] to [hi - 1] of a list. *)
Definition slice (l : list Z) (lo hi : Z) : list Z := take (Z.to_nat (hi - lo)) (drop (Z.to_nat lo) l).

Lemma length_slice l lo hi :
  0 <= lo <= hi -> hi <= Z.of_nat (length l) -> length (slice l lo hi) = Z.to_nat (hi - lo).
Proof. intros. unfold slice. rewrite length_take, length_drop. lia. Qed.

Lemma slice_app l lo mid hi :
  0 <= lo <= mid -> mid <= hi -> slice l lo hi = slice l lo mid ++ slice l mid hi.
Proof.
  intros. unfold slice. replace (Z.to_nat (hi - lo)) with (Z.to_nat (mid - lo) + Z.to_nat (hi - mid))%nat by lia.
  rewrite <- take_take_drop, drop_drop. do 3 f_equal. lia.
Qed.

Lemma slice_nil l lo : slice l lo lo = [].
Proof. unfold slice. by rewrite Z.sub_diag. Qed.

Lemma lookup_slice l lo hi i :
  0 <= lo -> slice l lo hi !! i = if decide (Z.of_nat i < hi - lo) then l !! (Z.to_nat lo + i)%nat else None.
Proof.
  intros. unfold slice. case_decide.
  - by rewrite lookup_take_lt, lookup_drop by lia.
  - by rewrite lookup_take_ge by lia.
Qed.

Lemma slice_slice l lo hi a b :
  0 <= lo -> 0 <= a -> b <= hi - lo -> slice (slice l lo hi) a b = slice l (lo + a) (lo + b).
Proof.
  intros. apply list_eq. intros i. rewrite !lookup_slice by lia.
  destruct (decide (Z.of_nat i < b - a)) as [?|?], (decide (Z.of_nat i < lo + b - (lo + a))) as [?|?]; try lia; [|done].
  rewrite decide_True by lia. f_equal. lia.
Qed.

Lemma get_bytes_slice buf off n :
  0 <= off -> 0 <= n -> off + n <= Z.of_nat (length buf) -> get_bytes buf off n = Some (slice buf off (off + n)).
Proof.
  intros. unfold get_bytes, slice. rewrite (proj2 (Z.leb_le 0 off)), (proj2 (Z.leb_le 0 n)), (proj2 (Z.leb_le _ _)) by lia.
  simpl. by replace (off + n - off) with n by lia.
Qed.

Lemma put_bytes_some buf off data :
  0 <= off -> off + Z.of_nat (length data) <= Z.of_nat (length buf) ->
  put_bytes buf off data = Some (take (Z.to_nat off) buf ++ data ++ drop (Z.to_nat off + length data) buf).
Proof. intros. unfold put_bytes. by rewrite (proj2 (Z.leb_le 0 off)), (proj2 (Z.leb_le _ _)) by lia. Qed.

Lemma length_put_bytes buf off data buf' : put_bytes buf off data = Some buf' -> length buf' = length buf.
Proof.
  unfold put_bytes. case_match eqn:E; [|done]. breflect. intros [= <-].
  rewrite !length_app, length_take, length_drop. lia.
Qed.

Lemma put_bytes_front buf data :
  (length data <= length buf)%nat -> put_bytes buf 0 data = Some (data ++ drop (length data) buf).
Proof. intros. rewrite put_bytes_some by lia. done. Qed.

Lemma put_bytes_whole buf data : length data = length buf -> put_bytes buf 0 data = Some data.
Proof. intros E. rewrite put_bytes_front, E, drop_all, app_nil_r by lia. done. Qed.
