(* ===== verification/Math.v ===== *)
(** * Integer helpers: [src/math.c], [src/kernel_map.h], [src/kernel_map_asm.S]

    The arithmetic of [math.c] with its 32-bit wrap-around, and the address
    helpers of [kernel_map.h].  The divisor of [ceil_x_over_y_u32],
    [round_up_u32] and [round_down_u32] is a non-zero constant at every call
    (a zero divisor is a cpu fault, outside these functions). *)

From S2P Require Import Prelude.

Definition PAGE_SIZE : Z := 4096.

(** ** math.c *)

Definition max_u32 (x y : Z) : Z := if x >? y then x else y.
Definition min_u32 (x y : Z) : Z := if x <? y then x else y.
Definition max_u64 (x y : Z) : Z := if x >? y then x else y.
Definition min_u64 (x y : Z) : Z := if x <? y then x else y.

Definition ceil_x_over_y_u32 (x y : Z) : Z :=
  u32 (x / y + b2z (negb (x mod y =? 0))).

Definition round_up_u32 (x m : Z) : Z :=
  u32 ((x / m + b2z (negb (x mod m =? 0))) * m).

Definition round_down_u32 (x m : Z) : Z := u32 ((x / m) * m).

(** ** kernel_map.h and kernel_map_asm.S *)

Definition KERNEL_PHY_OFFSET : Z := 0xC0000000.

Definition to_phys (ptr : Z) : Z := u32 (ptr - KERNEL_PHY_OFFSET).
Definition to_virt (ptr : Z) : Z := u32 (ptr + KERNEL_PHY_OFFSET).

(** [and eax, ~0xFFF] *)
Definition get_page_addr (ptr : Z) : Z := Z.land ptr 0xFFFFF000.

Definition ptr_in_range (ptr start end_ : Z) : bool := (start <=? ptr) && (ptr <=? end_).

Definition is_higher_half (p : Z) : bool := ptr_in_range p KERNEL_PHY_OFFSET 0xFFFFFFFF.

Definition is_4kib_aligned (p : Z) : bool := Z.land p 0xFFF =? 0.

Definition is_kernel_addr (addr : Z) : bool := KERNEL_PHY_OFFSET <=? addr.
Definition is_user_addr (addr : Z) : bool := negb (is_kernel_addr addr).

(** [diff] is a [ptrdiff_t], a signed 32-bit integer. *)
Definition in_low_mem (p : Z) : bool := s32 (p - KERNEL_PHY_OFFSET) <? 2 ^ 20.

(** ** Lemmas *)

Lemma min_u32_min x y : min_u32 x y = Z.min x y.
Proof. unfold min_u32. destruct (Z.ltb_spec x y); lia. Qed.

Lemma max_u32_max x y : max_u32 x y = Z.max x y.
Proof. unfold max_u32. rewrite Z.gtb_ltb. destruct (Z.ltb_spec y x); lia. Qed.

(** The rounding step common to [ceil_x_over_y_u32] and [round_up_u32]. *)
Lemma ceil_step x y :
  0 < y ->
  x <= (x / y + b2z (negb (x mod y =? 0))) * y < x + y.
Proof.
  intros Hy. pose proof (Z.div_mod x y ltac:(lia)). pose proof (Z.mod_pos_bound x y Hy).
  destruct (Z.eqb_spec (x mod y) 0); simpl; nia.
Qed.

Lemma ceil_quot_le x y :
  0 <= x -> 0 < y -> 0 <= x / y + b2z (negb (x mod y =? 0)) <= x.
Proof.
  intros Hx Hy. pose proof (Z.div_mod x y ltac:(lia)). pose proof (Z.mod_pos_bound x y Hy).
  pose proof (Z.div_pos x y Hx Hy).
  destruct (Z.eqb_spec (x mod y) 0); simpl; nia.
Qed.

Lemma ceil_no_wrap x y :
  0 <= x < 2 ^ 32 -> 0 < y ->
  ceil_x_over_y_u32 x y = x / y + b2z (negb (x mod y =? 0)).
Proof.
  intros Hx Hy. pose proof (ceil_quot_le x y ltac:(lia) Hy).
  unfold ceil_x_over_y_u32. apply u32_id. lia.
Qed.

(** [ceil_x_over_y_u32] is the ceiling of the quotient: no wrap-around happens
    on 32-bit arguments. *)
Lemma ceil_x_over_y_bound x y :
  0 <= x < 2 ^ 32 -> 0 < y ->
  x <= ceil_x_over_y_u32 x y * y < x + y.
Proof. intros Hx Hy. rewrite ceil_no_wrap by done. by apply ceil_step. Qed.

Lemma ceil_exact q y :
  0 <= q * y < 2 ^ 32 -> 0 < y -> ceil_x_over_y_u32 (q * y) y = q.
Proof.
  intros Hx Hy. rewrite ceil_no_wrap by done.
  rewrite Z.mod_mul, Z.div_mul by lia. simpl. lia.
Qed.

Lemma round_up_no_wrap x m :
  0 <= x -> 0 < m -> x + m <= 2 ^ 32 ->
  round_up_u32 x m = (x / m + b2z (negb (x mod m =? 0))) * m.
Proof.
  intros Hx Hm Hb. pose proof (ceil_step x m Hm).
  unfold round_up_u32. apply u32_id. lia.
Qed.

Lemma get_page_addr_div p :
  0 <= p < 2 ^ 32 -> get_page_addr p = p / 4096 * 4096.
Proof.
  intros Hp. unfold get_page_addr.
  replace 0xFFFFF000 with (Z.shiftl (Z.ones 20) 12) by reflexivity.
  replace (p / 4096 * 4096) with (Z.shiftl (Z.shiftr p 12) 12)
    by (rewrite Z.shiftl_mul_pow2, Z.shiftr_div_pow2 by lia; reflexivity).
  apply Z.bits_inj'. intros n Hn. rewrite Z.land_spec, !Z.shiftl_spec by lia.
  destruct (Z.lt_ge_cases n 12) as [Hlt|Hge].
  - rewrite (Z.testbit_neg_r (Z.ones 20)), (Z.testbit_neg_r (Z.shiftr p 12)) by lia.
    by rewrite andb_false_r.
  - rewrite Z.shiftr_spec by lia. replace (n - 12 + 12) with n by lia.
    destruct (Z.lt_ge_cases n 32) as [Hlt|Hge2].
    + rewrite Z.ones_spec_low by lia. by rewrite andb_true_r.
    + rewrite Z.ones_spec_high by lia. rewrite andb_false_r. symmetry.
      destruct (Z.eq_dec p 0) as [->|Hp0]; [by rewrite Z.testbit_0_l|].
      apply Z.bits_above_log2; [lia|]. apply Z.log2_lt_pow2; [lia|].
      assert (2 ^ 32 <= 2 ^ n) by (apply Z.pow_le_mono_r; lia). lia.
Qed.

Lemma is_4kib_aligned_mod p : is_4kib_aligned p = (p mod 4096 =? 0).
Proof.
  unfold is_4kib_aligned. change 0xFFF with (Z.ones 12).
  rewrite Z.land_ones by lia. reflexivity.
Qed.

Lemma to_virt_to_phys p : 0 <= p < 2 ^ 32 -> to_virt (to_phys p) = p.
Proof.
  intros Hp. unfold to_virt, to_phys, u32. rewrite Zplus_mod_idemp_l.
  replace (p - KERNEL_PHY_OFFSET + KERNEL_PHY_OFFSET) with p by lia.
  by apply Z.mod_small.
Qed.
