(* ===== verification/Bits.v ===== *)
(** * Bit fields

    The C structs with bit fields ([segment_descriptor_t], page directory and
    page table entries, interrupt gates) are unions of a machine word with a
    sequence of fields, the first field in the lowest bits.  [pack] is the
    word of a sequence of fields, [bits] reads a field of a word. *)

From S2P Require Import Prelude.

(** A field: its width and its value. *)
Abbreviation field := (Z * Z)%type.

Fixpoint pack (fs : list field) : Z :=
  match fs with
  | [] => 0
  | (w, v) :: fs' => v mod 2 ^ w + 2 ^ w * pack fs'
  end.

Definition bits (off w v : Z) : Z := (v / 2 ^ off) mod 2 ^ w.

Definition total_width (ws : list Z) : Z := fold_right Z.add 0 ws.

(** The fields of a word. *)
Fixpoint unpack (ws : list Z) (v : Z) : list Z :=
  match ws with
  | [] => []
  | w :: ws' => v mod 2 ^ w :: unpack ws' (v / 2 ^ w)
  end.

Definition widths_ok (ws : list Z) : Prop := Forall (fun w => 0 <= w) ws.

Lemma widths_okb ws : forallb (Z.leb 0) ws = true -> widths_ok ws.
Proof. intros Hw. apply Forall_forall. intros w Hin. apply Z.leb_le. eapply forallb_forall in Hw; [done|]. by apply list_elem_of_In. Qed.

Lemma total_width_nonneg ws : widths_ok ws -> 0 <= total_width ws.
Proof. induction 1; simpl; lia. Qed.

Lemma pow2_pos w : 0 <= w -> 0 < 2 ^ w.
Proof. intros. by apply Z.pow_pos_nonneg. Qed.

Lemma pack_range fs : widths_ok (map fst fs) -> 0 <= pack fs < 2 ^ total_width (map fst fs).
Proof.
  induction fs as [|[w v] fs IH]; intros Hw; [done|]. apply Forall_cons in Hw as [Hw Hws]. simpl in *.
  specialize (IH Hws). pose proof (total_width_nonneg _ Hws). pose proof (pow2_pos w Hw).
  rewrite Z.pow_add_r by done. pose proof (Z.mod_pos_bound v (2 ^ w) ltac:(lia)).
  generalize dependent (v mod 2 ^ w). generalize dependent (2 ^ w). generalize dependent (2 ^ total_width (map fst fs)).
  intros Q HQ P HP m Hm. nia.
Qed.

(** Reading the fields of a word that was packed gives them back, cut to
    their widths. *)
Lemma unpack_pack fs : widths_ok (map fst fs) -> unpack (map fst fs) (pack fs) = map (fun f => f.2 mod 2 ^ f.1) fs.
Proof.
  induction fs as [|[w v] fs IH]; intros Hw; [done|]. apply Forall_cons in Hw as [Hw Hws]. simpl in *.
  pose proof (pow2_pos w Hw) as Hp. pose proof (Z.mod_pos_bound v (2 ^ w) Hp).
  rewrite (Z.mul_comm (2 ^ w)), Z.mod_add, Z.div_add, Z.mod_mod, (Z.div_small (v mod _)) by lia. f_equal. by apply IH.
Qed.

(** Packing the fields of a word gives the word back. *)
Lemma pack_unpack ws v : widths_ok ws -> 0 <= v < 2 ^ total_width ws -> pack (zip ws (unpack ws v)) = v.
Proof.
  intros Hw. revert v. induction Hw as [|w ws Hw Hws IH]; intros v Hv; [simpl in *; lia|]. simpl in *.
  pose proof (pow2_pos w Hw) as Hp. pose proof (total_width_nonneg _ Hws). rewrite Z.pow_add_r in Hv by done.
  rewrite IH.
  - rewrite Z.mod_mod by lia. pose proof (Z.div_mod v (2 ^ w)). lia.
  - split; [apply Z.div_pos; lia|apply Z.div_lt_upper_bound; lia].
Qed.

Lemma bits_range off w v : 0 <= w -> 0 <= bits off w v < 2 ^ w.
Proof. intros Hw. by apply Z.mod_pos_bound, pow2_pos. Qed.

(** Reading one field of a word that was packed. *)
Lemma bits_pack fs1 w v fs2 :
  widths_ok (map fst (fs1 ++ (w, v) :: fs2)) -> bits (total_width (map fst fs1)) w (pack (fs1 ++ (w, v) :: fs2)) = v mod 2 ^ w.
Proof.
  intros Hw. unfold bits. induction fs1 as [|[w1 v1] fs1 IH]; simpl in *; apply Forall_cons in Hw as [Hw Hws].
  - pose proof (pow2_pos w Hw). rewrite Z.div_1_r, (Z.mul_comm (2 ^ w)), Z.mod_add, Z.mod_mod by lia. done.
  - pose proof (pow2_pos w1 Hw) as Hp. pose proof (Z.mod_pos_bound v1 (2 ^ w1) Hp).
    assert (Hws1 : widths_ok (map fst fs1)) by (rewrite map_app in Hws; by apply Forall_app in Hws as [? _]).
    pose proof (total_width_nonneg _ Hws1). rewrite Z.pow_add_r, <- Z.div_div by (try apply pow2_pos; lia).
    rewrite (Z.mul_comm (2 ^ w1) (pack _)), Z.div_add, (Z.div_small (v1 mod _)) by lia. by apply IH.
Qed.

(** Masks and shifts, as the C code writes them. *)
Lemma bits_shift off w v : 0 <= off -> 0 <= w -> Z.land (Z.shiftr v off) (Z.ones w) = bits off w v.
Proof. intros. by rewrite Z.land_ones, Z.shiftr_div_pow2. Qed.

(** A word cut at two places. *)
Lemma bits_join off w1 w2 v : 0 <= off -> 0 <= w1 -> 0 <= w2 ->
  bits off w1 v + 2 ^ w1 * bits (off + w1) w2 v = bits off (w1 + w2) v.
Proof.
  intros. unfold bits. pose proof (pow2_pos off). pose proof (pow2_pos w1). pose proof (pow2_pos w2).
  rewrite !Z.pow_add_r, <- Z.div_div by lia. set (x := v / 2 ^ off). by rewrite Z.rem_mul_r by lia.
Qed.

Lemma bits_all off w v : 0 <= off -> 0 <= w -> bits 0 off v + 2 ^ off * bits off w v = v mod 2 ^ (off + w).
Proof. intros. pose proof (bits_join 0 off w v) as E. rewrite Z.add_0_l in E. rewrite E by lia. unfold bits. by rewrite Z.div_1_r. Qed.

Lemma bits_pack_nth fs (i : nat) off w v :
  widths_ok (map fst fs) -> fs !! i = Some (w, v) -> off = total_width (map fst (take i fs)) ->
  bits off w (pack fs) = v mod 2 ^ w.
Proof.
  intros Hw Hi ->. apply list_elem_of_split_length in Hi as (l1 & l2 & -> & ->).
  rewrite take_app_length. by apply bits_pack.
Qed.

Lemma shift_mask off w v mask : 0 <= off -> 0 <= w -> mask = Z.shiftl (Z.ones w) off ->
  Z.shiftr (Z.land v mask) off = bits off w v.
Proof.
  intros Ho Hw ->. rewrite Z.shiftr_land, Z.shiftr_shiftl_l, Z.sub_diag, Z.shiftl_0_r by done. by apply bits_shift.
Qed.

Lemma bits_mod off w v : 0 <= w -> bits off w v mod 2 ^ w = bits off w v.
Proof. intros Hw. apply Z.mod_small. by apply bits_range. Qed.
