(* ===== verification/Percpu.v ===== *)
(** * Preemption and checked access to per-cpu variables: [src/sched_core.c]
    ([preempt_disable] to [preempt_reset]), [src/percpu.c]
    ([check_percpu_prerequisites])

    The code is written over what it needs of the cpu ([CpuVars]): the
    interrupt flag, the value of GS, and the variables [preempt_count] and
    [sched_running] of the cpu, read without a check.  [schedule] is the
    function of [sched_core.c] that [preempt_enable] calls when a running
    scheduler may preempt again. *)

From S2P Require Import Prelude.

Class CpuVars (S : Type) := {
  interrupts_enabled : M S bool;
  cpu_set_interrupt_flag : bool -> M S unit;
  cpu_read_gs : M S Z;
  read_preempt_count : M S Z;
  write_preempt_count : Z -> M S unit;
  read_sched_running : M S bool }.

Section Preempt.
Context {S : Type} `{CpuVars S} (schedule : M S unit).

Definition preemptible : M S bool :=
  do int_flag <- interrupts_enabled;
  cpu_set_interrupt_flag false;;;
  do count <- read_preempt_count;
  let res := (count =? 0) && int_flag in
  cpu_set_interrupt_flag int_flag;;;
  ret res.

(** The [preempt_disable] in front of the [PANIC] changes the counter of a cpu
    that stops. *)
Definition check_percpu_prerequisites : M S unit :=
  do gs <- cpu_read_gs;
  ASSERT (negb (gs =? 0)) "cpu_read_gs().value";;;
  do p <- preemptible;
  when p (panic "Access to percpu var while being preemptible").

(** [this_cpu_var(var)], given the access without the check. *)
Definition this_cpu_var {B} (access : M S B) : M S B :=
  check_percpu_prerequisites;;; access.

Definition preempt_disable : M S unit :=
  do int_flag <- interrupts_enabled;
  cpu_set_interrupt_flag false;;;
  do count <- this_cpu_var read_preempt_count;
  write_preempt_count (u32 (count + 1));;;
  cpu_set_interrupt_flag int_flag.

Definition do_preempt_enable (resched : bool) : M S unit :=
  do int_flag <- interrupts_enabled;
  cpu_set_interrupt_flag false;;;
  do count <- this_cpu_var read_preempt_count;
  ASSERT (negb (count =? 0)) "this_cpu_var(preempt_count)";;;
  do count <- this_cpu_var read_preempt_count;
  let count := u32 (count - 1) in
  write_preempt_count count;;;
  do running <- this_cpu_var read_sched_running;
  cpu_set_interrupt_flag int_flag;;;
  when (resched && (count =? 0) && running) schedule.

Definition preempt_enable : M S unit := do_preempt_enable true.
Definition preempt_enable_no_resched : M S unit := do_preempt_enable false.
Definition preempt_reset : M S unit := write_preempt_count 0.

(** [preempt_disable(); x = this_cpu_var(var); preempt_enable();] *)
Definition with_preempt_disabled {B} (m : M S B) : M S B :=
  preempt_disable;;;
  do x <- m;
  preempt_enable;;;
  ret x.

End Preempt.

(** ** What the operations on the variables of a cpu promise

    [cv_ok s]: GS selects the variables of the cpu.  The four values are kept
    apart from the rest of the state. *)

Record cpu_view := mk_view { v_if : bool; v_count : Z; v_running : bool; v_gs : Z }.

Class CpuVarsLaws (S : Type) `{CpuVars S} := {
  cv_ok : S -> Prop;
  cv_view : S -> cpu_view;
  cv_put : cpu_view -> S -> S;
  cv_put_ok s v : cv_ok s -> v_gs v = v_gs (cv_view s) -> cv_ok (cv_put v s);
  cv_view_put s v : cv_ok s -> v_gs v = v_gs (cv_view s) -> cv_view (cv_put v s) = v;
  cv_put_put s v w : cv_ok s -> v_gs v = v_gs (cv_view s) -> v_gs w = v_gs v ->
    cv_put w (cv_put v s) = cv_put w s;
  cv_put_view s : cv_ok s -> cv_put (cv_view s) s = s;
  cv_gs s : cv_ok s -> v_gs (cv_view s) <> 0;
  cv_interrupts_enabled s : cv_ok s -> interrupts_enabled s = Ok (v_if (cv_view s), s);
  cv_set_interrupt_flag s b : cv_ok s -> cpu_set_interrupt_flag b s =
    Ok (tt, cv_put (mk_view b (v_count (cv_view s)) (v_running (cv_view s)) (v_gs (cv_view s))) s);
  cv_read_gs s : cv_ok s -> cpu_read_gs s = Ok (v_gs (cv_view s), s);
  cv_read_count s : cv_ok s -> read_preempt_count s = Ok (v_count (cv_view s), s);
  cv_write_count s n : cv_ok s -> write_preempt_count n s =
    Ok (tt, cv_put (mk_view (v_if (cv_view s)) n (v_running (cv_view s)) (v_gs (cv_view s))) s);
  cv_read_running s : cv_ok s -> read_sched_running s = Ok (v_running (cv_view s), s) }.

Section Laws.
Context {S : Type} `{CpuVarsLaws S} (schedule : M S unit).
Implicit Types (s : S).

(** The state with another counter and interrupt flag. *)
Definition set_preempt (i : bool) (n : Z) s : S :=
  cv_put (mk_view i n (v_running (cv_view s)) (v_gs (cv_view s))) s.

Lemma set_preempt_ok i n s : cv_ok s -> cv_ok (set_preempt i n s).
Proof. intros Hs. by apply cv_put_ok. Qed.

Lemma set_preempt_view i n s : cv_ok s ->
  cv_view (set_preempt i n s) = mk_view i n (v_running (cv_view s)) (v_gs (cv_view s)).
Proof. intros Hs. by apply cv_view_put. Qed.

Lemma set_preempt_twice i n j k s : cv_ok s -> set_preempt j k (set_preempt i n s) = set_preempt j k s.
Proof. intros Hs. unfold set_preempt at 1. rewrite set_preempt_view by done. by apply cv_put_put. Qed.

Lemma set_preempt_same s : cv_ok s -> set_preempt (v_if (cv_view s)) (v_count (cv_view s)) s = s.
Proof. intros Hs. unfold set_preempt. etransitivity; [|by apply cv_put_view]. by destruct (cv_view s). Qed.

Lemma set_flag_run s b : cv_ok s -> cpu_set_interrupt_flag b s = Ok (tt, set_preempt b (v_count (cv_view s)) s).
Proof. apply cv_set_interrupt_flag. Qed.

Lemma write_count_run s n : cv_ok s -> write_preempt_count n s = Ok (tt, set_preempt (v_if (cv_view s)) n s).
Proof. apply cv_write_count. Qed.

Lemma preemptible_run s : cv_ok s ->
  preemptible s = Ok ((v_count (cv_view s) =? 0) && v_if (cv_view s), s).
Proof.
  intros Hs. unfold preemptible. erewrite bind_ok by by apply cv_interrupts_enabled.
  erewrite bind_ok by by apply set_flag_run. pose proof (set_preempt_ok false (v_count (cv_view s)) s Hs) as Hs1.
  erewrite bind_ok by by apply cv_read_count. erewrite bind_ok by by apply set_flag_run.
  unfold ret. rewrite set_preempt_view, set_preempt_twice by done. simpl. by rewrite set_preempt_same.
Qed.

Lemma check_run s : cv_ok s -> v_if (cv_view s) = false \/ v_count (cv_view s) <> 0 ->
  check_percpu_prerequisites s = Ok (tt, s).
Proof.
  intros Hs Hp. unfold check_percpu_prerequisites. erewrite bind_ok by by apply cv_read_gs.
  rewrite (proj2 (Z.eqb_neq _ _)) by by apply cv_gs. erewrite bind_ok by reflexivity.
  erewrite bind_ok by by apply preemptible_run.
  destruct Hp as [->|Hp]; [by rewrite andb_false_r|by rewrite (proj2 (Z.eqb_neq _ _) Hp)].
Qed.

Lemma this_cpu_var_run {B} (m : M S B) s : cv_ok s -> v_if (cv_view s) = false \/ v_count (cv_view s) <> 0 ->
  this_cpu_var m s = m s.
Proof. intros Hs Hp. unfold this_cpu_var. by erewrite bind_ok by by apply check_run. Qed.

(** An access by a process that can be preempted stops the kernel. *)
Lemma this_cpu_var_preemptible {B} (m : M S B) s : cv_ok s -> v_if (cv_view s) = true -> v_count (cv_view s) = 0 ->
  this_cpu_var m s = Halt (Panic "Access to percpu var while being preemptible").
Proof.
  intros Hs Hi Hc. unfold this_cpu_var. apply bind_halt. unfold check_percpu_prerequisites.
  erewrite bind_ok by by apply cv_read_gs. rewrite (proj2 (Z.eqb_neq _ _)) by by apply cv_gs.
  erewrite bind_ok by reflexivity. erewrite bind_ok by by apply preemptible_run. by rewrite Hi, Hc.
Qed.

Lemma preempt_disable_run s : cv_ok s ->
  preempt_disable s = Ok (tt, set_preempt (v_if (cv_view s)) (u32 (v_count (cv_view s) + 1)) s).
Proof.
  intros Hs. unfold preempt_disable. erewrite bind_ok by by apply cv_interrupts_enabled.
  erewrite bind_ok by by apply set_flag_run. pose proof (set_preempt_ok false (v_count (cv_view s)) s Hs) as Hs1.
  erewrite bind_ok by (rewrite this_cpu_var_run; [by apply cv_read_count|done|left; by rewrite set_preempt_view]).
  rewrite set_preempt_view by done. simpl v_count.
  erewrite bind_ok by by apply write_count_run. rewrite set_preempt_twice, set_preempt_view by done. simpl v_if.
  rewrite set_flag_run by by apply set_preempt_ok. rewrite set_preempt_twice, set_preempt_view by done. done.
Qed.

Lemma do_preempt_enable_run s resched : cv_ok s -> 0 < v_count (cv_view s) < 2 ^ 32 ->
  do_preempt_enable schedule resched s =
    when (resched && (v_count (cv_view s) =? 1) && v_running (cv_view s)) schedule
      (set_preempt (v_if (cv_view s)) (v_count (cv_view s) - 1) s).
Proof.
  intros Hs Hc. unfold do_preempt_enable. erewrite bind_ok by by apply cv_interrupts_enabled.
  erewrite bind_ok by by apply set_flag_run. pose proof (set_preempt_ok false (v_count (cv_view s)) s Hs) as Hs1.
  erewrite bind_ok by (rewrite this_cpu_var_run; [by apply cv_read_count|done|left; by rewrite set_preempt_view]).
  rewrite set_preempt_view by done. simpl v_count. rewrite (proj2 (Z.eqb_neq _ 0)) by lia. erewrite bind_ok by reflexivity.
  erewrite bind_ok by (rewrite this_cpu_var_run; [by apply cv_read_count|done|left; by rewrite set_preempt_view]).
  rewrite set_preempt_view by done. simpl v_count. rewrite u32_id by lia.
  erewrite bind_ok by by apply write_count_run. rewrite set_preempt_twice, set_preempt_view by done. simpl v_if.
  pose proof (set_preempt_ok false (v_count (cv_view s) - 1) s Hs) as Hs2.
  erewrite bind_ok by (rewrite this_cpu_var_run; [by apply cv_read_running|done|left; by rewrite set_preempt_view]).
  erewrite bind_ok by by apply set_flag_run. rewrite set_preempt_twice, set_preempt_view by done. simpl.
  by replace (v_count (cv_view s) - 1 =? 0) with (v_count (cv_view s) =? 1) by lia.
Qed.

(** Enabling preemption more often than it was disabled stops the kernel. *)
Lemma do_preempt_enable_zero s resched : cv_ok s -> v_count (cv_view s) = 0 ->
  do_preempt_enable schedule resched s = Halt (Panic "this_cpu_var(preempt_count)").
Proof.
  intros Hs Hc. unfold do_preempt_enable. erewrite bind_ok by by apply cv_interrupts_enabled.
  erewrite bind_ok by by apply set_flag_run. pose proof (set_preempt_ok false (v_count (cv_view s)) s Hs) as Hs1.
  erewrite bind_ok by (rewrite this_cpu_var_run; [by apply cv_read_count|done|left; by rewrite set_preempt_view]).
  rewrite set_preempt_view by done. simpl v_count. by rewrite Hc.
Qed.

(** A section without preemption that does not change the counter, entered
    below the scheduler or with preemption disabled already. *)
Lemma with_preempt_disabled_run {B} (m : M S B) b s s' :
  cv_ok s -> 0 <= v_count (cv_view s) < 2 ^ 32 - 1 -> 0 < v_count (cv_view s) \/ v_running (cv_view s) = false ->
  m (set_preempt (v_if (cv_view s)) (v_count (cv_view s) + 1) s) = Ok (b, s') -> cv_ok s' ->
  cv_view s' = mk_view (v_if (cv_view s)) (v_count (cv_view s) + 1) (v_running (cv_view s)) (v_gs (cv_view s)) ->
  with_preempt_disabled schedule m s = Ok (b, set_preempt (v_if (cv_view s)) (v_count (cv_view s)) s').
Proof.
  intros Hs Hc Hr Hm Hs' Ev. unfold with_preempt_disabled. erewrite bind_ok by by apply preempt_disable_run.
  rewrite u32_id by lia. erewrite bind_ok by exact Hm. unfold preempt_enable. unfold bind at 1.
  rewrite do_preempt_enable_run by (rewrite ?Ev; simpl; first [done|lia]). rewrite Ev. simpl.
  replace (v_count (cv_view s) + 1 - 1) with (v_count (cv_view s)) by lia.
  destruct Hr as [Hr|Hr]; [rewrite (proj2 (Z.eqb_neq _ 1)) by lia; done|]. rewrite Hr, andb_false_r. done.
Qed.

End Laws.
