(* ===== verification/DList.v ===== *)
(** * Doubly linked lists: [src/list.h], [src/list.c]

    A list node is a pair of pointers embedded in a larger struct.  The store
    maps the address of every [struct list_node] in memory to its value, so
    that the aliasing the code relies on (a node that is its own neighbour, a
    head that is both the first and the last neighbour) is the store's.
    Reading or writing a field through a pointer that is not the address of a
    list node traps.

    [dll s head xs] says that [head] is the head of a well-formed circular
    list whose entries, in the order of [list_for_each], are [xs]; the
    operations are specified by what they do to [xs], with a frame. *)

From S2P Require Import Prelude.

Record list_node := mk_node { prev : Z; next : Z }.

#[export] Instance list_node_eq_dec : EqDecision list_node.
Proof. solve_decision. Defined.

Abbreviation store := (gmap Z list_node).

(** ** Field accesses *)

Definition rd (a : Z) : M store list_node :=
  fun s => must (s !! a) "list_node" s.

Definition set_prev (a p : Z) : M store unit :=
  do n <- rd a; modify <[a := mk_node p (next n)]>.

Definition set_next (a q : Z) : M store unit :=
  do n <- rd a; modify <[a := mk_node (prev n) q]>.

(** ** list.c *)

Definition list_init (node : Z) : M store unit :=
  modify <[node := mk_node node node]>.

Definition list_add_between (p node n : Z) : M store unit :=
  set_next p node;;;
  set_prev n node;;;
  set_prev node p;;;
  set_next node n.

Definition list_add (head n : Z) : M store unit :=
  do h <- rd head; list_add_between head n (next h).

Definition list_add_tail (head n : Z) : M store unit :=
  do h <- rd head; list_add_between (prev h) n head.

Definition list_del (node : Z) : M store unit :=
  do n1 <- rd node; set_next (prev n1) (next n1);;;
  do n2 <- rd node; set_prev (next n2) (prev n2);;;
  list_init node.

Definition list_empty (head : Z) : M store bool :=
  do h <- rd head; ret (next h =? head).

(** ** Traversals

    [list_fold] is the loop of [list_for_each] and [list_for_each_entry]: the
    cursor starts at [head->next] and stops at [head]; the body either leaves
    the loop ([inl], the code's [break] or [return]) or continues ([inr]).
    [nxt] reads the [next] field of the cursor in the state of the component
    that owns the list.  The loop is given [fuel] steps; a traversal that is
    not over after one step per list node in memory never meets the head. *)

Fixpoint list_fold {S B} (fuel : nat) (nxt : Z -> M S Z) (head cursor : Z)
    (body : Z -> B -> M S (B + B)) (acc : B) : M S B :=
  if cursor =? head then ret acc else
  match fuel with
  | O => halt_with (Hang "list_for_each")
  | Datatypes.S fuel' =>
      do r <- body cursor acc;
      match r with
      | inl b => ret b
      | inr b => do c <- nxt cursor; list_fold fuel' nxt head c body b
      end
  end.

Definition list_for_each {S B} (fuel : nat) (nxt : Z -> M S Z) (head : Z)
    (body : Z -> B -> M S (B + B)) (acc : B) : M S B :=
  do c <- nxt head; list_fold fuel nxt head c body acc.

Definition next_of (a : Z) : M store Z := do n <- rd a; ret (next n).

Definition list_size (head : Z) : M store Z :=
  do fuel <- gets size;
  list_for_each fuel next_of head (fun _ n => ret (inr (u32 (n + 1)))) 0.

(** [list_first] and [list_last] *)
Definition list_first (head : Z) : M store Z := do h <- rd head; ret (next h).
Definition list_last (head : Z) : M store Z := do h <- rd head; ret (prev h).

(** ** Well-formed lists *)

Definition nxt_is (s : store) (a b : Z) : Prop := next <$> s !! a = Some b.
Definition prv_is (s : store) (b a : Z) : Prop := prev <$> s !! b = Some a.

(** The two fields that make [b] follow [a]. *)
Definition link (s : store) (a b : Z) : Prop := nxt_is s a b /\ prv_is s b a.

Fixpoint chain (s : store) (path : list Z) : Prop :=
  match path with
  | x :: ((y :: _) as rest) => link s x y /\ chain s rest
  | _ => True
  end.

Definition dll (s : store) (head : Z) (xs : list Z) : Prop :=
  chain s (head :: xs ++ [head]) /\ NoDup (head :: xs).

(** ** Lemmas on chains *)

Lemma chain_cons2 s x y l : chain s (x :: y :: l) <-> link s x y /\ chain s (y :: l).
Proof. done. Qed.

Lemma chain_split s l1 x l2 :
  chain s (l1 ++ x :: l2) <-> chain s (l1 ++ [x]) /\ chain s (x :: l2).
Proof.
  induction l1 as [|a l1 IH]; [by simpl; intuition|].
  destruct l1 as [|b l1]; simpl in *; [tauto|]. rewrite IH. tauto.
Qed.

Lemma chain_frame s s' path :
  chain s path ->
  (forall a, a ∈ removelast path -> next <$> s' !! a = next <$> s !! a) ->
  (forall b, b ∈ tail path -> prev <$> s' !! b = prev <$> s !! b) ->
  chain s' path.
Proof.
  induction path as [|x [|y l] IH]; [done..|]. intros [[Hn Hp] Hc] Hfn Hfp.
  split; [split|].
  - unfold nxt_is. rewrite Hfn; [done|]. simpl. by left.
  - unfold prv_is. rewrite Hfp; [done|]. simpl. by left.
  - apply IH; [done| |].
    + intros a Ha. apply Hfn. change (removelast (x :: y :: l)) with (x :: removelast (y :: l)).
      by right.
    + intros b Hb. apply Hfp. simpl in *. by right.
Qed.

Lemma removelast_snoc (l : list Z) x : removelast (l ++ [x]) = l.
Proof. apply removelast_last. Qed.

(** What a write of the three nodes around an insertion or removal point does. *)
Lemma link_insert_elim s a b : link s a b -> is_Some (s !! a) /\ is_Some (s !! b).
Proof.
  intros [Hn Hp]. unfold nxt_is, prv_is in *.
  destruct (s !! a), (s !! b); simplify_eq/=; eauto.
Qed.

(** A segment of the list is untouched when the nodes whose links changed are
    the two ends of the change. *)
Lemma chain_outside s s' (l1 l2 : list Z) (p n : Z) :
  chain s (l1 ++ [p]) -> chain s (n :: l2) ->
  (forall a, a ∈ l1 ++ removelast (n :: l2) -> next <$> s' !! a = next <$> s !! a) ->
  (forall b, b ∈ tail (l1 ++ [p]) ++ l2 -> prev <$> s' !! b = prev <$> s !! b) ->
  chain s' (l1 ++ [p]) /\ chain s' (n :: l2).
Proof.
  intros H1 H2 Hn Hp. split.
  - eapply chain_frame; [done|..].
    + intros a. rewrite removelast_snoc. intros. apply Hn, elem_of_app; auto.
    + intros b ?. apply Hp, elem_of_app; auto.
  - eapply chain_frame; [done|..].
    + intros a ?. apply Hn, elem_of_app; auto.
    + intros b ?. apply Hp, elem_of_app; auto.
Qed.

(** ** Specifications of the field accesses *)

Lemma wp_rd a s nd (Q : list_node -> store -> Prop) :
  s !! a = Some nd -> Q nd s -> wp (rd a) Q s.
Proof. intros H HQ. unfold wp, rd. by rewrite H. Qed.

Lemma wp_set_prev a p s nd (Q : unit -> store -> Prop) :
  s !! a = Some nd -> Q tt (<[a := mk_node p (next nd)]> s) -> wp (set_prev a p) Q s.
Proof. intros H HQ. apply wp_bind. eapply wp_rd; [done|]. by apply wp_modify. Qed.

Lemma wp_set_next a q s nd (Q : unit -> store -> Prop) :
  s !! a = Some nd -> Q tt (<[a := mk_node (prev nd) q]> s) -> wp (set_next a q) Q s.
Proof. intros H HQ. apply wp_bind. eapply wp_rd; [done|]. by apply wp_modify. Qed.

(** What [list_add_between] does to the store. *)
Record spliced (s s' : store) (p node n : Z) : Prop := {
  spl_p : nxt_is s' p node;
  spl_n : prv_is s' n node;
  spl_node : s' !! node = Some (mk_node p n);
  spl_next : forall a, a <> p -> a <> node -> next <$> s' !! a = next <$> s !! a;
  spl_prev : forall b, b <> n -> b <> node -> prev <$> s' !! b = prev <$> s !! b;
  spl_frame : forall a, a <> p -> a <> n -> a <> node -> s' !! a = s !! a;
  spl_dom : dom s' = dom s }.

(** What unlinking a node between [p] and [n] does to the store. *)
Record unspliced (s s' : store) (p node n : Z) : Prop := {
  uns_p : nxt_is s' p n;
  uns_n : prv_is s' n p;
  uns_node : s' !! node = Some (mk_node node node);
  uns_next : forall a, a <> p -> a <> node -> next <$> s' !! a = next <$> s !! a;
  uns_prev : forall b, b <> n -> b <> node -> prev <$> s' !! b = prev <$> s !! b;
  uns_frame : forall a, a <> p -> a <> n -> a <> node -> s' !! a = s !! a;
  uns_dom : dom s' = dom s }.

(** Solve a goal on the lookups of an updated store. *)
Ltac store_solve :=
  unfold nxt_is, prv_is in *; intros; subst;
  repeat (rewrite lookup_insert; case_decide; subst);
  simplify_eq/=;
  repeat match goal with
  | H : ?s !! ?a = Some _ |- context [?s !! ?a] => rewrite H
  end; try congruence; try done.

Lemma dom_insert_present (s : store) a nd :
  is_Some (s !! a) -> dom (<[a := nd]> s) = dom s.
Proof. intros H. rewrite dom_insert_L. apply elem_of_dom in H. set_solver. Qed.

Ltac dom_solve :=
  repeat rewrite dom_insert_present; [done|..];
  repeat (rewrite lookup_insert; case_decide); eauto.

Lemma list_add_between_spec s p node n :
  is_Some (s !! p) -> is_Some (s !! n) -> is_Some (s !! node) ->
  node <> p -> node <> n ->
  wp (list_add_between p node n) (fun _ s' => spliced s s' p node n) s.
Proof.
  intros [np Hp] [nn Hn] [nd Hd] Hnp Hnn. unfold list_add_between.
  apply wp_bind. eapply wp_set_next; [done|].
  apply wp_bind. destruct (decide (p = n)) as [<-|Hpn].
  - eapply wp_set_prev; [by rewrite lookup_insert_eq|].
    apply wp_bind. eapply wp_set_prev; [by rewrite !lookup_insert_ne by done|].
    eapply wp_set_next; [by rewrite lookup_insert_eq|].
    split; store_solve. dom_solve.
  - eapply wp_set_prev; [by rewrite lookup_insert_ne by done|].
    apply wp_bind. eapply wp_set_prev; [by rewrite !lookup_insert_ne by done|].
    eapply wp_set_next; [by rewrite lookup_insert_eq|].
    split; store_solve. dom_solve.
Qed.

Lemma list_del_spec s p node n :
  link s p node -> link s node n -> node <> p -> node <> n ->
  wp (list_del node) (fun _ s' => unspliced s s' p node n) s.
Proof.
  intros Hl1 Hl2 Hnp Hnn.
  destruct (link_insert_elim _ _ _ Hl1) as [[np Hp] [nd Hd]].
  destruct (link_insert_elim _ _ _ Hl2) as [_ [nn Hn]].
  destruct Hl1 as [Hpn Hprev], Hl2 as [Hnext Hnp']. unfold nxt_is, prv_is in *.
  rewrite Hd in Hprev, Hnext. rewrite Hp in Hpn. rewrite Hn in Hnp'. simplify_eq/=.
  unfold list_del. apply wp_bind. eapply wp_rd; [done|].
  apply wp_bind. eapply wp_set_next; [done|].
  apply wp_bind. eapply wp_rd; [by rewrite lookup_insert_ne by congruence|].
  apply wp_bind. destruct (decide (prev nd = next nd)) as [E|Hne].
  - rewrite E in *. eapply wp_set_prev; [by rewrite lookup_insert_eq|].
    apply wp_modify. split; store_solve. dom_solve.
  - eapply wp_set_prev; [by rewrite lookup_insert_ne by congruence|].
    apply wp_modify. split; store_solve. dom_solve.
Qed.

(** ** Specifications of the operations on lists *)

Lemma dll_NoDup s h xs : dll s h xs -> NoDup (h :: xs).
Proof. by intros []. Qed.

Lemma dll_chain s h xs : dll s h xs -> chain s (h :: xs ++ [h]).
Proof. by intros []. Qed.

(** A list read between two neighbours [p] and [n]. *)
Lemma path_split (h p n : Z) (l0 l1 l2 l3 : list Z) :
  h :: l1 = l0 ++ [p] -> l2 ++ [h] = n :: l3 ->
  h :: (l1 ++ l2) ++ [h] = l0 ++ p :: n :: l3.
Proof.
  intros H1 H2. rewrite <- app_assoc, H2, app_comm_cons, H1, <- app_assoc. done.
Qed.

(** The two neighbours occur nowhere else on their side of the list. *)
Lemma path_sides (h p n : Z) (l0 l1 l2 l3 : list Z) :
  h :: l1 = l0 ++ [p] -> l2 ++ [h] = n :: l3 -> NoDup (h :: l1 ++ l2) ->
  (forall a, a ∈ l0 ++ removelast (n :: l3) -> a <> p /\ a ∈ h :: l1 ++ l2) /\
  (forall b, b ∈ tail (l0 ++ [p]) ++ l3 -> b <> n /\ b ∈ h :: l1 ++ l2).
Proof.
  intros H1 H2 Hnd. rewrite <- H2, removelast_snoc, <- H1. simpl. split.
  - intros a Ha. rewrite app_comm_cons, H1 in Hnd |- *.
    assert (NoDup (p :: l0 ++ l2)) as [Hp _]%NoDup_cons.
    { eapply NoDup_perm; [|exact Hnd]. solve_Permutation. }
    split; [by intros ->|]. set_solver.
  - intros b Hb.
    assert (NoDup (n :: l1 ++ l3)) as [Hn _]%NoDup_cons.
    { eapply NoDup_perm; [|exact Hnd].
      transitivity (l1 ++ (l2 ++ [h])); [solve_Permutation|]. rewrite H2. solve_Permutation. }
    split; [by intros ->|]. assert (b ∈ l1 ++ l2 ++ [h]) by (rewrite H2; set_solver). set_solver.
Qed.

Lemma path_present s h p n l0 l1 l2 l3 :
  h :: l1 = l0 ++ [p] -> l2 ++ [h] = n :: l3 -> dll s h (l1 ++ l2) ->
  link s p n /\ p ∈ h :: l1 ++ l2 /\ n ∈ h :: l1 ++ l2.
Proof.
  intros H1 H2 [Hc _]. erewrite path_split in Hc by done.
  apply chain_split in Hc as [_ [Hl _]]. split_and!; [done| |].
  - rewrite app_comm_cons, H1. set_solver.
  - assert (n ∈ l2 ++ [h]) by (rewrite H2; set_solver). set_solver.
Qed.

Lemma dll_splice s s' h p node n l0 l1 l2 l3 :
  h :: l1 = l0 ++ [p] -> l2 ++ [h] = n :: l3 ->
  dll s h (l1 ++ l2) -> node ∉ h :: l1 ++ l2 -> spliced s s' p node n ->
  dll s' h (l1 ++ node :: l2).
Proof.
  intros H1 H2 [Hc Hnd] Hnode Hs. destruct (path_sides _ _ _ _ _ _ _ H1 H2 Hnd) as [Ha Hb].
  erewrite path_split in Hc by done. apply chain_split in Hc as [Hc1 [Hl Hc2]].
  destruct (chain_outside s s' l0 l3 p n Hc1 Hc2) as [Hc1' Hc2'].
  { intros a Hin. destruct (Ha a Hin). apply Hs; [done|]. by intros ->. }
  { intros b Hin. destruct (Hb b Hin). apply Hs; [done|]. by intros ->. }
  split.
  - erewrite (path_split h p node l0 l1 (node :: l2) (n :: l3)); [|done|by rewrite <- H2].
    apply chain_split. split; [done|].
    split; [split; [apply Hs|unfold prv_is; by rewrite (spl_node _ _ _ _ _ Hs)]|].
    split; [|done]. split; [unfold nxt_is; by rewrite (spl_node _ _ _ _ _ Hs)|apply Hs].
  - eapply NoDup_perm; [|apply NoDup_cons; split; [exact Hnode|exact Hnd]].
    solve_Permutation.
Qed.

Lemma dll_unsplice s s' h p node n l0 l1 l2 l3 :
  h :: l1 = l0 ++ [p] -> l2 ++ [h] = n :: l3 ->
  dll s h (l1 ++ node :: l2) -> unspliced s s' p node n ->
  dll s' h (l1 ++ l2).
Proof.
  intros H1 H2 [Hc Hnd] Hs.
  assert (NoDup (node :: h :: l1 ++ l2)) as [Hnode Hnd']%NoDup_cons.
  { eapply NoDup_perm; [|exact Hnd]. solve_Permutation. }
  destruct (path_sides _ _ _ _ _ _ _ H1 H2 Hnd') as [Ha Hb].
  erewrite (path_split h p node l0 l1 (node :: l2) (n :: l3)) in Hc; [|done|by rewrite <- H2].
  apply chain_split in Hc as [Hc1 [_ [_ Hc2]]].
  destruct (chain_outside s s' l0 l3 p n Hc1 Hc2) as [Hc1' Hc2'].
  { intros a Hin. destruct (Ha a Hin). apply Hs; [done|]. by intros ->. }
  { intros b Hin. destruct (Hb b Hin). apply Hs; [done|]. by intros ->. }
  split; [|done]. erewrite path_split by done. apply chain_split. split; [done|].
  split; [|done]. split; apply Hs.
Qed.

(** Only the nodes of [xs] changed, and no node appeared or disappeared. *)
Definition touches (xs : list Z) (s s' : store) : Prop :=
  (forall a, a ∉ xs -> s' !! a = s !! a) /\ dom s' = dom s.

Lemma split_first (h : Z) (l : list Z) : exists n l3, l ++ [h] = n :: l3.
Proof. destruct l; simpl; eauto. Qed.

Lemma split_last (h : Z) (l : list Z) : exists l0 p, h :: l = l0 ++ [p].
Proof.
  destruct (exists_last (l := h :: l)) as (l0 & p & E); [done|]. eauto.
Qed.

Section Operations.
Context (s : store) (h : Z).

(** [list_add] behind any node of a list, the head included. *)
Lemma list_add_after l0 p l1 l2 node :
  h :: l1 = l0 ++ [p] -> dll s h (l1 ++ l2) ->
  node ∉ h :: l1 ++ l2 -> is_Some (s !! node) ->
  wp (list_add p node)
    (fun _ s' => dll s' h (l1 ++ node :: l2) /\ touches (node :: h :: l1 ++ l2) s s') s.
Proof.
  intros H1 Hd Hnode Hs. destruct (split_first h l2) as (n & l3 & H2).
  destruct (path_present _ _ _ _ _ _ _ _ H1 H2 Hd) as (Hl & Hp & Hn).
  destruct (link_insert_elim _ _ _ Hl) as [[np Enp] ?].
  assert (next np = n) as <-. { destruct Hl as [Hx _]. unfold nxt_is in Hx. by rewrite Enp in Hx; simplify_eq/=. }
  unfold list_add. apply wp_bind. eapply wp_rd; [done|].
  eapply wp_mono; [apply list_add_between_spec; [by eauto|by eauto|done|by intros ->|by intros ->]|].
  intros [] s' Hsp. split; [by eapply dll_splice|]. split; [|apply Hsp].
  intros a Ha. apply Hsp; set_solver.
Qed.

(** [list_add_tail] before any node of a list, the head included. *)
Lemma list_add_before n l1 l2 l3 node :
  l2 ++ [h] = n :: l3 -> dll s h (l1 ++ l2) ->
  node ∉ h :: l1 ++ l2 -> is_Some (s !! node) ->
  wp (list_add_tail n node)
    (fun _ s' => dll s' h (l1 ++ node :: l2) /\ touches (node :: h :: l1 ++ l2) s s') s.
Proof.
  intros H2 Hd Hnode Hs. destruct (split_last h l1) as (l0 & p & H1).
  destruct (path_present _ _ _ _ _ _ _ _ H1 H2 Hd) as (Hl & Hp & Hn).
  destruct (link_insert_elim _ _ _ Hl) as [? [nn Enn]].
  assert (prev nn = p) as <-. { destruct Hl as [_ Hx]. unfold prv_is in Hx. by rewrite Enn in Hx; simplify_eq/=. }
  unfold list_add_tail. apply wp_bind. eapply wp_rd; [done|].
  eapply wp_mono; [apply list_add_between_spec; [by eauto|by eauto|done|by intros ->|by intros ->]|].
  intros [] s' Hsp. split; [by eapply dll_splice|]. split; [|apply Hsp].
  intros a Ha. apply Hsp; set_solver.
Qed.

Lemma list_add_tail_wp xs node :
  dll s h xs -> node ∉ h :: xs -> is_Some (s !! node) ->
  wp (list_add_tail h node)
    (fun _ s' => dll s' h (xs ++ [node]) /\ touches (node :: h :: xs) s s') s.
Proof.
  intros Hd Hnode Hs. pose proof (list_add_before h xs [] [] node eq_refl) as H.
  rewrite app_nil_r in H. by apply H.
Qed.

Lemma list_del_wp l1 l2 node :
  dll s h (l1 ++ node :: l2) ->
  wp (list_del node)
    (fun _ s' => dll s' h (l1 ++ l2) /\ dll s' node [] /\
                 touches (h :: l1 ++ node :: l2) s s') s.
Proof.
  intros Hd. destruct (split_last h l1) as (l0 & p & H1).
  destruct (split_first h l2) as (n & l3 & H2).
  assert (NoDup (node :: h :: l1 ++ l2)) as [Hnode Hnd]%NoDup_cons.
  { eapply NoDup_perm; [|exact (dll_NoDup _ _ _ Hd)]. solve_Permutation. }
  assert (link s p node /\ link s node n) as [Hl1 Hl2].
  { destruct Hd as [Hc _].
    erewrite (path_split h p node l0 l1 (node :: l2) (n :: l3)) in Hc; [|done|by rewrite <- H2].
    apply chain_split in Hc as [_ [? [? _]]]. done. }
  assert (p ∈ h :: l1) by (rewrite H1; set_solver).
  assert (n ∈ l2 ++ [h]) by (rewrite H2; set_solver).
  eapply wp_mono; [eapply (list_del_spec _ p node n); [done|done|set_solver|set_solver]|].
  intros [] s' Hs. split_and!; [by eapply dll_unsplice| |split; [|apply Hs]].
  - split; [|by apply NoDup_singleton]. simpl. split; [|done].
    split; [unfold nxt_is|unfold prv_is]; by rewrite (uns_node _ _ _ _ _ Hs).
  - intros a Ha. apply Hs; set_solver.
Qed.

Lemma list_empty_wp xs :
  dll s h xs ->
  wp (list_empty h) (fun b s' => s' = s /\ b = bool_decide (xs = [])) s.
Proof.
  intros [Hc Hnd]. unfold list_empty. destruct xs as [|x xs].
  - destruct Hc as [[Hx _] _]. unfold nxt_is in Hx. destruct (s !! h) as [nd|] eqn:E; [|done].
    simplify_eq/=. apply wp_bind. eapply wp_rd; [done|]. split; [done|]. simpl. lia.
  - destruct Hc as [[Hx _] _]. unfold nxt_is in Hx. destruct (s !! h) as [nd|] eqn:E; [|done].
    simplify_eq/=. apply wp_bind. eapply wp_rd; [done|]. split; [done|].
    apply Z.eqb_neq. apply NoDup_cons in Hnd. set_solver.
Qed.

End Operations.

Lemma list_init_dll s node : dll (<[node := mk_node node node]> s) node [].
Proof.
  split; [|by apply NoDup_singleton]. simpl. split; [|done].
  split; [unfold nxt_is|unfold prv_is]; by rewrite lookup_insert_eq.
Qed.

(** ** Traversals *)

Lemma dll_next s h l1 x l2 : dll s h (l1 ++ x :: l2) -> nxt_is s x (hd h l2).
Proof.
  intros [Hc _].
  replace (h :: (l1 ++ x :: l2) ++ [h]) with ((h :: l1) ++ x :: l2 ++ [h]) in Hc
    by (simpl; by rewrite <- app_assoc).
  apply chain_split in Hc as [_ Hc]. destruct l2; apply Hc.
Qed.

Lemma dll_head_next s h xs : dll s h xs -> nxt_is s h (hd h xs).
Proof. intros [Hc _]. destruct xs; apply Hc. Qed.

Lemma dll_prev s h l1 x l2 : dll s h (l1 ++ x :: l2) -> prv_is s x (List.last l1 h).
Proof.
  intros [Hc _]. destruct (exists_last (l := h :: l1)) as (l0 & p & E); [done|].
  replace (h :: (l1 ++ x :: l2) ++ [h]) with (l0 ++ p :: x :: l2 ++ [h]) in Hc.
  - apply chain_split in Hc as [_ [[_ Hp] _]].
    replace (List.last l1 h) with p; [done|].
    transitivity (List.last (h :: l1) h); [by rewrite E, List.last_last|]. by destruct l1.
  - rewrite <- app_assoc, !app_comm_cons, E. rewrite <- app_assoc. done.
Qed.

Lemma dll_head_prev s h xs : dll s h xs -> prv_is s h (List.last xs h).
Proof.
  intros [Hc _]. destruct (exists_last (l := h :: xs)) as (l0 & p & E); [done|].
  rewrite app_comm_cons, E, <- app_assoc in Hc.
  apply chain_split in Hc as [_ [[_ Hp] _]].
  replace (List.last xs h) with p; [done|].
  transitivity (List.last (h :: xs) h); [by rewrite E, List.last_last|]. by destruct xs.
Qed.

(** A list whose nodes did not change is the same list. *)
Lemma dll_frame s s' h xs :
  dll s h xs -> (forall a, a ∈ h :: xs -> s' !! a = s !! a) -> dll s' h xs.
Proof.
  intros [Hc Hnd] Hf. split; [|done].
  assert (Hsub : forall a, a ∈ h :: xs ++ [h] -> s' !! a = s !! a) by (intros; apply Hf; set_solver).
  eapply chain_frame; [done|..].
  - intros a Ha. rewrite Hsub; [done|]. rewrite app_comm_cons, removelast_snoc in Ha. set_solver.
  - intros b Hb. rewrite Hsub; [done|]. simpl in Hb. set_solver.
Qed.

Lemma dll_present s h xs x : dll s h xs -> x ∈ h :: xs -> is_Some (s !! x).
Proof.
  intros Hd Hx. assert (exists b, nxt_is s x b) as [b Hb].
  { apply elem_of_cons in Hx as [->|(l1 & l2 & ->)%list_elem_of_split];
      eauto using dll_head_next, dll_next. }
  unfold nxt_is in Hb. destruct (s !! x); [eauto|done].
Qed.

Lemma dll_head_notin s h xs : dll s h xs -> h ∉ xs.
Proof. by intros [_ [? _]%NoDup_cons]. Qed.

Lemma dll_fuel s h xs : dll s h xs -> (length xs <= size s)%nat.
Proof.
  intros Hd. rewrite <- size_dom.
  rewrite <- (size_list_to_set (C := gset Z) xs) by (eapply NoDup_cons_1_2, dll_NoDup; done).
  apply subseteq_size. intros x Hx%elem_of_list_to_set. apply elem_of_dom.
  eapply dll_present; [done|]. set_solver.
Qed.

Lemma wp_next_of s a b (Q : Z -> store -> Prop) :
  nxt_is s a b -> Q b s -> wp (next_of a) Q s.
Proof.
  unfold nxt_is. intros Hn HQ. destruct (s !! a) as [nd|] eqn:E; [|done]. simplify_eq/=.
  apply wp_bind. by eapply wp_rd.
Qed.

Section Fold.
Context {S B : Type} (nxt : Z -> M S Z) (head : Z) (body : Z -> B -> M S (B + B)).
Context (I : list Z -> B -> S -> Prop) (Q : B -> S -> Prop).

(** The body, on the cursor and with [rest] still to visit, either leaves the
    loop with the result, or the next cursor is the first of [rest]. *)
Definition fold_step : Prop :=
  forall x rest b s, I (x :: rest) b s ->
    wp (body x b) (fun r s' =>
      match r with
      | inl b' => Q b' s'
      | inr b' => wp (nxt x) (fun c s'' => c = hd head rest /\ I rest b' s'') s'
      end) s.

Lemma wp_list_fold fuel xs b s :
  fold_step -> (forall b s, I [] b s -> Q b s) ->
  head ∉ xs -> (length xs <= fuel)%nat -> I xs b s ->
  wp (list_fold fuel nxt head (hd head xs) body b) Q s.
Proof.
  intros Hstep Hend. revert xs b s. induction fuel as [|fuel IH]; intros [|x rest] b s Hh Hf HI;
    simpl in *; try lia.
  - rewrite Z.eqb_refl. by apply Hend.
  - rewrite Z.eqb_refl. by apply Hend.
  - apply not_elem_of_cons in Hh as [Hx Hh].
    rewrite (proj2 (Z.eqb_neq x head)) by done. apply wp_bind.
    eapply wp_mono; [by apply Hstep|]. intros [b'|b'] s' Hb; [done|].
    apply wp_bind. eapply wp_mono; [exact Hb|]. intros c s'' [-> HI'].
    apply IH; [done|lia|done].
Qed.

Lemma wp_list_for_each fuel xs b s :
  fold_step -> (forall b s, I [] b s -> Q b s) ->
  head ∉ xs -> (length xs <= fuel)%nat ->
  wp (nxt head) (fun c s' => c = hd head xs /\ I xs b s') s ->
  wp (list_for_each fuel nxt head body b) Q s.
Proof.
  intros. apply wp_bind. eapply wp_mono; [done|]. intros c s' [-> HI].
  by apply wp_list_fold.
Qed.

End Fold.

(** ** Programs over one list, and what they mean *)

(** The calls a client makes on the list of head [h]: add behind a node of the
    list (the head included), add at the tail, remove. *)
Inductive list_op :=
| OpAdd (p node : Z)
| OpAddTail (node : Z)
| OpDel (node : Z).

Definition run_op (h : Z) (o : list_op) : M store unit :=
  match o with
  | OpAdd p node => list_add p node
  | OpAddTail node => list_add_tail h node
  | OpDel node => list_del node
  end.

(** Insert [node] behind the first occurrence of [p]. *)
Fixpoint insert_after (p node : Z) (l : list Z) : option (list Z) :=
  match l with
  | [] => None
  | x :: l' => if decide (x = p) then Some (x :: node :: l')
               else cons x <$> insert_after p node l'
  end.

Fixpoint remove_one (node : Z) (l : list Z) : option (list Z) :=
  match l with
  | [] => None
  | x :: l' => if decide (x = node) then Some l' else cons x <$> remove_one node l'
  end.

(** The meaning of a call on the sequence of entries; [None] is a call the
    interface does not allow (adding a node twice, removing an absent one). *)
Definition spec_op (h : Z) (o : list_op) (xs : list Z) : option (list Z) :=
  match o with
  | OpAdd p node =>
      if decide (node ∈ h :: xs) then None else tail <$> insert_after p node (h :: xs)
  | OpAddTail node => if decide (node ∈ h :: xs) then None else Some (xs ++ [node])
  | OpDel node => remove_one node xs
  end.

Definition op_node (o : list_op) : Z :=
  match o with OpAdd _ node | OpAddTail node | OpDel node => node end.

Fixpoint spec_ops (h : Z) (os : list list_op) (xs : list Z) : option (list Z) :=
  match os with
  | [] => Some xs
  | o :: os' => xs' ← spec_op h o xs; spec_ops h os' xs'
  end.

Lemma insert_after_split p node l l' :
  insert_after p node l = Some l' ->
  exists l0 l2, l = l0 ++ p :: l2 /\ l' = l0 ++ p :: node :: l2.
Proof.
  revert l'. induction l as [|x l IH]; intros l' H; simpl in *; [done|]. case_decide; simplify_eq.
  - by exists [], l.
  - apply fmap_Some in H as (k & Hk & ->). destruct (IH k Hk) as (l0 & l2 & -> & ->).
    by exists (x :: l0), l2.
Qed.

Lemma remove_one_split node l l' :
  remove_one node l = Some l' -> exists l1 l2, l = l1 ++ node :: l2 /\ l' = l1 ++ l2.
Proof.
  revert l'. induction l as [|x l IH]; intros l' H; simpl in *; [done|]. case_decide; simplify_eq.
  - by exists [], l'.
  - apply fmap_Some in H as (k & Hk & ->). destruct (IH k Hk) as (l1 & l2 & -> & ->).
    by exists (x :: l1), l2.
Qed.

Lemma touches_weaken xs ys s s' : touches xs s s' -> xs ⊆ ys -> touches ys s s'.
Proof. intros [Hf ?] Hsub. split; [|done]. intros a Ha. apply Hf. set_solver. Qed.

Lemma touches_trans xs s1 s2 s3 : touches xs s1 s2 -> touches xs s2 s3 -> touches xs s1 s3.
Proof.
  intros [Hf1 Hd1] [Hf2 Hd2]. split; [|congruence]. intros a Ha. by rewrite Hf2, Hf1.
Qed.

Lemma run_op_wp s h o xs xs' :
  dll s h xs -> is_Some (s !! op_node o) -> spec_op h o xs = Some xs' ->
  wp (run_op h o)
    (fun _ s' => dll s' h xs' /\ xs' ⊆ op_node o :: xs /\
                 touches (op_node o :: h :: xs) s s') s.
Proof.
  intros Hd Hs Ho. destruct o as [p node|node|node]; simpl in *.
  - case_decide as Hin; [done|]. apply fmap_Some in Ho as (k & Hk & ->).
    destruct (insert_after_split p node (h :: xs) k Hk) as (l0 & l2 & E & ->).
    assert (exists l1, h :: l1 = l0 ++ [p] /\ xs = l1 ++ l2) as (l1 & E1 & ->).
    { destruct l0 as [|y l0]; simplify_eq/=; [by exists []|]. exists (l0 ++ [p]).
      by rewrite <- app_assoc. }
    replace (tail (l0 ++ p :: node :: l2)) with (l1 ++ node :: l2)
      by (change (p :: node :: l2) with ([p] ++ node :: l2); by rewrite app_assoc, <- E1).
    eapply wp_mono; [by eapply list_add_after|].
    intros [] s' [? ?]. split_and!; [done|set_solver|done].
  - case_decide as Hin; [done|]. simplify_eq. eapply wp_mono; [by eapply list_add_tail_wp|].
    intros [] s' [? ?]. split_and!; [done|set_solver|done].
  - destruct (remove_one_split _ _ _ Ho) as (l1 & l2 & -> & ->).
    eapply wp_mono; [by eapply list_del_wp|]. intros [] s' (? & ? & ?).
    split_and!; [done|set_solver|]. eapply touches_weaken; [done|set_solver].
Qed.

(** [list_size] terminates on every well-formed list (the fuel of the
    traversal, one step per list node in memory, always suffices), returns the
    number of entries as an [uint32_t] and changes nothing. *)
Lemma list_size_run (s : store) (h : Z) (xs : list Z) :
  dll s h xs -> list_size h s = Ok (u32 (Z.of_nat (length xs)), s).
Proof.
  intros Hd.
  assert (wp (list_size h) (fun n s' => s' = s /\ n = u32 (Z.of_nat (length xs))) s) as Hw.
  { unfold list_size. apply wp_bind, wp_gets.
    eapply (wp_list_for_each _ _ _
      (fun rest n s' => s' = s /\ exists done, xs = done ++ rest /\ n = u32 (Z.of_nat (length done)))).
    - intros x rest b s' (-> & l & -> & ->). apply wp_ret.
      eapply wp_next_of; [by eapply dll_next|]. split_and!; [done..|].
      exists (l ++ [x]). rewrite <- app_assoc, length_app. split; [done|]. simpl. dlia.
    - intros b s' (-> & l & -> & ->). by rewrite app_nil_r.
    - by eapply dll_head_notin.
    - by eapply dll_fuel.
    - eapply wp_next_of; [by eapply dll_head_next|]. split_and!; [done..|]. by exists []. }
  apply wp_ok in Hw as (n & s' & E & -> & ->). done.
Qed.

(** The list seen from its first entry. *)
Lemma dll_rotate s h x xs : dll s h (x :: xs) -> dll s x (xs ++ [h]).
Proof.
  intros [Hc Hn]. split.
  - simpl in Hc. destruct Hc as [Hl Hc]. rewrite <- app_assoc. change (x :: xs ++ [h] ++ [x]) with ((x :: xs) ++ h :: [x]).
    apply chain_split. split; [done|]. by split.
  - eapply NoDup_perm; [|exact Hn]. simpl. rewrite (Permutation_app_comm xs [h]). simpl. apply Permutation_swap.
Qed.

(** [list_del] of the head of a list with entries leaves an empty list. *)
Lemma list_del_head_wp s h xs :
  dll s h xs -> xs <> [] -> wp (list_del h) (fun _ s' => dll s' h []) s.
Proof.
  intros Hd Hne. destruct xs as [|x xs]; [done|]. apply dll_rotate in Hd.
  eapply wp_mono; [by apply (list_del_wp s x xs [] h)|]. naive_solver.
Qed.

(** ** Properties *)

(** any sequence of [list_add], [list_add_tail] and [list_del] calls the
    interface allows runs without a fault on a well-formed list, leaves a
    well-formed circular list holding exactly the entries the sequence
    semantics gives, in that order, and changes no node other than the head,
    the entries and the arguments of the calls. *)
Theorem list_ops_refine (s : store) (h : Z) (os : list list_op) (xs ys : list Z) :
  dll s h xs ->
  (forall o, o ∈ os -> is_Some (s !! op_node o)) ->
  spec_ops h os xs = Some ys ->
  wp (for_each os (run_op h))
    (fun _ s' => dll s' h ys /\ touches (h :: xs ++ map op_node os) s s') s.
Proof.
  revert s xs. induction os as [|o os IH]; intros s xs Hd Hs Hspec.
  { simplify_eq/=. by split. }
  simpl in Hspec. apply bind_Some in Hspec as (xs' & Ho & Hspec).
  simpl. apply wp_bind. eapply wp_mono; [eapply run_op_wp; [done| |done]|].
  { apply Hs. by left. }
  intros [] s1 (Hd1 & Hsub & Ht1). eapply wp_mono; [apply (IH s1 xs'); [done| |done]|].
  - intros o' Ho'. apply elem_of_dom. rewrite (proj2 Ht1). apply elem_of_dom, Hs. by right.
  - intros [] s2 [Hd2 Ht2]. split; [done|]. eapply touches_trans.
    + eapply touches_weaken; [exact Ht1|set_solver].
    + eapply touches_weaken; [exact Ht2|set_solver].
Qed.

Lemma list_ops_refine_witness :
  let s := <[3 := mk_node 3 3]> (<[2 := mk_node 2 2]> (<[1 := mk_node 1 1]> ∅)) in
  wp (for_each [OpAddTail 2; OpAdd 1 3; OpDel 2] (run_op 1))
    (fun _ s' => dll s' 1 [3] /\ touches (1 :: [] ++ [2; 3; 2]) s s') s.
Proof.
  intros s. apply (list_ops_refine s 1 [OpAddTail 2; OpAdd 1 3; OpDel 2] [] [3]).
  - split; [|by apply NoDup_singleton]. split; [|done]. by split; vm_compute.
  - intros o Ho. repeat (apply elem_of_cons in Ho as [->|Ho]; [by vm_compute; eexists|]).
    by apply not_elem_of_nil in Ho.
  - by vm_compute.
Defined.
