(* ===== verification/Bitmap.v ===== *)
(** * Bitmaps: [src/bitmap.h], [src/bitmap.c], [src/bitmap_asm.S]

    A bitmap is its [size] in bits, the number of [free] bits and the array of
    32-bit words [data] points to.  A word bit of 1 stands for a bit that is
    not set, so that the search for the next bit is a [BSF].  The assembly
    routines are translated instruction group by instruction group: the bounds
    check and its [int3], [BTR]/[BTS]/[BT] with a signed bit offset from the
    start of the array, the word scan of [bitmap_set_next_bit].

    The abstract value of a bitmap is the set of its free indices
    ([free_bits]); each operation is shown to implement the corresponding
    operation on sets. *)

From S2P Require Import Prelude Math.

Record bitmap := mk_bitmap {
  bm_size : Z;
  bm_free : Z;
  bm_data : list Z }.

Definition BITMAP_WORD_COUNT (size : Z) : Z := size / 32 + b2z (negb (size mod 32 =? 0)).

Definition BM_NPOS : Z := 0xFFFFFFFF.

Definition set_free (n : Z) (b : bitmap) : bitmap := mk_bitmap (bm_size b) n (bm_data b).
Definition set_data (d : list Z) (b : bitmap) : bitmap := mk_bitmap (bm_size b) (bm_free b) d.

(** ** bitmap.c *)

(** [memset] of the first [n] words of the array; [word] is four times the byte. *)
Definition fill_words (n : Z) (word : Z) : M bitmap unit :=
  do d <- gets bm_data;
  if n <=? Z.of_nat (length d)
  then modify (set_data (replicate (Z.to_nat n) word ++ drop (Z.to_nat n) d))
  else halt_with (Trap "memset").

Definition bitmap_reset : M bitmap unit :=
  do size <- gets bm_size;
  modify (set_free size);;;
  fill_words (BITMAP_WORD_COUNT size) 0xFFFFFFFF.

Definition bitmap_set_all : M bitmap unit :=
  do size <- gets bm_size;
  modify (set_free 0);;;
  fill_words (BITMAP_WORD_COUNT size) 0.

Definition bitmap_init (size : Z) (data : list Z) (default_val : bool) : M bitmap unit :=
  modify (fun b => mk_bitmap size (bm_free b) data);;;
  if default_val then bitmap_set_all else bitmap_reset.

(** ** bitmap_asm.S *)

Definition assert_bounds (idx : Z) : M bitmap unit :=
  do size <- gets bm_size;
  if idx <? size then ret tt else halt_with (Trap "int3").

(** The word a bit-test instruction with a memory operand accesses: the bit
    offset is a signed integer. *)
Definition bt_word (idx : Z) : Z := Z.shiftr (s32 idx) 5.
Definition bt_bit (idx : Z) : Z := Z.land idx 31.

Definition word_at (d : list Z) (w : Z) : option Z :=
  if w <? 0 then None else d !! Z.to_nat w.

(** The instruction: the carry flag is the old value of the bit, and [f]
    gives the new word. *)
Definition bit_op (f : Z -> Z -> Z) (idx : Z) : M bitmap bool :=
  do d <- gets bm_data;
  do word <- must (word_at d (bt_word idx)) "data";
  modify (set_data (<[Z.to_nat (bt_word idx) := f word (bt_bit idx)]> d));;;
  ret (Z.testbit word (bt_bit idx)).

Definition btr : Z -> M bitmap bool := bit_op Z.clearbit.
Definition bts : Z -> M bitmap bool := bit_op Z.setbit.
Definition bt : Z -> M bitmap bool := bit_op (fun word _ => word).

Definition bitmap_set (idx : Z) : M bitmap unit :=
  assert_bounds idx;;;
  do cf <- btr idx;
  when cf (modify (fun b => set_free (u32 (bm_free b - 1)) b)).

Definition bitmap_unset (idx : Z) : M bitmap unit :=
  assert_bounds idx;;;
  do cf <- bts idx;
  when (negb cf) (modify (fun b => set_free (u32 (bm_free b + 1)) b)).

Definition bitmap_get_bit (idx : Z) : M bitmap bool :=
  assert_bounds idx;;;
  do cf <- bt idx;
  ret (negb cf).

Definition bitmap_is_full : M bitmap bool :=
  do n <- gets bm_free; ret (n =? 0).

(** [BSF]: the index of the least significant 1 bit of a non-zero word. *)
Fixpoint pos_ctz (p : positive) : Z :=
  match p with
  | xO p' => 1 + pos_ctz p'
  | _ => 0
  end.

Definition bsf (w : Z) : Z := match w with Zpos p => pos_ctz p | _ => 0 end.

(** The loop [.L_find_bit] over the words from the current one on; [edi] is
    the index of the current word, [ecx] the first bit of it to consider.
    [None] is the loop running past the end of the array. *)
Fixpoint find_bit (words : list Z) (edi ecx : Z) : option Z :=
  match words with
  | [] => None
  | ebx :: rest =>
      if ebx =? 0 then find_bit rest (u32 (edi + 1)) 0 else
      let ebx' := if ecx =? 0 then ebx
                  else Z.land ebx (u32 (Z.shiftl 0xFFFFFFFF ecx)) in
      if ebx' =? 0 then find_bit rest (u32 (edi + 1)) 0
      else Some (u32 (bsf ebx' + u32 (Z.shiftl edi 5)))
  end.

Definition bitmap_set_next_bit (start : Z) : M bitmap Z :=
  do size <- gets bm_size;
  if size <=? start then ret BM_NPOS else
  do free <- gets bm_free;
  if free =? 0 then ret BM_NPOS else
  do d <- gets bm_data;
  let w := Z.shiftr start 5 in
  do idx <- must (find_bit (drop (Z.to_nat w) d) w (Z.land start 31)) "data";
  bitmap_set idx;;;
  ret idx.

(** ** The set a bitmap stands for *)

(** Bit [i] of the array. *)
Definition raw (d : list Z) (i : Z) : bool :=
  match d !! Z.to_nat (i / 32) with
  | Some w => Z.testbit w (i mod 32)
  | None => false
  end.

Definition bits_below (n : Z) : gset Z := list_to_set (range 0 n).

Definition free_bits (b : bitmap) : gset Z :=
  filter (fun i => raw (bm_data b) i = true) (bits_below (bm_size b)).

(** Well-formed bitmaps: the array is large enough, the offsets fit the signed
    offset of the bit instructions, and [free] counts the free bits. *)
Record bitmap_wf (b : bitmap) : Prop := {
  wf_size : 0 <= bm_size b <= 32 * Z.of_nat (length (bm_data b));
  wf_cap : 32 * Z.of_nat (length (bm_data b)) <= 2 ^ 31;
  wf_words : Forall (fun w => 0 <= w < 2 ^ 32) (bm_data b);
  wf_free : bm_free b = Z.of_nat (size (free_bits b)) }.

(** ** Lemmas on single bits *)

Lemma bt_word_div i : 0 <= i < 2 ^ 31 -> bt_word i = i / 32.
Proof.
  intros. unfold bt_word, s32. rewrite u32_id by lia.
  destruct (Z.ltb_spec i 2147483648); [|lia]. by rewrite Z.shiftr_div_pow2 by lia.
Qed.

Lemma bt_bit_mod i : bt_bit i = i mod 32.
Proof. unfold bt_bit. change 31 with (Z.ones 5). by rewrite Z.land_ones by lia. Qed.

Lemma same_bit i j : 0 <= i -> 0 <= j ->
  Z.to_nat (i / 32) = Z.to_nat (j / 32) -> i mod 32 = j mod 32 -> i = j.
Proof. intros. Z.to_euclidean_division_equations. lia. Qed.

Lemma raw_insert d i j w w' :
  0 <= i -> 0 <= j -> d !! Z.to_nat (i / 32) = Some w ->
  (forall n, 0 <= n < 32 -> n <> i mod 32 -> Z.testbit w' n = Z.testbit w n) ->
  raw (<[Z.to_nat (i / 32) := w']> d) j = if decide (j = i) then Z.testbit w' (i mod 32) else raw d j.
Proof.
  intros Hi Hj Hw Hother. unfold raw.
  destruct (decide (Z.to_nat (i / 32) = Z.to_nat (j / 32))) as [E|E].
  - rewrite <- E, list_lookup_insert_eq by (by eapply lookup_lt_Some). rewrite Hw.
    case_decide as Hd; [by subst|]. apply Hother; [apply Z.mod_pos_bound; lia|].
    intros Hm. apply Hd. by apply same_bit.
  - rewrite list_lookup_insert_ne by done. rewrite decide_False; [done|]. by intros ->.
Qed.

Section InRange.
Context (b : bitmap) (Hwf : bitmap_wf b).

Lemma wf_word i : 0 <= i < 32 * Z.of_nat (length (bm_data b)) ->
  exists w, bm_data b !! Z.to_nat (i / 32) = Some w /\ 0 <= w < 2 ^ 32.
Proof.
  intros Hi. destruct (lookup_lt_is_Some_2 (bm_data b) (Z.to_nat (i / 32))) as [w Hw].
  { apply Nat2Z.inj_lt. rewrite Z2Nat.id by (apply Z.div_pos; lia). apply Z.div_lt_upper_bound; lia. }
  exists w. split; [done|]. by eapply (proj1 (Forall_lookup _ _) (wf_words _ Hwf)).
Qed.

Lemma wf_word_at i : 0 <= i < bm_size b ->
  exists w, word_at (bm_data b) (bt_word i) = Some w /\
            bm_data b !! Z.to_nat (i / 32) = Some w /\ 0 <= w < 2 ^ 32.
Proof.
  intros Hi. pose proof (wf_size _ Hwf). pose proof (wf_cap _ Hwf).
  destruct (wf_word i) as (w & Hw & Hr); [lia|]. exists w. split; [|done].
  unfold word_at. rewrite bt_word_div by lia.
  destruct (Z.ltb_spec (i / 32) 0) as [Hn|]; [|done].
  pose proof (Z.div_pos i 32). lia.
Qed.

Lemma elem_of_free_bits i :
  i ∈ free_bits b <-> 0 <= i < bm_size b /\ raw (bm_data b) i = true.
Proof.
  unfold free_bits, bits_below. rewrite elem_of_filter, elem_of_list_to_set, elem_of_range. tauto.
Qed.

(** One bit instruction on an index in bounds. *)
Lemma bit_op_wp f i (Q : bool -> bitmap -> Prop) :
  0 <= i < bm_size b ->
  (forall w, bm_data b !! Z.to_nat (i / 32) = Some w -> 0 <= w < 2 ^ 32 ->
     Q (raw (bm_data b) i) (set_data (<[Z.to_nat (i / 32) := f w (i mod 32)]> (bm_data b)) b)) ->
  wp (bit_op f i) Q b.
Proof.
  intros Hi HQ. destruct (wf_word_at i Hi) as (w & Hw & Hl & Hr).
  pose proof (wf_size _ Hwf). pose proof (wf_cap _ Hwf).
  unfold bit_op. apply wp_bind, wp_gets, wp_bind. eapply wp_must; [done|].
  apply wp_bind, wp_modify, wp_ret. specialize (HQ w Hl Hr). unfold raw in HQ. rewrite Hl in HQ.
  by rewrite bt_word_div, bt_bit_mod by lia.
Qed.

Lemma assert_bounds_wp i (Q : unit -> bitmap -> Prop) :
  i < bm_size b -> Q tt b -> wp (assert_bounds i) Q b.
Proof.
  intros Hi HQ. unfold assert_bounds. apply wp_bind, wp_gets.
  destruct (Z.ltb_spec i (bm_size b)); [by apply wp_ret|lia].
Qed.

(** The free bits after word [i / 32] was changed at bit [i] only. *)
Lemma free_bits_update i w w' n (v : bool) :
  0 <= i < bm_size b -> bm_data b !! Z.to_nat (i / 32) = Some w ->
  (forall n, 0 <= n < 32 -> n <> i mod 32 -> Z.testbit w' n = Z.testbit w n) ->
  Z.testbit w' (i mod 32) = v ->
  free_bits (set_free n (set_data (<[Z.to_nat (i / 32) := w']> (bm_data b)) b)) =
  if v then free_bits b ∪ {[i]} else free_bits b ∖ {[i]}.
Proof.
  intros Hi Hw Ho Hv. apply set_eq. intros j. unfold free_bits at 1. simpl.
  unfold bits_below. rewrite elem_of_filter, elem_of_list_to_set, elem_of_range.
  destruct (decide (0 <= j < bm_size b)) as [Hj|Hj]; [rewrite (raw_insert _ _ _ w) by (done || lia)|];
    rewrite ?Hv; destruct v; rewrite ?elem_of_union, ?elem_of_difference, elem_of_singleton,
      elem_of_free_bits; try case_decide; subst; naive_solver lia.
Qed.

Lemma wf_update i w' n :
  Z.of_nat (size (free_bits (set_free n (set_data (<[Z.to_nat (i / 32) := w']> (bm_data b)) b)))) = n ->
  0 <= w' < 2 ^ 32 ->
  bitmap_wf (set_free n (set_data (<[Z.to_nat (i / 32) := w']> (bm_data b)) b)).
Proof.
  intros Hn Hw'. split; simpl; rewrite ?length_insert; [apply Hwf|apply Hwf| |by rewrite Hn].
  apply Forall_insert; [apply Hwf|done].
Qed.

End InRange.

(** ** Operations on single bits implement operations on sets *)

(** [b'] is a well-formed bitmap of the size of [b] whose free bits are [X]. *)
Record becomes (b : bitmap) (X : gset Z) (b' : bitmap) : Prop := {
  bec_wf : bitmap_wf b';
  bec_size : bm_size b' = bm_size b;
  bec_free : free_bits b' = X }.

Lemma size_bits_below n : 0 <= n -> Z.of_nat (size (bits_below n)) = n.
Proof.
  intros Hn. unfold bits_below. rewrite size_list_to_set by apply NoDup_zrange.
  unfold range. rewrite length_zrange. lia.
Qed.

Lemma free_bits_bound b : bitmap_wf b -> Z.of_nat (size (free_bits b)) <= bm_size b.
Proof.
  intros Hwf. rewrite <- (size_bits_below (bm_size b)) by apply Hwf.
  apply inj_le, subseteq_size. intros i. unfold free_bits. rewrite elem_of_filter. tauto.
Qed.

Lemma free_bits_set_free n b : free_bits (set_free n b) = free_bits b.
Proof. done. Qed.

Lemma set_free_id b : set_free (bm_free b) b = b.
Proof. by destruct b. Qed.

Section Ops.
Context (b : bitmap) (Hwf : bitmap_wf b).

(** The effect of a bit instruction followed by the adjustment of [free]. *)
Lemma becomes_update i w w' n (v : bool) :
  0 <= i < bm_size b -> bm_data b !! Z.to_nat (i / 32) = Some w ->
  0 <= w' < 2 ^ 32 ->
  (forall n, 0 <= n < 32 -> n <> i mod 32 -> Z.testbit w' n = Z.testbit w n) ->
  Z.testbit w' (i mod 32) = v ->
  Z.of_nat (size (if v then free_bits b ∪ {[i]} else free_bits b ∖ {[i]})) = n ->
  becomes b (if v then free_bits b ∪ {[i]} else free_bits b ∖ {[i]})
    (set_free n (set_data (<[Z.to_nat (i / 32) := w']> (bm_data b)) b)).
Proof.
  intros Hi Hw Hw' Ho Hv Hn.
  pose proof (free_bits_update b i w w' n v Hi Hw Ho Hv) as Hf.
  split; [|done|done]. apply wf_update; [done|by rewrite Hf|done].
Qed.

Lemma free_count_remove i :
  0 <= i < bm_size b ->
  Z.of_nat (size (free_bits b ∖ {[i]})) = bm_free b - b2z (raw (bm_data b) i).
Proof.
  intros Hi. rewrite (wf_free _ Hwf). destruct (raw (bm_data b) i) eqn:Hr; simpl.
  - assert (Hin : i ∈ free_bits b) by (by apply elem_of_free_bits).
    assert (Hs : {[i]} ⊆ free_bits b) by set_solver.
    rewrite size_difference by done. apply subseteq_size in Hs. rewrite size_singleton in *. lia.
  - assert (i ∉ free_bits b) by (rewrite elem_of_free_bits; intros [_ ?]; congruence).
    replace (free_bits b ∖ {[i]}) with (free_bits b) by set_solver. lia.
Qed.

Lemma free_count_add i :
  0 <= i < bm_size b ->
  Z.of_nat (size (free_bits b ∪ {[i]})) = bm_free b + b2z (negb (raw (bm_data b) i)).
Proof.
  intros Hi. rewrite (wf_free _ Hwf). destruct (raw (bm_data b) i) eqn:Hr; simpl.
  - assert (Hin : i ∈ free_bits b) by (by apply elem_of_free_bits).
    replace (free_bits b ∪ {[i]}) with (free_bits b) by set_solver. lia.
  - assert (i ∉ free_bits b) by (rewrite elem_of_free_bits; intros [_ ?]; congruence).
    rewrite size_union by set_solver. rewrite size_singleton. lia.
Qed.

Lemma bitmap_set_wp i :
  0 <= i < bm_size b ->
  wp (bitmap_set i) (fun _ => becomes b (free_bits b ∖ {[i]})) b.
Proof.
  intros Hi. pose proof (wf_size _ Hwf). pose proof (wf_cap _ Hwf).
  pose proof (free_bits_bound _ Hwf) as Hle. pose proof (free_count_remove i Hi) as Hn.
  unfold bitmap_set. apply wp_bind, assert_bounds_wp; [lia|].
  apply wp_bind, bit_op_wp; [done..|]. intros w Hw Hr.
  pose proof (Z.mod_pos_bound i 32 ltac:(lia)).
  rewrite <- (wf_free _ Hwf) in Hle.
  destruct (raw (bm_data b) i) eqn:Hraw; simpl in *.
  - apply wp_modify. simpl. rewrite u32_id by lia.
    apply (becomes_update _ w _ _ false); [done|done|by apply clearbit_bound| | |done].
    + intros n ? ?. by rewrite Z.clearbit_neq by lia.
    + by rewrite Z.clearbit_eq by lia.
  - apply wp_ret. rewrite <- (set_free_id (set_data _ b)).
    apply (becomes_update _ w _ _ false); [done|done|by apply clearbit_bound| | |simpl; lia].
    + intros n ? ?. by rewrite Z.clearbit_neq by lia.
    + by rewrite Z.clearbit_eq by lia.
Qed.

Lemma bitmap_unset_wp i :
  0 <= i < bm_size b ->
  wp (bitmap_unset i) (fun _ => becomes b (free_bits b ∪ {[i]})) b.
Proof.
  intros Hi. pose proof (wf_size _ Hwf). pose proof (wf_cap _ Hwf).
  pose proof (free_bits_bound _ Hwf) as Hle. pose proof (free_count_add i Hi) as Hn.
  unfold bitmap_unset. apply wp_bind, assert_bounds_wp; [lia|].
  apply wp_bind, bit_op_wp; [done..|]. intros w Hw Hr.
  pose proof (Z.mod_pos_bound i 32 ltac:(lia)).
  rewrite <- (wf_free _ Hwf) in Hle.
  destruct (raw (bm_data b) i) eqn:Hraw; simpl in *.
  - apply wp_ret. rewrite <- (set_free_id (set_data _ b)).
    apply (becomes_update _ w _ _ true); [done|done|by apply setbit_bound| | |simpl; lia].
    + intros n ? ?. by rewrite Z.setbit_neq by lia.
    + by rewrite Z.setbit_eq by lia.
  - apply wp_modify. simpl. rewrite u32_id by lia.
    apply (becomes_update _ w _ _ true); [done|done|by apply setbit_bound| | |done].
    + intros n ? ?. by rewrite Z.setbit_neq by lia.
    + by rewrite Z.setbit_eq by lia.
Qed.

Lemma bitmap_get_bit_wp i :
  0 <= i < bm_size b ->
  wp (bitmap_get_bit i) (fun r b' => b' = b /\ r = bool_decide (i ∉ free_bits b)) b.
Proof.
  intros Hi. unfold bitmap_get_bit. apply wp_bind, assert_bounds_wp; [lia|].
  apply wp_bind, bit_op_wp; [done..|]. intros w Hw Hr. apply wp_ret. split.
  - rewrite list_insert_id by done. by destruct b.
  - case_bool_decide as Hf; rewrite elem_of_free_bits in Hf by done;
      destruct (raw (bm_data b) i); simpl; naive_solver.
Qed.

End Ops.

(** ** The word scan *)

Lemma pos_ctz_spec p :
  0 <= pos_ctz p /\ Z.testbit (Zpos p) (pos_ctz p) = true /\
  forall j, 0 <= j < pos_ctz p -> Z.testbit (Zpos p) j = false.
Proof.
  induction p as [p IH|p IH|]; simpl pos_ctz; [split_and!; [lia|done|lia]| |split_and!; [lia|done|lia]].
  destruct IH as (H0 & H1 & H2). rewrite Pos2Z.inj_xO. split_and!; [lia| |].
  - rewrite Z.add_1_l, Z.testbit_even_succ by lia. done.
  - intros j Hj. destruct (Z.eq_dec j 0) as [->|]; [apply Z.testbit_even_0|].
    replace j with (Z.succ (j - 1)) by lia. rewrite Z.testbit_even_succ by lia. apply H2. lia.
Qed.

Lemma bsf_spec w :
  0 < w < 2 ^ 32 ->
  0 <= bsf w < 32 /\ Z.testbit w (bsf w) = true /\
  forall j, 0 <= j < bsf w -> Z.testbit w j = false.
Proof.
  intros Hw. destruct w as [|p|p]; [lia| |lia].
  destruct (pos_ctz_spec p) as (H0 & H1 & H2). split; [|done]. split; [done|].
  destruct (Z.lt_ge_cases (bsf (Zpos p)) 32); [done|].
  simpl in *. by rewrite (testbit_above _ 32) in H1 by lia.
Qed.

(** The word the scan looks at: the bits below [ecx] are cleared. *)
Definition masked (w ecx : Z) : Z :=
  if ecx =? 0 then w else Z.land w (u32 (Z.shiftl 0xFFFFFFFF ecx)).

Lemma masked_spec w ecx n :
  0 <= w < 2 ^ 32 -> 0 <= ecx < 32 -> 0 <= n < 32 ->
  Z.testbit (masked w ecx) n = Z.testbit w n && (ecx <=? n).
Proof.
  intros Hw He Hn. unfold masked. destruct (Z.eqb_spec ecx 0) as [->|].
  - destruct (Z.leb_spec 0 n); [by rewrite andb_true_r|lia].
  - rewrite Z.land_spec, testbit_u32, Z.shiftl_spec by lia.
    change 0xFFFFFFFF with (Z.ones 32). destruct (Z.ltb_spec n 32); [|lia].
    rewrite andb_true_r. f_equal. destruct (Z.leb_spec ecx n).
    + apply Z.ones_spec_low. lia.
    + apply Z.testbit_neg_r. lia.
Qed.

Lemma masked_bound w ecx : 0 <= w < 2 ^ 32 -> 0 <= ecx < 32 -> 0 <= masked w ecx < 2 ^ 32.
Proof.
  intros Hw He. unfold masked. destruct (ecx =? 0); [done|].
  assert (0 <= Z.land w (u32 (Z.shiftl 0xFFFFFFFF ecx))) by (apply Z.land_nonneg; lia).
  split; [done|]. apply bound_by_bits; [done|lia|]. intros n Hn.
  by rewrite Z.land_spec, (testbit_above w 32) by lia.
Qed.

Lemma find_bit_cons w ws edi ecx :
  find_bit (w :: ws) edi ecx =
  if masked w ecx =? 0 then find_bit ws (u32 (edi + 1)) 0
  else Some (u32 (bsf (masked w ecx) + u32 (Z.shiftl edi 5))).
Proof.
  simpl. fold (masked w ecx). destruct (Z.eqb_spec w 0) as [->|]; [|done].
  unfold masked. by destruct (ecx =? 0).
Qed.

(** The bits of word number [length pre]. *)
Lemma raw_middle pre w ws n :
  0 <= n < 32 -> raw (pre ++ w :: ws) (32 * Z.of_nat (length pre) + n) = Z.testbit w n.
Proof.
  intros Hn. unfold raw.
  replace (Z.to_nat ((32 * Z.of_nat (length pre) + n) / 32)) with (length pre)
    by (Z.to_euclidean_division_equations; lia).
  rewrite list_lookup_middle by done. f_equal. Z.to_euclidean_division_equations. lia.
Qed.

Lemma raw_above d i : 32 * Z.of_nat (length d) <= i -> raw d i = false.
Proof.
  intros Hi. unfold raw. rewrite lookup_ge_None_2; [done|].
  apply Nat2Z.inj_le. rewrite Z2Nat.id by (apply Z.div_pos; lia). apply Z.div_le_lower_bound; lia.
Qed.

Lemma raw_masked pre w ws ecx j :
  0 <= w < 2 ^ 32 -> 0 <= ecx < 32 ->
  32 * Z.of_nat (length pre) + ecx <= j < 32 * Z.of_nat (length pre) + 32 ->
  raw (pre ++ w :: ws) j = Z.testbit (masked w ecx) (j - 32 * Z.of_nat (length pre)).
Proof.
  intros Hw He Hj. rewrite masked_spec by lia.
  destruct (Z.leb_spec ecx (j - 32 * Z.of_nat (length pre))); [|lia].
  rewrite andb_true_r, <- (raw_middle pre w ws) by lia. f_equal. lia.
Qed.

(** [find_bit] from bit [ecx] of word [length pre] finds the first 1 bit of
    the array from there on. *)
Lemma find_bit_spec ws : forall pre ecx,
  0 <= ecx < 32 -> Forall (fun w => 0 <= w < 2 ^ 32) ws ->
  32 * Z.of_nat (length (pre ++ ws)) <= 2 ^ 31 ->
  match find_bit ws (Z.of_nat (length pre)) ecx with
  | Some i => 32 * Z.of_nat (length pre) + ecx <= i < 32 * Z.of_nat (length (pre ++ ws)) /\
              raw (pre ++ ws) i = true /\
              forall j, 32 * Z.of_nat (length pre) + ecx <= j < i -> raw (pre ++ ws) j = false
  | None => forall j, 32 * Z.of_nat (length pre) + ecx <= j -> raw (pre ++ ws) j = false
  end.
Proof.
  induction ws as [|w ws IH]; intros pre ecx He Hws Hlen.
  { intros j Hj. apply raw_above. rewrite app_nil_r. lia. }
  apply Forall_cons in Hws as [Hw Hws]. rewrite find_bit_cons.
  pose proof (masked_bound w ecx Hw He). rewrite length_app in Hlen |- *. simpl in Hlen |- *.
  destruct (Z.eqb_spec (masked w ecx) 0) as [E|E].
  - assert (Hlow : forall j, 32 * Z.of_nat (length pre) + ecx <= j ->
        j < 32 * Z.of_nat (length pre) + 32 -> raw (pre ++ w :: ws) j = false).
    { intros. rewrite (raw_masked _ _ _ ecx), E by lia. apply Z.testbit_0_l. }
    specialize (IH (pre ++ [w]) 0 ltac:(lia) Hws).
    rewrite <- app_assoc, !length_app in IH. simpl in IH. specialize (IH ltac:(lia)).
    rewrite u32_id by lia.
    replace (Z.of_nat (length pre + 1)) with (Z.of_nat (length pre) + 1) in IH by lia.
    destruct (find_bit ws (Z.of_nat (length pre) + 1) 0) as [i|].
    + destruct IH as (Hi & Hr & Hmin). split_and!; [lia|lia|done|]. intros j Hj.
      destruct (Z.lt_ge_cases j (32 * Z.of_nat (length pre) + 32)); [apply Hlow; lia|apply Hmin; lia].
    + intros j Hj.
      destruct (Z.lt_ge_cases j (32 * Z.of_nat (length pre) + 32)); [apply Hlow; lia|apply IH; lia].
  - destruct (bsf_spec (masked w ecx) ltac:(lia)) as (Hb & Ht & Hmin).
    rewrite Z.shiftl_mul_pow2 by lia. change (2 ^ 5) with 32. rewrite !u32_id by (rewrite ?u32_id; lia).
    rewrite Z.add_comm, (Z.mul_comm _ 32). pose proof Ht as Ht'.
    rewrite masked_spec in Ht' by done. apply andb_prop in Ht' as [_ Hle%Z.leb_le].
    split_and!; [lia|lia| |].
    + rewrite (raw_masked _ _ _ ecx) by lia. rewrite <- Ht. f_equal. lia.
    + intros j Hj. rewrite (raw_masked _ _ _ ecx) by lia. apply Hmin. lia.
Qed.

(** ** [bitmap_set_next_bit] and the initialisation *)

Section SetNext.
Context (b : bitmap) (Hwf : bitmap_wf b).

(** The scan [bitmap_set_next_bit] makes. *)
Definition scan (start : Z) : option Z :=
  find_bit (drop (Z.to_nat (Z.shiftr start 5)) (bm_data b)) (Z.shiftr start 5) (Z.land start 31).

Lemma scan_spec start :
  0 <= start < bm_size b ->
  match scan start with
  | Some i => start <= i /\ raw (bm_data b) i = true /\
              forall j, start <= j < i -> raw (bm_data b) j = false
  | None => forall j, start <= j -> raw (bm_data b) j = false
  end.
Proof.
  intros Hs. pose proof (wf_size _ Hwf). pose proof (wf_cap _ Hwf). unfold scan.
  change (Z.land start 31) with (bt_bit start).
  rewrite bt_bit_mod, Z.shiftr_div_pow2 by lia. change (2 ^ 5) with 32.
  assert (Hdiv : 0 <= start / 32 < Z.of_nat (length (bm_data b)))
    by (Z.to_euclidean_division_equations; lia).
  pose proof (find_bit_spec (drop (Z.to_nat (start / 32)) (bm_data b))
    (take (Z.to_nat (start / 32)) (bm_data b)) (start mod 32)) as Hfb.
  rewrite take_drop, length_take, Nat.min_l, Z2Nat.id in Hfb by lia.
  replace (32 * (start / 32) + start mod 32) with start in Hfb
    by (Z.to_euclidean_division_equations; lia).
  specialize (Hfb ltac:(apply Z.mod_pos_bound; lia) ltac:(apply Forall_drop, Hwf) ltac:(lia)).
  destruct (find_bit _ _ _) as [i|]; [|done]. destruct Hfb as (? & ? & ?). split_and!; [lia|done..].
Qed.

Lemma bitmap_set_next_bit_found start i :
  0 <= start -> i ∈ free_bits b -> start <= i ->
  (forall j, j ∈ free_bits b -> start <= j -> i <= j) ->
  wp (bitmap_set_next_bit start)
    (fun r b' => r = i /\ becomes b (free_bits b ∖ {[i]}) b') b.
Proof.
  intros Hs Hi Hle Hmin. pose proof Hi as [Hb Hraw]%elem_of_free_bits.
  unfold bitmap_set_next_bit. apply wp_bind, wp_gets.
  destruct (Z.leb_spec (bm_size b) start); [lia|]. apply wp_bind, wp_gets.
  destruct (Z.eqb_spec (bm_free b) 0) as [E|_].
  { rewrite (wf_free _ Hwf) in E. assert (size (free_bits b) = 0%nat) as E' by lia.
    apply size_empty_inv in E'. set_solver. }
  apply wp_bind, wp_gets. pose proof (scan_spec start ltac:(lia)) as Hscan. unfold scan in Hscan.
  destruct (find_bit _ _ _) as [k|]; [|by rewrite Hscan in Hraw by lia].
  destruct Hscan as (Hk & Hkr & Hkmin). assert (k = i) as ->.
  { destruct (Z.lt_trichotomy k i) as [Hlt|[->|Hgt]]; [|done|].
    - assert (i <= k); [|lia]. apply Hmin; [|done]. apply elem_of_free_bits. split; [lia|done].
    - by rewrite Hkmin in Hraw by lia. }
  apply wp_bind. eapply wp_must; [done|]. apply wp_bind.
  eapply wp_mono; [by apply bitmap_set_wp|]. intros [] b' ?. by apply wp_ret.
Qed.

Lemma bitmap_set_next_bit_none start :
  bm_size b <= start \/ free_bits b = ∅ ->
  bitmap_set_next_bit start b = Ok (BM_NPOS, b).
Proof.
  intros H. unfold bitmap_set_next_bit, bind, gets.
  destruct (Z.leb_spec (bm_size b) start); [done|]. destruct H as [|H]; [lia|].
  pose proof (wf_free _ Hwf) as Hf. rewrite H, size_empty in Hf.
  change (Z.of_nat 0) with 0 in Hf. by rewrite Hf.
Qed.

End SetNext.

Lemma bitmap_set_trap b i : bm_size b <= i -> bitmap_set i b = Halt (Trap "int3").
Proof.
  intros Hi. unfold bitmap_set, assert_bounds, bind, gets. simpl.
  by destruct (Z.ltb_spec i (bm_size b)); [lia|].
Qed.

(** When the bitmap still has free bits but none from [start] on, the scan
    leaves the array or stops on a padding bit: the cpu traps, and [BM_NPOS]
    is not returned. *)
Lemma bitmap_set_next_bit_trap b start :
  bitmap_wf b -> 0 <= start < bm_size b -> free_bits b <> ∅ ->
  (forall j, j ∈ free_bits b -> j < start) ->
  exists msg, bitmap_set_next_bit start b = Halt (Trap msg).
Proof.
  intros Hwf Hs Hne Hno. pose proof (scan_spec b Hwf start Hs) as Hscan. unfold scan in Hscan.
  unfold bitmap_set_next_bit, bind, gets.
  destruct (Z.leb_spec (bm_size b) start); [lia|].
  destruct (Z.eqb_spec (bm_free b) 0) as [E|_].
  { rewrite (wf_free _ Hwf) in E. assert (size (free_bits b) = 0%nat) as E' by lia.
    apply size_empty_inv in E'. by apply leibniz_equiv in E'. }
  destruct (find_bit _ _ _) as [k|]; simpl; [|by eexists].
  destruct Hscan as (Hk & Hkr & _). destruct (Z.lt_ge_cases k (bm_size b)) as [Hlt|Hge].
  - assert (k < start); [|lia]. apply Hno, elem_of_free_bits. split; [lia|done].
  - rewrite bitmap_set_trap by done. by eexists.
Qed.

Lemma raw_fill n v d i :
  0 <= i < 32 * n -> n <= Z.of_nat (length d) ->
  raw (replicate (Z.to_nat n) v ++ drop (Z.to_nat n) d) i = Z.testbit v (i mod 32).
Proof.
  intros Hi Hn. unfold raw.
  rewrite lookup_app_l; [|rewrite length_replicate; Z.to_euclidean_division_equations; lia].
  rewrite lookup_replicate_2; [done|]. Z.to_euclidean_division_equations. lia.
Qed.

Lemma word_count_bound sz : 0 <= sz -> sz <= 32 * BITMAP_WORD_COUNT sz < sz + 32.
Proof.
  intros Hs. unfold BITMAP_WORD_COUNT. pose proof (ceil_step sz 32 ltac:(lia)). lia.
Qed.

Section Init.
Context (sz : Z) (d : list Z).
Hypothesis Hsz : 0 <= sz.
Hypothesis Hlen : BITMAP_WORD_COUNT sz <= Z.of_nat (length d).
Hypothesis Hcap : 32 * Z.of_nat (length d) <= 2 ^ 31.
Hypothesis Hwords : Forall (fun w => 0 <= w < 2 ^ 32) d.

Lemma filled_becomes (v : Z) (X : gset Z) n b0 :
  0 <= v < 2 ^ 32 -> bm_size b0 = sz ->
  (forall i, 0 <= i < sz -> Z.testbit v (i mod 32) = bool_decide (i ∈ X)) ->
  X ⊆ bits_below sz -> n = Z.of_nat (size X) ->
  becomes b0 X (mk_bitmap sz n (replicate (Z.to_nat (BITMAP_WORD_COUNT sz)) v ++
                                drop (Z.to_nat (BITMAP_WORD_COUNT sz)) d)).
Proof.
  intros Hv Hb0 Hbits HX ->. pose proof (word_count_bound sz Hsz).
  assert (Hf : forall n, free_bits (mk_bitmap sz n (replicate (Z.to_nat (BITMAP_WORD_COUNT sz)) v ++
                                drop (Z.to_nat (BITMAP_WORD_COUNT sz)) d)) = X).
  { intros n. apply set_eq. intros i. rewrite elem_of_free_bits. simpl. split.
    - intros [Hi Hr]. rewrite raw_fill, Hbits in Hr by lia. by apply bool_decide_eq_true in Hr.
    - intros Hi. pose proof (HX i Hi) as Hr. unfold bits_below in Hr.
      rewrite elem_of_list_to_set, elem_of_range in Hr. split; [done|].
      rewrite raw_fill, Hbits by lia. by apply bool_decide_eq_true. }
  assert (Hl : length (replicate (Z.to_nat (BITMAP_WORD_COUNT sz)) v ++
                drop (Z.to_nat (BITMAP_WORD_COUNT sz)) d) = length d)
    by (rewrite length_app, length_replicate, length_drop; lia).
  split; [|done|apply Hf]. split; simpl; rewrite ?Hl; [lia|done| |by rewrite Hf].
  apply Forall_app. split; [by apply Forall_replicate|by apply Forall_drop].
Qed.

End Init.

(** ** The set operations the bitmap implements *)

Inductive bm_op :=
| BSet (i : Z)
| BUnset (i : Z)
| BGet (i : Z)
| BNext (start : Z)
| BFull.

(** The argument is an [uint32_t]. *)
Definition op_arg (o : bm_op) : Z :=
  match o with BSet i | BUnset i | BGet i | BNext i => i | BFull => 0 end.

Definition run_bm_op (o : bm_op) : M bitmap Z :=
  match o with
  | BSet i => bitmap_set i;;; ret 0
  | BUnset i => bitmap_unset i;;; ret 0
  | BGet i => do r <- bitmap_get_bit i; ret (b2z r)
  | BNext start => bitmap_set_next_bit start
  | BFull => do r <- bitmap_is_full; ret (b2z r)
  end.

(** The least element of [X] in [[start, size)]. *)
Definition first_from (X : gset Z) (start size : Z) : option Z :=
  head (filter (fun i => i ∈ X) (range start size)).

(** The meaning of a call on a bitmap of [n] bits whose free bits are [X]: the
    result and the new set of free bits, or [None] for a cpu trap. *)
Definition spec_bm_op (n : Z) (X : gset Z) (o : bm_op) : option (Z * gset Z) :=
  match o with
  | BSet i => if i <? n then Some (0, X ∖ {[i]}) else None
  | BUnset i => if i <? n then Some (0, X ∪ {[i]}) else None
  | BGet i => if i <? n then Some (b2z (bool_decide (i ∉ X)), X) else None
  | BNext start =>
      if (n <=? start) || bool_decide (X = ∅) then Some (BM_NPOS, X) else
      i ← first_from X start n; Some (i, X ∖ {[i]})
  | BFull => Some (b2z (bool_decide (X = ∅)), X)
  end.

Lemma first_from_Some X start n i :
  first_from X start n = Some i ->
  i ∈ X /\ start <= i < n /\ forall j, j ∈ X -> start <= j < n -> i <= j.
Proof.
  unfold first_from, range. remember (Z.to_nat (n - start)) as k eqn:Ek. revert start Ek.
  induction k as [|k IH]; intros start Ek H; [done|]. rewrite zrange_S, filter_cons in H.
  case_decide as Hx; simpl in H; simplify_eq.
  - split_and!; [done|lia|lia|]. intros. lia.
  - destruct (IH (start + 1) ltac:(lia) H) as (Hi & Hr & Hmin). split_and!; [done|lia|lia|].
    intros j Hj Hjr. destruct (Z.eq_dec j start) as [->|]; [done|]. apply Hmin; [done|lia].
Qed.

Lemma first_from_None X start n :
  first_from X start n = None -> forall j, j ∈ X -> start <= j < n -> False.
Proof.
  unfold first_from. intros H j Hj Hr. apply head_None in H.
  assert (j ∈ filter (fun i => i ∈ X) (range start n)) as Hin
    by (apply list_elem_of_filter; rewrite elem_of_range; done).
  rewrite H in Hin. by apply not_elem_of_nil in Hin.
Qed.

Lemma becomes_refl b : bitmap_wf b -> becomes b (free_bits b) b.
Proof. by split. Qed.

Lemma out_of_bounds_trap b i :
  bm_size b <= i -> assert_bounds i b = Halt (Trap "int3").
Proof.
  intros Hi. unfold assert_bounds, bind, gets. by destruct (Z.ltb_spec i (bm_size b)); [lia|].
Qed.

Lemma bitmap_next_refine b start :
  bitmap_wf b -> 0 <= start ->
  match spec_bm_op (bm_size b) (free_bits b) (BNext start) with
  | Some (r, X) => wp (bitmap_set_next_bit start) (fun r' b' => r' = r /\ becomes b X b') b
  | None => exists msg, bitmap_set_next_bit start b = Halt (Trap msg)
  end.
Proof.
  intros Hwf Ho. simpl.
  destruct (Z.leb_spec (bm_size b) start) as [Hge|Hlt]; simpl.
  { unfold wp. rewrite bitmap_set_next_bit_none by auto. split; [done|]. by apply becomes_refl. }
  case_bool_decide as Hne; simpl.
  { unfold wp. rewrite bitmap_set_next_bit_none by auto. split; [done|]. by apply becomes_refl. }
  destruct (first_from (free_bits b) start (bm_size b)) as [i|] eqn:Hf; simpl.
  + apply first_from_Some in Hf as (Hi & Hr & Hmin).
    eapply wp_mono; [apply (bitmap_set_next_bit_found b Hwf start i); [lia|done|lia|]|done].
    intros j Hj Hsj. apply Hmin; [done|]. apply elem_of_free_bits in Hj. lia.
  + apply bitmap_set_next_bit_trap; [done|lia|done|]. intros j Hj.
    destruct (Z.lt_ge_cases j start); [done|]. exfalso.
    eapply first_from_None; [done|exact Hj|]. apply elem_of_free_bits in Hj. lia.
Qed.

Lemma bitmap_init_wp b sz d default_val :
  0 <= sz -> 32 * Z.of_nat (length d) <= 2 ^ 31 -> Forall (fun w => 0 <= w < 2 ^ 32) d ->
  BITMAP_WORD_COUNT sz <= Z.of_nat (length d) ->
  wp (bitmap_init sz d default_val)
    (fun _ b' => bitmap_wf b' /\ bm_size b' = sz /\
                 free_bits b' = if default_val then ∅ else bits_below sz) b.
Proof.
  intros Hsz Hcap Hw Hl. unfold bitmap_init, bitmap_set_all, bitmap_reset, fill_words.
  destruct default_val; unfold wp, bind, modify, gets; simpl; rewrite (proj2 (Z.leb_le _ _) Hl).
  - destruct (filled_becomes sz d Hsz Hl Hcap Hw 0 ∅ 0 (mk_bitmap sz 0 []));
      [lia|done| |set_solver|done|done].
    intros i Hi. by rewrite Z.testbit_0_l.
  - destruct (filled_becomes sz d Hsz Hl Hcap Hw 0xFFFFFFFF (bits_below sz) sz (mk_bitmap sz 0 []));
      [lia|done| |done|by rewrite size_bits_below|done].
    intros i Hi. change 0xFFFFFFFF with (Z.ones 32). pose proof (Z.mod_pos_bound i 32 ltac:(lia)).
    rewrite Z.ones_spec_low by lia. symmetry. apply bool_decide_eq_true.
    unfold bits_below. by rewrite elem_of_list_to_set, elem_of_range.
Qed.

(** ** Properties *)

(** on a well-formed bitmap every operation of [bitmap_asm.S], on every
    argument and on every path, is the corresponding operation on the set of
    free indices: it returns the value the set semantics gives and leaves a
    well-formed bitmap of the same size with the new set (in particular
    [free] keeps counting the free bits, and [bitmap_set_next_bit] returns
    the least free index from [start] on), or, exactly when the set semantics
    is undefined, the cpu traps. *)
Theorem bitmap_op_refine (b : bitmap) (o : bm_op) :
  bitmap_wf b -> 0 <= op_arg o < 2 ^ 32 ->
  match spec_bm_op (bm_size b) (free_bits b) o with
  | Some (r, X) => wp (run_bm_op o) (fun r' b' => r' = r /\ becomes b X b') b
  | None => exists msg, run_bm_op o b = Halt (Trap msg)
  end.
Proof.
  intros Hwf Ho. destruct o as [i|i|i|start|]; simpl in *.
  - destruct (Z.ltb_spec i (bm_size b)).
    + apply wp_bind. eapply wp_mono; [apply bitmap_set_wp; [done|lia]|]. by intros [] b' ?.
    + exists "int3". unfold bitmap_set, bind. by rewrite out_of_bounds_trap.
  - destruct (Z.ltb_spec i (bm_size b)).
    + apply wp_bind. eapply wp_mono; [apply bitmap_unset_wp; [done|lia]|]. by intros [] b' ?.
    + exists "int3". unfold bitmap_unset, bind. by rewrite out_of_bounds_trap.
  - destruct (Z.ltb_spec i (bm_size b)).
    + apply wp_bind. eapply wp_mono; [apply bitmap_get_bit_wp; [done|lia]|].
      intros r b' [-> ->]. split; [done|]. by apply becomes_refl.
    + exists "int3". unfold bitmap_get_bit, bind. by rewrite out_of_bounds_trap.
  - apply bitmap_next_refine; [done|lia].
  - apply wp_bind, wp_gets. split; [|by apply becomes_refl]. f_equal.
    rewrite (wf_free _ Hwf). case_bool_decide as He.
    + by rewrite He, size_empty.
    + apply Z.eqb_neq. intros E. apply He. assert (size (free_bits b) = 0%nat) as E' by lia.
      by apply size_empty_inv, leibniz_equiv in E'.
Qed.

Lemma bitmap_op_refine_witness :
  wp (run_bm_op (BNext 1)) (fun r' b' => r' = 3 /\ becomes (mk_bitmap 40 2 [0x9; 0]) ({[0; 3]} ∖ {[3]}) b')
    (mk_bitmap 40 2 [0x9; 0]).
Proof.
  assert (Hf : free_bits (mk_bitmap 40 2 [0x9; 0]) = {[0; 3]}) by (by vm_compute).
  pose proof (bitmap_op_refine (mk_bitmap 40 2 [0x9; 0]) (BNext 1)) as H. rewrite Hf in H.
  apply H; [|simpl; lia]. split; [by vm_compute|by vm_compute| |by rewrite Hf].
  apply (bool_decide_unpack _). by vm_compute.
Defined.

(** [bitmap_init] on an array large enough for [size] bits gives a
    well-formed bitmap in which every bit is free, or none when
    [default_val] is true; on an array that is too small it faults. *)
Theorem bitmap_init_correct (b : bitmap) (sz : Z) (d : list Z) (default_val : bool) :
  0 <= sz -> 32 * Z.of_nat (length d) <= 2 ^ 31 -> Forall (fun w => 0 <= w < 2 ^ 32) d ->
  if BITMAP_WORD_COUNT sz <=? Z.of_nat (length d)
  then wp (bitmap_init sz d default_val)
         (fun _ b' => bitmap_wf b' /\ bm_size b' = sz /\
                      free_bits b' = if default_val then ∅ else bits_below sz) b
  else bitmap_init sz d default_val b = Halt (Trap "memset").
Proof.
  intros Hsz Hcap Hw. destruct (Z.leb_spec (BITMAP_WORD_COUNT sz) (Z.of_nat (length d))) as [Hl|Hl].
  - by apply bitmap_init_wp.
  - unfold bitmap_init, bitmap_set_all, bitmap_reset, fill_words.
    destruct default_val; unfold bind, modify, gets; simpl;
      by rewrite (proj2 (Z.leb_gt _ _) Hl).
Qed.

Lemma bitmap_init_correct_witness :
  wp (bitmap_init 40 [7; 7] false)
    (fun _ b' => bitmap_wf b' /\ bm_size b' = 40 /\ free_bits b' = bits_below 40) (mk_bitmap 0 0 []).
Proof.
  apply (bitmap_init_correct (mk_bitmap 0 0 []) 40 [7; 7] false); [lia|by vm_compute|].
  apply (bool_decide_unpack _). by vm_compute.
Defined.
