(* ===== verification/Spinlock.v ===== *)
(** * Spinlocks: [src/spinlock.h], [src/spinlock_def.c], [src/spinlock.S]

    Two views of the same code.

    [cpu_step] is one cpu executing [spinlock_lock], a critical section and
    [spinlock_unlock], one access to the shared [spinlock_t] (or to the
    interrupt flag) at a time; [step] interleaves any number of cpus.  The
    invariant [Inv] of that machine gives mutual exclusion, that no [ASSERT]
    of the two functions fails and that the interrupt flag is restored.

    [spinlock_lock] and [spinlock_unlock] are the two functions run by one cpu
    while no other cpu touches the lock, as the other components call them: a
    lock that is not free is then never released, and the call hangs. *)

From S2P Require Import Prelude.

Record spinlock_t := mk_spinlock {
  lock : Z;
  interrupts_enabled : bool;
  owner : Z }.

Definition NO_OWNER : Z := 0xFF.

Definition INIT_SPINLOCK : spinlock_t := mk_spinlock 0 false NO_OWNER.

Definition set_lock (v : Z) (l : spinlock_t) : spinlock_t :=
  mk_spinlock v (interrupts_enabled l) (owner l).
Definition set_interrupts (v : bool) (l : spinlock_t) : spinlock_t :=
  mk_spinlock (lock l) v (owner l).
Definition set_owner (v : Z) (l : spinlock_t) : spinlock_t :=
  mk_spinlock (lock l) (interrupts_enabled l) v.

(** ** One cpu *)

(** Where the cpu is.  [Cli] to [Backoff] are the loop of [_spinlock_lock],
    [Acquired] to [SetOwner] the rest of [spinlock_lock], [ReadIrq] to
    [Restore] the body of [spinlock_unlock]; [Failed] is a failed [ASSERT]. *)
Inductive pc :=
| Idle
| Cli | Cmp | Cas | Backoff
| Acquired | SaveIrq | CheckFree | SetOwner
| Critical
| ReadIrq | CheckOwner | ClearOwner | Release | Restore
| Failed.

#[export] Instance pc_eq_dec : EqDecision pc.
Proof. solve_decision. Defined.

(** The interrupt flag and the locals [irq] of [spinlock_lock] and
    [interrupts] of [spinlock_unlock]. *)
Record cpu := mk_cpu {
  at_pc : pc;
  IF : bool;
  irq : bool;
  interrupts : bool }.

Definition goto (p : pc) (t : cpu) : cpu := mk_cpu p (IF t) (irq t) (interrupts t).
Definition set_IF (v : bool) (t : cpu) : cpu := mk_cpu (at_pc t) v (irq t) (interrupts t).

Definition cpu_step (c : Z) (l : spinlock_t) (t : cpu) : spinlock_t * cpu :=
  match at_pc t with
  | Idle => (l, mk_cpu Cli (IF t) (IF t) (interrupts t))
  | Cli => (l, goto Cmp (set_IF false t))
  | Cmp => (l, goto (if lock l =? 0 then Cas else Backoff) t)
  | Cas => if lock l =? 0 then (set_lock 1 l, goto Acquired t) else (l, goto Backoff t)
  | Backoff => (l, goto Cli (if irq t then set_IF true t else t))
  | Acquired => (l, goto (if IF t then Failed else SaveIrq) t)
  | SaveIrq => (set_interrupts (irq t) l, goto CheckFree t)
  | CheckFree => (l, goto (if owner l =? NO_OWNER then SetOwner else Failed) t)
  | SetOwner => (set_owner c l, goto Critical t)
  | Critical => (l, goto ReadIrq t)
  | ReadIrq => (l, mk_cpu CheckOwner (IF t) (irq t) (interrupts_enabled l))
  | CheckOwner => (l, goto (if owner l =? c then ClearOwner else Failed) t)
  | ClearOwner => (set_owner NO_OWNER l, goto Release t)
  | Release => (set_lock 0 l, goto Restore t)
  | Restore => (l, goto Idle (set_IF (interrupts t) t))
  | Failed => (l, t)
  end.

(** ** Several cpus *)

(** [cpu_id] is an [uint8_t]; 0xFF is the value for no owner. *)
Definition is_cpu (c : Z) : Prop := 0 <= c < NO_OWNER.

Record machine := mk_machine { lk : spinlock_t; cpus : Z -> cpu }.

Definition run_cpu (c : Z) (m : machine) : machine :=
  mk_machine (cpu_step c (lk m) (cpus m c)).1
    (fun c' => if decide (c' = c) then (cpu_step c (lk m) (cpus m c)).2 else cpus m c').

Inductive step : machine -> machine -> Prop :=
| step_cpu c m : is_cpu c -> step m (run_cpu c m).

(** The lock was just initialised and no cpu is using it. *)
Definition initial (m : machine) : Prop :=
  lk m = INIT_SPINLOCK /\ forall c, at_pc (cpus m c) = Idle.

Definition reachable (m : machine) : Prop := exists m0, initial m0 /\ rtc step m0 m.

(** ** The invariant *)

(** The cpu is between its successful [cmpxchg] and the write of the unlock. *)
Definition holds (p : pc) : bool :=
  match p with
  | Acquired | SaveIrq | CheckFree | SetOwner | Critical
  | ReadIrq | CheckOwner | ClearOwner | Release => true
  | _ => false
  end.

Definition cpu_ok (c : Z) (l : spinlock_t) (t : cpu) : Prop :=
  match at_pc t with
  | Idle | Cli | Backoff => True
  | Cmp | Cas => IF t = false
  | Acquired | SaveIrq => IF t = false /\ lock l = 1 /\ owner l = NO_OWNER
  | CheckFree | SetOwner =>
      IF t = false /\ lock l = 1 /\ owner l = NO_OWNER /\ interrupts_enabled l = irq t
  | Critical | ReadIrq =>
      IF t = false /\ lock l = 1 /\ owner l = c /\ interrupts_enabled l = irq t
  | CheckOwner | ClearOwner =>
      IF t = false /\ lock l = 1 /\ owner l = c /\ interrupts t = irq t
  | Release => IF t = false /\ lock l = 1 /\ owner l = NO_OWNER /\ interrupts t = irq t
  | Restore => IF t = false /\ interrupts t = irq t
  | Failed => False
  end.

Record Inv (m : machine) : Prop := {
  inv_cpu : forall c, is_cpu c -> cpu_ok c (lk m) (cpus m c);
  inv_one : forall c c', is_cpu c -> is_cpu c' ->
    holds (at_pc (cpus m c)) = true -> holds (at_pc (cpus m c')) = true -> c = c';
  inv_free : (forall c, is_cpu c -> holds (at_pc (cpus m c)) = false) -> lock (lk m) = 0;
  inv_owner : lock (lk m) = 0 -> owner (lk m) = NO_OWNER }.

Lemma holds_locked c l t : cpu_ok c l t -> holds (at_pc t) = true -> lock l = 1.
Proof. unfold cpu_ok. destruct (at_pc t); simpl; naive_solver. Qed.

(** A cpu that does not hold the lock does not care about its fields. *)
Lemma cpu_ok_waiting c l l' t : holds (at_pc t) = false -> cpu_ok c l t -> cpu_ok c l' t.
Proof. unfold cpu_ok. destruct (at_pc t); simpl; naive_solver. Qed.

(** A step of a cpu changes the lock only if the cpu holds it or takes it. *)
Lemma cpu_step_lock c l t :
  (cpu_step c l t).1 = l \/ holds (at_pc t) = true \/ lock l = 0.
Proof.
  unfold cpu_step. destruct (at_pc t); auto. destruct (Z.eqb_spec (lock l) 0); auto.
Qed.

Lemma cpu_step_ok c l t :
  (lock l = 0 -> owner l = NO_OWNER) -> cpu_ok c l t -> cpu_ok c (cpu_step c l t).1 (cpu_step c l t).2.
Proof.
  unfold cpu_step, cpu_ok. destruct t as [p i r n]. simpl.
  destruct p; simpl; intros Ho H; repeat case_match; simpl in *; breflect; naive_solver.
Qed.

(** How a step changes whether the cpu holds the lock. *)
Lemma cpu_step_holds c l t :
  cpu_ok c l t ->
  holds (at_pc (cpu_step c l t).2) = true ->
  holds (at_pc t) = true \/ lock l = 0.
Proof.
  unfold cpu_step, cpu_ok. destruct t as [p i r n]. simpl.
  destruct p; simpl; repeat case_match; simpl in *; breflect; naive_solver.
Qed.

(** A holder that stops holding leaves the lock free. *)
Lemma cpu_step_release c l t :
  cpu_ok c l t -> holds (at_pc t) = true -> holds (at_pc (cpu_step c l t).2) = false ->
  lock (cpu_step c l t).1 = 0.
Proof.
  unfold cpu_step, cpu_ok. destruct t as [p i r n]. simpl.
  destruct p; simpl; repeat case_match; simpl in *; breflect; naive_solver.
Qed.

(** A cpu that does not hold the lock and does not take it leaves it as it is. *)
Lemma cpu_step_waits c l t :
  holds (at_pc t) = false -> holds (at_pc (cpu_step c l t).2) = false ->
  (cpu_step c l t).1 = l.
Proof.
  unfold cpu_step. destruct t as [p i r n]. simpl.
  destruct p; simpl; repeat case_match; simpl in *; naive_solver.
Qed.

Lemma cpu_step_owner c l t :
  (lock l = 0 -> owner l = NO_OWNER) -> cpu_ok c l t ->
  lock (cpu_step c l t).1 = 0 -> owner (cpu_step c l t).1 = NO_OWNER.
Proof.
  unfold cpu_step, cpu_ok. destruct t as [p i r n]. simpl.
  destruct p; simpl; repeat case_match; simpl in *; breflect; naive_solver lia.
Qed.

Lemma run_cpu_self c m : cpus (run_cpu c m) c = (cpu_step c (lk m) (cpus m c)).2.
Proof. simpl. by rewrite decide_True. Qed.

Lemma run_cpu_other c c' m : c' <> c -> cpus (run_cpu c m) c' = cpus m c'.
Proof. intros. simpl. by rewrite decide_False. Qed.

Lemma Inv_step m m' : Inv m -> step m m' -> Inv m'.
Proof.
  intros HI Hs. destruct Hs as [c m Hc].
  pose proof (inv_cpu _ HI c Hc) as Hok.
  assert (Hoth : forall c', is_cpu c' -> c' <> c -> holds (at_pc (cpus m c')) = true ->
            (cpu_step c (lk m) (cpus m c)).1 = lk m /\ holds (at_pc (cpus m c)) = false /\
            lock (lk m) = 1).
  { intros c' Hc' Hne Hh. pose proof (holds_locked _ _ _ (inv_cpu _ HI c' Hc') Hh).
    assert (holds (at_pc (cpus m c)) = false)
      by (destruct (holds (at_pc (cpus m c))) eqn:E; [|done]; by destruct Hne; apply (inv_one _ HI)).
    split_and!; [|done|done]. destruct (cpu_step_lock c (lk m) (cpus m c)) as [|[|]]; [done|congruence|lia]. }
  assert (Hself : holds (at_pc (cpus (run_cpu c m) c)) = true ->
            forall c', is_cpu c' -> c' <> c -> holds (at_pc (cpus m c')) = false).
  { rewrite run_cpu_self. intros Hh c' Hc' Hne. destruct (holds (at_pc (cpus m c'))) eqn:E; [|done].
    destruct (Hoth c' Hc' Hne E) as (_ & ? & ?).
    destruct (cpu_step_holds _ _ _ Hok Hh); [congruence|lia]. }
  split.
  - intros c' Hc'. destruct (decide (c' = c)) as [->|Hne].
    + rewrite run_cpu_self. apply cpu_step_ok; [apply HI|done].
    + rewrite run_cpu_other by done. destruct (holds (at_pc (cpus m c'))) eqn:E.
      * simpl. destruct (Hoth c' Hc' Hne E) as (-> & _). by apply HI.
      * eapply cpu_ok_waiting; [done|]. by apply HI.
  - intros c1 c2 H1 H2 Hh1 Hh2. destruct (decide (c1 = c)) as [->|Hn1], (decide (c2 = c)) as [->|Hn2].
    + done.
    + rewrite run_cpu_other in Hh2 by done. rewrite Hself in Hh2; done.
    + rewrite run_cpu_other in Hh1 by done. rewrite Hself in Hh1; done.
    + rewrite run_cpu_other in Hh1, Hh2 by done. by apply (inv_one _ HI).
  - intros Hnone. pose proof (Hnone c Hc) as Hn. rewrite run_cpu_self in Hn. simpl.
    destruct (holds (at_pc (cpus m c))) eqn:E; [by apply cpu_step_release|].
    rewrite cpu_step_waits by done. apply (inv_free _ HI). intros c' Hc'.
    destruct (decide (c' = c)) as [->|Hne]; [done|].
    specialize (Hnone c' Hc'). by rewrite run_cpu_other in Hnone.
  - apply cpu_step_owner; [apply HI|done].
Qed.

Lemma Inv_initial m : initial m -> Inv m.
Proof.
  intros [Hl Hidle]. split.
  - intros c _. unfold cpu_ok. by rewrite Hidle.
  - intros c c' _ _ Hh. by rewrite Hidle in Hh.
  - intros _. by rewrite Hl.
  - intros _. by rewrite Hl.
Qed.

Lemma Inv_reachable m : reachable m -> Inv m.
Proof.
  intros (m0 & H0 & Hr). apply Inv_initial in H0. clear -H0 Hr.
  induction Hr; eauto using Inv_step.
Qed.

(** ** The functions as one cpu runs them *)

(** The lock and the interrupt flag of the cpu. *)
Abbreviation lockst := (spinlock_t * bool)%type.

Definition update_lock (f : spinlock_t -> spinlock_t) : M lockst unit :=
  modify (fun s => (f s.1, s.2)).

(** [spinlock_init] copies the default value, whose [interrupts_enabled] is
    false, over the lock. *)
Definition spinlock_init : M lockst unit := update_lock (fun _ => INIT_SPINLOCK).

(** [_spinlock_lock]: with no other cpu to release it, a lock that is not free
    is retried forever. *)
Definition _spinlock_lock : M lockst unit :=
  do l <- gets fst;
  if lock l =? 0 then modify (fun s => (set_lock 1 s.1, false))
  else halt_with (Hang "spinlock_lock").

Definition _spinlock_unlock : M lockst unit := update_lock (set_lock 0).

Definition spinlock_lock (cpu_id : Z) : M lockst unit :=
  do irq <- gets snd;
  _spinlock_lock;;;
  do i <- gets snd; ASSERT (negb i) "!interrupts_enabled()";;;
  update_lock (set_interrupts irq);;;
  do l <- gets fst; ASSERT (owner l =? NO_OWNER) "lock->owner == 0xFF";;;
  update_lock (set_owner cpu_id).

Definition spinlock_unlock (cpu_id : Z) : M lockst unit :=
  do l <- gets fst;
  ASSERT (owner l =? cpu_id) "lock->owner == cpu_id()";;;
  update_lock (set_owner NO_OWNER);;;
  _spinlock_unlock;;;
  modify (fun s => (s.1, interrupts_enabled l)).

Definition spinlock_is_held (cpu_id : Z) : M lockst bool :=
  do l <- gets fst; ret ((lock l =? 1) && (owner l =? cpu_id)).

(** A lock that is free, and a lock the cpu [c] holds. *)
Definition unlocked (l : spinlock_t) : Prop := lock l = 0 /\ owner l = NO_OWNER.
Definition held_by (c : Z) (irq : bool) (l : spinlock_t) : Prop := l = mk_spinlock 1 irq c.

Lemma spinlock_lock_run c l irq :
  unlocked l -> spinlock_lock c (l, irq) = Ok (tt, (mk_spinlock 1 irq c, false)).
Proof.
  intros [H0 Ho]. unfold spinlock_lock, _spinlock_lock, update_lock, bind, gets, modify, ASSERT, ret.
  simpl. rewrite H0. simpl. by rewrite Ho.
Qed.

Lemma spinlock_lock_hangs c l irq :
  lock l <> 0 -> spinlock_lock c (l, irq) = Halt (Hang "spinlock_lock").
Proof.
  intros H. unfold spinlock_lock, _spinlock_lock, bind, gets, halt_with. simpl.
  by rewrite (proj2 (Z.eqb_neq _ _) H).
Qed.

Lemma spinlock_unlock_run c irq i :
  spinlock_unlock c (mk_spinlock 1 irq c, i) = Ok (tt, (mk_spinlock 0 irq NO_OWNER, irq)).
Proof.
  unfold spinlock_unlock, update_lock, bind, gets, modify, ASSERT, ret. simpl. by rewrite Z.eqb_refl.
Qed.

#[export] Hint Rewrite spinlock_lock_run using done : kernel.
#[export] Hint Rewrite spinlock_unlock_run : kernel.

Lemma iter_reach c n m0 m :
  is_cpu c -> rtc step m0 m -> rtc step m0 (Nat.iter n (run_cpu c) m).
Proof.
  intros Hc Hr. induction n as [|n IH]; [done|]. eapply rtc_r; [exact IH|]. by constructor.
Qed.

(** What a cpu that runs alone sees. *)
Lemma solo_view c n m :
  (lk (Nat.iter n (run_cpu c) m), cpus (Nat.iter n (run_cpu c) m) c) =
  Nat.iter n (fun p => cpu_step c p.1 p.2) (lk m, cpus m c).
Proof.
  induction n as [|n IH]; [done|]. rewrite !Nat.iter_succ, <- IH.
  rewrite run_cpu_self. simpl. by rewrite <- surjective_pairing.
Qed.

(** The accesses of [spinlock_lock] on a free lock, and of [spinlock_unlock]. *)
Lemma solo_lock c ie i r n :
  Nat.iter 8 (fun p => cpu_step c p.1 p.2) (mk_spinlock 0 ie NO_OWNER, mk_cpu Idle i r n) =
  (mk_spinlock 1 i c, mk_cpu Critical false i n).
Proof. by vm_compute. Qed.

Lemma solo_unlock c ie i r n :
  Nat.iter 6 (fun p => cpu_step c p.1 p.2) (mk_spinlock 1 ie c, mk_cpu Critical i r n) =
  (mk_spinlock 0 ie NO_OWNER, mk_cpu Idle ie r ie).
Proof.
  rewrite (Nat.iter_add 3 3).
  assert (Nat.iter 3 (fun p => cpu_step c p.1 p.2) (mk_spinlock 1 ie c, mk_cpu Critical i r n) =
          (mk_spinlock 1 ie c, mk_cpu ClearOwner i r ie)) as ->.
  { rewrite Nat.iter_succ. unfold cpu_step at 1. simpl. by rewrite Z.eqb_refl. }
  done.
Qed.

(** ** Properties *)

(** C9: in every state any number of cpus can reach by interleaving
    [spinlock_lock], a critical section and [spinlock_unlock] access by
    access: at most one cpu is in its critical section; while one is, the lock
    is taken, records that cpu as its owner and interrupts are off on it; no
    [ASSERT] of the two functions has failed; and a cpu about to return from
    [spinlock_unlock] restores the interrupt flag it had on entry of
    [spinlock_lock]. *)
Theorem spinlock_mutual_exclusion (m : machine) (c : Z) :
  reachable m -> is_cpu c ->
  at_pc (cpus m c) <> Failed /\
  (at_pc (cpus m c) = Critical ->
     lock (lk m) = 1 /\ owner (lk m) = c /\ IF (cpus m c) = false /\
     forall c', is_cpu c' -> at_pc (cpus m c') = Critical -> c' = c) /\
  (at_pc (cpus m c) = Restore -> IF (cpus (run_cpu c m) c) = irq (cpus m c)).
Proof.
  intros HI%Inv_reachable Hc. pose proof (inv_cpu _ HI c Hc) as Hok. unfold cpu_ok in Hok.
  split_and!.
  - intros E. by rewrite E in Hok.
  - intros E. rewrite E in Hok. destruct_and!. split_and!; [done..|]. intros c' Hc' E'.
    apply (inv_one _ HI); [done|done|by rewrite E'|by rewrite E].
  - intros E. rewrite E in Hok. destruct Hok as [_ Hi].
    rewrite run_cpu_self. unfold cpu_step. by rewrite E.
Qed.

Lemma spinlock_mutual_exclusion_witness :
  let m := Nat.iter 8 (run_cpu 0) (mk_machine INIT_SPINLOCK (fun _ => mk_cpu Idle true false false)) in
  at_pc (cpus m 0) = Critical /\ lock (lk m) = 1 /\ owner (lk m) = 0 /\ IF (cpus m 0) = false.
Proof.
  intros m. assert (Hr : reachable m).
  { exists (mk_machine INIT_SPINLOCK (fun _ => mk_cpu Idle true false false)). split; [done|].
    by apply iter_reach. }
  destruct (spinlock_mutual_exclusion m 0 Hr ltac:(done)) as (_ & H & _).
  assert (at_pc (cpus m 0) = Critical) as E by (by vm_compute).
  destruct (H E) as (? & ? & ? & _). done.
Defined.

(** when no cpu holds the lock, a cpu that calls [spinlock_lock] and runs
    is in its critical section after eight accesses, with exactly the lock and
    the interrupt flag that the sequential [spinlock_lock] of this file
    returns; running on for six accesses it is back from [spinlock_unlock],
    with the results of the sequential [spinlock_unlock] and the interrupt
    flag of the start. *)
Theorem spinlock_solo_refine (m : machine) (c : Z) :
  reachable m -> is_cpu c -> at_pc (cpus m c) = Idle ->
  (forall c', is_cpu c' -> holds (at_pc (cpus m c')) = false) ->
  let m1 := Nat.iter 8 (run_cpu c) m in
  let m2 := Nat.iter 6 (run_cpu c) m1 in
  spinlock_lock c (lk m, IF (cpus m c)) = Ok (tt, (lk m1, IF (cpus m1 c))) /\
  at_pc (cpus m1 c) = Critical /\
  spinlock_unlock c (lk m1, IF (cpus m1 c)) = Ok (tt, (lk m2, IF (cpus m2 c))) /\
  at_pc (cpus m2 c) = Idle /\ IF (cpus m2 c) = IF (cpus m c).
Proof.
  intros HI%Inv_reachable Hc Hidle Hnone.
  pose proof (inv_free _ HI Hnone) as H0. pose proof (inv_owner _ HI H0) as Ho.
  pose proof (solo_view c 8 m) as E1. intros m1 m2.
  pose proof (solo_view c 6 m1) as E2. fold m1 in E1. fold m2 in E2. clearbody m2. clearbody m1.
  rewrite spinlock_lock_run by done.
  destruct (lk m) as [lv li lo], (cpus m c) as [p i r n]. simpl in Hidle, H0, Ho. subst.
  rewrite solo_lock in E1. injection E1 as El1 Et1. rewrite El1, Et1, solo_unlock in E2.
  injection E2 as El2 Et2. rewrite El1, Et1, El2, Et2. simpl. by rewrite spinlock_unlock_run.
Qed.

Lemma spinlock_solo_refine_witness :
  let m := mk_machine INIT_SPINLOCK (fun _ => mk_cpu Idle true false false) in
  let m1 := Nat.iter 8 (run_cpu 3) m in
  spinlock_lock 3 (lk m, IF (cpus m 3)) = Ok (tt, (lk m1, IF (cpus m1 3))).
Proof.
  intros m m1. apply (spinlock_solo_refine m 3); [|done|done|done].
  exists m. by split.
Defined.
