(* ===== verification/Multiboot.v ===== *)
(** * Boot information: [src/multiboot.h], [src/multiboot.c]

    The state holds the globals of [multiboot.c] and what the boot loader left
    in physical memory: the [multiboot_info] structure (the fields the kernel
    reads), the memory map and the table of boot modules.  Reading a table
    entry that is not there is an access outside the object ([Trap]).

    Offsets of the memory map are 64-bit, addresses 32-bit; both wrap as in
    the code. *)

From S2P Require Import Prelude Math.

Record multiboot_mmap_entry := mk_entry {
  base_addr : Z;
  len : Z;
  type_ : Z }.

Record multiboot_mod_entry := mk_mod { mod_start : Z; mod_end : Z }.

Record multiboot_info := mk_info {
  mods_count : Z;
  mods_addr : Z;
  mmap_length : Z;
  mmap_addr : Z }.

(** [sizeof] of the packed structures. *)
Definition SIZEOF_MULTIBOOT_INFO : Z := 118.
Definition SIZEOF_MMAP_ENTRY : Z := 24.

(** [mb_start] and [mb_end] are the linker symbols [KERNEL_START_ADDR] and
    [KERNEL_END_ADDR]; [mb_paging] and [mb_higher_half] say where the cpu
    executes. *)
Record multiboot := mk_mb {
  MULTIBOOT_INFO : Z;
  INIT_RD_START : Z;
  INIT_RD_SIZE : Z;
  RESERVED_MEM : list (Z * Z);
  mb_info : multiboot_info;
  mb_mmap : list multiboot_mmap_entry;
  mb_mods : list multiboot_mod_entry;
  mb_start : Z;
  mb_end : Z;
  mb_paging : bool;
  mb_higher_half : bool }.

Definition set_info_ptr (p : Z) (m : multiboot) : multiboot :=
  mk_mb p (INIT_RD_START m) (INIT_RD_SIZE m) (RESERVED_MEM m) (mb_info m) (mb_mmap m)
    (mb_mods m) (mb_start m) (mb_end m) (mb_paging m) (mb_higher_half m).

Definition set_initrd (start sz : Z) (m : multiboot) : multiboot :=
  mk_mb (MULTIBOOT_INFO m) start sz (RESERVED_MEM m) (mb_info m) (mb_mmap m)
    (mb_mods m) (mb_start m) (mb_end m) (mb_paging m) (mb_higher_half m).

Definition set_reserved (r : list (Z * Z)) (m : multiboot) : multiboot :=
  mk_mb (MULTIBOOT_INFO m) (INIT_RD_START m) (INIT_RD_SIZE m) r (mb_info m) (mb_mmap m)
    (mb_mods m) (mb_start m) (mb_end m) (mb_paging m) (mb_higher_half m).

(** ** Initialisation *)

Definition init_reserved_memory_area : M multiboot unit :=
  do mb <- gets MULTIBOOT_INFO;
  do info <- gets mb_info;
  do kstart <- gets mb_start;
  do kend <- gets mb_end;
  let start_mb := min_u32 mb (mmap_addr info) in
  let end_mb := max_u32 (u32 (mb + SIZEOF_MULTIBOOT_INFO - 1))
                        (u32 (mmap_addr info + mmap_length info)) in
  modify (set_reserved
    [(to_phys kstart, to_phys kend);
     (start_mb, end_mb);
     (0xB8000, 0xB8000 + 80 * 25 * 2 - 1)]).

Definition init_initrd : M multiboot unit :=
  do info <- gets mb_info;
  if (mods_count info =? 0) || (1 <? mods_count info) then ret tt else
  do paging <- gets mb_paging;
  ASSERT (negb paging) "!cpu_paging_enabled()";;;
  do mods <- gets mb_mods;
  do entry <- must (head mods) "mods_addr";
  modify (set_initrd (mod_start entry) (u32 (mod_end entry - mod_start entry))).

Definition init_multiboot (ptr : Z) : M multiboot unit :=
  do paging <- gets mb_paging;
  ASSERT (negb paging) "!cpu_paging_enabled()";;;
  do hh <- gets mb_higher_half;
  ASSERT (negb hh) "!in_higher_half()";;;
  modify (set_info_ptr ptr);;;
  init_reserved_memory_area;;;
  init_initrd;;;
  modify (set_info_ptr (to_virt ptr)).

(** ** The memory map *)

Definition get_multiboot_info_struct : M multiboot Z := gets MULTIBOOT_INFO.

Definition get_mmap_entry_ptr : M multiboot Z :=
  do mi <- gets mb_info;
  ASSERT (negb (mmap_addr mi =? 0)) "mi->mmap_addr";;;
  ret (mmap_addr mi).

Definition multiboot_mmap_entries_count : M multiboot Z :=
  do mi <- gets mb_info;
  ASSERT (mmap_length mi mod SIZEOF_MMAP_ENTRY =? 0) "mmap_length";;;
  ret (mmap_length mi / SIZEOF_MMAP_ENTRY).

(** [phy_read] of entry number [i] of the map. *)
Definition read_entry (i : Z) : M multiboot multiboot_mmap_entry :=
  do es <- gets mb_mmap; must (es !! Z.to_nat i) "mmap entry".

Definition mmap_entry_is_available (e : multiboot_mmap_entry) : bool := type_ e =? 1.

Definition mmap_entry_within_4GiB (e : multiboot_mmap_entry) : bool :=
  base_addr e <=? 0xFFFFFFFF.

Definition get_max_offset_for_entry (e : multiboot_mmap_entry) : M multiboot Z :=
  ASSERT (mmap_entry_is_available e) "mmap_entry_is_available(entry)";;;
  ret (u64 (base_addr e + len e - 1)).

Definition get_max_addr_for_entry (e : multiboot_mmap_entry) : M multiboot Z :=
  do off <- get_max_offset_for_entry e; ret (u32 off).

(** The loop of [get_max_addr] over the indices of the entries. *)
Fixpoint max_addr_loop (idxs : list Z) (curr_max_addr : Z) : M multiboot Z :=
  match idxs with
  | [] => ret curr_max_addr
  | i :: idxs' =>
      do entry <- read_entry i;
      if mmap_entry_is_available entry && mmap_entry_within_4GiB entry then
        do entry_max <- get_max_offset_for_entry entry;
        max_addr_loop idxs' (if entry_max >? curr_max_addr then entry_max else curr_max_addr)
      else max_addr_loop idxs' curr_max_addr
  end.

Definition get_max_addr : M multiboot Z :=
  do first <- get_mmap_entry_ptr;
  do count <- multiboot_mmap_entries_count;
  do m <- max_addr_loop (range 0 count) 0;
  ret (u32 (if m >? 0xFFFFFFFF then 0xFFFFFFFF else m)).

(** ** Finding room for the frame bitmap *)

(** The index of the first reserved area the entry meets. *)
Fixpoint reserved_conflict (estart eend : Z) (i : Z) (r : list (Z * Z)) : option Z :=
  match r with
  | [] => None
  | (rstart, rend) :: r' =>
      if negb (((estart <? rstart) && (eend <? rstart)) || ((rend <? estart) && (rend <? eend)))
      then Some i
      else reserved_conflict estart eend (i + 1) r'
  end.

Definition contain_reserved_memory (e : multiboot_mmap_entry) : M multiboot (option Z) :=
  if len e =? 0 then ret None else
  do entry_end <- get_max_offset_for_entry e;
  do r <- gets RESERVED_MEM;
  ret (reserved_conflict (base_addr e) entry_end 0 r).

(** The last branch of [find_in_entry]: an entry free of reserved memory. *)
Definition fit_in_entry (e : multiboot_mmap_entry) (nframes : Z) : option Z :=
  let aligned := round_up_u32 (u32 (base_addr e)) 0x1000 in
  let new_len := u64 (len e - u64 (aligned - base_addr e)) in
  if new_len <? u32 (nframes * 0x1000) then None
  else if u64 (aligned + new_len) >? 0xFFFFFFFF then None
  else Some (u32 aligned).

Definition is_none {A} (o : option A) : bool := match o with Some _ => false | None => true end.

(** [find_in_entry] calls itself on an entry it has just asserted to be free of
    reserved memory: the recursion is at most two calls deep, which is the
    fuel [find_contiguous_physical_frames] gives it. *)
Fixpoint find_in_entry (depth : nat) (e : multiboot_mmap_entry) (nframes : Z)
    : M multiboot (option Z) :=
  match depth with
  | O => halt_with (Hang "find_in_entry")
  | S depth' =>
      if negb (mmap_entry_within_4GiB e) then ret None else
      do conflict <- contain_reserved_memory e;
      match conflict with
      | Some idx =>
          do r <- gets RESERVED_MEM;
          do ' (rstart, rend) <- must (r !! Z.to_nat idx) "RESERVED_MEM";
          let estart := base_addr e in
          do eend <- get_max_offset_for_entry e;
          do found <-
            (if estart <=? rstart then
               let before := mk_entry estart (u64 (rstart - estart)) 1 in
               do c <- contain_reserved_memory before;
               ASSERT (is_none c) "!contain_reserved_memory(&before, NULL)";;;
               find_in_entry depth' before nframes
             else ret None);
          match found with
          | Some start => ret (Some start)
          | None =>
              if rend <=? eend then
                let after := mk_entry (u64 (rend + 1)) (u64 (eend - rend)) 1 in
                do c <- contain_reserved_memory after;
                ASSERT (is_none c) "!contain_reserved_memory(&after, NULL)";;;
                find_in_entry depth' after nframes
              else ret None
          end
      | None => ret (fit_in_entry e nframes)
      end
  end.

Fixpoint find_loop (idxs : list Z) (nframes : Z) : M multiboot Z :=
  match idxs with
  | [] => panic "Not enough physical memory"
  | i :: idxs' =>
      do entry <- read_entry i;
      do found <-
        (if mmap_entry_is_available entry && (u32 (nframes * 0x1000) <=? len entry)
         then find_in_entry 2 entry nframes else ret None);
      match found with
      | Some start => ret start
      | None => find_loop idxs' nframes
      end
  end.

Definition find_contiguous_physical_frames (nframes : Z) : M multiboot Z :=
  do first <- get_mmap_entry_ptr;
  do count <- multiboot_mmap_entries_count;
  find_loop (range 0 count) nframes.

Definition multiboot_get_initrd_start : M multiboot Z := gets INIT_RD_START.
Definition multiboot_get_initrd_size : M multiboot Z := gets INIT_RD_SIZE.

(** ** Lemmas *)

(** An entry as the boot loader writes it: a byte range of the 64-bit space. *)
Definition entry_wf (e : multiboot_mmap_entry) : Prop :=
  0 <= base_addr e /\ 0 <= len e /\ base_addr e + len e < 2 ^ 64.

(** The bytes of the entry and of the reserved area [r] are disjoint. *)
Definition apart (e : multiboot_mmap_entry) (r : Z * Z) : Prop :=
  base_addr e + len e <= r.1 \/ r.2 < base_addr e.

(** Aligning the start of the entry to a page stays within the entry. *)
Definition alignable (e : multiboot_mmap_entry) : Prop :=
  4096 <= len e \/ base_addr e mod 4096 = 0.

#[export] Instance apart_dec e r : Decision (apart e r).
Proof. unfold apart. apply _. Defined.

Lemma reserved_conflict_spec es ee i r :
  es <= ee ->
  match reserved_conflict es ee i r with
  | Some j => exists rs re, i <= j /\ r !! Z.to_nat (j - i) = Some (rs, re) /\ ~ (ee < rs \/ re < es)
  | None => forall rs re, (rs, re) ∈ r -> ee < rs \/ re < es
  end.
Proof.
  intros Hle. revert i. induction r as [|[rs re] r IH]; intros i; simpl.
  { intros rs re []%not_elem_of_nil. }
  destruct (negb _) eqn:E.
  - exists rs, re. rewrite Z.sub_diag. split_and!; [lia|done|]. breflect. lia.
  - specialize (IH (i + 1)). destruct (reserved_conflict es ee (i + 1) r) as [j|].
    + destruct IH as (rs' & re' & Hj & Hr & Hn). exists rs', re'. split_and!; [lia| |done].
      replace (Z.to_nat (j - i)) with (S (Z.to_nat (j - (i + 1)))) by lia. done.
    + intros rs' re' [[= -> ->]|Hin]%elem_of_cons; [|by apply IH]. breflect.
      apply orb_prop in E. destruct E; breflect; lia.
Qed.

Lemma max_offset_run e m :
  type_ e = 1 -> entry_wf e -> 0 < len e ->
  get_max_offset_for_entry e m = Ok (base_addr e + len e - 1, m).
Proof.
  intros Ht (H1 & H2 & H3) Hl. unfold get_max_offset_for_entry, mmap_entry_is_available, bind, ASSERT, ret.
  rewrite Ht. simpl. by rewrite u64_id by lia.
Qed.

Lemma contain_reserved_run e m :
  type_ e = 1 -> entry_wf e ->
  contain_reserved_memory e m =
  Ok (if len e =? 0 then None
      else reserved_conflict (base_addr e) (base_addr e + len e - 1) 0 (RESERVED_MEM m), m).
Proof.
  intros Ht Hwf. unfold contain_reserved_memory. destruct (Z.eqb_spec (len e) 0); [done|].
  unfold bind. rewrite max_offset_run; [done|done|done|]. destruct Hwf as (? & ? & ?). lia.
Qed.

(** The room found in an entry free of reserved memory. *)
Definition room_in (e : multiboot_mmap_entry) (nframes start : Z) : Prop :=
  start mod 4096 = 0 /\ base_addr e <= start /\
  start + nframes * 4096 <= base_addr e + len e /\ start + nframes * 4096 <= 2 ^ 32.

Lemma fit_in_entry_room e n a :
  entry_wf e -> base_addr e < 2 ^ 32 -> alignable e -> 0 < n * 4096 < 2 ^ 32 ->
  fit_in_entry e n = Some a -> room_in e n a.
Proof.
  intros (H1 & H2 & H3) Hb Hal Hn. unfold fit_in_entry. rewrite (u32_id (n * _)) by lia.
  rewrite (u32_id (base_addr e)) by lia. change 0x1000 with 4096.
  destruct (Z.le_gt_cases (base_addr e + 4096) (2 ^ 32)) as [Hlow|Hhigh].
  - pose proof (ceil_step (base_addr e) 4096 ltac:(lia)) as Hc.
    rewrite round_up_no_wrap by lia.
    set (q := base_addr e / 4096 + b2z (negb (base_addr e mod 4096 =? 0))) in *.
    assert (q * 4096 - base_addr e <= len e).
    { destruct Hal as [|Hz]; [lia|]. unfold q. rewrite Hz. simpl.
      pose proof (Z.div_mod (base_addr e) 4096). lia. }
    rewrite (u64_id (q * 4096 - _)), (u64_id (len e - _)) by lia.
    destruct (Z.ltb_spec (len e - (q * 4096 - base_addr e)) (n * 4096)); [done|].
    destruct (u64 _ >? _) eqn:E; [done|]. rewrite Z.gtb_ltb in E. apply Z.ltb_ge in E.
    intros [= <-]. replace (q * 4096 + (len e - (q * 4096 - base_addr e))) with (base_addr e + len e) in E by lia.
    rewrite u64_id in E by lia.
    rewrite u32_id by lia. unfold room_in. rewrite Z.mod_mul by lia. lia.
  - destruct Hal as [Hl|Hz]; [|Z.to_euclidean_division_equations; lia].
    assert (round_up_u32 (base_addr e) 4096 = 0) as ->.
    { unfold round_up_u32. assert (base_addr e / 4096 = 1048575) as -> by (Z.to_euclidean_division_equations; lia).
      destruct (Z.eqb_spec (base_addr e mod 4096) 0); [Z.to_euclidean_division_equations; lia|]. done. }
    assert (u64 (len e - u64 (0 - base_addr e)) = base_addr e + len e) as ->.
    { unfold u64. rewrite Zminus_mod_idemp_r.
      replace (len e - (0 - base_addr e)) with (base_addr e + len e) by lia.
      apply Z.mod_small. lia. }
    destruct (Z.ltb_spec (base_addr e + len e) (n * 4096)); [done|].
    rewrite Z.add_0_l, u64_id by lia. destruct (_ >? _) eqn:E; [done|]. lia.
Qed.

(** The two parts of an entry around a reserved area. *)
Definition before_of (e : multiboot_mmap_entry) (r : Z * Z) : multiboot_mmap_entry :=
  mk_entry (base_addr e) (r.1 - base_addr e) 1.
Definition after_of (e : multiboot_mmap_entry) (r : Z * Z) : multiboot_mmap_entry :=
  mk_entry (r.2 + 1) (base_addr e + len e - 1 - r.2) 1.

(** An entry the search handles: it meets at most one reserved area, and
    aligning the start of the part before or after that area to a page does
    not leave the part. *)
Record searchable (R : list (Z * Z)) (e : multiboot_mmap_entry) : Prop := {
  sr_wf : entry_wf e;
  sr_one : forall i j r r', R !! i = Some r -> R !! j = Some r' ->
    ~ apart e r -> ~ apart e r' -> i = j;
  sr_area : forall r, r ∈ R -> 0 <= r.1 <= r.2 /\ r.2 < 2 ^ 32;
  sr_before : forall r, r ∈ R -> ~ apart e r -> base_addr e <= r.1 -> alignable (before_of e r);
  sr_after : forall r, r ∈ R -> ~ apart e r -> r.2 < base_addr e + len e -> alignable (after_of e r) }.

(** [n] frames from [a] on lie in [e] and outside the reserved areas. *)
Definition usable (R : list (Z * Z)) (e : multiboot_mmap_entry) (n a : Z) : Prop :=
  room_in e n a /\ forall r, r ∈ R -> a + n * 4096 <= r.1 \/ r.2 < a.

Lemma room_in_within e e' n a :
  base_addr e <= base_addr e' -> base_addr e' + len e' <= base_addr e + len e ->
  room_in e' n a -> room_in e n a.
Proof. unfold room_in. lia. Qed.

Lemma apart_within e e' r :
  base_addr e <= base_addr e' -> base_addr e' + len e' <= base_addr e + len e ->
  apart e r -> apart e' r.
Proof. unfold apart. lia. Qed.

Lemma room_apart e n a r : 0 < n -> room_in e n a -> apart e r -> a + n * 4096 <= r.1 \/ r.2 < a.
Proof. unfold room_in, apart. lia. Qed.

Section Search.
Context (m : multiboot) (n : Z) (Hn : 0 < n * 4096 < 2 ^ 32).

Lemma no_conflict e :
  entry_wf e -> (forall r, r ∈ RESERVED_MEM m -> apart e r) ->
  (if len e =? 0 then None
   else reserved_conflict (base_addr e) (base_addr e + len e - 1) 0 (RESERVED_MEM m)) = None.
Proof.
  intros (H1 & H2 & H3) Hap. destruct (Z.eqb_spec (len e) 0); [done|].
  pose proof (reserved_conflict_spec (base_addr e) (base_addr e + len e - 1) 0 (RESERVED_MEM m)
    ltac:(lia)) as Hc.
  destruct (reserved_conflict _ _ _ _) as [j|]; [|done]. destruct Hc as (rs & re & _ & Hr & Hnot).
  apply list_elem_of_lookup_2 in Hr. destruct (Hap _ Hr); simpl in *; lia.
Qed.

Lemma find_leaf d e :
  type_ e = 1 -> entry_wf e -> (forall r, r ∈ RESERVED_MEM m -> apart e r) ->
  find_in_entry (S d) e n m =
  Ok (if base_addr e <=? 0xFFFFFFFF then fit_in_entry e n else None, m).
Proof.
  intros Ht Hwf Hap. simpl. unfold mmap_entry_within_4GiB.
  destruct (base_addr e <=? 0xFFFFFFFF); [|done]. simpl. unfold bind.
  by rewrite contain_reserved_run, no_conflict.
Qed.

Lemma find_leaf_usable e o :
  entry_wf e -> alignable e -> (forall r, r ∈ RESERVED_MEM m -> apart e r) ->
  o = (if base_addr e <=? 0xFFFFFFFF then fit_in_entry e n else None) ->
  forall a, o = Some a -> usable (RESERVED_MEM m) e n a.
Proof.
  intros Hwf Hal Hap -> a Ha. destruct (Z.leb_spec (base_addr e) 0xFFFFFFFF); [|done].
  assert (room_in e n a) as Hroom by (apply fit_in_entry_room; [done|lia|done|done|done]).
  split; [done|]. intros r Hr. eapply room_apart; [lia|done|by apply Hap].
Qed.

(** The call on one of the two parts of an entry. *)
Lemma find_part d e p :
  entry_wf e -> base_addr e <= base_addr p -> base_addr p + len p <= base_addr e + len e ->
  0 <= len p -> type_ p = 1 -> alignable p -> (forall r, r ∈ RESERVED_MEM m -> apart p r) ->
  exists o,
    bind (contain_reserved_memory p) (fun c =>
      bind (ASSERT (is_none c) "!contain_reserved_memory(&before, NULL)")
        (fun _ => find_in_entry (S d) p n)) m = Ok (o, m) /\
    bind (contain_reserved_memory p) (fun c =>
      bind (ASSERT (is_none c) "!contain_reserved_memory(&after, NULL)")
        (fun _ => find_in_entry (S d) p n)) m = Ok (o, m) /\
    forall a, o = Some a -> usable (RESERVED_MEM m) e n a.
Proof.
  intros Hwf Hb He Hl Ht Hal Hap.
  assert (Hpwf : entry_wf p) by (destruct Hwf as (? & ? & ?); unfold entry_wf; lia).
  exists (if base_addr p <=? 0xFFFFFFFF then fit_in_entry p n else None).
  assert (Hc : contain_reserved_memory p m = Ok (None, m))
    by (by rewrite contain_reserved_run, no_conflict).
  rewrite !(bind_ok _ _ _ _ _ Hc). cbv beta. rewrite !(bind_ok _ _ _ tt m) by done.
  rewrite find_leaf by done. split_and!; [done|done|].
  intros a Ha. destruct (find_leaf_usable p _ Hpwf Hal Hap eq_refl a Ha) as [Hroom Hres].
  split; [by eapply room_in_within|done].
Qed.

Lemma apart_others e i r r' :
  searchable (RESERVED_MEM m) e -> RESERVED_MEM m !! i = Some r -> ~ apart e r ->
  r' ∈ RESERVED_MEM m -> r' = r \/ apart e r'.
Proof.
  intros Hs Hi Hr [j Hj]%list_elem_of_lookup.
  destruct (decide (base_addr e + len e <= r'.1)); [right; by left|].
  destruct (decide (r'.2 < base_addr e)); [right; by right|].
  left. assert (i = j) as -> by (eapply (sr_one _ _ Hs); try done; unfold apart; lia). congruence.
Qed.

Lemma find_around e i r k :
  searchable (RESERVED_MEM m) e -> type_ e = 1 -> 0 < len e -> k = 1%nat ->
  RESERVED_MEM m !! Z.to_nat i = Some r -> ~ apart e r -> contain_reserved_memory e m = Ok (Some i, m) ->
  exists o, find_in_entry (S k) e n m = Ok (o, m) /\
            forall a, o = Some a -> usable (RESERVED_MEM m) e n a.
Proof.
  intros Hs Ht Hlen Hk Hi Hr Hc. destruct (sr_wf _ _ Hs) as (H1 & H2 & H3).
  pose proof (list_elem_of_lookup_2 _ _ _ Hi) as Hin.
  destruct (sr_area _ _ Hs r Hin) as [Hra Hrb]. unfold apart in Hr.
  assert (Hoth : forall p, base_addr e <= base_addr p ->
            base_addr p + len p <= base_addr e + len e -> apart p r ->
            forall r', r' ∈ RESERVED_MEM m -> apart p r').
  { intros p Hb He Hp r' Hr'. destruct (apart_others e _ r r' Hs Hi Hr Hr') as [->|]; [done|].
    by eapply apart_within. }
  simpl. destruct (negb _); [by eexists|]. rewrite (bind_ok _ _ _ _ _ Hc).
  rewrite (bind_ok _ _ _ (RESERVED_MEM m) m) by done.
  rewrite (bind_ok _ _ _ r m) by (by rewrite Hi). destruct r as [rs re]; simpl in *.
  rewrite (bind_ok _ _ _ (base_addr e + len e - 1) m) by (apply max_offset_run; [done|done|lia]).
  assert (Hbefore : exists o, (if base_addr e <=? rs then
       bind (contain_reserved_memory (mk_entry (base_addr e) (u64 (rs - base_addr e)) 1))
         (fun c => bind (ASSERT (is_none c) "!contain_reserved_memory(&before, NULL)")
            (fun _ => find_in_entry k (mk_entry (base_addr e) (u64 (rs - base_addr e)) 1) n))
     else ret None) m = Ok (o, m) /\ forall a, o = Some a -> usable (RESERVED_MEM m) e n a).
  { destruct (Z.leb_spec (base_addr e) rs) as [Hle|]; [|by eexists].
    rewrite u64_id by lia. subst k.
    destruct (find_part 0 e (before_of e (rs, re))) as (o & Ho & _ & Hu);
      [done|simpl; lia|simpl; lia|simpl; lia|done|by apply (sr_before _ _ Hs)| |by exists o].
    apply Hoth; [simpl; lia|simpl; lia|left; simpl; lia]. }
  destruct Hbefore as (o1 & Ho1 & Hu1). rewrite (bind_ok _ _ _ _ _ Ho1).
  destruct o1 as [a|]; [by exists (Some a)|].
  destruct (Z.leb_spec re (base_addr e + len e - 1)) as [Hle|]; [|by eexists].
  rewrite !u64_id by lia. subst k.
  destruct (find_part 0 e (after_of e (rs, re))) as (o & _ & Ho & Hu);
    [done|simpl; lia|simpl; lia|simpl; lia|done|apply (sr_after _ _ Hs); [done|done|simpl; lia]| |by exists o].
  apply Hoth; [simpl; lia|simpl; lia|right; simpl; lia].
Qed.

Lemma find_in_entry_spec e :
  searchable (RESERVED_MEM m) e -> type_ e = 1 -> n * 4096 <= len e ->
  exists o, find_in_entry 2 e n m = Ok (o, m) /\
    (forall a, o = Some a -> usable (RESERVED_MEM m) e n a) /\
    (o = None -> (forall r, r ∈ RESERVED_MEM m -> apart e r) -> base_addr e < 2 ^ 32 ->
     fit_in_entry e n = None).
Proof.
  intros Hs Ht Hlen. pose proof (sr_wf _ _ Hs) as Hwf. destruct Hwf as (H1 & H2 & H3).
  destruct (decide (Forall (apart e) (RESERVED_MEM m))) as [Hall|Hall].
  - rewrite Forall_forall in Hall. eexists. split; [by apply find_leaf|]. split.
    + eapply find_leaf_usable; [done|left; lia|done|done].
    + intros Ho _ Hb. by destruct (Z.leb_spec (base_addr e) 0xFFFFFFFF); [|lia].
  - assert (Hc : exists i r, contain_reserved_memory e m = Ok (Some i, m) /\
              RESERVED_MEM m !! Z.to_nat i = Some r /\ ~ apart e r).
    { rewrite contain_reserved_run by done. rewrite (proj2 (Z.eqb_neq (len e) 0)) by lia.
      pose proof (reserved_conflict_spec (base_addr e) (base_addr e + len e - 1) 0 (RESERVED_MEM m)
        ltac:(lia)) as Hc.
      destruct (reserved_conflict _ _ _ _) as [j|].
      - destruct Hc as (rs & re & _ & Hr & Hnot). rewrite Z.sub_0_r in Hr.
        exists j, (rs, re). split_and!; [done|done|]. unfold apart. simpl. lia.
      - destruct Hall. apply Forall_forall. intros [rs re] Hin. specialize (Hc rs re Hin).
        unfold apart. simpl. lia. }
    destruct Hc as (i & r & Hc & Hi & Hr).
    destruct (find_around e i r 1 Hs Ht ltac:(lia) eq_refl Hi Hr Hc) as (o & Ho & Hu). exists o.
    split_and!; [done|done|]. intros _ Hap _. destruct Hr. apply Hap. by eapply list_elem_of_lookup_2.
Qed.

End Search.

Lemma fit_in_entry_complete e n a :
  entry_wf e -> base_addr e + len e < 2 ^ 32 -> 0 < n * 4096 -> room_in e n a ->
  fit_in_entry e n <> None.
Proof.
  intros (H1 & H2 & H3) Hb Hn (Ha & Hlo & Hhi & _). unfold fit_in_entry.
  rewrite (u32_id (n * _)), (u32_id (base_addr e)) by lia. change 0x1000 with 4096.
  rewrite round_up_no_wrap by lia. pose proof (ceil_step (base_addr e) 4096 ltac:(lia)) as Hc.
  set (q := base_addr e / 4096 + b2z (negb (base_addr e mod 4096 =? 0))) in *.
  assert (q * 4096 <= a) by (Z.to_euclidean_division_equations; lia).
  rewrite (u64_id (q * 4096 - _)), (u64_id (len e - _)), u64_id by lia.
  destruct (Z.ltb_spec (len e - (q * 4096 - base_addr e)) (n * 4096)); [lia|].
  destruct (_ >? _) eqn:E; [lia|done].
Qed.

(** The memory map is where the multiboot structure says, and as long. *)
Definition boot_ok (m : multiboot) : Prop :=
  mmap_addr (mb_info m) <> 0 /\
  mmap_length (mb_info m) = SIZEOF_MMAP_ENTRY * Z.of_nat (length (mb_mmap m)).

Lemma entries_count_run m :
  boot_ok m -> multiboot_mmap_entries_count m = Ok (Z.of_nat (length (mb_mmap m)), m).
Proof.
  intros [_ Hl]. unfold multiboot_mmap_entries_count, bind, gets, ASSERT, ret. rewrite Hl.
  rewrite Z.mul_comm, Z.mod_mul, Z.div_mul by done. done.
Qed.

Lemma entry_ptr_run m : boot_ok m -> get_mmap_entry_ptr m = Ok (mmap_addr (mb_info m), m).
Proof.
  intros [Ha _]. unfold get_mmap_entry_ptr, bind, gets, ASSERT, ret.
  by rewrite (proj2 (Z.eqb_neq _ _) Ha).
Qed.

(** Reading the entries in order is reading the list. *)
Lemma read_entry_run m pre e post :
  mb_mmap m = pre ++ e :: post -> read_entry (Z.of_nat (length pre)) m = Ok (e, m).
Proof.
  intros Hm. unfold read_entry, bind, gets. rewrite Hm, Nat2Z.id, list_lookup_middle by done. done.
Qed.

Lemma range_entries {A} (pre post : list A) e :
  range (Z.of_nat (length pre)) (Z.of_nat (length (pre ++ e :: post))) =
  Z.of_nat (length pre) ::
  range (Z.of_nat (length (pre ++ [e]))) (Z.of_nat (length ((pre ++ [e]) ++ post))).
Proof.
  rewrite range_cons by (rewrite length_app; simpl; lia). f_equal. f_equal.
  - rewrite length_app. simpl. lia.
  - by rewrite <- app_assoc.
Qed.

Definition entry_searched (m : multiboot) (n : Z) (e : multiboot_mmap_entry) : Prop :=
  type_ e = 1 -> base_addr e + len e < 2 ^ 32 ->
  (forall r, r ∈ RESERVED_MEM m -> apart e r) -> forall a, ~ room_in e n a.

Lemma find_loop_spec m n :
  0 < n * 4096 < 2 ^ 32 -> (forall e, e ∈ mb_mmap m -> type_ e = 1 -> searchable (RESERVED_MEM m) e) ->
  forall post pre, mb_mmap m = pre ++ post ->
  (exists start e, find_loop (range (Z.of_nat (length pre)) (Z.of_nat (length (pre ++ post)))) n m =
      Ok (start, m) /\ e ∈ mb_mmap m /\ type_ e = 1 /\ usable (RESERVED_MEM m) e n start) \/
  (find_loop (range (Z.of_nat (length pre)) (Z.of_nat (length (pre ++ post)))) n m =
      Halt (Panic "Not enough physical memory") /\ Forall (entry_searched m n) post).
Proof.
  intros Hn Hs. induction post as [|e post IH]; intros pre Hm.
  { right. rewrite app_nil_r, range_nil by lia. by split. }
  assert (Hin : e ∈ mb_mmap m) by (rewrite Hm; set_solver).
  rewrite range_entries. simpl. rewrite (bind_ok _ _ _ _ _ (read_entry_run m pre e post Hm)).
  specialize (IH (pre ++ [e]) ltac:(by rewrite <- app_assoc)).
  assert (Hnext : entry_searched m n e ->
    (exists start e', find_loop (range (Z.of_nat (length (pre ++ [e])))
        (Z.of_nat (length ((pre ++ [e]) ++ post)))) n m =
      Ok (start, m) /\ e' ∈ mb_mmap m /\ type_ e' = 1 /\ usable (RESERVED_MEM m) e' n start) \/
    (find_loop (range (Z.of_nat (length (pre ++ [e])))
        (Z.of_nat (length ((pre ++ [e]) ++ post)))) n m =
      Halt (Panic "Not enough physical memory") /\ Forall (entry_searched m n) (e :: post))).
  { intros He. destruct IH as [H|[H1 H2]]; [by left|right]. split; [done|]. by constructor. }
  rewrite u32_id by lia. change 0x1000 with 4096. unfold mmap_entry_is_available.
  destruct (Z.eqb_spec (type_ e) 1) as [Ht|Ht];
    [destruct (Z.leb_spec (n * 4096) (len e)) as [Hl|Hl]|]; simpl andb; cbv iota.
  - destruct (find_in_entry_spec m n Hn e (Hs e Hin Ht) Ht Hl) as (o & Ho & Hsome & Hnone).
    rewrite (bind_ok _ _ _ _ _ Ho). destruct o as [a|].
    + left. exists a, e. split_and!; [done..|]. by apply Hsome.
    + apply Hnext. intros _ Hb Hap a Hroom. pose proof (sr_wf _ _ (Hs e Hin Ht)) as Hwf.
      apply (fit_in_entry_complete e n a); [done|done|lia|done|]. apply Hnone; [done|done|].
      destruct Hwf as (? & ? & ?). lia.
  - rewrite (bind_ok _ _ _ None m) by done. apply Hnext. intros _ _ _ a (? & ? & ? & ?). lia.
  - rewrite (bind_ok _ _ _ None m) by done. apply Hnext. intros Ht'. by destruct Ht.
Qed.

(** The running maximum of [get_max_addr]. *)
Definition max_step (a : Z) (e : multiboot_mmap_entry) : Z :=
  if mmap_entry_is_available e && mmap_entry_within_4GiB e
  then Z.max a (base_addr e + len e - 1) else a.

Lemma max_fold l : forall acc,
  0 <= acc -> (forall e, e ∈ l -> type_ e = 1 -> entry_wf e /\ 0 < len e) ->
  acc <= foldl max_step acc l /\
  (forall e, e ∈ l -> type_ e = 1 -> base_addr e < 2 ^ 32 ->
     base_addr e + len e - 1 <= foldl max_step acc l) /\
  (foldl max_step acc l = acc \/
   exists e, e ∈ l /\ type_ e = 1 /\ base_addr e < 2 ^ 32 /\
     foldl max_step acc l = base_addr e + len e - 1).
Proof.
  induction l as [|e l IH]; intros acc Hacc Hl; simpl.
  { split_and!; [lia|by intros e []%not_elem_of_nil|by left]. }
  assert (Hfe : acc <= max_step acc e) by (unfold max_step; case_match; lia).
  destruct (IH (max_step acc e) ltac:(lia) ltac:(intros; apply Hl; [by right|done])) as (H1 & H2 & H3).
  split_and!; [lia| |].
  - intros e' [->|Hin]%elem_of_cons Ht Hb4; [|by apply H2].
    etransitivity; [|exact H1]. unfold max_step, mmap_entry_is_available, mmap_entry_within_4GiB.
    rewrite Ht. destruct (Z.leb_spec (base_addr e) 0xFFFFFFFF); simpl; lia.
  - destruct H3 as [H3|(e' & ? & ? & ? & ?)]; [|right; exists e'; split; [by right|done]].
    rewrite H3. unfold max_step, mmap_entry_is_available, mmap_entry_within_4GiB.
    destruct (Z.eqb_spec (type_ e) 1); [|by left].
    destruct (Z.leb_spec (base_addr e) 0xFFFFFFFF); [|by left]. simpl.
    destruct (Z.max_spec acc (base_addr e + len e - 1)) as [[? ->]|[? ->]]; [right|by left].
    exists e. split_and!; [by left|done|lia|done].
Qed.

Lemma max_addr_loop_run m :
  (forall e, e ∈ mb_mmap m -> type_ e = 1 -> entry_wf e /\ 0 < len e) ->
  forall post pre acc, mb_mmap m = pre ++ post ->
  max_addr_loop (range (Z.of_nat (length pre)) (Z.of_nat (length (pre ++ post)))) acc m =
  Ok (foldl max_step acc post, m).
Proof.
  intros Hwf. induction post as [|e post IH]; intros pre acc Hm.
  { by rewrite app_nil_r, range_nil by lia. }
  assert (Hin : e ∈ mb_mmap m) by (rewrite Hm; set_solver).
  rewrite range_entries. simpl. rewrite (bind_ok _ _ _ _ _ (read_entry_run m pre e post Hm)).
  specialize (IH (pre ++ [e])). destruct (mmap_entry_is_available e) eqn:Ha; simpl;
    [destruct (mmap_entry_within_4GiB e) eqn:H4|]; 
    [|rewrite IH by (by rewrite <- app_assoc); unfold max_step; rewrite Ha, ?H4; done..].
  apply Z.eqb_eq in Ha. destruct (Hwf e Hin Ha) as [He Hl].
  rewrite (bind_ok _ _ _ _ _ (max_offset_run e m Ha He Hl)).
  rewrite IH by (by rewrite <- app_assoc). do 3 f_equal.
  unfold max_step, mmap_entry_is_available. rewrite Ha, H4. simpl. rewrite Z.gtb_ltb.
  destruct (Z.ltb_spec acc (base_addr e + len e - 1)); lia.
Qed.

(** ** Properties *)

(** [find_contiguous_physical_frames] on a memory map whose available
    entries each meet at most one reserved area, with room to align the parts
    around it: it either returns the page-aligned start of [nframes]
    contiguous frames that lie inside one available entry, below 4GiB and
    outside the kernel, the multiboot structure and the VGA buffer; or it
    panics, and then no available entry below 4GiB that is free of reserved
    memory has [nframes] aligned frames.  The recursion of [find_in_entry]
    always ends within its two levels. *)
Theorem find_contiguous_physical_frames_correct (m : multiboot) (nframes : Z) :
  boot_ok m -> 0 < nframes * 4096 < 2 ^ 32 ->
  (forall e, e ∈ mb_mmap m -> type_ e = 1 -> searchable (RESERVED_MEM m) e) ->
  (exists start e, find_contiguous_physical_frames nframes m = Ok (start, m) /\
     e ∈ mb_mmap m /\ type_ e = 1 /\ usable (RESERVED_MEM m) e nframes start) \/
  (find_contiguous_physical_frames nframes m = Halt (Panic "Not enough physical memory") /\
   Forall (entry_searched m nframes) (mb_mmap m)).
Proof.
  intros Hb Hn Hs. unfold find_contiguous_physical_frames.
  rewrite (bind_ok _ _ _ _ _ (entry_ptr_run m Hb)), (bind_ok _ _ _ _ _ (entries_count_run m Hb)).
  by apply (find_loop_spec m nframes Hn Hs (mb_mmap m) []).
Qed.

(** A machine with 640KiB of low memory and 127MiB above 1MiB, a kernel of
    1MiB and a bit, and the multiboot structure at 0x9500. *)
Definition sample_boot : multiboot :=
  mk_mb 0xC0009500 0 0
    [(0x100000, 0x20FFFF); (0x9500, 0x9600); (0xB8000, 0xB8F9F)]
    (mk_info 0 0 48 0x9580)
    [mk_entry 0 0x9FC00 1; mk_entry 0x100000 0x7EE0000 1] []
    0xC0100000 0xC020FFFF false true.

Lemma sample_searchable e :
  e ∈ mb_mmap sample_boot -> type_ e = 1 -> searchable (RESERVED_MEM sample_boot) e.
Proof.
  intros He _. simpl in He. repeat (apply elem_of_cons in He as [->|He]); [..|by apply not_elem_of_nil in He].
  all: split; [unfold entry_wf; simpl; lia| | | |].
  all: try (intros r Hr; repeat (apply elem_of_cons in Hr as [->|Hr]); [..|by apply not_elem_of_nil in Hr];
    unfold apart, alignable, before_of, after_of; simpl; try lia; intros; right; done).
  all: intros [|[|[|i]]] [|[|[|j]]] r r' Hi Hj; simplify_eq/=; unfold apart; simpl; lia.
Qed.

Lemma find_contiguous_physical_frames_correct_witness :
  exists start e, find_contiguous_physical_frames 1 sample_boot = Ok (start, sample_boot) /\
     e ∈ mb_mmap sample_boot /\ type_ e = 1 /\ usable (RESERVED_MEM sample_boot) e 1 start.
Proof.
  destruct (find_contiguous_physical_frames_correct sample_boot 1) as [H|[H _]];
    [done|lia|apply sample_searchable|exact H|].
  exfalso. vm_compute in H. discriminate.
Defined.

(** [get_max_addr] is the last byte of the highest available entry that
    starts below 4GiB, cut off at 4GiB. *)
Theorem get_max_addr_correct (m : multiboot) :
  boot_ok m -> (forall e, e ∈ mb_mmap m -> type_ e = 1 -> entry_wf e /\ 0 < len e) ->
  exists a, get_max_addr m = Ok (a, m) /\
    (forall e, e ∈ mb_mmap m -> type_ e = 1 -> base_addr e < 2 ^ 32 ->
       Z.min 0xFFFFFFFF (base_addr e + len e - 1) <= a) /\
    (a = 0 \/ exists e, e ∈ mb_mmap m /\ type_ e = 1 /\ base_addr e < 2 ^ 32 /\
       a = Z.min 0xFFFFFFFF (base_addr e + len e - 1)).
Proof.
  intros Hb Hwf. destruct (max_fold (mb_mmap m) 0 ltac:(lia) Hwf) as (H1 & H2 & H3).
  unfold get_max_addr.
  rewrite (bind_ok _ _ _ _ _ (entry_ptr_run m Hb)), (bind_ok _ _ _ _ _ (entries_count_run m Hb)).
  rewrite (bind_ok _ _ _ _ _ (max_addr_loop_run m Hwf (mb_mmap m) [] 0 eq_refl)).
  eexists. split; [done|]. rewrite Z.gtb_ltb.
  destruct (Z.ltb_spec 0xFFFFFFFF (foldl max_step 0 (mb_mmap m))); rewrite u32_id by lia.
  - split; [intros; lia|]. right. destruct H3 as [|(e & ? & ? & ? & ?)]; [lia|].
    exists e. split_and!; [done..|lia].
  - split; [intros e He Ht Hb4; specialize (H2 e He Ht Hb4); lia|].
    destruct H3 as [|(e & ? & ? & ? & ?)]; [by left|right]. exists e. split_and!; [done..|lia].
Qed.

Lemma get_max_addr_correct_witness :
  exists a, get_max_addr sample_boot = Ok (a, sample_boot) /\
    (forall e, e ∈ mb_mmap sample_boot -> type_ e = 1 -> base_addr e < 2 ^ 32 ->
       Z.min 0xFFFFFFFF (base_addr e + len e - 1) <= a).
Proof.
  destruct (get_max_addr_correct sample_boot) as (a & Ha & Hle & _); [done| |by exists a].
  intros e He Ht. split; [apply (sample_searchable e He Ht)|].
  simpl in He. repeat (apply elem_of_cons in He as [->|He]); [done..|by apply not_elem_of_nil in He].
Defined.

(** Without room to align the part before a reserved area, the subtraction of
    [find_in_entry] wraps around: here the 256 bytes before the multiboot
    structure at 0x600 are taken for a frame at 0x1000, inside the structure. *)
Definition tight_boot : multiboot :=
  mk_mb 0xC0000600 0 0
    [(0x100000, 0x20FFFF); (0x600, 0x1800); (0xB8000, 0xB8F9F)]
    (mk_info 0 0 24 0x700) [mk_entry 0x500 0x9F700 1] [] 0xC0100000 0xC020FFFF false true.

Lemma find_contiguous_in_reserved :
  find_contiguous_physical_frames 1 tight_boot = Ok (0x1000, tight_boot) /\
  exists r, r ∈ RESERVED_MEM tight_boot /\ r.1 <= 0x1000 <= r.2.
Proof.
  split; [by vm_compute|]. exists (0x600, 0x1800). split; [|simpl; lia]. right. by left.
Qed.
