(* ===== verification/ErrorCodes.v ===== *)
(** * Error codes: [src/error_codes.h], and calls of [SET_ERROR]

    A component that reports an error with [SET_ERROR] logs the call: the
    message, the error code, and whether the component's own lock was held at
    the call, since the error mechanism allocates memory and so calls back
    into the allocators. *)

From S2P Require Import Prelude.

Definition ENONE : Z := -1.
Definition ENOMEM : Z := -2.
Definition ENOFSIMPL : Z := -1024.
Definition EMOUNTED : Z := -1025.
Definition ENOTMOUNTPOINT : Z := -1026.
Definition ENOTFOUND : Z := -1027.

Record err_call := mk_err {
  err_msg : string;
  err_code : Z;
  err_locked : bool }.
