(* ===== verification/FrameAlloc.v ===== *)
(** * The physical frame allocator: [src/frame_alloc.h], [src/frame_alloc.c]

    The state is the allocator's globals (the frame bitmap, its lock, the
    out-of-memory flag), the interrupt flag of the cpu that runs, the boot
    information and the log of [SET_ERROR] calls.  The operations run the
    bitmap, lock and multiboot operations on their part of the state.

    The abstract value is the set of free frame numbers; [alloc_spec] and
    [free_spec] say what the two entry points do to it, and every operation is
    shown to do just that. *)

From S2P Require Import Prelude Math Bitmap Spinlock Multiboot ErrorCodes.

Record frame_alloc := mk_fa {
  FRAME_BITMAP : bitmap;
  FRAME_ALLOC_LOCK : spinlock_t;
  NUM_FRAMES_FOR_BITMAP : Z;
  OOM_SIMULATION : bool;
  fa_if : bool;
  fa_boot : multiboot;
  fa_errors : list err_call }.

Definition put_bitmap (b : bitmap) (s : frame_alloc) : frame_alloc :=
  mk_fa b (FRAME_ALLOC_LOCK s) (NUM_FRAMES_FOR_BITMAP s) (OOM_SIMULATION s) (fa_if s)
    (fa_boot s) (fa_errors s).
Definition put_lock (p : lockst) (s : frame_alloc) : frame_alloc :=
  mk_fa (FRAME_BITMAP s) p.1 (NUM_FRAMES_FOR_BITMAP s) (OOM_SIMULATION s) p.2
    (fa_boot s) (fa_errors s).
Definition put_boot (m : multiboot) (s : frame_alloc) : frame_alloc :=
  mk_fa (FRAME_BITMAP s) (FRAME_ALLOC_LOCK s) (NUM_FRAMES_FOR_BITMAP s) (OOM_SIMULATION s)
    (fa_if s) m (fa_errors s).
Definition put_num_frames (n : Z) (s : frame_alloc) : frame_alloc :=
  mk_fa (FRAME_BITMAP s) (FRAME_ALLOC_LOCK s) n (OOM_SIMULATION s)
    (fa_if s) (fa_boot s) (fa_errors s).
Definition put_oom (v : bool) (s : frame_alloc) : frame_alloc :=
  mk_fa (FRAME_BITMAP s) (FRAME_ALLOC_LOCK s) (NUM_FRAMES_FOR_BITMAP s) v
    (fa_if s) (fa_boot s) (fa_errors s).
Definition put_errors (es : list err_call) (s : frame_alloc) : frame_alloc :=
  mk_fa (FRAME_BITMAP s) (FRAME_ALLOC_LOCK s) (NUM_FRAMES_FOR_BITMAP s) (OOM_SIMULATION s)
    (fa_if s) (fa_boot s) es.

Definition on_bitmap {A} : M bitmap A -> M frame_alloc A := zoom FRAME_BITMAP put_bitmap.
Definition on_lock {A} : M lockst A -> M frame_alloc A :=
  zoom (fun s => (FRAME_ALLOC_LOCK s, fa_if s)) put_lock.
Definition on_boot {A} : M multiboot A -> M frame_alloc A := zoom fa_boot put_boot.

Definition NO_FRAME : Z := 0xFFFFFFFF.

(** [((1 << 20) / PAGE_SIZE) - 1] *)
Definition LOW_MEM_MAX_IDX : Z := 2 ^ 20 / PAGE_SIZE - 1.

Section FrameAlloc.
(** The cpu that runs, and the content of physical memory where the bitmap
    is placed. *)
Context (cpu_id : Z) (ram : Z -> Z -> list Z).

Definition SET_ERROR (msg : string) (code : Z) : M frame_alloc unit :=
  do held <- on_lock (spinlock_is_held cpu_id);
  modify (fun s => put_errors (fa_errors s ++ [mk_err msg code held]) s).

Definition get_bitmap_and_lock : M frame_alloc unit := on_lock (spinlock_lock cpu_id).

Definition compute_bitmap_size : M frame_alloc Z :=
  do a <- on_boot get_max_addr; ret (ceil_x_over_y_u32 a 0x1000).

Definition frame_index (ptr : Z) : Z := Z.shiftr (get_page_addr ptr) 12.

Definition mark_memory_range (start end_ : Z) : M frame_alloc unit :=
  for_each (range (frame_index start) (frame_index end_ + 1)) (fun i =>
    do b <- on_bitmap (bitmap_get_bit i);
    ASSERT (negb b) "!bitmap_get_bit(&FRAME_BITMAP, i)";;;
    on_bitmap (bitmap_set i)).

Definition unmark_memory_range (start end_ : Z) : M frame_alloc unit :=
  for_each (range (frame_index start) (frame_index end_ + 1)) (fun i =>
    do b <- on_bitmap (bitmap_get_bit i);
    ASSERT b "bitmap_get_bit(&FRAME_BITMAP, i)";;;
    on_bitmap (bitmap_unset i)).

Definition mark_kernel_frames : M frame_alloc unit :=
  do kstart <- on_boot (gets mb_start);
  do kend <- on_boot (gets mb_end);
  mark_memory_range (to_phys kstart) (to_phys kend).

Definition mark_bitmap_frames (start n : Z) : M frame_alloc unit :=
  mark_memory_range start (u32 (start + u32 (n * 0x1000) - 1)).

Definition unmark_avail_frames : M frame_alloc unit :=
  do first <- on_boot get_mmap_entry_ptr;
  do count <- on_boot multiboot_mmap_entries_count;
  for_each (range 0 count) (fun i =>
    do entry <- on_boot (read_entry i);
    when (mmap_entry_is_available entry && mmap_entry_within_4GiB entry)
      (do end_ <- on_boot (get_max_addr_for_entry entry);
       unmark_memory_range (u32 (base_addr entry)) end_)).

Definition mark_multiboot_info_struct : M frame_alloc unit :=
  do mb <- on_boot get_multiboot_info_struct;
  let mb_start := to_phys mb in
  mark_memory_range mb_start (u32 (mb_start + SIZEOF_MULTIBOOT_INFO - 1)).

Definition mark_initrd_frames : M frame_alloc unit :=
  do initrd_size <- on_boot multiboot_get_initrd_size;
  if initrd_size =? 0 then ret tt else
  do initrd_start <- on_boot multiboot_get_initrd_start;
  mark_memory_range initrd_start (u32 (initrd_start + initrd_size - 1)).

Definition init_frame_alloc : M frame_alloc unit :=
  do paging <- on_boot (gets mb_paging);
  ASSERT (negb paging) "!cpu_paging_enabled()";;;
  do hh <- on_boot (gets mb_higher_half);
  ASSERT hh "in_higher_half()";;;
  do bitmap_size <- compute_bitmap_size;
  let num_frames := ceil_x_over_y_u32 bitmap_size (8 * 0x1000) in
  modify (put_num_frames num_frames);;;
  do start_frame_phy <- on_boot (find_contiguous_physical_frames num_frames);
  ASSERT (is_4kib_aligned start_frame_phy) "is_4kib_aligned(start_frame_phy)";;;
  let start_frame := to_virt start_frame_phy in
  on_bitmap (bitmap_init bitmap_size (ram start_frame_phy (num_frames * 1024)) true);;;
  unmark_avail_frames;;;
  mark_kernel_frames;;;
  mark_bitmap_frames start_frame_phy num_frames;;;
  mark_multiboot_info_struct;;;
  mark_initrd_frames;;;
  do kstart <- on_boot (gets mb_start);
  ASSERT (start_frame <? kstart) "FRAME_BITMAP.data < KERNEL_START_ADDR".

Definition do_allocation (low_mem : bool) : M frame_alloc Z :=
  get_bitmap_and_lock;;;
  do oom <- gets OOM_SIMULATION;
  if (oom : bool) then
    on_lock (spinlock_unlock cpu_id);;;
    SET_ERROR "OOM Simulation active" ENOMEM;;;
    ret NO_FRAME
  else
  let start_idx := if low_mem then 0 else LOW_MEM_MAX_IDX in
  do idx0 <- on_bitmap (bitmap_set_next_bit start_idx);
  do frame_idx <-
    (if idx0 =? BM_NPOS then
       if negb low_mem then on_bitmap (bitmap_set_next_bit 0) else ret idx0
     else if low_mem && (LOW_MEM_MAX_IDX <? idx0) then
       on_bitmap (bitmap_unset idx0);;; ret BM_NPOS
     else ret idx0);
  do frame_addr <-
    (if frame_idx =? BM_NPOS then
       SET_ERROR "No physical frame left for allocation" ENOMEM;;; ret NO_FRAME
     else ret (u32 (frame_idx * 0x1000)));
  on_lock (spinlock_unlock cpu_id);;;
  ret frame_addr.

Definition alloc_frame : M frame_alloc Z := do_allocation false.
Definition alloc_frame_low_mem : M frame_alloc Z := do_allocation true.

Definition free_frame (ptr : Z) : M frame_alloc unit :=
  ASSERT (negb (ptr =? NO_FRAME)) "ptr != NO_FRAME";;;
  get_bitmap_and_lock;;;
  ASSERT (is_4kib_aligned ptr) "is_4kib_aligned(ptr)";;;
  let idx := frame_index ptr in
  do in_use <- on_bitmap (bitmap_get_bit idx);
  when (negb in_use) (panic "Double free");;;
  on_bitmap (bitmap_unset idx);;;
  on_lock (spinlock_unlock cpu_id).

Definition frames_allocated : M frame_alloc Z :=
  get_bitmap_and_lock;;;
  do b <- gets FRAME_BITMAP;
  on_lock (spinlock_unlock cpu_id);;;
  ret (u32 (bm_size b - bm_free b)).

Definition frame_alloc_set_oom_simulation (enabled : bool) : M frame_alloc unit :=
  modify (put_oom enabled).

End FrameAlloc.

(** ** The abstract allocator *)

Definition free_frames (s : frame_alloc) : gset Z := free_bits (FRAME_BITMAP s).

(** The allocator between two calls: a well-formed bitmap of at most the
    frames of a 32-bit address space, and the lock free. *)
Record fa_ok (s : frame_alloc) : Prop := {
  ok_bitmap : bitmap_wf (FRAME_BITMAP s);
  ok_size : bm_size (FRAME_BITMAP s) < 2 ^ 20;
  ok_lock : unlocked (FRAME_ALLOC_LOCK s) }.

(** [s'] is [s] with the free frames [X] and the errors [es] logged; the lock
    is free again and the interrupt flag is the one of the start. *)
Record fa_step (s : frame_alloc) (X : gset Z) (es : list err_call) (s' : frame_alloc) : Prop := {
  fs_bitmap : becomes (FRAME_BITMAP s) X (FRAME_BITMAP s');
  fs_lock : unlocked (FRAME_ALLOC_LOCK s');
  fs_if : fa_if s' = fa_if s;
  fs_oom : OOM_SIMULATION s' = OOM_SIMULATION s;
  fs_boot : fa_boot s' = fa_boot s;
  fs_errors : fa_errors s' = fa_errors s ++ es }.

Lemma fa_step_ok s X es s' : fa_ok s -> fa_step s X es s' -> fa_ok s'.
Proof.
  intros Hok Hs. split; [apply Hs| |apply Hs].
  rewrite (bec_size _ _ _ (fs_bitmap _ _ _ _ Hs)). apply Hok.
Qed.

Lemma fa_step_free s X es s' : fa_step s X es s' -> free_frames s' = X.
Proof. intros Hs. apply (fs_bitmap _ _ _ _ Hs). Qed.

Inductive alloc_outcome :=
| Got (i : Z)
| Exhausted
| Faults.

(** What an allocation does on [n] frames of which [X] are free.  The search
    of a request that is not for low memory starts at [LOW_MEM_MAX_IDX]; low
    memory is looked at only if there are no frames above at all. *)
Definition alloc_spec (low_mem : bool) (n : Z) (X : gset Z) : alloc_outcome :=
  if low_mem then
    match first_from X 0 n with
    | Some i => if i <=? LOW_MEM_MAX_IDX then Got i else Exhausted
    | None => Exhausted
    end
  else if n <=? LOW_MEM_MAX_IDX then
    match first_from X 0 n with Some i => Got i | None => Exhausted end
  else if decide (X = ∅) then Exhausted
  else match first_from X LOW_MEM_MAX_IDX n with Some i => Got i | None => Faults end.

(** ** Lemmas *)

Section Lemmas.
Context (c : Z) (s : frame_alloc).

Lemma wp_on_bitmap {A} (m : M bitmap A) (Q : A -> frame_alloc -> Prop) :
  wp m (fun a b => Q a (put_bitmap b s)) (FRAME_BITMAP s) -> wp (on_bitmap m) Q s.
Proof. apply wp_zoom. Qed.

Lemma on_bitmap_halt {A} (m : M bitmap A) h :
  m (FRAME_BITMAP s) = Halt h -> on_bitmap m s = Halt h.
Proof. unfold on_bitmap, zoom. by intros ->. Qed.

Lemma lock_run :
  unlocked (FRAME_ALLOC_LOCK s) ->
  get_bitmap_and_lock c s = Ok (tt, put_lock (mk_spinlock 1 (fa_if s) c, false) s).
Proof. intros H. unfold get_bitmap_and_lock, on_lock, zoom. by rewrite spinlock_lock_run. Qed.

Lemma unlock_run irq :
  FRAME_ALLOC_LOCK s = mk_spinlock 1 irq c ->
  on_lock (spinlock_unlock c) s = Ok (tt, put_lock (mk_spinlock 0 irq NO_OWNER, irq) s).
Proof. intros H. unfold on_lock, zoom. by rewrite H, spinlock_unlock_run. Qed.

Lemma set_error_run msg code :
  SET_ERROR c msg code s =
  Ok (tt, put_errors (fa_errors s ++
        [mk_err msg code ((lock (FRAME_ALLOC_LOCK s) =? 1) && (owner (FRAME_ALLOC_LOCK s) =? c))]) s).
Proof. by destruct s. Qed.

Lemma wp_of_run {S A} (m : M S A) (Q : A -> S -> Prop) s0 a s1 :
  m s0 = Ok (a, s1) -> Q a s1 -> wp m Q s0.
Proof. unfold wp. by intros ->. Qed.

End Lemmas.

(** The frames free from index 0 on are all the free frames. *)
Lemma first_from_empty b : first_from (free_bits b) 0 (bm_size b) = None <-> free_bits b = ∅.
Proof.
  split.
  - intros H. apply set_eq. intros i. split; [|set_solver]. intros Hi.
    pose proof Hi as [Hr _]%elem_of_free_bits. exfalso. by eapply first_from_None.
  - intros ->. unfold first_from. rewrite head_None.
    induction (range 0 (bm_size b)) as [|x l IH]; [done|]. rewrite filter_cons.
    case_decide; [set_solver|done].
Qed.

Lemma frame_index_div p : 0 <= p < 2 ^ 32 -> frame_index p = p / 4096.
Proof.
  intros Hp. unfold frame_index. rewrite get_page_addr_div, Z.shiftr_div_pow2 by lia.
  change (2 ^ 12) with 4096. by rewrite Z.div_mul by lia.
Qed.

(** The part of [do_allocation] between taking and releasing the lock that
    chooses the frame. *)
Definition choose_frame (low_mem : bool) : M frame_alloc Z :=
  do idx0 <- on_bitmap (bitmap_set_next_bit (if low_mem then 0 else LOW_MEM_MAX_IDX));
  if idx0 =? BM_NPOS then
    if negb low_mem then on_bitmap (bitmap_set_next_bit 0) else ret idx0
  else if low_mem && (LOW_MEM_MAX_IDX <? idx0) then
    on_bitmap (bitmap_unset idx0);;; ret BM_NPOS
  else ret idx0.

(** A search from index 0 never faults. *)
Lemma next_from_zero b :
  bitmap_wf b ->
  match first_from (free_bits b) 0 (bm_size b) with
  | Some i => wp (bitmap_set_next_bit 0) (fun r b' => r = i /\ becomes b (free_bits b ∖ {[i]}) b') b
  | None => wp (bitmap_set_next_bit 0) (fun r b' => r = BM_NPOS /\ becomes b (free_bits b) b') b
  end.
Proof.
  intros Hwf. pose proof (bitmap_next_refine b 0 Hwf ltac:(lia)) as H. simpl in H.
  destruct (first_from (free_bits b) 0 (bm_size b)) as [i|] eqn:Hf.
  - pose proof (first_from_Some _ _ _ _ Hf) as (Hi & Hr & _).
    destruct (Z.leb_spec (bm_size b) 0); [lia|]. rewrite bool_decide_false in H by set_solver. done.
  - apply first_from_empty in Hf. rewrite bool_decide_true, orb_true_r in H by done. done.
Qed.

Lemma first_from_bound b i start :
  bm_size b < 2 ^ 20 -> 0 <= start -> first_from (free_bits b) start (bm_size b) = Some i ->
  start <= i < 2 ^ 20 /\ i < bm_size b /\ i ∈ free_bits b.
Proof. intros Hs H0 (Hi & Hr & _)%first_from_Some. split_and!; [lia|lia|lia|done]. Qed.

(** Freeing the bit just taken gives the set of the start back. *)
Lemma becomes_undo b b' i X :
  i ∈ free_bits b -> becomes b (free_bits b ∖ {[i]}) b' ->
  becomes b' (free_bits b' ∪ {[i]}) X -> becomes b (free_bits b) X.
Proof.
  intros Hi Hb Hb'. split; [apply Hb'| |].
  - rewrite (bec_size _ _ _ Hb'). apply Hb.
  - rewrite (bec_free _ _ _ Hb'), (bec_free _ _ _ Hb). apply set_eq. intros j.
    destruct (decide (j = i)); set_solver.
Qed.

Definition chosen (s : frame_alloc) (r : Z) (X : gset Z) : Z -> frame_alloc -> Prop :=
  fun r' s' => r' = r /\ exists b', s' = put_bitmap b' s /\ becomes (FRAME_BITMAP s) X b'.

Lemma wp_chosen s (m : M bitmap Z) r X :
  wp m (fun r' b' => r' = r /\ becomes (FRAME_BITMAP s) X b') (FRAME_BITMAP s) ->
  wp (on_bitmap m) (chosen s r X) s.
Proof.
  intros H. apply wp_on_bitmap. eapply wp_mono; [exact H|]. intros r' b' [-> Hb]. split; [done|].
  by exists b'.
Qed.

Lemma choose_low s :
  bitmap_wf (FRAME_BITMAP s) -> bm_size (FRAME_BITMAP s) < 2 ^ 20 ->
  match alloc_spec true (bm_size (FRAME_BITMAP s)) (free_frames s) with
  | Got i => wp (choose_frame true) (chosen s i (free_frames s ∖ {[i]})) s
  | Exhausted => wp (choose_frame true) (chosen s BM_NPOS (free_frames s)) s
  | Faults => False
  end.
Proof.
  intros Hwf Hs. unfold alloc_spec, free_frames, choose_frame.
  pose proof (next_from_zero _ Hwf) as Hz.
  destruct (first_from (free_bits (FRAME_BITMAP s)) 0 (bm_size (FRAME_BITMAP s))) as [i|] eqn:Hf.
  - apply first_from_bound in Hf as (Hi & Hlt & Hin); [|done|lia].
    assert (Hnp : (i =? BM_NPOS) = false) by (unfold BM_NPOS; lia).
    destruct (Z.leb_spec i LOW_MEM_MAX_IDX) as [Hle|Hgt]; apply wp_bind;
      (eapply wp_mono; [by apply wp_chosen|]); intros r s' (-> & b' & -> & Hb); rewrite Hnp; simpl.
    + destruct (Z.ltb_spec LOW_MEM_MAX_IDX i); [lia|]. apply wp_ret. split; [done|]. by exists b'.
    + destruct (Z.ltb_spec LOW_MEM_MAX_IDX i); [|lia]. apply wp_bind, wp_on_bitmap.
      eapply wp_mono; [apply bitmap_unset_wp; [apply Hb|simpl; rewrite (bec_size _ _ _ Hb); lia]|].
      intros [] b2 Hb2. apply wp_ret. split; [done|]. exists b2. split; [done|].
      by eapply becomes_undo.
  - apply wp_bind. eapply wp_mono; [by apply wp_chosen|]. intros r s' (-> & Hb).
    rewrite Z.eqb_refl. by apply wp_ret.
Qed.

(** The second search of a request that found nothing above low memory. *)
Lemma choose_retry s b1 :
  becomes (FRAME_BITMAP s) (free_bits (FRAME_BITMAP s)) b1 ->
  match first_from (free_bits (FRAME_BITMAP s)) 0 (bm_size (FRAME_BITMAP s)) with
  | Some i => wp (on_bitmap (bitmap_set_next_bit 0))
                (chosen s i (free_bits (FRAME_BITMAP s) ∖ {[i]})) (put_bitmap b1 s)
  | None => wp (on_bitmap (bitmap_set_next_bit 0))
              (chosen s BM_NPOS (free_bits (FRAME_BITMAP s))) (put_bitmap b1 s)
  end.
Proof.
  intros Hb1. pose proof (next_from_zero _ (bec_wf _ _ _ Hb1)) as Hz.
  rewrite (bec_free _ _ _ Hb1), (bec_size _ _ _ Hb1) in Hz.
  destruct (first_from (free_bits (FRAME_BITMAP s)) 0 (bm_size (FRAME_BITMAP s)));
    apply wp_on_bitmap; (eapply wp_mono; [exact Hz|]);
    intros r b' [-> Hb']; (split; [done|]); exists b'; (split; [done|]);
    (split; [apply Hb'|rewrite (bec_size _ _ _ Hb'); apply Hb1|apply Hb']).
Qed.

Lemma choose_any s :
  bitmap_wf (FRAME_BITMAP s) -> bm_size (FRAME_BITMAP s) < 2 ^ 20 ->
  match alloc_spec false (bm_size (FRAME_BITMAP s)) (free_frames s) with
  | Got i => wp (choose_frame false) (chosen s i (free_frames s ∖ {[i]})) s
  | Exhausted => wp (choose_frame false) (chosen s BM_NPOS (free_frames s)) s
  | Faults => exists msg, choose_frame false s = Halt (Trap msg)
  end.
Proof.
  intros Hwf Hs. unfold alloc_spec, free_frames, choose_frame. simpl negb. cbv iota.
  pose proof (bitmap_next_refine _ LOW_MEM_MAX_IDX Hwf ltac:(done)) as Hn. simpl spec_bm_op in Hn.
  pose proof (choose_retry s) as Hretry.
  destruct (Z.leb_spec (bm_size (FRAME_BITMAP s)) LOW_MEM_MAX_IDX) as [Hle|Hgt]; simpl in Hn.
  - destruct (first_from _ 0 _) as [i|]; apply wp_bind;
      (eapply wp_mono; [by apply wp_chosen|]); intros r s' (-> & b' & -> & Hb); by apply Hretry.
  - case_decide as He.
    + rewrite bool_decide_true in Hn by done. pose proof (proj2 (first_from_empty _) He) as Hz.
      rewrite Hz in Hretry. apply wp_bind. eapply wp_mono; [by apply wp_chosen|].
      intros r s' (-> & b' & -> & Hb). by apply Hretry.
    + rewrite bool_decide_false in Hn by done.
      destruct (first_from _ LOW_MEM_MAX_IDX _) as [i|] eqn:Hf; simpl in Hn.
      * apply first_from_bound in Hf as (Hi & _); [|done|done].
        apply wp_bind. eapply wp_mono; [by apply wp_chosen|]. intros r s' (-> & Hb).
        rewrite (proj2 (Z.eqb_neq i BM_NPOS)) by (unfold BM_NPOS; lia). by apply wp_ret.
      * destruct Hn as [msg Hn]. exists msg. apply bind_halt. by apply on_bitmap_halt.
Qed.

Definition finish (c : Z) (frame_idx : Z) : M frame_alloc Z :=
  do frame_addr <-
    (if frame_idx =? BM_NPOS then
       SET_ERROR c "No physical frame left for allocation" ENOMEM;;; ret NO_FRAME
     else ret (u32 (frame_idx * 0x1000)));
  on_lock (spinlock_unlock c);;;
  ret frame_addr.

Lemma do_allocation_split c low_mem s :
  unlocked (FRAME_ALLOC_LOCK s) -> OOM_SIMULATION s = false ->
  do_allocation c low_mem s =
  bind (choose_frame low_mem) (finish c) (put_lock (mk_spinlock 1 (fa_if s) c, false) s).
Proof.
  intros Hl Ho. unfold do_allocation. rewrite (bind_ok _ _ _ _ _ (lock_run c s Hl)).
  rewrite (bind_ok _ _ _ false (put_lock (mk_spinlock 1 (fa_if s) c, false) s)) by (by rewrite <- Ho).
  unfold choose_frame. by rewrite bind_assoc.
Qed.

(** The end of an allocation that runs with the lock held. *)
Lemma finish_spec c s r X b' :
  0 <= r < 2 ^ 20 \/ r = BM_NPOS ->
  becomes (FRAME_BITMAP s) X b' ->
  wp (finish c r) (fun a s' =>
      a = (if r =? BM_NPOS then NO_FRAME else r * 4096) /\
      fa_step s X (if r =? BM_NPOS
                   then [mk_err "No physical frame left for allocation" ENOMEM true] else []) s')
    (put_bitmap b' (put_lock (mk_spinlock 1 (fa_if s) c, false) s)).
Proof.
  intros Hr Hb. unfold finish. destruct (Z.eqb_spec r BM_NPOS) as [->|Hne].
  - apply wp_bind, wp_bind. eapply wp_of_run; [apply set_error_run|]. apply wp_ret, wp_bind.
    eapply wp_of_run; [by apply (unlock_run _ _ (fa_if s))|]. apply wp_ret. split; [done|].
    simpl. rewrite Z.eqb_refl. split; simpl; done.
  - apply wp_bind, wp_ret, wp_bind.
    eapply wp_of_run; [by apply (unlock_run _ _ (fa_if s))|]. apply wp_ret.
    split; [apply u32_id; lia|]. split; simpl; [done..|]. by rewrite app_nil_r.
Qed.

Lemma alloc_spec_bound low_mem b i :
  bm_size b < 2 ^ 20 -> alloc_spec low_mem (bm_size b) (free_bits b) = Got i ->
  0 <= i < 2 ^ 20 /\ i < bm_size b /\ i ∈ free_bits b.
Proof.
  intros Hs H. assert (exists start, 0 <= start /\ first_from (free_bits b) start (bm_size b) = Some i)
    as (start & H0 & Hf).
  { unfold alloc_spec in H. repeat case_match; simplify_eq; eexists; by (split; [|eassumption]). }
  apply first_from_bound in Hf as (? & ? & ?); [|done|done]. split_and!; [lia..|done].
Qed.

Lemma choose_spec low_mem s :
  bitmap_wf (FRAME_BITMAP s) -> bm_size (FRAME_BITMAP s) < 2 ^ 20 ->
  match alloc_spec low_mem (bm_size (FRAME_BITMAP s)) (free_frames s) with
  | Got i => wp (choose_frame low_mem) (chosen s i (free_frames s ∖ {[i]})) s
  | Exhausted => wp (choose_frame low_mem) (chosen s BM_NPOS (free_frames s)) s
  | Faults => exists msg, choose_frame low_mem s = Halt (Trap msg)
  end.
Proof.
  intros Hwf Hs. destruct low_mem; [|by apply choose_any].
  pose proof (choose_low s Hwf Hs). by destruct (alloc_spec true _ _).
Qed.

Lemma do_allocation_spec c low_mem s :
  fa_ok s -> OOM_SIMULATION s = false ->
  match alloc_spec low_mem (bm_size (FRAME_BITMAP s)) (free_frames s) with
  | Got i => wp (do_allocation c low_mem)
               (fun r s' => r = i * 4096 /\ fa_step s (free_frames s ∖ {[i]}) [] s') s
  | Exhausted => wp (do_allocation c low_mem)
      (fun r s' => r = NO_FRAME /\ fa_step s (free_frames s)
         [mk_err "No physical frame left for allocation" ENOMEM true] s') s
  | Faults => exists msg, do_allocation c low_mem s = Halt (Trap msg)
  end.
Proof.
  intros Hok Ho. unfold wp. rewrite do_allocation_split by (apply Hok || done).
  set (s1 := put_lock (mk_spinlock 1 (fa_if s) c, false) s).
  pose proof (choose_spec low_mem s1 (ok_bitmap _ Hok) (ok_size _ Hok)) as Hc.
  change (free_frames s1) with (free_frames s) in Hc.
  change (FRAME_BITMAP s1) with (FRAME_BITMAP s) in Hc.
  destruct (alloc_spec low_mem _ _) as [i| |] eqn:E.
  - apply alloc_spec_bound in E as (Hi & _); [|apply Hok].
    apply wp_bind. eapply wp_mono; [exact Hc|]. intros r s' (-> & b' & -> & Hb).
    pose proof (finish_spec c s i _ b' (or_introl Hi) Hb) as Hf.
    by rewrite (proj2 (Z.eqb_neq i BM_NPOS)) in Hf by (unfold BM_NPOS; lia).
  - apply wp_bind. eapply wp_mono; [exact Hc|]. intros r s' (-> & b' & -> & Hb).
    by apply (finish_spec c s BM_NPOS _ b' (or_intror eq_refl) Hb).
  - destruct Hc as [msg Hc]. exists msg. by apply bind_halt.
Qed.

Lemma do_allocation_oom c low_mem s :
  fa_ok s -> OOM_SIMULATION s = true ->
  wp (do_allocation c low_mem) (fun r s' => r = NO_FRAME /\
    fa_step s (free_frames s) [mk_err "OOM Simulation active" ENOMEM false] s') s.
Proof.
  intros Hok Ho. unfold do_allocation. apply wp_bind.
  eapply wp_of_run; [apply lock_run, Hok|]. apply wp_bind, wp_gets. simpl. rewrite Ho.
  apply wp_bind. eapply wp_of_run; [by apply (unlock_run _ _ (fa_if s))|].
  apply wp_bind. eapply wp_of_run; [apply set_error_run|]. apply wp_ret. split; [done|].
  split; simpl; [by apply becomes_refl, Hok|done..].
Qed.

Lemma free_frame_wp c p s :
  fa_ok s -> 0 <= p -> p mod 4096 = 0 -> p / 4096 < bm_size (FRAME_BITMAP s) ->
  p / 4096 ∉ free_frames s ->
  wp (free_frame c p) (fun _ s' => fa_step s (free_frames s ∪ {[p / 4096]}) [] s') s.
Proof.
  intros Hok H0 Hal Hlt Hused. pose proof (ok_size _ Hok).
  assert (p < 2 ^ 32) by (Z.to_euclidean_division_equations; lia).
  assert (Hne : p <> NO_FRAME) by (intros ->; done).
  unfold free_frame. apply wp_bind, wp_assert; [by rewrite (proj2 (Z.eqb_neq p NO_FRAME))|].
  apply wp_bind. eapply wp_of_run; [apply lock_run, Hok|].
  apply wp_bind, wp_assert; [rewrite is_4kib_aligned_mod; lia|]. rewrite frame_index_div by lia.
  assert (0 <= p / 4096) by (Z.to_euclidean_division_equations; lia).
  apply wp_bind, wp_on_bitmap. eapply wp_mono; [apply bitmap_get_bit_wp; [apply Hok|simpl; lia]|].
  intros r b [-> ->]. rewrite bool_decide_true by done. apply wp_bind, wp_ret, wp_bind, wp_on_bitmap.
  eapply wp_mono; [apply bitmap_unset_wp; [apply Hok|simpl; lia]|]. intros [] b Hb.
  eapply wp_of_run; [by apply (unlock_run _ _ (fa_if s))|].
  split; simpl; [done..|]. by rewrite app_nil_r.
Qed.

(** ** Clients of the allocator *)

(** A client that keeps the set of the frames it was given and has not
    returned: it allocates, it frees frames of the set, and the out-of-memory
    simulation is switched on and off. *)
Inductive client (c : Z) : frame_alloc * gset Z -> frame_alloc * gset Z -> Prop :=
| client_alloc low_mem r s s' L :
    do_allocation c low_mem s = Ok (r, s') -> r <> NO_FRAME -> client c (s, L) (s', L ∪ {[r]})
| client_no_frame low_mem s s' L :
    do_allocation c low_mem s = Ok (NO_FRAME, s') -> client c (s, L) (s', L)
| client_free p s s' L :
    p ∈ L -> free_frame c p s = Ok (tt, s') -> client c (s, L) (s', L ∖ {[p]})
| client_oom b s s' L :
    frame_alloc_set_oom_simulation b s = Ok (tt, s') -> client c (s, L) (s', L).

(** The frames of the client are allocated, one address per frame. *)
Record client_inv (p : frame_alloc * gset Z) : Prop := {
  ci_ok : fa_ok p.1;
  ci_live : forall a, a ∈ p.2 -> 0 <= a /\ a mod 4096 = 0 /\
    a / 4096 < bm_size (FRAME_BITMAP p.1) /\ a / 4096 ∉ free_frames p.1 }.

(** The result of an allocation, whatever the outcome. *)
Lemma do_allocation_result c low_mem s r s' :
  fa_ok s -> do_allocation c low_mem s = Ok (r, s') ->
  (r = NO_FRAME /\ exists es, fa_step s (free_frames s) es s') \/
  (exists i, r = i * 4096 /\ i ∈ free_frames s /\ 0 <= i < bm_size (FRAME_BITMAP s) /\
             fa_step s (free_frames s ∖ {[i]}) [] s').
Proof.
  intros Hok Hr. destruct (OOM_SIMULATION s) eqn:Ho.
  - pose proof (do_allocation_oom c low_mem s Hok Ho) as H. unfold wp in H. rewrite Hr in H.
    left. naive_solver.
  - pose proof (do_allocation_spec c low_mem s Hok Ho) as H. unfold wp in H. rewrite Hr in H.
    destruct (alloc_spec low_mem _ _) as [i| |] eqn:E.
    + apply alloc_spec_bound in E as (? & ? & ?); [|apply Hok]. right. exists i.
      destruct H as [-> H]. split_and!; [done|done|lia|lia|done].
    + left. naive_solver.
    + by destruct H.
Qed.

Lemma client_inv_step c p p' : client_inv p -> client c p p' -> client_inv p'.
Proof.
  intros [Hok Hlive] Hs. destruct Hs as [low r s s' L Hr Hne|low s s' L Hr|a s s' L Ha Hr|b s s' L Hr];
    simpl in *.
  - destruct (do_allocation_result _ _ _ _ _ Hok Hr) as [[-> _]|(i & -> & Hi & Hb & Hst)]; [done|].
    split; simpl; [by eapply fa_step_ok|]. rewrite (fa_step_free _ _ _ _ Hst).
    rewrite (bec_size _ _ _ (fs_bitmap _ _ _ _ Hst)).
    intros a [Ha|Ha%elem_of_singleton]%elem_of_union; [|subst a].
    + destruct (Hlive a Ha) as (? & ? & ? & ?). split_and!; [done..|set_solver].
    + rewrite Z.div_mul, Z.mod_mul by lia. split_and!; [lia|done|lia|set_solver].
  - destruct (do_allocation_result _ _ _ _ _ Hok Hr) as [[_ [es Hst]]|(i & Hi & _ & Hb & _)].
    + split; simpl; [by eapply fa_step_ok|]. rewrite (fa_step_free _ _ _ _ Hst).
      by rewrite (bec_size _ _ _ (fs_bitmap _ _ _ _ Hst)).
    + pose proof (ok_size _ Hok). unfold NO_FRAME in Hi. lia.
  - destruct (Hlive a Ha) as (H0 & Hal & Hlt & Hused).
    pose proof (free_frame_wp c a s Hok H0 Hal Hlt Hused) as Hw. unfold wp in Hw. rewrite Hr in Hw.
    split; simpl; [by eapply fa_step_ok|]. rewrite (fa_step_free _ _ _ _ Hw).
    rewrite (bec_size _ _ _ (fs_bitmap _ _ _ _ Hw)).
    intros a' [Ha' Hne]%elem_of_difference. destruct (Hlive a' Ha') as (H0' & Hal' & ? & ?).
    split_and!; [done..|]. apply not_elem_of_union. split; [done|].
    rewrite elem_of_singleton in Hne |- *. intros E. apply Hne.
    pose proof (Z.div_mod a 4096). pose proof (Z.div_mod a' 4096). lia.
  - injection Hr as <-. split; [|done]. by split; apply Hok.
Qed.

Lemma client_size c p p' :
  client_inv p -> client c p p' -> bm_size (FRAME_BITMAP p'.1) = bm_size (FRAME_BITMAP p.1).
Proof.
  intros [Hok Hlive] Hs. destruct Hs as [low r s s' L Hr Hne|low s s' L Hr|a s s' L Ha Hr|b s s' L Hr];
    simpl in *.
  - destruct (do_allocation_result _ _ _ _ _ Hok Hr) as [[-> _]|(i & _ & _ & _ & Hst)]; [done|].
    apply (fs_bitmap _ _ _ _ Hst).
  - destruct (do_allocation_result _ _ _ _ _ Hok Hr) as [[_ [es Hst]]|(i & _ & _ & _ & Hst)];
      apply (fs_bitmap _ _ _ _ Hst).
  - destruct (Hlive a Ha) as (H0 & Hal & Hlt & Hused).
    pose proof (free_frame_wp c a s Hok H0 Hal Hlt Hused) as Hw. unfold wp in Hw. rewrite Hr in Hw.
    apply (fs_bitmap _ _ _ _ Hw).
  - by injection Hr as <-.
Qed.

Lemma client_reach c p p' :
  client_inv p -> rtc (client c) p p' ->
  client_inv p' /\ bm_size (FRAME_BITMAP p'.1) = bm_size (FRAME_BITMAP p.1).
Proof.
  intros Hi Hr. induction Hr as [|p p1 p2 Hs Hr IH]; [done|].
  destruct (IH (client_inv_step _ _ _ Hi Hs)) as [? E]. split; [done|].
  rewrite E. by eapply client_size.
Qed.

(** ** Marking ranges, and the initialisation *)

(** The numbers of the frames that hold the bytes from [start] to [end_]. *)
Definition frames_of (start end_ : Z) : gset Z :=
  list_to_set (range (frame_index start) (frame_index end_ + 1)).

Definition bitmap_is (s : frame_alloc) (X : gset Z) (s' : frame_alloc) : Prop :=
  exists b', s' = put_bitmap b' s /\ becomes (FRAME_BITMAP s) X b'.

Lemma put_bitmap_twice b b' s : put_bitmap b' (put_bitmap b s) = put_bitmap b' s.
Proof. done. Qed.

Lemma bitmap_is_trans s X s1 Y s2 : bitmap_is s X s1 -> bitmap_is s1 Y s2 -> bitmap_is s Y s2.
Proof.
  intros (b1 & -> & H1) (b2 & -> & H2). exists b2. split; [done|].
  split; [apply H2|rewrite (bec_size _ _ _ H2); apply H1|apply H2].
Qed.

Lemma bitmap_is_wf s X s' : bitmap_is s X s' ->
  bitmap_wf (FRAME_BITMAP s') /\ bm_size (FRAME_BITMAP s') = bm_size (FRAME_BITMAP s) /\
  free_frames s' = X /\ fa_boot s' = fa_boot s /\ FRAME_ALLOC_LOCK s' = FRAME_ALLOC_LOCK s.
Proof. intros (b & -> & Hb). split_and!; [apply Hb|apply Hb|apply Hb|done|done]. Qed.

Lemma mark_frames_wp l : forall s,
  bitmap_wf (FRAME_BITMAP s) -> NoDup l -> list_to_set l ⊆ free_frames s ->
  wp (for_each l (fun i =>
        do b <- on_bitmap (bitmap_get_bit i);
        ASSERT (negb b) "!bitmap_get_bit(&FRAME_BITMAP, i)";;;
        on_bitmap (bitmap_set i)))
    (fun _ s' => bitmap_is s (free_frames s ∖ list_to_set l) s') s.
Proof.
  induction l as [|i l IH]; intros s Hwf Hnd Hsub.
  { exists (FRAME_BITMAP s). split; [by destruct s|]. unfold free_frames. simpl.
    rewrite difference_empty_L. by apply becomes_refl. }
  apply NoDup_cons in Hnd as [Hni Hnd]. assert (Hi : i ∈ free_frames s) by set_solver.
  pose proof Hi as [Hr _]%elem_of_free_bits. simpl. apply wp_bind, wp_bind, wp_on_bitmap.
  eapply wp_mono; [by apply bitmap_get_bit_wp|]. intros r b [-> ->].
  rewrite bool_decide_false by (intros Hc; by apply Hc). apply wp_bind, wp_assert; [done|].
  apply wp_on_bitmap. eapply wp_mono; [by apply bitmap_set_wp|]. intros [] b Hb.
  assert (H1 : bitmap_is s (free_frames s ∖ {[i]}) (put_bitmap b s)) by (by exists b).
  destruct (bitmap_is_wf _ _ _ H1) as (Hwf1 & _ & Hf1 & _).
  rewrite put_bitmap_twice. eapply wp_mono; [apply IH; [done|done|]|].
  - rewrite Hf1. intros j Hj. apply elem_of_difference. split; [set_solver|].
    rewrite elem_of_singleton. intros ->. by apply elem_of_list_to_set in Hj.
  - intros [] s' H2. rewrite Hf1 in H2. eapply bitmap_is_trans; [done|]. simpl.
    by rewrite <- difference_difference_l_L.
Qed.

Lemma unmark_frames_wp l : forall s,
  bitmap_wf (FRAME_BITMAP s) -> NoDup l ->
  (forall i, i ∈ l -> 0 <= i < bm_size (FRAME_BITMAP s) /\ i ∉ free_frames s) ->
  wp (for_each l (fun i =>
        do b <- on_bitmap (bitmap_get_bit i);
        ASSERT b "bitmap_get_bit(&FRAME_BITMAP, i)";;;
        on_bitmap (bitmap_unset i)))
    (fun _ s' => bitmap_is s (free_frames s ∪ list_to_set l) s') s.
Proof.
  induction l as [|i l IH]; intros s Hwf Hnd Hsub.
  { exists (FRAME_BITMAP s). split; [by destruct s|]. unfold free_frames. simpl.
    rewrite union_empty_r_L. by apply becomes_refl. }
  apply NoDup_cons in Hnd as [Hni Hnd]. destruct (Hsub i) as [Hr Hi]; [by left|].
  simpl. apply wp_bind, wp_bind, wp_on_bitmap.
  eapply wp_mono; [by apply bitmap_get_bit_wp|]. intros r b [-> ->].
  rewrite bool_decide_true by done. apply wp_bind, wp_assert; [done|].
  apply wp_on_bitmap. eapply wp_mono; [by apply bitmap_unset_wp|]. intros [] b Hb.
  assert (H1 : bitmap_is s (free_frames s ∪ {[i]}) (put_bitmap b s)) by (by exists b).
  destruct (bitmap_is_wf _ _ _ H1) as (Hwf1 & Hs1 & Hf1 & _).
  rewrite put_bitmap_twice. eapply wp_mono; [apply IH; [done|done|]|].
  - intros j Hj. rewrite Hf1, Hs1. destruct (Hsub j) as [? ?]; [by right|]. split; [done|].
    rewrite elem_of_union, elem_of_singleton. intros [? | ->]; done.
  - intros [] s' H2. rewrite Hf1 in H2. eapply bitmap_is_trans; [done|]. simpl.
    by rewrite union_assoc_L.
Qed.

Lemma NoDup_range lo hi : NoDup (range lo hi).
Proof. apply NoDup_zrange. Qed.

Lemma mark_range_wp start end_ s :
  bitmap_wf (FRAME_BITMAP s) -> frames_of start end_ ⊆ free_frames s ->
  wp (mark_memory_range start end_)
    (fun _ s' => bitmap_is s (free_frames s ∖ frames_of start end_) s') s.
Proof. intros. apply mark_frames_wp; auto using NoDup_range. Qed.

Lemma unmark_range_wp start end_ s :
  bitmap_wf (FRAME_BITMAP s) ->
  frames_of start end_ ⊆ bits_below (bm_size (FRAME_BITMAP s)) ∖ free_frames s ->
  wp (unmark_memory_range start end_)
    (fun _ s' => bitmap_is s (free_frames s ∪ frames_of start end_) s') s.
Proof.
  intros Hwf Hsub. apply unmark_frames_wp; [done|apply NoDup_range|]. intros i Hi.
  assert (Hj : i ∈ frames_of start end_) by (by apply elem_of_list_to_set).
  apply Hsub, elem_of_difference in Hj as [Hb Hn]. split; [|done].
  unfold bits_below in Hb. by rewrite elem_of_list_to_set, elem_of_range in Hb.
Qed.

Lemma on_boot_run {A} (m : M multiboot A) a s :
  m (fa_boot s) = Ok (a, fa_boot s) -> on_boot m s = Ok (a, s).
Proof. intros H. unfold on_boot, zoom. rewrite H. by destruct s. Qed.

(** The frames [unmark_avail_frames] frees for an entry of the memory map. *)
Definition entry_frames (e : multiboot_mmap_entry) : gset Z :=
  if mmap_entry_is_available e && mmap_entry_within_4GiB e
  then frames_of (u32 (base_addr e)) (u32 (base_addr e + len e - 1)) else ∅.

Definition avail_frames (es : list multiboot_mmap_entry) : gset Z := ⋃ (entry_frames <$> es).

(** The entries use frames below [n], no frame twice and none of [X]. *)
Fixpoint entries_fit (n : Z) (X : gset Z) (es : list multiboot_mmap_entry) : Prop :=
  match es with
  | [] => True
  | e :: es' => (type_ e = 1 -> entry_wf e /\ 0 < len e) /\
      entry_frames e ⊆ bits_below n ∖ X /\ entries_fit n (X ∪ entry_frames e) es'
  end.

Definition unmark_entry (i : Z) : M frame_alloc unit :=
  do entry <- on_boot (read_entry i);
  when (mmap_entry_is_available entry && mmap_entry_within_4GiB entry)
    (do end_ <- on_boot (get_max_addr_for_entry entry);
     unmark_memory_range (u32 (base_addr entry)) end_).

Lemma unmark_entry_wp s pre e post :
  mb_mmap (fa_boot s) = pre ++ e :: post -> bitmap_wf (FRAME_BITMAP s) ->
  (type_ e = 1 -> entry_wf e /\ 0 < len e) ->
  entry_frames e ⊆ bits_below (bm_size (FRAME_BITMAP s)) ∖ free_frames s ->
  wp (unmark_entry (Z.of_nat (length pre)))
    (fun _ s' => bitmap_is s (free_frames s ∪ entry_frames e) s') s.
Proof.
  intros Hm Hwf He Hsub. unfold unmark_entry. apply wp_bind.
  eapply wp_of_run; [by eapply on_boot_run, read_entry_run|].
  unfold entry_frames in *. destruct (_ && _) eqn:Ha; simpl.
  - apply andb_prop in Ha as [Ha%Z.eqb_eq _]. destruct (He Ha) as [Hewf Hl].
    apply wp_bind. eapply wp_of_run.
    { apply on_boot_run. unfold get_max_addr_for_entry.
      by rewrite (bind_ok _ _ _ _ _ (max_offset_run e _ Ha Hewf Hl)). }
    by apply unmark_range_wp.
  - exists (FRAME_BITMAP s). split; [by destruct s|]. rewrite union_empty_r_L. by apply becomes_refl.
Qed.

Lemma unmark_entries_wp post : forall pre s,
  mb_mmap (fa_boot s) = pre ++ post -> bitmap_wf (FRAME_BITMAP s) ->
  entries_fit (bm_size (FRAME_BITMAP s)) (free_frames s) post ->
  wp (for_each (range (Z.of_nat (length pre)) (Z.of_nat (length (pre ++ post)))) unmark_entry)
    (fun _ s' => bitmap_is s (free_frames s ∪ avail_frames post) s') s.
Proof.
  induction post as [|e post IH]; intros pre s Hm Hwf Hfit.
  { rewrite app_nil_r, range_nil by lia. exists (FRAME_BITMAP s). split; [by destruct s|].
    unfold avail_frames. simpl. rewrite union_empty_r_L. by apply becomes_refl. }
  destruct Hfit as (He & Hsub & Hfit). rewrite range_entries. simpl. apply wp_bind.
  eapply wp_mono; [by eapply unmark_entry_wp|]. intros [] s1 H1.
  destruct (bitmap_is_wf _ _ _ H1) as (Hwf1 & Hs1 & Hf1 & Hb1 & _).
  eapply wp_mono; [apply IH; [by rewrite Hb1, Hm, <- app_assoc|done|by rewrite Hs1, Hf1]|].
  intros [] s2 H2. rewrite Hf1 in H2. eapply bitmap_is_trans; [done|].
  unfold avail_frames in *. simpl. by rewrite union_assoc_L.
Qed.

Lemma unmark_avail_wp s :
  boot_ok (fa_boot s) -> bitmap_wf (FRAME_BITMAP s) ->
  entries_fit (bm_size (FRAME_BITMAP s)) (free_frames s) (mb_mmap (fa_boot s)) ->
  wp unmark_avail_frames
    (fun _ s' => bitmap_is s (free_frames s ∪ avail_frames (mb_mmap (fa_boot s))) s') s.
Proof.
  intros Hb Hwf Hfit. unfold unmark_avail_frames. apply wp_bind.
  eapply wp_of_run; [by apply on_boot_run, entry_ptr_run|]. apply wp_bind.
  eapply wp_of_run; [by apply on_boot_run, entries_count_run|].
  by apply (unmark_entries_wp (mb_mmap (fa_boot s)) []).
Qed.

(** ** What the boot leaves free *)

(** The frames each step of the initialisation takes back. *)
Definition kernel_frames (m : multiboot) : gset Z := frames_of (to_phys (mb_start m)) (to_phys (mb_end m)).
Definition bitmap_frames (start n : Z) : gset Z := frames_of start (u32 (start + u32 (n * 0x1000) - 1)).
Definition info_frames (m : multiboot) : gset Z :=
  frames_of (to_phys (MULTIBOOT_INFO m)) (u32 (to_phys (MULTIBOOT_INFO m) + SIZEOF_MULTIBOOT_INFO - 1)).
Definition initrd_frames (m : multiboot) : gset Z :=
  if INIT_RD_SIZE m =? 0 then ∅
  else frames_of (INIT_RD_START m) (u32 (INIT_RD_START m + INIT_RD_SIZE m - 1)).

(** A machine the initialisation is meant for: the bitmap of [n] bits fits in
    [nf] frames found at [start]; the available entries fit the bitmap; the
    kernel, the bitmap, the multiboot structure and the initrd lie in
    available memory, in different frames. *)
Record bootable (m : multiboot) (ram : Z -> Z -> list Z) (n nf start : Z) : Prop := {
  bt_ok : boot_ok m;
  bt_mode : mb_paging m = false /\ mb_higher_half m = true;
  bt_max : exists a, get_max_addr m = Ok (a, m) /\ n = ceil_x_over_y_u32 a 0x1000;
  bt_n : 0 <= n < 2 ^ 20;
  bt_nf : nf = ceil_x_over_y_u32 n (8 * 0x1000);
  bt_start : find_contiguous_physical_frames nf m = Ok (start, m);
  bt_aligned : start mod 4096 = 0;
  bt_ram : length (ram start (nf * 1024)) = Z.to_nat (nf * 1024) /\
           Forall (fun w => 0 <= w < 2 ^ 32) (ram start (nf * 1024));
  bt_fit : entries_fit n ∅ (mb_mmap m);
  bt_kernel : kernel_frames m ⊆ avail_frames (mb_mmap m);
  bt_bitmap : bitmap_frames start nf ⊆ avail_frames (mb_mmap m) ∖ kernel_frames m;
  bt_info : info_frames m ⊆ avail_frames (mb_mmap m) ∖ kernel_frames m ∖ bitmap_frames start nf;
  bt_initrd : initrd_frames m ⊆
    avail_frames (mb_mmap m) ∖ kernel_frames m ∖ bitmap_frames start nf ∖ info_frames m;
  bt_below : to_virt start < mb_start m }.

Lemma init_bitmap_wp m ram n nf start b :
  bootable m ram n nf start ->
  wp (bitmap_init n (ram start (nf * 1024)) true)
    (fun _ b' => bitmap_wf b' /\ bm_size b' = n /\ free_bits b' = ∅) b.
Proof.
  intros H. destruct (bt_ram _ _ _ _ _ H) as [Hl Hw]. pose proof (bt_n _ _ _ _ _ H).
  pose proof (ceil_x_over_y_bound n (8 * 0x1000) ltac:(lia) ltac:(lia)) as Hc.
  rewrite <- (bt_nf _ _ _ _ _ H) in Hc. pose proof (word_count_bound n ltac:(lia)).
  apply bitmap_init_wp; [lia|rewrite Hl; lia|done|rewrite Hl; lia].
Qed.

Lemma mark_initrd_wp s m :
  fa_boot s = m -> bitmap_wf (FRAME_BITMAP s) -> initrd_frames m ⊆ free_frames s ->
  wp mark_initrd_frames (fun _ s' => bitmap_is s (free_frames s ∖ initrd_frames m) s') s.
Proof.
  intros <- Hwf Hsub. unfold mark_initrd_frames, initrd_frames in *.
  eapply wp_bind, wp_of_run; [by apply on_boot_run|]. destruct (_ =? 0).
  - exists (FRAME_BITMAP s). split; [by destruct s|]. rewrite difference_empty_L. by apply becomes_refl.
  - eapply wp_bind, wp_of_run; [by apply on_boot_run|]. by apply mark_range_wp.
Qed.

(** The marking steps in the order of [init_frame_alloc]. *)
Lemma init_marks_wp ram n nf start s :
  bootable (fa_boot s) ram n nf start ->
  bitmap_wf (FRAME_BITMAP s) -> bm_size (FRAME_BITMAP s) = n -> free_frames s = ∅ ->
  wp (unmark_avail_frames;;; mark_kernel_frames;;; mark_bitmap_frames start nf;;;
      mark_multiboot_info_struct;;; mark_initrd_frames;;;
      do kstart <- on_boot (gets mb_start);
      ASSERT (to_virt start <? kstart) "FRAME_BITMAP.data < KERNEL_START_ADDR")
    (fun _ s' => bitmap_is s (avail_frames (mb_mmap (fa_boot s)) ∖ kernel_frames (fa_boot s) ∖
       bitmap_frames start nf ∖ info_frames (fa_boot s) ∖ initrd_frames (fa_boot s)) s') s.
Proof.
  intros Hbt Hwf Hsz Hf. set (m := fa_boot s) in *.
  apply wp_bind. eapply wp_mono.
  { apply unmark_avail_wp; [apply Hbt|done|]. rewrite Hsz, Hf. apply Hbt. }
  intros [] s1 H1. fold m in H1. rewrite Hf, union_empty_l_L in H1.
  destruct (bitmap_is_wf _ _ _ H1) as (Hwf1 & _ & Hf1 & Hb1 & _). fold m in Hb1.
  apply wp_bind. unfold mark_kernel_frames.
  eapply wp_bind, wp_of_run; [by apply on_boot_run|]. eapply wp_bind, wp_of_run; [by apply on_boot_run|].
  rewrite Hb1. eapply wp_mono; [apply mark_range_wp; [done|rewrite Hf1; apply Hbt]|].
  intros [] s2 H2. rewrite Hf1 in H2. pose proof (bitmap_is_trans _ _ _ _ _ H1 H2) as H2'.
  destruct (bitmap_is_wf _ _ _ H2') as (Hwf2 & _ & Hf2 & Hb2 & _).
  apply wp_bind. eapply wp_mono; [apply mark_range_wp; [done|rewrite Hf2; apply Hbt]|].
  intros [] s3 H3. rewrite Hf2 in H3. pose proof (bitmap_is_trans _ _ _ _ _ H2' H3) as H3'.
  destruct (bitmap_is_wf _ _ _ H3') as (Hwf3 & _ & Hf3 & Hb3 & _). fold m in Hb3.
  apply wp_bind. unfold mark_multiboot_info_struct.
  eapply wp_bind, wp_of_run; [by apply on_boot_run|]. rewrite Hb3.
  eapply wp_mono; [apply mark_range_wp; [done|rewrite Hf3; apply Hbt]|].
  intros [] s4 H4. rewrite Hf3 in H4. pose proof (bitmap_is_trans _ _ _ _ _ H3' H4) as H4'.
  destruct (bitmap_is_wf _ _ _ H4') as (Hwf4 & _ & Hf4 & Hb4 & _). fold m in Hb4.
  apply wp_bind. eapply wp_mono.
  - eapply (mark_initrd_wp _ m); [done|done|]. rewrite Hf4. apply Hbt.
  - intros [] s5 H5. rewrite Hf4 in H5. pose proof (bitmap_is_trans _ _ _ _ _ H4' H5) as H5'.
    destruct (bitmap_is_wf _ _ _ H5') as (_ & _ & _ & Hb5 & _). fold m in Hb5.
    eapply wp_bind, wp_of_run; [by apply on_boot_run|]. rewrite Hb5.
    apply wp_assert; [pose proof (bt_below _ _ _ _ _ Hbt); lia|done].
Qed.

(** ** Properties *)


(** An allocator of 288 frames, free are frame 3 and frame 256. *)
Definition sample_fa : frame_alloc :=
  mk_fa (mk_bitmap 288 2 ([8] ++ replicate 7 0 ++ [1])) INIT_SPINLOCK 1 false true sample_boot [].

Lemma sample_free : free_frames sample_fa = {[3; 256]}.
Proof. by vm_compute. Qed.

Lemma sample_ok : fa_ok sample_fa.
Proof.
  split; [|by vm_compute|done]. split; [by vm_compute|by vm_compute| |].
  - apply (bool_decide_unpack _). by vm_compute.
  - change (free_bits (FRAME_BITMAP sample_fa)) with (free_frames sample_fa). by rewrite sample_free.
Qed.


(** C5: [free_frame] on every argument: it panics on [NO_FRAME], on an address
    that is not page aligned and on a frame that is already free, traps on a
    frame number outside the bitmap, and otherwise makes exactly that frame
    free again, releasing the lock and restoring the interrupt flag. *)
Theorem free_frame_refine (c p : Z) (s : frame_alloc) :
  fa_ok s -> 0 <= p < 2 ^ 32 ->
  if decide (p = NO_FRAME) then free_frame c p s = Halt (Panic "ptr != NO_FRAME")
  else if decide (p mod 4096 <> 0) then free_frame c p s = Halt (Panic "is_4kib_aligned(ptr)")
  else if decide (bm_size (FRAME_BITMAP s) <= p / 4096) then free_frame c p s = Halt (Trap "int3")
  else if decide (p / 4096 ∈ free_frames s) then free_frame c p s = Halt (Panic "Double free")
  else wp (free_frame c p) (fun _ s' => fa_step s (free_frames s ∪ {[p / 4096]}) [] s') s.
Proof.
  intros Hok Hp. assert (0 <= p / 4096) by (Z.to_euclidean_division_equations; lia).
  case_decide as Hn; [by subst|]. case_decide as Hal.
  - unfold free_frame. rewrite (bind_ok _ _ _ tt s) by (by rewrite (proj2 (Z.eqb_neq p NO_FRAME))).
    rewrite (bind_ok _ _ _ _ _ (lock_run c s (ok_lock _ Hok))).
    apply bind_halt. by rewrite is_4kib_aligned_mod, (proj2 (Z.eqb_neq _ 0)).
  - case_decide as Hs; [|case_decide as Hf; [|apply free_frame_wp; [done|lia|lia|lia|done]]];
      unfold free_frame; rewrite (bind_ok _ _ _ tt s) by (by rewrite (proj2 (Z.eqb_neq p NO_FRAME)));
      rewrite (bind_ok _ _ _ _ _ (lock_run c s (ok_lock _ Hok)));
      rewrite (bind_ok _ _ _ tt (put_lock (mk_spinlock 1 (fa_if s) c, false) s))
        by (rewrite is_4kib_aligned_mod; destruct (Z.eqb_spec (p mod 4096) 0); [done|lia]);
      rewrite frame_index_div by lia.
    + apply bind_halt, on_bitmap_halt, bind_halt. by apply out_of_bounds_trap.
    + pose proof (bitmap_get_bit_wp _ (ok_bitmap _ Hok) (p / 4096) ltac:(lia)) as Hg.
      apply wp_ok in Hg as (r & b & Hg & -> & ->).
      rewrite (bind_ok _ _ _ (bool_decide (p / 4096 ∉ free_frames s))
        (put_lock (mk_spinlock 1 (fa_if s) c, false) s)).
      * apply bind_halt. by rewrite bool_decide_false by (intros Hc; by apply Hc).
      * unfold on_bitmap, zoom. simpl. rewrite Hg. by destruct s.
Qed.

Lemma free_frame_refine_witness :
  free_frame 0 0x3000 sample_fa = Halt (Panic "Double free").
Proof.
  pose proof (free_frame_refine 0 0x3000 sample_fa sample_ok ltac:(lia)) as H.
  rewrite sample_free in H. exact H.
Defined.

(** C6: in every state a client of the allocator can reach, by allocating (in
    low memory or not), freeing frames it holds and switching the
    out-of-memory simulation, an allocation that returns a frame returns a
    page-aligned one that the client does not hold already, and freeing any
    frame the client holds succeeds. *)
Theorem live_frames_exclusive (c : Z) (s0 s : frame_alloc) (L : gset Z) :
  fa_ok s0 -> rtc (client c) (s0, ∅) (s, L) ->
  (forall low_mem r s', do_allocation c low_mem s = Ok (r, s') -> r <> NO_FRAME ->
     (r ∉ L) /\ r mod 4096 = 0 /\ r / 4096 < bm_size (FRAME_BITMAP s0)) /\
  (forall p, p ∈ L ->
     wp (free_frame c p) (fun _ s' => fa_step s (free_frames s ∪ {[p / 4096]}) [] s') s).
Proof.
  intros Hok Hr.
  assert (Hinv : client_inv (s, L) /\ bm_size (FRAME_BITMAP s) = bm_size (FRAME_BITMAP s0)).
  { apply (client_reach c (s0, ∅) (s, L)); [|done]. by split. }
  destruct Hinv as [[Hok' Hlive] Hsz]. simpl in *. split.
  - intros low_mem r s' Hd Hne.
    destruct (do_allocation_result _ _ _ _ _ Hok' Hd) as [[-> _]|(i & -> & Hi & Hb & _)]; [done|].
    rewrite Z.mod_mul, Z.div_mul by lia. split_and!; [|done|lia]. intros Hin.
    destruct (Hlive _ Hin) as (_ & _ & _ & Hn). by rewrite Z.div_mul in Hn by lia.
  - intros p Hp. destruct (Hlive p Hp) as (? & ? & ? & ?). by apply free_frame_wp.
Qed.

Lemma live_frames_exclusive_witness :
  exists s1, do_allocation 0 false sample_fa = Ok (0x100000, s1) /\
    wp (free_frame 0 0x100000) (fun _ s' => fa_step s1 (free_frames s1 ∪ {[256]}) [] s') s1.
Proof.
  eexists. split; [by vm_compute|].
  apply (live_frames_exclusive 0 sample_fa _ (∅ ∪ {[0x100000]}) sample_ok); [|set_solver].
  eapply rtc_l; [|apply rtc_refl]. by eapply (client_alloc 0 false); [by vm_compute|].
Defined.

(** C7: [init_frame_alloc] on a machine it is meant for returns, and the free
    frames are exactly the frames of the available memory of the memory map,
    without those of the kernel, of the bitmap itself, of the multiboot
    structure and of the initrd; the bitmap is well formed and the lock free. *)
Theorem init_frame_alloc_correct (s : frame_alloc) (ram : Z -> Z -> list Z) (n nf start : Z) :
  bootable (fa_boot s) ram n nf start -> unlocked (FRAME_ALLOC_LOCK s) ->
  wp (init_frame_alloc ram) (fun _ s' => fa_ok s' /\ bm_size (FRAME_BITMAP s') = n /\
    free_frames s' = avail_frames (mb_mmap (fa_boot s)) ∖ kernel_frames (fa_boot s) ∖
      bitmap_frames start nf ∖ info_frames (fa_boot s) ∖ initrd_frames (fa_boot s)) s.
Proof.
  intros Hbt Hl. destruct (bt_mode _ _ _ _ _ Hbt) as [Hp Hh].
  destruct (bt_max _ _ _ _ _ Hbt) as (a & Ha & Hn). unfold init_frame_alloc.
  eapply wp_bind, wp_of_run; [by apply on_boot_run|]. apply wp_bind, wp_assert; [by rewrite Hp|].
  eapply wp_bind, wp_of_run; [by apply on_boot_run|]. apply wp_bind, wp_assert; [done|].
  unfold compute_bitmap_size. eapply wp_bind, wp_bind, wp_of_run; [by apply on_boot_run|].
  apply wp_ret. rewrite <- Hn, <- (bt_nf _ _ _ _ _ Hbt). apply wp_bind, wp_modify.
  eapply wp_bind, wp_of_run; [by apply on_boot_run, (bt_start _ _ _ _ _ Hbt)|].
  apply wp_bind, wp_assert; [rewrite is_4kib_aligned_mod; apply Z.eqb_eq, Hbt|].
  apply wp_bind, wp_on_bitmap. eapply wp_mono; [by eapply init_bitmap_wp|].
  intros [] b (Hwf & Hsz & Hf). eapply wp_mono; [by eapply init_marks_wp|].
  intros [] s' Hb. destruct (bitmap_is_wf _ _ _ Hb) as (Hwf' & Hsz' & Hf' & _ & Hl').
  simpl in Hsz', Hl'. split_and!; [|by rewrite Hsz'|done].
  split; [done| |by rewrite Hl']. rewrite Hsz', Hsz. apply Hbt.
Qed.

(** A machine with 1.4MiB of memory, a kernel of 64KiB and an initrd. *)
Definition small_boot : multiboot :=
  mk_mb 0xC0009500 0x120000 0x1800
    [(0x100000, 0x10FFFF); (0x9500, 0x9600); (0xB8000, 0xB8F9F)]
    (mk_info 1 0x9600 48 0x9580)
    [mk_entry 0 0x9F000 1; mk_entry 0x100000 0x60000 1] [mk_mod 0x120000 0x121800]
    0xC0100000 0xC010FFFF false true.

Lemma small_bootable : bootable small_boot (fun _ k => replicate (Z.to_nat k) 0xAA) 352 1 0.
Proof.
  split; [done|done| |lia|done|by vm_compute|done| | | | | | |by vm_compute].
  - eexists. split; [by vm_compute|done].
  - split; [by rewrite length_replicate|]. by apply Forall_replicate.
  - simpl. split_and!; try done; try (apply (bool_decide_unpack _); by vm_compute).
  - apply (bool_decide_unpack _); by vm_compute.
  - apply (bool_decide_unpack _); by vm_compute.
  - apply (bool_decide_unpack _); by vm_compute.
  - apply (bool_decide_unpack _); by vm_compute.
Qed.

Lemma init_frame_alloc_correct_witness :
  wp (init_frame_alloc (fun _ k => replicate (Z.to_nat k) 0xAA))
    (fun _ s' => fa_ok s' /\ bm_size (FRAME_BITMAP s') = 352 /\
      free_frames s' = avail_frames (mb_mmap small_boot) ∖ kernel_frames small_boot ∖
        bitmap_frames 0 1 ∖ info_frames small_boot ∖ initrd_frames small_boot)
    (mk_fa (mk_bitmap 0 0 []) INIT_SPINLOCK 0 false false small_boot []).
Proof.
  apply (init_frame_alloc_correct (mk_fa (mk_bitmap 0 0 []) INIT_SPINLOCK 0 false false small_boot [])
    (fun _ k => replicate (Z.to_nat k) 0xAA) 352 1 0); [exact small_bootable|done].
Defined.

(** ** Behaviour at the edges *)

(** When the only free frames are in low memory, a request that is not for low
    memory traps instead of falling back to them. *)
Lemma alloc_frame_low_memory_only c s :
  fa_ok s -> OOM_SIMULATION s = false -> LOW_MEM_MAX_IDX < bm_size (FRAME_BITMAP s) ->
  free_frames s <> ∅ -> (forall i, i ∈ free_frames s -> i < LOW_MEM_MAX_IDX) ->
  exists msg, alloc_frame c s = Halt (Trap msg).
Proof.
  intros Hok Ho Hs Hne Hlow. pose proof (do_allocation_spec c false s Hok Ho) as H.
  unfold alloc_spec in H. destruct (Z.leb_spec (bm_size (FRAME_BITMAP s)) LOW_MEM_MAX_IDX); [lia|].
  rewrite decide_False in H by done.
  destruct (first_from (free_frames s) LOW_MEM_MAX_IDX _) as [i|] eqn:Hf; [|done].
  apply first_from_Some in Hf as (Hi & Hr & _). apply Hlow in Hi. lia.
Qed.

(** The last byte of available memory at a page boundary: its frame has no bit
    in the bitmap, and the initialisation traps. *)
Lemma init_frame_alloc_last_page :
  init_frame_alloc (fun _ k => replicate (Z.to_nat k) 0)
    (mk_fa (mk_bitmap 0 0 []) INIT_SPINLOCK 0 false false
      (mk_mb 0xC0009500 0 0 [(0x100000, 0x10FFFF); (0x9500, 0x9600); (0xB8000, 0xB8F9F)]
        (mk_info 0 0 48 0x9580)
        [mk_entry 0 0x9F000 1; mk_entry 0x100000 0x20001 1] [] 0xC0100000 0xC010FFFF false true) []) =
  Halt (Trap "int3").
Proof. by vm_compute. Qed.
