(* ===== verification/Kmalloc.v ===== *)
(** * The dynamic memory allocator: [src/kmalloc.h], [src/kmalloc.c]

    This file holds the translation of [kmalloc.c]; the invariant of a group
    and the proofs are in [KmallocGroup] and [KmallocSpec].

    The memory of the allocator is typed: [links] maps the address of every
    [struct list_node] to its value, [headers] the address of every node
    header, [groups] the address of every [struct group].  A read of an object
    that is not there traps.  [memzero] drops the objects it overwrites.  The
    bytes of an allocated block belong to its user: when such a block becomes
    a free-list element again its old bytes, [junk], are arbitrary.

    The physical frames and kernel mappings come from the frame allocator and
    the paging code, through the interface [PageProvider]. *)

From S2P Require Import Prelude Math DList Spinlock ErrorCodes.

(** ** Data *)

Definition FREE : Z := 0.
Definition ALLOCATED : Z := 1.

(** [tag : 1] and [size : 31]. *)
Record header := mk_header { tag : Z; hsize : Z }.

Record group := mk_group { gsize : Z; num_pages : Z; gfree : Z }.

Record heap := mk_heap {
  links : store;
  headers : gmap Z header;
  groups : gmap Z group }.

(** The assignment to the 31-bit field. *)
Definition u31 (x : Z) : Z := x mod 2147483648.

Definition HEADER_SIZE : Z := 4.
Definition SIZEOF_NODE : Z := 12.
Definition SIZEOF_LIST_NODE : Z := 8.
Definition SIZEOF_GROUP : Z := 28.
Definition MIN_SIZE : Z := SIZEOF_NODE - HEADER_SIZE.
Definition NULL : Z := 0.

(** The addresses of the list nodes inside the two structures, and back. *)
Definition group_list (g : Z) : Z := u32 (g + 12).
Definition free_head (g : Z) : Z := u32 (g + 20).
Definition free_node (n : Z) : Z := u32 (n + HEADER_SIZE).
Definition node_entry (l : Z) : Z := u32 (l - HEADER_SIZE).
Definition group_entry (l : Z) : Z := u32 (l - 12).

(** ** Accesses *)

Definition put_links (s : store) (h : heap) : heap := mk_heap s (headers h) (groups h).
Definition on_links {A} : M store A -> M heap A := zoom links put_links.

Definition rd_header (n : Z) : M heap header := fun h => must (headers h !! n) "header" h.
Definition rd_group (g : Z) : M heap group := fun h => must (groups h !! g) "group" h.

Definition wr_header (n : Z) (x : header) : M heap unit :=
  modify (fun h => mk_heap (links h) (<[n := x]> (headers h)) (groups h)).
Definition wr_group (g : Z) (x : group) : M heap unit :=
  modify (fun h => mk_heap (links h) (headers h) (<[g := x]> (groups h))).

Definition set_tag (n t : Z) : M heap unit :=
  do x <- rd_header n; wr_header n (mk_header t (hsize x)).
Definition set_size (n sz : Z) : M heap unit :=
  do x <- rd_header n; wr_header n (mk_header (tag x) (u31 sz)).
Definition add_free (g d : Z) : M heap unit :=
  do x <- rd_group g; wr_group g (mk_group (gsize x) (num_pages x) (u32 (gfree x + d))).

(** An object of [w] bytes at [k] shares a byte with the [n] bytes at [a]. *)
Definition meets (a n w k : Z) : Prop := k < a + n /\ a < k + w.
#[export] Instance meets_dec a n w k : Decision (meets a n w k).
Proof. unfold meets. apply _. Defined.

(** The heap without the objects in the [n] bytes at [a]. *)
Definition drop_objects (a n : Z) (h : heap) : heap :=
  mk_heap
    (filter (fun p => ~ meets a n SIZEOF_LIST_NODE p.1) (links h))
    (filter (fun p => ~ meets a n HEADER_SIZE p.1) (headers h))
    (filter (fun p => ~ meets a n SIZEOF_GROUP p.1) (groups h)).

Definition memzero (a n : Z) : M heap unit := modify (drop_objects a n).

Definition link_next (a : Z) : M heap Z := on_links (next_of a).

(** [list_for_each] over a list of this heap. *)
Definition for_each_link {B} (head : Z) (body : Z -> B -> M heap (B + B)) (acc : B) : M heap B :=
  do fuel <- gets (fun h => size (links h));
  list_for_each fuel link_next head body acc.

(** ** Operations on one group *)

Definition group_is_empty (g : Z) : M heap bool :=
  do x <- rd_group g; ret (gsize x =? gfree x).

Definition node_data_start (n : Z) : Z := u32 (n + HEADER_SIZE).

Definition find_node_in_group (g size : Z) : M heap (option Z) :=
  for_each_link (free_head g) (fun c _ =>
    do x <- rd_header (node_entry c);
    if size <=? hsize x then ret (inl (Some (node_entry c))) else ret (inr None)) None.

(** The part of [kmalloc_in_group] that runs once the free node [dest] is
    found: it takes the node, splits it when the rest can hold a node, and
    zeroes the data. *)
Definition use_node (g dest size : Z) : M heap Z :=
  let data_start := node_data_start dest in
  do x <- rd_header dest;
  add_free g (- hsize x);;;
  set_tag dest ALLOCATED;;;
  do l <- on_links (rd (free_node dest));
  let prev_ := prev l in
  on_links (list_del (free_node dest));;;
  when (SIZEOF_NODE <=? u32 (hsize x - size))
    (let node := u32 (data_start + size) in
     wr_header node (mk_header FREE (u31 (hsize x - size - HEADER_SIZE)));;;
     on_links (list_init (free_node node));;;
     on_links (list_add prev_ (free_node node));;;
     do y <- rd_header node;
     add_free g (hsize y);;;
     ASSERT (hsize x =? u32 (size + HEADER_SIZE + hsize y)) "dest->header.size";;;
     set_size dest size);;;
  memzero data_start size;;;
  ret data_start.

Definition kmalloc_in_group (g size0 : Z) : M heap Z :=
  do empty <- on_links (list_empty (free_head g));
  if (empty : bool) then ret NULL else
  let size := max_u32 size0 MIN_SIZE in
  do found <- find_node_in_group g size;
  match found with
  | None => ret NULL
  | Some dest => use_node g dest size
  end.

Definition addr_in_group (g addr : Z) : M heap bool :=
  do x <- rd_group g;
  ret ((g <=? addr) && (addr <? u32 (g + u32 (num_pages x * PAGE_SIZE)))).

Definition can_merge (a b : Z) : M heap bool :=
  do x <- rd_header a; ret (u32 (a + hsize x + HEADER_SIZE) =? b).

Definition first_in_free_list (g n : Z) : M heap bool :=
  do l <- on_links (list_first (free_head g)); ret (n =? node_entry l).

Definition last_in_free_list (g n : Z) : M heap bool :=
  do l <- on_links (list_last (free_head g)); ret (n =? node_entry l).

Definition prev_node (n : Z) : M heap Z :=
  do l <- on_links (rd (free_node n)); ret (node_entry (prev l)).

Definition next_node (n : Z) : M heap Z :=
  do l <- on_links (rd (free_node n)); ret (node_entry (next l)).

Definition node_for_addr (addr : Z) : Z := u32 (addr - HEADER_SIZE).

(** The first half of [merge_free_node]: the node the second half goes on
    with. *)
Definition merge_with_prev (g node : Z) : M heap Z :=
  do prev_ <- prev_node node;
  do first <- first_in_free_list g node;
  if (first : bool) then ret node else
  do merge <- can_merge prev_ node;
  if (merge : bool) then
    on_links (list_del (free_node node));;;
    do x <- rd_header prev_;
    do y <- rd_header node;
    set_size prev_ (hsize x + hsize y + HEADER_SIZE);;;
    add_free g HEADER_SIZE;;;
    ret prev_
  else ret node.

(** The recursion follows the free list to its end; [fuel] is one call per
    list node in memory. *)
Fixpoint merge_free_node (fuel : nat) (g node : Z) : M heap unit :=
  match fuel with
  | O => halt_with (Hang "merge_free_node")
  | S fuel' =>
      do node' <- merge_with_prev g node;
      do last <- last_in_free_list g node';
      if (last : bool) then ret tt else
      do next_ <- next_node node';
      merge_free_node fuel' g next_
  end.

Section Junk.
(** The bytes an allocated block holds when it is freed. *)
Context (junk : Z -> list_node).

(** The data of [n] is used as a list node from here on. *)
Definition as_list_node (n : Z) : M heap unit :=
  modify (fun h => put_links
    (match links h !! free_node n with
     | Some _ => links h
     | None => <[free_node n := junk n]> (links h)
     end) h).

Definition insert_in_free_list (g node : Z) : M heap unit :=
  set_tag node FREE;;;
  do x <- rd_header node;
  add_free g (hsize x);;;
  do next_ <- for_each_link (free_head g) (fun c h =>
      if c >? free_node node then ret (inl c) else ret (inr h)) (free_head g);
  as_list_node node;;;
  on_links (list_add_tail next_ (free_node node));;;
  do fuel <- gets (fun h => size (links h));
  merge_free_node fuel g node.

Definition kfree_in_group (g addr : Z) : M heap unit :=
  do i <- addr_in_group g addr;
  ASSERT i "addr_in_group(group, addr)";;;
  let node := node_for_addr addr in
  do x <- rd_header node;
  ASSERT (tag x =? ALLOCATED) "node->header.tag == ALLOCATED";;;
  insert_in_free_list g node.

End Junk.

(** ** Groups and pages *)

Definition NO_REGION : Z := 0xFFFFFFFF.
Definition NO_FRAME : Z := 0xFFFFFFFF.
Definition VM_WRITE : Z := 1.

(** What [kmalloc.c] calls of [frame_alloc.c], [paging.c] and [addr_space.c]:
    [alloc_frame], [free_frame], [paging_map_frames_above],
    [paging_unmap_and_free_frames], [get_curr_addr_space],
    [get_kernel_addr_space] and [switch_to_addr_space], over a state [P]. *)
Class PageProvider (P : Type) := {
  pp_alloc_frame : M P Z;
  pp_free_frame : Z -> M P unit;
  pp_map_frames_above : Z -> list Z -> Z -> M P Z;
  pp_unmap_and_free_frames : Z -> Z -> M P unit;
  pp_curr_addr_space : M P Z;
  pp_kernel_addr_space : M P Z;
  pp_switch_to_addr_space : Z -> M P unit }.

Record kmalloc_st (P : Type) := mk_km {
  km_heap : heap;
  km_lock : spinlock_t;
  km_if : bool;
  KMALLOC_INITIALIZED : bool;
  KMALLOC_OOM_SIMULATION : bool;
  kmalloc_nest_level : Z;
  km_paging : bool;
  km_errors : list err_call;
  km_pages : P }.
Arguments mk_km {P}.
Arguments km_heap {P}.
Arguments km_lock {P}.
Arguments km_if {P}.
Arguments KMALLOC_INITIALIZED {P}.
Arguments KMALLOC_OOM_SIMULATION {P}.
Arguments kmalloc_nest_level {P}.
Arguments km_paging {P}.
Arguments km_errors {P}.
Arguments km_pages {P}.

Section Kmalloc.
Context {P : Type} `{PageProvider P}.
(** The cpu that runs, the address of the global [GROUP_LIST] and the bytes of
    the blocks that are freed. *)
Context (cpu_id GROUP_LIST : Z) (junk : Z -> list_node).

Abbreviation KM := (M (kmalloc_st P)).

Definition put_heap (h : heap) (s : kmalloc_st P) : kmalloc_st P :=
  mk_km h (km_lock s) (km_if s) (KMALLOC_INITIALIZED s) (KMALLOC_OOM_SIMULATION s)
    (kmalloc_nest_level s) (km_paging s) (km_errors s) (km_pages s).
Definition put_lock (p : lockst) (s : kmalloc_st P) : kmalloc_st P :=
  mk_km (km_heap s) p.1 p.2 (KMALLOC_INITIALIZED s) (KMALLOC_OOM_SIMULATION s)
    (kmalloc_nest_level s) (km_paging s) (km_errors s) (km_pages s).
Definition put_init (b : bool) (s : kmalloc_st P) : kmalloc_st P :=
  mk_km (km_heap s) (km_lock s) (km_if s) b (KMALLOC_OOM_SIMULATION s)
    (kmalloc_nest_level s) (km_paging s) (km_errors s) (km_pages s).
Definition put_oom (b : bool) (s : kmalloc_st P) : kmalloc_st P :=
  mk_km (km_heap s) (km_lock s) (km_if s) (KMALLOC_INITIALIZED s) b
    (kmalloc_nest_level s) (km_paging s) (km_errors s) (km_pages s).
Definition put_nest (n : Z) (s : kmalloc_st P) : kmalloc_st P :=
  mk_km (km_heap s) (km_lock s) (km_if s) (KMALLOC_INITIALIZED s) (KMALLOC_OOM_SIMULATION s)
    n (km_paging s) (km_errors s) (km_pages s).
Definition put_errors (es : list err_call) (s : kmalloc_st P) : kmalloc_st P :=
  mk_km (km_heap s) (km_lock s) (km_if s) (KMALLOC_INITIALIZED s) (KMALLOC_OOM_SIMULATION s)
    (kmalloc_nest_level s) (km_paging s) es (km_pages s).
Definition put_pages (p : P) (s : kmalloc_st P) : kmalloc_st P :=
  mk_km (km_heap s) (km_lock s) (km_if s) (KMALLOC_INITIALIZED s) (KMALLOC_OOM_SIMULATION s)
    (kmalloc_nest_level s) (km_paging s) (km_errors s) p.

Definition on_heap {A} : M heap A -> KM A := zoom km_heap put_heap.
Definition on_pages {A} : M P A -> KM A := zoom km_pages put_pages.
Definition on_lock {A} : M lockst A -> KM A := zoom (fun s => (km_lock s, km_if s)) put_lock.

Definition SET_ERROR (msg : string) (code : Z) : KM unit :=
  do held <- on_lock (spinlock_is_held cpu_id);
  modify (fun s => put_errors (km_errors s ++ [mk_err msg code held]) s).

(** The loop that fills [frames]: [None] when a frame is missing, the frames
    allocated so far being freed. *)
Fixpoint alloc_frames (n : nat) (frames : list Z) : KM (option (list Z)) :=
  match n with
  | O => ret (Some frames)
  | S n' =>
      do f <- on_pages pp_alloc_frame;
      if f =? NO_FRAME then
        for_each frames (fun x => on_pages (pp_free_frame x));;;
        SET_ERROR "Not enough physical frames to allocate group" ENONE;;;
        ret None
      else alloc_frames n' (frames ++ [f])
  end.

(** Run an operation in the kernel address space. *)
Definition in_kernel_addr_space {A} (m : KM A) : KM A :=
  do curr <- on_pages pp_curr_addr_space;
  do kernel <- on_pages pp_kernel_addr_space;
  let change_addr_space := negb (curr =? kernel) in
  when change_addr_space (on_pages (pp_switch_to_addr_space kernel));;;
  do r <- m;
  when change_addr_space (on_pages (pp_switch_to_addr_space curr));;;
  ret r.

(** The part of [create_group] that lays out the new group on its pages. *)
Definition init_group (pages size : Z) : M heap unit :=
  memzero pages (u32 (size * PAGE_SIZE));;;
  let free := u32 (pages + SIZEOF_GROUP) in
  wr_header free (mk_header FREE (u31 (size * PAGE_SIZE - SIZEOF_GROUP - HEADER_SIZE)));;;
  on_links (list_init (free_node free));;;
  do x <- rd_header free;
  wr_group pages (mk_group (hsize x) size (hsize x));;;
  on_links (list_init (group_list pages));;;
  on_links (list_init (free_head pages));;;
  on_links (list_add (free_head pages) (free_node free)).

Definition create_group (size : Z) : KM Z :=
  do frames <- alloc_frames (Z.to_nat size) [];
  match frames with
  | None => ret NULL
  | Some frames =>
      do pages <- in_kernel_addr_space
        (on_pages (pp_map_frames_above KERNEL_PHY_OFFSET frames VM_WRITE));
      if pages =? NO_REGION then
        for_each frames (fun x => on_pages (pp_free_frame x));;;
        SET_ERROR "Cannot map group to virt addr space" ENONE;;;
        ret NULL
      else
        on_heap (init_group pages size);;;
        ret pages
  end.

(** The memory of the group is not mapped any more when it returns. *)
Definition free_group (g : Z) : KM unit :=
  do e <- on_heap (group_is_empty g);
  ASSERT e "group_is_empty(group)";;;
  do x <- on_heap (rd_group g);
  let len := u32 (num_pages x * PAGE_SIZE) in
  in_kernel_addr_space (on_pages (pp_unmap_and_free_frames g len));;;
  on_heap (modify (drop_objects g len)).

Definition try_allocation (group_list_ size : Z) : M heap Z :=
  for_each_link group_list_ (fun c _ =>
    let g := group_entry c in
    do x <- rd_group g;
    if gfree x <? size then ret (inr NULL) else
    do addr <- kmalloc_in_group g size;
    if addr =? NULL then ret (inr NULL) else ret (inl addr)) NULL.

(** The end of [do_kmalloc], with the new group: another cpu may have freed
    memory while the lock was released. *)
Definition use_new_group (group size : Z) : KM Z :=
  do addr <- on_heap (try_allocation GROUP_LIST size);
  if negb (addr =? NULL) then
    on_lock (spinlock_unlock cpu_id);;;
    free_group group;;;
    on_lock (spinlock_lock cpu_id);;;
    ret addr
  else
    on_heap (on_links (list_add_tail GROUP_LIST (group_list group)));;;
    do addr <- on_heap (kmalloc_in_group group size);
    ASSERT (negb (addr =? NULL)) "addr";;;
    ret addr.

Definition do_kmalloc (size : Z) : KM Z :=
  do addr <- on_heap (try_allocation GROUP_LIST size);
  if negb (addr =? NULL) then ret addr else
  on_lock (spinlock_unlock cpu_id);;;
  (** [sizeof(group)] is the size of the pointer [group]. *)
  let num_pages := ceil_x_over_y_u32 (u32 (size + 4 + HEADER_SIZE)) PAGE_SIZE in
  do group <- create_group num_pages;
  on_lock (spinlock_lock cpu_id);;;
  if group =? NULL then
    SET_ERROR "Cannot find or create group for allocation" ENONE;;;
    ret NULL
  else use_new_group group size.

(** The body of the loop of [do_kfree] for the group that holds [addr]. *)
Definition kfree_from (g addr : Z) : KM unit :=
  on_heap (kfree_in_group junk g addr);;;
  do e <- on_heap (group_is_empty g);
  when e
    (on_heap (on_links (list_del (group_list g)));;;
     on_lock (spinlock_unlock cpu_id);;;
     free_group g;;;
     on_lock (spinlock_lock cpu_id)).

(** The search of [do_kfree]; [true] when a group was found. *)
Definition do_kfree (addr : Z) : KM unit :=
  do found <- (do fuel <- gets (fun s => size (links (km_heap s)));
    list_for_each fuel (fun a => on_heap (link_next a)) GROUP_LIST (fun c _ =>
      let g := group_entry c in
      do i <- on_heap (addr_in_group g addr);
      if (i : bool) then kfree_from g addr;;; ret (inl true) else ret (inr false)) false);
  if (found : bool) then ret tt else panic "Unknow pointer to free.".

Definition kmalloc (size : Z) : KM Z :=
  do paging <- gets km_paging;
  ASSERT paging "cpu_paging_enabled()";;;
  on_lock (spinlock_lock cpu_id);;;
  modify (fun s => put_nest (u32 (kmalloc_nest_level s + 1)) s);;;
  do initialized <- gets KMALLOC_INITIALIZED;
  when (negb initialized)
    (on_heap (on_links (list_init GROUP_LIST));;; modify (put_init true));;;
  do oom <- gets KMALLOC_OOM_SIMULATION;
  do addr <-
    (if (oom : bool) then
       SET_ERROR "kmalloc's OOM Simulation active" ENOMEM;;; ret NULL
     else do_kmalloc size);
  modify (fun s => put_nest (u32 (kmalloc_nest_level s - 1)) s);;;
  on_lock (spinlock_unlock cpu_id);;;
  ret addr.

Definition kfree (addr : Z) : KM unit :=
  on_lock (spinlock_lock cpu_id);;;
  do initialized <- gets KMALLOC_INITIALIZED;
  ASSERT initialized "KMALLOC_INITIALIZED";;;
  do_kfree addr;;;
  on_lock (spinlock_unlock cpu_id).

Definition kmalloc_total_allocated : KM Z :=
  on_lock (spinlock_lock cpu_id);;;
  do tot <- on_heap (for_each_link GROUP_LIST (fun c tot =>
    do x <- rd_group (group_entry c);
    ret (inr (u32 (tot + (gsize x - gfree x))))) 0);
  on_lock (spinlock_unlock cpu_id);;;
  ret tot.

Definition kmalloc_set_oom_simulation (enabled : bool) : KM unit := modify (put_oom enabled).

End Kmalloc.
