(* ===== verification/KmallocGroup.v ===== *)
(** * Groups of the memory allocator: invariant and operations

    A group of [np] pages at [g] is its [struct group] followed by nodes that
    tile the rest of its pages.  [blocks] lists the nodes by tag and size;
    [group_inv h g np bs] says that the heap [h] holds a group with the nodes
    [bs]: every header is there, the free list links exactly the free nodes in
    the order of their addresses, and [free] is the number of free bytes.

    The operations of [kmalloc.c] on a group are specified by what they do to
    [bs], and by what they leave alone ([frame_out]). *)

From S2P Require Import Prelude Math DList Kmalloc.

(** A node: free or not, and its size. *)
Abbreviation block := (bool * Z)%type.

(** ** Block lists *)

(** The bytes the nodes take, headers included. *)
Fixpoint total (bs : list block) : Z :=
  match bs with
  | [] => 0
  | (_, k) :: bs' => HEADER_SIZE + k + total bs'
  end.

Fixpoint free_bytes (bs : list block) : Z :=
  match bs with
  | [] => 0
  | (f, k) :: bs' => (if (f : bool) then k else 0) + free_bytes bs'
  end.

(** The addresses of the free-list elements of nodes that start at [st]. *)
Fixpoint free_addrs (st : Z) (bs : list block) : list Z :=
  match bs with
  | [] => []
  | (f, k) :: bs' =>
      (if (f : bool) then [st + HEADER_SIZE] else []) ++ free_addrs (st + HEADER_SIZE + k) bs'
  end.

(** The allocations: address of the data and size. *)
Fixpoint allocs (st : Z) (bs : list block) : list (Z * Z) :=
  match bs with
  | [] => []
  | (f, k) :: bs' =>
      (if (f : bool) then [] else [(st + HEADER_SIZE, k)]) ++ allocs (st + HEADER_SIZE + k) bs'
  end.

Definition tag_of (f : bool) : Z := if f then FREE else ALLOCATED.

Fixpoint headers_ok (hs : gmap Z header) (st : Z) (bs : list block) : Prop :=
  match bs with
  | [] => True
  | (f, k) :: bs' => hs !! st = Some (mk_header (tag_of f) k) /\ headers_ok hs (st + HEADER_SIZE + k) bs'
  end.

Definition sizes_ok (bs : list block) : Prop := Forall (fun b => MIN_SIZE <= b.2) bs.

(** No two neighbours are both free. *)
Fixpoint coalesced (bs : list block) : Prop :=
  match bs with
  | (true, _) :: (((true, _) :: _) as bs') => False
  | _ :: bs' => coalesced bs'
  | [] => True
  end.

Definition all_allocated (bs : list block) : Prop := Forall (fun b => b.1 = false) bs.

(** No free node of [bs] can hold [sz] bytes. *)
Definition no_fit (sz : Z) (bs : list block) : Prop := forall k, (true, k) ∈ bs -> k < sz.

Lemma total_app l1 l2 : total (l1 ++ l2) = total l1 + total l2.
Proof. induction l1 as [|[f k] l1 IH]; simpl; [done|]. rewrite IH. lia. Qed.

Lemma free_bytes_app l1 l2 : free_bytes (l1 ++ l2) = free_bytes l1 + free_bytes l2.
Proof. induction l1 as [|[f k] l1 IH]; simpl; [done|]. rewrite IH. lia. Qed.

Lemma free_addrs_app st l1 l2 :
  free_addrs st (l1 ++ l2) = free_addrs st l1 ++ free_addrs (st + total l1) l2.
Proof.
  revert st. induction l1 as [|[f k] l1 IH]; intros st; simpl.
  - by rewrite Z.add_0_r.
  - rewrite IH, <- app_assoc. do 3 f_equal. lia.
Qed.

Lemma allocs_app st l1 l2 : allocs st (l1 ++ l2) = allocs st l1 ++ allocs (st + total l1) l2.
Proof.
  revert st. induction l1 as [|[f k] l1 IH]; intros st; simpl.
  - by rewrite Z.add_0_r.
  - rewrite IH, <- app_assoc. do 3 f_equal. lia.
Qed.

Lemma headers_ok_app hs st l1 l2 :
  headers_ok hs st (l1 ++ l2) <-> headers_ok hs st l1 /\ headers_ok hs (st + total l1) l2.
Proof.
  revert st. induction l1 as [|[f k] l1 IH]; intros st; simpl.
  - rewrite Z.add_0_r. tauto.
  - rewrite IH. replace (st + HEADER_SIZE + k + total l1) with (st + (HEADER_SIZE + k + total l1)) by lia.
    tauto.
Qed.

Lemma sizes_ok_app l1 l2 : sizes_ok (l1 ++ l2) <-> sizes_ok l1 /\ sizes_ok l2.
Proof. apply Forall_app. Qed.

Lemma sizes_ok_cons f k bs : sizes_ok ((f, k) :: bs) <-> 8 <= k /\ sizes_ok bs.
Proof. unfold sizes_ok. rewrite Forall_cons. done. Qed.

Lemma total_nonneg bs : sizes_ok bs -> 0 <= total bs.
Proof.
  induction bs as [|[f k] bs IH]; intros H; simpl; [lia|]. apply sizes_ok_cons in H as [? H].
  specialize (IH H). unfold HEADER_SIZE. lia.
Qed.

Lemma free_bytes_bound bs : sizes_ok bs -> 0 <= free_bytes bs <= total bs.
Proof.
  induction bs as [|[f k] bs IH]; intros H; simpl; [lia|]. apply sizes_ok_cons in H as [? H].
  specialize (IH H). unfold HEADER_SIZE. destruct f; lia.
Qed.

Lemma free_addrs_range st bs a :
  sizes_ok bs -> a ∈ free_addrs st bs -> st + 4 <= a /\ a + 8 <= st + total bs.
Proof.
  revert st. induction bs as [|[f k] bs IH]; intros st H Ha; simpl in *; [by apply not_elem_of_nil in Ha|].
  apply sizes_ok_cons in H as [Hk H]. pose proof (total_nonneg bs H). unfold HEADER_SIZE in *.
  apply elem_of_app in Ha as [Ha|Ha].
  - destruct f; [apply list_elem_of_singleton in Ha; lia|by apply not_elem_of_nil in Ha].
  - specialize (IH _ H Ha). lia.
Qed.

Lemma headers_ok_frame hs hs' st bs :
  sizes_ok bs -> headers_ok hs st bs ->
  (forall a, st <= a -> a + 12 <= st + total bs -> hs' !! a = hs !! a) -> headers_ok hs' st bs.
Proof.
  revert st. induction bs as [|[f k] bs IH]; intros st Hs H Hf; [done|].
  apply sizes_ok_cons in Hs as [Hk Hs]. destruct H as [Hh H]. simpl in *.
  pose proof (total_nonneg bs Hs). unfold HEADER_SIZE in *. split.
  - by rewrite Hf by lia.
  - apply IH; [done|done|]. intros a ? ?. apply Hf; lia.
Qed.

Lemma free_addrs_allocated st bs : all_allocated bs -> free_addrs st bs = [].
Proof.
  intros H. revert st. induction H as [|[f k] bs Hf H IH]; intros st; simpl in *; [done|].
  by rewrite Hf, IH.
Qed.

Lemma free_addrs_nil_inv st bs : free_addrs st bs = [] -> all_allocated bs.
Proof.
  revert st. induction bs as [|[[] k] bs IH]; intros st H; simpl in *; [constructor|done|].
  constructor; [done|]. by eapply IH.
Qed.

(** The first element of the free list is the first free node. *)
Lemma free_addrs_cons_inv st bs x rest :
  free_addrs st bs = x :: rest ->
  exists a k b, bs = a ++ (true, k) :: b /\ all_allocated a /\ x = st + total a + HEADER_SIZE /\
                rest = free_addrs (st + total a + HEADER_SIZE + k) b.
Proof.
  revert st. induction bs as [|[[] k] bs IH]; intros st H; simpl in *; [done| |].
  - simplify_eq/=. exists [], k, bs. simpl. rewrite Z.add_0_r. by split_and!; [|constructor|..].
  - destruct (IH _ H) as (a & k' & b & -> & Ha & -> & ->). exists ((false, k) :: a), k', b. simpl.
    split_and!; [done|by constructor|lia|do 2 f_equal; lia].
Qed.

(** The last element is the last free node. *)
Lemma free_addrs_last bs st d :
  (all_allocated bs /\ List.last (free_addrs st bs) d = d) \/
  exists a k b, bs = a ++ (true, k) :: b /\ all_allocated b /\
                List.last (free_addrs st bs) d = st + total a + HEADER_SIZE.
Proof.
  induction bs as [|[f k] bs IH] using rev_ind; [by left; split; [constructor|]|].
  rewrite free_addrs_app. simpl. destruct f; simpl.
  - right. exists bs, k, []. rewrite List.last_last. by split_and!; [|constructor|].
  - rewrite app_nil_r. destruct IH as [[Ha Hl]|(a & k' & b & -> & Hb & Hl)]; [left|right].
    + split; [|done]. apply Forall_app. split; [done|]. by repeat constructor.
    + exists a, k', (b ++ [(false, k)]). rewrite <- app_assoc. split_and!; [done| |done].
      apply Forall_app. split; [done|]. by repeat constructor.
Qed.

(** ** The invariant of a group *)

(** The nodes tile the [np] pages at [g] behind the [struct group]. *)
Record layout (g np : Z) (bs : list block) : Prop := {
  lay_total : total bs = np * 4096 - SIZEOF_GROUP;
  lay_sizes : sizes_ok bs;
  lay_addr : 0 < g;
  lay_end : g + np * 4096 < 2 ^ 32;
  lay_pages : 0 < np * 4096 < 2 ^ 31 }.

Record group_inv (h : heap) (g np : Z) (bs : list block) : Prop := {
  gi_group : groups h !! g = Some (mk_group (np * 4096 - 32) np (free_bytes bs));
  gi_headers : headers_ok (headers h) (g + SIZEOF_GROUP) bs;
  gi_list : dll (links h) (g + 20) (free_addrs (g + SIZEOF_GROUP) bs);
  gi_layout : layout g np bs }.

(** Outside the free list and the nodes of the group nothing changed. *)
Record frame_out (g np : Z) (h h' : heap) : Prop := {
  fo_links : forall a, ~ (g + 20 <= a < g + np * 4096) -> links h' !! a = links h !! a;
  fo_headers : forall a, ~ (g + SIZEOF_GROUP <= a < g + np * 4096) -> headers h' !! a = headers h !! a;
  fo_groups : forall a, ~ (g <= a < g + np * 4096) -> groups h' !! a = groups h !! a }.

Lemma frame_out_refl g np h : frame_out g np h h.
Proof. by split. Qed.

Lemma frame_out_trans g np h1 h2 h3 :
  frame_out g np h1 h2 -> frame_out g np h2 h3 -> frame_out g np h1 h3.
Proof.
  intros H1 H2. split; intros a Ha.
  - rewrite (fo_links _ _ _ _ H2) by done. by apply H1.
  - rewrite (fo_headers _ _ _ _ H2) by done. by apply H1.
  - rewrite (fo_groups _ _ _ _ H2) by done. by apply H1.
Qed.

(** ** Accesses *)

Section Accesses.
Context (h : heap).

Lemma wp_on_links {A} (m : M store A) (Q : A -> heap -> Prop) :
  wp m (fun a s => Q a (put_links s h)) (links h) -> wp (on_links m) Q h.
Proof. apply wp_zoom. Qed.

Lemma wp_rd_header n x (Q : header -> heap -> Prop) :
  headers h !! n = Some x -> Q x h -> wp (rd_header n) Q h.
Proof. intros Hx HQ. unfold wp, rd_header. by rewrite Hx. Qed.

Lemma wp_rd_group g x (Q : group -> heap -> Prop) :
  groups h !! g = Some x -> Q x h -> wp (rd_group g) Q h.
Proof. intros Hx HQ. unfold wp, rd_group. by rewrite Hx. Qed.

Lemma wp_set_tag n x t (Q : unit -> heap -> Prop) :
  headers h !! n = Some x ->
  Q tt (mk_heap (links h) (<[n := mk_header t (hsize x)]> (headers h)) (groups h)) ->
  wp (set_tag n t) Q h.
Proof. intros. apply wp_bind. eapply wp_rd_header; [done|]. by apply wp_modify. Qed.

Lemma wp_set_size n x sz (Q : unit -> heap -> Prop) :
  headers h !! n = Some x ->
  Q tt (mk_heap (links h) (<[n := mk_header (tag x) (u31 sz)]> (headers h)) (groups h)) ->
  wp (set_size n sz) Q h.
Proof. intros. apply wp_bind. eapply wp_rd_header; [done|]. by apply wp_modify. Qed.

Lemma wp_add_free g x d (Q : unit -> heap -> Prop) :
  groups h !! g = Some x ->
  Q tt (mk_heap (links h) (headers h)
          (<[g := mk_group (gsize x) (num_pages x) (u32 (gfree x + d))]> (groups h))) ->
  wp (add_free g d) Q h.
Proof. intros. apply wp_bind. eapply wp_rd_group; [done|]. by apply wp_modify. Qed.

End Accesses.

Lemma u31_id x : 0 <= x < 2 ^ 31 -> u31 x = x.
Proof. intros. unfold u31. apply Z.mod_small. lia. Qed.

(** The addresses inside a group do not wrap. *)
Section Addresses.
Context (g np : Z) (bs : list block) (Hl : layout g np bs).

Lemma lay_free_head : free_head g = g + 20.
Proof. destruct Hl as [Ht Hs H0 He Hp]. pose proof (total_nonneg _ Hs). unfold free_head, SIZEOF_GROUP in *. apply u32_id. lia. Qed.

(** The node behind the nodes [l1]. *)
Lemma lay_node l1 f k l2 :
  bs = l1 ++ (f, k) :: l2 ->
  0 <= total l1 /\ 0 <= total l2 /\ 8 <= k /\ total l1 + 4 + k + total l2 = np * 4096 - 28.
Proof.
  intros ->. destruct Hl as [Ht Hs _ _ _]. rewrite total_app in Ht. simpl in Ht.
  apply sizes_ok_app in Hs as [Hs1 [Hk Hs2]%sizes_ok_cons].
  pose proof (total_nonneg _ Hs1). pose proof (total_nonneg _ Hs2).
  unfold SIZEOF_GROUP, HEADER_SIZE in *. lia.
Qed.

Lemma lay_header l1 f k l2 hs :
  bs = l1 ++ (f, k) :: l2 -> headers_ok hs (g + SIZEOF_GROUP) bs ->
  hs !! (g + SIZEOF_GROUP + total l1) = Some (mk_header (tag_of f) k).
Proof. intros -> H. by apply headers_ok_app in H as [_ [H _]]. Qed.

End Addresses.

(** ** Searching the free list *)

Lemma find_node_in_group_wp h g np bs sz :
  group_inv h g np bs ->
  wp (find_node_in_group g sz) (fun r h' => h' = h /\
    ((r = None /\ no_fit sz bs) \/
     exists l1 k l2, bs = l1 ++ (true, k) :: l2 /\ no_fit sz l1 /\ sz <= k /\
       r = Some (g + SIZEOF_GROUP + total l1))) h.
Proof.
  intros Hg. pose proof (gi_layout _ _ _ _ Hg) as Hl. unfold find_node_in_group, for_each_link.
  rewrite (lay_free_head _ _ _ Hl). apply wp_bind, wp_gets.
  eapply (wp_list_for_each _ _ _ (fun rest acc h' => h' = h /\ acc = None /\
    exists b1 b2, bs = b1 ++ b2 /\ no_fit sz b1 /\ rest = free_addrs (g + SIZEOF_GROUP + total b1) b2)
    _ _ (free_addrs (g + SIZEOF_GROUP) bs)).
  - intros x rest acc h' (-> & -> & b1 & b2 & -> & Hno & Hx). symmetry in Hx.
    apply free_addrs_cons_inv in Hx as (a & k & b & -> & Ha & -> & ->).
    destruct (lay_node g np _ Hl (b1 ++ a) true k b) as (? & ? & ? & ?); [by rewrite <- app_assoc|].
    pose proof (lay_header g np _ Hl (b1 ++ a) true k b (headers h)
      ltac:(by rewrite <- app_assoc) (gi_headers _ _ _ _ Hg)) as Hh.
    rewrite total_app in *. destruct Hl as [_ _ Hg0 He _]. unfold SIZEOF_GROUP, HEADER_SIZE in *.
    assert (node_entry (g + 28 + total b1 + total a + 4) = g + 28 + (total b1 + total a)) as E
      by (unfold node_entry, HEADER_SIZE; rewrite u32_id; lia).
    apply wp_bind. eapply wp_rd_header; [by rewrite E|]. simpl.
    destruct (Z.leb_spec sz k) as [Hle|Hgt]; apply wp_ret.
    + split; [done|]. right. exists (b1 ++ a), k, b. rewrite total_app, E. unfold SIZEOF_GROUP.
      split_and!; [by rewrite <- app_assoc| |done|done].
      intros k' [Hk|Hk]%elem_of_app; [by apply Hno|]. by apply (proj1 (Forall_forall _ _) Ha) in Hk.
    + apply wp_on_links. eapply wp_next_of.
      { pose proof (gi_list _ _ _ _ Hg) as Hd.
        rewrite !free_addrs_app in Hd. simpl in Hd. rewrite (free_addrs_allocated _ a Ha), app_nil_l in Hd.
        unfold SIZEOF_GROUP, HEADER_SIZE in Hd. eapply dll_next. exact Hd. }
      split; [done|]. split_and!; [by destruct h|done|]. exists (b1 ++ a ++ [(true, k)]), b.
      rewrite !total_app. simpl. unfold SIZEOF_GROUP, HEADER_SIZE.
      split_and!; [by rewrite <- !app_assoc| |f_equal; lia].
      intros k' [Hk|[Hk|Hk]%elem_of_app]%elem_of_app; [by apply Hno| |].
      * by apply (proj1 (Forall_forall _ _) Ha) in Hk.
      * apply list_elem_of_singleton in Hk. by simplify_eq.
  - intros acc h' (-> & -> & b1 & b2 & -> & Hno & Hx). split; [done|]. left. split; [done|].
    intros k [Hk|Hk]%elem_of_app; [by apply Hno|]. symmetry in Hx. apply free_addrs_nil_inv in Hx.
    by apply (proj1 (Forall_forall _ _) Hx) in Hk.
  - by eapply dll_head_notin, (gi_list _ _ _ _ Hg).
  - eapply dll_fuel, (gi_list _ _ _ _ Hg).
  - apply wp_on_links. eapply wp_next_of; [by eapply dll_head_next, (gi_list _ _ _ _ Hg)|].
    split_and!; [done|by destruct h|done|]. exists [], bs. simpl. rewrite Z.add_0_r.
    split_and!; [done| |done]. intros k []%not_elem_of_nil.
Qed.

(** ** Changing one node *)

(** Solve a lookup in updated maps. *)
Ltac lookup_solve :=
  simpl in *; repeat (rewrite lookup_insert_ne by lia); try (rewrite lookup_insert_eq; done); try done.

(** A change of the headers, the links and the [struct group] inside the
    group. *)
Lemma frame_out_update g np h ls hs x :
  0 < np * 4096 ->
  (forall a, ~ (g + 20 <= a < g + np * 4096) -> ls !! a = links h !! a) ->
  (forall a, ~ (g + SIZEOF_GROUP <= a < g + np * 4096) -> hs !! a = headers h !! a) ->
  frame_out g np h (mk_heap ls hs (<[g := x]> (groups h))).
Proof.
  intros Hnp Hl Hh. split; simpl; [done|done|]. intros a Ha. by rewrite lookup_insert_ne by lia.
Qed.

(** Replacing the nodes [o] by the nodes [m], which take the same bytes. *)
Lemma group_inv_replace_seg h g np l1 o l2 m ls hs n :
  group_inv h g np (l1 ++ o ++ l2) -> total m = total o -> sizes_ok m ->
  dll ls (g + 20) (free_addrs (g + SIZEOF_GROUP) l1 ++ free_addrs (g + SIZEOF_GROUP + total l1) m ++
                   free_addrs (g + SIZEOF_GROUP + total l1 + total o) l2) ->
  headers_ok hs (g + SIZEOF_GROUP + total l1) m ->
  (forall a, a < g + SIZEOF_GROUP + total l1 \/ g + SIZEOF_GROUP + total l1 + total o <= a ->
     hs !! a = headers h !! a) ->
  n = free_bytes l1 + free_bytes m + free_bytes l2 ->
  group_inv (mk_heap ls hs (<[g := mk_group (np * 4096 - 32) np n]> (groups h))) g np (l1 ++ m ++ l2).
Proof.
  intros Hg Hm Hsm Hd Hhm Hout ->. destruct (gi_layout _ _ _ _ Hg) as [Ht Hs Hg0 He Hp].
  apply sizes_ok_app in Hs as [Hs1 [Hso Hs2]%sizes_ok_app]. split; simpl.
  - rewrite lookup_insert_eq, !free_bytes_app. do 2 f_equal. lia.
  - pose proof (gi_headers _ _ _ _ Hg) as [Hh1 [_ Hh2]%headers_ok_app]%headers_ok_app.
    apply headers_ok_app. split; [|apply headers_ok_app; split; [done|]].
    + eapply headers_ok_frame; [done|done|]. intros a ? ?. apply Hout. left. lia.
    + rewrite Hm. eapply headers_ok_frame; [done|done|]. intros a ? ?. apply Hout. right. lia.
  - by rewrite !free_addrs_app, Hm.
  - split; [|by rewrite !sizes_ok_app|done..]. rewrite !total_app in *. lia.
Qed.

Section OneNode.
Context (h : heap) (g np : Z) (l1 : list block) (f : bool) (k : Z) (l2 : list block).
Hypothesis Hg : group_inv h g np (l1 ++ (f, k) :: l2).

(** The address of the node, and the free list around it. *)
Definition D : Z := g + SIZEOF_GROUP + total l1.
Definition fa1 : list Z := free_addrs (g + SIZEOF_GROUP) l1.
Definition fa2 : list Z := free_addrs (D + HEADER_SIZE + k) l2.

Lemma node_bounds : 0 <= total l1 /\ 0 <= total l2 /\ 8 <= k /\ D = g + 28 + total l1 /\
  D + 4 + k + total l2 = g + np * 4096 /\ 0 < g /\ g + np * 4096 < 2 ^ 32 /\ 0 < np * 4096 < 2 ^ 31 /\
  np * 4096 < 2 ^ 31.
Proof.
  destruct (lay_node _ _ _ (gi_layout _ _ _ _ Hg) l1 f k l2 eq_refl) as (? & ? & ? & ?).
  destruct (gi_layout _ _ _ _ Hg) as [_ _ Hg0 He Hp]. unfold D, SIZEOF_GROUP in *.
  split_and!; try lia; done.
Qed.

Lemma node_sizes : sizes_ok l1 /\ sizes_ok l2.
Proof.
  pose proof (lay_sizes _ _ _ (gi_layout _ _ _ _ Hg)) as [H1 H2]%sizes_ok_app.
  apply sizes_ok_cons in H2. tauto.
Qed.

Lemma node_list :
  dll (links h) (g + 20) (fa1 ++ (if f then [D + 4] else []) ++ fa2).
Proof.
  pose proof (gi_list _ _ _ _ Hg) as Hd. rewrite free_addrs_app in Hd. simpl in Hd.
  unfold fa1, fa2, D. by destruct f.
Qed.

(** The addresses of the free list lie on either side of the node. *)
Lemma fa1_range a : a ∈ fa1 -> g + 32 <= a /\ a + 8 <= D.
Proof.
  intros Ha. apply free_addrs_range in Ha; [|apply node_sizes]. unfold D, SIZEOF_GROUP in *. lia.
Qed.

Lemma fa2_range a : a ∈ fa2 -> D + 4 + k + 4 <= a /\ a + 8 <= g + np * 4096.
Proof.
  intros Ha. apply free_addrs_range in Ha; [|apply node_sizes].
  pose proof node_bounds. unfold HEADER_SIZE in *. lia.
Qed.

(** Replacing the node by the nodes [m], which take the same bytes. *)
Lemma group_inv_replace m ls hs n :
  total m = 4 + k -> sizes_ok m ->
  dll ls (g + 20) (fa1 ++ free_addrs D m ++ fa2) ->
  headers_ok hs D m ->
  (forall a, a < D \/ D + 4 + k <= a -> hs !! a = headers h !! a) ->
  n = free_bytes l1 + free_bytes m + free_bytes l2 ->
  group_inv (mk_heap ls hs (<[g := mk_group (np * 4096 - 32) np n]> (groups h))) g np (l1 ++ m ++ l2).
Proof.
  intros Hm Hsm Hd Hhm Hout Hn.
  assert (Ht : total [(f, k)] = 4 + k) by (simpl; unfold HEADER_SIZE; lia).
  apply (group_inv_replace_seg h g np l1 [(f, k)] l2 m); rewrite ?Ht; [done|done|done| |done| |done].
  - replace (g + SIZEOF_GROUP + total l1 + (4 + k)) with (g + SIZEOF_GROUP + total l1 + HEADER_SIZE + k)
      by (unfold HEADER_SIZE; lia). exact Hd.
  - intros a Ha. apply Hout. unfold D. lia.
Qed.

End OneNode.

(** ** Overwriting the data of an allocated node *)

Lemma filter_keep {A} (a n w : Z) (m : gmap Z A) k :
  ~ meets a n w k -> filter (fun p => ~ meets a n w p.1) m !! k = m !! k.
Proof.
  intros Hk. destruct (m !! k) as [x|] eqn:E.
  - by apply map_lookup_filter_Some.
  - apply map_lookup_filter_None. by left.
Qed.

Lemma group_inv_drop h g np l1 k l2 n :
  group_inv h g np (l1 ++ (false, k) :: l2) -> 0 <= n <= k ->
  group_inv (drop_objects (D g l1 + 4) n h) g np (l1 ++ (false, k) :: l2) /\
  frame_out g np h (drop_objects (D g l1 + 4) n h).
Proof.
  intros Hg Hn. pose proof (node_bounds _ _ _ _ _ _ _ Hg) as Hb.
  destruct (node_sizes _ _ _ _ _ _ _ Hg) as [Hs1 Hs2]. split.
  - split; simpl.
    + rewrite filter_keep; [apply Hg|]. unfold meets, SIZEOF_GROUP. lia.
    + pose proof (gi_headers _ _ _ _ Hg) as [Hh1 [Hh Hh2]]%headers_ok_app.
      apply headers_ok_app. split; [|split].
      * eapply headers_ok_frame; [done|done|]. intros a ? ?. apply filter_keep.
        unfold meets, HEADER_SIZE, SIZEOF_GROUP in *. lia.
      * rewrite filter_keep; [done|]. unfold meets, D, HEADER_SIZE. lia.
      * eapply headers_ok_frame; [done|done|]. intros a ? ?. apply filter_keep.
        unfold meets, D, HEADER_SIZE, SIZEOF_GROUP in *. lia.
    + pose proof (node_list _ _ _ _ _ _ _ Hg) as Hd. rewrite free_addrs_app. simpl in *.
      fold (D g l1). fold (fa1 g l1). fold (fa2 g l1 k l2). eapply dll_frame; [exact Hd|].
      intros a Ha. apply filter_keep. unfold meets, SIZEOF_LIST_NODE.
      apply elem_of_cons in Ha as [->|[Ha|Ha]%elem_of_app]; [lia| |].
      * apply (fa1_range _ _ _ _ _ _ _ Hg) in Ha. lia.
      * apply (fa2_range _ _ _ _ _ _ _ Hg) in Ha. lia.
    + apply Hg.
  - split; simpl; intros a Ha; apply filter_keep;
      unfold meets, SIZEOF_LIST_NODE, HEADER_SIZE, SIZEOF_GROUP in *; lia.
Qed.

(** ** Allocating in a group *)

(** The nodes a free node of [k] bytes becomes when [sz] bytes are taken. *)
Definition take_block (sz k : Z) : list block :=
  if SIZEOF_NODE <=? k - sz then [(false, sz); (true, k - sz - HEADER_SIZE)] else [(false, k)].

Section Take.
Context (h : heap) (g np : Z) (l1 : list block) (k : Z) (l2 : list block) (sz : Z).
Hypothesis Hg : group_inv h g np (l1 ++ (true, k) :: l2).
Hypothesis Hsz : 8 <= sz <= k.

Abbreviation d := (D g l1).
Abbreviation fb1 := (fa1 g l1).
Abbreviation fb2 := (fa2 g l1 k l2).

(** The group once the node is out of the free list: [ls] are the links,
    unchanged outside the free list. *)
Definition taken_whole (ls : store) : heap :=
  mk_heap ls (<[d := mk_header ALLOCATED k]> (headers h))
    (<[g := mk_group (np * 4096 - 32) np (free_bytes l1 + free_bytes l2)]> (groups h)).

Lemma taken_whole_inv ls :
  dll ls (g + 20) (fb1 ++ fb2) -> touches (g + 20 :: fb1 ++ d + 4 :: fb2) (links h) ls ->
  group_inv (taken_whole ls) g np (l1 ++ (false, k) :: l2) /\ frame_out g np h (taken_whole ls).
Proof.
  intros Hd [Ht _]. pose proof (node_bounds _ _ _ _ _ _ _ Hg) as Hb. split.
  - apply (group_inv_replace _ _ _ _ _ _ _ Hg [(false, k)]); simpl;
      [unfold HEADER_SIZE; lia|by apply sizes_ok_cons; split; [lia|constructor]|done| | |lia].
    + split; [|done]. by rewrite lookup_insert_eq.
    + intros a Ha. by rewrite lookup_insert_ne by lia.
  - apply frame_out_update; [lia| |].
    + intros a Ha. apply Ht. intros [->|[Hin|[->|Hin]%elem_of_cons]%elem_of_app]%elem_of_cons; [lia| |lia|].
      * apply (fa1_range _ _ _ _ _ _ _ Hg) in Hin. lia.
      * apply (fa2_range _ _ _ _ _ _ _ Hg) in Hin. lia.
    + intros a Ha. unfold SIZEOF_GROUP in *. by rewrite lookup_insert_ne by lia.
Qed.

(** The group once the rest of the node is a new free node at [d + 4 + sz]. *)
Definition taken_part (ls : store) : heap :=
  mk_heap ls
    (<[d := mk_header ALLOCATED sz]>
       (<[d + 4 + sz := mk_header FREE (k - sz - 4)]> (<[d := mk_header ALLOCATED k]> (headers h))))
    (<[g := mk_group (np * 4096 - 32) np (free_bytes l1 + (k - sz - 4) + free_bytes l2)]> (groups h)).

Lemma taken_part_inv ls :
  12 <= k - sz ->
  dll ls (g + 20) (fb1 ++ d + 4 + sz + 4 :: fb2) ->
  (forall a, ~ (g + 20 <= a < g + np * 4096) -> ls !! a = links h !! a) ->
  group_inv (taken_part ls) g np (l1 ++ [(false, sz); (true, k - sz - 4)] ++ l2) /\
  frame_out g np h (taken_part ls).
Proof.
  intros Hk Hd Ht. pose proof (node_bounds _ _ _ _ _ _ _ Hg) as Hb. split.
  - apply (group_inv_replace _ _ _ _ _ _ _ Hg [(false, sz); (true, k - sz - 4)]); simpl.
    + unfold HEADER_SIZE. lia.
    + by apply sizes_ok_cons; split; [lia|]; apply sizes_ok_cons; split; [lia|constructor].
    + unfold HEADER_SIZE. exact Hd.
    + split; [by rewrite lookup_insert_eq|]. split; [|done]. unfold HEADER_SIZE.
      by rewrite lookup_insert_ne, lookup_insert_eq by lia.
    + intros a Ha. by rewrite !lookup_insert_ne by lia.
    + lia.
  - apply frame_out_update; [lia|done|].
    intros a Ha. unfold SIZEOF_GROUP in *. by rewrite !lookup_insert_ne by lia.
Qed.

(** The free list without the node. *)
Lemma take_unlink (Q : unit -> store -> Prop) :
  (forall ls, dll ls (g + 20) (fb1 ++ fb2) ->
     touches (g + 20 :: fb1 ++ d + 4 :: fb2) (links h) ls -> Q tt ls) ->
  wp (list_del (d + 4)) Q (links h).
Proof.
  intros HQ. eapply wp_mono; [eapply list_del_wp; apply (node_list _ _ _ _ _ _ _ Hg)|].
  intros [] ls (? & _ & ?). by apply HQ.
Qed.

(** Linking the new node where the old one was. *)
Lemma take_link ls l0 p (Q : unit -> store -> Prop) :
  12 <= k - sz -> g + 20 :: fb1 = l0 ++ [p] ->
  dll ls (g + 20) (fb1 ++ fb2) -> touches (g + 20 :: fb1 ++ d + 4 :: fb2) (links h) ls ->
  (forall ls', dll ls' (g + 20) (fb1 ++ d + 4 + sz + 4 :: fb2) ->
     (forall a, ~ (g + 20 <= a < g + np * 4096) -> ls' !! a = links h !! a) -> Q tt ls') ->
  wp (list_add p (d + 4 + sz + 4)) Q
    (<[d + 4 + sz + 4 := mk_node (d + 4 + sz + 4) (d + 4 + sz + 4)]> ls).
Proof.
  intros Hk Hp Hd [Ht _] HQ. pose proof (node_bounds _ _ _ _ _ _ _ Hg) as Hb.
  assert (Hnew : forall a, a ∈ g + 20 :: fb1 ++ fb2 ->
            a <> d + 4 + sz + 4 /\ a <> d + 4 /\ g + 20 <= a < g + np * 4096).
  { intros a [->|[Ha|Ha]%elem_of_app]%elem_of_cons; [lia| |].
    - apply (fa1_range _ _ _ _ _ _ _ Hg) in Ha. lia.
    - apply (fa2_range _ _ _ _ _ _ _ Hg) in Ha. lia. }
  eapply wp_mono; [eapply (list_add_after _ (g + 20)); [exact Hp| | |]|].
  - eapply dll_frame; [exact Hd|]. intros a Ha. apply Hnew in Ha as (? & _). by rewrite lookup_insert_ne.
  - intros Ha. by apply Hnew in Ha as (? & _).
  - by rewrite lookup_insert_eq.
  - intros [] ls' [Hd' [Hf _]]. apply HQ; [done|]. intros a Ha.
    rewrite Hf; [rewrite lookup_insert_ne by lia; apply Ht|].
    + intros [->|[Hin|[->|Hin]%elem_of_cons]%elem_of_app]%elem_of_cons; [lia| |lia|];
        (assert (Hin' : a ∈ g + 20 :: fb1 ++ fb2) by (rewrite elem_of_cons, elem_of_app; auto);
         apply Hnew in Hin'; lia).
    + intros [->|Hin]%elem_of_cons; [lia|]. apply Hnew in Hin. lia.
Qed.

End Take.

Lemma take_block_alloc sz k :
  exists k' rest, take_block sz k = (false, k') :: rest /\ (sz <= k -> 8 <= sz -> sz <= k').
Proof. unfold take_block. destruct (_ <=? _); eexists _, _; split; try done; intros; lia. Qed.

(** The end of [use_node] when the node is split. *)
Lemma use_node_split h g np l1 k l2 sz ls l0 p :
  group_inv h g np (l1 ++ (true, k) :: l2) -> 8 <= sz -> 12 <= k - sz ->
  g + 20 :: fa1 g l1 = l0 ++ [p] ->
  dll ls (g + 20) (fa1 g l1 ++ fa2 g l1 k l2) ->
  touches (g + 20 :: fa1 g l1 ++ D g l1 + 4 :: fa2 g l1 k l2) (links h) ls ->
  wp (let node := u32 (D g l1 + 4 + sz) in
      wr_header node (mk_header FREE (u31 (k - sz - HEADER_SIZE)));;;
      on_links (list_init (free_node node));;;
      on_links (list_add p (free_node node));;;
      do y <- rd_header node;
      add_free g (hsize y);;;
      ASSERT (k =? u32 (sz + HEADER_SIZE + hsize y)) "dest->header.size";;;
      set_size (D g l1) sz)
    (fun _ h' => group_inv h' g np (l1 ++ [(false, sz); (true, k - sz - 4)] ++ l2) /\ frame_out g np h h')
    (taken_whole h g np l1 k l2 ls).
Proof.
  intros Hg Hsz Hsplit Hp0 Hdl Hto. pose proof (node_bounds _ _ _ _ _ _ _ Hg) as Hb.
  pose proof (free_bytes_bound _ (proj1 (node_sizes _ _ _ _ _ _ _ Hg))) as Hf1.
  pose proof (free_bytes_bound _ (proj2 (node_sizes _ _ _ _ _ _ _ Hg))) as Hf2.
  unfold free_node, HEADER_SIZE. simpl.
  rewrite (u32_id (D g l1 + 4 + sz)), (u32_id (D g l1 + 4 + sz + 4)), u31_id by lia.
  apply wp_bind, wp_modify, wp_bind, wp_on_links, wp_modify, wp_bind, wp_on_links. simpl.
  apply (take_link h g np l1 k l2 sz Hg ltac:(lia) ls l0 p); [done|done|done|done|].
  intros ls' Hd' Ht'. simpl.
  apply wp_bind. eapply wp_rd_header; [simpl; by rewrite lookup_insert_eq|]. simpl.
  apply wp_bind. eapply wp_add_free; [simpl; by rewrite lookup_insert_eq|]. simpl. rewrite insert_insert_eq.
  rewrite (u32_id (free_bytes l1 + free_bytes l2 + (k - sz - 4))) by lia.
  apply wp_bind, wp_assert; [apply Z.eqb_eq; rewrite u32_id; lia|].
  eapply wp_set_size; [simpl; rewrite lookup_insert_ne by lia; by rewrite lookup_insert_eq|]. simpl.
  rewrite u31_id by lia.
  replace (free_bytes l1 + free_bytes l2 + (k - sz - 4))
    with (free_bytes l1 + (k - sz - 4) + free_bytes l2) by lia.
  by apply (taken_part_inv h g np l1 k l2 sz Hg ltac:(lia) ls').
Qed.

Lemma use_node_wp h g np l1 k l2 sz :
  group_inv h g np (l1 ++ (true, k) :: l2) -> 8 <= sz <= k ->
  wp (use_node g (D g l1) sz) (fun r h' =>
    r = D g l1 + 4 /\ group_inv h' g np (l1 ++ take_block sz k ++ l2) /\ frame_out g np h h') h.
Proof.
  intros Hg Hsz. pose proof (node_bounds _ _ _ _ _ _ _ Hg) as Hb.
  pose proof (free_bytes_bound _ (proj1 (node_sizes _ _ _ _ _ _ _ Hg))) as Hf1.
  pose proof (free_bytes_bound _ (proj2 (node_sizes _ _ _ _ _ _ _ Hg))) as Hf2.
  pose proof (lay_header _ _ _ (gi_layout _ _ _ _ Hg) l1 true k l2 (headers h) eq_refl
    (gi_headers _ _ _ _ Hg)) as Hh. fold (D g l1) in *.
  assert (E1 : node_data_start (D g l1) = D g l1 + 4)
    by (unfold node_data_start, HEADER_SIZE; rewrite u32_id; lia).
  assert (E2 : free_node (D g l1) = D g l1 + 4) by exact E1.
  unfold use_node. rewrite E1, E2.
  apply wp_bind. eapply wp_rd_header; [exact Hh|].
  apply wp_bind. eapply wp_add_free; [apply (gi_group _ _ _ _ Hg)|].
  apply wp_bind. eapply wp_set_tag; [exact Hh|]. cbn [hsize gsize num_pages gfree links headers groups].
  pose proof (dll_prev _ _ _ _ _ (node_list _ _ _ _ _ _ _ Hg)) as Hp. unfold prv_is in Hp.
  destruct (links h !! (D g l1 + 4)) as [nd|] eqn:End; [|done]. injection Hp as Hp.
  apply wp_bind, wp_on_links. eapply wp_rd; [exact End|].
  apply wp_bind, wp_on_links. apply (take_unlink _ _ _ _ _ _ Hg). intros ls Hdl Hto.
  rewrite free_bytes_app. cbn [free_bytes].
  replace (free_bytes l1 + (k + free_bytes l2) + - k) with (free_bytes l1 + free_bytes l2) by lia.
  rewrite (u32_id (k - sz)), (u32_id (free_bytes l1 + free_bytes l2)) by lia.
  change (put_links ls _) with (taken_whole h g np l1 k l2 ls).
  unfold take_block. change SIZEOF_NODE with 12. apply wp_bind.
  destruct (Z.leb_spec 12 (k - sz)) as [Hsplit|Hwhole]; simpl when; cbv iota.
  - destruct (split_last (g + 20) (fa1 g l1)) as (l0 & p & Hp0).
    assert (prev nd = p) as ->.
    { rewrite Hp. transitivity (List.last (g + 20 :: fa1 g l1) (g + 20)); [by destruct (fa1 g l1)|].
      by rewrite Hp0, List.last_last. }
    eapply wp_mono; [by eapply use_node_split; [|lia|..]|]. intros [] h' [Hi Hfo].
    apply wp_bind, wp_modify, wp_ret.
    destruct (group_inv_drop _ _ _ l1 sz ((true, k - sz - 4) :: l2) sz Hi ltac:(lia)) as [Hi' Hfo'].
    split_and!; [done|exact Hi'|by eapply frame_out_trans].
  - apply wp_ret, wp_bind, wp_modify, wp_ret.
    destruct (taken_whole_inv h g np l1 k l2 Hg ls Hdl Hto) as [Hi Hfo].
    destruct (group_inv_drop _ _ _ l1 k l2 sz Hi ltac:(lia)) as [Hi' Hfo'].
    split_and!; [done|exact Hi'|by eapply frame_out_trans].
Qed.

(** [kmalloc_in_group]: the first free node that is large enough is taken,
    and split when the rest can hold a node; without one nothing changes. *)
Lemma kmalloc_in_group_wp h g np bs size0 :
  group_inv h g np bs ->
  wp (kmalloc_in_group g size0) (fun r h' =>
    (r = NULL /\ h' = h /\ no_fit (Z.max size0 8) bs) \/
    exists l1 k l2, bs = l1 ++ (true, k) :: l2 /\ Z.max size0 8 <= k /\ r = D g l1 + 4 /\
      group_inv h' g np (l1 ++ take_block (Z.max size0 8) k ++ l2) /\ frame_out g np h h') h.
Proof.
  intros Hg. pose proof (gi_layout _ _ _ _ Hg) as Hl. unfold kmalloc_in_group.
  rewrite (lay_free_head _ _ _ Hl), max_u32_max. change MIN_SIZE with 8.
  apply wp_bind, wp_on_links. eapply wp_mono; [by eapply list_empty_wp, (gi_list _ _ _ _ Hg)|].
  intros e s [-> ->]. replace (put_links (links h) h) with h by (by destruct h).
  case_bool_decide as He.
  { apply wp_ret. left. split_and!; [done|done|]. intros k Hk.
    apply free_addrs_nil_inv in He. by apply (proj1 (Forall_forall _ _) He) in Hk. }
  apply wp_bind. eapply wp_mono; [apply (find_node_in_group_wp h g np bs _ Hg)|].
  intros r h' [-> [[-> Hno]|(l1 & k & l2 & -> & _ & Hk & ->)]].
  { apply wp_ret. by left. }
  fold (D g l1). eapply wp_mono; [apply (use_node_wp h g np l1 k l2 _ Hg); lia|].
  intros r h' (-> & Hi & Hfo). right. by exists l1, k, l2.
Qed.

(** ** Merging free nodes *)

(** Append a free node, merged with the last node when that is free. *)
Definition push (acc : list block) (k : Z) : list block :=
  match rev acc with
  | (true, a) :: r => rev r ++ [(true, a + HEADER_SIZE + k)]
  | _ => acc ++ [(true, k)]
  end.

Definition sweep (acc bs : list block) : list block :=
  foldl (fun acc b => if (b.1 : bool) then push acc b.2 else acc ++ [b]) acc bs.

Lemma push_free m a k : push (m ++ [(true, a)]) k = m ++ [(true, a + HEADER_SIZE + k)].
Proof. unfold push. by rewrite rev_unit, rev_involutive. Qed.

Lemma push_alloc m s k : push (m ++ [(false, s)]) k = m ++ [(false, s); (true, k)].
Proof. unfold push. rewrite rev_unit. by rewrite <- app_assoc. Qed.

(** The last node decides. *)
Lemma push_cases acc k :
  (exists m a, acc = m ++ [(true, a)] /\ push acc k = m ++ [(true, a + HEADER_SIZE + k)]) \/
  ((acc = [] \/ exists m s, acc = m ++ [(false, s)]) /\ push acc k = acc ++ [(true, k)]).
Proof.
  destruct acc as [|[[] s] m _] using rev_ind; [right; split; [by left|done]| |].
  - left. exists m, s. by rewrite push_free.
  - right. split; [right; by exists m, s|]. rewrite push_alloc. by rewrite <- app_assoc.
Qed.

Lemma sweep_allocated acc bs : all_allocated bs -> sweep acc bs = acc ++ bs.
Proof.
  intros H. revert acc. induction H as [|[f k] bs Hf H IH]; intros acc; simpl in *.
  - by rewrite app_nil_r.
  - subst f. unfold sweep in *. simpl. rewrite IH. by rewrite <- app_assoc.
Qed.

Lemma sweep_app acc l1 l2 : sweep acc (l1 ++ l2) = sweep (sweep acc l1) l2.
Proof. unfold sweep. by rewrite foldl_app. Qed.

Lemma sweep_free acc k bs : sweep acc ((true, k) :: bs) = sweep (push acc k) bs.
Proof. done. Qed.

(** What the merging keeps. *)
Lemma push_total acc k : total (push acc k) = total acc + HEADER_SIZE + k.
Proof.
  destruct (push_cases acc k) as [(m & a & -> & ->)|[_ ->]]; rewrite !total_app; simpl; lia.
Qed.

Lemma push_allocs st acc k : allocs st (push acc k) = allocs st acc.
Proof.
  destruct (push_cases acc k) as [(m & a & -> & ->)|[_ ->]]; rewrite !allocs_app; simpl; by rewrite ?app_nil_r.
Qed.

Lemma sweep_allocs st acc bs : allocs st (sweep acc bs) = allocs st acc ++ allocs (st + total acc) bs.
Proof.
  revert acc. induction bs as [|[[] k] bs IH]; intros acc; cbn [allocs].
  - by rewrite app_nil_r.
  - rewrite sweep_free, IH, push_allocs, push_total. simpl. do 2 f_equal. lia.
  - change (sweep acc ((false, k) :: bs)) with (sweep (acc ++ [(false, k)]) bs).
    rewrite IH, allocs_app, total_app, <- app_assoc. simpl. do 3 f_equal. lia.
Qed.

Lemma coalesced_snoc_alloc bs s : coalesced bs -> coalesced (bs ++ [(false, s)]).
Proof.
  induction bs as [|[[] k] [|[[] k'] bs] IH]; simpl in *; try done; intros; by apply IH.
Qed.

Lemma coalesced_snoc_free m s k : coalesced (m ++ [(false, s)]) -> coalesced (m ++ [(false, s); (true, k)]).
Proof.
  induction m as [|[[] a] [|[[] a'] m] IH]; simpl in *; try done; intros; by apply IH.
Qed.

Lemma coalesced_last m a a' : coalesced (m ++ [(true, a)]) -> coalesced (m ++ [(true, a')]).
Proof.
  induction m as [|[[] b] [|[[] b'] m] IH]; simpl in *; try done; intros; by apply IH.
Qed.

Lemma push_coalesced acc k : coalesced acc -> coalesced (push acc k).
Proof.
  intros H. destruct (push_cases acc k) as [(m & a & -> & ->)|[[->|(m & s & ->)] ->]].
  - by eapply coalesced_last.
  - done.
  - rewrite <- app_assoc. by apply coalesced_snoc_free.
Qed.

Lemma sweep_coalesced acc bs : coalesced acc -> coalesced (sweep acc bs).
Proof.
  revert acc. induction bs as [|[[] k] bs IH]; intros acc H; [done| |].
  - rewrite sweep_free. by apply IH, push_coalesced.
  - unfold sweep in *. simpl. by apply IH, coalesced_snoc_alloc.
Qed.

(** ** The neighbours of a free node *)

Section Neighbours.
Context (h : heap) (g np : Z) (l1 : list block) (k : Z) (l2 : list block).
Hypothesis Hg : group_inv h g np (l1 ++ (true, k) :: l2).

Lemma free_node_D : free_node (D g l1) = D g l1 + 4.
Proof. pose proof (node_bounds _ _ _ _ _ _ _ Hg). unfold free_node, HEADER_SIZE. apply u32_id. lia. Qed.

Lemma node_entry_add a : 0 <= a -> a + 4 < 2 ^ 32 -> node_entry (a + 4) = a.
Proof. intros. unfold node_entry, HEADER_SIZE. rewrite u32_id; lia. Qed.

Lemma heap_links_same : put_links (links h) h = h.
Proof. by destruct h. Qed.

Lemma prev_node_wp :
  wp (prev_node (D g l1)) (fun r h' => h' = h /\ r = node_entry (List.last (fa1 g l1) (g + 20))) h.
Proof.
  pose proof (dll_prev _ _ _ _ _ (node_list _ _ _ _ _ _ _ Hg)) as Hp. unfold prv_is in Hp.
  unfold prev_node. rewrite free_node_D. apply wp_bind, wp_on_links.
  destruct (links h !! (D g l1 + 4)) as [nd|] eqn:E; [|done]. injection Hp as Hp.
  eapply wp_rd; [exact E|]. apply wp_ret. by rewrite heap_links_same, Hp.
Qed.

Lemma next_node_wp :
  wp (next_node (D g l1)) (fun r h' => h' = h /\ r = node_entry (hd (g + 20) (fa2 g l1 k l2))) h.
Proof.
  pose proof (dll_next _ _ _ _ _ (node_list _ _ _ _ _ _ _ Hg)) as Hp. unfold nxt_is in Hp.
  unfold next_node. rewrite free_node_D. apply wp_bind, wp_on_links.
  destruct (links h !! (D g l1 + 4)) as [nd|] eqn:E; [|done]. injection Hp as Hp.
  eapply wp_rd; [exact E|]. apply wp_ret. by rewrite heap_links_same, Hp.
Qed.

Lemma first_in_free_list_wp :
  wp (first_in_free_list g (D g l1)) (fun r h' => h' = h /\ r = bool_decide (fa1 g l1 = [])) h.
Proof.
  pose proof (node_bounds _ _ _ _ _ _ _ Hg) as Hb.
  pose proof (dll_head_next _ _ _ (node_list _ _ _ _ _ _ _ Hg)) as Hn. unfold nxt_is in Hn.
  unfold first_in_free_list. rewrite (lay_free_head _ _ _ (gi_layout _ _ _ _ Hg)).
  apply wp_bind, wp_on_links. unfold list_first.
  destruct (links h !! (g + 20)) as [nd|] eqn:E; [|done]. injection Hn as Hn.
  apply wp_bind. eapply wp_rd; [exact E|]. apply wp_ret, wp_ret. split; [apply heap_links_same|].
  rewrite Hn. destruct (fa1 g l1) as [|x l] eqn:Ef; simpl.
  - rewrite node_entry_add by lia. apply Z.eqb_refl.
  - assert (Hx : x ∈ fa1 g l1) by (rewrite Ef; by left).
    apply (fa1_range _ _ _ _ _ _ _ Hg) in Hx. replace x with (x - 4 + 4) by lia.
    rewrite node_entry_add by lia. apply Z.eqb_neq. lia.
Qed.

Lemma last_in_free_list_wp :
  wp (last_in_free_list g (D g l1)) (fun r h' => h' = h /\ r = bool_decide (fa2 g l1 k l2 = [])) h.
Proof.
  pose proof (node_bounds _ _ _ _ _ _ _ Hg) as Hb.
  pose proof (dll_head_prev _ _ _ (node_list _ _ _ _ _ _ _ Hg)) as Hn. unfold prv_is in Hn.
  unfold last_in_free_list. rewrite (lay_free_head _ _ _ (gi_layout _ _ _ _ Hg)).
  apply wp_bind, wp_on_links. unfold list_last.
  destruct (links h !! (g + 20)) as [nd|] eqn:E; [|done]. injection Hn as Hn.
  apply wp_bind. eapply wp_rd; [exact E|]. apply wp_ret, wp_ret. split; [apply heap_links_same|].
  rewrite Hn. simpl. destruct (fa2 g l1 k l2) as [|x l _] eqn:Ef using rev_ind.
  - rewrite List.last_last, node_entry_add by lia. apply Z.eqb_refl.
  - rewrite (app_comm_cons l), app_assoc, List.last_last.
    assert (Hx : x ∈ fa2 g l1 k l2) by (rewrite Ef; apply elem_of_app; right; by left).
    apply (fa2_range _ _ _ _ _ _ _ Hg) in Hx. replace x with (x - 4 + 4) by lia.
    rewrite node_entry_add by lia. rewrite bool_decide_false by (by destruct l).
    apply Z.eqb_neq. lia.
Qed.

End Neighbours.

(** Merging a node into the free node right before it. *)
Lemma merge_update h g np a ka k l2 ls :
  group_inv h g np (a ++ (true, ka) :: (true, k) :: l2) ->
  dll ls (g + 20) (fa1 g (a ++ [(true, ka)]) ++ fa2 g (a ++ [(true, ka)]) k l2) ->
  (forall x, ~ (g + 20 <= x < g + np * 4096) -> ls !! x = links h !! x) ->
  let h' := mk_heap ls (<[D g a := mk_header FREE (ka + k + 4)]> (headers h))
    (<[g := mk_group (np * 4096 - 32) np (free_bytes (a ++ (true, ka) :: (true, k) :: l2) + 4)]> (groups h)) in
  group_inv h' g np (a ++ (true, ka + HEADER_SIZE + k) :: l2) /\ frame_out g np h h'.
Proof.
  intros Hg Hd Hls h'. pose proof (node_bounds _ _ _ _ _ _ _ Hg) as Hb.
  destruct (lay_node _ _ _ (gi_layout _ _ _ _ Hg) (a ++ [(true, ka)]) true k l2
    ltac:(by rewrite <- app_assoc)) as (? & ? & ? & _).
  simpl in Hb. unfold HEADER_SIZE in *. split.
  - apply (group_inv_replace_seg h g np a [(true, ka); (true, k)] l2 [(true, ka + 4 + k)]);
      simpl; unfold HEADER_SIZE.
    + done.
    + lia.
    + apply sizes_ok_cons. split; [lia|constructor].
    + unfold fa1, fa2, D in Hd. rewrite free_addrs_app, total_app in Hd. simpl in Hd.
      unfold HEADER_SIZE in Hd. rewrite <- app_assoc in Hd. simpl in Hd.
      replace (g + SIZEOF_GROUP + total a + (4 + ka + (4 + k + 0)))
        with (g + SIZEOF_GROUP + (total a + (4 + ka + 0)) + 4 + k) by lia. exact Hd.
    + split; [|done]. fold (D g a). rewrite lookup_insert_eq. do 2 f_equal. lia.
    + fold (D g a). intros x Hx. by rewrite lookup_insert_ne by lia.
    + rewrite free_bytes_app. simpl. lia.
  - apply frame_out_update; [lia|done|]. intros x Hx. unfold SIZEOF_GROUP in *.
    by rewrite lookup_insert_ne by lia.
Qed.

Lemma all_allocated_last acc : all_allocated acc -> acc = [] \/ exists m s, acc = m ++ [(false, s)].
Proof.
  destruct acc as [|[f s] m _] using rev_ind; [by left|]. intros [_ H]%Forall_app.
  apply Forall_cons in H as [Hf _]. simpl in Hf. subst f. right. by exists m, s.
Qed.

Lemma push_not_free acc k :
  acc = [] \/ (exists m s, acc = m ++ [(false, s)]) -> push acc k = acc ++ [(true, k)].
Proof. intros [->|(m & s & ->)]; [done|]. rewrite push_alloc. by rewrite <- app_assoc. Qed.

(** The merge itself. *)
Lemma merge_adjacent_wp h g np a ka k l2 :
  group_inv h g np (a ++ (true, ka) :: (true, k) :: l2) ->
  wp (on_links (list_del (free_node (D g (a ++ [(true, ka)]))));;;
      do x <- rd_header (D g a);
      do y <- rd_header (D g (a ++ [(true, ka)]));
      set_size (D g a) (hsize x + hsize y + HEADER_SIZE);;;
      add_free g HEADER_SIZE;;;
      ret (D g a))
    (fun r h' => exists l1' k', push (a ++ [(true, ka)]) k = l1' ++ [(true, k')] /\ r = D g l1' /\
      group_inv h' g np (l1' ++ (true, k') :: l2) /\ frame_out g np h h') h.
Proof.
  intros Hg'. assert (Hg : group_inv h g np ((a ++ [(true, ka)]) ++ (true, k) :: l2))
    by (by rewrite <- app_assoc).
  pose proof (node_bounds _ _ _ _ _ _ _ Hg) as Hb. pose proof (node_bounds _ _ _ _ _ _ _ Hg') as Hba.
  simpl in Hba. unfold HEADER_SIZE in Hba.
  pose proof (lay_header _ _ _ (gi_layout _ _ _ _ Hg') a true ka _ (headers h) eq_refl
    (gi_headers _ _ _ _ Hg')) as Hha. fold (D g a) in Hha.
  pose proof (lay_header _ _ _ (gi_layout _ _ _ _ Hg) _ true k _ (headers h) eq_refl
    (gi_headers _ _ _ _ Hg)) as Hhk. fold (D g (a ++ [(true, ka)])) in Hhk.
  pose proof (free_bytes_bound _ (lay_sizes _ _ _ (gi_layout _ _ _ _ Hg'))) as Hfb.
  pose proof (lay_total _ _ _ (gi_layout _ _ _ _ Hg')) as Htot. unfold SIZEOF_GROUP in Htot.
  rewrite (free_node_D _ _ _ _ _ _ Hg).
  apply wp_bind, wp_on_links. apply (take_unlink _ _ _ _ _ _ Hg). intros ls Hdl [Hto _].
  apply wp_bind. eapply wp_rd_header; [exact Hha|].
  apply wp_bind. eapply wp_rd_header; [exact Hhk|].
  apply wp_bind. eapply wp_set_size; [exact Hha|].
  apply wp_bind. eapply wp_add_free; [apply (gi_group _ _ _ _ Hg')|]. apply wp_ret.
  cbn [hsize tag gsize num_pages gfree tag_of].
  replace (u31 (ka + k + HEADER_SIZE)) with (ka + k + 4) by (unfold HEADER_SIZE; rewrite u31_id; lia).
  rewrite (u32_id (free_bytes _ + HEADER_SIZE)) by (unfold HEADER_SIZE; lia).
  exists a, (ka + HEADER_SIZE + k).
  assert (Hout : forall x, ~ (g + 20 <= x < g + np * 4096) -> ls !! x = links h !! x).
  { intros x Hx. apply Hto. intros [->|[Hin|[->|Hin]%elem_of_cons]%elem_of_app]%elem_of_cons; [lia| |lia|].
    - apply (fa1_range _ _ _ _ _ _ _ Hg) in Hin. lia.
    - apply (fa2_range _ _ _ _ _ _ _ Hg) in Hin. lia. }
  destruct (merge_update h g np a ka k l2 ls Hg' Hdl Hout) as [Hi Hfo].
  split_and!; [apply push_free|done|exact Hi|exact Hfo].
Qed.

Lemma merge_with_prev_wp h g np l1 k l2 :
  group_inv h g np (l1 ++ (true, k) :: l2) ->
  wp (merge_with_prev g (D g l1)) (fun r h' =>
    exists l1' k', push l1 k = l1' ++ [(true, k')] /\ r = D g l1' /\
      group_inv h' g np (l1' ++ (true, k') :: l2) /\ frame_out g np h h') h.
Proof.
  intros Hg. pose proof (node_bounds _ _ _ _ _ _ _ Hg) as Hb. unfold merge_with_prev.
  assert (Hkeep : l1 = [] \/ (exists m s, l1 = m ++ [(false, s)]) ->
    exists l1' k', push l1 k = l1' ++ [(true, k')] /\ D g l1 = D g l1' /\
      group_inv h g np (l1' ++ (true, k') :: l2) /\ frame_out g np h h).
  { intros Hl. exists l1, k. split_and!; [by apply push_not_free|done|done|apply frame_out_refl]. }
  apply wp_bind. eapply wp_mono; [by eapply prev_node_wp|]. intros p h' [-> ->].
  apply wp_bind. eapply wp_mono; [by eapply first_in_free_list_wp|]. intros b h' [-> ->].
  case_bool_decide as Hf.
  { apply wp_ret, Hkeep, all_allocated_last. by eapply free_addrs_nil_inv. }
  destruct (free_addrs_last l1 (g + SIZEOF_GROUP) (g + 20)) as [[Ha _]|(a & ka & b & -> & Hb0 & Hlast)].
  { destruct Hf. by apply free_addrs_allocated. }
  fold (D g a) in Hlast. fold (fa1 g (a ++ (true, ka) :: b)) in Hlast. rewrite Hlast.
  assert (Hg' : group_inv h g np (a ++ (true, ka) :: (b ++ (true, k) :: l2)))
    by (by rewrite <- app_assoc in Hg).
  pose proof (node_bounds _ _ _ _ _ _ _ Hg') as Hba.
  assert (node_entry (D g a + HEADER_SIZE) = D g a) as -> by (apply node_entry_add; lia).
  pose proof (lay_header _ _ _ (gi_layout _ _ _ _ Hg') a true ka _ (headers h) eq_refl
    (gi_headers _ _ _ _ Hg')) as Hh. fold (D g a) in Hh.
  assert (Htb : 0 <= total b /\ D g (a ++ (true, ka) :: b) = D g a + 4 + ka + total b).
  { pose proof (node_sizes _ _ _ _ _ _ _ Hg') as [_ [Hs _]%sizes_ok_app]. split; [by apply total_nonneg|].
    unfold D. rewrite total_app. simpl. unfold HEADER_SIZE. lia. }
  apply wp_bind. unfold can_merge. apply wp_bind. eapply wp_rd_header; [exact Hh|]. apply wp_ret.
  cbn [hsize]. unfold HEADER_SIZE at 1. rewrite u32_id by lia.
  destruct (Z.eqb_spec (D g a + ka + 4) (D g (a ++ (true, ka) :: b))) as [Heq|Hne].
  - assert (b = []) as ->.
    { destruct b as [|[fb kb] b]; [done|]. exfalso.
      pose proof (node_sizes _ _ _ _ _ _ _ Hg') as [_ [[Hkb Hs]%sizes_ok_cons _]%sizes_ok_app].
      pose proof (total_nonneg _ Hs). simpl in Htb. unfold HEADER_SIZE in Htb. lia. }
    apply (merge_adjacent_wp h g np a ka k l2 Hg').
  - apply wp_ret, Hkeep. right. destruct b as [|bb b] using rev_ind.
    { simpl in Htb. lia. }
    apply Forall_app in Hb0 as [_ [Hbb _]%Forall_cons]. destruct bb as [fb kb]. simpl in Hbb. subst fb.
    exists (a ++ (true, ka) :: b), kb. by rewrite <- app_assoc.
Qed.

Lemma fa2_next g l1 k m1 b m2 :
  all_allocated m1 ->
  fa2 g l1 k (m1 ++ (true, b) :: m2) =
  D g (l1 ++ (true, k) :: m1) + 4 :: fa2 g (l1 ++ (true, k) :: m1) b m2.
Proof.
  intros Hm. unfold fa2. rewrite free_addrs_app, (free_addrs_allocated _ _ Hm). simpl.
  assert (E : D g l1 + HEADER_SIZE + k + total m1 = D g (l1 ++ (true, k) :: m1)).
  { unfold D. rewrite total_app. simpl. lia. }
  by rewrite E.
Qed.

(** [merge_free_node] from a free node on merges all neighbouring free nodes
    up to the end of the group. *)
Lemma merge_free_node_wp g np fuel : forall h l1 k l2,
  group_inv h g np (l1 ++ (true, k) :: l2) -> (length (fa2 g l1 k l2) < fuel)%nat ->
  wp (merge_free_node fuel g (D g l1)) (fun _ h' =>
    group_inv h' g np (sweep (push l1 k) l2) /\ frame_out g np h h') h.
Proof.
  induction fuel as [|fuel IH]; intros h l1 k l2 Hg Hfuel; [lia|]. cbn [merge_free_node].
  apply wp_bind. eapply wp_mono; [by eapply merge_with_prev_wp|].
  intros r h1 (l1' & k' & Hpush & -> & Hg1 & Hfo1).
  apply wp_bind. eapply wp_mono; [by eapply last_in_free_list_wp|]. intros b h' [-> ->].
  case_bool_decide as Hl.
  - apply wp_ret. rewrite sweep_allocated by (by eapply free_addrs_nil_inv).
    rewrite Hpush. by rewrite <- app_assoc.
  - destruct (fa2 g l1' k' l2) as [|x rest] eqn:Ef; [done|].
    destruct (free_addrs_cons_inv _ _ _ _ Ef) as (m1 & b & m2 & -> & Hm1 & _ & _).
    assert (Hlen : forall a c, length (fa2 g a c (m1 ++ (true, b) :: m2)) =
              S (length (fa2 g (a ++ (true, c) :: m1) b m2))) by (intros; by rewrite fa2_next).
    apply wp_bind. eapply wp_mono; [by eapply next_node_wp|]. intros r h' [-> ->].
    assert (Hg2 : group_inv h1 g np ((l1' ++ (true, k') :: m1) ++ (true, b) :: m2))
      by (by rewrite <- app_assoc).
    rewrite fa2_next by done. simpl hd.
    pose proof (node_bounds _ _ _ _ _ _ _ Hg2). rewrite node_entry_add by lia.
    eapply wp_mono; [apply IH; [exact Hg2|]|].
    + rewrite Hlen in Hfuel. unfold fa2 in *.
      assert (E : D g (l1 ++ (true, k) :: m1) = D g (l1' ++ (true, k') :: m1)).
      { pose proof (push_total l1 k) as Ht. rewrite Hpush, total_app in Ht. simpl in Ht.
        unfold D. rewrite !total_app. simpl. lia. }
      rewrite E in Hfuel. lia.
    + intros [] h2 [Hi Hfo2]. split; [|by eapply frame_out_trans].
      rewrite sweep_app, (sweep_allocated _ m1), sweep_free, Hpush by done. by rewrite <- app_assoc.
Qed.

(** ** Freeing in a group *)

Section FreeNode.
Context (h : heap) (g np : Z) (l1 : list block) (k : Z) (l2 : list block).
Hypothesis Hg : group_inv h g np (l1 ++ (false, k) :: l2).

(** The loop of [insert_in_free_list] stops at the first free node behind the
    node, or at the head. *)
Lemma insert_position h1 :
  links h1 = links h ->
  wp (for_each_link (g + 20) (fun c x =>
        if c >? D g l1 + 4 then ret (inl c) else ret (inr x)) (g + 20))
    (fun r h' => h' = h1 /\ r = hd (g + 20) (fa2 g l1 k l2)) h1.
Proof.
  intros Hl. pose proof (node_list _ _ _ _ _ _ _ Hg) as Hd. simpl in Hd. rewrite <- Hl in Hd.
  pose proof (node_bounds _ _ _ _ _ _ _ Hg) as Hb.
  unfold for_each_link. apply wp_bind, wp_gets.
  eapply (wp_list_for_each _ _ _ (fun rest acc h' => h' = h1 /\ acc = g + 20 /\
    exists d f, rest = f ++ fa2 g l1 k l2 /\ fa1 g l1 = d ++ f) _ _ (fa1 g l1 ++ fa2 g l1 k l2)).
  - intros x rest acc h' (-> & -> & d & f & Hr & Hf). destruct f as [|y f]; simpl in Hr.
    + assert (Hx : x ∈ fa2 g l1 k l2) by (rewrite <- Hr; by left).
      apply (fa2_range _ _ _ _ _ _ _ Hg) in Hx.
      rewrite Z.gtb_ltb, (proj2 (Z.ltb_lt _ _)) by lia. apply wp_ret. by rewrite <- Hr.
    + injection Hr as <- ->. assert (Hx : x ∈ fa1 g l1) by (rewrite Hf; set_solver).
      apply (fa1_range _ _ _ _ _ _ _ Hg) in Hx.
      rewrite Z.gtb_ltb, (proj2 (Z.ltb_ge _ _)) by lia. apply wp_ret, wp_on_links.
      eapply wp_next_of.
      { rewrite Hf, <- app_assoc in Hd. simpl in Hd. by eapply dll_next. }
      split; [done|]. split_and!; [by destruct h1|done|]. exists (d ++ [x]), f. by rewrite <- app_assoc.
  - intros acc h' (-> & -> & d & f & Hr & _). split; [done|].
    symmetry in Hr. by apply app_eq_nil in Hr as [_ ->].
  - by eapply dll_head_notin.
  - by eapply dll_fuel.
  - apply wp_on_links. eapply wp_next_of; [by eapply dll_head_next|].
    split; [done|]. split_and!; [by destruct h1|done|]. by exists [], (fa1 g l1).
Qed.

(** Linking the node: [ls] are the links with a list node at the data of the
    freed node. *)
Lemma insert_link ls (Q : unit -> store -> Prop) :
  is_Some (ls !! (D g l1 + 4)) -> (forall a, a <> D g l1 + 4 -> ls !! a = links h !! a) ->
  (forall ls', dll ls' (g + 20) (fa1 g l1 ++ D g l1 + 4 :: fa2 g l1 k l2) ->
     (forall a, ~ (g + 20 <= a < g + np * 4096) -> ls' !! a = links h !! a) -> Q tt ls') ->
  wp (list_add_tail (hd (g + 20) (fa2 g l1 k l2)) (D g l1 + 4)) Q ls.
Proof.
  intros Hs Hls HQ. pose proof (node_list _ _ _ _ _ _ _ Hg) as Hd. simpl in Hd.
  pose proof (node_bounds _ _ _ _ _ _ _ Hg) as Hb.
  assert (Hnew : forall a, a ∈ g + 20 :: fa1 g l1 ++ fa2 g l1 k l2 ->
            a <> D g l1 + 4 /\ g + 20 <= a < g + np * 4096).
  { intros a [->|[Ha|Ha]%elem_of_app]%elem_of_cons; [lia| |].
    - apply (fa1_range _ _ _ _ _ _ _ Hg) in Ha. lia.
    - apply (fa2_range _ _ _ _ _ _ _ Hg) in Ha. lia. }
  destruct (split_first (g + 20) (fa2 g l1 k l2)) as (n & l3 & Hn).
  assert (hd (g + 20) (fa2 g l1 k l2) = n) as -> by (destruct (fa2 g l1 k l2); simpl in *; congruence).
  eapply wp_mono; [eapply (list_add_before _ (g + 20)); [exact Hn| | |exact Hs]|].
  - eapply dll_frame; [exact Hd|]. intros a Ha. apply Hls. by apply Hnew in Ha as [? _].
  - intros Ha. by apply Hnew in Ha as [? _].
  - intros [] ls' [Hd' [Hf _]]. apply HQ; [done|]. intros a Ha.
    rewrite Hf; [apply Hls; lia|]. intros [->|Hin]%elem_of_cons; [lia|]. apply Hnew in Hin. lia.
Qed.

(** The group with the node in the free list, before the merging. *)
Lemma inserted_inv ls :
  dll ls (g + 20) (fa1 g l1 ++ D g l1 + 4 :: fa2 g l1 k l2) ->
  (forall a, ~ (g + 20 <= a < g + np * 4096) -> ls !! a = links h !! a) ->
  let h' := mk_heap ls (<[D g l1 := mk_header FREE k]> (headers h))
    (<[g := mk_group (np * 4096 - 32) np (free_bytes (l1 ++ (false, k) :: l2) + k)]> (groups h)) in
  group_inv h' g np (l1 ++ (true, k) :: l2) /\ frame_out g np h h'.
Proof.
  intros Hd Hls h'. pose proof (node_bounds _ _ _ _ _ _ _ Hg) as Hb. split.
  - apply (group_inv_replace _ _ _ _ _ _ _ Hg [(true, k)]); simpl.
    + unfold HEADER_SIZE. lia.
    + apply sizes_ok_cons. split; [lia|constructor].
    + exact Hd.
    + split; [|done]. by rewrite lookup_insert_eq.
    + intros a Ha. by rewrite lookup_insert_ne by lia.
    + rewrite free_bytes_app. simpl. lia.
  - apply frame_out_update; [lia|done|]. intros a Ha. unfold SIZEOF_GROUP in *.
    by rewrite lookup_insert_ne by lia.
Qed.

End FreeNode.

Lemma insert_in_free_list_wp junk h g np l1 k l2 :
  group_inv h g np (l1 ++ (false, k) :: l2) ->
  wp (insert_in_free_list junk g (D g l1)) (fun _ h' =>
    group_inv h' g np (sweep (push l1 k) l2) /\ frame_out g np h h') h.
Proof.
  intros Hg. pose proof (node_bounds _ _ _ _ _ _ _ Hg) as Hb.
  pose proof (lay_header _ _ _ (gi_layout _ _ _ _ Hg) l1 false k l2 (headers h) eq_refl
    (gi_headers _ _ _ _ Hg)) as Hh. fold (D g l1) in Hh.
  pose proof (free_bytes_bound _ (proj1 (node_sizes _ _ _ _ _ _ _ Hg))) as Hf1.
  pose proof (free_bytes_bound _ (proj2 (node_sizes _ _ _ _ _ _ _ Hg))) as Hf2.
  assert (Hfb : 0 <= free_bytes (l1 ++ (false, k) :: l2) + k < 2 ^ 32)
    by (rewrite free_bytes_app; simpl; lia).
  assert (E : free_node (D g l1) = D g l1 + 4) by (unfold free_node, HEADER_SIZE; rewrite u32_id; lia).
  unfold insert_in_free_list. rewrite (lay_free_head _ _ _ (gi_layout _ _ _ _ Hg)), E.
  apply wp_bind. eapply wp_set_tag; [exact Hh|].
  apply wp_bind. eapply wp_rd_header; [apply lookup_insert_eq|].
  apply wp_bind. eapply wp_add_free; [apply (gi_group _ _ _ _ Hg)|].
  cbn [hsize gsize num_pages gfree links headers groups]. rewrite u32_id by done.
  apply wp_bind. eapply wp_mono; [by apply (insert_position h g np l1 k l2 Hg)|].
  intros r h' [-> ->]. unfold as_list_node. rewrite E.
  apply wp_bind, wp_modify, wp_bind, wp_on_links. cbn [links put_links headers groups].
  apply (insert_link h g np l1 k l2 Hg).
  { destruct (links h !! (D g l1 + 4)) eqn:El; [by rewrite El|by rewrite lookup_insert_eq]. }
  { intros a Ha. destruct (links h !! (D g l1 + 4)); [done|]. by rewrite lookup_insert_ne by congruence. }
  intros ls' Hd' Hls'. cbn [links put_links headers groups].
  destruct (inserted_inv h g np l1 k l2 Hg ls' Hd' Hls') as [Hi Hfo].
  apply wp_bind, wp_gets. eapply wp_mono; [apply merge_free_node_wp; [exact Hi|]|].
  - simpl. apply dll_fuel in Hd'. rewrite length_app in Hd'. simpl in Hd'. lia.
  - intros [] h' [Hi' Hfo']. split; [done|]. by eapply frame_out_trans.
Qed.

(** The addresses of the allocations of a group are the data of its allocated
    nodes. *)
Lemma allocs_inv st bs a sz :
  (a, sz) ∈ allocs st bs ->
  exists l1 l2, bs = l1 ++ (false, sz) :: l2 /\ a = st + total l1 + HEADER_SIZE.
Proof.
  revert st. induction bs as [|[f k] bs IH]; intros st Ha; simpl in Ha; [by apply not_elem_of_nil in Ha|].
  apply elem_of_app in Ha as [Ha|Ha].
  - destruct f; [by apply not_elem_of_nil in Ha|]. apply list_elem_of_singleton in Ha. simplify_eq.
    exists [], bs. simpl. split; [done|lia].
  - destruct (IH _ Ha) as (l1 & l2 & -> & ->). exists ((f, k) :: l1), l2. simpl. split; [done|lia].
Qed.

(** [kfree_in_group]: the block becomes free and is merged with its free
    neighbours. *)
Lemma kfree_in_group_wp junk h g np l1 k l2 :
  group_inv h g np (l1 ++ (false, k) :: l2) ->
  wp (kfree_in_group junk g (D g l1 + 4)) (fun _ h' =>
    group_inv h' g np (sweep (push l1 k) l2) /\ frame_out g np h h') h.
Proof.
  intros Hg. pose proof (node_bounds _ _ _ _ _ _ _ Hg) as Hb. unfold kfree_in_group, addr_in_group.
  pose proof (lay_header _ _ _ (gi_layout _ _ _ _ Hg) l1 false k l2 (headers h) eq_refl
    (gi_headers _ _ _ _ Hg)) as Hh. fold (D g l1) in Hh.
  apply wp_bind, wp_bind. eapply wp_rd_group; [apply (gi_group _ _ _ _ Hg)|]. apply wp_ret.
  cbn [num_pages]. unfold PAGE_SIZE. rewrite (u32_id (np * 4096)), u32_id by lia.
  apply wp_bind, wp_assert; [lia|].
  assert (node_for_addr (D g l1 + 4) = D g l1) as -> by (unfold node_for_addr, HEADER_SIZE; rewrite u32_id; lia).
  apply wp_bind. eapply wp_rd_header; [exact Hh|]. apply wp_bind, wp_assert; [done|].
  by apply insert_in_free_list_wp.
Qed.

(** ** Empty groups *)

Fixpoint alloc_bytes (bs : list block) : Z :=
  match bs with
  | [] => 0
  | (f, k) :: bs' => (if (f : bool) then 0 else k) + alloc_bytes bs'
  end.

Lemma total_parts bs : total bs = free_bytes bs + alloc_bytes bs + 4 * Z.of_nat (length bs).
Proof.
  induction bs as [|[f k] bs IH]; simpl; [done|]. unfold HEADER_SIZE. destruct f; lia.
Qed.

Lemma alloc_bytes_pos st bs : sizes_ok bs -> 0 <= alloc_bytes bs /\ (allocs st bs <> [] -> 0 < alloc_bytes bs).
Proof.
  revert st. induction bs as [|[f k] bs IH]; intros st Hs; simpl; [done|].
  apply sizes_ok_cons in Hs as [Hk Hs]. specialize (IH (st + HEADER_SIZE + k) Hs).
  destruct f; simpl; [split; [lia|]; intros H; apply IH in H; lia|]. split; [lia|]. intros _. lia.
Qed.

(** A group without allocations is one free node. *)
Lemma allocs_nil_single st bs :
  coalesced bs -> allocs st bs = [] -> bs = [] \/ exists k, bs = [(true, k)].
Proof.
  destruct bs as [|[[] k] [|[[] k'] bs]]; simpl; try done; [by left|]. right. by exists k.
Qed.

Lemma group_is_empty_wp h g np bs :
  group_inv h g np bs -> coalesced bs ->
  wp (group_is_empty g)
    (fun r h' => h' = h /\ r = bool_decide (allocs (g + SIZEOF_GROUP) bs = [])) h.
Proof.
  intros Hg Hc. unfold group_is_empty. apply wp_bind. eapply wp_rd_group; [apply (gi_group _ _ _ _ Hg)|].
  apply wp_ret. split; [done|]. cbn [gsize gfree]. destruct (gi_layout _ _ _ _ Hg) as [Ht Hs _ _ _].
  unfold SIZEOF_GROUP in Ht. rewrite (total_parts bs) in Ht.
  pose proof (alloc_bytes_pos (g + SIZEOF_GROUP) bs Hs) as [Ha0 Ha].
  case_bool_decide as He.
  - destruct (allocs_nil_single _ _ Hc He) as [->|[k ->]]; simpl in Ht |- *; [|lia].
    apply Z.eqb_eq. destruct (gi_layout _ _ _ _ Hg) as [_ _ _ _ Hp]. lia.
  - apply Ha in He. apply Z.eqb_neq.
    assert (bs <> []) by (intros ->; simpl in He; lia).
    assert (0 < length bs)%nat by (destruct bs; simpl; [done|lia]). lia.
Qed.
