(* ===== verification/KmallocSpec.v ===== *)
(** * The promises of [kmalloc] and [kfree]

    The interface [PageLaws] says what the allocator relies on: the frame
    allocator and the paging code hand out frames and page-aligned regions of
    unused kernel pages.  On top of it, the invariant [heap_inv] of the whole
    heap (the list of groups, the groups on disjoint pages, no two free
    neighbours, no empty group) and the specifications of the operations in
    terms of the list [live] of the blocks in use.

    The model is sequential: between the unlock and the lock of [do_kmalloc]
    and [do_kfree] nothing else runs, so the second [try_allocation] of
    [do_kmalloc] sees the same groups.  Its specification below is nevertheless
    proved for both outcomes of that call. *)

From S2P Require Import Prelude Math DList Spinlock ErrorCodes Kmalloc KmallocGroup.

(** ** Pages *)

(** The numbers of the [n] pages at the address [a]. *)
Definition page_set (a n : Z) : gset Z := list_to_set (range (a / 4096) (a / 4096 + n)).

Lemma elem_of_page_set x a n : x ∈ page_set a n <-> a / 4096 <= x < a / 4096 + n.
Proof. unfold page_set. by rewrite elem_of_list_to_set, elem_of_range. Qed.

Lemma page_set_addr a n x : a mod 4096 = 0 -> x / 4096 ∈ page_set a n <-> a <= x < a + n * 4096.
Proof. intros Ha. rewrite elem_of_page_set. Z.to_euclidean_division_equations; lia. Qed.

Lemma pages_apart a n b m :
  a mod 4096 = 0 -> b mod 4096 = 0 -> 0 < n -> 0 < m -> page_set a n ## page_set b m ->
  a + n * 4096 <= b \/ b + m * 4096 <= a.
Proof.
  intros Ha Hb Hn Hm Hd. destruct (Z.le_gt_cases (a + n * 4096) b); [by left|].
  destruct (Z.le_gt_cases (b + m * 4096) a); [by right|]. exfalso.
  apply (Hd (Z.max a b / 4096)); apply page_set_addr; lia.
Qed.

(** ** What the allocator relies on

    [pp_frames] are the frames that are allocated and not mapped, [pp_pages]
    the numbers of the kernel pages in use. *)
Class PageLaws (P : Type) `{PageProvider P} := {
  pp_ok : P -> Prop;
  pp_frames : P -> gset Z;
  pp_pages : P -> gset Z;
  pp_alloc_frame_law p : pp_ok p ->
    wp pp_alloc_frame (fun r p' => pp_ok p' /\ pp_pages p' = pp_pages p /\
      (r = NO_FRAME /\ pp_frames p' = pp_frames p \/
       r <> NO_FRAME /\ (r ∉ pp_frames p) /\ pp_frames p' = {[r]} ∪ pp_frames p)) p;
  pp_free_frame_law p f : pp_ok p -> f ∈ pp_frames p ->
    wp (pp_free_frame f) (fun _ p' => pp_ok p' /\ pp_pages p' = pp_pages p /\
      pp_frames p' = pp_frames p ∖ {[f]}) p;
  pp_map_law p fs : pp_ok p -> NoDup fs -> fs <> [] -> list_to_set fs ⊆ pp_frames p ->
    wp (pp_map_frames_above KERNEL_PHY_OFFSET fs VM_WRITE) (fun r p' => pp_ok p' /\
      (r = NO_REGION /\ pp_pages p' = pp_pages p /\ pp_frames p' = pp_frames p \/
       KERNEL_PHY_OFFSET <= r /\ r mod 4096 = 0 /\ r + Z.of_nat (length fs) * 4096 < 2 ^ 32 /\
       page_set r (Z.of_nat (length fs)) ## pp_pages p /\
       pp_pages p' = pp_pages p ∪ page_set r (Z.of_nat (length fs)) /\
       pp_frames p' = pp_frames p ∖ list_to_set fs)) p;
  pp_unmap_law p a n : pp_ok p -> KERNEL_PHY_OFFSET <= a -> a mod 4096 = 0 -> 0 < n ->
    a + n * 4096 < 2 ^ 32 -> page_set a n ⊆ pp_pages p ->
    wp (pp_unmap_and_free_frames a (n * 4096)) (fun _ p' => pp_ok p' /\
      pp_pages p' = pp_pages p ∖ page_set a n /\ pp_frames p' = pp_frames p) p;
  pp_curr_law p : pp_ok p -> wp pp_curr_addr_space (fun _ p' => p' = p) p;
  pp_kernel_law p : pp_ok p -> wp pp_kernel_addr_space (fun _ p' => p' = p) p;
  pp_switch_law p a : pp_ok p ->
    wp (pp_switch_to_addr_space a) (fun _ p' => pp_ok p' /\ pp_pages p' = pp_pages p /\
      pp_frames p' = pp_frames p) p }.

(** ** The groups of the heap *)

Record grp := mk_grp { g_addr : Z; g_np : Z; g_bs : list block }.

#[export] Instance grp_eq_dec : EqDecision grp.
Proof. solve_decision. Defined.

Definition grp_pages (x : grp) : gset Z := page_set (g_addr x) (g_np x).
Definition grp_live (x : grp) : list (Z * Z) := allocs (g_addr x + SIZEOF_GROUP) (g_bs x).
Definition live (gs : list grp) : list (Z * Z) := gs ≫= grp_live.
Definition all_pages (gs : list grp) : gset Z := ⋃ (grp_pages <$> gs).
Definition nodes (gs : list grp) : list Z := (fun x => g_addr x + 12) <$> gs.

(** A group that is well formed and apart from the others. *)
Record grp_ok (h : heap) (x : grp) : Prop := {
  go_inv : group_inv h (g_addr x) (g_np x) (g_bs x);
  go_kernel : KERNEL_PHY_OFFSET <= g_addr x;
  go_aligned : g_addr x mod 4096 = 0;
  go_coalesced : coalesced (g_bs x) }.

Definition apart (a n b m : Z) : Prop := a + n <= b \/ b + m <= a.
Definition grp_apart (x y : grp) : Prop :=
  apart (g_addr x) (g_np x * 4096) (g_addr y) (g_np y * 4096).

(** The list head [gl] is outside of every group. *)
Record heap_inv (gl : Z) (h : heap) (gs : list grp) : Prop := {
  hi_list : dll (links h) gl (nodes gs);
  hi_groups : Forall (grp_ok h) gs;
  hi_apart : ForallOrdPairs grp_apart gs;
  hi_head : Forall (fun x => apart gl 8 (g_addr x) (g_np x * 4096)) gs }.

Definition used (x : grp) : Prop := grp_live x <> [].

(** ** Framing *)

(** The objects in the [n] bytes at [a] are the same in both heaps. *)
Record same_in (a n : Z) (h h' : heap) : Prop := {
  si_links : forall k, a <= k -> k + 8 <= a + n -> links h' !! k = links h !! k;
  si_headers : forall k, a <= k -> k + 4 <= a + n -> headers h' !! k = headers h !! k;
  si_groups : forall k, a <= k -> k + 28 <= a + n -> groups h' !! k = groups h !! k }.

Lemma same_in_trans a n h1 h2 h3 : same_in a n h1 h2 -> same_in a n h2 h3 -> same_in a n h1 h3.
Proof.
  intros H1 H2. split; intros k ? ?.
  - rewrite (si_links _ _ _ _ H2) by done. by apply H1.
  - rewrite (si_headers _ _ _ _ H2) by done. by apply H1.
  - rewrite (si_groups _ _ _ _ H2) by done. by apply H1.
Qed.

Lemma same_in_frame a n g np h h' :
  apart a n g (np * 4096) -> frame_out g np h h' -> same_in a n h h'.
Proof.
  intros Ha Hf. unfold apart in Ha. split; intros k ? ?; apply Hf; unfold SIZEOF_GROUP; lia.
Qed.

Lemma same_in_drop a n b m h : apart a n b m -> same_in a n h (drop_objects b m h).
Proof.
  intros Ha. unfold apart in Ha.
  split; intros k ? ?; simpl; apply filter_keep; unfold meets, SIZEOF_LIST_NODE, HEADER_SIZE, SIZEOF_GROUP; lia.
Qed.

Lemma same_in_links a n h ls :
  (forall k, a <= k -> k + 8 <= a + n -> ls !! k = links h !! k) -> same_in a n h (put_links ls h).
Proof. by split. Qed.

Lemma grp_bounds h x :
  grp_ok h x -> 0xC0000000 <= g_addr x /\ g_addr x + g_np x * 4096 < 2 ^ 32 /\ 0 < g_np x /\
    0 < g_np x * 4096 < 2 ^ 31 /\ total (g_bs x) = g_np x * 4096 - 28 /\ sizes_ok (g_bs x).
Proof.
  intros [Hg Hk Ha Hc]. destruct (gi_layout _ _ _ _ Hg) as [Ht Hs H0 He Hp].
  unfold KERNEL_PHY_OFFSET, SIZEOF_GROUP in *. split_and!; try lia; done.
Qed.

Lemma group_inv_same_from h h' g np bs lo :
  group_inv h g np bs -> lo = 20 ->
  (forall k, g + lo <= k -> k + 8 <= g + np * 4096 -> links h' !! k = links h !! k) ->
  (forall k, g <= k -> k + 4 <= g + np * 4096 -> headers h' !! k = headers h !! k) ->
  groups h' !! g = groups h !! g -> group_inv h' g np bs.
Proof.
  intros Hg -> Hl Hh Hgr. destruct (gi_layout _ _ _ _ Hg) as [Ht Hs H0 He Hp].
  unfold SIZEOF_GROUP in Ht. pose proof (total_nonneg _ Hs). split; [| | |apply Hg].
  - rewrite Hgr. apply Hg.
  - eapply headers_ok_frame; [done|apply Hg|]. unfold SIZEOF_GROUP. intros a ? ?. apply Hh; lia.
  - eapply dll_frame; [apply Hg|]. intros a [->|Ha]%elem_of_cons; [apply Hl; lia|].
    apply free_addrs_range in Ha; [|done]. unfold SIZEOF_GROUP in Ha. apply Hl; lia.
Qed.

Lemma grp_ok_same h h' x :
  grp_ok h x -> same_in (g_addr x) (g_np x * 4096) h h' -> grp_ok h' x.
Proof.
  intros Hx Hs. pose proof (grp_bounds _ _ Hx) as Hb. destruct Hx as [Hg Hk Ha Hc]. split; [|done..].
  eapply (group_inv_same_from h h' _ _ _ 20); [done|done|..].
  - intros. apply Hs; lia.
  - intros. apply Hs; lia.
  - apply Hs; lia.
Qed.

(** Changes to the links outside the free lists keep the groups. *)
Lemma grp_ok_links h ls x :
  grp_ok h x -> (forall k, g_addr x + 20 <= k < g_addr x + g_np x * 4096 -> ls !! k = links h !! k) ->
  grp_ok (put_links ls h) x.
Proof.
  intros Hx Hs. destruct Hx as [Hg Hk Ha Hc]. split; [|done..].
  eapply (group_inv_same_from h _ _ _ _ 20); [done|done| |done|done]. intros. apply Hs. lia.
Qed.

Lemma apart_sym a n b m : apart a n b m -> apart b m a n.
Proof. unfold apart. lia. Qed.

(** ** Lists of groups *)

Lemma fop_split {A} (R : A -> A -> Prop) l1 x l2 :
  (forall a b, R a b -> R b a) ->
  ForallOrdPairs R (l1 ++ x :: l2) <-> ForallOrdPairs R (l1 ++ l2) /\ Forall (R x) (l1 ++ l2).
Proof.
  intros Hsym. induction l1 as [|a l1 IH]; simpl.
  - split; [intros H; by inversion H|]. intros []. by constructor.
  - split.
    + intros H. inversion H as [|? ? Ha Hr]; subst. apply IH in Hr as [Hr Hx].
      apply Forall_app in Ha as [Ha1 [Hax Ha2]%Forall_cons].
      split; constructor; [by apply Forall_app|done|by apply Hsym|done].
    + intros [H [Hx Hxs]%Forall_cons]. inversion H as [|? ? Ha Hr]; subst.
      constructor; [|by apply IH]. apply Forall_app in Ha as [Ha1 Ha2].
      apply Forall_app. split; [done|]. constructor; [by apply Hsym|done].
Qed.

Lemma grp_apart_sym x y : grp_apart x y -> grp_apart y x.
Proof. apply apart_sym. Qed.

Lemma live_split l1 x l2 : live (l1 ++ x :: l2) ≡ₚ grp_live x ++ live (l1 ++ l2).
Proof.
  unfold live. rewrite !bind_app, bind_cons. rewrite !app_assoc. apply Permutation_app_tail, Permutation_app_comm.
Qed.

Lemma nodes_app l1 l2 : nodes (l1 ++ l2) = nodes l1 ++ nodes l2.
Proof. apply fmap_app. Qed.

Lemma nodes_elem a gs : a ∈ nodes gs <-> exists x, a = g_addr x + 12 /\ x ∈ gs.
Proof. apply list_elem_of_fmap. Qed.

Lemma all_pages_split l1 x l2 : all_pages (l1 ++ x :: l2) = grp_pages x ∪ all_pages (l1 ++ l2).
Proof.
  unfold all_pages. rewrite !fmap_app, fmap_cons, !union_list_app_L. simpl. set_solver.
Qed.

(** The addresses and sizes of the groups. *)
Definition geo (gs : list grp) : list (Z * Z) := (fun x => (g_addr x, g_np x)) <$> gs.

Lemma all_pages_geo gs gs' : geo gs = geo gs' -> all_pages gs = all_pages gs'.
Proof.
  intros H. unfold all_pages.
  assert (forall l, grp_pages <$> l = (fun p => page_set p.1 p.2) <$> geo l) as E
    by (intros l; unfold geo; by rewrite <- list_fmap_compose).
  by rewrite !E, H.
Qed.

Lemma Forall_geo (Q : Z -> Z -> Prop) gs gs' :
  geo gs' = geo gs -> Forall (fun x => Q (g_addr x) (g_np x * 4096)) gs ->
  Forall (fun x => Q (g_addr x) (g_np x * 4096)) gs'.
Proof.
  intros E H. change (Forall ((fun p => Q p.1 (p.2 * 4096)) ∘ (fun x => (g_addr x, g_np x))) gs').
  apply Forall_fmap. fold (geo gs'). rewrite E. apply Forall_fmap. exact H.
Qed.

Section HeapInv.
Context (gl : Z) (h : heap) (l1 : list grp) (x : grp) (l2 : list grp).
Hypothesis Hinv : heap_inv gl h (l1 ++ x :: l2).

Lemma heap_inv_x : grp_ok h x /\ apart gl 8 (g_addr x) (g_np x * 4096).
Proof.
  destruct Hinv as [_ Hg _ Hh]. rewrite !Forall_app, !Forall_cons in *. tauto.
Qed.

Lemma heap_inv_rest :
  Forall (grp_ok h) (l1 ++ l2) /\ ForallOrdPairs grp_apart (l1 ++ l2) /\
  Forall (grp_apart x) (l1 ++ l2) /\
  Forall (fun x => apart gl 8 (g_addr x) (g_np x * 4096)) (l1 ++ l2).
Proof.
  destruct Hinv as [_ Hg Ha Hh]. apply fop_split in Ha as [Ha Hx]; [|apply grp_apart_sym].
  rewrite !Forall_app, !Forall_cons in *. tauto.
Qed.

(** The list of groups is apart from the free lists and nodes of [x]. *)
Lemma list_frame h' :
  (forall a, ~ (g_addr x + 20 <= a < g_addr x + g_np x * 4096) -> links h' !! a = links h !! a) ->
  dll (links h') gl (nodes (l1 ++ x :: l2)).
Proof.
  intros Hf. destruct heap_inv_x as (Hx & Hgl). destruct heap_inv_rest as (Hg & _ & Ha & _).
  eapply dll_frame; [apply Hinv|]. pose proof (grp_bounds _ _ Hx) as Hb.
  intros a [->|(y & -> & Hy)%nodes_elem]%elem_of_cons; apply Hf.
  - unfold apart in Hgl. lia.
  - destruct (decide (y = x)) as [->|Hne]; [lia|].
    assert (Hy' : y ∈ l1 ++ l2) by (set_solver).
    pose proof (grp_bounds _ _ (proj1 (Forall_forall _ _) Hg _ Hy')).
    pose proof (proj1 (Forall_forall _ _) Ha _ Hy') as Hd. unfold grp_apart, apart in Hd. lia.
Qed.

Lemma rest_frame h' :
  frame_out (g_addr x) (g_np x) h h' -> Forall (grp_ok h') (l1 ++ l2).
Proof.
  intros Hf. destruct heap_inv_rest as (Hg & _ & Ha & _). rewrite Forall_forall in *.
  intros y Hy. eapply grp_ok_same; [by apply Hg|]. eapply same_in_frame; [|done].
  apply apart_sym, Ha, Hy.
Qed.

(** The group [x] changes in its place. *)
Lemma heap_inv_change h' bs' :
  let x' := mk_grp (g_addr x) (g_np x) bs' in
  grp_ok h' x' -> frame_out (g_addr x) (g_np x) h h' -> heap_inv gl h' (l1 ++ x' :: l2).
Proof.
  intros x' Hx' Hf. pose proof (rest_frame _ Hf) as Hr. destruct heap_inv_x as (_ & Hgl).
  destruct heap_inv_rest as (_ & Hap & Hax & Hah). split.
  - unfold nodes. rewrite fmap_app, fmap_cons. pose proof (list_frame _ (fo_links _ _ _ _ Hf)) as Hd.
    unfold nodes in Hd. rewrite fmap_app, fmap_cons in Hd. exact Hd.
  - rewrite Forall_app in Hr |- *. rewrite Forall_cons. tauto.
  - apply fop_split; [apply grp_apart_sym|]. done.
  - rewrite Forall_app in Hah |- *. rewrite Forall_cons. tauto.
Qed.

Lemma geo_change bs' : geo (l1 ++ mk_grp (g_addr x) (g_np x) bs' :: l2) = geo (l1 ++ x :: l2).
Proof. unfold geo. by rewrite !fmap_app, !fmap_cons. Qed.

End HeapInv.

(** ** Coalesced nodes *)

Lemma coalesced_app l1 l2 : coalesced (l1 ++ l2) -> coalesced l1 /\ coalesced l2.
Proof.
  induction l1 as [|[[] k] l1 IH]; simpl; [done| |].
  - destruct l1 as [|[[] k'] l1]; simpl in *; [|done|].
    + destruct l2 as [|[[] ?] l2]; done.
    + apply IH.
  - apply IH.
Qed.

Lemma coalesced_alloc l1 s l2 : coalesced l1 -> coalesced l2 -> coalesced (l1 ++ (false, s) :: l2).
Proof.
  induction l1 as [|[[] k] l1 IH]; intros H1 H2; simpl; [done| |].
  - destruct l1 as [|[[] k'] l1]; simpl in *; [done|done|]. by apply IH.
  - by apply IH.
Qed.

Lemma coalesced_take l1 sz k l2 :
  coalesced (l1 ++ (true, k) :: l2) -> coalesced (l1 ++ take_block sz k ++ l2).
Proof.
  intros [H1 H2]%coalesced_app. unfold take_block.
  assert (coalesced l2) by (destruct l2 as [|[[] ?] ?]; done).
  destruct (SIZEOF_NODE <=? k - sz); simpl; apply coalesced_alloc; [done| |done|done].
  by destruct l2 as [|[[] ?] ?].
Qed.

(** ** One group *)

Lemma take_live g l1 sz k l2 :
  exists n, Z.min sz k <= n /\
    allocs (g + SIZEOF_GROUP) (l1 ++ take_block sz k ++ l2) ≡ₚ
    (D g l1 + 4, n) :: allocs (g + SIZEOF_GROUP) (l1 ++ (true, k) :: l2).
Proof.
  unfold take_block, D. rewrite !allocs_app. change HEADER_SIZE with 4.
  destruct (SIZEOF_NODE <=? k - sz); simpl; rewrite ?app_nil_r.
  - exists sz. split; [lia|]. rewrite Permutation_middle. do 2 f_equiv.
    apply reflexive_eq. f_equal. unfold HEADER_SIZE. lia.
  - exists k. split; [lia|]. rewrite Permutation_middle. do 2 f_equiv.
    apply reflexive_eq. f_equal. unfold HEADER_SIZE. lia.
Qed.

(** [kmalloc_in_group]: a new block, or nothing changes. *)
Lemma kmalloc_in_grp_wp h x size :
  grp_ok h x ->
  wp (kmalloc_in_group (g_addr x) size) (fun r h' =>
    (r = NULL /\ h' = h /\ no_fit (Z.max size 8) (g_bs x)) \/
    exists bs' n, let x' := mk_grp (g_addr x) (g_np x) bs' in
      grp_ok h' x' /\ frame_out (g_addr x) (g_np x) h h' /\ r <> NULL /\
      Z.max size 8 <= n /\ grp_live x' ≡ₚ (r, n) :: grp_live x) h.
Proof.
  intros Hx. pose proof (grp_bounds _ _ Hx) as Hb.
  eapply wp_mono; [apply kmalloc_in_group_wp, Hx|].
  intros r h' [?|(l1 & k & l2 & Hbs & Hk & -> & Hg & Hf)]; [by left|right].
  destruct (take_live (g_addr x) l1 (Z.max size 8) k l2) as (n & Hn & Hp).
  exists (l1 ++ take_block (Z.max size 8) k ++ l2), n. split_and!.
  - split; simpl; [done|apply Hx|apply Hx|]. apply coalesced_take. rewrite <- Hbs. apply Hx.
  - done.
  - pose proof (go_inv _ _ Hx) as Hg0. rewrite Hbs in Hg0.
    pose proof (node_bounds _ _ _ _ _ _ _ Hg0). unfold NULL. lia.
  - lia.
  - unfold grp_live. simpl. by rewrite Hp, Hbs.
Qed.

(** [kfree_in_group]: the block is not live any more. *)
Lemma kfree_in_grp_wp junk h x a n :
  grp_ok h x -> (a, n) ∈ grp_live x ->
  wp (kfree_in_group junk (g_addr x) a) (fun _ h' =>
    exists bs', let x' := mk_grp (g_addr x) (g_np x) bs' in
      grp_ok h' x' /\ frame_out (g_addr x) (g_np x) h h' /\
      grp_live x ≡ₚ (a, n) :: grp_live x') h.
Proof.
  intros Hx (l1 & l2 & Hbs & ->)%allocs_inv. pose proof (go_inv _ _ Hx) as Hg. rewrite Hbs in Hg.
  eapply wp_mono; [apply (kfree_in_group_wp junk _ _ _ _ _ _ Hg)|].
  intros [] h' [Hg' Hf]. exists (sweep (push l1 n) l2). split_and!.
  - split; simpl; [done|apply Hx|apply Hx|]. apply sweep_coalesced, push_coalesced.
    pose proof (go_coalesced _ _ Hx) as Hc. rewrite Hbs in Hc. by apply coalesced_app in Hc as [].
  - done.
  - unfold grp_live. simpl. rewrite Hbs, sweep_allocs, push_allocs, push_total, allocs_app. simpl.
    rewrite Permutation_middle. unfold D. do 2 f_equiv.
    apply reflexive_eq. f_equal. lia.
Qed.

(** ** The search through the groups *)

Lemma link_next_wp h a b (Q : Z -> heap -> Prop) :
  nxt_is (links h) a b -> Q b h -> wp (link_next a) Q h.
Proof.
  intros Hn HQ. apply wp_on_links. eapply wp_next_of; [done|]. by destruct h.
Qed.

(** Every group has its address behind its list node. *)
Lemma group_entry_node h x : grp_ok h x -> group_entry (g_addr x + 12) = g_addr x.
Proof. intros Hx%grp_bounds. unfold group_entry. rewrite u32_id; lia. Qed.

Lemma group_list_node h x : grp_ok h x -> group_list (g_addr x) = g_addr x + 12.
Proof. intros Hx%grp_bounds. unfold group_list. rewrite u32_id; lia. Qed.

Lemma free_bytes_fit k bs : sizes_ok bs -> (true, k) ∈ bs -> k <= free_bytes bs.
Proof.
  intros Hs. assert (0 <= free_bytes bs /\ ((true, k) ∈ bs -> k <= free_bytes bs)); [|tauto].
  induction Hs as [|[f k'] bs Hk Hs IH]; simpl in *.
  - split; [done|]. by intros ?%not_elem_of_nil.
  - change MIN_SIZE with 8 in Hk. split; [destruct f; lia|].
    intros [[=]|Hin]%elem_of_cons; subst; [lia|]. destruct IH as [H0 IH]. apply IH in Hin. destruct f; lia.
Qed.

Lemma try_allocation_wp gl h gs size :
  heap_inv gl h gs ->
  wp (try_allocation gl size) (fun r h' =>
    (r = NULL /\ h' = h /\ Forall (fun x => no_fit (Z.max size 8) (g_bs x)) gs) \/
    exists gs' n, heap_inv gl h' gs' /\ r <> NULL /\ Z.max size 8 <= n /\
      live gs' ≡ₚ (r, n) :: live gs /\ geo gs' = geo gs /\ (Forall used gs -> Forall used gs') /\
      (forall a m, Forall (fun x => apart a m (g_addr x) (g_np x * 4096)) gs -> same_in a m h h')) h.
Proof.
  intros Hinv. unfold try_allocation, for_each_link. apply wp_bind, wp_gets.
  eapply (wp_list_for_each _ _ _ (fun rest b s' => b = NULL /\ s' = h /\ exists l1 l2, gs = l1 ++ l2 /\
    rest = nodes l2 /\ Forall (fun x => no_fit (Z.max size 8) (g_bs x)) l1)).
  - intros c rest b s' (-> & -> & l1 & l2 & -> & Hr & Hnf).
    destruct l2 as [|x l2]; [done|]. simpl in Hr. injection Hr as -> ->.
    destruct (heap_inv_x _ _ _ _ _ Hinv) as (Hx & _).
    assert (Hgo : no_fit (Z.max size 8) (g_bs x) ->
      wp (link_next (g_addr x + 12)) (fun c s'' => c = hd gl (nodes l2) /\ NULL = NULL /\ s'' = h /\
        exists k1 k2, l1 ++ x :: l2 = k1 ++ k2 /\ nodes l2 = nodes k2 /\
          Forall (fun x => no_fit (Z.max size 8) (g_bs x)) k1) h).
    { intros Hn. eapply link_next_wp.
      - pose proof (hi_list _ _ _ Hinv) as Hd. rewrite nodes_app in Hd. by eapply dll_next.
      - split_and!; [done..|]. exists (l1 ++ [x]), l2. rewrite <- app_assoc.
        split_and!; [done..|]. apply Forall_app. auto. }
    rewrite (group_entry_node _ _ Hx). apply wp_bind. eapply wp_rd_group; [apply Hx|]. cbn [gfree].
    destruct (Z.ltb_spec (free_bytes (g_bs x)) size) as [Hlt|Hge].
    { apply wp_ret. apply Hgo. intros k Hk. pose proof (grp_bounds _ _ Hx) as Hb.
      apply free_bytes_fit in Hk; [|apply Hb]. lia. }
    apply wp_bind. eapply wp_mono; [by apply kmalloc_in_grp_wp|].
    intros r h' [(-> & -> & Hn)|(bs' & n & Hx' & Hf & Hr & Hn & Hp)].
    { apply wp_ret. by apply Hgo. }
    rewrite (proj2 (Z.eqb_neq _ _) Hr). apply wp_ret. right.
    eexists (l1 ++ mk_grp (g_addr x) (g_np x) bs' :: l2), n. split_and!; [|done|done| |apply geo_change| |].
    + by eapply heap_inv_change.
    + by rewrite !live_split, Hp.
    + rewrite !Forall_app, !Forall_cons. intros (? & ? & ?). split_and!; [done| |done].
      intros E. rewrite E in Hp. by apply Permutation_nil_cons in Hp.
    + intros a m Ha. eapply same_in_frame; [|done]. rewrite Forall_app, Forall_cons in Ha. apply Ha.
  - intros b s' (-> & -> & l1 & l2 & -> & Hr & Hnf). left. destruct l2; [|done]. by rewrite app_nil_r.
  - apply dll_head_notin with (1 := hi_list _ _ _ Hinv).
  - apply dll_fuel with (1 := hi_list _ _ _ Hinv).
  - eapply link_next_wp; [apply dll_head_next, Hinv|]. split_and!; [done..|]. exists [], gs. by split_and!.
Qed.

(** ** A new group *)

Lemma init_group_wp h r n :
  KERNEL_PHY_OFFSET <= r -> r mod 4096 = 0 -> 0 < n -> r + n * 4096 < 2 ^ 32 ->
  wp (init_group r n) (fun _ h' =>
    grp_ok h' (mk_grp r n [(true, n * 4096 - 32)]) /\ is_Some (links h' !! (r + 12)) /\
    forall a m, apart a m r (n * 4096) -> same_in a m h h') h.
Proof.
  intros Hk Ha Hn He. unfold KERNEL_PHY_OFFSET in Hk. unfold init_group, SIZEOF_GROUP, PAGE_SIZE, HEADER_SIZE.
  rewrite (u32_id (n * 4096)), (u32_id (r + 28)) by lia.
  unfold free_node, group_list, free_head, HEADER_SIZE.
  rewrite (u32_id (r + 28 + 4)), (u32_id (r + 12)), (u32_id (r + 20)) by lia.
  unfold u31. rewrite (Z.mod_small (n * 4096 - 28 - 4)) by lia.
  set (h0 := drop_objects r (n * 4096) h).
  apply wp_bind, wp_modify. fold h0. apply wp_bind, wp_modify. apply wp_bind, wp_on_links, wp_modify.
  apply wp_bind. eapply wp_rd_header; [simpl; by rewrite lookup_insert_eq|].
  apply wp_bind, wp_modify. apply wp_bind, wp_on_links, wp_modify. apply wp_bind, wp_on_links, wp_modify.
  apply wp_on_links. cbn [links put_links headers groups hsize].
  set (ls := <[r + 20 := mk_node (r + 20) (r + 20)]> (<[r + 12 := mk_node (r + 12) (r + 12)]>
    (<[r + 28 + 4 := mk_node (r + 28 + 4) (r + 28 + 4)]> (links h0)))).
  assert (H32 : is_Some (ls !! (r + 28 + 4))) by
    (unfold ls; rewrite !lookup_insert_ne, lookup_insert_eq by lia; eauto).
  eapply wp_mono; [apply (list_add_after ls (r + 20) [] (r + 20) [] []); [done|apply list_init_dll| |done]|].
  { intros ?%list_elem_of_singleton. lia. }
  intros [] ls' [Hd [Ht Hdom]]. cbn [put_links links headers groups]. split_and!.
  - split; [split|unfold KERNEL_PHY_OFFSET; simpl; lia|done|done]; cbn [g_addr g_np g_bs links headers groups put_links].
    + rewrite lookup_insert_eq. do 2 f_equal; [simpl; lia..|]. simpl. lia.
    + simpl. unfold SIZEOF_GROUP. rewrite lookup_insert_eq. split; [|done]. do 2 f_equal. lia.
    + done.
    + split; simpl; unfold SIZEOF_GROUP, HEADER_SIZE; try lia.
      apply sizes_ok_cons. split; [lia|constructor].
  - apply elem_of_dom. rewrite Hdom. apply elem_of_dom. unfold ls.
    rewrite lookup_insert_ne, lookup_insert_eq by lia. eauto.
  - intros a m Hap. eapply same_in_trans; [apply same_in_drop, Hap|]. fold h0. unfold apart in Hap.
    split; intros k ? ?; cbn [links headers groups put_links].
    + rewrite Ht; [unfold ls; by rewrite !lookup_insert_ne by lia|]. set_unfold. lia.
    + by rewrite lookup_insert_ne by lia.
    + by rewrite lookup_insert_ne by lia.
Qed.

(** ** The list of groups *)

(** The part of [heap_inv] without the list. *)
Definition placed (gl : Z) (h : heap) (gs : list grp) : Prop :=
  Forall (grp_ok h) gs /\ ForallOrdPairs grp_apart gs /\
  Forall (fun x => apart gl 8 (g_addr x) (g_np x * 4096)) gs.

Lemma heap_inv_placed gl h gs : heap_inv gl h gs <-> dll (links h) gl (nodes gs) /\ placed gl h gs.
Proof. split; [intros []; done|]. intros (? & ? & ? & ?). by split. Qed.

(** The nodes of the list are outside of the free lists and the blocks. *)
Lemma placed_outside gl h gs z a :
  placed gl h gs -> z ∈ gs -> a ∈ gl :: nodes gs -> ~ (g_addr z + 20 <= a < g_addr z + g_np z * 4096).
Proof.
  intros (Hg & Ha & Hh) Hz Hin. rewrite Forall_forall in Hg, Hh.
  apply elem_of_cons in Hin as [->|(y & -> & Hy)%nodes_elem].
  - specialize (Hh _ Hz). unfold apart in Hh. lia.
  - pose proof (grp_bounds _ _ (Hg _ Hy)). pose proof (grp_bounds _ _ (Hg _ Hz)).
    destruct (ForallOrdPairs_In Ha y z) as [->|[Hyz|Hyz]]; [by apply list_elem_of_In..|lia| |];
      unfold grp_apart, apart in Hyz; lia.
Qed.

Lemma placed_links gl h gs ls :
  placed gl h gs -> touches (gl :: nodes gs) (links h) ls -> placed gl (put_links ls h) gs.
Proof.
  intros Hp [Ht _]. pose proof Hp as (Hg & Ha & Hh). split_and!; [|done|done].
  rewrite Forall_forall in Hg |- *. intros x Hx. apply grp_ok_links; [by apply Hg|].
  intros k Hk. apply Ht. intros Hin. by apply (placed_outside _ _ _ x _ Hp) in Hin.
Qed.

Lemma placed_split gl h l1 x l2 :
  placed gl h (l1 ++ x :: l2) <-> placed gl h (l1 ++ l2) /\ grp_ok h x /\
    Forall (grp_apart x) (l1 ++ l2) /\ apart gl 8 (g_addr x) (g_np x * 4096).
Proof.
  unfold placed. rewrite (fop_split grp_apart) by apply grp_apart_sym.
  rewrite !Forall_app, !Forall_cons. tauto.
Qed.

(** What happens in other memory does not matter. *)
Lemma heap_inv_same gl h h' gs r n :
  heap_inv gl h gs -> apart gl 8 r n ->
  Forall (fun x => apart r n (g_addr x) (g_np x * 4096)) gs ->
  (forall a m, apart a m r n -> same_in a m h h') -> heap_inv gl h' gs.
Proof.
  intros Hi Hgl Hr Hs. pose proof Hi as [Hl Hg Ha Hh]. rewrite Forall_forall in Hg, Hr.
  assert (Hsame : forall x, x ∈ gs -> same_in (g_addr x) (g_np x * 4096) h h')
    by (intros; by apply Hs, apart_sym, Hr).
  split; [|rewrite Forall_forall; eauto using grp_ok_same|done|done].
  eapply dll_frame; [done|]. intros a [->|(y & -> & Hy)%nodes_elem]%elem_of_cons.
  - apply (Hs gl 8 Hgl); lia.
  - pose proof (grp_bounds _ _ (Hg _ Hy)). apply (Hsame y Hy); lia.
Qed.

Lemma list_add_group_wp gl h gs x :
  heap_inv gl h gs -> placed gl h (gs ++ [x]) -> is_Some (links h !! (g_addr x + 12)) ->
  wp (on_links (list_add_tail gl (g_addr x + 12))) (fun _ h' => heap_inv gl h' (gs ++ [x])) h.
Proof.
  intros Hi Hp Hx. apply wp_on_links.
  assert (Hnew : g_addr x + 12 ∉ gl :: nodes gs).
  { apply placed_split in Hp as (_ & Hx' & Ha & Hgl). pose proof (grp_bounds _ _ Hx').
    rewrite app_nil_r in Ha. intros [E|(y & E & Hy)%nodes_elem]%elem_of_cons.
    - unfold apart in Hgl. lia.
    - apply (proj1 (Forall_forall _ _) Ha) in Hy as Hay.
      pose proof (grp_bounds _ _ (proj1 (Forall_forall _ _) (hi_groups _ _ _ Hi) _ Hy)).
      unfold grp_apart, apart in Hay. lia. }
  eapply wp_mono; [apply list_add_tail_wp; [apply Hi|done|done]|].
  intros [] ls [Hd Ht]. apply heap_inv_placed. rewrite nodes_app. split; [done|].
  apply placed_links; [done|]. destruct Ht as [Ht Hdom]. split; [|done]. intros a Ha. apply Ht.
  rewrite nodes_app in Ha. set_solver.
Qed.

Lemma list_del_group_wp gl h l1 x l2 :
  heap_inv gl h (l1 ++ x :: l2) ->
  wp (on_links (list_del (g_addr x + 12))) (fun _ h' => heap_inv gl h' (l1 ++ l2) /\ grp_ok h' x /\
    Forall (grp_apart x) (l1 ++ l2) /\ apart gl 8 (g_addr x) (g_np x * 4096)) h.
Proof.
  intros [Hd Hp]%heap_inv_placed. apply wp_on_links. rewrite nodes_app in Hd. simpl in Hd.
  eapply wp_mono; [by apply list_del_wp|]. intros [] ls (Hd' & _ & Ht).
  assert (Hp' : placed gl (put_links ls h) (l1 ++ x :: l2)).
  { apply placed_links; [done|]. by rewrite nodes_app. }
  apply placed_split in Hp' as (Hp' & ? & ? & ?). split_and!; [|done..].
  apply heap_inv_placed. rewrite nodes_app. done.
Qed.

Lemma elem_of_all_pages q gs : q ∈ all_pages gs <-> exists x, x ∈ gs /\ q ∈ grp_pages x.
Proof.
  unfold all_pages. rewrite elem_of_union_list. setoid_rewrite list_elem_of_fmap. naive_solver.
Qed.

Lemma allocs_in a n st0 bs :
  sizes_ok bs -> (a, n) ∈ allocs st0 bs -> st0 + 4 <= a /\ 8 <= n /\ a + n <= st0 + total bs.
Proof.
  intros Hs (l1 & l2 & -> & ->)%allocs_inv. rewrite total_app. simpl.
  apply sizes_ok_app in Hs as [H1 [Hn H2]%sizes_ok_cons].
  pose proof (total_nonneg _ H1). pose proof (total_nonneg _ H2).
  unfold HEADER_SIZE in *. change MIN_SIZE with 8 in Hn. lia.
Qed.

Lemma grp_live_in h x a n :
  grp_ok h x -> (a, n) ∈ grp_live x -> g_addr x + 32 <= a /\ 8 <= n /\ a + n <= g_addr x + g_np x * 4096.
Proof.
  intros Hx Ha. pose proof (grp_bounds _ _ Hx) as (_ & _ & _ & _ & Ht & Hs).
  apply allocs_in in Ha; [|done]. unfold SIZEOF_GROUP in Ha. lia.
Qed.

(** ** The blocks in use *)

Definition blk_apart (p q : Z * Z) : Prop := apart p.1 p.2 q.1 q.2.

Lemma fop_app {A} (R : A -> A -> Prop) l1 l2 :
  ForallOrdPairs R l1 -> ForallOrdPairs R l2 -> Forall (fun a => Forall (R a) l2) l1 ->
  ForallOrdPairs R (l1 ++ l2).
Proof.
  induction l1 as [|a l1 IH]; simpl; intros H1 H2 H12; [done|].
  inversion H1; subst. apply Forall_cons in H12 as []. constructor; [by apply Forall_app|auto].
Qed.

Lemma allocs_apart st0 bs : sizes_ok bs -> ForallOrdPairs blk_apart (allocs st0 bs).
Proof.
  revert st0. induction bs as [|[f k] bs IH]; intros st0 Hs; simpl; [constructor|].
  apply sizes_ok_cons in Hs as [Hk Hs]. destruct f; simpl; [by apply IH|]. constructor; [|by apply IH].
  apply Forall_forall. intros [b m] (l1 & l2 & E & ->)%allocs_inv. left. simpl.
  assert (0 <= total l1) by (apply total_nonneg; rewrite E in Hs; by apply sizes_ok_app in Hs as []).
  unfold HEADER_SIZE. lia.
Qed.

(** Two blocks in use never share a byte. *)
Lemma live_apart h gs :
  Forall (grp_ok h) gs -> ForallOrdPairs grp_apart gs -> ForallOrdPairs blk_apart (live gs).
Proof.
  intros Hg Ha. induction Ha as [|x gs Hx Ha IH]; [constructor|].
  apply Forall_cons in Hg as [Hgx Hg]. unfold live. rewrite bind_cons. fold (live gs).
  apply fop_app; [|by apply IH|].
  - apply allocs_apart. by eapply grp_bounds.
  - apply Forall_forall. intros [a n] Han. apply Forall_forall. intros [b m] (y & Hb & Hy)%list_elem_of_bind.
    rewrite Forall_forall in Hx, Hg. pose proof (grp_live_in _ _ _ _ Hgx Han).
    pose proof (grp_live_in _ _ _ _ (Hg _ Hy) Hb). pose proof (Hx _ Hy) as Hxy.
    unfold grp_apart, blk_apart, apart in *. simpl. lia.
Qed.

Lemma live_in_pages h gs a n b :
  Forall (grp_ok h) gs -> (a, n) ∈ live gs -> a <= b < a + n -> b / 4096 ∈ all_pages gs.
Proof.
  intros Hg (x & Ha & Hx)%list_elem_of_bind Hb. rewrite Forall_forall in Hg. specialize (Hg _ Hx).
  apply (grp_live_in _ _ _ _ Hg) in Ha. apply elem_of_all_pages. exists x. split; [done|].
  apply page_set_addr; [apply Hg|lia].
Qed.

Lemma live_nil gs : Forall used gs -> live gs = [] -> gs = [].
Proof. destruct gs as [|x gs]; [done|]. intros [Hx _]%Forall_cons [E _]%app_eq_nil. done. Qed.

Lemma apart_pages h x y : grp_ok h x -> grp_ok h y -> grp_apart x y -> grp_pages x ## grp_pages y.
Proof.
  intros Hx Hy Ha q Hq1 Hq2. destruct Hx as [_ _ Ax _], Hy as [_ _ Ay _].
  unfold grp_pages in *. rewrite elem_of_page_set in *. unfold grp_apart, apart in Ha.
  Z.to_euclidean_division_equations; lia.
Qed.

(** ** The total *)

(** The bytes of a group that are not free: blocks in use and their headers
    but one. *)
Definition grp_used (x : grp) : Z := g_np x * 4096 - 32 - free_bytes (g_bs x).
Definition used_bytes (gs : list grp) : Z := foldr Z.add 0 (grp_used <$> gs).

Lemma grp_used_bounds h x : grp_ok h x -> 0 <= grp_used x <= g_np x * 4096 /\ (used x -> 0 < grp_used x).
Proof.
  intros Hx. pose proof (grp_bounds _ _ Hx) as (_ & _ & _ & ? & Ht & Hs). unfold grp_used.
  pose proof (total_parts (g_bs x)). pose proof (alloc_bytes_pos (g_addr x + SIZEOF_GROUP) _ Hs) as [Ha0 Ha].
  assert (0 <= free_bytes (g_bs x)).
  { clear -Hs. induction Hs as [|[[] k] bs Hk _ IH]; simpl in *; [lia|change MIN_SIZE with 8 in Hk; lia|lia]. }
  assert (g_bs x <> []) by (intros E; rewrite E in Ht; simpl in Ht; lia).
  assert (0 < length (g_bs x))%nat by (destruct (g_bs x); [done|simpl; lia]).
  split; [lia|]. intros Hu%Ha. lia.
Qed.

(** The groups are disjoint and above [KERNEL_PHY_OFFSET]: they fit in 1 GiB. *)
Lemma used_bytes_bounds h gs :
  Forall (grp_ok h) gs -> ForallOrdPairs grp_apart gs -> 0 <= used_bytes gs < 2 ^ 32.
Proof.
  intros Hg Ha.
  assert (Hs : 0 <= used_bytes gs <= Z.of_nat (size (all_pages gs)) * 4096).
  { induction Ha as [|x gs Hx Ha IH]; [done|]. apply Forall_cons in Hg as [Hgx Hg]. specialize (IH Hg).
    pose proof (grp_bounds _ _ Hgx) as (_ & _ & Hn & _). pose proof (grp_used_bounds _ _ Hgx) as [Hu _].
    change (used_bytes (x :: gs)) with (grp_used x + used_bytes gs).
    assert (all_pages (x :: gs) = grp_pages x ∪ all_pages gs) as -> by apply (all_pages_split [] x gs).
    rewrite size_union.
    - assert (size (grp_pages x) = Z.to_nat (g_np x)) as ->; [|lia].
      unfold grp_pages, page_set. rewrite size_range. f_equal. lia.
    - intros q Hq (y & Hy & Hqy)%elem_of_all_pages. rewrite Forall_forall in Hg, Hx.
      by eapply (apart_pages h x y); [|apply Hg|apply Hx|..]. }
  assert (Hsub : all_pages gs ⊆ list_to_set (range 0xC0000 0x100000)).
  { intros q (x & Hx & Hq)%elem_of_all_pages. rewrite Forall_forall in Hg. specialize (Hg _ Hx).
    pose proof (grp_bounds _ _ Hg). pose proof (go_aligned _ _ Hg). unfold grp_pages in Hq.
    rewrite elem_of_page_set in Hq. apply elem_of_list_to_set, elem_of_range.
    Z.to_euclidean_division_equations; lia. }
  apply subseteq_size, inj_le in Hsub. rewrite size_range, Z2Nat.id in Hsub by lia. lia.
Qed.

Lemma used_bytes_zero h gs :
  Forall (grp_ok h) gs -> Forall used gs -> used_bytes gs = 0 <-> live gs = [].
Proof.
  intros Hg Hu. split; [|intros ->%live_nil; done]. destruct gs as [|x gs]; [done|].
  apply Forall_cons in Hg as [Hx Hg]. apply Forall_cons in Hu as [Hux Hu].
  pose proof (grp_used_bounds _ _ Hx) as [_ H0]. specialize (H0 Hux).
  assert (0 <= used_bytes gs).
  { clear -Hg. induction Hg as [|y gs Hy _ IH]; [done|]. pose proof (grp_used_bounds _ _ Hy) as [? _].
    change (used_bytes (y :: gs)) with (grp_used y + used_bytes gs). lia. }
  change (used_bytes (x :: gs)) with (grp_used x + used_bytes gs). lia.
Qed.

Lemma used_bytes_app l1 l2 : used_bytes (l1 ++ l2) = used_bytes l1 + used_bytes l2.
Proof.
  induction l1 as [|x l1 IH]; [done|]. rewrite <- app_comm_cons.
  change (grp_used x + used_bytes (l1 ++ l2) = grp_used x + used_bytes l1 + used_bytes l2). lia.
Qed.

Lemma total_allocated_wp gl h gs :
  heap_inv gl h gs ->
  wp (for_each_link gl (fun c tot =>
    do x <- rd_group (group_entry c); ret (inr (u32 (tot + (gsize x - gfree x))))) 0)
    (fun r h' => h' = h /\ r = u32 (used_bytes gs)) h.
Proof.
  intros Hi. unfold for_each_link. apply wp_bind, wp_gets.
  eapply (wp_list_for_each _ _ _ (fun rest b s' => s' = h /\ exists l1 l2, gs = l1 ++ l2 /\
    rest = nodes l2 /\ b = u32 (used_bytes l1))).
  - intros c rest b s' (-> & l1 & l2 & -> & Hr & ->).
    destruct l2 as [|x l2]; [done|]. simpl in Hr. injection Hr as -> ->.
    destruct (heap_inv_x _ _ _ _ _ Hi) as (Hx & _). rewrite (group_entry_node _ _ Hx).
    apply wp_bind. eapply wp_rd_group; [apply Hx|]. apply wp_ret. cbn [gsize gfree]. eapply link_next_wp.
    + pose proof (hi_list _ _ _ Hi) as Hd. rewrite nodes_app in Hd. by eapply dll_next.
    + split_and!; [done..|]. exists (l1 ++ [x]), l2. rewrite <- app_assoc. split_and!; [done..|].
      rewrite used_bytes_app. change (used_bytes [x]) with (grp_used x + 0). unfold grp_used.
      rewrite Z.add_0_r. unfold u32. by rewrite Zplus_mod_idemp_l.
  - intros b s' (-> & l1 & l2 & -> & Hr & ->). destruct l2; [|done]. by rewrite app_nil_r.
  - apply dll_head_notin with (1 := hi_list _ _ _ Hi).
  - apply dll_fuel with (1 := hi_list _ _ _ Hi).
  - eapply link_next_wp; [apply dll_head_next, Hi|]. split_and!; [done..|]. by exists [], gs.
Qed.

(** ** The allocator *)

Section Allocator.
Context {P : Type} `{HP : PageLaws P}.
Context (cpu_id gl : Z).

Abbreviation st := (kmalloc_st P).

(** What the operations on frames and pages leave alone. *)
Record keeps (s s' : st) : Prop := {
  kp_lock : km_lock s' = km_lock s;
  kp_if : km_if s' = km_if s;
  kp_init : KMALLOC_INITIALIZED s' = KMALLOC_INITIALIZED s;
  kp_oom : KMALLOC_OOM_SIMULATION s' = KMALLOC_OOM_SIMULATION s;
  kp_nest : kmalloc_nest_level s' = kmalloc_nest_level s;
  kp_paging : km_paging s' = km_paging s }.

Lemma keeps_refl s : keeps s s.
Proof. by split. Qed.

Lemma keeps_trans s1 s2 s3 : keeps s1 s2 -> keeps s2 s3 -> keeps s1 s3.
Proof. intros [] []. split; congruence. Qed.

(** The pages and frames in use. *)
Definition pstate (s : st) (pages frames : gset Z) : Prop :=
  pp_ok (km_pages s) /\ pp_pages (km_pages s) = pages /\ pp_frames (km_pages s) = frames.

(** The state after an operation on the frames and pages only. *)
Definition paged (s s' : st) (pages frames : gset Z) : Prop :=
  keeps s s' /\ km_heap s' = km_heap s /\ pstate s' pages frames.

Lemma paged_refl s p f : pstate s p f -> paged s s p f.
Proof. done. Qed.

Lemma paged_trans s1 s2 s3 p2 f2 p3 f3 :
  paged s1 s2 p2 f2 -> paged s2 s3 p3 f3 -> paged s1 s3 p3 f3.
Proof. intros (K1 & H1 & _) (K2 & H2 & ?). split_and!; [by eapply keeps_trans|congruence|done]. Qed.

Lemma wp_on_pages {A} (m : M P A) (Q : A -> st -> Prop) s :
  wp m (fun a p => Q a (put_pages p s)) (km_pages s) -> wp (on_pages m) Q s.
Proof. apply wp_zoom. Qed.

Lemma wp_on_heap {A} (m : M heap A) (Q : A -> st -> Prop) s :
  wp m (fun a h => Q a (put_heap h s)) (km_heap s) -> wp (on_heap m) Q s.
Proof. apply wp_zoom. Qed.

Lemma SET_ERROR_wp msg code s p f :
  pstate s p f -> wp (SET_ERROR cpu_id msg code) (fun _ s' => paged s s' p f) s.
Proof. intros Hs. unfold wp, SET_ERROR. destruct s. done. Qed.

Lemma alloc_frame_wp s p f :
  pstate s p f ->
  wp (on_pages pp_alloc_frame) (fun r s' =>
    (r = NO_FRAME /\ paged s s' p f) \/
    (r <> NO_FRAME /\ (r ∉ f) /\ paged s s' p ({[r]} ∪ f))) s.
Proof.
  intros (Hok & <- & <-). apply wp_on_pages. eapply wp_mono; [by apply pp_alloc_frame_law|].
  intros r p' (Hok' & Hp & [[-> Hf]|(Hr & Hnf & Hf)]); [left|right]; repeat split; done.
Qed.

Lemma free_frames_wp s p f fs :
  pstate s p (f ∪ list_to_set fs) -> NoDup fs -> f ## list_to_set fs ->
  wp (for_each fs (fun x => on_pages (pp_free_frame x))) (fun _ s' => paged s s' p f) s.
Proof.
  intros Hs Hnd Hd. eapply wp_mono.
  - apply (wp_for_each (fun l s' => paged s s' p (f ∪ list_to_set l) /\ NoDup l /\ f ## list_to_set l)); [done|].
    intros x l s1 (Hs1 & [Hx Hl]%NoDup_cons & Hd1). destruct (Hs1) as (K1 & H1 & Hok & Hp & Hf).
    apply wp_on_pages. eapply wp_mono; [apply pp_free_frame_law; [done|rewrite Hf; set_solver]|].
    intros [] p' (Hok' & Hp' & Hf'). split_and!; [|done|set_solver].
    eapply paged_trans; [exact Hs1|]. split_and!; [done..|]. split_and!; [done|simpl; congruence|].
    simpl. rewrite Hf', Hf. apply set_eq. set_solver.
  - intros [] s' (Hs' & _ & _). simpl in Hs'. by rewrite union_empty_r_L in Hs'.
Qed.

(** The frames of a new group: all of them, or none is kept. *)
Lemma alloc_frames_wp n s p f fs :
  pstate s p (f ∪ list_to_set fs) -> NoDup fs -> f ## list_to_set fs ->
  wp (alloc_frames cpu_id n fs) (fun r s' =>
    match r with
    | None => paged s s' p f
    | Some fs' => NoDup fs' /\ length fs' = (length fs + n)%nat /\ f ## list_to_set fs' /\
        paged s s' p (f ∪ list_to_set fs')
    end) s.
Proof.
  revert s fs. induction n as [|n IH]; intros s fs Hs Hnd Hd; simpl.
  { apply wp_ret. split_and!; [done|lia|done|done]. }
  apply wp_bind. eapply wp_mono; [by apply alloc_frame_wp|].
  intros r s1 [[-> Hs1]|(Hr & Hnf & Hs1)].
  - apply wp_bind. eapply wp_mono; [apply free_frames_wp; [apply Hs1|done|done]|]. intros [] s2 Hs2.
    apply wp_bind. eapply wp_mono; [apply SET_ERROR_wp, Hs2|]. intros [] s3 Hs3. apply wp_ret.
    eauto using paged_trans.
  - rewrite (proj2 (Z.eqb_neq _ _) Hr).
    assert (E : {[r]} ∪ (f ∪ list_to_set fs) = f ∪ list_to_set (fs ++ [r]))
      by (rewrite list_to_set_app_L; apply set_eq; set_solver).
    eapply wp_mono; [apply (IH s1 (fs ++ [r]))|].
    + rewrite <- E. apply Hs1.
    + apply NoDup_app. split_and!; [done| |apply NoDup_singleton]. set_solver.
    + rewrite list_to_set_app_L. set_solver.
    + intros [fs'|] s2; [|by apply paged_trans with (1 := Hs1)].
      intros (? & Hl & ? & ?). rewrite length_app in Hl. simpl in Hl.
      split_and!; [done|lia|done|by eapply paged_trans].
Qed.

(** The address space is switched around an operation on the pages. *)
Lemma in_kernel_addr_space_wp {A} (m : M P A) (R : A -> gset Z -> gset Z -> Prop) s p f :
  pstate s p f ->
  (forall q, pp_ok q -> pp_pages q = p -> pp_frames q = f ->
     wp m (fun a q' => pp_ok q' /\ R a (pp_pages q') (pp_frames q')) q) ->
  wp (in_kernel_addr_space (on_pages m)) (fun a s' =>
    exists p' f', R a p' f' /\ paged s s' p' f') s.
Proof.
  intros (Hok & Hp & Hf) Hm. unfold in_kernel_addr_space.
  apply wp_bind, wp_on_pages. eapply wp_mono; [by apply pp_curr_law|]. intros curr ? ->.
  replace (put_pages (km_pages s) s) with s by (by destruct s).
  apply wp_bind, wp_on_pages. eapply wp_mono; [by apply pp_kernel_law|]. intros kernel ? ->.
  replace (put_pages (km_pages s) s) with s by (by destruct s).
  assert (Hsw : forall b a s0 p0 f0, pstate s0 p0 f0 ->
    wp (when b (on_pages (pp_switch_to_addr_space a))) (fun _ s' => paged s0 s' p0 f0) s0).
  { intros [] a s0 p0 f0 (Ho & <- & <-); [|done]. apply wp_on_pages.
    eapply wp_mono; [by apply pp_switch_law|]. intros [] q (? & ? & ?). done. }
  apply wp_bind. eapply wp_mono; [by apply (Hsw _ _ s p f)|]. intros [] s1 Hs1.
  apply wp_bind, wp_on_pages. eapply wp_mono; [apply Hm; apply Hs1|]. intros a q [Hq HR].
  apply wp_bind. eapply wp_mono; [by apply Hsw|]. intros [] s2 Hs2. apply wp_ret.
  exists (pp_pages q), (pp_frames q). split; [done|].
  eapply paged_trans; [exact Hs1|]. eapply paged_trans; [|exact Hs2]. done.
Qed.

(** The outcomes of [create_group]: a group of one free node on fresh pages, or
    nothing. *)
Definition created (n : Z) (p f : gset Z) (s : st) (r : Z) (s' : st) : Prop :=
  (r = NULL /\ paged s s' p f) \/
  (KERNEL_PHY_OFFSET <= r /\ page_set r n ## p /\ keeps s s' /\ pstate s' (p ∪ page_set r n) f /\
   grp_ok (km_heap s') (mk_grp r n [(true, n * 4096 - 32)]) /\
   is_Some (links (km_heap s') !! (r + 12)) /\
   forall a m, apart a m r (n * 4096) -> same_in a m (km_heap s) (km_heap s')).

Lemma create_group_wp n s p f :
  0 < n -> pstate s p f -> wp (create_group cpu_id n) (created n p f s) s.
Proof.
  intros Hn Hs. unfold create_group. apply wp_bind.
  eapply wp_mono; [apply (alloc_frames_wp _ s p f []); [by rewrite list_to_set_nil, union_empty_r_L|constructor|set_solver]|].
  intros [fs|] s1; [|intros Hs1; apply wp_ret; by left].
  intros (Hnd & Hl & Hd & Hs1). simpl in Hl.
  assert (fs <> []) by (intros ->; simpl in Hl; lia).
  apply wp_bind. eapply wp_mono.
  { eapply (in_kernel_addr_space_wp _ (fun r p' f' =>
      r = NO_REGION /\ p' = p /\ f' = f ∪ list_to_set fs \/
      KERNEL_PHY_OFFSET <= r /\ r mod 4096 = 0 /\ r + n * 4096 < 2 ^ 32 /\ page_set r n ## p /\
      p' = p ∪ page_set r n /\ f' = (f ∪ list_to_set fs) ∖ list_to_set fs) _ _ _ (proj2 (proj2 Hs1))).
    intros q Hq Hqp Hqf. eapply wp_mono; [apply pp_map_law; [done|done|done|rewrite Hqf; set_solver]|].
    intros r q' [Hq' Hr]. rewrite Hqp, Hqf in Hr. replace (Z.of_nat (length fs)) with n in Hr by lia. done. }
  intros r s2 (p' & f' & [(-> & -> & ->)|(Hk & Ha & He & Hdis & -> & ->)] & Hs2).
  - simpl. apply wp_bind. eapply wp_mono; [apply free_frames_wp; [apply Hs2|done|done]|]. intros [] s3 Hs3.
    apply wp_bind. eapply wp_mono; [apply SET_ERROR_wp, Hs3|]. intros [] s4 Hs4. apply wp_ret.
    left. eauto using paged_trans.
  - assert ((r =? NO_REGION) = false) as -> by (unfold NO_REGION; lia).
    replace ((f ∪ list_to_set fs) ∖ list_to_set fs) with f in Hs2 by (apply set_eq; set_solver).
    destruct (paged_trans _ _ _ _ _ _ _ Hs1 Hs2) as (K & Eh & Hp).
    apply wp_bind, wp_on_heap. eapply wp_mono; [by apply init_group_wp|].
    intros [] h' (Hg & Hl' & Hsame). apply wp_ret. rewrite Eh in Hsame.
    right. split_and!; [done..| |done|done|done|done]. destruct K. by split.
Qed.

(** [free_group]: the pages go back. *)
Lemma free_group_wp x s p f :
  grp_ok (km_heap s) x -> grp_live x = [] -> pstate s p f -> grp_pages x ⊆ p ->
  wp (free_group (g_addr x)) (fun _ s' =>
    keeps s s' /\ km_heap s' = drop_objects (g_addr x) (g_np x * 4096) (km_heap s) /\
    pstate s' (p ∖ grp_pages x) f) s.
Proof.
  intros Hx Hu Hs Hp. pose proof (grp_bounds _ _ Hx) as Hb. unfold free_group.
  apply wp_bind, wp_on_heap. eapply wp_mono; [eapply group_is_empty_wp; apply Hx|].
  intros e h' [-> ->]. rewrite bool_decide_true by done.
  replace (put_heap (km_heap s) s) with s by (by destruct s).
  apply wp_bind, wp_assert; [done|]. apply wp_bind, wp_on_heap. eapply wp_rd_group; [apply Hx|].
  replace (put_heap (km_heap s) s) with s by (by destruct s). cbn [num_pages]. unfold PAGE_SIZE.
  rewrite (u32_id (g_np x * 4096)) by lia. apply wp_bind. eapply wp_mono.
  { eapply (in_kernel_addr_space_wp _ (fun _ p' f' => p' = p ∖ grp_pages x /\ f' = f) _ _ _ Hs).
    intros q Hq Hqp Hqf. eapply wp_mono; [apply pp_unmap_law; [done|apply Hx|apply Hx|lia|lia|by rewrite Hqp]|].
    intros [] q' (? & ? & ?). split_and!; [done|by rewrite <- Hqp|congruence]. }
  intros [] s1 (p' & f' & [-> ->] & K & Eh & Hp1). apply wp_on_heap, wp_modify. rewrite Eh.
  split_and!; [|done|done]. destruct K. by split.
Qed.

Lemma wp_lock s (Q : unit -> st -> Prop) :
  unlocked (km_lock s) -> Q tt (put_lock (mk_spinlock 1 (km_if s) cpu_id, false) s) ->
  wp (on_lock (spinlock_lock cpu_id)) Q s.
Proof. intros Hl HQ. unfold wp, on_lock, zoom. by rewrite spinlock_lock_run. Qed.

Lemma wp_unlock s irq (Q : unit -> st -> Prop) :
  km_lock s = mk_spinlock 1 irq cpu_id -> Q tt (put_lock (mk_spinlock 0 irq NO_OWNER, irq) s) ->
  wp (on_lock (spinlock_unlock cpu_id)) Q s.
Proof. intros Hl HQ. unfold wp, on_lock, zoom. by rewrite Hl, spinlock_unlock_run. Qed.

(** ** The invariant

    [base] are the kernel pages in use that are not the allocator's; the list
    head is on one of them.  [frames] are the frames other code has allocated. *)
Context (base frames : gset Z).
Hypothesis head_lo : gl / 4096 ∈ base.
Hypothesis head_hi : (gl + 7) / 4096 ∈ base.

(** The part of the invariant that holds while the lock is taken. *)
Record inner (s : st) (gs : list grp) : Prop := {
  in_heap : heap_inv gl (km_heap s) gs;
  in_used : Forall used gs;
  in_pages : pstate s (base ∪ all_pages gs) frames;
  in_base : base ## all_pages gs }.

Record km_inv (s : st) (gs : list grp) : Prop := {
  ki_lock : unlocked (km_lock s);
  ki_paging : km_paging s = true;
  ki_nest : 0 <= kmalloc_nest_level s < 2 ^ 32;
  ki_inner : if KMALLOC_INITIALIZED s then inner s gs else gs = [] /\ pstate s base frames }.

Lemma head_apart r n : 0 < n -> r mod 4096 = 0 -> page_set r n ## base -> apart gl 8 r (n * 4096).
Proof.
  intros Hn Hr Hd. unfold apart.
  pose proof (fun H => Hd _ (proj2 (page_set_addr r n gl Hr) H) head_lo) as H1.
  pose proof (fun H => Hd _ (proj2 (page_set_addr r n (gl + 7) Hr) H) head_hi) as H2.
  destruct (Z.le_gt_cases (gl + 8) r); [by left|].
  destruct (Z.le_gt_cases (r + n * 4096) gl); [by right|]. exfalso.
  destruct (Z.le_gt_cases r gl); [apply H1; lia|]. apply H2. Z.to_euclidean_division_equations; lia.
Qed.

(** Pages that are not in use are apart from every group. *)
Lemma fresh_apart h gs r n :
  Forall (grp_ok h) gs -> r mod 4096 = 0 -> 0 < n -> page_set r n ## all_pages gs ->
  Forall (fun x => apart r (n * 4096) (g_addr x) (g_np x * 4096)) gs.
Proof.
  intros Hg Hr Hn Hd. rewrite Forall_forall in *. intros x Hx. pose proof (grp_bounds _ _ (Hg _ Hx)).
  apply pages_apart; [done|apply Hg, Hx|done|lia|]. intros q Hq Hq'. apply (Hd q Hq).
  apply elem_of_all_pages. eauto.
Qed.

(** The sizes for which the pages [do_kmalloc] asks for hold the block, its
    header and the group. *)
Definition fits (size : Z) : Prop :=
  0 <= size /\ size + 8 < 2 ^ 32 /\
  Z.max size 8 + 32 <= ceil_x_over_y_u32 (size + 8) PAGE_SIZE * PAGE_SIZE.

(** The lock is held by this cpu. *)
Definition held (irq : bool) (s : st) : Prop :=
  km_lock s = mk_spinlock 1 irq cpu_id /\ km_if s = false.

Lemma all_pages_snoc gs x : all_pages (gs ++ [x]) = all_pages gs ∪ grp_pages x.
Proof. rewrite (all_pages_split gs x []), app_nil_r. set_solver. Qed.

(** A round of unlock, [m], lock. *)
Lemma wp_unlocked {A B} irq (m : M st A) (k : A -> M st B) (R : A -> st -> Prop) Q s :
  held irq s ->
  wp m (fun a s' => keeps (put_lock (mk_spinlock 0 irq NO_OWNER, irq) s) s' /\ R a s')
    (put_lock (mk_spinlock 0 irq NO_OWNER, irq) s) ->
  (forall a s1 s2, R a s1 -> s2 = put_lock (mk_spinlock 1 irq cpu_id, false) s1 -> keeps s s2 ->
     wp (k a) Q s2) ->
  wp (on_lock (spinlock_unlock cpu_id);;; do a <- m; on_lock (spinlock_lock cpu_id);;; k a) Q s.
Proof.
  intros [Hl Hif] Hm Hk. apply wp_bind. eapply wp_unlock; [done|]. apply wp_bind.
  eapply wp_mono; [exact Hm|]. intros a s1 [K HR]. apply wp_bind, wp_lock.
  { by rewrite (kp_lock _ _ K). }
  eapply Hk; [done| |].
  - by rewrite (kp_if _ _ K).
  - destruct K. split; simpl in *; congruence.
Qed.

Lemma wp_unlocked_end irq (m : M st unit) (R : st -> Prop) (Q : unit -> st -> Prop) s :
  held irq s ->
  wp m (fun _ s' => keeps (put_lock (mk_spinlock 0 irq NO_OWNER, irq) s) s' /\ R s')
    (put_lock (mk_spinlock 0 irq NO_OWNER, irq) s) ->
  (forall s1 s2, R s1 -> s2 = put_lock (mk_spinlock 1 irq cpu_id, false) s1 -> keeps s s2 -> Q tt s2) ->
  wp (on_lock (spinlock_unlock cpu_id);;; m;;; on_lock (spinlock_lock cpu_id)) Q s.
Proof.
  intros Hh Hm Hk. eapply (wp_unlocked irq m (fun _ => ret tt) (fun _ => R) Q) in Hm; [|done|].
  - apply wp_ok in Hm as (u & s' & E & HQ). apply wp_ok. exists u, s'. split; [|done].
    rewrite <- E. unfold bind. destruct (on_lock _ _) as [[[] s1]|]; [|done].
    destruct (m s1) as [[[] s2]|]; [|done]. by destruct (on_lock _ s2) as [[[] ?]|].
  - intros. apply wp_ret. eauto.
Qed.

Lemma keeps_heap s h : keeps s (put_heap h s).
Proof. by split. Qed.

(** The groups of [inner] and a region the provider has just mapped. *)
Lemma inner_fresh s gs r n :
  inner s gs -> r mod 4096 = 0 -> 0 < n -> page_set r n ## base ∪ all_pages gs ->
  apart gl 8 r (n * 4096) /\ Forall (fun x => apart r (n * 4096) (g_addr x) (g_np x * 4096)) gs.
Proof.
  intros Hi Hr Hn Hd. split; [apply head_apart; [done|done|set_solver]|].
  eapply fresh_apart; [apply Hi|done|done|set_solver].
Qed.

Lemma use_new_group_wp s gs irq r n size :
  let x := mk_grp r n [(true, n * 4096 - 32)] in
  heap_inv gl (km_heap s) gs -> Forall used gs -> base ## all_pages gs ->
  placed gl (km_heap s) (gs ++ [x]) -> is_Some (links (km_heap s) !! (r + 12)) ->
  page_set r n ## base ∪ all_pages gs -> pstate s (base ∪ all_pages gs ∪ page_set r n) frames ->
  held irq s -> Z.max size 8 + 32 <= n * 4096 ->
  wp (use_new_group cpu_id gl r size) (fun a s' => keeps s s' /\
    exists gs' m, inner s' gs' /\ a <> NULL /\ Z.max size 8 <= m /\ live gs' ≡ₚ (a, m) :: live gs) s.
Proof.
  intros x Hi Hu Hb Hpl Hl Hd Hp Hh Hn.
  pose proof (proj1 (placed_split _ _ _ _ _) Hpl) as (_ & Hx & Hax & Hgl). rewrite app_nil_r in Hax.
  unfold use_new_group. apply wp_bind, wp_on_heap. eapply wp_mono; [by apply try_allocation_wp|].
  intros a h' [(-> & -> & _)|(gs' & m & Hi' & Ha & Hm & Hlive & Hgeo & Hu' & Hs)].
  - replace (put_heap (km_heap s) s) with s by (by destruct s). simpl.
    change r with (g_addr x). rewrite (group_list_node _ _ Hx).
    apply wp_bind, wp_on_heap. eapply wp_mono; [by apply (list_add_group_wp gl (km_heap s) gs x)|].
    intros [] h1 Hi1. destruct (heap_inv_x _ _ _ _ _ Hi1) as [Hx1 _].
    apply wp_bind, wp_on_heap. eapply wp_mono; [apply (kmalloc_in_grp_wp _ x), Hx1|].
    intros a h2 [(_ & _ & Hnf)|(bs' & m & Hx2 & Hf & Ha & Hm & Hlive)].
    { specialize (Hnf (n * 4096 - 32) ltac:(simpl; by apply list_elem_of_singleton)). lia. }
    rewrite (proj2 (Z.eqb_neq _ _) Ha). apply wp_bind, wp_assert; [done|]. apply wp_ret.
    change (grp_live (mk_grp r n bs') ≡ₚ (a, m) :: grp_live x) in Hlive.
    split; [by split|]. exists (gs ++ [mk_grp r n bs']), m. split_and!; [|done|done|].
    + split; simpl.
      * by apply (heap_inv_change gl h1 gs x [] Hi1 h2 bs').
      * apply Forall_app. split; [done|]. constructor; [|done]. intros E. rewrite E in Hlive.
        by apply Permutation_nil_cons in Hlive.
      * rewrite all_pages_snoc. change (grp_pages (mk_grp r n bs')) with (page_set r n).
        by rewrite union_assoc_L.
      * rewrite all_pages_snoc. unfold grp_pages. simpl. set_solver.
    + rewrite live_split, app_nil_r, Hlive. done.
  - rewrite (proj2 (Z.eqb_neq _ _) Ha). simpl.
    assert (Hap : Forall (fun y => apart r (n * 4096) (g_addr y) (g_np y * 4096)) gs) by done.
    pose proof (Hs r (n * 4096) Hap) as Hsx. pose proof (grp_ok_same _ _ _ Hx Hsx) as Hx'.
    eapply (wp_unlocked irq (free_group r) (fun _ => ret a) (fun _ s' =>
      km_heap s' = drop_objects r (n * 4096) h' /\
      pstate s' ((base ∪ all_pages gs ∪ page_set r n) ∖ page_set r n) frames)).
    { done. }
    { eapply wp_mono; [apply (free_group_wp x); [done|done|exact Hp|]|].
      - unfold grp_pages. simpl. set_solver.
      - intros [] s' (? & ? & ?). done. }
    intros [] s1 s2 [Eh Hp1] -> K. apply wp_ret. split; [exact (keeps_trans _ _ _ (keeps_heap s h') K)|]. exists gs', m. split_and!; [|done..].
    rewrite <- (all_pages_geo _ _ Hgeo) in Hp1, Hd, Hb. split; simpl.
    + rewrite Eh. eapply (heap_inv_same _ _ _ _ r (n * 4096)); [done|done| |].
      * by apply (Forall_geo (apart r (n * 4096)) _ _ Hgeo).
      * intros ? ? ?. by apply same_in_drop.
    + auto.
    + replace (base ∪ all_pages gs') with ((base ∪ all_pages gs' ∪ page_set r n) ∖ page_set r n); [done|].
      apply set_eq. set_solver.
    + done.
Qed.

Lemma do_kmalloc_wp s gs irq size :
  inner s gs -> held irq s -> fits size ->
  wp (do_kmalloc cpu_id gl size) (fun r s' => keeps s s' /\
    ((r = NULL /\ inner s' gs) \/
     exists gs' n, inner s' gs' /\ r <> NULL /\ Z.max size 8 <= n /\ live gs' ≡ₚ (r, n) :: live gs)) s.
Proof.
  intros [Hi Hu Hp Hb] Hh (H0 & Hw & Hfit). unfold do_kmalloc. apply wp_bind, wp_on_heap.
  eapply wp_mono; [by apply try_allocation_wp|].
  intros r h' [(-> & -> & _)|(gs' & n & Hi' & Hr & Hn & Hlive & Hgeo & Hu' & _)].
  2: { rewrite (proj2 (Z.eqb_neq _ _) Hr). apply wp_ret. split; [by split|]. right. exists gs', n.
       rewrite <- (all_pages_geo _ _ Hgeo) in Hp, Hb. split_and!; [|done..]. split; simpl; auto. }
  replace (put_heap (km_heap s) s) with s by (by destruct s). cbn [negb Z.eqb NULL].
  change (size + 4 + HEADER_SIZE) with (size + 4 + 4). replace (size + 4 + 4) with (size + 8) by lia.
  rewrite (u32_id (size + 8)) by lia. set (n := ceil_x_over_y_u32 (size + 8) PAGE_SIZE) in *.
  unfold PAGE_SIZE in Hfit. assert (Hn : 0 < n) by lia.
  eapply (wp_unlocked irq _ _ (created n (base ∪ all_pages gs) frames
    (put_lock (mk_spinlock 0 irq NO_OWNER, irq) s))); [done| |].
  { eapply wp_mono; [by apply create_group_wp|]. intros r s1 Hr.
    split; [by destruct Hr as [(_ & K & _)|(_ & _ & K & _)]|]. exact Hr. }
  intros r s1 s2 Hr -> K. destruct Hr as [(-> & _ & Eh & Hp1)|(Hk & Hd & _ & Hp1 & Hx & Hl & Hs)]; simpl in Hp1.
  - simpl. apply wp_bind. eapply wp_mono; [apply SET_ERROR_wp; exact Hp1|].
    intros [] s3 (K3 & Eh3 & Hp3). apply wp_ret. split; [by eapply keeps_trans|]. left. split; [done|].
    split; [|done..]. rewrite Eh3. simpl. by rewrite Eh.
  - assert ((r =? NULL) = false) as -> by (unfold NULL, KERNEL_PHY_OFFSET in *; lia).
    destruct (inner_fresh s gs r n) as [Hgl Hap]; [done|apply Hx|done|done|].
    assert (Hi2 : heap_inv gl (km_heap s1) gs) by (by eapply heap_inv_same).
    eapply wp_mono; [eapply (use_new_group_wp _ gs irq r n); [done|done|done| |done|done|exact Hp1|done|done]|].
    + apply placed_split. rewrite app_nil_r. split_and!; [|done|done|done]. by apply heap_inv_placed in Hi2 as [].
    + intros a s3 [K3 Hr]. split; [by eapply keeps_trans|]. by right.
Qed.

(** ** [kfree] *)

(** The bytes of the blocks that are freed. *)
Context (junk : Z -> list_node).

Lemma addr_in_group_wp h x a :
  grp_ok h x ->
  wp (addr_in_group (g_addr x) a) (fun b h' => h' = h /\
    b = bool_decide (g_addr x <= a < g_addr x + g_np x * 4096)) h.
Proof.
  intros Hx. pose proof (grp_bounds _ _ Hx). apply wp_bind. eapply wp_rd_group; [apply Hx|].
  apply wp_ret. split; [done|]. cbn [num_pages]. unfold PAGE_SIZE. rewrite (u32_id (g_np x * 4096)) by lia.
  rewrite u32_id by lia. case_bool_decide; lia.
Qed.

Lemma inner_pages_split s l1 x l2 h :
  pstate s (base ∪ all_pages (l1 ++ x :: l2)) frames -> base ## all_pages (l1 ++ x :: l2) ->
  Forall (grp_ok h) (l1 ++ l2) -> grp_ok h x -> Forall (grp_apart x) (l1 ++ l2) ->
  (base ∪ all_pages (l1 ++ x :: l2)) ∖ grp_pages x = base ∪ all_pages (l1 ++ l2) /\
  base ## all_pages (l1 ++ l2).
Proof.
  intros Hp Hb Hg Hx Ha. rewrite all_pages_split in Hp, Hb |- *.
  assert (grp_pages x ## all_pages (l1 ++ l2)).
  { intros q Hq (y & Hy & Hqy)%elem_of_all_pages. rewrite Forall_forall in Hg, Ha.
    by eapply (apart_pages h x y); [|apply Hg|apply Ha|..]. }
  split; [apply set_eq; set_solver|set_solver].
Qed.

Lemma kfree_from_wp s irq l1 x l2 a n :
  inner s (l1 ++ x :: l2) -> held irq s -> (a, n) ∈ grp_live x ->
  wp (kfree_from cpu_id junk (g_addr x) a) (fun _ s' => keeps s s' /\
    exists gs', inner s' gs' /\ live (l1 ++ x :: l2) ≡ₚ (a, n) :: live gs') s.
Proof.
  intros [Hi Hu Hp Hb] Hh Ha. destruct (heap_inv_x _ _ _ _ _ Hi) as [Hx _].
  unfold kfree_from. apply wp_bind, wp_on_heap. eapply wp_mono; [by eapply kfree_in_grp_wp|].
  intros [] h1 (bs' & Hx1 & Hf1 & Hlive1). set (x1 := mk_grp (g_addr x) (g_np x) bs') in *.
  pose proof (heap_inv_change _ _ _ _ _ Hi h1 bs' Hx1 Hf1) as Hi1. fold x1 in Hi1.
  assert (Hgeo : geo (l1 ++ x1 :: l2) = geo (l1 ++ x :: l2)) by apply geo_change.
  rewrite <- (all_pages_geo _ _ Hgeo) in Hp, Hb.
  assert (Hlive : live (l1 ++ x :: l2) ≡ₚ (a, n) :: live (l1 ++ x1 :: l2)) by (by rewrite !live_split, Hlive1).
  apply Forall_app in Hu as [Hu1 [_ Hu2]%Forall_cons].
  apply wp_bind, wp_on_heap. eapply wp_mono; [eapply (group_is_empty_wp _ (g_addr x1)); apply Hx1|].
  intros e ? [-> ->]. change (allocs (g_addr x1 + SIZEOF_GROUP) bs') with (grp_live x1).
  case_bool_decide as He; simpl.
  2: { split; [by split|]. exists (l1 ++ x1 :: l2). split; [|done]. split; simpl; [done| |done|done].
       apply Forall_app. split; [done|]. by constructor. }
  change (g_addr x) with (g_addr x1). rewrite (group_list_node _ _ Hx1).
  apply wp_bind, wp_on_heap. eapply wp_mono; [by apply list_del_group_wp|].
  intros [] h2 (Hi2 & Hx2 & Hax & Hgl).
  set (s2 := put_heap h2 (put_heap h1 (put_heap h1 s))).
  pose proof (inner_pages_split s l1 x1 l2 h2 Hp Hb (hi_groups _ _ _ Hi2) Hx2 Hax) as [Epg Hb'].
  eapply (wp_unlocked_end irq (free_group (g_addr x1)) (fun s' =>
    km_heap s' = drop_objects (g_addr x1) (g_np x1 * 4096) h2 /\
    pstate s' ((base ∪ all_pages (l1 ++ x1 :: l2)) ∖ grp_pages x1) frames)); [done| |].
  { eapply wp_mono; [apply (free_group_wp x1); [exact Hx2|done|exact Hp|]|].
    - rewrite all_pages_split. set_solver.
    - intros [] s' (? & ? & ?). done. }
  intros s1 s3 [Eh Hp1] -> K. split; [exact (keeps_trans _ _ _ (keeps_heap s h2) K)|].
  assert (He' : grp_live x1 = []) by exact He.
  exists (l1 ++ l2). split; [|by rewrite Hlive, live_split, He'].
  split; simpl; [|by apply Forall_app|by rewrite <- Epg|done].
  rewrite Eh. eapply (heap_inv_same _ h2); [done|exact Hgl|exact Hax|].
  intros ? ? ?. by apply same_in_drop.
Qed.

Lemma do_kfree_wp s gs irq a n :
  inner s gs -> held irq s -> (a, n) ∈ live gs ->
  wp (do_kfree cpu_id gl junk a) (fun _ s' => keeps s s' /\
    exists gs', inner s' gs' /\ live gs ≡ₚ (a, n) :: live gs') s.
Proof.
  intros Hin Hh Ha. pose proof (in_heap _ _ Hin) as Hi. unfold do_kfree. apply wp_bind, wp_bind, wp_gets.
  eapply (wp_mono _ (fun b s' => b = true /\ keeps s s' /\
    exists gs', inner s' gs' /\ live gs ≡ₚ (a, n) :: live gs')); [|by intros b s' [-> ?]].
  eapply (wp_list_for_each _ _ _ (fun rest b s' => b = false /\ s' = s /\ exists l1 l2, gs = l1 ++ l2 /\
    rest = nodes l2 /\ (a, n) ∈ live l2)).
  - intros c rest b s' (-> & -> & l1 & l2 & -> & Hr & Ha2).
    destruct l2 as [|x l2]; [done|]. simpl in Hr. injection Hr as -> ->.
    destruct (heap_inv_x _ _ _ _ _ Hi) as [Hx _]. destruct (heap_inv_rest _ _ _ _ _ Hi) as (Hg & _ & Hax & _).
    rewrite (group_entry_node _ _ Hx). apply wp_bind, wp_on_heap.
    eapply wp_mono; [by apply addr_in_group_wp|]. intros i h' [-> ->].
    replace (put_heap (km_heap s) s) with s by (by destruct s).
    unfold live in Ha2. rewrite bind_cons in Ha2. fold (live l2) in Ha2. case_bool_decide as Hina.
    + apply wp_bind. eapply wp_mono; [apply (kfree_from_wp s irq l1 x l2 a n); [done|done|]|].
      * apply elem_of_app in Ha2 as [|(y & Hy & Hyl)%list_elem_of_bind]; [done|]. exfalso.
        assert (Hyr : y ∈ l1 ++ l2) by set_solver. rewrite Forall_forall in Hg, Hax.
        pose proof (grp_live_in _ _ _ _ (Hg _ Hyr) Hy). pose proof (Hax _ Hyr) as Hxy.
        unfold grp_apart, apart in Hxy. lia.
      * intros [] s' Hs'. apply wp_ret. done.
    + apply wp_ret. apply wp_on_heap. eapply link_next_wp.
      * pose proof (hi_list _ _ _ Hi) as Hd. rewrite nodes_app in Hd. by eapply dll_next.
      * replace (put_heap (km_heap s) s) with s by (by destruct s). split_and!; [done..|].
        exists (l1 ++ [x]), l2. rewrite <- app_assoc. split_and!; [done..|].
        apply elem_of_app in Ha2 as [Ha2|]; [|done]. apply (grp_live_in _ _ _ _ Hx) in Ha2. lia.
  - intros b s' (-> & -> & l1 & l2 & -> & Hr & Hl2). destruct l2; [|done]. by apply not_elem_of_nil in Hl2.
  - apply dll_head_notin with (1 := hi_list _ _ _ Hi).
  - apply dll_fuel with (1 := hi_list _ _ _ Hi).
  - apply wp_on_heap. eapply link_next_wp; [apply dll_head_next, Hi|].
    replace (put_heap (km_heap s) s) with s by (by destruct s). split_and!; [done..|]. by exists [], gs.
Qed.

Lemma inner_put (f : st -> st) s gs :
  (forall s0, km_heap (f s0) = km_heap s0 /\ km_pages (f s0) = km_pages s0) ->
  inner s gs -> inner (f s) gs.
Proof.
  intros Hf [Hi Hu Hp Hb]. destruct (Hf s) as [Eh Ep]. split; [by rewrite Eh|done| |done].
  unfold pstate. by rewrite Ep.
Qed.

Lemma inner_init s : pstate s base frames ->
  inner (put_init true (put_heap (put_links (<[gl := mk_node gl gl]> (links (km_heap s))) (km_heap s)) s)) [].
Proof.
  intros Hp. assert (all_pages [] = ∅) as E by done. split; [|done| |].
  - split; [apply list_init_dll|done|constructor|done].
  - rewrite E, union_empty_r_L. exact Hp.
  - rewrite E. apply disjoint_empty_r.
Qed.

(** [km_inv] once the lock is released. *)
Lemma km_inv_unlock s gs irq n :
  inner s gs -> held irq s -> KMALLOC_INITIALIZED s = true -> km_paging s = true -> 0 <= n < 2 ^ 32 ->
  kmalloc_nest_level s = n -> km_inv (put_lock (mk_spinlock 0 irq NO_OWNER, irq) s) gs.
Proof.
  intros Hin [Hl Hif] Hini Hpg Hn <-. split; simpl; [done|done|lia|]. rewrite Hini.
  by apply (inner_put (put_lock (mk_spinlock 0 irq NO_OWNER, irq))).
Qed.

Lemma kmalloc_wp s gs size :
  km_inv s gs -> fits size ->
  wp (kmalloc cpu_id gl size) (fun r s' => km_if s' = km_if s /\
    KMALLOC_OOM_SIMULATION s' = KMALLOC_OOM_SIMULATION s /\ KMALLOC_INITIALIZED s' = true /\
    ((r = NULL /\ km_inv s' gs) \/
     exists gs' n, km_inv s' gs' /\ r <> NULL /\ KMALLOC_OOM_SIMULATION s = false /\
       Z.max size 8 <= n /\ live gs' ≡ₚ (r, n) :: live gs)) s.
Proof.
  intros [Hl Hpg Hn Hin] Hfit. unfold kmalloc. apply wp_bind, wp_gets. apply wp_bind, wp_assert; [done|].
  apply wp_bind, wp_lock; [done|]. apply wp_bind, wp_modify. apply wp_bind, wp_gets.
  set (s1 := put_nest _ _). apply wp_bind.
  apply (wp_mono _ (fun _ s2 => inner s2 gs /\ KMALLOC_INITIALIZED s2 = true /\ held (km_if s) s2 /\
    km_paging s2 = true /\ KMALLOC_OOM_SIMULATION s2 = KMALLOC_OOM_SIMULATION s /\
    kmalloc_nest_level s2 = u32 (kmalloc_nest_level s + 1))).
  { destruct (KMALLOC_INITIALIZED s) eqn:Ei; subst s1; cbn [KMALLOC_INITIALIZED put_nest put_lock negb]; rewrite Ei.
    - split_and!; [|done..]. by apply (inner_put (put_nest _)), (inner_put (put_lock _)).
    - destruct Hin as [-> Hp]. apply wp_bind, wp_on_heap, wp_on_links, wp_modify, wp_modify.
      split_and!; [|done..]. by apply (inner_init (put_nest _ (put_lock _ s))). }
  intros [] s2 (Hin2 & Hi2 & Hh2 & Hp2 & Ho2 & Hn2). apply wp_bind, wp_gets. apply wp_bind.
  apply (wp_mono _ (fun r s3 => keeps s2 s3 /\ ((r = NULL /\ inner s3 gs) \/
    exists gs' n, inner s3 gs' /\ r <> NULL /\ KMALLOC_OOM_SIMULATION s = false /\
      Z.max size 8 <= n /\ live gs' ≡ₚ (r, n) :: live gs))).
  { rewrite Ho2. destruct (KMALLOC_OOM_SIMULATION s).
    - apply wp_bind. eapply wp_mono; [apply SET_ERROR_wp, Hin2|]. intros [] s3 (K & Eh & Hp). apply wp_ret.
      split; [done|]. left. split; [done|]. destruct Hin2. by split; [rewrite Eh|..].
    - eapply wp_mono; [by eapply do_kmalloc_wp|]. intros r s3 [K [?|(gs' & n & ? & ? & ? & ?)]]; eauto 10. }
  intros r s3 [K Hr]. apply wp_bind, wp_modify. apply wp_bind. eapply wp_unlock.
  { simpl. rewrite (kp_lock _ _ K). apply Hh2. }
  apply wp_ret. split_and!; [done|simpl; rewrite (kp_oom _ _ K); done|simpl; rewrite (kp_init _ _ K); done|].
  assert (Hc : forall gs', inner s3 gs' -> km_inv (put_lock (mk_spinlock 0 (km_if s) NO_OWNER, km_if s)
    (put_nest (u32 (kmalloc_nest_level s3 - 1)) s3)) gs').
  { intros gs' Hg. destruct K as [Kl Kif Ki Ko Kn Kp]. destruct Hh2 as [Hl2 Hif2].
    eapply km_inv_unlock; [by apply (inner_put (put_nest _))| | | | |reflexivity]; simpl.
    - by split; simpl; congruence.
    - congruence.
    - congruence.
    - apply u32_range. }
  destruct Hr as [[-> Hg]|(gs' & n & Hg & ? & ? & ? & ?)]; [left|right]; eauto 10.
Qed.

Lemma kfree_wp s gs a n :
  km_inv s gs -> (a, n) ∈ live gs ->
  wp (kfree cpu_id gl junk a) (fun _ s' => km_if s' = km_if s /\
    KMALLOC_OOM_SIMULATION s' = KMALLOC_OOM_SIMULATION s /\
    exists gs', km_inv s' gs' /\ live gs ≡ₚ (a, n) :: live gs') s.
Proof.
  intros [Hl Hpg Hn Hin] Ha. unfold kfree. apply wp_bind, wp_lock; [done|]. apply wp_bind, wp_gets.
  destruct (KMALLOC_INITIALIZED s) eqn:Ei; [|destruct Hin as [-> _]; by apply not_elem_of_nil in Ha].
  simpl. rewrite Ei. apply wp_bind, wp_assert; [done|]. apply wp_bind.
  eapply wp_mono; [apply (do_kfree_wp _ gs (km_if s) a n); [by apply (inner_put (put_lock _))|done|done]|].
  intros [] s1 (K & gs' & Hg & Hlive). destruct K as [Kl Kif Ki Ko Kn Kp]; simpl in *.
  eapply wp_unlock; [exact Kl|]. split_and!; [done|done|]. exists gs'. split; [|done].
  eapply km_inv_unlock; [done|done|congruence|congruence|exact Hn|congruence].
Qed.

(** ** Clients *)

Inductive request := Kmalloc (size : Z) | Kfree (addr : Z).

Definition exec (r : request) : M st Z :=
  match r with
  | Kmalloc size => kmalloc cpu_id gl size
  | Kfree addr => kfree cpu_id gl junk addr;;; ret NULL
  end.

(** A client frees only what it has, and asks for sizes that fit. *)
Definition allowed (L : list (Z * Z)) (r : request) : Prop :=
  match r with Kmalloc size => fits size | Kfree addr => addr ∈ L.*1 end.

(** The blocks of the client: address and requested size. *)
Definition after (L : list (Z * Z)) (r : request) (res : Z) : list (Z * Z) :=
  match r with
  | Kmalloc size => if res =? NULL then L else (res, size) :: L
  | Kfree addr => filter (fun p => p.1 <> addr) L
  end.

Inductive client (s0 : st) : st -> list (Z * Z) -> Prop :=
| client_start : client s0 s0 []
| client_step s L r res s' :
    client s0 s L -> allowed L r -> exec r s = Ok (res, s') -> client s0 s' (after L r res).

Definition covers (p q : Z * Z) : Prop := p.1 = q.1 /\ p.2 <= q.2.

(** The blocks of the client are the blocks in use. *)
Definition client_inv (s : st) (L : list (Z * Z)) : Prop :=
  exists gs M, km_inv s gs /\ live gs ≡ₚ M /\ Forall2 covers L M.

Lemma km_inv_groups s gs : km_inv s gs ->
  Forall (grp_ok (km_heap s)) gs /\ ForallOrdPairs grp_apart gs /\ Forall used gs /\
  pstate s (base ∪ all_pages gs) frames /\ base ## all_pages gs.
Proof.
  intros [_ _ _ Hin]. destruct (KMALLOC_INITIALIZED s).
  - destruct Hin as [[] ? ? ?]. done.
  - destruct Hin as [-> Hp]. change (all_pages []) with (∅ : gset Z).
    split_and!; [done|constructor|done|by rewrite union_empty_r_L|apply disjoint_empty_r].
Qed.

Lemma fop_perm {A} (R : A -> A -> Prop) l l' :
  (forall a b, R a b -> R b a) -> l ≡ₚ l' -> ForallOrdPairs R l -> ForallOrdPairs R l'.
Proof.
  intros Hs Hp. induction Hp as [|x l l' Hp IH|x y l|l1 l2 l3 _ IH1 _ IH2]; intros H1; [done| | |auto].
  - inversion H1; subst. constructor; [by rewrite <- Hp|auto].
  - inversion H1 as [|? ? Hy Hr]; subst. inversion Hr; subst. apply Forall_cons in Hy as [].
    constructor; [constructor; auto|by constructor].
Qed.

Lemma covers_apart L M : Forall2 covers L M -> ForallOrdPairs blk_apart M -> ForallOrdPairs blk_apart L.
Proof.
  induction 1 as [|p q L M [Ea Hn] HF IH]; intros HM; [constructor|]. inversion HM as [|? ? Hq HM']; subst.
  constructor; [|by apply IH]. rewrite Forall_forall in Hq |- *. intros p' Hp'.
  apply list_elem_of_lookup in Hp' as [i Hi]. destruct (Forall2_lookup_l _ _ _ _ _ HF Hi) as (q' & Hq' & Ea' & Hn').
  apply list_elem_of_lookup_2, Hq in Hq'. unfold blk_apart, apart in *. lia.
Qed.

Lemma apart_NoDup M : ForallOrdPairs blk_apart M -> Forall (fun p => 0 < p.2) M -> NoDup (M.*1).
Proof.
  induction 1 as [|p M Hp HM IH]; intros H0; [constructor|]. apply Forall_cons in H0 as [H0 HM0].
  simpl. constructor; [|by apply IH]. intros (q & E & Hq)%list_elem_of_fmap.
  rewrite Forall_forall in Hp, HM0. specialize (Hp _ Hq). specialize (HM0 _ Hq).
  unfold blk_apart, apart in Hp. lia.
Qed.

Lemma covers_fst L M : Forall2 covers L M -> L.*1 = M.*1.
Proof. induction 1 as [|p q L M [E _] _ IH]; [done|]. rewrite !fmap_cons. by rewrite E, IH. Qed.

Lemma client_blocks s L :
  client_inv s L -> NoDup (L.*1) /\ ForallOrdPairs blk_apart L /\
    (forall a n b, (a, n) ∈ L -> a <= b < a + n -> b / 4096 ∈ pp_pages (km_pages s) ∖ base) /\
    (L = [] -> pp_pages (km_pages s) = base) /\ pp_frames (km_pages s) = frames /\ unlocked (km_lock s).
Proof.
  intros (gs & M & Hk & Hp & Hc). destruct (km_inv_groups _ _ Hk) as (Hg & Ha & Hu & (_ & Hpg & Hfr) & Hb).
  assert (HM : ForallOrdPairs blk_apart M).
  { eapply fop_perm; [|exact Hp|by eapply live_apart]. intros ? ?. apply apart_sym. }
  split_and!; [|by eapply covers_apart| | |done|apply Hk].
  - rewrite (covers_fst _ _ Hc). apply apart_NoDup; [done|]. rewrite <- Hp. apply Forall_forall.
    intros [a n] (x & Hx & Hxg)%list_elem_of_bind. rewrite Forall_forall in Hg.
    apply (grp_live_in _ _ _ _ (Hg _ Hxg)) in Hx. simpl. lia.
  - intros a n b Hin Hab. apply list_elem_of_lookup in Hin as [i Hi].
    destruct (Forall2_lookup_l _ _ _ _ _ Hc Hi) as ([a' n'] & Hq & Ea & Hn). simpl in *. subst a'.
    apply list_elem_of_lookup_2 in Hq. rewrite <- Hp in Hq.
    apply (live_in_pages _ _ _ _ b Hg) in Hq; [|lia]. rewrite Hpg. set_solver.
  - intros ->. inversion Hc; subst. apply Permutation_nil_r, (live_nil _ Hu) in Hp. subst gs.
    rewrite Hpg. apply union_empty_r_L.
Qed.

Lemma filter_fst_split (a n : Z) (L1 L2 : list (Z * Z)) :
  NoDup ((L1 ++ (a, n) :: L2).*1) -> filter (fun p => p.1 <> a) (L1 ++ (a, n) :: L2) = L1 ++ L2.
Proof.
  intros Hnd. rewrite fmap_app, fmap_cons in Hnd. apply NoDup_app in Hnd as (_ & H1 & [H2 _]%NoDup_cons).
  assert (Hk : forall l, a ∉ l.*1 -> filter (fun p : Z * Z => p.1 <> a) l = l).
  { intros l Hl. induction l as [|p l IH]; [done|]. simpl in Hl. apply not_elem_of_cons in Hl as [? ?].
    rewrite filter_cons_True by (intros E; by subst a). f_equal. auto. }
  rewrite filter_app, filter_cons_False, !Hk; [done|done| |by intros ?].
  intros Hin. apply (H1 _ Hin). by left.
Qed.

(** Every request a client may make returns, and keeps the invariant. *)
Lemma client_exec s L r :
  client_inv s L -> allowed L r -> wp (exec r) (fun res s' => client_inv s' (after L r res)) s.
Proof.
  intros Hci Hr. pose proof (client_blocks _ _ Hci) as (Hnd & _). destruct Hci as (gs & M & Hk & Hp & Hc).
  destruct r as [size|a]; simpl in *.
  - eapply wp_mono; [by eapply kmalloc_wp|].
    intros res s' (_ & _ & _ & [[-> Hk']|(gs' & n & Hk' & Hne & _ & Hn & Hl)]).
    + by exists gs, M.
    + rewrite (proj2 (Z.eqb_neq _ _) Hne). exists gs', ((res, n) :: M). split_and!; [done|by rewrite Hl, Hp|].
      constructor; [|done]. split; simpl; [done|lia].
  - apply list_elem_of_fmap in Hr as ([a0 n] & Ea & Hin). simpl in Ea. subst a0.
    apply list_elem_of_split in Hin as (L1 & L2 & ->).
    apply Forall2_app_inv_l in Hc as (M1 & M2' & HM1 & HM2 & ->).
    apply Forall2_cons_inv_l in HM2 as ([a' m] & M2 & [E Hn] & HM2 & ->). simpl in E. subst a'.
    rewrite (filter_fst_split _ _ _ _ Hnd). apply wp_bind.
    eapply wp_mono; [eapply (kfree_wp s gs a m); [done|rewrite Hp; set_solver]|].
    intros [] s' (_ & _ & gs' & Hk' & Hl). apply wp_ret. exists gs', (M1 ++ M2).
    split_and!; [done| |by apply Forall2_app]. rewrite Hl, <- Permutation_middle in Hp. by apply (inj _) in Hp.
Qed.

Lemma kmalloc_client_reach s0 s L : km_inv s0 [] -> client s0 s L -> client_inv s L.
Proof.
  intros H0. induction 1 as [|s L r res s' Hc IH Hr E].
  - exists [], []. by split_and!.
  - pose proof (client_exec _ _ _ IH Hr) as Hw. unfold wp in Hw. by rewrite E in Hw.
Qed.

(** ** Properties *)


(** C2: [kfree] of a block in use always returns, with the interrupts as before
    and the lock free; that block and only that block is not in use any more,
    and when it was the last block of its group the pages of the group are not
    the allocator's any more. *)
Theorem kfree_correct s gs a n :
  km_inv s gs -> (a, n) ∈ live gs ->
  exists s' gs', kfree cpu_id gl junk a s = Ok (tt, s') /\ km_if s' = km_if s /\ km_inv s' gs' /\
    live gs ≡ₚ (a, n) :: live gs' /\
    forall q, q ∈ pp_pages (km_pages s') <-> q ∈ base \/ exists x, x ∈ gs' /\ grp_live x <> [] /\ q ∈ grp_pages x.
Proof.
  intros Hk Ha. pose proof (kfree_wp _ _ _ _ Hk Ha) as ([] & s' & E & Hif & _ & gs' & Hk' & Hl)%wp_ok.
  exists s', gs'. split_and!; [done..|]. intros q.
  destruct (km_inv_groups _ _ Hk') as (_ & _ & Hu & (_ & -> & _) & _). rewrite Forall_forall in Hu.
  rewrite elem_of_union, elem_of_all_pages. unfold used in Hu. naive_solver.
Qed.


(** [kmalloc_total_allocated] is the number of bytes of the groups that are
    not free, without wrap-around, and it is zero exactly when no block is in
    use. *)
Theorem kmalloc_total_allocated_correct s gs :
  km_inv s gs -> KMALLOC_INITIALIZED s = true ->
  exists s', kmalloc_total_allocated cpu_id gl s = Ok (used_bytes gs, s') /\ km_inv s' gs /\
    km_if s' = km_if s /\ (used_bytes gs = 0 <-> live gs = []).
Proof.
  intros Hk Hini. pose proof (km_inv_groups _ _ Hk) as (Hg & Ha & Hu & _ & _).
  destruct Hk as [Hl Hpg Hn Hin]. rewrite Hini in Hin.
  assert (Hw : wp (kmalloc_total_allocated cpu_id gl) (fun r s' => r = used_bytes gs /\ km_inv s' gs /\
    km_if s' = km_if s) s).
  { unfold kmalloc_total_allocated. apply wp_bind, wp_lock; [done|]. apply wp_bind, wp_on_heap.
    eapply wp_mono; [apply total_allocated_wp, Hin|]. intros r h' [-> ->].
    apply wp_bind. eapply wp_unlock; [done|]. apply wp_ret.
    split_and!; [by apply u32_id; eapply used_bytes_bounds| |done]. split; simpl; [done|done|done|].
    rewrite Hini. by destruct Hin. }
  apply wp_ok in Hw as (r & s' & E & -> & Hk' & Hif). exists s'. split_and!; [done..|].
  by eapply used_bytes_zero.
Qed.

End Allocator.

(** ** An instance of the interface

    Frames and pages handed out in increasing order and never again. *)

Record bump := mk_bump { next_frame : Z; frames_out : gset Z; next_page : Z; pages_out : gset Z }.

#[export] Instance bump_provider : PageProvider bump := {
  pp_alloc_frame p :=
    if next_frame p <? 0xFFFFF then
      Ok (next_frame p * 4096, mk_bump (next_frame p + 1) ({[next_frame p * 4096]} ∪ frames_out p) (next_page p) (pages_out p))
    else Ok (NO_FRAME, p);
  pp_free_frame f p := Ok (tt, mk_bump (next_frame p) (frames_out p ∖ {[f]}) (next_page p) (pages_out p));
  pp_map_frames_above low fs _ p :=
    let n := Z.of_nat (length fs) in
    if next_page p + n <? 0xFFFFF then
      Ok (next_page p * 4096, mk_bump (next_frame p) (frames_out p ∖ list_to_set fs) (next_page p + n)
            (pages_out p ∪ page_set (next_page p * 4096) n))
    else Ok (NO_REGION, p);
  pp_unmap_and_free_frames a len p :=
    Ok (tt, mk_bump (next_frame p) (frames_out p) (next_page p) (pages_out p ∖ page_set a (len / 4096)));
  pp_curr_addr_space p := Ok (1, p);
  pp_kernel_addr_space p := Ok (2, p);
  pp_switch_to_addr_space _ p := Ok (tt, p) }.

Definition bump_ok (p : bump) : Prop :=
  0 <= next_frame p <= 0xFFFFF /\ 0xC0000 <= next_page p <= 0xFFFFF /\
  set_Forall (fun f => f < next_frame p * 4096) (frames_out p) /\
  set_Forall (fun q => q < next_page p) (pages_out p).

#[export] Program Instance bump_laws : PageLaws bump := {
  pp_ok := bump_ok; pp_frames := frames_out; pp_pages := pages_out }.
Next Obligation.
  intros p (? & ? & Hf & Hq). unfold wp. simpl. destruct (Z.ltb_spec (next_frame p) 0xFFFFF); simpl.
  - split_and!; [|done|]; [unfold bump_ok; simpl; split_and!; [lia..| |done]|].
    + intros f [->%elem_of_singleton|Hin]%elem_of_union; [lia|]. specialize (Hf _ Hin). simpl in Hf. lia.
    + right. split_and!; [unfold NO_FRAME; lia| |done]. intros Hin%Hf. simpl in Hin. lia.
  - split_and!; [done|done|]. by left.
Qed.
Next Obligation.
  intros p f (? & ? & Hf & Hq) _. unfold wp, bump_ok. simpl. split_and!; try lia; try done.
  intros x [Hx _]%elem_of_difference. by apply Hf.
Qed.
Next Obligation.
  intros p fs (? & ? & Hf & Hq) _ Hne _. unfold wp, bump_ok. simpl.
  assert (0 < length fs)%nat by (destruct fs; [done|simpl; lia]).
  destruct (Z.ltb_spec (next_page p + Z.of_nat (length fs)) 0xFFFFF); simpl; [|by split; [|left]].
  split; [split_and!; try lia|right; unfold KERNEL_PHY_OFFSET; split_and!; try lia; try done].
  - intros x [Hx _]%elem_of_difference. by apply Hf.
  - intros q [Hin|Hin]%elem_of_union; [specialize (Hq _ Hin); simpl in Hq; lia|].
    rewrite elem_of_page_set, Z.div_mul in Hin by lia. lia.
  - by rewrite Z.mod_mul.
  - intros q Hin Hin2%Hq. rewrite elem_of_page_set, Z.div_mul in Hin by lia. simpl in Hin2. lia.
Qed.
Next Obligation.
  intros p a n (? & ? & Hf & Hq) ? ? ? ? ?. unfold wp, bump_ok. simpl. rewrite Z.div_mul by lia.
  split_and!; try lia; try done. intros q [Hin _]%elem_of_difference. by apply Hq.
Qed.
Next Obligation. done. Qed.
Next Obligation. done. Qed.
Next Obligation. done. Qed.

(** The allocator at boot over this instance; its list head is on page
    [0xC0001]. *)
Definition bump_head : Z := 0xC0001000.
Definition bump_base : gset Z := {[0xC0001]}.
Definition bump_boot : kmalloc_st bump :=
  mk_km (mk_heap ∅ ∅ ∅) INIT_SPINLOCK true false false 0 true [] (mk_bump 256 ∅ 0xC0100 bump_base).
Definition no_junk (a : Z) : list_node := mk_node 0 0.

Abbreviation bump_inv := (km_inv bump_head bump_base ∅).

Lemma bump_head_page : bump_head / 4096 ∈ bump_base /\ (bump_head + 7) / 4096 ∈ bump_base.
Proof. split; apply elem_of_singleton; reflexivity. Qed.

Lemma bump_boot_inv : bump_inv bump_boot [].
Proof.
  split; [done|done|simpl; lia|]. split; [done|]. split_and!; [|done|done].
  change (bump_ok (mk_bump 256 ∅ 0xC0100 bump_base)).
  unfold bump_ok; cbn [next_frame next_page frames_out pages_out]. split_and!; [lia..| |]; [by apply set_Forall_empty|]. apply set_Forall_singleton. simpl. lia.
Qed.

Lemma fits_100 : fits 100.
Proof. unfold fits. vm_compute. intuition discriminate. Qed.

(** The state after [kmalloc(100)]. *)
Definition bump_one : kmalloc_st bump :=
  match kmalloc 0 bump_head 100 bump_boot with Ok (_, s) => s | Halt _ => bump_boot end.

Lemma bump_one_run : kmalloc 0 bump_head 100 bump_boot = Ok (0xC0100020, bump_one).
Proof. vm_compute. reflexivity. Qed.

Lemma bump_one_inv : exists gs n, bump_inv bump_one gs /\ (0xC0100020, n) ∈ live gs.
Proof.
  destruct bump_head_page as [Hlo Hhi].
  pose proof (kmalloc_wp 0 bump_head bump_base ∅ Hlo Hhi _ _ 100 bump_boot_inv fits_100) as Hw.
  unfold wp in Hw. rewrite bump_one_run in Hw.
  destruct Hw as (_ & _ & _ & [[? _]|(gs & n & Hk & _ & _ & _ & Hl)]); [discriminate|].
  exists gs, n. split; [done|]. rewrite Hl. by left.
Qed.


Lemma kfree_correct_witness :
  exists s' gs', kfree 0 bump_head no_junk 0xC0100020 bump_one = Ok (tt, s') /\ bump_inv s' gs'.
Proof.
  destruct bump_head_page as [Hlo Hhi]. destruct bump_one_inv as (gs & n & Hk & Hl).
  destruct (kfree_correct 0 bump_head bump_base ∅ Hlo Hhi no_junk bump_one gs 0xC0100020 n Hk Hl)
    as (s' & gs' & E & _ & Hk' & _).
  exists s', gs'. split; [exact E|exact Hk'].
Defined.


Lemma kmalloc_total_allocated_correct_witness :
  exists gs s', kmalloc_total_allocated 0 bump_head bump_one = Ok (used_bytes gs, s') /\
    (used_bytes gs = 0 <-> live gs = []).
Proof.
  destruct bump_one_inv as (gs & n & Hk & _).
  destruct (kmalloc_total_allocated_correct 0 bump_head bump_base ∅ bump_one gs Hk) as (s' & E & _ & _ & Hz).
  - reflexivity.
  - exists gs, s'. split; [exact E|exact Hz].
Defined.

(** ** The sizes that do not fit *)

Lemma fits_iff size :
  0 <= size -> size + 8 < 2 ^ 32 -> fits size <-> ~ (4065 <= size mod 4096 <= 4088).
Proof.
  intros H0 H1. unfold fits. rewrite ceil_no_wrap by (unfold PAGE_SIZE; lia). unfold PAGE_SIZE.
  destruct (Z.eqb_spec ((size + 8) mod 4096) 0); simpl; Z.to_euclidean_division_equations; lia.
Qed.

(** for the sizes of 4065 to 4088 bytes [do_kmalloc] sizes the new group
    with [sizeof(group)], the size of a pointer, instead of the size of the
    structure: the block does not fit in the group just made for it and the
    assertion on the address fails. *)
Theorem kmalloc_size_gap :
  Forall (fun size => kmalloc 0 bump_head size bump_boot = Halt (Panic "addr")) (range 4065 4089).
Proof. repeat (apply Forall_cons; split; [vm_compute; reflexivity|]). apply Forall_nil_2. Qed.
