(* ===== verification/CMem.v ===== *)
(** * Memory and strings: [src/memory.c], [src/string.c]

    The byte memory of the current address space is a map from addresses to
    bytes; an access to an address that is not there traps.  The functions of
    [string.c] only read: they are written over any way [rd] of reading a
    byte, so that they apply to the whole memory and to a single buffer.  The
    size of a buffer bounds [strlen]: [fuel] is more than the number of
    characters. *)

From S2P Require Import Prelude Math.

(** ** Memory *)

Abbreviation mem := (gmap Z Z).

Definition rd8 (a : Z) : M mem Z := fun m => must (m !! a) "read" m.
Definition wr8 (a b : Z) : M mem unit :=
  fun m => match m !! a with
           | Some _ => Ok (tt, <[a := b]> m)
           | None => Halt (Trap "write")
           end.

Definition memcpy (to from len : Z) : M mem unit :=
  for_each (range 0 len) (fun i => do b <- rd8 (u32 (from + i)); wr8 (u32 (to + i)) b).

Definition memset (to byte len : Z) : M mem unit :=
  for_each (range 0 len) (fun i => wr8 (u32 (to + i)) byte).

Definition memzero (to len : Z) : M mem unit := memset to 0 len.

(** A loop that returns [false] at the first element where the test fails. *)
Fixpoint for_all {S A} (l : list A) (f : A -> M S bool) : M S bool :=
  match l with
  | [] => ret true
  | x :: l' => do b <- f x; if (b : bool) then for_all l' f else ret false
  end.

(** The pointers advance together with the index. *)
Definition memeq (s1 s2 size : Z) : M mem bool :=
  for_all (range 0 size) (fun i =>
    do b1 <- rd8 (u32 (s1 + i)); do b2 <- rd8 (u32 (s2 + i)); ret (b1 =? b2)).

Section Physical.
(** [cpu_paging_enabled()], [in_higher_half()] and the symbol
    [KERNEL_END_ADDR]. *)
Context (paging higher_half : bool) (KERNEL_END_ADDR : Z).

Definition get_adjusted_addr (paddr : Z) : M mem Z :=
  if paging then
    ASSERT (paddr <? to_phys KERNEL_END_ADDR) "paddr < to_phys(KERNEL_END_ADDR)";;;
    ret (to_virt paddr)
  else if higher_half then ret (to_virt paddr) else ret paddr.

Definition phy_read (addr dest size : Z) : M mem unit :=
  do adj <- get_adjusted_addr addr; memcpy dest adj size.

Definition phy_write (addr buf size : Z) : M mem unit :=
  do adj <- get_adjusted_addr addr; memcpy adj buf size.
End Physical.

(** ** Strings *)

Definition STR_NPOS : Z := 0xFFFFFFFF.

Section Strings.
Context {S : Type}.
Implicit Types rd : Z -> M S Z.

Fixpoint strlen_from (fuel : nat) rd (str i : Z) : M S Z :=
  match fuel with
  | O => halt_with (Hang "strlen")
  | Datatypes.S fuel' =>
      do c <- rd (u32 (str + i));
      if c =? 0 then ret i else strlen_from fuel' rd str (u32 (i + 1))
  end.

Definition strlen (fuel : nat) rd (str : Z) : M S Z := strlen_from fuel rd str 0.

Definition strneq rd1 (str1 : Z) rd2 (str2 n : Z) : M S bool :=
  for_all (range 0 n) (fun i =>
    do c1 <- rd1 (u32 (str1 + i)); do c2 <- rd2 (u32 (str2 + i)); ret (c1 =? c2)).

Definition streq (fuel : nat) rd1 (str1 : Z) rd2 (str2 : Z) : M S bool :=
  do len1 <- strlen fuel rd1 str1;
  do len2 <- strlen fuel rd2 str2;
  if negb (len1 =? len2) then ret false else strneq rd1 str1 rd2 str2 len1.

(** [while ( *curr && *curr != ch ) curr++;] and the test after it *)
Fixpoint find_chr_loop (fuel : nat) rd (str ch curr : Z) : M S Z :=
  match fuel with
  | O => halt_with (Hang "str_find_chr")
  | Datatypes.S fuel' =>
      do c <- rd curr;
      if c =? 0 then ret STR_NPOS
      else if c =? ch then ret (u32 (curr - str))
      else find_chr_loop fuel' rd str ch (u32 (curr + 1))
  end.

Definition str_find_chr (fuel : nat) rd (str ch begin : Z) : M S Z :=
  do len <- strlen fuel rd str;
  if len <=? begin then ret STR_NPOS
  else find_chr_loop fuel rd str ch (u32 (str + begin)).

End Strings.

Definition strncpy (src dst len : Z) : M mem unit :=
  for_each (range 0 len) (fun i => do c <- rd8 (u32 (src + i)); wr8 (u32 (dst + i)) c).

(** A byte of a buffer of its own. *)
Definition rd_buf {S} (l : list Z) (i : Z) : M S Z := must (l !! Z.to_nat i) "buffer".

(** ** Specifications *)

Definition in_space (a n : Z) : Prop := 0 <= a /\ 0 <= n /\ a + n <= 2 ^ 32.
Definition bytes_at (m : mem) (a : Z) (l : list Z) : Prop :=
  forall i b, l !! i = Some b -> m !! (a + Z.of_nat i) = Some b.
Definition mapped (m : mem) (a n : Z) : Prop := forall k, a <= k < a + n -> is_Some (m !! k).

(** [m'] is [m] with the bytes [l] at [a]. *)
Definition stored (m : mem) (a : Z) (l : list Z) (m' : mem) : Prop :=
  forall k, m' !! k = if decide (a <= k < a + Z.of_nat (length l)) then l !! Z.to_nat (k - a) else m !! k.

(** [rd] reads the characters [s] and a final NUL at [a] in the state [st]. *)
Definition cstring {S} (rd : Z -> M S Z) (st : S) (a : Z) (s : list Z) : Prop :=
  (forall i c, s !! i = Some c -> rd (u32 (a + Z.of_nat i)) st = Ok (c, st)) /\
  rd (u32 (a + Z.of_nat (length s))) st = Ok (0, st) /\
  (0 ∉ s) /\ Z.of_nat (length s) < 2 ^ 32.

(** ** Lemmas *)

Lemma stored_nil m a : stored m a [] m.
Proof. intros k. rewrite decide_False by (simpl; lia). done. Qed.

Lemma stored_snoc m a l b m' :
  stored m a l m' -> stored m a (l ++ [b]) (<[a + Z.of_nat (length l) := b]> m').
Proof.
  intros Hs k. rewrite length_app. simpl. destruct (decide (k = a + Z.of_nat (length l))) as [->|Hk].
  - rewrite lookup_insert_eq, decide_True by lia.
    by replace (Z.to_nat (a + Z.of_nat (length l) - a)) with (length l) by lia; rewrite list_lookup_middle.
  - rewrite lookup_insert_ne by done. rewrite Hs.
    destruct (decide (a <= k < a + Z.of_nat (length l))).
    + rewrite decide_True by lia. by rewrite lookup_app_l by lia.
    + by rewrite decide_False by lia.
Qed.

Lemma stored_mapped m a l m' b n : stored m a l m' -> mapped m b n -> mapped m' b n.
Proof.
  intros Hs Hm k Hk. rewrite Hs. case_decide; [|by apply Hm].
  apply lookup_lt_is_Some. lia.
Qed.

Lemma wr8_wp m a b (Q : unit -> mem -> Prop) :
  is_Some (m !! a) -> Q tt (<[a := b]> m) -> wp (wr8 a b) Q m.
Proof. intros [x Hx] HQ. unfold wp, wr8. by rewrite Hx. Qed.

Lemma rd8_wp m a b (Q : Z -> mem -> Prop) : m !! a = Some b -> Q b m -> wp (rd8 a) Q m.
Proof. intros Hx HQ. unfold wp, rd8. by rewrite Hx. Qed.

(** The copy is byte by byte from the start: right when the regions do not
    overlap, or when the destination is before the source. *)
Lemma memcpy_wp m to from l :
  in_space to (Z.of_nat (length l)) -> in_space from (Z.of_nat (length l)) ->
  bytes_at m from l -> mapped m to (Z.of_nat (length l)) ->
  to <= from \/ from + Z.of_nat (length l) <= to ->
  wp (memcpy to from (Z.of_nat (length l))) (fun _ m' => stored m to l m') m.
Proof.
  intros Ht Hf Hb Hm Ho. unfold in_space in *. set (n := Z.of_nat (length l)) in *.
  eapply wp_mono.
  - apply (wp_for_range (fun i m' => stored m to (take (Z.to_nat i) l) m')); [lia|apply stored_nil|].
    intros i m' Hi Hs. destruct (lookup_lt_is_Some_2 l (Z.to_nat i)) as [b Eb]; [lia|].
    assert (Hlen : length (take (Z.to_nat i) l) = Z.to_nat i) by (rewrite length_take; lia).
    rewrite !u32_id by lia. apply wp_bind. apply (rd8_wp _ _ b).
    { rewrite Hs, decide_False by (rewrite Hlen; lia).
      replace (from + i) with (from + Z.of_nat (Z.to_nat i)) by lia. by apply Hb. }
    apply wr8_wp; [by eapply (stored_mapped _ _ _ _ _ _ Hs Hm); lia|].
    replace (Z.to_nat (i + 1)) with (Datatypes.S (Z.to_nat i)) by lia. rewrite (take_S_r _ _ b Eb).
    pose proof (stored_snoc _ _ _ b _ Hs) as Hs'. rewrite Hlen in Hs'.
    by replace (to + Z.of_nat (Z.to_nat i)) with (to + i) in Hs' by lia.
  - intros [] m'. unfold n. rewrite Nat2Z.id, firstn_all. done.
Qed.

Lemma memset_wp m to byte n :
  in_space to n -> mapped m to n ->
  wp (memset to byte n) (fun _ m' => stored m to (replicate (Z.to_nat n) byte) m') m.
Proof.
  intros Ht Hm. unfold in_space in *.
  apply (wp_for_range (fun i m' => stored m to (replicate (Z.to_nat i) byte) m')); [lia|apply stored_nil|].
  intros i m' Hi Hs. rewrite u32_id by lia.
  apply wr8_wp; [by eapply (stored_mapped _ _ _ _ _ _ Hs Hm); lia|].
  replace (Z.to_nat (i + 1)) with (Z.to_nat i + 1)%nat by lia. rewrite replicate_add.
  pose proof (stored_snoc _ _ _ byte _ Hs) as Hs'. rewrite length_replicate in Hs'.
  by replace (to + Z.of_nat (Z.to_nat i)) with (to + i) in Hs' by lia.
Qed.

Lemma for_all_run {S A} (l : list A) (f : A -> M S bool) (p : A -> bool) s :
  (forall x, x ∈ l -> f x s = Ok (p x, s)) -> for_all l f s = Ok (forallb p l, s).
Proof.
  induction l as [|x l IH]; intros Hf; [done|]. simpl. erewrite bind_ok; [|apply Hf; by left].
  destruct (p x); simpl; [|done]. apply IH. intros y Hy. apply Hf. by right.
Qed.

(** Comparing all the positions compares the lists. *)
Lemma forallb_range_eq (l1 l2 : list Z) :
  length l1 = length l2 ->
  forallb (fun i => (nth (Z.to_nat i) l1 0 =? nth (Z.to_nat i) l2 0)) (range 0 (Z.of_nat (length l1))) =
  bool_decide (l1 = l2).
Proof.
  intros Hlen. apply eq_true_iff_eq. rewrite forallb_forall, bool_decide_eq_true. split.
  - intros H. apply list_eq. intros i. destruct (decide (i < length l1)%nat) as [Hi|Hi].
    + specialize (H (Z.of_nat i)). rewrite Nat2Z.id in H.
      destruct (lookup_lt_is_Some_2 l1 i Hi) as [x Ex].
      destruct (lookup_lt_is_Some_2 l2 i) as [y Ey]; [lia|].
      rewrite (nth_lookup_Some _ _ _ _ Ex), (nth_lookup_Some _ _ _ _ Ey) in H.
      rewrite Ex, Ey. f_equal. apply Z.eqb_eq, H, list_elem_of_In, elem_of_range. lia.
    + by rewrite !lookup_ge_None_2 by lia.
  - intros -> i _. apply Z.eqb_refl.
Qed.

Lemma memeq_run m a1 l1 a2 l2 :
  length l1 = length l2 -> in_space a1 (Z.of_nat (length l1)) -> in_space a2 (Z.of_nat (length l1)) ->
  bytes_at m a1 l1 -> bytes_at m a2 l2 ->
  memeq a1 a2 (Z.of_nat (length l1)) m = Ok (bool_decide (l1 = l2), m).
Proof.
  intros Hlen H1 H2 Hb1 Hb2. unfold in_space in *. rewrite <- (forallb_range_eq l1 l2 Hlen).
  apply for_all_run. intros i Hi%elem_of_range. rewrite !u32_id by lia.
  destruct (lookup_lt_is_Some_2 l1 (Z.to_nat i)) as [x Ex]; [lia|].
  destruct (lookup_lt_is_Some_2 l2 (Z.to_nat i)) as [y Ey]; [lia|].
  rewrite (nth_lookup_Some _ _ _ _ Ex), (nth_lookup_Some _ _ _ _ Ey).
  apply Hb1 in Ex. apply Hb2 in Ey. rewrite Z2Nat.id in Ex, Ey by lia.
  unfold bind, rd8, must. rewrite Ex. simpl. by rewrite Ey.
Qed.

(** ** Strings *)

Section StringLemmas.
Context {S : Type} (st : S).

Lemma cstring_char (rd : Z -> M S Z) a s i c :
  cstring rd st a s -> s !! i = Some c -> rd (u32 (a + Z.of_nat i)) st = Ok (c, st) /\ c <> 0.
Proof.
  intros (Hr & _ & H0 & _) Hi. split; [by apply Hr|]. intros ->. by apply H0, (list_elem_of_lookup_2 _ i).
Qed.

Lemma strlen_from_run (rd : Z -> M S Z) a s fuel i :
  cstring rd st a s -> (i <= length s)%nat -> (length s - i < fuel)%nat ->
  strlen_from fuel rd a (Z.of_nat i) st = Ok (Z.of_nat (length s), st).
Proof.
  intros Hs. pose proof Hs as (_ & Hend & _ & Hlen). revert i.
  induction fuel as [|fuel IH]; intros i Hi Hf; [lia|]. simpl.
  destruct (decide (i = length s)) as [->|Hne]; [by erewrite bind_ok by exact Hend|].
  destruct (lookup_lt_is_Some_2 s i) as [c Ec]; [lia|].
  destruct (cstring_char _ _ _ _ _ Hs Ec) as [Hr Hc]. erewrite bind_ok by exact Hr.
  rewrite (proj2 (Z.eqb_neq c 0) Hc), u32_id by lia.
  replace (Z.of_nat i + 1) with (Z.of_nat (Datatypes.S i)) by lia. apply IH; lia.
Qed.

Lemma strlen_run fuel (rd : Z -> M S Z) a s :
  cstring rd st a s -> (length s < fuel)%nat -> strlen fuel rd a st = Ok (Z.of_nat (length s), st).
Proof. intros Hs Hf. apply (strlen_from_run rd a s fuel 0 Hs); lia. Qed.

Lemma strneq_run (rd1 rd2 : Z -> M S Z) a1 s1 a2 s2 :
  cstring rd1 st a1 s1 -> cstring rd2 st a2 s2 -> length s1 = length s2 ->
  strneq rd1 a1 rd2 a2 (Z.of_nat (length s1)) st = Ok (bool_decide (s1 = s2), st).
Proof.
  intros H1 H2 Hlen. rewrite <- (forallb_range_eq s1 s2 Hlen). apply for_all_run.
  intros i Hi%elem_of_range.
  destruct (lookup_lt_is_Some_2 s1 (Z.to_nat i)) as [x Ex]; [lia|].
  destruct (lookup_lt_is_Some_2 s2 (Z.to_nat i)) as [y Ey]; [lia|].
  rewrite (nth_lookup_Some _ _ _ _ Ex), (nth_lookup_Some _ _ _ _ Ey).
  apply (cstring_char _ _ _ _ _ H1) in Ex as [Ex _]. apply (cstring_char _ _ _ _ _ H2) in Ey as [Ey _].
  rewrite Z2Nat.id in Ex, Ey by lia. erewrite bind_ok by exact Ex. by erewrite bind_ok by exact Ey.
Qed.

(** [streq] decides equality of the characters. *)
Lemma streq_run fuel (rd1 rd2 : Z -> M S Z) a1 s1 a2 s2 :
  cstring rd1 st a1 s1 -> cstring rd2 st a2 s2 -> (length s1 < fuel)%nat -> (length s2 < fuel)%nat ->
  streq fuel rd1 a1 rd2 a2 st = Ok (bool_decide (s1 = s2), st).
Proof.
  intros H1 H2 Hf1 Hf2. unfold streq. erewrite bind_ok by (by apply strlen_run).
  erewrite bind_ok by (by apply strlen_run).
  destruct (Z.eqb_spec (Z.of_nat (length s1)) (Z.of_nat (length s2))) as [E|E]; simpl.
  - apply strneq_run; [done|done|lia].
  - rewrite bool_decide_false; [done|]. intros ->. done.
Qed.

(** The position of the first [ch] at or behind [begin]. *)
Definition find_chr (s : list Z) (ch begin : Z) : Z :=
  match list_find (fun c => c = ch) (drop (Z.to_nat begin) s) with
  | Some (i, _) => begin + Z.of_nat i
  | None => STR_NPOS
  end.

Lemma find_chr_loop_run fuel (rd : Z -> M S Z) a s ch k :
  cstring rd st a s -> (k <= length s)%nat -> (length s - k < fuel)%nat ->
  find_chr_loop fuel rd a ch (u32 (a + Z.of_nat k)) st = Ok (find_chr s ch (Z.of_nat k), st).
Proof.
  intros Hs. pose proof Hs as (_ & Hend & _ & Hlen). revert k.
  induction fuel as [|fuel IH]; intros k Hk Hf; [lia|]. simpl. unfold find_chr. rewrite Nat2Z.id.
  destruct (decide (k = length s)) as [->|Hne].
  { erewrite bind_ok by exact Hend. simpl. by rewrite drop_all. }
  destruct (lookup_lt_is_Some_2 s k) as [c Ec]; [lia|].
  destruct (cstring_char _ _ _ _ _ Hs Ec) as [Hr Hc]. erewrite bind_ok by exact Hr.
  rewrite (proj2 (Z.eqb_neq c 0) Hc). rewrite (drop_S _ _ _ Ec). cbn [list_find].
  destruct (Z.eqb_spec c ch) as [->|Hch].
  - rewrite decide_True by done. unfold ret. do 2 f_equal. unfold u32. rewrite Zminus_mod_idemp_l.
    rewrite Z.mod_small; lia.
  - rewrite decide_False by done.
    replace (u32 (u32 (a + Z.of_nat k) + 1)) with (u32 (a + Z.of_nat (Datatypes.S k))).
    2: { unfold u32. rewrite Zplus_mod_idemp_l. f_equal. lia. }
    rewrite IH by lia. unfold find_chr. rewrite Nat2Z.id.
    destruct (list_find _ _) as [[i x]|]; simpl; [|done]. do 2 f_equal. lia.
Qed.

Lemma str_find_chr_run fuel (rd : Z -> M S Z) a s ch begin :
  cstring rd st a s -> (length s < fuel)%nat -> 0 <= begin ->
  str_find_chr fuel rd a ch begin st = Ok (find_chr s ch begin, st).
Proof.
  intros Hs Hf Hb. unfold str_find_chr. erewrite bind_ok by (by apply strlen_run).
  destruct (Z.leb_spec (Z.of_nat (length s)) begin).
  - unfold find_chr. by rewrite drop_ge by lia.
  - pose proof (find_chr_loop_run fuel rd a s ch (Z.to_nat begin) Hs) as Hl. rewrite Z2Nat.id in Hl by lia.
    apply Hl; lia.
Qed.

End StringLemmas.

(** A string in a buffer of its own. *)
Lemma cstring_buf {S} (st : S) (s rest : list Z) :
  0 ∉ s -> Z.of_nat (length s) < 2 ^ 32 -> cstring (rd_buf (s ++ 0 :: rest)) st 0 s.
Proof.
  intros H0 Hl. unfold cstring, rd_buf. split_and!; [| |done|done].
  - intros i c Hi. pose proof (lookup_lt_Some _ _ _ Hi). rewrite u32_id by lia.
    replace (Z.to_nat (0 + Z.of_nat i)) with i by lia. by rewrite (lookup_app_l_Some _ _ _ _ Hi).
  - rewrite u32_id by lia. replace (Z.to_nat (0 + Z.of_nat (length s))) with (length s) by lia.
    by rewrite list_lookup_middle.
Qed.

(** A string in memory. *)
Lemma cstring_mem (m : mem) a s :
  0 ∉ s -> in_space a (Z.of_nat (length s) + 1) -> bytes_at m a (s ++ [0]) -> cstring rd8 m a s.
Proof.
  intros H0 Ha Hb. unfold in_space in Ha. unfold cstring, rd8. split_and!; [| |done|lia].
  - intros i c Hi. pose proof (lookup_lt_Some _ _ _ Hi). rewrite u32_id by lia.
    by rewrite (Hb i c) by (by apply lookup_app_l_Some).
  - rewrite u32_id by lia. by rewrite (Hb (length s) 0) by (by apply list_lookup_middle).
Qed.

(** ** Properties *)

(** [memcpy] writes exactly the source bytes at the destination, and
    nothing else, when the regions are disjoint or the destination is first;
    [memset] fills exactly the region; [memeq] decides equality of the two
    regions. *)
Theorem memory_ops_correct m to from l l' byte :
  length l' = length l -> in_space to (Z.of_nat (length l)) -> in_space from (Z.of_nat (length l)) ->
  bytes_at m from l -> bytes_at m to l' -> to <= from \/ from + Z.of_nat (length l) <= to ->
  (exists m', memcpy to from (Z.of_nat (length l)) m = Ok (tt, m') /\ stored m to l m') /\
  (exists m', memset to byte (Z.of_nat (length l)) m = Ok (tt, m') /\
     stored m to (replicate (length l) byte) m') /\
  memeq from to (Z.of_nat (length l)) m = Ok (bool_decide (l = l'), m).
Proof.
  intros Hl Ht Hf Hb Hb' Ho.
  assert (Hm : mapped m to (Z.of_nat (length l))).
  { intros k Hk. destruct (lookup_lt_is_Some_2 l' (Z.to_nat (k - to))) as [x Ex]; [lia|].
    apply Hb' in Ex. replace (to + Z.of_nat (Z.to_nat (k - to))) with k in Ex by lia. eauto. }
  split_and!; [| |by apply memeq_run].
  - pose proof (memcpy_wp m to from l Ht Hf Hb Hm Ho) as ([] & m' & ? & ?)%wp_ok. eauto.
  - pose proof (memset_wp m to byte _ Ht Hm) as ([] & m' & ? & Hs)%wp_ok. rewrite Nat2Z.id in Hs. eauto.
Qed.

Definition sample_mem : mem := list_to_map (imap (fun i b => (0x100 + Z.of_nat i, b)) [7; 8; 9; 1; 2; 3]).

Lemma memory_ops_correct_witness :
  (exists m', memcpy 0x103 0x100 3 sample_mem = Ok (tt, m') /\ stored sample_mem 0x103 [7; 8; 9] m') /\
  memeq 0x100 0x103 3 sample_mem = Ok (false, sample_mem).
Proof.
  pose proof (memory_ops_correct sample_mem 0x103 0x100 [7; 8; 9] [1; 2; 3] 0) as H.
  unfold in_space in H. simpl in H.
  destruct H as (H1 & _ & H3); [done|lia|lia| | |right; lia|].
  - intros [|[|[|i]]] b Hi; simplify_eq/=; reflexivity.
  - intros [|[|[|i]]] b Hi; simplify_eq/=; reflexivity.
  - split; [exact H1|exact H3].
Defined.

(** on NUL-terminated strings, wherever they are, [strlen] returns the
    number of characters, [streq] decides whether the strings are equal, and
    [str_find_chr] returns the first position of the character at or behind
    [begin], or [STR_NPOS] when there is none. *)
Theorem string_ops_correct {S} (st : S) (rd1 rd2 : Z -> M S Z) fuel a1 s1 a2 s2 ch begin :
  cstring rd1 st a1 s1 -> cstring rd2 st a2 s2 -> (length s1 < fuel)%nat -> (length s2 < fuel)%nat ->
  0 <= begin ->
  strlen fuel rd1 a1 st = Ok (Z.of_nat (length s1), st) /\
  streq fuel rd1 a1 rd2 a2 st = Ok (bool_decide (s1 = s2), st) /\
  exists r, str_find_chr fuel rd1 a1 ch begin st = Ok (r, st) /\
    (r = STR_NPOS /\ (forall i, begin <= Z.of_nat i -> s1 !! i <> Some ch) \/
     exists i, r = Z.of_nat i /\ begin <= r /\ s1 !! i = Some ch /\
       forall j, begin <= Z.of_nat j -> (j < i)%nat -> s1 !! j <> Some ch).
Proof.
  intros H1 H2 Hf1 Hf2 Hb. split_and!; [by apply strlen_run|by apply streq_run|].
  eexists. split; [by apply str_find_chr_run|]. unfold find_chr.
  destruct (list_find _ _) as [[i x]|] eqn:E; [right|left].
  - apply list_find_Some in E as (Ei & -> & Hj). rewrite lookup_drop in Ei.
    exists (Z.to_nat begin + i)%nat. split_and!; [lia|lia|done|]. intros j Hbj Hji Ej.
    apply (Hj (j - Z.to_nat begin)%nat ch); [|lia|done]. rewrite lookup_drop. rewrite <- Ej. f_equal. lia.
  - split; [done|]. apply list_find_None in E. intros i Hi Ei. rewrite Forall_forall in E.
    apply (E ch); [|done]. apply (list_elem_of_lookup_2 _ (i - Z.to_nat begin)). rewrite lookup_drop.
    rewrite <- Ei. f_equal. lia.
Qed.

Lemma string_ops_correct_witness :
  strlen 8 (rd_buf [47; 97; 47; 0]) 0 tt = Ok (3, tt) /\
  streq 8 (rd_buf [47; 97; 47; 0]) 0 (rd_buf [47; 97; 0]) 0 tt = Ok (false, tt).
Proof.
  destruct (string_ops_correct tt (rd_buf [47; 97; 47; 0]) (rd_buf [47; 97; 0]) 8 0 [47; 97; 47] 0 [47; 97] 47 1)
    as (H1 & H2 & _).
  - apply (cstring_buf tt [47; 97; 47] []); [by vm_compute; set_solver|simpl; lia].
  - apply (cstring_buf tt [47; 97] []); [by vm_compute; set_solver|simpl; lia].
  - simpl. lia.
  - simpl. lia.
  - lia.
  - split; [exact H1|exact H2].
Defined.
