(* ===== verification/RwLock.v ===== *)
(** * Readers-writer locks and atomics: [src/rw_lock.c], [src/atomic.c],
    [src/atomic_asm.S]

    The lock is two spinlocks and the number of readers.  The functions are
    written over the spinlock functions of [Spinlock]; [rwlock_read_lock] and
    the others are the whole functions as one cpu runs them, [rw_step] runs
    them statement by statement on any number of cpus, a spinlock operation
    being one step (its accesses are interleaved in [Spinlock], where it is
    shown to be exclusive). *)

From S2P Require Import Prelude Spinlock.

(** ** Atomics

    [int32_t] values; [lock add], [lock xadd] and [lock dec] are one access. *)

Record atomic_t := mk_atomic { value : Z }.

Definition atomic_init (value : Z) : M atomic_t unit := modify (fun _ => mk_atomic value).
Definition atomic_read : M atomic_t Z := gets value.
Definition atomic_write (v : Z) : M atomic_t unit := modify (fun _ => mk_atomic v).
Definition atomic_add (v : Z) : M atomic_t unit := modify (fun a => mk_atomic (s32 (value a + v))).
Definition atomic_inc : M atomic_t unit := atomic_add 1.
Definition atomic_dec : M atomic_t unit := atomic_add (-1).
Definition atomic_sub (v : Z) : M atomic_t unit := atomic_add (s32 (- v)).
Definition atomic_fetch_and_add (v : Z) : M atomic_t Z :=
  fun a => Ok (value a, mk_atomic (s32 (value a + v))).
Definition atomic_fetch_and_sub (v : Z) : M atomic_t Z := atomic_fetch_and_add (s32 (- v)).
Definition atomic_dec_and_test : M atomic_t bool :=
  fun a => Ok (s32 (value a - 1) =? 0, mk_atomic (s32 (value a - 1))).

(** ** The lock *)

Record rwlock_t := mk_rwlock {
  readers_lock : spinlock_t;
  num_readers : Z;
  writer_lock : spinlock_t }.

Definition INIT_RW_LOCK : rwlock_t := mk_rwlock INIT_SPINLOCK 0 INIT_SPINLOCK.

(** The lock and the interrupt flag of the cpu. *)
Abbreviation rwst := (rwlock_t * bool)%type.

Definition on_readers_lock {A} : M lockst A -> M rwst A :=
  zoom (fun s => (readers_lock s.1, s.2))
       (fun p s => (mk_rwlock p.1 (num_readers s.1) (writer_lock s.1), p.2)).
Definition on_writer_lock {A} : M lockst A -> M rwst A :=
  zoom (fun s => (writer_lock s.1, s.2))
       (fun p s => (mk_rwlock (readers_lock s.1) (num_readers s.1) p.1, p.2)).
Definition set_num_readers (n : Z) : M rwst unit :=
  modify (fun s => (mk_rwlock (readers_lock s.1) n (writer_lock s.1), s.2)).
Definition cpu_set_interrupt_flag (b : bool) : M rwst unit := modify (fun s => (s.1, b)).

Section Functions.
Context (cpu_id : Z).

Definition rwlock_init : M rwst unit := modify (fun s => (INIT_RW_LOCK, s.2)).

Definition rwlock_read_lock : M rwst unit :=
  on_readers_lock (spinlock_lock cpu_id);;;
  do n <- gets (fun s => num_readers s.1); set_num_readers (u32 (n + 1));;;
  do n <- gets (fun s => num_readers s.1);
  when (n =? 1)
    (cpu_set_interrupt_flag true;;;
     on_writer_lock (spinlock_lock cpu_id));;;
  on_readers_lock (spinlock_unlock cpu_id).

Definition rwlock_read_unlock : M rwst unit :=
  on_readers_lock (spinlock_lock cpu_id);;;
  do n <- gets (fun s => num_readers s.1); set_num_readers (u32 (n - 1));;;
  do n <- gets (fun s => num_readers s.1);
  when (n =? 0)
    (on_writer_lock (update_lock (set_owner cpu_id));;;
     on_writer_lock (spinlock_unlock cpu_id));;;
  on_readers_lock (spinlock_unlock cpu_id).

Definition rwlock_write_lock : M rwst unit := on_writer_lock (spinlock_lock cpu_id).
Definition rwlock_write_unlock : M rwst unit := on_writer_lock (spinlock_unlock cpu_id).

End Functions.

(** ** Several cpus *)

(** Where a cpu is.  [RLockR] to [RUnlockR] is [rwlock_read_lock], [ULockR] to
    [UUnlockR] is [rwlock_read_unlock]. *)
Inductive rw_pc :=
| RwIdle
| RLockR | RInc | RFirst | RSetIF | RLockW | RUnlockR
| Reading
| ULockR | UDec | UTest | UOwner | UUnlockW | UUnlockR
| WLock | Writing | WUnlock
| RwFailed.

#[export] Instance rw_pc_eq_dec : EqDecision rw_pc.
Proof. solve_decision. Defined.

Record rw_cpu := mk_rw_cpu { rw_at : rw_pc; rw_IF : bool }.

(** Run a statement; a spinlock that is taken keeps the cpu where it is. *)
Definition run_stmt (m : M rwst unit) (next : rw_pc) (l : rwlock_t) (t : rw_cpu) : rwlock_t * rw_cpu :=
  match m (l, rw_IF t) with
  | Ok (_, (l', i)) => (l', mk_rw_cpu next i)
  | Halt (Hang _) => (l, t)
  | Halt _ => (l, mk_rw_cpu RwFailed (rw_IF t))
  end.

(** [write] is what an idle cpu does next. *)
Definition rw_cpu_step (c : Z) (write : bool) (l : rwlock_t) (t : rw_cpu) : rwlock_t * rw_cpu :=
  match rw_at t with
  | RwIdle => (l, mk_rw_cpu (if write then WLock else RLockR) (rw_IF t))
  | RLockR => run_stmt (on_readers_lock (spinlock_lock c)) RInc l t
  | RInc => run_stmt (set_num_readers (u32 (num_readers l + 1))) RFirst l t
  | RFirst => (l, mk_rw_cpu (if num_readers l =? 1 then RSetIF else RUnlockR) (rw_IF t))
  | RSetIF => run_stmt (cpu_set_interrupt_flag true) RLockW l t
  | RLockW => run_stmt (on_writer_lock (spinlock_lock c)) RUnlockR l t
  | RUnlockR => run_stmt (on_readers_lock (spinlock_unlock c)) Reading l t
  | Reading => (l, mk_rw_cpu ULockR (rw_IF t))
  | ULockR => run_stmt (on_readers_lock (spinlock_lock c)) UDec l t
  | UDec => run_stmt (set_num_readers (u32 (num_readers l - 1))) UTest l t
  | UTest => (l, mk_rw_cpu (if num_readers l =? 0 then UOwner else UUnlockR) (rw_IF t))
  | UOwner => run_stmt (on_writer_lock (update_lock (set_owner c))) UUnlockW l t
  | UUnlockW => run_stmt (on_writer_lock (spinlock_unlock c)) UUnlockR l t
  | UUnlockR => run_stmt (on_readers_lock (spinlock_unlock c)) RwIdle l t
  | WLock => run_stmt (on_writer_lock (spinlock_lock c)) Writing l t
  | Writing => (l, mk_rw_cpu WUnlock (rw_IF t))
  | WUnlock => run_stmt (on_writer_lock (spinlock_unlock c)) RwIdle l t
  | RwFailed => (l, t)
  end.

Record rw_machine := mk_rw { rwl : rwlock_t; rw_cpus : Z -> rw_cpu }.

Definition rw_run (c : Z) (write : bool) (m : rw_machine) : rw_machine :=
  mk_rw (rw_cpu_step c write (rwl m) (rw_cpus m c)).1
    (fun c' => if decide (c' = c) then (rw_cpu_step c write (rwl m) (rw_cpus m c)).2 else rw_cpus m c').

Inductive rw_step : rw_machine -> rw_machine -> Prop :=
| rw_step_cpu c write m : is_cpu c -> rw_step m (rw_run c write m).

Definition rw_initial (m : rw_machine) : Prop :=
  rwl m = INIT_RW_LOCK /\ forall c, rw_at (rw_cpus m c) = RwIdle.

(** ** The invariant *)

(** The cpu holds the readers' lock; holds the writer lock as a writer; is
    counted in [num_readers]. *)
Definition inR (p : rw_pc) : bool :=
  match p with
  | RInc | RFirst | RSetIF | RLockW | RUnlockR | UDec | UTest | UOwner | UUnlockW | UUnlockR => true
  | _ => false
  end.
Definition inW (p : rw_pc) : bool := match p with Writing | WUnlock => true | _ => false end.
Definition counts (p : rw_pc) : bool :=
  match p with RFirst | RSetIF | RLockW | RUnlockR | Reading | ULockR | UDec => true | _ => false end.

(** What the cpu that holds the readers' lock knows: [rh] says that the readers
    hold the writer lock. *)
Definition hold_rel (p : rw_pc) (n : Z) (rh : bool) : Prop :=
  match p with
  | RInc | UUnlockR => rh = (1 <=? n)
  | RFirst => rh = (2 <=? n)
  | RSetIF | RLockW => rh = false /\ n = 1
  | RUnlockR => rh = true /\ 1 <= n
  | UDec | UTest => rh = true
  | UOwner | UUnlockW => rh = true /\ n = 0
  | _ => True
  end.

Abbreviation pc_of m c := (rw_at (rw_cpus m c)).

Record inv_R (m : rw_machine) (rh : bool) : Prop := {
  ir_held : forall c, is_cpu c -> inR (pc_of m c) = true ->
    lock (readers_lock (rwl m)) = 1 /\ owner (readers_lock (rwl m)) = c /\
    hold_rel (pc_of m c) (num_readers (rwl m)) rh;
  ir_free : (forall c, is_cpu c -> inR (pc_of m c) = false) ->
    unlocked (readers_lock (rwl m)) /\ rh = (1 <=? num_readers (rwl m)) }.

Record inv_W (m : rw_machine) (rh : bool) : Prop := {
  iw_held : forall c, is_cpu c -> inW (pc_of m c) = true ->
    lock (writer_lock (rwl m)) = 1 /\ owner (writer_lock (rwl m)) = c /\ rh = false;
  iw_free : rh = false -> (forall c, is_cpu c -> inW (pc_of m c) = false) -> unlocked (writer_lock (rwl m));
  iw_readers : rh = true -> lock (writer_lock (rwl m)) = 1;
  iw_owner : forall c, is_cpu c -> pc_of m c = UUnlockW -> owner (writer_lock (rwl m)) = c }.

Definition readers (m : rw_machine) : gset Z :=
  filter (fun c => counts (pc_of m c) = true) (list_to_set (range 0 NO_OWNER)).

Record rw_inv (m : rw_machine) (rh : bool) : Prop := {
  rw_R : inv_R m rh;
  rw_W : inv_W m rh;
  rw_count : num_readers (rwl m) = Z.of_nat (size (readers m));
  rw_nofail : forall c, is_cpu c -> pc_of m c <> RwFailed }.

(** The machine after cpu [c] moved. *)
Definition moved (m : rw_machine) (c : Z) (l' : rwlock_t) (t' : rw_cpu) : rw_machine :=
  mk_rw l' (fun c' => if decide (c' = c) then t' else rw_cpus m c').

(** A set with or without [c]. *)
Lemma size_toggle (X : gset Z) (c : Z) (before after : bool) :
  (c ∈ X <-> before = true) ->
  Z.of_nat (size (if after then {[c]} ∪ X else X ∖ {[c]})) = Z.of_nat (size X) + b2z after - b2z before.
Proof.
  intros He. unfold b2z. destruct after, before.
  - assert ({[c]} ∪ X = X) as -> by set_solver. lia.
  - assert (Hn : {[c]} ## X) by set_solver. rewrite (size_union _ _ Hn), size_singleton. lia.
  - assert (Hin : c ∈ X) by tauto. assert (Hn : {[c]} ## X ∖ {[c]}) by set_solver.
    pose proof (size_union _ _ Hn) as E. rewrite <- union_difference_singleton_L, size_singleton in E by done. lia.
  - assert (X ∖ {[c]} = X) as -> by set_solver. lia.
Qed.

Section Moved.
Context (m : rw_machine) (rh : bool) (c : Z) (l' : rwlock_t) (t' : rw_cpu).
Hypothesis Hc : is_cpu c.

Lemma moved_self : pc_of (moved m c l' t') c = rw_at t'.
Proof. simpl. by rewrite decide_True. Qed.
Lemma moved_other c' : c' <> c -> pc_of (moved m c l' t') c' = pc_of m c'.
Proof. intros. simpl. by rewrite decide_False. Qed.

(** The holder of the readers' lock is unique. *)
Lemma inR_unique c' : inv_R m rh -> is_cpu c' -> c' <> c -> inR (pc_of m c) = true -> inR (pc_of m c') = false.
Proof.
  intros HR Hc' Hne Hin. destruct (inR (pc_of m c')) eqn:E; [|done].
  destruct (ir_held _ _ HR c Hc Hin) as (_ & ? & _). destruct (ir_held _ _ HR c' Hc' E) as (_ & ? & _). congruence.
Qed.

Lemma inR_none c' : inv_R m rh -> is_cpu c' -> unlocked (readers_lock (rwl m)) -> inR (pc_of m c') = false.
Proof.
  intros HR Hc' [H0 _]. destruct (inR (pc_of m c')) eqn:E; [|done].
  destruct (ir_held _ _ HR c' Hc' E) as (? & _). lia.
Qed.

(** A cpu that stays outside. *)
Lemma inv_R_out :
  inv_R m rh -> inR (pc_of m c) = false -> inR (rw_at t') = false ->
  readers_lock l' = readers_lock (rwl m) -> num_readers l' = num_readers (rwl m) ->
  inv_R (moved m c l' t') rh.
Proof.
  intros HR Hp Hp' HRl Hn. split.
  - intros c' Hc' Hin. destruct (decide (c' = c)) as [->|Hne]; [rewrite moved_self in Hin; congruence|].
    rewrite moved_other in Hin |- * by done. simpl. rewrite HRl, Hn. by apply HR.
  - intros Hnone. simpl. rewrite HRl, Hn. apply HR. intros c' Hc'. destruct (decide (c' = c)) as [->|Hne]; [done|].
    specialize (Hnone c' Hc'). by rewrite moved_other in Hnone.
Qed.

(** A cpu that has the readers' lock afterwards: it had it, or it was free. *)
Lemma inv_R_in rh' :
  inv_R m rh -> inR (pc_of m c) = true \/ unlocked (readers_lock (rwl m)) -> inR (rw_at t') = true ->
  lock (readers_lock l') = 1 -> owner (readers_lock l') = c -> hold_rel (rw_at t') (num_readers l') rh' ->
  inv_R (moved m c l' t') rh'.
Proof.
  intros HR Hp Hp' Hl Ho Hh. split.
  - intros c' Hc' Hin. destruct (decide (c' = c)) as [->|Hne]; [by rewrite moved_self|].
    rewrite moved_other in Hin by done. destruct Hp as [Hp|Hp].
    + rewrite inR_unique in Hin; done.
    + rewrite inR_none in Hin; done.
  - intros Hnone. specialize (Hnone c Hc). rewrite moved_self in Hnone. congruence.
Qed.

(** A cpu that releases the readers' lock. *)
Lemma inv_R_release rh' :
  inv_R m rh -> inR (pc_of m c) = true -> inR (rw_at t') = false ->
  unlocked (readers_lock l') -> rh' = (1 <=? num_readers l') -> inv_R (moved m c l' t') rh'.
Proof.
  intros HR Hp Hp' Hl Hr. split; [|done].
  intros c' Hc' Hin. destruct (decide (c' = c)) as [->|Hne]; [rewrite moved_self in Hin; congruence|].
  rewrite moved_other in Hin by done. rewrite inR_unique in Hin; done.
Qed.

(** No writer. *)
Lemma inW_none c' : inv_W m rh -> is_cpu c' -> rh = true \/ unlocked (writer_lock (rwl m)) -> inW (pc_of m c') = false.
Proof.
  intros HW Hc' H. destruct (inW (pc_of m c')) eqn:E; [|done].
  destruct (iw_held _ _ HW c' Hc' E) as (? & _ & ?). destruct H as [?|[? _]]; [congruence|lia].
Qed.

(** The writer lock is not touched. *)
Lemma inv_W_same :
  inv_W m rh -> inW (rw_at t') = inW (pc_of m c) -> writer_lock l' = writer_lock (rwl m) ->
  rw_at t' <> UUnlockW -> inv_W (moved m c l' t') rh.
Proof.
  intros HW Hp Hl Hu. split; simpl; rewrite ?Hl.
  - intros c' Hc' Hin. destruct (decide (c' = c)) as [->|Hne]; apply (iw_held _ _ HW); [done|congruence|done|done].
  - intros Hr Hnone. apply (iw_free _ _ HW); [done|]. intros c' Hc'. specialize (Hnone c' Hc').
    destruct (decide (c' = c)) as [->|Hne]; congruence.
  - apply (iw_readers _ _ HW).
  - intros c' Hc' Hin. destruct (decide (c' = c)) as [->|Hne]; [congruence|by apply (iw_owner _ _ HW)].
Qed.

(** The writer lock changes hands; at most [c] is a writer before and after. *)
Lemma inv_W_change rh' :
  inv_R m rh -> inv_W m rh ->
  (forall c', is_cpu c' -> c' <> c -> inW (pc_of m c') = false) ->
  (forall c', is_cpu c' -> c' <> c -> pc_of m c' <> UUnlockW) ->
  (inW (rw_at t') = true -> lock (writer_lock l') = 1 /\ owner (writer_lock l') = c /\ rh' = false) ->
  (rh' = false -> inW (rw_at t') = false -> unlocked (writer_lock l')) ->
  (rh' = true -> lock (writer_lock l') = 1) ->
  (rw_at t' = UUnlockW -> owner (writer_lock l') = c) ->
  inv_W (moved m c l' t') rh'.
Proof.
  intros HR HW Hoth Hou H1 H2 H3 H4. split; simpl.
  - intros c' Hc' Hin. destruct (decide (c' = c)) as [->|Hne]; [by apply H1|]. rewrite Hoth in Hin; done.
  - intros Hr Hnone. apply H2; [done|]. specialize (Hnone c Hc). by rewrite decide_True in Hnone.
  - done.
  - intros c' Hc' Hin. destruct (decide (c' = c)) as [->|Hne]; [by apply H4|]. by destruct (Hou c' Hc' Hne).
Qed.

(** The number of readers. *)
Lemma readers_moved :
  readers (moved m c l' t') =
  if counts (rw_at t') then {[c]} ∪ readers m else readers m ∖ {[c]}.
Proof.
  apply set_eq. intros x. unfold readers at 1. rewrite elem_of_filter, elem_of_list_to_set, elem_of_range.
  assert (Hx : x ∈ readers m <-> counts (pc_of m x) = true /\ 0 <= x < NO_OWNER).
  { unfold readers. by rewrite elem_of_filter, elem_of_list_to_set, elem_of_range. }
  simpl. destruct (decide (x = c)) as [->|Hne].
  - destruct (counts (rw_at t')); set_solver.
  - destruct (counts (rw_at t')); set_solver.
Qed.

Lemma readers_elem : c ∈ readers m <-> counts (pc_of m c) = true.
Proof.
  unfold readers. rewrite elem_of_filter, elem_of_list_to_set, elem_of_range. unfold is_cpu in Hc. tauto.
Qed.

Lemma readers_size :
  Z.of_nat (size (readers (moved m c l' t'))) =
  Z.of_nat (size (readers m)) + b2z (counts (rw_at t')) - b2z (counts (pc_of m c)).
Proof. rewrite readers_moved. apply size_toggle, readers_elem. Qed.

End Moved.

Lemma readers_bound m : Z.of_nat (size (readers m)) <= 255.
Proof.
  assert (Hs : (size (readers m) <= size (list_to_set (range 0 NO_OWNER) : gset Z))%nat).
  { apply subseteq_size. intros x Hx. unfold readers in Hx. by apply elem_of_filter in Hx as []. }
  rewrite size_range in Hs. unfold NO_OWNER in Hs. lia.
Qed.

(** ** Every step keeps the invariant *)

Lemma rw_inv_moved m rh rh' c l' t' :
  rw_inv m rh -> is_cpu c -> inv_R (moved m c l' t') rh' -> inv_W (moved m c l' t') rh' ->
  num_readers l' = num_readers (rwl m) + b2z (counts (rw_at t')) - b2z (counts (pc_of m c)) ->
  rw_at t' <> RwFailed -> rw_inv (moved m c l' t') rh'.
Proof.
  intros HI Hc HR HW Hn Hf. split; [done|done| |].
  - rewrite readers_size by done. change (rwl (moved m c l' t')) with l'. rewrite Hn, (rw_count _ _ HI). done.
  - intros c' Hc'. destruct (decide (c' = c)) as [->|Hne]; [by rewrite moved_self|].
    rewrite moved_other by done. by apply (rw_nofail _ _ HI).
Qed.

Lemma spinlock_form l c : lock l = 1 -> owner l = c -> l = mk_spinlock 1 (interrupts_enabled l) c.
Proof. destruct l. simpl. by intros -> ->. Qed.

Section Step.
Context (m : rw_machine) (rh : bool) (c : Z).
Hypothesis HI : rw_inv m rh.
Hypothesis Hc : is_cpu c.

Abbreviation L := (rwl m).
Abbreviation T := (rw_cpus m c).

Lemma readers_lock_free : lock (readers_lock L) = 0 -> unlocked (readers_lock L) /\ rh = (1 <=? num_readers L).
Proof.
  intros H0. apply (ir_free _ _ (rw_R _ _ HI)). intros c' Hc'. destruct (inR (pc_of m c')) eqn:E; [|done].
  destruct (ir_held _ _ (rw_R _ _ HI) c' Hc' E) as (? & _). lia.
Qed.

Lemma writer_lock_free : lock (writer_lock L) = 0 -> unlocked (writer_lock L) /\ rh = false.
Proof.
  intros H0. pose proof (rw_W _ _ HI) as HW.
  assert (rh = false) as Hr by (destruct rh; [pose proof (iw_readers _ _ HW eq_refl); lia|done]).
  split; [|done]. apply (iw_free _ _ HW); [done|]. intros c' Hc'. destruct (inW (pc_of m c')) eqn:E; [|done].
  destruct (iw_held _ _ HW c' Hc' E) as (? & _). lia.
Qed.

Lemma counted_pos : counts (pc_of m c) = true -> 1 <= num_readers L.
Proof.
  intros Hp. rewrite (rw_count _ _ HI).
  assert (Hin : c ∈ readers m) by (by apply readers_elem).
  assert (size (readers m) <> 0%nat); [|lia]. intros E%size_empty_iff. specialize (E c). set_solver.
Qed.

Lemma num_readers_range : 0 <= num_readers L <= 255.
Proof. rewrite (rw_count _ _ HI). pose proof (readers_bound m). lia. Qed.

(** A cpu that waits for a lock. *)
Lemma rw_stay : pc_of m c <> UUnlockW -> exists rh', rw_inv (moved m c L T) rh'.
Proof.
  intros Hu. exists rh. apply (rw_inv_moved _ rh); [done|done| | |lia|by apply (rw_nofail _ _ HI)].
  - destruct (inR (pc_of m c)) eqn:E.
    + destruct (ir_held _ _ (rw_R _ _ HI) c Hc E) as (? & ? & ?). eapply (inv_R_in _ rh); [done|apply HI|by left|done..].
    + apply inv_R_out; try done. apply HI.
  - apply inv_W_same; try done. apply HI.
Qed.

(** The step from [p] to [p'] that changes neither lock. *)
Lemma rw_local p' l' i rh' :
  readers_lock l' = readers_lock L -> writer_lock l' = writer_lock L -> rh' = rh ->
  inR p' = inR (pc_of m c) -> inW p' = inW (pc_of m c) -> p' <> UUnlockW -> p' <> RwFailed ->
  (inR p' = true -> hold_rel p' (num_readers l') rh') ->
  (inR p' = false -> num_readers l' = num_readers L) ->
  num_readers l' = num_readers L + b2z (counts p') - b2z (counts (pc_of m c)) ->
  exists rh', rw_inv (moved m c l' (mk_rw_cpu p' i)) rh'.
Proof.
  intros ER EW -> HinR HinW Hu Hf Hh Hn0 Hn. exists rh.
  apply (rw_inv_moved _ rh); [done|done| | |done|done].
  - destruct (inR p') eqn:E.
    + symmetry in HinR. destruct (ir_held _ _ (rw_R _ _ HI) c Hc HinR) as (? & ? & _).
      eapply (inv_R_in _ rh); [done|apply HI|by left|done|by rewrite ER|by rewrite ER|]. simpl. auto.
    + apply inv_R_out; [apply HI|done|done|done|auto].
  - apply inv_W_same; [apply HI|done|done|done].
Qed.

Lemma others_not_unlocking : inR (pc_of m c) = true \/ rh = false ->
  forall c', is_cpu c' -> c' <> c -> pc_of m c' <> UUnlockW.
Proof.
  intros H c' Hc' Hne Hp.
  assert (HinR : inR (pc_of m c') = true) by (by rewrite Hp). destruct H as [H|H].
  - rewrite (inR_unique m rh c Hc c') in HinR; [done|apply HI|done..].
  - destruct (ir_held _ _ (rw_R _ _ HI) c' Hc' HinR) as (_ & _ & Hh). rewrite Hp in Hh. simpl in Hh.
    destruct Hh. congruence.
Qed.

(** The spinlock operations inside a step. *)
Lemma stmt_lock_R p' :
  run_stmt (on_readers_lock (spinlock_lock c)) p' L T =
  if decide (lock (readers_lock L) = 0)
  then (mk_rwlock (mk_spinlock 1 (rw_IF T) c) (num_readers L) (writer_lock L), mk_rw_cpu p' false)
  else (L, T).
Proof.
  unfold run_stmt, on_readers_lock, zoom. cbn [fst snd]. case_decide as H0.
  - by rewrite spinlock_lock_run by (by apply readers_lock_free).
  - by rewrite spinlock_lock_hangs.
Qed.

Lemma stmt_lock_W p' :
  run_stmt (on_writer_lock (spinlock_lock c)) p' L T =
  if decide (lock (writer_lock L) = 0)
  then (mk_rwlock (readers_lock L) (num_readers L) (mk_spinlock 1 (rw_IF T) c), mk_rw_cpu p' false)
  else (L, T).
Proof.
  unfold run_stmt, on_writer_lock, zoom. cbn [fst snd]. case_decide as H0.
  - by rewrite spinlock_lock_run by (by apply writer_lock_free).
  - by rewrite spinlock_lock_hangs.
Qed.

Lemma stmt_unlock_R p' :
  inR (pc_of m c) = true ->
  run_stmt (on_readers_lock (spinlock_unlock c)) p' L T =
  (mk_rwlock (mk_spinlock 0 (interrupts_enabled (readers_lock L)) NO_OWNER) (num_readers L) (writer_lock L),
   mk_rw_cpu p' (interrupts_enabled (readers_lock L))).
Proof.
  intros Hp. destruct (ir_held _ _ (rw_R _ _ HI) c Hc Hp) as (Hl & Ho & _).
  unfold run_stmt, on_readers_lock, zoom. cbn [fst snd]. rewrite (spinlock_form _ _ Hl Ho) at 1.
  by rewrite spinlock_unlock_run.
Qed.

Lemma stmt_unlock_W p' :
  lock (writer_lock L) = 1 -> owner (writer_lock L) = c ->
  run_stmt (on_writer_lock (spinlock_unlock c)) p' L T =
  (mk_rwlock (readers_lock L) (num_readers L) (mk_spinlock 0 (interrupts_enabled (writer_lock L)) NO_OWNER),
   mk_rw_cpu p' (interrupts_enabled (writer_lock L))).
Proof.
  intros Hl Ho. unfold run_stmt, on_writer_lock, zoom. cbn [fst snd]. rewrite (spinlock_form _ _ Hl Ho) at 1.
  by rewrite spinlock_unlock_run.
Qed.

(** A reader takes the readers' lock. *)
Lemma step_take_R p p' :
  pc_of m c = p -> (p, p') = (RLockR, RInc) \/ (p, p') = (ULockR, UDec) ->
  exists rh', rw_inv (moved m c (run_stmt (on_readers_lock (spinlock_lock c)) p' L T).1
                              (run_stmt (on_readers_lock (spinlock_lock c)) p' L T).2) rh'.
Proof.
  intros Hp Hpp. rewrite stmt_lock_R. case_decide as H0.
  2: { apply rw_stay. rewrite Hp. by destruct Hpp as [[= -> ->]|[= -> ->]]. }
  destruct (readers_lock_free H0) as [Hu Hr]. pose proof (counted_pos) as Hcnt. exists rh.
  apply (rw_inv_moved _ rh); [done|done| | | |by destruct Hpp as [[= -> ->]|[= -> ->]]].
  - eapply (inv_R_in _ rh); [done|apply HI|by right|by destruct Hpp as [[= -> ->]|[= -> ->]]|done|done|].
    destruct Hpp as [[= -> ->]|[= -> ->]]; simpl; [done|]. rewrite Hp in Hcnt. specialize (Hcnt eq_refl).
    rewrite Hr. by apply Z.leb_le.
  - apply inv_W_same; [apply HI| |done|]; rewrite ?Hp; by destruct Hpp as [[= -> ->]|[= -> ->]].
  - rewrite Hp. simpl. destruct Hpp as [[= -> ->]|[= -> ->]]; simpl; lia.
Qed.

(** A reader releases the readers' lock. *)
Lemma step_release_R p p' :
  pc_of m c = p -> (p, p') = (RUnlockR, Reading) \/ (p, p') = (UUnlockR, RwIdle) ->
  exists rh', rw_inv (moved m c (run_stmt (on_readers_lock (spinlock_unlock c)) p' L T).1
                              (run_stmt (on_readers_lock (spinlock_unlock c)) p' L T).2) rh'.
Proof.
  intros Hp Hpp. assert (HinR : inR (pc_of m c) = true) by (rewrite Hp; by destruct Hpp as [[= -> ->]|[= -> ->]]).
  rewrite stmt_unlock_R by done. exists rh. pose proof (ir_held _ _ (rw_R _ _ HI) c Hc HinR) as (_ & _ & Hh).
  apply (rw_inv_moved _ rh); [done|done| | | |by destruct Hpp as [[= -> ->]|[= -> ->]]].
  - eapply (inv_R_release _ rh); [done|apply HI|done|by destruct Hpp as [[= -> ->]|[= -> ->]]|done|].
    simpl. rewrite Hp in Hh. destruct Hpp as [[= -> ->]|[= -> ->]]; simpl in Hh; [|done].
    destruct Hh as [-> ?]. symmetry. by apply Z.leb_le.
  - apply inv_W_same; [apply HI| |done|]; rewrite ?Hp; by destruct Hpp as [[= -> ->]|[= -> ->]].
  - rewrite Hp. simpl. destruct Hpp as [[= -> ->]|[= -> ->]]; simpl; lia.
Qed.

(** The first reader, and a writer, take the writer lock. *)
Lemma step_take_W p p' :
  pc_of m c = p -> (p, p') = (RLockW, RUnlockR) \/ (p, p') = (WLock, Writing) ->
  exists rh', rw_inv (moved m c (run_stmt (on_writer_lock (spinlock_lock c)) p' L T).1
                              (run_stmt (on_writer_lock (spinlock_lock c)) p' L T).2) rh'.
Proof.
  intros Hp Hpp. rewrite stmt_lock_W. case_decide as H0.
  2: { apply rw_stay. rewrite Hp. by destruct Hpp as [[= -> ->]|[= -> ->]]. }
  destruct (writer_lock_free H0) as [Hu Hr]. exists (inR p').
  apply (rw_inv_moved _ rh); [done|done| | | |by destruct Hpp as [[= -> ->]|[= -> ->]]].
  - destruct Hpp as [[= -> ->]|[= -> ->]].
    + assert (HinR : inR (pc_of m c) = true) by (by rewrite Hp).
      destruct (ir_held _ _ (rw_R _ _ HI) c Hc HinR) as (Hl & Ho & Hh). rewrite Hp in Hh. destruct Hh as [_ Hn].
      eapply (inv_R_in _ rh); [done|apply HI|by left|done|done|done|]. simpl. split; [done|lia].
    + change (inR Writing) with false. rewrite <- Hr. apply inv_R_out; [apply HI|by rewrite Hp|done|done|done].
  - apply (inv_W_change _ rh); [done|apply HI|apply HI| | | | | |].
    + intros c' Hc' _. apply (inW_none _ rh); [apply HI|done|by right].
    + apply others_not_unlocking. by right.
    + destruct Hpp as [[= -> ->]|[= -> ->]]; done.
    + destruct Hpp as [[= -> ->]|[= -> ->]]; done.
    + done.
    + destruct Hpp as [[= -> ->]|[= -> ->]]; done.
  - rewrite Hp. simpl. destruct Hpp as [[= -> ->]|[= -> ->]]; simpl; lia.
Qed.

(** The last reader, and a writer, release the writer lock. *)
Lemma step_release_W p p' :
  pc_of m c = p -> (p, p') = (UUnlockW, UUnlockR) \/ (p, p') = (WUnlock, RwIdle) ->
  exists rh', rw_inv (moved m c (run_stmt (on_writer_lock (spinlock_unlock c)) p' L T).1
                              (run_stmt (on_writer_lock (spinlock_unlock c)) p' L T).2) rh'.
Proof.
  intros Hp Hpp. pose proof (rw_W _ _ HI) as HW. pose proof (rw_R _ _ HI) as HR.
  assert (Hw : lock (writer_lock L) = 1 /\ owner (writer_lock L) = c /\
    (inR (pc_of m c) = true /\ rh = true /\ num_readers L = 0 \/ inW (pc_of m c) = true /\ rh = false)).
  { destruct Hpp as [[= -> ->]|[= -> ->]].
    - destruct (ir_held _ _ HR c Hc ltac:(by rewrite Hp)) as (_ & _ & Hh). rewrite Hp in Hh. destruct Hh as [Hr Hn].
      split_and!; [by apply (iw_readers _ _ HW)|by apply (iw_owner _ _ HW)|left; by rewrite Hp].
    - destruct (iw_held _ _ HW c Hc ltac:(by rewrite Hp)) as (? & ? & ?). rewrite Hp. auto. }
  destruct Hw as (Hl & Ho & Hcase). rewrite stmt_unlock_W by done. exists false.
  apply (rw_inv_moved _ rh); [done|done| | | |by destruct Hpp as [[= -> ->]|[= -> ->]]].
  - destruct Hcase as [(HinR & Hr & Hn)|[HinW Hr]].
    + destruct Hpp as [[= -> ->]|[= -> ->]]; [|by rewrite Hp in HinR].
      destruct (ir_held _ _ HR c Hc HinR) as (? & ? & _).
      eapply (inv_R_in _ rh); [done|done|by left|done|done|done|]. simpl. lia.
    + destruct Hpp as [[= -> ->]|[= -> ->]]; [by rewrite Hp in HinW|].
      rewrite <- Hr. apply inv_R_out; [done|by rewrite Hp|done|done|done].
  - apply (inv_W_change _ rh); [done|done|done| | | | | |].
    + intros c' Hc' Hne. destruct Hcase as [(_ & Hr & _)|[HinW _]]; [by apply (inW_none _ rh); [|done|left]|].
      destruct (inW (pc_of m c')) eqn:E; [|done]. destruct (iw_held _ _ HW c' Hc' E) as (_ & ? & _). congruence.
    + apply others_not_unlocking. destruct Hcase as [(? & _ & _)|[_ ?]]; auto.
    + destruct Hpp as [[= -> ->]|[= -> ->]]; done.
    + done.
    + done.
    + destruct Hpp as [[= -> ->]|[= -> ->]]; done.
  - rewrite Hp. simpl. destruct Hpp as [[= -> ->]|[= -> ->]]; simpl; lia.
Qed.

Lemma rw_step_inv write : exists rh', rw_inv (rw_run c write m) rh'.
Proof.
  change (rw_run c write m) with
    (moved m c (rw_cpu_step c write L T).1 (rw_cpu_step c write L T).2).
  pose proof num_readers_range as Hn. pose proof counted_pos as Hcnt.
  pose proof (ir_held _ _ (rw_R _ _ HI) c Hc) as HR. unfold rw_cpu_step.
  destruct (pc_of m c) eqn:Hp; cbn [fst snd];
    try (by apply (step_take_R _ _ Hp); auto); try (by apply (step_release_R _ _ Hp); auto);
    try (by apply (step_take_W _ _ Hp); auto); try (by apply (step_release_W _ _ Hp); auto);
    simpl in HR, Hcnt.
  - apply (rw_local _ _ _ rh); rewrite ?Hp; try done; destruct write; simpl; try done; lia.
  - destruct (HR eq_refl) as (_ & _ & Hh). apply (rw_local _ _ _ rh); rewrite ?Hp; try done; simpl.
    + intros _. rewrite u32_id by lia. rewrite Hh. apply eq_true_iff_eq. rewrite !Z.leb_le. lia.
    + rewrite u32_id by lia. lia.
  - destruct (HR eq_refl) as (_ & _ & Hh). specialize (Hcnt eq_refl). destruct (Z.eqb_spec (num_readers L) 1).
    + apply (rw_local _ _ _ rh); rewrite ?Hp; try done; simpl; [|lia]. intros _. split; [|done].
      rewrite Hh. apply Z.leb_gt. lia.
    + apply (rw_local _ _ _ rh); rewrite ?Hp; try done; simpl; [|lia]. intros _. split; [|lia].
      rewrite Hh. apply Z.leb_le. lia.
  - destruct (HR eq_refl) as (_ & _ & Hh). apply (rw_local _ _ _ rh); rewrite ?Hp; try done; simpl; lia.
  - apply (rw_local _ _ _ rh); rewrite ?Hp; try done; simpl; lia.
  - destruct (HR eq_refl) as (_ & _ & Hh). specialize (Hcnt eq_refl).
    apply (rw_local _ _ _ rh); rewrite ?Hp; try done; simpl. rewrite u32_id by lia. lia.
  - destruct (HR eq_refl) as (_ & _ & Hh). destruct (Z.eqb_spec (num_readers L) 0).
    + apply (rw_local _ _ _ rh); rewrite ?Hp; try done; simpl; lia.
    + apply (rw_local _ _ _ rh); rewrite ?Hp; try done; simpl; [|lia]. intros _. rewrite Hh. symmetry. apply Z.leb_le. lia.
  - destruct (HR eq_refl) as (Hl & Ho & Hr & Hn0). exists rh.
    apply (rw_inv_moved _ rh); [done|done| | |rewrite Hp; simpl; lia|done].
    + eapply (inv_R_in _ rh); [done|apply HI|left; by rewrite Hp|done..].
    + apply (inv_W_change _ rh); [done|apply HI|apply HI| | |done|by rewrite Hr| |done].
      * intros c' Hc' _. apply (inW_none _ rh); [apply HI|done|by left].
      * apply others_not_unlocking. left. by rewrite Hp.
      * intros _. simpl. by apply (iw_readers _ _ (rw_W _ _ HI)).
  - apply (rw_local _ _ _ rh); rewrite ?Hp; try done; simpl; lia.
  - by destruct (rw_nofail _ _ HI c Hc).
Qed.

End Step.

Lemma rw_inv_initial m : rw_initial m -> rw_inv m false.
Proof.
  intros [Hl Hi]. split.
  - split; [intros c _; by rewrite Hi|]. intros _. by rewrite Hl.
  - split; try (intros c _; by rewrite Hi); rewrite Hl; done.
  - rewrite Hl. assert (readers m = ∅) as ->; [|done]. apply set_eq. intros x. unfold readers.
    rewrite elem_of_filter, Hi. split; [by intros [? _]|by intros ?%not_elem_of_empty].
  - intros c _. by rewrite Hi.
Qed.

Lemma rw_inv_reachable m0 m : rw_initial m0 -> rtc rw_step m0 m -> exists rh, rw_inv m rh.
Proof.
  intros H0 Hr. assert (exists rh, rw_inv m0 rh) as Hi by (eauto using rw_inv_initial). clear H0.
  induction Hr as [|m1 m2 m3 Hs _ IH]; [done|]. apply IH. destruct Hs as [c w m Hc]. destruct Hi as [rh Hi].
  by eapply rw_step_inv.
Qed.

(** While a cpu reads, the readers hold the writer lock. *)
Lemma reading_holds m rh c : rw_inv m rh -> is_cpu c -> pc_of m c = Reading -> rh = true.
Proof.
  intros HI Hc Hp. assert (Hcnt : 1 <= num_readers (rwl m)) by (by apply (counted_pos m rh c HI Hc); rewrite Hp).
  destruct (decide (Exists (fun c' => inR (pc_of m c') = true) (range 0 NO_OWNER))) as [Hyes|Hno].
  - apply Exists_exists in Hyes as (c' & Hc'%elem_of_range & Hin). destruct (ir_held _ _ (rw_R _ _ HI) c' Hc' Hin) as (_ & _ & Hh).
    assert (Htwo : counts (pc_of m c') = true -> 2 <= num_readers (rwl m)).
    { intros Hp'. rewrite (rw_count _ _ HI). assert (c <> c') by (intros ->; by rewrite Hp in Hin).
      assert (Hsub : {[c; c']} ⊆ readers m).
      { assert (c ∈ readers m) by (apply readers_elem; [done|by rewrite Hp]).
        assert (c' ∈ readers m) by (by apply readers_elem). clear -H0 H1. set_solver. }
      apply subseteq_size in Hsub. rewrite size_union, !size_singleton in Hsub by set_solver. lia. }
    destruct (pc_of m c'); simpl in *; try done; try naive_solver lia;
      try (rewrite Hh; apply Z.leb_le; (lia || by apply Htwo)).
  - destruct (ir_free _ _ (rw_R _ _ HI)) as [_ ->]; [|by apply Z.leb_le].
    intros c' Hc'. destruct (inR (pc_of m c')) eqn:E; [|done]. destruct Hno. apply Exists_exists. exists c'.
    split; [by apply elem_of_range|done].
Qed.

(** ** The functions on one cpu *)

(** A lock nobody holds. *)
Definition rw_free (l : rwlock_t) : Prop :=
  unlocked (readers_lock l) /\ unlocked (writer_lock l) /\ num_readers l = 0.

Lemma on_readers_lock_run c R n W i :
  unlocked R -> on_readers_lock (spinlock_lock c) (mk_rwlock R n W, i) =
    Ok (tt, (mk_rwlock (mk_spinlock 1 i c) n W, false)).
Proof. intros. unfold on_readers_lock, zoom. simpl. by rewrite spinlock_lock_run. Qed.

Lemma on_readers_unlock_run c r n W i :
  on_readers_lock (spinlock_unlock c) (mk_rwlock (mk_spinlock 1 r c) n W, i) =
    Ok (tt, (mk_rwlock (mk_spinlock 0 r NO_OWNER) n W, r)).
Proof. unfold on_readers_lock, zoom. cbn [fst snd readers_lock]. by rewrite spinlock_unlock_run. Qed.

Lemma on_writer_lock_run c R n W i :
  unlocked W -> on_writer_lock (spinlock_lock c) (mk_rwlock R n W, i) =
    Ok (tt, (mk_rwlock R n (mk_spinlock 1 i c), false)).
Proof. intros. unfold on_writer_lock, zoom. simpl. by rewrite spinlock_lock_run. Qed.

Lemma on_writer_unlock_run c R n r i :
  on_writer_lock (spinlock_unlock c) (mk_rwlock R n (mk_spinlock 1 r c), i) =
    Ok (tt, (mk_rwlock R n (mk_spinlock 0 r NO_OWNER), r)).
Proof. unfold on_writer_lock, zoom. cbn [fst snd writer_lock]. by rewrite spinlock_unlock_run. Qed.

Lemma rwlock_write_run c l i :
  rw_free l ->
  exists l', rwlock_write_lock c (l, i) = Ok (tt, (l', false)) /\
    (exists l'', rwlock_write_unlock c (l', false) = Ok (tt, (l'', i)) /\ rw_free l'').
Proof.
  intros (HR & HW & Hn). destruct l as [R n W]. simpl in *.
  eexists. split; [by apply on_writer_lock_run|]. eexists. split; [apply on_writer_unlock_run|]. by split_and!.
Qed.

(** The first reader takes the writer lock, the last one releases it. *)
Lemma rwlock_read_lock_run c R W i :
  unlocked R -> unlocked W ->
  rwlock_read_lock c (mk_rwlock R 0 W, i) =
    Ok (tt, (mk_rwlock (mk_spinlock 0 i NO_OWNER) 1 (mk_spinlock 1 true c), i)).
Proof.
  intros HR HW. unfold rwlock_read_lock. erewrite bind_ok by (by apply on_readers_lock_run).
  erewrite bind_ok by reflexivity. erewrite bind_ok by reflexivity. erewrite bind_ok by reflexivity.
  change (when _ _) with (cpu_set_interrupt_flag true;;; on_writer_lock (spinlock_lock c)).
  rewrite bind_assoc. erewrite bind_ok by reflexivity. erewrite bind_ok by (by apply on_writer_lock_run).
  apply on_readers_unlock_run.
Qed.

Lemma rwlock_read_unlock_run c R r o i :
  unlocked R ->
  rwlock_read_unlock c (mk_rwlock R 1 (mk_spinlock 1 r o), i) =
    Ok (tt, (mk_rwlock (mk_spinlock 0 i NO_OWNER) 0 (mk_spinlock 0 r NO_OWNER), i)).
Proof.
  intros HR. unfold rwlock_read_unlock. erewrite bind_ok by (by apply on_readers_lock_run).
  erewrite bind_ok by reflexivity. erewrite bind_ok by reflexivity. erewrite bind_ok by reflexivity.
  change (when _ _) with (on_writer_lock (update_lock (set_owner c));;; on_writer_lock (spinlock_unlock c)).
  rewrite bind_assoc. erewrite bind_ok by reflexivity. erewrite bind_ok by apply on_writer_unlock_run.
  apply on_readers_unlock_run.
Qed.

Lemma rwlock_read_run c l i :
  rw_free l ->
  exists l', rwlock_read_lock c (l, i) = Ok (tt, (l', i)) /\
    (exists l'', rwlock_read_unlock c (l', i) = Ok (tt, (l'', i)) /\ rw_free l'').
Proof.
  intros (HR & HW & Hn). destruct l as [R n W]. simpl in *. subst n.
  eexists. split; [by apply rwlock_read_lock_run|]. eexists. split; [by apply rwlock_read_unlock_run|].
  by split_and!.
Qed.

(** ** Properties *)


(** Cpu 0 and cpu 1 read together while cpu 2 waits to write. *)
Definition rw_start : rw_machine := mk_rw INIT_RW_LOCK (fun _ => mk_rw_cpu RwIdle true).
Definition rw_sample : rw_machine :=
  foldl (fun m p => rw_run p.1 p.2 m) rw_start
    [(0, false); (0, false); (0, false); (0, false); (0, false); (0, false); (0, false);
     (1, false); (1, false); (1, false); (1, false); (1, false); (2, true); (2, true)].

Lemma rw_sample_reach : rtc rw_step rw_start rw_sample.
Proof.
  unfold rw_sample. cbn [foldl fst snd]. do 14 (eapply rtc_r; [|apply rw_step_cpu; unfold is_cpu, NO_OWNER; lia]).
  apply rtc_refl.
Qed.


(** on a free lock, [rwlock_read_lock] and [rwlock_write_lock] return, and the
    matching unlock leaves the lock free again with the interrupt flag as it
    was before. *)
Theorem rwlock_round_trip c l i :
  rw_free l ->
  (exists l1 l2, rwlock_read_lock c (l, i) = Ok (tt, (l1, i)) /\
     rwlock_read_unlock c (l1, i) = Ok (tt, (l2, i)) /\ rw_free l2) /\
  (exists l1 l2, rwlock_write_lock c (l, i) = Ok (tt, (l1, false)) /\
     rwlock_write_unlock c (l1, false) = Ok (tt, (l2, i)) /\ rw_free l2).
Proof.
  intros Hl. destruct (rwlock_read_run c l i Hl) as (l1 & E1 & l2 & E2 & H2).
  destruct (rwlock_write_run c l i Hl) as (l3 & E3 & l4 & E4 & H4). split; eauto 10.
Qed.

Lemma rwlock_round_trip_witness :
  exists l1 l2, rwlock_read_lock 3 (INIT_RW_LOCK, true) = Ok (tt, (l1, true)) /\
    rwlock_read_unlock 3 (l1, true) = Ok (tt, (l2, true)) /\ rw_free l2.
Proof. apply (rwlock_round_trip 3 INIT_RW_LOCK true). split; [split; reflexivity|split; [split; reflexivity|reflexivity]]. Defined.
