(* ===== verification/KHeap.v ===== *)
(** * The interface of the dynamic memory allocator

    What the clients of [kmalloc] and [kfree] rely on: [hp_live a L] says that
    in the state [a] the addresses [L] are the blocks its clients hold, which
    are never at the address of a static object ([hp_static]).  The allocator of [Kmalloc] implements the interface; [counting_heap] is a
    small instance that hands out addresses and fails when told to. *)

From S2P Require Import Prelude Math DList Spinlock Kmalloc KmallocGroup KmallocSpec.

Class Heap (A : Type) := {
  hp_kmalloc : Z -> M A Z;
  hp_kfree : Z -> M A unit }.

(** Sizes up to this one fit in one page together with the group. *)
Definition MAX_SMALL : Z := 4064.

Class HeapLaws (A : Type) `{Heap A} := {
  hp_live : A -> gset Z -> Prop;
  hp_kmalloc_law a L n : hp_live a L -> 0 <= n <= MAX_SMALL ->
    wp (hp_kmalloc n) (fun r a' =>
      (r = NULL /\ hp_live a' L) \/ (r <> NULL /\ (r ∉ L) /\ hp_live a' ({[r]} ∪ L))) a;
  hp_kfree_law a L p : hp_live a L -> p ∈ L ->
    wp (hp_kfree p) (fun _ a' => hp_live a' (L ∖ {[p]})) a;
  hp_static : Z -> Prop;
  hp_live_static a L p : hp_live a L -> p ∈ L -> ~ hp_static p;
  hp_kmalloc_space a L n : hp_live a L -> 0 <= n <= MAX_SMALL ->
    wp (hp_kmalloc n) (fun r _ => r = NULL \/ 0 < r /\ r + n < 2 ^ 32) a }.

(** ** The allocator of [kmalloc.c] *)

Section Kernel.
Context {P : Type} `{HP : PageLaws P}.
Context (cpu_id gl : Z) (base frames : gset Z).
Hypothesis head_lo : gl / 4096 ∈ base.
Hypothesis head_hi : (gl + 7) / 4096 ∈ base.
Context (junk : Z -> list_node).

Definition kmalloc_heap : Heap (kmalloc_st P) :=
  {| hp_kmalloc := kmalloc cpu_id gl; hp_kfree := kfree cpu_id gl junk |}.

Definition held_blocks (s : kmalloc_st P) (L : gset Z) : Prop :=
  exists gs, km_inv gl base frames s gs /\ L = list_to_set ((live gs).*1).

Lemma live_NoDup s gs : km_inv gl base frames s gs -> NoDup ((live gs).*1).
Proof.
  intros Hk. destruct (km_inv_groups _ _ _ _ _ Hk) as (Hg & Ha & _).
  apply apart_NoDup; [by eapply live_apart|]. apply Forall_forall.
  intros [a n] (x & Hx & Hxg)%list_elem_of_bind. rewrite Forall_forall in Hg.
  apply (grp_live_in _ _ _ _ (Hg _ Hxg)) in Hx. simpl. lia.
Qed.

Lemma fits_small n : 0 <= n <= MAX_SMALL -> fits n.
Proof.
  unfold MAX_SMALL. intros Hn. apply fits_iff; [lia|lia|]. Z.to_euclidean_division_equations; lia.
Qed.

Lemma live_space h gs a n : Forall (grp_ok h) gs -> (a, n) ∈ live gs -> 0 < a /\ 8 <= n /\ a + n < 2 ^ 32.
Proof.
  intros Hg (x & Ha & Hx)%list_elem_of_bind. rewrite Forall_forall in Hg. specialize (Hg _ Hx).
  apply (grp_live_in _ _ _ _ Hg) in Ha. pose proof (grp_bounds _ _ Hg). lia.
Qed.

#[export] Instance kmalloc_heap_laws : @HeapLaws (kmalloc_st P) kmalloc_heap.
Proof using HP head_lo head_hi frames.
  refine {| hp_live := held_blocks; hp_static x := x / 4096 ∈ base |}.
  - intros s L n (gs & Hk & ->) Hn. eapply wp_mono; [by eapply (kmalloc_wp cpu_id gl base frames); [..|apply fits_small]|].
    intros r s' (_ & _ & _ & [[-> Hk']|(gs' & m & Hk' & Hr & _ & _ & Hl)]); [left; split; [done|by exists gs]|right].
    pose proof (live_NoDup _ _ Hk') as Hnd. rewrite Hl, fmap_cons in Hnd. apply NoDup_cons in Hnd as [Hnin _].
    split_and!; [done|by rewrite elem_of_list_to_set|]. exists gs'. split; [done|]. by rewrite Hl.
  - intros s L p (gs & Hk & ->) Hp. apply elem_of_list_to_set, list_elem_of_fmap in Hp as ([a n] & -> & Hin).
    eapply wp_mono; [by eapply (kfree_wp cpu_id gl base frames)|]. intros [] s' (_ & _ & gs' & Hk' & Hl).
    exists gs'. split; [done|]. pose proof (live_NoDup _ _ Hk) as Hnd. rewrite Hl, fmap_cons in Hnd |- *.
    apply NoDup_cons in Hnd as [Hnin _]. rewrite list_to_set_cons. simpl in *.
    generalize dependent (live gs').*1. intros l Hnin. set_solver.
  - intros s L p (gs & Hk & ->) Hp Hst. apply elem_of_list_to_set, list_elem_of_fmap in Hp as ([a n] & -> & Hin).
    destruct (km_inv_groups _ _ _ _ _ Hk) as (Hg & _ & _ & _ & Hb). apply (Hb _ Hst).
    eapply live_in_pages; [exact Hg|exact Hin|]. apply (live_space _ _ _ _ Hg) in Hin. simpl. lia.
  - intros s L n (gs & Hk & ->) Hn. eapply wp_mono; [by eapply (kmalloc_wp cpu_id gl base frames); [..|apply fits_small]|].
    intros r s' (_ & _ & _ & [[-> _]|(gs' & m & Hk' & Hr & _ & Hm & Hl)]); [by left|right].
    assert (Hin : (r, m) ∈ live gs') by (rewrite Hl; by left).
    destruct (km_inv_groups _ _ _ _ _ Hk') as (Hg & _). pose proof (live_space _ _ _ _ Hg Hin). lia.
Qed.

End Kernel.

(** ** A small instance *)

Record counting := mk_counting { next_block : Z; blocks : gset Z; failing : bool }.

#[export] Instance counting_heap : Heap counting := {
  hp_kmalloc n a :=
    if failing a || (0x40000000 <=? next_block a + n) then Ok (NULL, a)
    else Ok (next_block a, mk_counting (next_block a + n + 16) ({[next_block a]} ∪ blocks a) false);
  hp_kfree p a := Ok (tt, mk_counting (next_block a) (blocks a ∖ {[p]}) (failing a)) }.

#[export] Instance counting_laws : HeapLaws counting.
Proof.
  refine {| hp_live a L := L = blocks a /\ 0x1000 <= next_block a /\
              set_Forall (fun p => 0x1000 <= p < next_block a /\ p < 0x40000000) L;
            hp_static x := x < 0x1000 \/ 0x40000000 <= x |}.
  - intros a L n (-> & H0 & HL) Hn. unfold wp. simpl. destruct (failing a || _) eqn:E; simpl; [by left|right].
    apply orb_false_elim in E as [_ E]. unfold MAX_SMALL in Hn.
    split_and!; [unfold NULL; lia|intros Hin%HL; simpl in Hin; lia|done|lia|].
    intros p [->%elem_of_singleton|Hin]%elem_of_union; [lia|]. specialize (HL _ Hin). simpl in HL. lia.
  - intros a L p (-> & H0 & HL) _. unfold wp. simpl. split_and!; [done|done|].
    intros q [Hq _]%elem_of_difference. by apply HL.
  - intros a L p (-> & _ & HL) Hp. specialize (HL _ Hp). simpl in HL. lia.
  - intros a L n (-> & H0 & _) Hn. unfold wp. simpl. destruct (failing a || _) eqn:E; simpl; [by left|right].
    apply orb_false_elim in E as [_ E]. lia.
Defined.

Definition counting0 : counting := mk_counting 0x1000 ∅ false.

Lemma counting0_live : hp_live counting0 ∅.
Proof. unfold hp_live. simpl. split_and!; [done|lia|apply set_Forall_empty]. Qed.
