(* ===== verification/Disk.v ===== *)
(** * Disks: [src/disk.h], [src/disk.c], [src/memdisk.c]

    [DiskOps] is the [struct disk_ops] of a driver, over the state [D] of the
    disk; [DiskLaws] is what [disk.h] asks of a driver: whole sectors or
    nothing.  [disk_read] and [disk_write] are proved against it for any
    driver; [memdisk.c] is a driver that implements it.

    A buffer of the caller or of the driver is a list of bytes; [memcpy]
    between buffers takes and replaces a part of the list, and faults outside.
    The buffers the code allocates come from the heap interface of [KHeap]. *)

From S2P Require Import Prelude Math ErrorCodes Kmalloc KHeap.

(** [sector_t] and [off_t] are [uint64_t]. *)
Definition offset_to_sector (offset sec_size : Z) : Z := u64 (offset / sec_size).
Definition sector_to_offset (sec sec_size : Z) : Z := u64 (sec * sec_size).

(** The driver: [read_sector] and [write_sector] get the buffer, and return
    the number of bytes (and the new contents of the buffer). *)
Class DiskOps (D : Type) := {
  sector_size : M D Z;
  read_sector : Z -> list Z -> M D (Z * list Z);
  write_sector : Z -> list Z -> M D Z }.

Section Disk.
Context {D A : Type} `{DiskOps D} `{Heap A}.

Abbreviation dst := (D * A)%type.

Definition on_disk {B} : M D B -> M dst B := zoom fst (fun d s => (d, s.2)).
Definition on_heap {B} : M A B -> M dst B := zoom snd (fun a s => (s.1, a)).

(** [TODO_PROPAGATE_ERROR(cond)] *)
Definition TODO_PROPAGATE_ERROR (cond : bool) (msg : string) : M dst unit :=
  when cond (panic msg).

(** The loop of [disk_read] over the sectors that are left. *)
Fixpoint read_sectors (sectors : list Z) (sector_size start_sector offset len written : Z)
    (buf : list Z) : M dst (Z * list Z) :=
  match sectors with
  | [] => ret (written, buf)
  | sector :: sectors' =>
      do ' (read, sector_data) <- on_disk (read_sector sector (replicate (Z.to_nat sector_size) 0));
      if read =? 0 then ret (written, buf) else
      ASSERT (read =? sector_size) "read == sector_size";;;
      do start_offset <-
        (if sector =? start_sector then
           ASSERT (sector_to_offset sector sector_size <=? offset) "sector_to_offset <= offset";;;
           ret (u32 (offset - sector_to_offset sector sector_size))
         else ret 0);
      ASSERT (start_offset <? sector_size) "start_offset < sector_size";;;
      ASSERT (written <=? len) "written <= len";;;
      let remaining := u32 (len - written) in
      let copy_len := min_u32 remaining (u32 (sector_size - start_offset)) in
      do data <- must (get_bytes sector_data start_offset copy_len) "sector_data";
      do buf' <- must (put_bytes buf written data) "buf";
      read_sectors sectors' sector_size start_sector offset len (u32 (written + copy_len)) buf'
  end.

Definition disk_read (offset : Z) (buf : list Z) (len : Z) : M dst (Z * list Z) :=
  if len =? 0 then ret (0, buf) else
  do sector_size <- on_disk sector_size;
  let start_sector := offset_to_sector offset sector_size in
  let end_sector := offset_to_sector (u64 (offset + len - 1)) sector_size in
  do sector_data <- on_heap (hp_kmalloc sector_size);
  TODO_PROPAGATE_ERROR (sector_data =? NULL) "!sector_data";;;
  do r <- read_sectors (range start_sector (end_sector + 1)) sector_size start_sector offset len 0 buf;
  on_heap (hp_kfree sector_data);;;
  ret r.

(** The partial update of a sector: [None] leaves the loop. *)
Definition write_partial (sector sector_size offset len written : Z) (buf : list Z) : M dst (option Z) :=
  do curr <- on_heap (hp_kmalloc sector_size);
  TODO_PROPAGATE_ERROR (curr =? NULL) "!curr";;;
  do ' (read, data) <- on_disk (read_sector sector (replicate (Z.to_nat sector_size) 0));
  if negb (read =? sector_size) then
    on_heap (hp_kfree curr);;;
    ret None
  else
  let sec_start_off := sector_to_offset sector sector_size in
  let next_start_off := sector_to_offset (u64 (sector + 1)) sector_size in
  let c_off := u32 (u64 (offset + written - sec_start_off)) in
  let cpy_len := min_u32 (u32 (u64 (next_start_off - u64 (sec_start_off + c_off)))) (u32 (len - written)) in
  do chunk <- must (get_bytes buf written cpy_len) "buf";
  do data' <- must (put_bytes data c_off chunk) "curr";
  do res <- on_disk (write_sector sector data');
  on_heap (hp_kfree curr);;;
  if negb (res =? sector_size) then ret None else ret (Some (u32 (written + cpy_len))).

(** The loop of [disk_write] over the sectors that are left. *)
Fixpoint write_sectors (sectors : list Z) (sector_size start_sector end_sector offset len written : Z)
    (buf : list Z) : M dst Z :=
  match sectors with
  | [] => ret written
  | sector :: sectors' =>
      if ((sector =? start_sector) && negb (offset mod sector_size =? 0)) ||
         ((sector =? end_sector) && negb (u64 (offset + len) mod sector_size =? 0)) then
        do r <- write_partial sector sector_size offset len written buf;
        match r with
        | None => ret written
        | Some written' => write_sectors sectors' sector_size start_sector end_sector offset len written' buf
        end
      else
        ASSERT (written <? len) "data < buf + len";;;
        ASSERT (written + sector_size <=? len) "data + sector_size <= buf + len";;;
        do data <- must (get_bytes buf written sector_size) "buf";
        do res <- on_disk (write_sector sector data);
        let written' := u32 (written + res) in
        if negb (res =? sector_size) then ret written'
        else write_sectors sectors' sector_size start_sector end_sector offset len written' buf
  end.

Definition disk_write (offset : Z) (buf : list Z) (len : Z) : M dst Z :=
  if len =? 0 then ret 0 else
  do sector_size <- on_disk sector_size;
  let start_sector := offset_to_sector offset sector_size in
  let end_sector := offset_to_sector (u64 (offset + len - 1)) sector_size in
  write_sectors (range start_sector (end_sector + 1)) sector_size start_sector end_sector offset len 0 buf.

End Disk.

(** ** What a driver promises *)

(** [dk_data d] are the bytes of the disk. *)
Class DiskLaws (D : Type) `{DiskOps D} := {
  dk_ok : D -> Prop;
  dk_size : D -> Z;
  dk_data : D -> list Z;
  dk_writable : D -> bool;
  dk_size_ok d : dk_ok d -> 1 < dk_size d <= MAX_SMALL /\
    Z.of_nat (length (dk_data d)) mod dk_size d = 0 /\ Z.of_nat (length (dk_data d)) < 2 ^ 32;
  sector_size_law d : dk_ok d -> wp sector_size (fun r d' => d' = d /\ r = dk_size d) d;
  read_sector_law d i buf : dk_ok d -> 0 <= i -> Z.of_nat (length buf) = dk_size d ->
    wp (read_sector i buf) (fun p d' => dk_ok d' /\ dk_size d' = dk_size d /\ dk_data d' = dk_data d /\
      dk_writable d' = dk_writable d /\
      if (i + 1) * dk_size d <=? Z.of_nat (length (dk_data d))
      then p.1 = dk_size d /\ p.2 = slice (dk_data d) (i * dk_size d) ((i + 1) * dk_size d)
      else p.1 = 0) d;
  write_sector_law d i data : dk_ok d -> 0 <= i -> Z.of_nat (length data) = dk_size d ->
    wp (write_sector i data) (fun r d' => dk_ok d' /\ dk_size d' = dk_size d /\ dk_writable d' = dk_writable d /\
      if dk_writable d && ((i + 1) * dk_size d <=? Z.of_nat (length (dk_data d)))
      then r = dk_size d /\ Some (dk_data d') = put_bytes (dk_data d) (i * dk_size d) data
      else r = 0 /\ dk_data d' = dk_data d) d }.

(** ** Parts of a list *)

Lemma lookup_put_bytes buf off dat buf' i :
  put_bytes buf off dat = Some buf' ->
  buf' !! i = if decide (Z.to_nat off <= i < Z.to_nat off + length dat)%nat then dat !! (i - Z.to_nat off)%nat else buf !! i.
Proof.
  unfold put_bytes. case_match eqn:E; [|done]. breflect. intros [= <-].
  assert (Hl : length (take (Z.to_nat off) buf) = Z.to_nat off) by (rewrite length_take; lia).
  case_decide.
  - rewrite lookup_app_r, Hl, lookup_app_l by lia. done.
  - destruct (decide (i < Z.to_nat off)%nat).
    + by rewrite lookup_app_l, lookup_take_lt by lia.
    + rewrite lookup_app_r, Hl, lookup_app_r, lookup_drop by lia. f_equal. lia.
Qed.

(** Replacing a part of a sector and writing the sector back. *)
Lemma put_sector X lo hi c dat sec :
  0 <= lo -> 0 <= c -> c + Z.of_nat (length dat) <= hi - lo -> hi <= Z.of_nat (length X) ->
  put_bytes (slice X lo hi) c dat = Some sec -> put_bytes X lo sec = put_bytes X (lo + c) dat.
Proof.
  intros Hlo Hc Hd Hhi Hsec. pose proof (length_put_bytes _ _ _ _ Hsec) as Hls. rewrite length_slice in Hls by lia.
  destruct (put_bytes X lo sec) as [Y|] eqn:EY; [|by rewrite put_bytes_some in EY by lia].
  destruct (put_bytes X (lo + c) dat) as [W|] eqn:EW; [|by rewrite put_bytes_some in EW by lia].
  f_equal. apply list_eq. intros i. rewrite (lookup_put_bytes _ _ _ _ i EY), (lookup_put_bytes _ _ _ _ i EW), Hls.
  destruct (decide (Z.to_nat lo <= i < Z.to_nat lo + Z.to_nat (hi - lo))%nat).
  - rewrite (lookup_put_bytes _ _ _ _ _ Hsec).
    destruct (decide (Z.to_nat c <= i - Z.to_nat lo < Z.to_nat c + length dat)%nat).
    + rewrite decide_True by lia. f_equal. lia.
    + rewrite decide_False by lia. rewrite lookup_slice by lia. rewrite decide_True by lia. f_equal. lia.
  - by rewrite decide_False by lia.
Qed.

(** A multiple in the last sector ends it. *)
Lemma multiple_unique x s q l : x = s * q -> l * s < x <= (l + 1) * s -> 0 < s -> x = (l + 1) * s.
Proof. intros -> Hx Hs. assert (q = l + 1) by nia. subst q. lia. Qed.

(** ** Reading *)

Section DiskSpec.
Context {D A : Type} `{HD : DiskLaws D} `{HA : HeapLaws A}.

Abbreviation dst := (D * A)%type.

(** Nothing a reader can see has changed. *)
Definition same_disk (d d' : D) : Prop :=
  dk_ok d' /\ dk_size d' = dk_size d /\ dk_data d' = dk_data d /\ dk_writable d' = dk_writable d.

Lemma same_disk_trans d1 d2 d3 : same_disk d1 d2 -> same_disk d2 d3 -> same_disk d1 d3.
Proof. intros (? & E1 & E2 & E3) (? & F1 & F2 & F3). split_and!; [done|congruence..]. Qed.

(** A failed [kmalloc] is the only way to halt. *)
Definition no_memory (h : halt) : Prop := h = Panic "!sector_data" \/ h = Panic "!curr".

Lemma free_curr L curr a :
  hp_live a ({[curr]} ∪ L) -> curr ∉ L -> wp (hp_kfree curr) (fun _ a' => hp_live a' L) a.
Proof.
  intros Ha Hn. eapply wp_mono; [apply (hp_kfree_law a _ curr Ha); set_solver|]. intros [] a'.
  by replace (({[curr]} ∪ L) ∖ {[curr]}) with L by (apply set_eq; set_solver).
Qed.

Section Transfer.
Context (d : D) (L : gset Z) (offset len : Z).
Hypothesis Hd : dk_ok d.
Hypothesis Hoff : 0 <= offset.
Hypothesis Hend : offset + len < 2 ^ 63.
Hypothesis Hlen : 0 < len < 2 ^ 32.

Abbreviation ss := (dk_size d).
Abbreviation data := (dk_data d).
Abbreviation size := (Z.of_nat (length data)).
Abbreviation start := (offset / ss).
Abbreviation last := ((offset + len - 1) / ss).

(** The position on the disk when the loop comes to sector [k]. *)
Definition pos (k : Z) : Z := Z.min (offset + len) (Z.max offset (k * ss)).

Lemma ss_pos : 1 < ss <= 4064 /\ size = size / ss * ss /\ size < 2 ^ 32.
Proof.
  destruct (dk_size_ok d Hd) as (? & Hm & ?). unfold MAX_SMALL in *. split_and!; try lia.
  assert (Hne : ss <> 0) by lia. pose proof (Z.div_mod size ss Hne) as Hdm. rewrite Hm in Hdm. lia.
Qed.

Lemma sector_bounds : 0 <= start <= last /\ start * ss <= offset < (start + 1) * ss /\
  last * ss < offset + len <= (last + 1) * ss /\ last < 2 ^ 63.
Proof.
  destruct ss_pos as [Hs _]. assert (Hne : ss <> 0) by lia. assert (Hp : 0 < ss) by lia.
  pose proof (Z.div_mod offset ss Hne). pose proof (Z.mod_pos_bound offset ss Hp).
  pose proof (Z.div_mod (offset + len - 1) ss Hne). pose proof (Z.mod_pos_bound (offset + len - 1) ss Hp).
  assert (start <= last) by (apply Z.div_le_mono; lia). assert (0 <= start) by (apply Z.div_pos; lia).
  assert (last <= offset + len - 1) by (apply Z.div_le_upper_bound; nia). split_and!; nia.
Qed.

Lemma pos_start : pos start = offset.
Proof. pose proof sector_bounds as (_ & Hb & _ & _). unfold pos. lia. Qed.

Lemma pos_end : pos (last + 1) = offset + len.
Proof. pose proof sector_bounds as (_ & _ & Hb & _). unfold pos. nia. Qed.

(** A sector of the loop: from [pos k] to the end of the sector or of the
    request. *)
Lemma pos_step k :
  start <= k <= last ->
  k * ss <= pos k < (k + 1) * ss /\ pos k < offset + len /\ offset <= pos k /\
  pos (k + 1) = Z.min (offset + len) ((k + 1) * ss) /\ (pos k = offset /\ k = start \/ pos k = k * ss /\ start < k) /\
  (k + 1) * ss < 2 ^ 64.
Proof.
  intros Hk. pose proof sector_bounds as (H1 & H2 & H3 & H4). destruct ss_pos as [Hs _]. unfold pos.
  assert (start * ss <= k * ss <= last * ss) by nia.
  destruct (Z.eq_dec k start) as [->|Hne].
  - split_and!; nia.
  - assert ((start + 1) * ss <= k * ss) by nia. split_and!; nia.
Qed.

(** Where the transfer ends. *)
Definition stop : Z := Z.max offset (Z.min (offset + len) size).

Lemma in_range k : (k + 1) * ss <= size <-> k < size / ss.
Proof. destruct ss_pos as (Hs & Hm & _). rewrite Hm at 1. nia. Qed.

Lemma stop_here k : start <= k <= last -> (start < k -> k * ss <= size) -> size < (k + 1) * ss -> pos k = stop.
Proof.
  intros Hk Hprev Hout. destruct (pos_step k Hk) as (H1 & H2 & H3 & _ & H5 & _).
  destruct ss_pos as (Hs & Hm & _). assert (size / ss < k + 1) by nia. unfold stop.
  destruct H5 as [[E ->]|[E Hlt]]; [nia|]. specialize (Hprev Hlt). nia.
Qed.

Lemma stop_end : last * ss < size -> pos (last + 1) = stop.
Proof.
  intros Hin. rewrite pos_end. pose proof sector_bounds as (_ & _ & H3 & _). destruct ss_pos as (Hs & Hm & _).
  assert (last < size / ss) by nia. unfold stop. nia.
Qed.

(** What the caller's buffer holds when the transfer is at [p]. *)
Definition filled (buf : list Z) (p : Z) : list Z :=
  slice data offset p ++ drop (Z.to_nat (p - offset)) buf.

Lemma filled_step buf k :
  start <= k <= last -> (k + 1) * ss <= size -> len <= Z.of_nat (length buf) ->
  put_bytes (filled buf (pos k)) (pos k - offset)
    (slice data (pos k) (pos (k + 1))) = Some (filled buf (pos (k + 1))).
Proof.
  intros Hk Hin Hb. destruct (pos_step k Hk) as (H1 & H2 & H3 & H4 & _ & _).
  assert (Hl : length (slice data offset (pos k)) = Z.to_nat (pos k - offset)) by (apply length_slice; lia).
  assert (Hl2 : length (slice data (pos k) (pos (k + 1))) = Z.to_nat (pos (k + 1) - pos k)) by (apply length_slice; lia).
  unfold filled. rewrite put_bytes_some; [|lia|rewrite Hl2, length_app, Hl, length_drop; lia].
  rewrite take_app_le, take_ge by lia. rewrite (slice_app data offset (pos k) (pos (k + 1))) by lia.
  rewrite <- app_assoc. do 2 f_equal. f_equal. rewrite Hl2, drop_app_ge by lia. rewrite Hl, drop_drop. f_equal. lia.
Qed.

Lemma read_sectors_wp buf n k (s : dst) :
  n = Z.to_nat (last + 1 - k) -> start <= k <= last + 1 -> (start < k -> k * ss <= size) ->
  same_disk d s.1 -> len <= Z.of_nat (length buf) ->
  wp (read_sectors (range k (last + 1)) ss start offset len (pos k - offset) (filled buf (pos k)))
    (fun r s' => r = (stop - offset, filled buf stop) /\ same_disk d s'.1 /\ s'.2 = s.2) s.
Proof.
  revert k s. induction n as [|n IH]; intros k s En Hk Hprev Hs Hb.
  { assert (k = last + 1) as -> by lia. rewrite range_nil by lia. apply wp_ret. pose proof sector_bounds as (? & _).
    rewrite stop_end; [done|]. destruct ss_pos as [? _]. specialize (Hprev ltac:(lia)). nia. }
  assert (Hkl : start <= k <= last) by lia. rewrite range_cons by lia. cbn [read_sectors].
  destruct (pos_step k Hkl) as (H1 & H2 & H3 & H4 & H5 & H6). destruct ss_pos as (Hss & Hmul & Hsz).
  pose proof sector_bounds as (Hb0 & _). destruct Hs as (Hok & Es & Ed & Ew). assert (Hk0 : 0 <= k * ss) by nia.
  apply wp_bind, wp_zoom.
  eapply wp_mono; [apply (read_sector_law s.1 k); [done|lia|rewrite length_replicate, Es; lia]|].
  intros [read sd] d' (Hok' & Es' & Ed' & Ew' & Hr). cbn [fst snd] in Hr. rewrite Es, Ed in Hr.
  destruct (Z.leb_spec ((k + 1) * ss) size) as [Hin|Hout].
  2: { rewrite Hr. apply wp_ret. rewrite (stop_here k) by (done || lia). split; [done|]. split; [|done].
       split_and!; simpl; [done|congruence..]. }
  destruct Hr as [-> ->]. assert ((ss =? 0) = false) as -> by lia. apply wp_bind, wp_assert; [apply Z.eqb_refl|].
  apply wp_bind. apply (wp_mono _ (fun so s' => so = pos k - k * ss /\ s' = (d', s.2))).
  { assert (Hso : sector_to_offset k ss = k * ss) by (unfold sector_to_offset; apply u64_id; lia).
    destruct H5 as [[E ->]|[E Hlt]].
    - rewrite Z.eqb_refl, Hso. apply wp_bind, wp_assert; [lia|]. apply wp_ret. rewrite u32_id by lia.
      split; [lia|done].
    - assert ((k =? start) = false) as -> by lia. apply wp_ret. split; [lia|done]. }
  intros so ? [-> ->]. apply wp_bind, wp_assert; [lia|]. apply wp_bind, wp_assert; [lia|].
  rewrite min_u32_min, (u32_id (len - _)), (u32_id (ss - _)) by lia.
  assert (Ecl : Z.min (len - (pos k - offset)) (ss - (pos k - k * ss)) = pos (k + 1) - pos k) by lia.
  rewrite Ecl. rewrite get_bytes_slice by (rewrite ?length_slice by lia; lia).
  rewrite slice_slice by lia. apply wp_bind. eapply wp_must; [reflexivity|].
  replace (k * ss + (pos k - k * ss)) with (pos k) by lia.
  replace (k * ss + (pos k - k * ss + (pos (k + 1) - pos k))) with (pos (k + 1)) by lia.
  apply wp_bind. eapply wp_must; [by apply filled_step|]. rewrite u32_id by lia.
  replace (pos k - offset + (pos (k + 1) - pos k)) with (pos (k + 1) - offset) by lia.
  eapply wp_mono; [apply (IH (k + 1) (d', s.2)); [lia|lia|lia| |done]|done].
  split_and!; simpl; [done|congruence..].
Qed.

(** ** Writing *)

(** The bytes of the disk when the transfer is at [p]. *)
Definition updated (buf : list Z) (p : Z) : list Z :=
  take (Z.to_nat offset) data ++ slice buf 0 (p - offset) ++ drop (Z.to_nat p) data.

Lemma updated_start buf : updated buf offset = data.
Proof. unfold updated. rewrite Z.sub_diag, slice_nil. simpl. apply take_drop. Qed.

Lemma length_updated buf p :
  offset <= p <= size -> p - offset <= Z.of_nat (length buf) -> length (updated buf p) = length data.
Proof. intros. unfold updated. rewrite !length_app, length_take, length_drop, length_slice by lia. lia. Qed.

Lemma lookup_updated buf p i :
  offset <= p <= size -> p - offset <= Z.of_nat (length buf) ->
  updated buf p !! i =
    if decide (offset <= Z.of_nat i < p) then buf !! (i - Z.to_nat offset)%nat else data !! i.
Proof.
  intros H1 H2. unfold updated.
  assert (Ha : length (take (Z.to_nat offset) data) = Z.to_nat offset) by (rewrite length_take; lia).
  assert (Hb : length (slice buf 0 (p - offset)) = Z.to_nat (p - offset)) by (rewrite length_slice; lia).
  case_decide.
  - rewrite lookup_app_r, Ha, lookup_app_l, lookup_slice by lia. rewrite decide_True by lia. done.
  - destruct (decide (i < Z.to_nat offset)%nat).
    + by rewrite lookup_app_l, lookup_take_lt by lia.
    + rewrite lookup_app_r, Ha, lookup_app_r, Hb, lookup_drop by lia. f_equal. lia.
Qed.

Lemma updated_step buf p p' :
  offset <= p <= p' -> p' <= size -> p' - offset <= Z.of_nat (length buf) ->
  put_bytes (updated buf p) p (slice buf (p - offset) (p' - offset)) = Some (updated buf p').
Proof.
  intros H1 H2 H3.
  assert (Hl : length (slice buf (p - offset) (p' - offset)) = Z.to_nat (p' - p)) by (rewrite length_slice; lia).
  destruct (put_bytes _ _ _) as [Y|] eqn:EY; [|by rewrite put_bytes_some in EY by (rewrite ?Hl, ?length_updated; lia)].
  f_equal. apply list_eq. intros i. rewrite (lookup_put_bytes _ _ _ _ i EY), Hl, !lookup_updated by lia.
  destruct (decide (Z.to_nat p <= i < Z.to_nat p + Z.to_nat (p' - p))%nat).
  - rewrite lookup_slice, !decide_True by lia. f_equal. lia.
  - destruct (decide (offset <= Z.of_nat i < p)); [by rewrite decide_True by lia|by rewrite decide_False by lia].
Qed.

(** The disk when the transfer is at [p]. *)
Definition writing (buf : list Z) (p : Z) (x : D) : Prop :=
  dk_ok x /\ dk_size x = ss /\ dk_writable x = dk_writable d /\ dk_data x = updated buf p.

(** The sector [k] can be written. *)
Definition can_write (k : Z) : bool := dk_writable d && ((k + 1) * ss <=? size).

Lemma write_sector_step buf k (s : dst) sec :
  start <= k <= last -> len <= Z.of_nat (length buf) -> writing buf (pos k) s.1 ->
  ((k + 1) * ss <= size -> put_bytes (updated buf (pos k)) (k * ss) sec = Some (updated buf (pos (k + 1)))) ->
  Z.of_nat (length sec) = ss -> length (updated buf (pos k)) = length data ->
  wp (on_disk (write_sector k sec)) (fun r s' => s'.2 = s.2 /\
    if can_write k then r = ss /\ writing buf (pos (k + 1)) s'.1 else r = 0 /\ writing buf (pos k) s'.1) s.
Proof.
  intros Hk Hb (Hok & Es & Ew & Ed) Hput Hsec Hlu. pose proof sector_bounds as (Hb0 & _).
  apply wp_zoom. eapply wp_mono; [apply (write_sector_law s.1 k sec); [done|lia|congruence]|].
  intros r d' (Hok' & Es' & Ew' & Hr). split; [done|]. unfold can_write. rewrite Es, Ew, Ed, Hlu in Hr.
  destruct (dk_writable d && ((k + 1) * ss <=? size)) eqn:E; breflect.
  - destruct Hr as [-> Hd']. rewrite Hput in Hd' by done. split; [done|]. split_and!; simpl; [done|congruence..].
  - destruct Hr as [-> Hd']. split; [done|]. split_and!; simpl; [done|congruence..].
Qed.

(** The length of the updated disk, as long as the transfer is inside it. *)
Lemma length_updated_pos buf k :
  start <= k <= last -> (start < k -> k * ss <= size) -> len <= Z.of_nat (length buf) ->
  length (updated buf (pos k)) = length data.
Proof.
  intros Hk Hprev Hb. destruct (pos_step k Hk) as (H1 & H2 & H3 & _ & [[E ->]|[E Hlt]] & _).
  - by rewrite E, updated_start.
  - specialize (Hprev Hlt). apply length_updated; lia.
Qed.

(** The offsets of a partial update. *)
Lemma partial_offsets k :
  start <= k <= last ->
  let c_off := u32 (u64 (offset + (pos k - offset) - sector_to_offset k ss)) in
  c_off = pos k - k * ss /\ sector_to_offset k ss = k * ss /\
  min_u32 (u32 (u64 (sector_to_offset (u64 (k + 1)) ss - u64 (sector_to_offset k ss + c_off))))
          (u32 (len - (pos k - offset))) = pos (k + 1) - pos k.
Proof.
  intros Hk. destruct (pos_step k Hk) as (H1 & H2 & H3 & H4 & H5 & H6). destruct ss_pos as (Hss & _).
  pose proof sector_bounds as (Hb0 & _ & _ & Hb3). assert (Hk0 : 0 <= k * ss) by nia.
  assert (E1 : sector_to_offset k ss = k * ss) by (unfold sector_to_offset; apply u64_id; lia).
  assert (E2 : sector_to_offset (u64 (k + 1)) ss = (k + 1) * ss).
  { unfold sector_to_offset. rewrite (u64_id (k + 1)) by lia. apply u64_id. lia. }
  rewrite E1, E2. replace (offset + (pos k - offset) - k * ss) with (pos k - k * ss) by lia.
  rewrite (u64_id (pos k - k * ss)), (u32_id (pos k - k * ss)) by lia. cbn zeta.
  replace (k * ss + (pos k - k * ss)) with (pos k) by lia. rewrite (u64_id (pos k)) by lia.
  rewrite (u64_id ((k + 1) * ss - pos k)), min_u32_min by lia.
  rewrite (u32_id ((k + 1) * ss - pos k)), (u32_id (len - (pos k - offset))) by lia. split_and!; [done|done|lia].
Qed.

Lemma write_partial_wp buf k (s : dst) :
  start <= k <= last -> (start < k -> k * ss <= size) -> len <= Z.of_nat (length buf) ->
  writing buf (pos k) s.1 -> hp_live s.2 L ->
  wpx no_memory (write_partial k ss offset len (pos k - offset) buf) (fun r s' => hp_live s'.2 L /\
    if can_write k then r = Some (pos (k + 1) - offset) /\ writing buf (pos (k + 1)) s'.1
    else r = None /\ writing buf (pos k) s'.1) s.
Proof.
  intros Hk Hprev Hb Hw HL. pose proof Hw as (Hok & Es & Ew & Ed).
  destruct (pos_step k Hk) as (H1 & H2 & H3 & H4 & H5 & H6). destruct ss_pos as (Hss & Hmul & Hsz).
  pose proof sector_bounds as (Hb0 & _). pose proof (length_updated_pos buf k Hk Hprev Hb) as Hlu.
  destruct (partial_offsets k Hk) as (Ec & Eso & Ecl).
  unfold write_partial. apply wpx_bind, wpx_zoom, wpx_wp.
  eapply wp_mono; [apply (hp_kmalloc_law s.2 L); [done|unfold MAX_SMALL; lia]|].
  intros curr a1 [[-> HL1]|(Hn & Hnin & HL1)]; [right; done|]. rewrite (proj2 (Z.eqb_neq _ _) Hn).
  apply wpx_bind, wpx_ret. apply wpx_bind, wpx_zoom, wpx_wp.
  eapply wp_mono; [apply (read_sector_law s.1 k); [done|lia|rewrite length_replicate, Es; lia]|].
  intros [read sd] d1 (Hok1 & Es1 & Ed1 & Ew1 & Hr). cbn [fst snd] in Hr. rewrite Es, Ed, Hlu in Hr.
  assert (Hw1 : writing buf (pos k) d1) by (split_and!; [done|congruence..]).
  destruct (Z.leb_spec ((k + 1) * ss) size) as [Hin|Hout].
  2: { rewrite Hr. assert ((0 =? ss) = false) as -> by lia. apply wpx_bind, wpx_zoom, wpx_wp.
       eapply wp_mono; [by apply (free_curr L)|]. intros [] a2 HL2. apply wpx_ret. unfold can_write.
       assert (((k + 1) * ss <=? size) = false) as -> by lia. by rewrite andb_false_r. }
  destruct Hr as [-> ->]. rewrite Z.eqb_refl. cbn beta iota zeta delta [negb]. rewrite Ecl, Ec.
  apply wpx_bind. eapply wpx_must; [apply get_bytes_slice; lia|].
  replace (pos k - offset + (pos (k + 1) - pos k)) with (pos (k + 1) - offset) by lia.
  assert (Hlc : length (slice buf (pos k - offset) (pos (k + 1) - offset)) = Z.to_nat (pos (k + 1) - pos k))
    by (rewrite length_slice; lia).
  destruct (put_bytes (slice (updated buf (pos k)) (k * ss) ((k + 1) * ss)) (pos k - k * ss)
    (slice buf (pos k - offset) (pos (k + 1) - offset))) as [sec|] eqn:Esec.
  2: { rewrite put_bytes_some in Esec; [done|lia|]. rewrite Hlc, length_slice; nia. }
  apply wpx_bind. eapply wpx_must; [done|]. apply wpx_bind, wpx_wp.
  eapply wp_mono; [apply (write_sector_step buf k (d1, a1) sec); [done|done|done| | |done]|].
  - intros _. rewrite (put_sector _ _ ((k + 1) * ss) (pos k - k * ss)
      (slice buf (pos k - offset) (pos (k + 1) - offset)) sec); [|nia|lia|rewrite Hlc; lia|lia|exact Esec].
    replace (k * ss + (pos k - k * ss)) with (pos k) by lia. apply updated_step; lia.
  - rewrite (length_put_bytes _ _ _ _ Esec), length_slice by nia. lia.
  - intros res [d2 a2] [Ea Hres]. simpl in Ea, Hres. subst a2. apply wpx_bind, wpx_zoom, wpx_wp.
    eapply wp_mono; [by apply (free_curr L)|]. intros [] a3 HL3. destruct (can_write k).
    + destruct Hres as [-> Hw2]. rewrite Z.eqb_refl. apply wpx_ret. rewrite u32_id by lia.
      split_and!; [done| |done]. f_equal; lia.
    + destruct Hres as [-> Hw2]. assert ((0 =? ss) = false) as -> by lia. by apply wpx_ret.
Qed.

(** Where a write ends. *)
Definition wstop : Z := if dk_writable d then stop else offset.

Lemma write_stop k : start <= k <= last -> (start < k -> k * ss <= size /\ dk_writable d = true) ->
  can_write k = false -> pos k = wstop.
Proof.
  intros Hk Hprev Hc. unfold can_write in Hc. unfold wstop. destruct (dk_writable d); simpl in Hc.
  - apply stop_here; [done|intros; by apply Hprev|lia].
  - destruct (pos_step k Hk) as (_ & _ & _ & _ & [[E _]|[_ Hlt]] & _); [done|]. by destruct (Hprev Hlt).
Qed.

Lemma write_sectors_wp buf n k (s : dst) :
  n = Z.to_nat (last + 1 - k) -> start <= k <= last + 1 ->
  (start < k -> k * ss <= size /\ dk_writable d = true) -> len <= Z.of_nat (length buf) ->
  writing buf (pos k) s.1 -> hp_live s.2 L ->
  wpx no_memory (write_sectors (range k (last + 1)) ss start last offset len (pos k - offset) buf)
    (fun r s' => r = wstop - offset /\ writing buf wstop s'.1 /\ hp_live s'.2 L) s.
Proof.
  revert k s. induction n as [|n IH]; intros k s En Hk Hprev Hb Hw HL; destruct ss_pos as (Hss & Hmul & Hsz);
    pose proof sector_bounds as (Hb0 & Hb1 & Hb2 & Hb3).
  { assert (k = last + 1) as -> by lia. rewrite range_nil by lia. apply wpx_ret.
    destruct (Hprev ltac:(lia)) as [Hin Hwr]. unfold wstop. rewrite Hwr. rewrite stop_end in Hw |- * by nia. done. }
  assert (Hkl : start <= k <= last) by lia. rewrite range_cons by lia. cbn [write_sectors].
  destruct (pos_step k Hkl) as (H1 & H2 & H3 & H4 & H5 & H6).
  assert (Hnext : forall s', can_write k = true -> writing buf (pos (k + 1)) s'.1 -> hp_live s'.2 L ->
    wpx no_memory (write_sectors (range (k + 1) (last + 1)) ss start last offset len (pos (k + 1) - offset) buf)
      (fun r s' => r = wstop - offset /\ writing buf wstop s'.1 /\ hp_live s'.2 L) s').
  { intros s' Hc Hw' HL'. unfold can_write in Hc. breflect. apply IH; try done; lia. }
  assert (Hstop : forall s', can_write k = false -> writing buf (pos k) s'.1 -> hp_live s'.2 L ->
    pos k - offset = wstop - offset /\ writing buf wstop s'.1 /\ hp_live s'.2 L).
  { intros s' Hc Hw' HL'. rewrite <- (write_stop k Hkl Hprev Hc). done. }
  destruct ((k =? start) && negb (offset mod ss =? 0) || (k =? last) && negb (u64 (offset + len) mod ss =? 0)) eqn:Ep.
  - apply wpx_bind. eapply wpx_mono; [by apply (write_partial_wp buf k s); [|intros; apply Hprev|..]|].
    intros r s' [HL' Hr]. destruct (can_write k) eqn:Ec; destruct Hr as [-> Hw'].
    + by apply Hnext.
    + apply wpx_ret. by apply Hstop.
  - apply orb_false_elim in Ep as [Ep1 Ep2].
    assert (Epos : pos k = k * ss /\ pos (k + 1) = (k + 1) * ss).
    { rewrite u64_id in Ep2 by lia. assert (Hne : ss <> 0) by lia.
      pose proof (Z.div_mod offset ss Hne) as Hd1. pose proof (Z.div_mod (offset + len) ss Hne) as Hd2.
      split.
      - destruct H5 as [[E ->]|[E _]]; [|done]. rewrite Z.eqb_refl in Ep1. simpl in Ep1. breflect. lia.
      - rewrite H4. destruct (Z.eqb_spec k last) as [->|Hne']; simpl in Ep2; breflect.
        + rewrite Ep2, Z.add_0_r in Hd2. assert (Hp : 0 < ss) by lia.
          pose proof (multiple_unique _ _ _ _ Hd2 Hb2 Hp). lia.
        + assert ((k + 1) * ss <= last * ss) by (apply Z.mul_le_mono_nonneg_r; lia). lia. }
    destruct Epos as [Ep Ep'].
    apply wpx_bind, wpx_assert; [lia|]. apply wpx_bind, wpx_assert; [lia|].
    apply wpx_bind. eapply wpx_must; [apply get_bytes_slice; lia|].
    replace (pos k - offset + ss) with (pos (k + 1) - offset) by lia.
    pose proof (length_updated_pos buf k Hkl (fun Hlt => proj1 (Hprev Hlt)) Hb) as Hlu.
    apply wpx_bind, wpx_wp. eapply wp_mono; [apply (write_sector_step buf k s); [done|done|done| | |done]|].
    + intros Hin. rewrite <- Ep. apply updated_step; lia.
    + rewrite length_slice by lia. lia.
    + intros r s' [Ea Hr]. destruct (can_write k) eqn:Ec; destruct Hr as [-> Hw'].
      * rewrite Z.eqb_refl. cbn [negb]. rewrite u32_id by lia.
        replace (pos k - offset + ss) with (pos (k + 1) - offset) by lia. apply Hnext; [done|done|by rewrite Ea].
      * assert ((0 =? ss) = false) as -> by lia. apply wpx_ret. rewrite Z.add_0_r, u32_id by lia.
        apply Hstop; [done|done|by rewrite Ea].
Qed.

End Transfer.

(** ** The two functions *)

(** The number of bytes a transfer of [len] bytes at [offset] moves. *)
Definition available (d : D) (offset len : Z) : Z :=
  Z.max 0 (Z.min len (Z.of_nat (length (dk_data d)) - offset)).

Lemma disk_read_wp (s : dst) L offset buf len :
  dk_ok s.1 -> hp_live s.2 L -> 0 <= offset -> 0 <= len < 2 ^ 32 -> offset + len < 2 ^ 63 ->
  len <= Z.of_nat (length buf) ->
  wpx no_memory (disk_read offset buf len) (fun r s' =>
    let n := available s.1 offset len in
    r = (n, slice (dk_data s.1) offset (offset + n) ++ drop (Z.to_nat n) buf) /\
    same_disk s.1 s'.1 /\ hp_live s'.2 L) s.
Proof.
  intros Hd HL Hoff Hlen Hend Hb. unfold disk_read, available. destruct (Z.eqb_spec len 0) as [->|Hne].
  { apply wpx_ret. rewrite Z.max_l by lia. cbn zeta. rewrite Z.add_0_r, slice_nil. repeat split; done. }
  apply wpx_bind, wpx_zoom, wpx_wp. eapply wp_mono; [by apply sector_size_law|]. intros ss d' [-> ->].
  destruct (dk_size_ok s.1 Hd) as ((Hs1 & Hs2) & _). unfold MAX_SMALL in Hs2.
  pose proof (sector_bounds s.1 offset len Hd Hoff Hend ltac:(lia)) as (Hb0 & Hb1 & Hb2 & Hb3).
  apply wpx_bind, wpx_zoom, wpx_wp. eapply wp_mono; [apply (hp_kmalloc_law s.2 L); [done|unfold MAX_SMALL; lia]|].
  intros p a1 [[-> _]|(Hp & Hnin & HL1)]; [left; done|]. rewrite (proj2 (Z.eqb_neq _ _) Hp).
  apply wpx_bind, wpx_ret. apply wpx_bind, wpx_wp.
  unfold offset_to_sector. rewrite (u64_id (offset + len - 1)), (u64_id (offset / _)), (u64_id ((offset + len - 1) / _)) by lia.
  pose proof (read_sectors_wp s.1 offset len Hd Hoff Hend ltac:(lia) buf _ (offset / dk_size s.1)
    (s.1, a1) eq_refl) as Hw. rewrite pos_start in Hw by (done || lia).
  replace (filled s.1 offset buf offset) with buf in Hw
    by (unfold filled; by rewrite slice_nil, Z.sub_diag, drop_0). rewrite Z.sub_diag in Hw.
  eapply wp_mono; [apply Hw; [lia|lia|done|done]|]. intros r [d2 a2] (-> & Hsame & Ea). simpl in Ea, Hsame. subst a2.
  apply wpx_bind, wpx_zoom, wpx_wp. eapply wp_mono; [by apply (free_curr L)|]. intros [] a3 HL3. apply wpx_ret.
  assert (Est : stop s.1 offset len - offset = Z.max 0 (Z.min len (Z.of_nat (length (dk_data s.1)) - offset))).
  { unfold stop. lia. }
  rewrite <- Est. unfold filled. replace (offset + (stop s.1 offset len - offset)) with (stop s.1 offset len) by lia. done.
Qed.

Lemma disk_write_wp (s : dst) L offset buf len :
  dk_ok s.1 -> hp_live s.2 L -> 0 <= offset -> 0 <= len < 2 ^ 32 -> offset + len < 2 ^ 63 ->
  len <= Z.of_nat (length buf) ->
  wpx no_memory (disk_write offset buf len) (fun r s' =>
    dk_ok s'.1 /\ dk_size s'.1 = dk_size s.1 /\ dk_writable s'.1 = dk_writable s.1 /\ hp_live s'.2 L /\
    r = (if dk_writable s.1 then available s.1 offset len else 0) /\
    dk_data s'.1 = updated s.1 offset buf (offset + r)) s.
Proof.
  intros Hd HL Hoff Hlen Hend Hb. unfold disk_write, available. destruct (Z.eqb_spec len 0) as [->|Hne].
  { apply wpx_ret. rewrite Z.max_l by lia. split_and!; [done..| |].
    - by destruct (dk_writable s.1).
    - by rewrite Z.add_0_r, updated_start. }
  apply wpx_bind, wpx_zoom, wpx_wp. eapply wp_mono; [by apply sector_size_law|]. intros ss d' [-> ->].
  destruct (dk_size_ok s.1 Hd) as ((Hs1 & Hs2) & _).
  pose proof (sector_bounds s.1 offset len Hd Hoff Hend ltac:(lia)) as (Hb0 & Hb1 & Hb2 & Hb3).
  unfold offset_to_sector. rewrite (u64_id (offset + len - 1)), (u64_id (offset / _)), (u64_id ((offset + len - 1) / _)) by lia.
  replace (s.1, s.2) with s by (by destruct s).
  pose proof (write_sectors_wp s.1 L offset len Hd Hoff Hend ltac:(lia) buf _ (offset / dk_size s.1) s eq_refl) as Hw.
  rewrite pos_start in Hw by (done || lia). rewrite Z.sub_diag in Hw.
  eapply wpx_mono; [apply Hw; [lia|lia|done| |done]|].
  { split_and!; [done..|]. by rewrite updated_start. }
  intros r s' (-> & (Hok & Es & Ew & Ed) & HL'). split_and!; [done..| |].
  - unfold wstop, stop. destruct (dk_writable s.1); lia.
  - rewrite Ed. f_equal. lia.
Qed.

(** ** Properties *)

(** on any disk whose driver keeps its promise, [disk_read] returns exactly
    the bytes of the disk from [offset] on, as many as asked for or as there
    are, leaves the rest of the buffer and the disk alone, and gives back the
    memory it allocated; the only way not to return is that memory is missing. *)
Theorem disk_read_correct (s : dst) L offset buf len :
  dk_ok s.1 -> hp_live s.2 L -> 0 <= offset -> 0 <= len < 2 ^ 32 -> offset + len < 2 ^ 63 ->
  len <= Z.of_nat (length buf) ->
  match disk_read offset buf len s with
  | Ok ((n, buf'), s') =>
      n = Z.max 0 (Z.min len (Z.of_nat (length (dk_data s.1)) - offset)) /\
      buf' = slice (dk_data s.1) offset (offset + n) ++ drop (Z.to_nat n) buf /\
      dk_ok s'.1 /\ dk_data s'.1 = dk_data s.1 /\ hp_live s'.2 L
  | Halt h => h = Panic "!sector_data" \/ h = Panic "!curr"
  end.
Proof.
  intros Hd HL Ho Hl He Hb. pose proof (disk_read_wp s L offset buf len Hd HL Ho Hl He Hb) as Hw. unfold wpx in Hw.
  destruct (disk_read offset buf len s) as [[[n buf'] s']|h]; [|exact Hw].
  destruct Hw as ([= -> ->] & (? & _ & ? & _) & ?). unfold available. done.
Qed.

(** on any disk whose driver keeps its promise, [disk_write] on a writable
    disk replaces exactly the bytes from [offset] on, as many as asked for or
    as there is room, keeping the neighbouring bytes of partly written sectors;
    on a read-only disk it returns 0 and changes nothing; it gives back the
    memory it allocated, and the only way not to return is that memory is
    missing. *)
Theorem disk_write_correct (s : dst) L offset buf len :
  dk_ok s.1 -> hp_live s.2 L -> 0 <= offset -> 0 <= len < 2 ^ 32 -> offset + len < 2 ^ 63 ->
  len <= Z.of_nat (length buf) ->
  match disk_write offset buf len s with
  | Ok (n, s') =>
      n = (if dk_writable s.1 then Z.max 0 (Z.min len (Z.of_nat (length (dk_data s.1)) - offset)) else 0) /\
      dk_data s'.1 = take (Z.to_nat offset) (dk_data s.1) ++ take (Z.to_nat n) buf ++
                     drop (Z.to_nat (offset + n)) (dk_data s.1) /\
      dk_ok s'.1 /\ hp_live s'.2 L
  | Halt h => h = Panic "!sector_data" \/ h = Panic "!curr"
  end.
Proof.
  intros Hd HL Ho Hl He Hb. pose proof (disk_write_wp s L offset buf len Hd HL Ho Hl He Hb) as Hw. unfold wpx in Hw.
  destruct (disk_write offset buf len s) as [[n s']|h]; [|exact Hw].
  destruct Hw as (? & _ & _ & ? & -> & Ed). split_and!; [done| |done|done]. rewrite Ed. unfold updated, slice.
  rewrite drop_0. do 3 f_equal. lia.
Qed.

End DiskSpec.

(** ** Memory disks *)

Definition MEMDISK_SEC_SIZE : Z := 512.

(** [struct memdisk_data]; [mapped] are the bytes at [mapped_addr]. *)
Record memdisk_data := mk_memdisk { mapped : list Z; md_size : Z; md_read_only : bool }.

Definition memdisk_sector_size : M memdisk_data Z := ret MEMDISK_SEC_SIZE.

Definition do_update (sector_index : Z) (buf : list Z) (is_read : bool) : M memdisk_data (Z * list Z) :=
  do data <- gets (fun d => d);
  if negb is_read && md_read_only data then ret (0, buf) else
  let sector_size := MEMDISK_SEC_SIZE in
  let size := md_size data in
  let end_sector := ceil_x_over_y_u32 size sector_size in
  if end_sector <=? sector_index then ret (0, buf) else
  let offset := u32 (sector_index * sector_size) in
  let len := min_u32 sector_size (u32 (size - offset)) in
  do buf <- (if (len <? sector_size) && is_read
             then must (put_bytes buf 0 (replicate (Z.to_nat sector_size) 0)) "memzero" else ret buf);
  if is_read then
    do bytes <- must (get_bytes (mapped data) offset len) "mapped_addr";
    do buf' <- must (put_bytes buf 0 bytes) "buf";
    ret (sector_size, buf')
  else
    do bytes <- must (get_bytes buf 0 len) "buf";
    do m <- must (put_bytes (mapped data) offset bytes) "mapped_addr";
    modify (fun d => mk_memdisk m (md_size d) (md_read_only d));;;
    ret (sector_size, buf).

Definition memdisk_read_sector (sector_index : Z) (buf : list Z) : M memdisk_data (Z * list Z) :=
  do_update sector_index buf true.

Definition memdisk_write_sector (sector_index : Z) (buf : list Z) : M memdisk_data Z :=
  do r <- do_update sector_index buf false; ret r.1.

#[export] Instance memdisk_ops : DiskOps memdisk_data := {
  sector_size := memdisk_sector_size;
  read_sector := memdisk_read_sector;
  write_sector := memdisk_write_sector }.

(** [struct disk] and [struct memdisk_data] objects, and the heap. *)
Record md_st (A : Type) := mk_md {
  md_disks : gmap Z Z;
  md_datas : gmap Z memdisk_data;
  md_errors : list err_call;
  md_heap : A }.
Arguments mk_md {A}.
Arguments md_disks {A}.
Arguments md_datas {A}.
Arguments md_errors {A}.
Arguments md_heap {A}.

Section Create.
Context {A : Type} `{Heap A}.

Definition on_md_heap {B} : M A B -> M (md_st A) B :=
  zoom md_heap (fun a s => mk_md (md_disks s) (md_datas s) (md_errors s) a).

Definition SET_ERROR (msg : string) (code : Z) : M (md_st A) unit :=
  modify (fun s => mk_md (md_disks s) (md_datas s) (md_errors s ++ [mk_err msg code false]) (md_heap s)).

(** [bytes] are the bytes at the address the caller gives. *)
Definition create_memdisk (bytes : list Z) (size : Z) (read_only : bool) : M (md_st A) Z :=
  when (negb (size mod MEMDISK_SEC_SIZE =? 0))
    (panic "Memdisks must have a size that is a multiple of 512 bytes");;;
  do disk <- on_md_heap (hp_kmalloc 8);
  if disk =? NULL then
    SET_ERROR "Cannot allocate struct disk for new memdisk" ENONE;;; ret NULL
  else
  do data <- on_md_heap (hp_kmalloc 12);
  if data =? NULL then
    SET_ERROR "Cannot allocate private data for new memdisk" ENONE;;;
    on_md_heap (hp_kfree disk);;;
    ret NULL
  else
  modify (fun s => mk_md (<[disk := data]> (md_disks s))
    (<[data := mk_memdisk bytes size read_only]> (md_datas s)) (md_errors s) (md_heap s));;;
  ret disk.

Definition delete_memdisk (disk : Z) : M (md_st A) unit :=
  do data <- (fun s => must (md_disks s !! disk) "disk" s);
  ASSERT (negb (data =? NULL)) "data";;;
  on_md_heap (hp_kfree data);;;
  on_md_heap (hp_kfree disk);;;
  modify (fun s => mk_md (delete disk (md_disks s)) (delete data (md_datas s)) (md_errors s) (md_heap s)).

End Create.

(** ** The driver keeps the promise *)

Definition memdisk_ok (d : memdisk_data) : Prop :=
  Z.of_nat (length (mapped d)) = md_size d /\ md_size d mod 512 = 0 /\ md_size d < 2 ^ 32.

Lemma memdisk_ends d i :
  Z.of_nat (length (mapped d)) = md_size d -> md_size d < 2 ^ 32 -> 0 <= i ->
  (ceil_x_over_y_u32 (md_size d) 512 <=? i) = false -> i * 512 < md_size d.
Proof.
  intros Hl Hs Hi Hc. pose proof (ceil_x_over_y_bound (md_size d) 512 ltac:(lia) ltac:(lia)). lia.
Qed.

(** [do_update] on every branch; the size may have any number of bytes. *)
Lemma do_update_read_run d i buf :
  Z.of_nat (length (mapped d)) = md_size d -> md_size d < 2 ^ 32 -> 0 <= i -> Z.of_nat (length buf) = 512 ->
  do_update i buf true d =
    if i * 512 <? md_size d then
      let hi := Z.min (md_size d) ((i + 1) * 512) in
      Ok ((512, slice (mapped d) (i * 512) hi ++ replicate (Z.to_nat ((i + 1) * 512 - hi)) 0), d)
    else Ok ((0, buf), d).
Proof.
  intros Hl Hs Hi Hb. unfold do_update, MEMDISK_SEC_SIZE. erewrite bind_ok by reflexivity. cbn [negb andb].
  pose proof (ceil_x_over_y_bound (md_size d) 512 ltac:(lia) ltac:(lia)) as Hc.
  destruct (Z.leb_spec (ceil_x_over_y_u32 (md_size d) 512) i) as [Hout|Hin].
  { assert ((i * 512 <? md_size d) = false) as -> by lia. done. }
  assert ((i * 512 <? md_size d) = true) as -> by lia. cbn zeta.
  rewrite (u32_id (i * 512)), (u32_id (md_size d - i * 512)), min_u32_min by lia. rewrite andb_true_r.
  set (hi := Z.min (md_size d) ((i + 1) * 512)). set (ln := Z.min 512 (md_size d - i * 512)).
  assert (Eln : ln = hi - i * 512) by lia.
  assert (Hg : get_bytes (mapped d) (i * 512) ln = Some (slice (mapped d) (i * 512) hi)).
  { rewrite get_bytes_slice by lia. do 2 f_equal. lia. }
  assert (Hls : length (slice (mapped d) (i * 512) hi) = Z.to_nat ln) by (rewrite length_slice; lia).
  destruct (Z.ltb_spec ln 512).
  - erewrite bind_ok; [|rewrite put_bytes_whole by (rewrite length_replicate; lia); reflexivity].
    rewrite Hg. erewrite bind_ok by reflexivity.
    erewrite bind_ok; [|rewrite put_bytes_front by (rewrite Hls, length_replicate; lia); reflexivity].
    unfold ret. rewrite Hls, drop_replicate. do 5 f_equal. lia.
  - erewrite bind_ok by reflexivity. rewrite Hg. erewrite bind_ok by reflexivity.
    erewrite bind_ok; [|rewrite put_bytes_front by lia; reflexivity].
    unfold ret. rewrite Hls, drop_ge by lia.
    by replace (Z.to_nat ((i + 1) * 512 - hi)) with 0%nat by lia.
Qed.

Lemma do_update_write_run d i buf :
  Z.of_nat (length (mapped d)) = md_size d -> md_size d < 2 ^ 32 -> 0 <= i -> Z.of_nat (length buf) = 512 ->
  do_update i buf false d =
    if md_read_only d then Ok ((0, buf), d)
    else if i * 512 <? md_size d then
      let hi := Z.min (md_size d) ((i + 1) * 512) in
      Ok ((512, buf), mk_memdisk (take (Z.to_nat (i * 512)) (mapped d) ++ slice buf 0 (hi - i * 512) ++
                                  drop (Z.to_nat hi) (mapped d)) (md_size d) false)
    else Ok ((0, buf), d).
Proof.
  intros Hl Hs Hi Hb. unfold do_update, MEMDISK_SEC_SIZE. erewrite bind_ok by reflexivity. cbn [negb andb].
  destruct (md_read_only d) eqn:Ero; [done|].
  pose proof (ceil_x_over_y_bound (md_size d) 512 ltac:(lia) ltac:(lia)) as Hc.
  destruct (Z.leb_spec (ceil_x_over_y_u32 (md_size d) 512) i) as [Hout|Hin].
  { assert ((i * 512 <? md_size d) = false) as -> by lia. done. }
  assert ((i * 512 <? md_size d) = true) as -> by lia. cbn zeta.
  rewrite (u32_id (i * 512)), (u32_id (md_size d - i * 512)), min_u32_min by lia. rewrite andb_false_r.
  set (hi := Z.min (md_size d) ((i + 1) * 512)). set (ln := Z.min 512 (md_size d - i * 512)).
  assert (Eln : ln = hi - i * 512) by lia. erewrite bind_ok by reflexivity.
  assert (Hls : length (slice buf 0 ln) = Z.to_nat ln) by (rewrite length_slice; lia).
  erewrite bind_ok; [|rewrite get_bytes_slice by lia; reflexivity].
  rewrite Z.add_0_l.
  erewrite bind_ok; [|rewrite put_bytes_some by (rewrite ?Hls; lia); reflexivity].
  erewrite bind_ok by reflexivity. unfold ret. rewrite Ero, Hls, <- Eln.
  by replace (Z.to_nat (i * 512) + Z.to_nat ln)%nat with (Z.to_nat hi) by lia.
Qed.

#[export] Instance memdisk_laws : DiskLaws memdisk_data.
Proof.
  refine {| dk_ok := memdisk_ok; dk_size _ := 512; dk_data := mapped; dk_writable d := negb (md_read_only d) |}.
  - intros d (Hl & Hm & Hs). rewrite Hl. unfold MAX_SMALL. lia.
  - intros d _. done.
  - intros d i buf Hok Hi Hb. pose proof Hok as (Hl & Hm & Hs). unfold wp, read_sector. simpl. unfold memdisk_read_sector.
    rewrite do_update_read_run by done. rewrite Hl. destruct (Z.ltb_spec (i * 512) (md_size d)); simpl.
    + assert ((i + 1) * 512 <= md_size d) by (Z.to_euclidean_division_equations; lia).
      rewrite (proj2 (Z.leb_le _ _)) by done. rewrite Z.min_r by lia. rewrite Z.sub_diag. simpl. rewrite app_nil_r. done.
    + rewrite (proj2 (Z.leb_gt _ _)) by lia. done.
  - intros d i data Hok Hi Hb. pose proof Hok as (Hl & Hm & Hs). unfold wp, write_sector. simpl. unfold memdisk_write_sector, bind.
    rewrite do_update_write_run by done. rewrite Hl. destruct (md_read_only d) eqn:Ero; simpl.
    { by rewrite Ero. }
    destruct (Z.ltb_spec (i * 512) (md_size d)); simpl.
    + assert ((i + 1) * 512 <= md_size d) by (Z.to_euclidean_division_equations; lia).
      rewrite (proj2 (Z.leb_le _ _)) by done. rewrite Z.min_r by lia. replace ((i + 1) * 512 - i * 512) with 512 by lia.
      assert (Es : slice data 0 512 = data) by (unfold slice; rewrite drop_0; apply take_ge; lia). rewrite Es.
      split_and!; [|done|done|done|].
      * unfold memdisk_ok. simpl. rewrite !length_app, length_take, length_drop. lia.
      * rewrite put_bytes_some by lia. do 3 f_equal. f_equal. lia.
    + rewrite (proj2 (Z.leb_gt _ _)) by lia. by rewrite Ero.
Defined.

(** ** Properties of the memory disks *)

Section MemdiskSpec.
Context {A : Type} `{HA : HeapLaws A}.

(** The objects of the memory disks are in blocks their owner holds. *)
Definition md_inv (s : md_st A) (L : gset Z) : Prop :=
  hp_live (md_heap s) L /\ dom (md_disks s) ⊆ L /\ dom (md_datas s) ⊆ L.

(** The same disks as in [s]. *)
Definition same_objects (s s' : md_st A) : Prop :=
  md_disks s' = md_disks s /\ md_datas s' = md_datas s.

Lemma free_block (s : md_st A) L p :
  hp_live (md_heap s) L -> p ∈ L ->
  wp (on_md_heap (hp_kfree p)) (fun _ s' => hp_live (md_heap s') (L ∖ {[p]}) /\ same_objects s s' /\
    md_errors s' = md_errors s) s.
Proof. intros Ha Hp. apply wp_zoom. eapply wp_mono; [by apply hp_kfree_law|]. done. Qed.

Lemma create_memdisk_wp (s : md_st A) L bytes size ro :
  md_inv s L -> size mod 512 = 0 ->
  wp (create_memdisk bytes size ro) (fun disk s' =>
    (disk = NULL /\ md_inv s' L /\ same_objects s s' /\ exists e, md_errors s' = md_errors s ++ [e]) \/
    (disk <> NULL /\ exists data, (disk ∉ L) /\ (data ∉ {[disk]} ∪ L) /\ data <> NULL /\
       md_inv s' ({[data]} ∪ ({[disk]} ∪ L)) /\ md_errors s' = md_errors s /\
       md_disks s' = <[disk := data]> (md_disks s) /\
       md_datas s' = <[data := mk_memdisk bytes size ro]> (md_datas s))) s.
Proof.
  intros (Ha & Hd1 & Hd2) Hm. unfold create_memdisk. apply wp_bind. unfold MEMDISK_SEC_SIZE. rewrite Hm. apply wp_ret.
  apply wp_bind, wp_zoom. eapply wp_mono; [apply (hp_kmalloc_law _ L); [done|unfold MAX_SMALL; lia]|].
  intros disk a1 [[-> H1]|(Hn1 & Hf1 & H1)].
  { cbn [Z.eqb]. apply wp_bind, wp_modify, wp_ret. left. split_and!; [done|by split_and!|done|by eexists]. }
  rewrite (proj2 (Z.eqb_neq _ _) Hn1). apply wp_bind, wp_zoom.
  eapply wp_mono; [apply (hp_kmalloc_law _ _ 12 H1); unfold MAX_SMALL; lia|].
  intros data a2 [[-> H2]|(Hn2 & Hf2 & H2)].
  { cbn [Z.eqb]. apply wp_bind, wp_modify. apply wp_bind.
    eapply wp_mono; [by apply (free_block _ ({[disk]} ∪ L)); [|set_solver]|].
    intros [] s' (Hl & (E1 & E2) & E3). apply wp_ret. left.
    replace (({[disk]} ∪ L) ∖ {[disk]}) with L in Hl by (apply set_eq; set_solver).
    split; [done|]. split; [split_and!; [done|by rewrite E1|by rewrite E2]|]. split; [done|]. rewrite E3. by eexists. }
  rewrite (proj2 (Z.eqb_neq _ _) Hn2). apply wp_bind, wp_modify, wp_ret. right. split; [done|]. exists data.
  split_and!; try done. split_and!; [done|..]; simpl; rewrite dom_insert_L; set_solver.
Qed.

(** creating a memory disk of a valid size either fails, with one error
    logged and no memory and no disk left behind, or gives a disk over exactly
    the bytes and the access mode asked for; deleting that disk then restores
    the disks and the allocated blocks as they were before.  An invalid size
    panics. *)
Theorem create_delete_memdisk (s : md_st A) L bytes size ro :
  md_inv s L ->
  match create_memdisk bytes size ro s with
  | Ok (disk, s') =>
      size mod 512 = 0 /\
      if disk =? NULL then
        hp_live (md_heap s') L /\ same_objects s s' /\ exists e, md_errors s' = md_errors s ++ [e]
      else
        (disk ∉ L) /\ (md_disks s' !! disk ≫= fun data => md_datas s' !! data) = Some (mk_memdisk bytes size ro) /\
        exists s'', delete_memdisk disk s' = Ok (tt, s'') /\
          hp_live (md_heap s'') L /\ same_objects s s'' /\ md_errors s'' = md_errors s
  | Halt h => size mod 512 <> 0 /\ h = Panic "Memdisks must have a size that is a multiple of 512 bytes"
  end.
Proof.
  intros Hs. destruct (decide (size mod 512 = 0)) as [Hm|Hm].
  2: { unfold create_memdisk, MEMDISK_SEC_SIZE. apply Z.eqb_neq in Hm as Hm'. by rewrite Hm'. }
  destruct (proj1 (wp_ok _ _ _) (create_memdisk_wp s L bytes size ro Hs Hm)) as (disk & s' & -> & Hr).
  split; [done|]. destruct Hr as [(-> & (Hl & _) & ? & ?)|(Hn & data & Hf1 & Hf2 & Hnd & (Hl & Hd1 & Hd2) & Ee & E1 & E2)]; [done|].
  rewrite (proj2 (Z.eqb_neq _ _) Hn). split; [done|]. rewrite E1, lookup_insert_eq. simpl. rewrite E2, lookup_insert_eq.
  split; [done|]. destruct Hs as (_ & Hs1 & Hs2).
  assert (Hw : wp (delete_memdisk disk) (fun r s'' => hp_live (md_heap s'') L /\ same_objects s s'' /\ md_errors s'' = md_errors s) s').
  { unfold delete_memdisk. apply wp_bind. eapply wp_must; [by rewrite E1, lookup_insert_eq|].
    apply wp_bind, wp_assert; [by rewrite (proj2 (Z.eqb_neq _ _) Hnd)|].
    apply wp_bind. eapply wp_mono; [apply (free_block _ _ data Hl); set_solver|]. intros [] s1 (Hl1 & (F1 & F2) & F3).
    apply wp_bind. eapply wp_mono; [apply (free_block _ _ disk Hl1); set_solver|]. intros [] s2 (Hl2 & (G1 & G2) & G3).
    apply wp_modify. simpl. rewrite G1, G2, F1, F2, E1, E2, !delete_insert_id by (apply not_elem_of_dom; set_solver).
    split_and!; [|done|congruence]. by replace L with ((({[data]} ∪ ({[disk]} ∪ L)) ∖ {[data]}) ∖ {[disk]}) by (apply set_eq; set_solver). }
  apply wp_ok in Hw as ([] & s'' & -> & ?). by exists s''.
Qed.

End MemdiskSpec.

(** a memory disk of any size, as [initrd.c] makes them after rounding or
    not: reading a sector gives its bytes followed by zeros up to the sector
    size, writing replaces the bytes that exist, a sector past the end and a
    write to a read-only disk return 0 and change nothing. *)
Theorem memdisk_sectors_correct d i buf :
  Z.of_nat (length (mapped d)) = md_size d -> md_size d < 2 ^ 32 -> 0 <= i -> Z.of_nat (length buf) = 512 ->
  let hi := Z.min (md_size d) ((i + 1) * 512) in
  memdisk_read_sector i buf d =
    (if i * 512 <? md_size d then
       Ok ((512, slice (mapped d) (i * 512) hi ++ replicate (Z.to_nat ((i + 1) * 512 - hi)) 0), d)
     else Ok ((0, buf), d)) /\
  memdisk_write_sector i buf d =
    (if negb (md_read_only d) && (i * 512 <? md_size d) then
       Ok (512, mk_memdisk (take (Z.to_nat (i * 512)) (mapped d) ++ slice buf 0 (hi - i * 512) ++
                            drop (Z.to_nat hi) (mapped d)) (md_size d) false)
     else Ok (0, d)).
Proof.
  intros Hl Hs Hi Hb hi. unfold memdisk_read_sector, memdisk_write_sector, bind.
  rewrite do_update_read_run, do_update_write_run by done. split; [done|].
  destruct (md_read_only d); [done|]. simpl. by destruct (i * 512 <? md_size d).
Qed.

(** ** Witnesses *)

Definition small_disk : memdisk_data := mk_memdisk (map u8 (range 0 1024)) 1024 false.
Definition md0 : md_st counting := mk_md ∅ ∅ [] counting0.

Lemma small_disk_ok : dk_ok small_disk.
Proof. unfold dk_ok. simpl. split_and!; [reflexivity|reflexivity|simpl; lia]. Qed.

(** Reading across the end of a sector, and past the end of the disk. *)
Lemma disk_read_correct_witness :
  match disk_read 510 (replicate 4 7) 4 (small_disk, counting0) with
  | Ok ((n, buf'), s') => n = 4 /\ buf' = [254; 255; 0; 1] /\ dk_data s'.1 = mapped small_disk
  | Halt h => False
  end /\
  match disk_read 1022 (replicate 4 7) 4 (small_disk, counting0) with
  | Ok ((n, buf'), s') => n = 2 /\ buf' = [254; 255; 7; 7]
  | Halt h => False
  end.
Proof.
  split.
  - assert (H := disk_read_correct (small_disk, counting0) ∅ 510 (replicate 4 7) 4
      small_disk_ok counting0_live ltac:(lia) ltac:(lia) ltac:(lia) ltac:(reflexivity)).
    destruct (disk_read _ _ _ _) as [[[n b] s]|h] eqn:E; [|revert E; vm_compute; discriminate].
    destruct H as (-> & -> & _ & H & _). rewrite H. vm_compute. repeat split.
  - assert (H := disk_read_correct (small_disk, counting0) ∅ 1022 (replicate 4 7) 4
      small_disk_ok counting0_live ltac:(lia) ltac:(lia) ltac:(lia) ltac:(reflexivity)).
    destruct (disk_read _ _ _ _) as [[[n b] s]|h] eqn:E; [|revert E; vm_compute; discriminate].
    destruct H as (-> & -> & _). vm_compute. repeat split.
Defined.

Lemma disk_write_correct_witness :
  match disk_write 510 [11; 12; 13; 14] 4 (small_disk, counting0) with
  | Ok (n, s') => n = 4 /\ slice (dk_data s'.1) 508 516 = [252; 253; 11; 12; 13; 14; 2; 3]
  | Halt h => False
  end.
Proof.
  assert (H := disk_write_correct (small_disk, counting0) ∅ 510 [11; 12; 13; 14] 4
    small_disk_ok counting0_live ltac:(lia) ltac:(lia) ltac:(lia) ltac:(simpl; lia)).
  destruct (disk_write _ _ _ _) as [[n s]|h] eqn:E; [|revert E; vm_compute; discriminate].
  destruct H as (-> & -> & _). vm_compute. repeat split.
Defined.

Lemma create_delete_memdisk_witness :
  md_inv md0 ∅ /\
  match create_memdisk (mapped small_disk) 1024 true md0 with
  | Ok (disk, s') => 
      (md_disks s' !! disk ≫= fun data => md_datas s' !! data) = Some (mk_memdisk (mapped small_disk) 1024 true)
  | Halt h => False
  end.
Proof.
  assert (Hi : md_inv md0 ∅) by (split_and!; [apply counting0_live|done|done]). split; [done|].
  assert (H := create_delete_memdisk md0 ∅ (mapped small_disk) 1024 true Hi).
  destruct (create_memdisk _ _ _ _) as [[disk s']|h] eqn:E; [|by destruct H].
  destruct H as [_ H]. destruct (disk =? NULL) eqn:E2; [|by destruct H as (_ & H & _)].
  exfalso. vm_compute in E. injection E as <- <-. vm_compute in E2. discriminate.
Defined.

Lemma memdisk_sectors_correct_witness :
  memdisk_read_sector 1 (replicate 512 9) (mk_memdisk (map u8 (range 0 514)) 514 false) =
    Ok ((512, [0; 1] ++ replicate 510 0), mk_memdisk (map u8 (range 0 514)) 514 false).
Proof.
  destruct (memdisk_sectors_correct (mk_memdisk (map u8 (range 0 514)) 514 false) 1 (replicate 512 9)
    ltac:(reflexivity) ltac:(simpl; lia) ltac:(lia) ltac:(reflexivity)) as [-> _]. vm_compute. repeat split.
Defined.
