(* ===== verification/Fs.v ===== *)
(** * The file-system interface: [src/fs.h]

    [file_ops] and [fs_ops] are the tables of functions a file system defines,
    over a state [F] that holds the disks, the memory and the private data of
    the file system.  Of a [struct file] the functions of a file system get
    what they use of it: the disk and the private pointer; [open_file] gives
    the two FS-specific fields it sets. *)

From S2P Require Import Prelude RwLock.

Inductive fs_op_res := FS_SUCCESS | FS_NOT_IMPL | FS_NOT_FOUND.

#[export] Instance fs_op_res_eq_dec : EqDecision fs_op_res.
Proof. solve_decision. Defined.

(** A buffer is a list of bytes: a read gives the number of bytes and the new
    contents of the buffer. *)
Record file_ops (F : Type) := mk_file_ops {
  op_read : Z -> Z -> Z -> list Z -> Z -> M F (Z * list Z);
  op_write : Z -> Z -> Z -> list Z -> Z -> M F Z }.
Arguments mk_file_ops {F}.
Arguments op_read {F}.
Arguments op_write {F}.

(** A path is the list of its characters, without the NUL.  The pointers
    [file->fs_relative_path] and [file->disk] are arguments of [open_file],
    which checks them. *)
Record fs_ops (F : Type) := mk_fs_ops {
  op_detect_fs : Z -> M F bool;
  op_create_file : Z -> list Z -> M F fs_op_res;
  op_open_file : Z -> Z -> list Z -> M F (fs_op_res * option (file_ops F * Z));
  op_close_file : Z -> M F unit;
  op_delete_file : Z -> list Z -> M F unit }.
Arguments mk_fs_ops {F}.
Arguments op_detect_fs {F}.
Arguments op_create_file {F}.
Arguments op_open_file {F}.
Arguments op_close_file {F}.
Arguments op_delete_file {F}.

(** [struct file], without its node in the list of opened files, which is
    with the other list nodes.  [abs_path] is the address of the copy of the
    path, [fs_relative_path] an address inside the same copy. *)
Record file (F : Type) := mk_file {
  abs_path : Z;
  fs_relative_path : Z;
  file_disk : Z;
  file_lock : rwlock_t;
  ops : option (file_ops F);
  fs_private : Z;
  open_ref_count : atomic_t }.
Arguments mk_file {F}.
Arguments abs_path {F}.
Arguments fs_relative_path {F}.
Arguments file_disk {F}.
Arguments file_lock {F}.
Arguments ops {F}.
Arguments fs_private {F}.
Arguments open_ref_count {F}.
