(* ===== verification/Ustar.v ===== *)
(** * The USTAR file system: [src/ustar.c]

    A header is the list of its 512 bytes, the fields are at their offsets in
    the packed structure.  The disks are those of [Disk], over any driver; the
    private data of an opened file is in [u_priv], by address.  [kmalloc]
    gives zeroed memory (the last step of [kmalloc_in_group]).

    [fuel] bounds the search over the headers; the strings inside a header
    are shorter than 513 characters, or the read leaves the header. *)

From S2P Require Import Prelude Math Kmalloc KHeap CMem RwLock Disk Fs.

Definition USTAR_SEC_SIZE : Z := 512.

(** Offsets of the fields of [struct ustar_header]. *)
Definition HDR_filename : Z := 0.
Definition HDR_filesize : Z := 124.
Definition HDR_type : Z := 156.
Definition HDR_indicator : Z := 257.
Definition HDR_filename_prefix : Z := 345.

Abbreviation ustar_header := (list Z) (only parsing).

(** [struct ustar_file_private_data] *)
Record ustar_file_private_data := mk_private {
  header_offset : Z;
  private_header : ustar_header }.

Section Parse.
Context {S : Type}.

Definition is_dir (hdr : ustar_header) : M S bool :=
  do t <- rd_buf hdr HDR_type; ret (t =? 53).

Definition is_file (hdr : ustar_header) : M S bool :=
  do t <- rd_buf hdr HDR_type; ret ((t =? 48) || (t =? 0)).

(** The index is a [uint8_t]: with 256 digits or more the loop never ends;
    with less it ends before the 512 iterations the model allows. *)
Fixpoint octal_loop (fuel : nat) (rd : Z -> M S Z) (str i res : Z) : M S Z :=
  match fuel with
  | O => halt_with (Hang "octal_string_to_u64")
  | Datatypes.S fuel' =>
      do len <- strlen 513 rd str;
      if i <? len then
        do cdigit <- rd (u32 (str + i));
        ASSERT ((48 <=? cdigit) && (cdigit <=? 56)) "'0' <= cdigit && cdigit <= '8'";;;
        octal_loop fuel' rd str (u8 (i + 1)) (u64 (u64 (res * 8) + (cdigit - 48)))
      else ret res
  end.

Definition octal_string_to_u64 (rd : Z -> M S Z) (str : Z) : M S Z :=
  octal_loop 512 rd str 0 0.

End Parse.

(** The disks, the private data of the opened files, and the heap. *)
Record ust (D A : Type) := mk_ust {
  u_disks : gmap Z D;
  u_priv : gmap Z ustar_file_private_data;
  u_heap : A }.
Arguments mk_ust {D A}.
Arguments u_disks {D A}.
Arguments u_priv {D A}.
Arguments u_heap {D A}.

Section Ustar.
Context {D A : Type} `{DiskOps D} `{Heap A}.

Abbreviation st := (ust D A).

Definition with_disk {B} (disk : Z) (m : M (D * A) B) : M st B :=
  fun s => match u_disks s !! disk with
           | None => Halt (Trap "disk")
           | Some d =>
               match m (d, u_heap s) with
               | Ok (b, (d', a')) => Ok (b, mk_ust (<[disk := d']> (u_disks s)) (u_priv s) a')
               | Halt h => Halt h
               end
           end.

Definition in_heap {B} : M A B -> M st B :=
  zoom u_heap (fun a s => mk_ust (u_disks s) (u_priv s) a).

Definition read_header (disk offset : Z) (hdr : ustar_header) : M st (bool * ustar_header) :=
  ASSERT (offset mod USTAR_SEC_SIZE =? 0) "offset % USTAR_SEC_SIZE == 0";;;
  do ' (n, hdr') <- with_disk disk (disk_read offset hdr 512);
  ret (n =? USTAR_SEC_SIZE, hdr').

(** The bytes of [fullname]: prefix, '/' and file name in zeroed memory. *)
Definition build_fullname (hdr : ustar_header) (prefix_len filename_len size : Z) : M st (list Z) :=
  let fullname := replicate (Z.to_nat size) 0 in
  do ' (fullname, prefix_len) <-
    (if negb (prefix_len =? 0) then
       do prefix <- must (get_bytes hdr HDR_filename_prefix prefix_len) "prefix";
       do fullname <- must (put_bytes fullname 0 prefix) "fullname";
       do fullname <- must (put_bytes fullname prefix_len [47]) "fullname";
       ret (fullname, u32 (prefix_len + 1))
     else ret (fullname, prefix_len));
  do filename <- must (get_bytes hdr HDR_filename filename_len) "filename";
  must (put_bytes fullname prefix_len filename) "fullname".

(** Where the header after this one is. *)
Definition next_header (hdr : ustar_header) (offset : Z) : M st Z :=
  let offset := u32 (offset + 512) in
  do file <- is_file hdr;
  if (file : bool) then
    do size <- octal_string_to_u64 (rd_buf hdr) HDR_filesize;
    ret (u32 (offset + u32 (ceil_x_over_y_u32 (u32 size) 512 * 512)))
  else ret offset.

(** The test whether this is the header of [filepath]. *)
Definition is_header_of (hdr : ustar_header) (filepath : list Z) : M st bool :=
  do prefix_len <- strlen 513 (rd_buf hdr) HDR_filename_prefix;
  do filename_len <- strlen 513 (rd_buf hdr) HDR_filename;
  let full_filename_len := u32 (prefix_len + filename_len) in
  do fullname <- in_heap (hp_kmalloc (u32 (full_filename_len + 2)));
  if fullname =? NULL then panic "Cannot allocate memory to find file" else
  do bytes <- build_fullname hdr prefix_len filename_len (u32 (full_filename_len + 2));
  do found <- streq (1024 + length filepath) (rd_buf bytes) 0 (rd_buf (filepath ++ [0])) 0;
  in_heap (hp_kfree fullname);;;
  ret found.

Fixpoint find_file_loop (fuel : nat) (disk : Z) (filepath : list Z) (offset : Z) (hdr : ustar_header) :
    M st (option Z) :=
  match fuel with
  | O => halt_with (Hang "find_file")
  | Datatypes.S fuel' =>
      do ' (ok, hdr) <- read_header disk offset hdr;
      if negb ok then ret None else
      do found <- is_header_of hdr filepath;
      if (found : bool) then ret (Some offset) else
      do offset' <- next_header hdr offset;
      find_file_loop fuel' disk filepath offset' hdr
  end.

(** The offset of the header of the file, [None] when it is not found. *)
Definition find_file (fuel : nat) (disk : Z) (filepath : list Z) : M st (option Z) :=
  do hdr <- in_heap (hp_kmalloc 512);
  if hdr =? NULL then panic "Cannot allocate memory to find file" else
  do found <- find_file_loop fuel disk filepath 0 (replicate 512 0);
  in_heap (hp_kfree hdr);;;
  ret found.

Definition ustar_do_file_update (disk private offset : Z) (buf : list Z) (len : Z) (is_read : bool) :
    M st (Z * list Z) :=
  do data <- (fun s => must (u_priv s !! private) "file->fs_private" s);
  do file_len <- octal_string_to_u64 (rd_buf (private_header data)) HDR_filesize;
  if file_len <=? offset then ret (0, buf) else
  let data_off := u64 (header_offset data + 512) in
  let update_off := u64 (data_off + offset) in
  let update_len := min_u32 (u32 (file_len - offset)) len in
  if is_read then with_disk disk (disk_read update_off buf update_len)
  else do n <- with_disk disk (disk_write update_off buf update_len); ret (n, buf).

Definition ustar_read (disk private offset : Z) (buf : list Z) (len : Z) : M st (Z * list Z) :=
  ustar_do_file_update disk private offset buf len true.

Definition ustar_write (disk private offset : Z) (buf : list Z) (len : Z) : M st Z :=
  do r <- ustar_do_file_update disk private offset buf len false; ret r.1.

Definition ustar_file_ops : file_ops st := mk_file_ops ustar_read ustar_write.

Definition ustar_detect_fs (disk : Z) : M st bool :=
  do ' (ok, header) <- read_header disk 0 (replicate 512 0);
  if negb ok then ret false else
  let expected := [117; 115; 116; 97; 114; 0] in
  do n <- strlen 7 (rd_buf expected) 0;
  strneq (rd_buf header) HDR_indicator (rd_buf expected) 0 n.

Definition ustar_create_file (disk : Z) (path : list Z) : M st fs_op_res := ret FS_NOT_IMPL.

Definition ustar_delete_file (disk : Z) (path : list Z) : M st unit := ret tt.

Definition ustar_open_file (fuel : nat) (disk rel_path : Z) (path : list Z) :
    M st (fs_op_res * option (file_ops st * Z)) :=
  do found <- find_file fuel disk path;
  match found with
  | None => ret (FS_NOT_FOUND, None)
  | Some file_offset =>
      ASSERT (negb (rel_path =? NULL)) "file->fs_relative_path";;;
      ASSERT (negb (disk =? NULL)) "file->disk";;;
      do data <- in_heap (hp_kmalloc 520);
      if data =? NULL then panic "Cannot allocate memory to open file" else
      do ' (success, header) <- read_header disk file_offset (replicate 512 0);
      modify (fun s => mk_ust (u_disks s) (<[data := mk_private file_offset header]> (u_priv s)) (u_heap s));;;
      ASSERT success "success";;;
      ret (FS_SUCCESS, Some (ustar_file_ops, data))
  end.

Definition ustar_close_file (private : Z) : M st unit :=
  in_heap (hp_kfree private);;;
  modify (fun s => mk_ust (u_disks s) (delete private (u_priv s)) (u_heap s)).

Definition ustar_fs_ops (fuel : nat) : fs_ops st :=
  mk_fs_ops ustar_detect_fs ustar_create_file (ustar_open_file fuel) ustar_close_file ustar_delete_file.

End Ustar.

(** ** Archives

    [str_at l a s]: the NUL-terminated string at offset [a] of [l] is [s]. *)

Definition str_at (l : list Z) (a : Z) (s : list Z) : Prop :=
  0 <= a /\ (0 ∉ s) /\ slice l a (a + Z.of_nat (length s) + 1) = s ++ [0].

Definition octal_value (s : list Z) : Z := fold_left (fun r c => r * 8 + (c - 48)) s 0.

(** One member: its header with the strings in it, its data, and what fills
    the last sector.  The blocks of zeros at the end of an archive are members
    with an empty name. *)
Record entry := mk_entry {
  e_hdr : list Z;
  e_prefix : list Z;
  e_name : list Z;
  e_size : list Z;
  e_data : list Z;
  e_pad : list Z }.

Definition regular (t : Z) : bool := (t =? 48) || (t =? 0).

Definition e_type (e : entry) : Z := nth 156 (e_hdr e) 0.

Record names_ok (e : entry) : Prop := {
  eo_len : length (e_hdr e) = 512%nat;
  eo_prefix : str_at (e_hdr e) HDR_filename_prefix (e_prefix e);
  eo_name : str_at (e_hdr e) HDR_filename (e_name e) }.

Record entry_ok (e : entry) : Prop := {
  eo_names :> names_ok e;
  eo_size : regular (e_type e) = true ->
    str_at (e_hdr e) HDR_filesize (e_size e) /\ (length (e_size e) < 256)%nat /\
    Forall (fun c => 48 <= c <= 55) (e_size e) /\ octal_value (e_size e) = Z.of_nat (length (e_data e));
  eo_dir : regular (e_type e) = false -> e_data e = [];
  eo_pad : (length (e_pad e) < 512)%nat;
  eo_sectors : Z.of_nat (length (e_data e) + length (e_pad e)) mod 512 = 0 }.

Definition e_bytes (e : entry) : list Z := e_hdr e ++ e_data e ++ e_pad e.

Definition archive (es : list entry) : list Z := concat (map e_bytes es).

Definition e_fullname (e : entry) : list Z :=
  match e_prefix e with
  | [] => e_name e
  | p => p ++ [47] ++ e_name e
  end.

(** The first member with this name and the offset of its header. *)
Fixpoint find_entry (es : list entry) (path : list Z) (off : Z) : option (Z * entry) :=
  match es with
  | [] => None
  | e :: es' =>
      if decide (e_fullname e = path) then Some (off, e)
      else find_entry es' path (off + Z.of_nat (length (e_bytes e)))
  end.

(** ** Strings in a header *)

Lemma str_at_bound l a s : str_at l a s -> a + Z.of_nat (length s) < Z.of_nat (length l).
Proof.
  intros (Ha & _ & E). assert (Hl : length (slice l a (a + Z.of_nat (length s) + 1)) = S (length s)).
  { rewrite E, length_app. simpl. lia. }
  unfold slice in Hl. rewrite length_take, length_drop in Hl. lia.
Qed.

Lemma str_at_lookup l a s i :
  str_at l a s -> (i <= length s)%nat -> l !! (Z.to_nat a + i)%nat = (s ++ [0]) !! i.
Proof. intros (Ha & _ & E) Hi. rewrite <- E, lookup_slice by lia. by rewrite decide_True by lia. Qed.

Lemma str_at_cstring {S} (st : S) l a s :
  str_at l a s -> Z.of_nat (length l) < 2 ^ 32 -> cstring (rd_buf l) st a s.
Proof.
  intros Hs Hl. pose proof (str_at_bound _ _ _ Hs) as Hb. pose proof Hs as (Ha & H0 & _).
  unfold cstring, rd_buf. split_and!; [| |done|lia].
  - intros i c Hi. pose proof (lookup_lt_Some _ _ _ Hi). rewrite u32_id by lia.
    replace (Z.to_nat (a + Z.of_nat i)) with (Z.to_nat a + i)%nat by lia.
    rewrite (str_at_lookup _ _ _ _ Hs) by lia. by rewrite (lookup_app_l_Some _ _ _ _ Hi).
  - rewrite u32_id by lia. replace (Z.to_nat (a + Z.of_nat (length s))) with (Z.to_nat a + length s)%nat by lia.
    rewrite (str_at_lookup _ _ _ _ Hs) by lia. by rewrite list_lookup_middle.
Qed.

Lemma str_at_bytes l a s : str_at l a s -> get_bytes l a (Z.of_nat (length s)) = Some s.
Proof.
  intros Hs. pose proof (str_at_bound _ _ _ Hs). pose proof Hs as (Ha & _ & _).
  rewrite get_bytes_slice by lia. f_equal. apply list_eq. intros i. rewrite lookup_slice by lia.
  case_decide.
  - rewrite (str_at_lookup _ _ _ _ Hs) by lia. by rewrite lookup_app_l by lia.
  - by rewrite lookup_ge_None_2 by lia.
Qed.

(** ** Octal numbers *)

Lemma octal_value_app s c : octal_value (s ++ [c]) = octal_value s * 8 + (c - 48).
Proof. unfold octal_value. by rewrite fold_left_app. Qed.

Lemma octal_value_nonneg s : Forall (fun c => 48 <= c <= 55) s -> 0 <= octal_value s.
Proof.
  induction s as [|c s IH] using rev_ind; [done|]. intros [Hs [Hc _]%Forall_cons]%Forall_app.
  rewrite octal_value_app. specialize (IH Hs). cbn beta in Hc. lia.
Qed.

Lemma octal_value_take s i : Forall (fun c => 48 <= c <= 55) s -> octal_value (take i s) <= octal_value s.
Proof.
  intros Hs. rewrite <- (take_drop i s) at 2. rewrite <- (take_drop i s) in Hs.
  apply Forall_app in Hs as [H1 H2]. apply octal_value_nonneg in H1. revert H1 H2.
  generalize (take i s) (drop i s). clear. intros a b Ha.
  induction b as [|c b IH] using rev_ind; [rewrite app_nil_r; lia|]. intros [Hb [Hc _]%Forall_cons]%Forall_app.
  rewrite app_assoc, octal_value_app. specialize (IH Hb). cbn beta in Hc. lia.
Qed.

Lemma octal_loop_run {S} (st : S) l a s fuel i :
  str_at l a s -> (length l <= 512)%nat -> (length s < 256)%nat ->
  Forall (fun c => 48 <= c <= 55) s -> octal_value s < 2 ^ 64 ->
  (i <= length s)%nat -> (length s - i < fuel)%nat ->
  octal_loop fuel (rd_buf l) a (Z.of_nat i) (octal_value (take i s)) st = Ok (octal_value s, st).
Proof.
  intros Hs Hl Hls Hd Hv. pose proof (str_at_bound _ _ _ Hs) as Hb.
  assert (Hc : cstring (rd_buf l) st a s) by (apply str_at_cstring; [done|lia]). revert i.
  induction fuel as [|fuel IH]; intros i Hi Hf; [lia|]. cbn [octal_loop].
  erewrite bind_ok by (apply strlen_run; [exact Hc|lia]).
  destruct (Z.ltb_spec (Z.of_nat i) (Z.of_nat (length s))) as [Hlt|Hge].
  2: { by rewrite take_ge by lia. }
  destruct (lookup_lt_is_Some_2 s i) as [c Ec]; [lia|].
  erewrite bind_ok by (apply (cstring_char _ _ _ _ _ _ Hc Ec)).
  pose proof (Forall_lookup_1 _ _ _ _ Hd Ec) as Hcd. cbn beta in Hcd.
  assert ((48 <=? c) && (c <=? 56) = true) as -> by (apply andb_true_iff; lia). erewrite bind_ok by reflexivity.
  pose proof (octal_value_take s (Datatypes.S i) Hd) as Hle. rewrite (take_S_r _ _ _ Ec) in Hle.
  rewrite octal_value_app in Hle. pose proof (octal_value_nonneg _ (Forall_take _ i s Hd)) as H0.
  rewrite (u64_id (octal_value (take i s) * 8)), u64_id, u8_id by lia.
  replace (Z.of_nat i + 1) with (Z.of_nat (Datatypes.S i)) by lia.
  rewrite <- octal_value_app, <- (take_S_r _ _ _ Ec). apply IH; lia.
Qed.

Lemma octal_string_run {S} (st : S) l a s :
  str_at l a s -> (length l <= 512)%nat -> (length s < 256)%nat ->
  Forall (fun c => 48 <= c <= 55) s -> octal_value s < 2 ^ 64 ->
  octal_string_to_u64 (rd_buf l) a st = Ok (octal_value s, st).
Proof. intros. apply (octal_loop_run st l a s 512 0); try done; lia. Qed.

(** ** The search *)

Lemma put_bytes_append a b x :
  (length x <= length b)%nat -> put_bytes (a ++ b) (Z.of_nat (length a)) x = Some (a ++ x ++ drop (length x) b).
Proof.
  intros Hx. rewrite put_bytes_some by (rewrite ?length_app; lia). rewrite Nat2Z.id, take_app_length. do 3 f_equal.
  rewrite drop_app_ge by lia. f_equal. lia.
Qed.

Lemma replicate_zeros (n k m : nat) : (n - k = m)%nat -> drop k (replicate n 0) = replicate m 0.
Proof. intros <-. apply drop_replicate. Qed.

Section UstarSpec.
Context {D A : Type} `{HD : DiskLaws D} `{HA : HeapLaws A}.

Abbreviation st := (ust D A).

(** The ways to halt: a failed [kmalloc]. *)
Definition out_of_memory (h : halt) : Prop :=
  no_memory h \/ h = Panic "Cannot allocate memory to find file" \/
  h = Panic "Cannot allocate memory to open file".

(** From [s] to [s'] the disk [d] was read. *)
Definition reads (disk : Z) (d : D) (s s' : st) : Prop :=
  u_priv s' = u_priv s /\ exists d', u_disks s' = <[disk := d']> (u_disks s) /\ same_disk d d'.

Lemma reads_refl disk d s : u_disks s !! disk = Some d -> dk_ok d -> reads disk d s s.
Proof. intros Hd Hok. split; [done|]. exists d. by rewrite insert_id by done. Qed.

Lemma reads_disk disk d s s' : reads disk d s s' -> exists d', u_disks s' !! disk = Some d' /\ same_disk d d'.
Proof. intros (_ & d' & -> & ?). exists d'. by rewrite lookup_insert_eq. Qed.

Lemma reads_trans disk d d' s1 s2 s3 :
  reads disk d s1 s2 -> u_disks s2 !! disk = Some d' -> reads disk d' s2 s3 -> reads disk d s1 s3.
Proof.
  intros (E1 & d1 & F1 & G1) Hd' (E2 & d2 & F2 & G2). split; [congruence|]. exists d2.
  rewrite F1, lookup_insert_eq in Hd'. injection Hd' as ->. rewrite F2, F1, insert_insert_eq. split; [done|].
  by eapply same_disk_trans.
Qed.

Lemma with_disk_read (s : st) disk d L offset buf len :
  u_disks s !! disk = Some d -> dk_ok d -> hp_live (u_heap s) L ->
  0 <= offset -> 0 <= len < 2 ^ 32 -> offset + len < 2 ^ 63 -> len <= Z.of_nat (length buf) ->
  wpx out_of_memory (with_disk disk (disk_read offset buf len)) (fun r s' =>
    let n := available d offset len in
    r = (n, slice (dk_data d) offset (offset + n) ++ drop (Z.to_nat n) buf) /\
    reads disk d s s' /\ hp_live (u_heap s') L) s.
Proof.
  intros Hd Hok HL Ho Hl He Hb. pose proof (disk_read_wp (d, u_heap s) L offset buf len Hok HL Ho Hl He Hb) as Hw.
  unfold wpx, with_disk in *. rewrite Hd. destruct (disk_read offset buf len (d, u_heap s)) as [[r [d' a']]|h].
  - destruct Hw as (-> & Hs & HL'). split_and!; [done| |done]. split; [done|]. by exists d'.
  - by left.
Qed.

Lemma read_header_wp (s : st) disk d L pre hdr post buf :
  u_disks s !! disk = Some d -> dk_ok d -> hp_live (u_heap s) L -> length buf = 512%nat ->
  dk_data d = pre ++ hdr ++ post -> length hdr = 512%nat -> Z.of_nat (length pre) mod 512 = 0 ->
  wpx out_of_memory (read_header disk (Z.of_nat (length pre)) buf) (fun r s' =>
    r = (true, hdr) /\ reads disk d s s' /\ hp_live (u_heap s') L) s.
Proof.
  intros Hd Hok HL Hb Hdat Hh Hm. unfold read_header, USTAR_SEC_SIZE. rewrite Hm. apply wpx_bind, wpx_ret.
  destruct (dk_size_ok d Hok) as (_ & _ & Hsz). rewrite Hdat, !length_app, Hh in Hsz.
  apply wpx_bind. eapply wpx_mono; [apply (with_disk_read s disk d L _ buf 512 Hd Hok HL); lia|].
  intros r s' (-> & Hr & HL'). unfold available. rewrite Hdat, !length_app, Hh.
  replace (Z.max 0 _) with 512 by lia. apply wpx_ret. split; [|done]. f_equal.
  rewrite drop_ge, app_nil_r by lia. unfold slice. replace (_ + 512 - _) with 512 by lia.
  rewrite Nat2Z.id, drop_app_length, take_app_le by lia. apply take_ge. lia.
Qed.

Lemma read_header_end (s : st) disk d L buf :
  u_disks s !! disk = Some d -> dk_ok d -> hp_live (u_heap s) L -> length buf = 512%nat ->
  Z.of_nat (length (dk_data d)) mod 512 = 0 ->
  wpx out_of_memory (read_header disk (Z.of_nat (length (dk_data d))) buf) (fun r s' =>
    r.1 = false /\ reads disk d s s' /\ hp_live (u_heap s') L) s.
Proof.
  intros Hd Hok HL Hb Hm. unfold read_header, USTAR_SEC_SIZE. rewrite Hm. apply wpx_bind, wpx_ret.
  destruct (dk_size_ok d Hok) as (_ & _ & Hsz).
  apply wpx_bind. eapply wpx_mono; [apply (with_disk_read s disk d L _ buf 512 Hd Hok HL); lia|].
  intros r s' (-> & Hr & HL'). unfold available. replace (Z.max 0 _) with 0 by lia. by apply wpx_ret.
Qed.

Lemma build_fullname_run (s : st) e :
  names_ok e -> exists rest,
  build_fullname (e_hdr e) (Z.of_nat (length (e_prefix e))) (Z.of_nat (length (e_name e)))
    (Z.of_nat (length (e_prefix e)) + Z.of_nat (length (e_name e)) + 2) s = Ok (e_fullname e ++ 0 :: rest, s).
Proof.
  intros He. pose proof (eo_len _ He) as Hl. pose proof (str_at_bytes _ _ _ (eo_prefix _ He)) as Hp.
  pose proof (str_at_bytes _ _ _ (eo_name _ He)) as Hn. pose proof (str_at_bound _ _ _ (eo_prefix _ He)) as Hpb.
  pose proof (str_at_bound _ _ _ (eo_name _ He)) as Hnb. rewrite Hl in Hpb, Hnb. unfold HDR_filename_prefix, HDR_filename in *.
  unfold build_fullname, e_fullname, HDR_filename_prefix, HDR_filename. rewrite Hn.
  set (lp := length (e_prefix e)) in *. set (ln := length (e_name e)) in *.
  assert (Ez : Z.to_nat (Z.of_nat lp + Z.of_nat ln + 2) = (lp + ln + 2)%nat) by lia. rewrite Ez.
  destruct (e_prefix e) as [|c p] eqn:Ep; simpl in lp.
  - exists [0]. subst lp. erewrite bind_ok by reflexivity. cbn beta iota. erewrite bind_ok by reflexivity.
    rewrite put_bytes_front by (rewrite length_replicate; lia). simpl. do 3 f_equal.
    by rewrite (replicate_zeros _ _ 2) by lia.
  - assert (Elp : lp = length (c :: p)) by done. assert (Eln : ln = length (e_name e)) by done. clearbody lp ln. pose proof Elp as Elp'. simpl in Elp'. exists []. rewrite Hp. assert ((Z.of_nat lp =? 0) = false) as -> by (rewrite Elp; simpl; lia). cbn [negb].
    erewrite bind_ok.
    2: { erewrite bind_ok by reflexivity.
         rewrite put_bytes_front by (rewrite length_replicate; simpl; lia).
         erewrite bind_ok by reflexivity. rewrite Elp.
         rewrite put_bytes_append by (rewrite length_drop, length_replicate; simpl; lia).
         by erewrite bind_ok by reflexivity. }
    cbn beta iota. erewrite bind_ok by reflexivity. rewrite u32_id by lia. rewrite app_assoc.
    replace (Z.of_nat (length (c :: p)) + 1) with (Z.of_nat (length ((c :: p) ++ [47]))) by (rewrite length_app; simpl; lia).
    rewrite put_bytes_append by (rewrite !length_drop, length_replicate; simpl; lia). 
    rewrite !drop_drop. rewrite (replicate_zeros _ _ 1) by (simpl in *; lia). simpl.
    unfold ret. by rewrite <- !app_assoc.
Qed.

Lemma e_fullname_ok e : names_ok e -> (0 ∉ e_fullname e) /\ (length (e_fullname e) < 1024)%nat.
Proof.
  intros He. pose proof (eo_prefix _ He) as Hp. pose proof (eo_name _ He) as Hn. pose proof (eo_len _ He) as Hl.
  pose proof (str_at_bound _ _ _ Hp) as Hpb. pose proof (str_at_bound _ _ _ Hn) as Hnb. rewrite Hl in Hpb, Hnb.
  unfold HDR_filename_prefix, HDR_filename in *. destruct Hp as (_ & Hp & _), Hn as (_ & Hn & _). unfold e_fullname.
  destruct (e_prefix e) as [|c p] eqn:Ep; [split; [done|lia]|]. split.
  - rewrite !not_elem_of_app. split_and!; [done|set_solver|done].
  - rewrite !length_app. simpl in *. lia.
Qed.

(** The test on one header. *)
Lemma is_header_of_wp (s : st) e L path :
  names_ok e -> 0 ∉ path -> Z.of_nat (length path) < 2 ^ 32 -> hp_live (u_heap s) L ->
  wpx out_of_memory (is_header_of (e_hdr e) path) (fun r s' =>
    r = bool_decide (e_fullname e = path) /\ u_disks s' = u_disks s /\ u_priv s' = u_priv s /\
    hp_live (u_heap s') L) s.
Proof.
  intros He Hp0 Hlp HL. pose proof (eo_len _ He) as Hl. pose proof (eo_prefix _ He) as Hp. pose proof (eo_name _ He) as Hn.
  pose proof (str_at_bound _ _ _ Hp) as Hpb. pose proof (str_at_bound _ _ _ Hn) as Hnb. rewrite Hl in Hpb, Hnb.
  unfold HDR_filename_prefix, HDR_filename in Hpb, Hnb. unfold is_header_of.
  eapply wpx_bind_ok; [apply strlen_run; [apply str_at_cstring; [done|lia]|lia]|].
  eapply wpx_bind_ok; [apply strlen_run; [apply str_at_cstring; [done|lia]|lia]|].
  rewrite (u32_id (_ + Z.of_nat (length (e_name e)))), u32_id by lia.
  apply wpx_bind, wpx_zoom, wpx_wp. eapply wp_mono; [apply (hp_kmalloc_law _ L); [done|unfold MAX_SMALL; lia]|].
  intros p a1 [[-> _]|(Hpn & Hpf & HL1)]; [by right; left|]. rewrite (proj2 (Z.eqb_neq _ _) Hpn).
  match goal with |- wpx _ _ _ ?s1 => destruct (build_fullname_run s1 e He) as [rest Hrun] end.
  eapply wpx_bind_ok; [exact Hrun|]. destruct (e_fullname_ok e He) as [Hf0 Hf1].
  eapply wpx_bind_ok; [apply streq_run; [apply cstring_buf; [done|lia]|by apply cstring_buf|lia|lia]|].
  apply wpx_bind, wpx_zoom, wpx_wp. eapply wp_mono; [by apply (free_curr L)|].
  intros [] a2 HL2. by apply wpx_ret.
Qed.

Lemma e_bytes_length e : entry_ok e -> (length (e_bytes e) = 512 + (length (e_data e) + length (e_pad e)))%nat.
Proof. intros He. unfold e_bytes. by rewrite !length_app, (eo_len _ He). Qed.

Lemma is_file_run (s : st) e : names_ok e -> is_file (e_hdr e) s = Ok (regular (e_type e), s).
Proof.
  intros He. unfold is_file, rd_buf, HDR_type. pose proof (eo_len _ He) as Hl.
  destruct (lookup_lt_is_Some_2 (e_hdr e) 156) as [t Et]; [lia|].
  change (Z.to_nat 156) with 156%nat. rewrite Et. unfold e_type. by rewrite (nth_lookup_Some _ _ _ _ Et).
Qed.

Lemma file_size_run {S} (s : S) e :
  entry_ok e -> regular (e_type e) = true -> Z.of_nat (length (e_data e)) < 2 ^ 32 ->
  octal_string_to_u64 (rd_buf (e_hdr e)) HDR_filesize s = Ok (Z.of_nat (length (e_data e)), s).
Proof.
  intros He Hr Hl. destruct (eo_size _ He Hr) as (Hs & Hlen & Hd & Hv). pose proof (eo_len _ He).
  rewrite (octal_string_run s _ _ (e_size e)); [by rewrite Hv|done|lia|done|done|lia].
Qed.

(** The data sectors of a member. *)
Lemma data_sectors e :
  entry_ok e -> Z.of_nat (length (e_data e)) + Z.of_nat (length (e_pad e)) < 2 ^ 32 ->
  u32 (ceil_x_over_y_u32 (Z.of_nat (length (e_data e))) 512 * 512) =
  Z.of_nat (length (e_data e)) + Z.of_nat (length (e_pad e)).
Proof.
  intros He Hl. pose proof (eo_pad _ He) as Hp. pose proof (eo_sectors _ He) as Hm.
  pose proof (ceil_x_over_y_bound (Z.of_nat (length (e_data e))) 512 ltac:(lia) ltac:(lia)) as Hc.
  set (k := ceil_x_over_y_u32 _ 512) in *. rewrite Nat2Z.inj_add in Hm.
  set (x := Z.of_nat (length (e_data e))) in *. set (y := Z.of_nat (length (e_pad e))) in *.
  assert (k * 512 = x + y) as -> by (Z.to_euclidean_division_equations; lia). apply u32_id. lia.
Qed.

Lemma next_header_run (s : st) e off :
  entry_ok e -> 0 <= off -> off + Z.of_nat (length (e_bytes e)) < 2 ^ 32 ->
  next_header (e_hdr e) off s = Ok (off + Z.of_nat (length (e_bytes e)), s).
Proof.
  intros He Ho Hl. pose proof (e_bytes_length e He) as Hb. pose proof (eo_pad _ He) as Hp. unfold next_header.
  erewrite bind_ok by (exact (is_file_run s e He)). rewrite (u32_id (off + 512)) by lia. destruct (regular (e_type e)) eqn:Er.
  - erewrite bind_ok by (apply file_size_run; [done|done|lia]). rewrite (u32_id (Z.of_nat _)) by lia.
    rewrite data_sectors by (done || lia). unfold ret. rewrite u32_id by lia. do 2 f_equal. lia.
  - pose proof (eo_sectors _ He) as Hm. rewrite (eo_dir _ He Er) in *. simpl in *. unfold ret. do 2 f_equal.
    rewrite Z.mod_small in Hm by lia. lia.
Qed.

Lemma find_file_loop_wp path L es : 0 ∉ path -> Z.of_nat (length path) < 2 ^ 32 -> Forall entry_ok es ->
  forall fuel (s : st) disk d pre hdr,
  (length es < fuel)%nat -> u_disks s !! disk = Some d -> dk_ok d -> hp_live (u_heap s) L ->
  dk_data d = pre ++ archive es -> length hdr = 512%nat -> Z.of_nat (length pre) mod 512 = 0 ->
  wpx out_of_memory (find_file_loop fuel disk path (Z.of_nat (length pre)) hdr) (fun r s' =>
    r = fst <$> find_entry es path (Z.of_nat (length pre)) /\ reads disk d s s' /\ hp_live (u_heap s') L) s.
Proof.
  intros Hp0 Hpl. induction es as [|e es IH]; intros Hes fuel s disk d pre hdr Hf Hd Hok HL Hdat Hh Hm;
    (destruct fuel as [|fuel]; [simpl in Hf; lia|]); cbn [find_file_loop].
  - unfold archive in Hdat. simpl in Hdat. rewrite app_nil_r in Hdat. subst pre. apply wpx_bind.
    eapply wpx_mono; [by apply (read_header_end s disk d L)|].
    intros [ok h] s' (Eok & Hr & HL'). simpl in Eok. subst ok. by apply wpx_ret.
  - apply Forall_cons in Hes as [He Hes]. change (archive (e :: es)) with (e_bytes e ++ archive es) in Hdat.
    pose proof (e_bytes_length e He) as Hb. pose proof (eo_len _ He) as Hl. pose proof (eo_sectors _ He) as Hsec.
    apply wpx_bind. eapply wpx_mono.
    { apply (read_header_wp s disk d L pre (e_hdr e) ((e_data e ++ e_pad e) ++ archive es)); try done.
      rewrite Hdat. unfold e_bytes. by rewrite <- app_assoc. }
    intros [ok h] s1 ([= -> ->] & Hr1 & HL1). cbn [negb]. apply wpx_bind.
    eapply wpx_mono; [by apply (is_header_of_wp s1 e L path He)|]. intros found s2 (-> & E1 & E2 & HL2).
    assert (Hr2 : reads disk d s s2). { destruct Hr1 as (F1 & d1 & F2 & F3). split; [congruence|]. exists d1. by rewrite E1. }
    cbn [find_entry]. destruct (decide (e_fullname e = path)) as [Heq|Hne].
    { rewrite bool_decide_true by done. by apply wpx_ret. }
    rewrite bool_decide_false by done. destruct (reads_disk _ _ _ _ Hr2) as (d2 & Hd2 & Hs2).
    pose proof Hs2 as (Hok2 & _ & Edat & _). destruct (dk_size_ok d Hok) as (_ & _ & Hsz).
    rewrite Hdat, !length_app in Hsz. eapply wpx_bind_ok; [apply next_header_run; [done|lia|lia]|].
    replace (Z.of_nat (length pre) + Z.of_nat (length (e_bytes e))) with (Z.of_nat (length (pre ++ e_bytes e)))
      by (rewrite length_app; lia).
    eapply wpx_mono; [apply (IH Hes fuel s2 disk d2 (pre ++ e_bytes e) (e_hdr e)); [simpl in Hf; lia|done|done|done| |done|]|].
    + rewrite Edat, Hdat. by rewrite app_assoc.
    + rewrite length_app, Hb, !Nat2Z.inj_add. rewrite Nat2Z.inj_add in Hsec. Z.to_euclidean_division_equations; lia.
    + intros r s' (-> & Hr3 & HL3). split_and!; [done| |done]. by eapply reads_trans.
Qed.

Lemma find_file_wp path L es fuel (s : st) disk d :
  0 ∉ path -> Z.of_nat (length path) < 2 ^ 32 -> Forall entry_ok es -> (length es < fuel)%nat ->
  u_disks s !! disk = Some d -> dk_ok d -> hp_live (u_heap s) L -> dk_data d = archive es ->
  wpx out_of_memory (find_file fuel disk path) (fun r s' =>
    r = fst <$> find_entry es path 0 /\ reads disk d s s' /\ hp_live (u_heap s') L) s.
Proof.
  intros Hp0 Hpl Hes Hf Hd Hok HL Hdat. unfold find_file. apply wpx_bind, wpx_zoom, wpx_wp.
  eapply wp_mono; [apply (hp_kmalloc_law _ L); [done|unfold MAX_SMALL; lia]|].
  intros p a1 [[-> _]|(Hpn & Hpf & HL1)]; [by right; left|]. rewrite (proj2 (Z.eqb_neq _ _) Hpn). apply wpx_bind.
  eapply wpx_mono; [by apply (find_file_loop_wp path ({[p]} ∪ L) es Hp0 Hpl Hes fuel _ disk d [])|].
  intros r s2 (-> & Hr & HL2). apply wpx_bind, wpx_zoom, wpx_wp. eapply wp_mono; [by apply (free_curr L)|].
  intros [] a2 HL3. by apply wpx_ret.
Qed.

(** ** Opening *)

Lemma archive_app es1 es2 : archive (es1 ++ es2) = archive es1 ++ archive es2.
Proof. unfold archive. by rewrite map_app, concat_app. Qed.

Lemma find_entry_split es path off o e :
  find_entry es path off = Some (o, e) ->
  exists es1 es2, es = es1 ++ e :: es2 /\ o = off + Z.of_nat (length (archive es1)) /\ e_fullname e = path /\
    Forall (fun e' => e_fullname e' <> path) es1.
Proof.
  revert off. induction es as [|e0 es IH]; intros off Hf; [done|]. cbn [find_entry] in Hf. case_decide as Hc.
  - injection Hf as <- <-. exists [], es. split_and!; [done|simpl; lia|done|constructor].
  - apply IH in Hf as (es1 & es2 & -> & -> & He & Hes). exists (e0 :: es1), es2. split_and!; [done| |done|by constructor].
    change (archive (e0 :: es1)) with (e_bytes e0 ++ archive es1). rewrite length_app. lia.
Qed.

Lemma archive_sectors es : Forall entry_ok es -> Z.of_nat (length (archive es)) mod 512 = 0.
Proof.
  induction 1 as [|e es He _ IH]; [done|]. change (archive (e :: es)) with (e_bytes e ++ archive es).
  rewrite length_app, (e_bytes_length e He), !Nat2Z.inj_add. pose proof (eo_sectors _ He) as Hm.
  rewrite Nat2Z.inj_add in Hm. Z.to_euclidean_division_equations; lia.
Qed.

Lemma ustar_open_file_wp path L es fuel (s : st) disk d rel_path :
  0 ∉ path -> Z.of_nat (length path) < 2 ^ 32 -> Forall entry_ok es -> (length es < fuel)%nat ->
  u_disks s !! disk = Some d -> dk_ok d -> hp_live (u_heap s) L -> dk_data d = archive es ->
  rel_path <> NULL -> disk <> NULL ->
  wpx out_of_memory (ustar_open_file fuel disk rel_path path) (fun r s' =>
    (exists d', u_disks s' = <[disk := d']> (u_disks s) /\ same_disk d d') /\
    match find_entry es path 0 with
    | Some (off, e) => exists p, r = (FS_SUCCESS, Some (ustar_file_ops, p)) /\ p <> NULL /\ (p ∉ L) /\
        hp_live (u_heap s') ({[p]} ∪ L) /\ u_priv s' = <[p := mk_private off (e_hdr e)]> (u_priv s)
    | None => r = (FS_NOT_FOUND, None) /\ hp_live (u_heap s') L /\ u_priv s' = u_priv s
    end) s.
Proof.
  intros Hp0 Hpl Hes Hf Hd Hok HL Hdat Hrel Hdn. unfold ustar_open_file. apply wpx_bind.
  eapply wpx_mono; [by apply (find_file_wp path L es fuel s disk d)|]. intros r s1 (-> & Hr1 & HL1).
  destruct (find_entry es path 0) as [[off e]|] eqn:Ef; simpl.
  2: { apply wpx_ret. destruct Hr1 as (? & d' & ? & ?). split; [by exists d'|done]. }
  rewrite (proj2 (Z.eqb_neq _ _) Hrel), (proj2 (Z.eqb_neq _ _) Hdn). apply wpx_bind, wpx_ret. apply wpx_bind, wpx_ret.
  apply wpx_bind, wpx_zoom, wpx_wp. eapply wp_mono; [apply (hp_kmalloc_law _ L); [done|unfold MAX_SMALL; lia]|].
  intros p a1 [[-> _]|(Hpn & Hpf & HL2)]; [by right; right|]. rewrite (proj2 (Z.eqb_neq _ _) Hpn). apply wpx_bind.
  destruct (find_entry_split _ _ _ _ _ Ef) as (es1 & es2 & -> & Eo & _ & _). simpl in Eo. subst off.
  destruct (reads_disk _ _ _ _ Hr1) as (d1 & Hd1 & Hs1). pose proof Hs1 as (Hok1 & _ & Edat & _).
  apply Forall_app in Hes as [Hes1 [He Hes2]%Forall_cons].
  eapply wpx_mono.
  { apply (read_header_wp _ disk d1 ({[p]} ∪ L) (archive es1) (e_hdr e) ((e_data e ++ e_pad e) ++ archive es2)); try done.
    - rewrite Edat, Hdat, archive_app. change (archive (e :: es2)) with (e_bytes e ++ archive es2).
      unfold e_bytes. by rewrite <- !app_assoc.
    - apply (eo_len _ He).
    - by apply archive_sectors. }
  intros [ok h] s2 ([= -> ->] & Hr2 & HL3). apply wpx_bind, wpx_wp, wp_modify, wpx_bind, wpx_ret, wpx_ret.
  destruct Hr1 as (E1 & d1' & F1 & G1), Hr2 as (E2 & d2 & F2 & G2). simpl in E2, F2. rewrite F1, lookup_insert_eq in Hd1.
  injection Hd1 as ->. split.
  - exists d2. simpl. rewrite F2, F1, insert_insert_eq. split; [done|]. by eapply same_disk_trans.
  - exists p. simpl. by rewrite E2, E1.
Qed.

Lemma ustar_close_file_wp (s : st) L p :
  hp_live (u_heap s) ({[p]} ∪ L) -> p ∉ L ->
  wp (ustar_close_file p) (fun _ s' => hp_live (u_heap s') L /\ u_disks s' = u_disks s /\
    u_priv s' = delete p (u_priv s)) s.
Proof.
  intros HL Hp. unfold ustar_close_file. apply wp_bind, wp_zoom. eapply wp_mono; [by apply (free_curr L)|].
  intros [] a HL'. by apply wp_modify.
Qed.

(** ** Reading and writing *)

Lemma slice_shift a b x y : 0 <= x ->
  slice (a ++ b) (Z.of_nat (length a) + x) (Z.of_nat (length a) + y) = slice b x y.
Proof.
  intros Hx. apply list_eq. intros i. rewrite !lookup_slice by lia.
  destruct (decide (Z.of_nat i < y - x)); [|by rewrite decide_False by lia]. rewrite decide_True by lia.
  rewrite lookup_app_r by lia. f_equal. lia.
Qed.

Lemma slice_front a b x y : 0 <= x -> y <= Z.of_nat (length a) -> slice (a ++ b) x y = slice a x y.
Proof.
  intros Hx Hy. apply list_eq. intros i. rewrite !lookup_slice by lia.
  case_decide; [|done]. by rewrite lookup_app_l by lia.
Qed.

(** The file after writing [bytes] at [offset]. *)
Definition overwrite (data : list Z) (offset : Z) (bytes : list Z) : list Z :=
  take (Z.to_nat offset) data ++ bytes ++ drop (Z.to_nat offset + length bytes) data.

Definition set_data (e : entry) (data : list Z) : entry :=
  mk_entry (e_hdr e) (e_prefix e) (e_name e) (e_size e) data (e_pad e).

Lemma length_overwrite data offset bytes :
  0 <= offset -> Z.of_nat (length bytes) <= Z.max 0 (Z.of_nat (length data) - offset) ->
  length (overwrite data offset bytes) = length data.
Proof. intros. unfold overwrite. rewrite !length_app, length_take, length_drop. lia. Qed.

Lemma set_data_ok e data : entry_ok e -> length data = length (e_data e) -> entry_ok (set_data e data).
Proof.
  intros He Hl. destruct He. split; simpl; try done; unfold e_type in *; simpl in *.
  - by destruct eo_names0.
  - intros Hr. rewrite Hl. auto.
  - intros Hr. apply nil_length_inv. rewrite Hl. by rewrite (eo_dir0 Hr).
  - by rewrite Hl.
Qed.

(** The bytes of one member of an archive. *)
Lemma archive_middle es1 e es2 :
  archive (es1 ++ e :: es2) = archive es1 ++ e_hdr e ++ e_data e ++ e_pad e ++ archive es2.
Proof.
  rewrite archive_app. change (archive (e :: es2)) with (e_bytes e ++ archive es2). unfold e_bytes.
  by rewrite <- !app_assoc.
Qed.

(** The common situation of the two operations: the private data is that of
    the member [e] of the archive on the disk. *)
Section Opened.
Context (s : st) (disk : Z) (d : D) (L : gset Z) (es1 es2 : list entry) (e : entry) (private : Z).
Hypothesis Hd : u_disks s !! disk = Some d.
Hypothesis Hok : dk_ok d.
Hypothesis HL : hp_live (u_heap s) L.
Hypothesis Hdat : dk_data d = archive (es1 ++ e :: es2).
Hypothesis He : entry_ok e.
Hypothesis Hreg : regular (e_type e) = true.
Hypothesis Hpriv : u_priv s !! private = Some (mk_private (Z.of_nat (length (archive es1))) (e_hdr e)).
Context (offset : Z) (buf : list Z) (len : Z).
Hypothesis Ho : 0 <= offset < 2 ^ 62.
Hypothesis Hlen : 0 <= len < 2 ^ 32.
Hypothesis Hbuf : len <= Z.of_nat (length buf).

(** The number of bytes there are. *)
Definition in_file : Z := Z.max 0 (Z.min len (Z.of_nat (length (e_data e)) - offset)).

Lemma archive_size : Z.of_nat (length (archive es1)) + 512 + Z.of_nat (length (e_data e)) +
  Z.of_nat (length (e_pad e)) + Z.of_nat (length (archive es2)) < 2 ^ 32.
Proof.
  destruct (dk_size_ok d Hok) as (_ & _ & Hsz). rewrite Hdat, archive_middle, !length_app, (eo_len _ He) in Hsz. lia.
Qed.

Lemma update_start is_read (Q : Z * list Z -> st -> Prop) :
  (Z.of_nat (length (e_data e)) <= offset -> Q (0, buf) s) ->
  (offset < Z.of_nat (length (e_data e)) ->
   let off := Z.of_nat (length (archive es1)) + 512 + offset in
   wpx out_of_memory (if is_read : bool then with_disk disk (disk_read off buf in_file)
     else do n <- with_disk disk (disk_write off buf in_file); ret (n, buf)) Q s) ->
  wpx out_of_memory (ustar_do_file_update disk private offset buf len is_read) Q s.
Proof.
  intros H1 H2. pose proof archive_size as Hsz. unfold ustar_do_file_update.
  eapply wpx_bind_ok; [by rewrite Hpriv|]. cbn [private_header header_offset].
  eapply wpx_bind_ok; [apply file_size_run; [done|done|lia]|].
  destruct (Z.leb_spec (Z.of_nat (length (e_data e))) offset) as [Hge|Hlt]; [by apply wpx_ret, H1|].
  specialize (H2 Hlt). cbn zeta in H2. rewrite (u64_id (_ + 512)), u64_id by lia.
  rewrite (u32_id (_ - offset)), min_u32_min by lia.
  replace (Z.min (Z.of_nat (length (e_data e)) - offset) len) with in_file by (unfold in_file; lia). done.
Qed.

Lemma ustar_read_wp :
  wpx out_of_memory (ustar_read disk private offset buf len) (fun r s' =>
    r = (in_file, slice (e_data e) offset (offset + in_file) ++ drop (Z.to_nat in_file) buf) /\
    reads disk d s s' /\ hp_live (u_heap s') L) s.
Proof.
  pose proof archive_size as Hsz. unfold ustar_read. apply update_start; cbn beta iota zeta.
  - intros Hge. split_and!; [|by apply reads_refl|done]. unfold in_file. rewrite Z.max_l by lia.
    by rewrite Z.add_0_r, slice_nil.
  - intros Hlt. eapply wpx_mono; [apply (with_disk_read s disk d L); (done || unfold in_file; lia)|].
    intros r s' (-> & Hr & HL'). split_and!; [|done|done].
    assert (Eav : available d (Z.of_nat (length (archive es1)) + 512 + offset) in_file = in_file).
    { unfold available. rewrite Hdat, archive_middle, !length_app, (eo_len _ He). unfold in_file. lia. }
    rewrite Eav. do 2 f_equal. rewrite Hdat, archive_middle.
    assert (Hh : 512 = Z.of_nat (length (e_hdr e))) by (rewrite (eo_len _ He); lia).
    rewrite <- !Z.add_assoc, (slice_shift (archive es1)), Hh, (slice_shift (e_hdr e)) by lia.
    apply slice_front; [lia|unfold in_file; lia].
Qed.

Lemma with_disk_write off n :
  0 <= off -> 0 <= n < 2 ^ 32 -> off + n < 2 ^ 63 -> n <= Z.of_nat (length buf) ->
  wpx out_of_memory (with_disk disk (disk_write off buf n)) (fun r s' =>
    exists d', u_disks s' = <[disk := d']> (u_disks s) /\ u_priv s' = u_priv s /\ hp_live (u_heap s') L /\
      dk_ok d' /\ dk_size d' = dk_size d /\ dk_writable d' = dk_writable d /\
      r = (if dk_writable d then available d off n else 0) /\ dk_data d' = updated d off buf (off + r)) s.
Proof.
  intros H1 H2 H3 H4. pose proof (disk_write_wp (d, u_heap s) L off buf n Hok HL H1 H2 H3 H4) as Hw.
  unfold wpx, with_disk in *. rewrite Hd. destruct (disk_write off buf n (d, u_heap s)) as [[r [d' a']]|h]; [|by left].
  destruct Hw as (? & ? & ? & ? & -> & ?). exists d'. done.
Qed.

(** Replacing bytes of the data of a member is replacing them in the archive. *)
Lemma updated_archive n :
  0 <= n -> offset + n <= Z.of_nat (length (e_data e)) -> n <= Z.of_nat (length buf) ->
  let off := Z.of_nat (length (archive es1)) + 512 + offset in
  updated d off buf (off + n) =
  archive (es1 ++ set_data e (overwrite (e_data e) offset (take (Z.to_nat n) buf)) :: es2).
Proof.
  intros H1 H2 H3 off. unfold updated. rewrite Hdat, !archive_middle. simpl.
  assert (Hl : length (archive es1 ++ e_hdr e) = Z.to_nat (Z.of_nat (length (archive es1)) + 512))
    by (rewrite length_app, (eo_len _ He); lia).
  rewrite !(app_assoc (archive es1) (e_hdr e)). replace (off + n - off) with n by lia.
  rewrite take_app_ge by (rewrite Hl; lia). rewrite drop_app_ge by (rewrite Hl; lia). rewrite Hl.
  replace (Z.to_nat off - _)%nat with (Z.to_nat offset) by lia.
  replace (Z.to_nat (off + n) - _)%nat with (Z.to_nat (offset + n)) by lia.
  unfold overwrite, slice. rewrite drop_0, Z.sub_0_r, !length_take.
  rewrite take_app_le, drop_app_le by lia. rewrite <- !app_assoc. do 4 f_equal. f_equal. f_equal. lia.
Qed.

Lemma ustar_write_wp :
  wpx out_of_memory (ustar_write disk private offset buf len) (fun n s' =>
    n = (if dk_writable d then in_file else 0) /\ u_priv s' = u_priv s /\ hp_live (u_heap s') L /\
    exists d', u_disks s' = <[disk := d']> (u_disks s) /\ dk_ok d' /\ dk_size d' = dk_size d /\
      dk_writable d' = dk_writable d /\
      dk_data d' = archive (es1 ++ set_data e (overwrite (e_data e) offset (take (Z.to_nat n) buf)) :: es2)) s.
Proof.
  pose proof archive_size as Hsz. unfold ustar_write. apply wpx_bind. apply update_start; cbn beta iota zeta.
  - intros Hge. apply wpx_ret. simpl. assert (in_file = 0) as -> by (unfold in_file; lia).
    split_and!; [by destruct (dk_writable d)|done|done|]. exists d. rewrite insert_id by done. split_and!; try done.
    unfold overwrite. simpl. rewrite Nat.add_0_r, take_drop, Hdat. by destruct e.
  - intros Hlt. apply wpx_bind. eapply wpx_mono; [apply with_disk_write; (done || unfold in_file; lia)|].
    intros n s' (d' & E1 & E2 & HL' & Hok' & Es & Ew & En & Ed). apply wpx_ret, wpx_ret. simpl.
    assert (Eav : available d (Z.of_nat (length (archive es1)) + 512 + offset) in_file = in_file).
    { unfold available. rewrite Hdat, archive_middle, !length_app, (eo_len _ He). unfold in_file. lia. }
    rewrite Eav in En. split_and!; [done|done|done|]. exists d'. split_and!; try done.
    rewrite Ed. apply updated_archive; rewrite En; destruct (dk_writable d); unfold in_file; lia.
Qed.

End Opened.

(** ** A search that never ends *)

Definition stuck (h : halt) : Prop := h = Hang "find_file" \/ out_of_memory h.

Lemma find_file_loop_stuck path L e rest v :
  0 ∉ path -> Z.of_nat (length path) < 2 ^ 32 -> names_ok e -> e_fullname e <> path ->
  regular (e_type e) = true -> str_at (e_hdr e) HDR_filesize (e_size e) -> (length (e_size e) < 256)%nat ->
  Forall (fun c => 48 <= c <= 55) (e_size e) -> octal_value (e_size e) = v ->
  2 ^ 32 - 1024 < v <= 2 ^ 32 - 512 ->
  forall fuel (s : st) disk d hdr, u_disks s !! disk = Some d -> dk_ok d -> hp_live (u_heap s) L ->
  dk_data d = e_hdr e ++ rest -> length hdr = 512%nat ->
  wpx stuck (find_file_loop fuel disk path 0 hdr) (fun _ _ => False) s.
Proof.
  intros Hp0 Hpl Hn Hne Hr Hs Hls Hdig Hv Hvr. pose proof (eo_len _ Hn) as Hl.
  induction fuel as [|fuel IH]; intros s disk d hdr Hd Hok HL Hdat Hh; [by left|]. cbn [find_file_loop].
  assert (Hx : forall A (m : M st A) Q s0, wpx out_of_memory m Q s0 -> wpx stuck m Q s0).
  { intros A0 m Q s0. unfold wpx. destruct (m s0) as [[]|]; [done|by right]. }
  apply wpx_bind. eapply wpx_mono; [by apply Hx, (read_header_wp s disk d L [] (e_hdr e) rest)|].
  intros [ok h] s1 ([= -> ->] & Hr1 & HL1). cbn [negb]. apply wpx_bind.
  eapply wpx_mono; [by apply Hx, (is_header_of_wp s1 e L path)|]. intros found s2 (-> & E1 & E2 & HL2).
  rewrite bool_decide_false by done.
  assert (Hnext : next_header (e_hdr e) 0 s2 = Ok (0, s2)).
  { unfold next_header. erewrite bind_ok by (by apply is_file_run). rewrite Hr.
    erewrite bind_ok by (apply (octal_string_run s2 _ _ (e_size e)); try done; lia). rewrite Hv.
    rewrite (u32_id v) by lia. pose proof (ceil_x_over_y_bound v 512 ltac:(lia) ltac:(lia)) as Hc. set (k := ceil_x_over_y_u32 v 512) in *.
    assert (k * 512 = 2 ^ 32 - 512) as -> by lia. done. }
  eapply wpx_bind_ok; [exact Hnext|]. destruct (reads_disk _ _ _ _ Hr1) as (d1 & Hd1 & Hok1 & _ & Edat & _).
  apply (IH s2 disk d1); [by rewrite E1|done|done|by rewrite Edat|done].
Qed.

End UstarSpec.

(** ** Properties *)

Section UstarProperties.
Context {D A : Type} `{HD : DiskLaws D} `{HA : HeapLaws A}.

(** on a disk that holds a USTAR archive, opening a path finds the first
    member with that name, prefix included, whatever the other members are,
    and keeps its header; it reports [FS_NOT_FOUND] exactly when there is no
    such member.  Only the private data stays allocated, the disk is not
    changed, and closing the file gives the memory back. *)
Theorem ustar_open_close_correct (s : ust D A) disk d es L path rel_path fuel :
  u_disks s !! disk = Some d -> dk_ok d -> dk_data d = archive es -> Forall entry_ok es ->
  hp_live (u_heap s) L -> dom (u_priv s) ⊆ L -> 0 ∉ path -> Z.of_nat (length path) < 2 ^ 32 ->
  rel_path <> NULL -> disk <> NULL -> (length es < fuel)%nat ->
  match ustar_open_file fuel disk rel_path path s with
  | Ok (r, s') =>
      (exists d', u_disks s' = <[disk := d']> (u_disks s) /\ same_disk d d') /\
      match find_entry es path 0 with
      | Some (off, e) => exists p, r = (FS_SUCCESS, Some (ustar_file_ops, p)) /\ (p ∉ L) /\
          hp_live (u_heap s') ({[p]} ∪ L) /\ u_priv s' = <[p := mk_private off (e_hdr e)]> (u_priv s) /\
          exists s'', ustar_close_file p s' = Ok (tt, s'') /\ hp_live (u_heap s'') L /\
            u_priv s'' = u_priv s /\ u_disks s'' = u_disks s'
      | None => r = (FS_NOT_FOUND, None) /\ hp_live (u_heap s') L /\ u_priv s' = u_priv s
      end
  | Halt h => out_of_memory h
  end.
Proof.
  intros Hd Hok Hdat Hes HL Hdom Hp0 Hpl Hrel Hdn Hf.
  pose proof (ustar_open_file_wp path L es fuel s disk d rel_path Hp0 Hpl Hes Hf Hd Hok HL Hdat Hrel Hdn) as Hw.
  unfold wpx in Hw. destruct (ustar_open_file fuel disk rel_path path s) as [[r s']|h]; [|done].
  destruct Hw as [Hdisk Hr]. split; [done|]. destruct (find_entry es path 0) as [[off e]|]; [|done].
  destruct Hr as (p & -> & Hpn & Hpf & HL' & Hpr). exists p. split_and!; try done.
  pose proof (ustar_close_file_wp s' L p HL' Hpf) as ([] & s'' & Hc & HL'' & E1 & E2)%wp_ok.
  exists s''. split_and!; try done. rewrite E2, Hpr, delete_insert_id; [done|]. apply not_elem_of_dom. set_solver.
Qed.

(** for a file opened on an archive, [ustar_read] gives exactly the bytes
    of the file from the offset on, up to its end, without changing the disk;
    [ustar_write] replaces exactly the bytes of the file it returns, none on
    a read-only disk, never beyond the end of the file, and what is on the
    disk afterwards is the archive with the new contents of that one file. *)
Theorem ustar_read_write_correct (s : ust D A) disk d es1 e es2 L private offset buf len :
  u_disks s !! disk = Some d -> dk_ok d -> dk_data d = archive (es1 ++ e :: es2) ->
  Forall entry_ok (es1 ++ e :: es2) -> regular (e_type e) = true ->
  u_priv s !! private = Some (mk_private (Z.of_nat (length (archive es1))) (e_hdr e)) ->
  hp_live (u_heap s) L -> 0 <= offset < 2 ^ 62 -> 0 <= len < 2 ^ 32 -> len <= Z.of_nat (length buf) ->
  let n := Z.max 0 (Z.min len (Z.of_nat (length (e_data e)) - offset)) in
  match ustar_read disk private offset buf len s with
  | Ok (r, s') =>
      r = (n, slice (e_data e) offset (offset + n) ++ drop (Z.to_nat n) buf) /\
      reads disk d s s' /\ hp_live (u_heap s') L
  | Halt h => out_of_memory h
  end /\
  match ustar_write disk private offset buf len s with
  | Ok (r, s') =>
      r = (if dk_writable d then n else 0) /\ u_priv s' = u_priv s /\ hp_live (u_heap s') L /\
      exists d' e', u_disks s' = <[disk := d']> (u_disks s) /\ dk_ok d' /\ dk_writable d' = dk_writable d /\
        e' = set_data e (overwrite (e_data e) offset (take (Z.to_nat r) buf)) /\
        Forall entry_ok (es1 ++ e' :: es2) /\ dk_data d' = archive (es1 ++ e' :: es2)
  | Halt h => out_of_memory h
  end.
Proof.
  intros Hd Hok Hdat Hes Hreg Hpriv HL Ho Hlen Hbuf n. pose proof Hes as [Hes1 [He Hes2]%Forall_cons]%Forall_app.
  pose proof (ustar_read_wp s disk d L es1 es2 e private Hd Hok HL Hdat He Hreg Hpriv offset buf len Ho Hlen Hbuf) as Hr.
  pose proof (ustar_write_wp s disk d L es1 es2 e private Hd Hok HL Hdat He Hreg Hpriv offset buf len Ho Hlen Hbuf) as Hw.
  unfold wpx in Hr, Hw. fold n in Hr, Hw. split.
  - by destruct (ustar_read _ _ _ _ _ s) as [[r s']|h].
  - destruct (ustar_write _ _ _ _ _ s) as [[r s']|h]; [|done].
    destruct Hw as (-> & Hp & HL' & d' & E1 & Hok' & _ & Ew & Ed). split_and!; try done.
    exists d'. eexists. split_and!; [done|done|done|reflexivity| |done].
    apply Forall_app. split; [done|]. constructor; [|done]. apply set_data_ok; [done|].
    apply length_overwrite; [lia|]. rewrite length_take. subst n. destruct (dk_writable d); unfold in_file; lia.
Qed.

(** the search for a file does not end on every disk: when the first
    header belongs to another file and records a size just below 4GiB, the
    32-bit offset wraps around to 0 and the search reads the same header
    again, for ever (it halts only if memory runs out). *)
Theorem ustar_find_file_diverges (s : ust D A) disk d e rest v L path fuel :
  u_disks s !! disk = Some d -> dk_ok d -> dk_data d = e_hdr e ++ rest -> names_ok e ->
  e_fullname e <> path -> regular (e_type e) = true -> str_at (e_hdr e) HDR_filesize (e_size e) ->
  (length (e_size e) < 256)%nat -> Forall (fun c => 48 <= c <= 55) (e_size e) -> octal_value (e_size e) = v ->
  2 ^ 32 - 1024 < v <= 2 ^ 32 - 512 ->
  hp_live (u_heap s) L -> 0 ∉ path -> Z.of_nat (length path) < 2 ^ 32 ->
  match find_file fuel disk path s with
  | Ok _ => False
  | Halt h => h = Hang "find_file" \/ out_of_memory h
  end.
Proof.
  intros Hd Hok Hdat Hn Hne Hr Hs Hls Hdig Hv Hvr HL Hp0 Hpl.
  cut (wpx stuck (find_file fuel disk path) (fun _ _ => False) s).
  { unfold wpx. by destruct (find_file fuel disk path s) as [[]|]. }
  unfold find_file. apply wpx_bind, wpx_zoom, wpx_wp.
  eapply wp_mono; [apply (hp_kmalloc_law _ L); [done|unfold MAX_SMALL; lia]|].
  intros p a1 [[-> _]|(Hpn & Hpf & HL1)]; [by right; right; left|]. rewrite (proj2 (Z.eqb_neq _ _) Hpn). apply wpx_bind.
  eapply wpx_mono; [by eapply (find_file_loop_stuck path ({[p]} ∪ L) e rest v)|]. done.
Qed.

End UstarProperties.

(** ** Witnesses *)

(** A header with the fields the kernel reads. *)
Definition make_header (name size : list Z) (type : Z) (prefix : list Z) : list Z :=
  let pad n l := l ++ replicate (n - length l) 0 in
  pad 100%nat name ++ replicate 24 48 ++ pad 12%nat size ++ replicate 20 48 ++ [type] ++ replicate 100 0 ++
  [117; 115; 116; 97; 114; 0] ++ replicate 82 48 ++ pad 167%nat prefix.

(** "d/b" with 5 bytes of data behind the empty file "a". *)
Definition file_a : entry := mk_entry (make_header [97] [48] 48 []) [] [97] [48] [] [].
Definition file_b : entry :=
  mk_entry (make_header [98] [48; 53] 48 [100]) [100] [98] [48; 53] [1; 2; 3; 4; 5] (replicate 507 0).
Definition small_archive : list entry := [file_a; file_b].
Definition archive_disk (ro : bool) : memdisk_data := mk_memdisk (archive small_archive) 1536 ro.
Definition ust0 (ro : bool) : ust memdisk_data counting := mk_ust {[1 := archive_disk ro]} ∅ counting0.

(** A file that claims to have 4GiB - 512 bytes. *)
Definition file_huge : entry :=
  mk_entry (make_header [97] [51; 55; 55; 55; 55; 55; 55; 55; 48; 48; 48] 48 []) [] [97]
    [51; 55; 55; 55; 55; 55; 55; 55; 48; 48; 48] [] [].

Ltac solve_str_at := split_and!; [vm_compute; discriminate|apply (bool_decide_unpack _); vm_compute; exact I|vm_compute; reflexivity].

Lemma file_a_ok : entry_ok file_a.
Proof.
  split; [split; [reflexivity|solve_str_at|solve_str_at]|intros _; split_and!; [solve_str_at|simpl; lia|repeat constructor; lia|reflexivity]
    |by intros|simpl; lia|reflexivity].
Qed.

Lemma file_b_ok : entry_ok file_b.
Proof.
  split; [split; [reflexivity|solve_str_at|solve_str_at]|intros _; split_and!; [solve_str_at|simpl; lia|repeat constructor; lia|reflexivity]
    |by intros|vm_compute; lia|reflexivity].
Qed.

Lemma archive_disk_ok ro : dk_ok (archive_disk ro).
Proof. split_and!; [reflexivity|reflexivity|simpl; lia]. Qed.

Lemma ustar_open_close_correct_witness :
  match ustar_open_file 3 1 0x1004 [100; 47; 98] (ust0 true) with
  | Ok ((res, _), s') => res = FS_SUCCESS /\ map_Forall (fun _ p => header_offset p = 512) (u_priv s')
  | Halt _ => False
  end.
Proof.
  assert (H := ustar_open_close_correct (ust0 true) 1 (archive_disk true) small_archive ∅ [100; 47; 98] 0x1004 3
    eq_refl (archive_disk_ok true) eq_refl
    (Forall_cons_2 _ _ _ file_a_ok (Forall_cons_2 _ _ _ file_b_ok (Forall_nil_2 _)))
    counting0_live ltac:(done) ltac:(set_solver) ltac:(simpl; lia) ltac:(discriminate) ltac:(discriminate) ltac:(simpl; lia)).
  assert (E : is_ok (ustar_open_file 3 1 0x1004 [100; 47; 98] (ust0 true)) = true) by (vm_compute; reflexivity).
  destruct (ustar_open_file _ _ _ _ _) as [[[res o] s']|h]; [|discriminate].
  destruct H as [_ H]. vm_compute (find_entry _ _ _) in H. destruct H as (p & [= -> _] & _ & _ & -> & _).
  split; [done|]. apply map_Forall_insert_2; [reflexivity|apply map_Forall_empty].
Defined.

(** Reading behind the start of the file, and writing over its end. *)
Lemma ustar_read_write_correct_witness :
  let s := mk_ust {[1 := archive_disk false]} {[9 := mk_private 512 (e_hdr file_b)]} counting0 in
  match ustar_read 1 9 2 (replicate 6 0) 6 s with
  | Ok (r, _) => r = (3, [3; 4; 5; 0; 0; 0])
  | Halt _ => False
  end /\
  match ustar_write 1 9 3 [7; 7; 7] 3 s with
  | Ok (r, _) => r = 2
  | Halt _ => False
  end.
Proof.
  intros s.
  assert (Hes : Forall entry_ok ([file_a] ++ file_b :: [])).
  { apply Forall_cons. split; [apply file_a_ok|]. apply Forall_cons. split; [apply file_b_ok|constructor]. }
  split.
  - destruct (ustar_read_write_correct s 1 (archive_disk false) [file_a] file_b [] ∅ 9 2 (replicate 6 0) 6
      eq_refl (archive_disk_ok false) eq_refl Hes eq_refl eq_refl counting0_live
      ltac:(lia) ltac:(lia) ltac:(simpl; lia)) as [H _].
    destruct (ustar_read _ _ _ _ _ _) as [[r s']|h] eqn:E; [|revert E; vm_compute; discriminate].
    destruct H as (-> & _). vm_compute. reflexivity.
  - destruct (ustar_read_write_correct s 1 (archive_disk false) [file_a] file_b [] ∅ 9 3 [7; 7; 7] 3
      eq_refl (archive_disk_ok false) eq_refl Hes eq_refl eq_refl counting0_live
      ltac:(lia) ltac:(lia) ltac:(simpl; lia)) as [_ H].
    destruct (ustar_write _ _ _ _ _ _) as [[r s']|h] eqn:E; [|revert E; vm_compute; discriminate].
    destruct H as (-> & _). vm_compute. reflexivity.
Defined.

Lemma ustar_find_file_diverges_witness :
  let s := mk_ust {[1 := mk_memdisk (e_hdr file_huge) 512 true]} ∅ counting0 in
  match find_file 20 1 [98] s with
  | Ok _ => False
  | Halt h => h = Hang "find_file" \/ out_of_memory h
  end.
Proof.
  intros s. apply (ustar_find_file_diverges s 1 (mk_memdisk (e_hdr file_huge) 512 true) file_huge [] 4294966784 ∅ [98] 20).
  - reflexivity.
  - split_and!; [reflexivity|reflexivity|simpl; lia].
  - reflexivity.
  - split; [reflexivity|solve_str_at|solve_str_at].
  - discriminate.
  - reflexivity.
  - solve_str_at.
  - simpl; lia.
  - repeat constructor; lia.
  - reflexivity.
  - lia.
  - apply counting0_live.
  - set_solver.
  - simpl; lia.
Defined.
