(* ===== verification/Vfs.v ===== *)
(** * The virtual file system: [src/vfs.c]

    Over a state [F] of the disks, file systems and memory.  The two linked
    lists are lists of [DList]: the nodes of the mounts and the nodes of the
    files are in a store each, with their list heads; a node is at its offset
    in the object.  Paths are lists of characters; the copy of a path that
    [open_file] makes is in [v_strings], by address.  The kernel keeps the
    caller's pointer to a mount point: the model keeps its characters, that
    is, the caller does not change them while the disk is mounted. *)

From S2P Require Import Prelude Math DList Spinlock ErrorCodes Kmalloc KHeap CMem RwLock Fs.

(** [struct mount] without its list node; the file system is given by its
    index in [SUPPORTED_FS]. *)
Record mount := mk_mount {
  mount_point : list Z;
  mount_disk : Z;
  mount_fs : nat }.

(** [offsetof(struct mount, mount_point_list)], [sizeof(struct mount)],
    [offsetof(struct file, opened_files_ll)] and [sizeof(struct file)]. *)
Definition MOUNT_NODE : Z := 12.
Definition SIZEOF_MOUNT : Z := 20.
Definition FILE_NODE : Z := 32.
Definition SIZEOF_FILE : Z := 44.

Record vfs (F : Type) := mk_vfs {
  v_mount_links : store;
  v_file_links : store;
  v_mounts : gmap Z mount;
  v_files : gmap Z (file F);
  v_strings : gmap Z (list Z);
  MOUNTS_LOCK : spinlock_t;
  OPENED_FILES_LOCK : spinlock_t;
  v_if : bool;
  v_errors : list err_call;
  v_fs : F }.
Arguments mk_vfs {F}.
Arguments v_mount_links {F}.
Arguments v_file_links {F}.
Arguments v_mounts {F}.
Arguments v_files {F}.
Arguments v_strings {F}.
Arguments MOUNTS_LOCK {F}.
Arguments OPENED_FILES_LOCK {F}.
Arguments v_if {F}.
Arguments v_errors {F}.
Arguments v_fs {F}.

Section Vfs.
Context {F : Type} `{Heap F}.
(** The cpu, the addresses of the list heads, and the table of file systems. *)
Context (cpu_id MOUNTS OPENED_FILES : Z) (SUPPORTED_FS : list (fs_ops F)).

Abbreviation st := (vfs F).

(** ** Parts of the state *)

Definition put_mount_links (x : store) (s : st) : st :=
  mk_vfs x (v_file_links s) (v_mounts s) (v_files s) (v_strings s) (MOUNTS_LOCK s) (OPENED_FILES_LOCK s)
    (v_if s) (v_errors s) (v_fs s).
Definition put_file_links (x : store) (s : st) : st :=
  mk_vfs (v_mount_links s) x (v_mounts s) (v_files s) (v_strings s) (MOUNTS_LOCK s) (OPENED_FILES_LOCK s)
    (v_if s) (v_errors s) (v_fs s).
Definition put_mounts (x : gmap Z mount) (s : st) : st :=
  mk_vfs (v_mount_links s) (v_file_links s) x (v_files s) (v_strings s) (MOUNTS_LOCK s) (OPENED_FILES_LOCK s)
    (v_if s) (v_errors s) (v_fs s).
Definition put_files (x : gmap Z (file F)) (s : st) : st :=
  mk_vfs (v_mount_links s) (v_file_links s) (v_mounts s) x (v_strings s) (MOUNTS_LOCK s) (OPENED_FILES_LOCK s)
    (v_if s) (v_errors s) (v_fs s).
Definition put_strings (x : gmap Z (list Z)) (s : st) : st :=
  mk_vfs (v_mount_links s) (v_file_links s) (v_mounts s) (v_files s) x (MOUNTS_LOCK s) (OPENED_FILES_LOCK s)
    (v_if s) (v_errors s) (v_fs s).
Definition put_locks (m o : spinlock_t) (i : bool) (s : st) : st :=
  mk_vfs (v_mount_links s) (v_file_links s) (v_mounts s) (v_files s) (v_strings s) m o i (v_errors s) (v_fs s).
Definition put_errors (x : list err_call) (s : st) : st :=
  mk_vfs (v_mount_links s) (v_file_links s) (v_mounts s) (v_files s) (v_strings s) (MOUNTS_LOCK s)
    (OPENED_FILES_LOCK s) (v_if s) x (v_fs s).
Definition put_fs (x : F) (s : st) : st :=
  mk_vfs (v_mount_links s) (v_file_links s) (v_mounts s) (v_files s) (v_strings s) (MOUNTS_LOCK s)
    (OPENED_FILES_LOCK s) (v_if s) (v_errors s) x.

Definition on_mount_links {B} : M store B -> M st B := zoom v_mount_links put_mount_links.
Definition on_file_links {B} : M store B -> M st B := zoom v_file_links put_file_links.
Definition on_fs {B} : M F B -> M st B := zoom v_fs put_fs.
Definition on_mounts_lock {B} : M lockst B -> M st B :=
  zoom (fun s => (MOUNTS_LOCK s, v_if s)) (fun p s => put_locks p.1 (OPENED_FILES_LOCK s) p.2 s).
Definition on_files_lock {B} : M lockst B -> M st B :=
  zoom (fun s => (OPENED_FILES_LOCK s, v_if s)) (fun p s => put_locks (MOUNTS_LOCK s) p.1 p.2 s).

(** Whether one of the two locks is held is logged with the error. *)
Definition SET_ERROR (msg : string) (code : Z) : M st unit :=
  modify (fun s => put_errors
    (v_errors s ++ [mk_err msg code ((lock (MOUNTS_LOCK s) =? 1) || (lock (OPENED_FILES_LOCK s) =? 1))]) s).

Definition get_mount (a : Z) : M st mount := fun s => must (v_mounts s !! a) "struct mount" s.
Definition get_file (a : Z) : M st (file F) := fun s => must (v_files s !! a) "struct file" s.
Definition get_string (a : Z) : M st (list Z) := fun s => must (v_strings s !! a) "string" s.

(** An operation on the lock of a file. *)
Definition on_file_rwlock (f : Z) (m : M rwst unit) : M st unit :=
  fun s => match v_files s !! f with
           | None => Halt (Trap "struct file")
           | Some x =>
               match m (file_lock x, v_if s) with
               | Ok (_, (l, i)) =>
                   Ok (tt, put_locks (MOUNTS_LOCK s) (OPENED_FILES_LOCK s) i
                     (put_files (<[f := mk_file (abs_path x) (fs_relative_path x) (file_disk x) l (ops x)
                                          (fs_private x) (open_ref_count x)]> (v_files s)) s))
               | Halt h => Halt h
               end
           end.

(** An operation on the reference count of a file. *)
Definition on_ref_count {B} (f : Z) (m : M atomic_t B) : M st B :=
  fun s => match v_files s !! f with
           | None => Halt (Trap "struct file")
           | Some x =>
               match m (open_ref_count x) with
               | Ok (b, c) =>
                   Ok (b, put_files (<[f := mk_file (abs_path x) (fs_relative_path x) (file_disk x) (file_lock x)
                                              (ops x) (fs_private x) c]> (v_files s)) s)
               | Halt h => Halt h
               end
           end.

(** [strlen] and [streq] on paths. *)
Definition str_len (p : list Z) : M st Z := strlen (S (length p)) (rd_buf (p ++ [0])) 0.
Definition str_eq (p q : list Z) : M st bool :=
  streq (S (length p + length q)) (rd_buf (p ++ [0])) 0 (rd_buf (q ++ [0])) 0.

(** [list_for_each_entry]: [body] gets the address of the entry. *)
Definition for_each_mount {B} (body : Z -> B -> M st (B + B)) (acc : B) : M st B :=
  do fuel <- gets (fun s => size (v_mount_links s));
  list_for_each fuel (fun a => on_mount_links (next_of a)) MOUNTS (fun node => body (node - MOUNT_NODE)) acc.
Definition for_each_file {B} (body : Z -> B -> M st (B + B)) (acc : B) : M st B :=
  do fuel <- gets (fun s => size (v_file_links s));
  list_for_each fuel (fun a => on_file_links (next_of a)) OPENED_FILES (fun node => body (node - FILE_NODE)) acc.

(** ** Mounting *)

Definition init_vfs : M st unit :=
  on_mount_links (list_init MOUNTS);;;
  on_file_links (list_init OPENED_FILES).

Fixpoint detect_from (i : nat) (fss : list (fs_ops F)) (disk : Z) : M st (option nat) :=
  match fss with
  | [] => ret None
  | fs :: fss' =>
      do detected <- on_fs (op_detect_fs fs disk);
      if (detected : bool) then ret (Some i) else detect_from (S i) fss' disk
  end.

Definition get_fs_for_disk (disk : Z) : M st (option nat) := detect_from 0 SUPPORTED_FS disk.

Definition mount_target_is_valid (pathname : list Z) : M st bool :=
  do len <- str_len pathname;
  if len =? 0 then ret false else
  do first <- rd_buf (pathname ++ [0]) 0;
  if negb (first =? 47) then ret false else
  do last <- rd_buf (pathname ++ [0]) (len - 1);
  ret (last =? 47).

Definition vfs_mount (disk : Z) (target : list Z) : M st bool :=
  do valid <- mount_target_is_valid target;
  ASSERT valid "mount_target_is_valid(target)";;;
  do mount <- on_fs (hp_kmalloc SIZEOF_MOUNT);
  if mount =? NULL then
    SET_ERROR "Cannot allocate memory to registers new mount" ENONE;;; ret false
  else
  do fs <- get_fs_for_disk disk;
  match fs with
  | None =>
      SET_ERROR "No filesystem implementation found" ENOFSIMPL;;;
      on_fs (hp_kfree mount);;;
      ret false
  | Some i =>
      modify (fun s => put_mounts (<[mount := mk_mount target disk i]> (v_mounts s)) s);;;
      on_mount_links (list_init (mount + MOUNT_NODE));;;
      on_mounts_lock (spinlock_lock cpu_id);;;
      do used <- for_each_mount (fun it _ =>
        do x <- get_mount it;
        do eq <- str_eq (mount_point x) target;
        ret (if (eq : bool) then inl true else inr false)) false;
      if (used : bool) then
        on_mounts_lock (spinlock_unlock cpu_id);;;
        SET_ERROR "Mount point already mounted" EMOUNTED;;;
        on_fs (hp_kfree mount);;;
        modify (fun s => put_mounts (delete mount (v_mounts s))
                           (put_mount_links (delete (mount + MOUNT_NODE) (v_mount_links s)) s));;;
        ret false
      else
        on_mount_links (list_add_tail MOUNTS (mount + MOUNT_NODE));;;
        on_mounts_lock (spinlock_unlock cpu_id);;;
        ret true
  end.

(** When the loop of [vfs_unmount] runs to its end, [mount] is the list head
    taken for the node of a mount. *)
Definition vfs_unmount (pathname : list Z) : M st bool :=
  on_mounts_lock (spinlock_lock cpu_id);;;
  do mount <- for_each_mount (fun it _ =>
    do x <- get_mount it;
    do eq <- str_eq (mount_point x) pathname;
    ret (if (eq : bool) then inl it else inr (MOUNTS - MOUNT_NODE))) (MOUNTS - MOUNT_NODE);
  do n <- on_mount_links (list_size MOUNTS);
  if (n =? 0) || (mount =? NULL) then
    on_mounts_lock (spinlock_unlock cpu_id);;;
    SET_ERROR "Tried to unmount non mount point" ENOTMOUNTPOINT;;;
    ret false
  else
    on_mount_links (list_del (mount + MOUNT_NODE));;;
    on_mounts_lock (spinlock_unlock cpu_id);;;
    on_fs (hp_kfree mount);;;
    modify (fun s => put_mounts (delete mount (v_mounts s)) s);;;
    ret true.

Definition is_under_mount (m : mount) (filename : list Z) : M st Z :=
  do mount_len <- str_len (mount_point m);
  do filename_len <- str_len filename;
  if filename_len <? mount_len then ret 0 else
  do same <- for_all (range 0 mount_len) (fun i =>
    do c1 <- rd_buf (mount_point m ++ [0]) i; do c2 <- rd_buf (filename ++ [0]) i; ret (c1 =? c2));
  ret (if (same : bool) then mount_len else 0).

(** The address of the mount, or [NULL]. *)
Definition find_mount_for_file (filename : list Z) : M st Z :=
  on_mounts_lock (spinlock_lock cpu_id);;;
  do best <- for_each_mount (fun it (acc : Z * Z) =>
    do x <- get_mount it;
    do common <- is_under_mount x filename;
    ret (inr (if acc.2 <? common then (it, common) else acc))) (NULL, 0);
  on_mounts_lock (spinlock_unlock cpu_id);;;
  ret best.1.

Definition get_fs (i : nat) : M st (fs_ops F) := must (SUPPORTED_FS !! i) "mount->fs".

(** ** Opening and closing files *)

Definition assert_files_locked : M st unit :=
  do held <- on_files_lock (spinlock_is_held cpu_id);
  ASSERT held "spinlock_is_held(&OPENED_FILES_LOCK)".

(** [memdup(filename, strlen(filename) + 1)] *)
Definition memdup_path (filename : list Z) : M st Z :=
  do len <- str_len filename;
  do copy <- on_fs (hp_kmalloc (u32 (len + 1)));
  if copy =? NULL then ret NULL else
  modify (fun s => put_strings (<[copy := filename]> (v_strings s)) s);;;
  ret copy.

Definition free_path (a : Z) : M st unit :=
  on_fs (hp_kfree a);;;
  modify (fun s => put_strings (delete a (v_strings s)) s).

(** [kfree] of a file: the object and its list node are gone. *)
Definition free_file (f : Z) : M st unit :=
  on_fs (hp_kfree f);;;
  modify (fun s => put_files (delete f (v_files s)) (put_file_links (delete (f + FILE_NODE) (v_file_links s)) s)).

Definition set_fs_fields (f : Z) (o : file_ops F) (p : Z) : M st unit :=
  do x <- get_file f;
  modify (fun s => put_files (<[f := mk_file (abs_path x) (fs_relative_path x) (file_disk x) (file_lock x)
                                       (Some o) p (open_ref_count x)]> (v_files s)) s).

(** The second half of [open_file]: fill the new [struct file] and let the
    file system open it. *)
Definition fill_file (m : mount) (filename : list Z) (filename_cpy mount_len file : Z) : M st Z :=
  let rel_path := u32 (filename_cpy + mount_len) in
  modify (fun s => put_files (<[file := mk_file filename_cpy rel_path (mount_disk m) INIT_RW_LOCK None NULL
                                          (mk_atomic 1)]> (v_files s)) s);;;
  on_file_links (list_init (file + FILE_NODE));;;
  on_file_rwlock file (rwlock_write_lock cpu_id);;;
  do fs <- get_fs (mount_fs m);
  do ' (res, fields) <- on_fs (op_open_file fs (mount_disk m) rel_path (drop (Z.to_nat mount_len) filename));
  match fields with Some (o, p) => set_fs_fields file o p | None => ret tt end;;;
  on_file_rwlock file (rwlock_write_unlock cpu_id);;;
  if bool_decide (res = FS_SUCCESS) then ret file
  else
    do x <- get_file file;
    free_path (abs_path x);;;
    free_file file;;;
    SET_ERROR "Cannot find file on filesystem" ENOTFOUND;;;
    ret NULL.

Definition open_file (filename : list Z) : M st Z :=
  assert_files_locked;;;
  do mount <- find_mount_for_file filename;
  if mount =? NULL then SET_ERROR "Cannot find mount point for file" ENOTFOUND;;; ret NULL else
  do m <- get_mount mount;
  do filename_cpy <- memdup_path filename;
  if filename_cpy =? NULL then SET_ERROR "Cannot allocate memory for file name" ENONE;;; ret NULL else
  do mount_len <- str_len (mount_point m);
  do file <- on_fs (hp_kmalloc SIZEOF_FILE);
  if file =? NULL then
    SET_ERROR "Cannot allocate struct file" ENONE;;;
    free_path filename_cpy;;;
    ret NULL
  else fill_file m filename filename_cpy mount_len file.

Definition lookup_file (filename : list Z) : M st Z :=
  assert_files_locked;;;
  for_each_file (fun it _ =>
    do x <- get_file it;
    do path <- get_string (abs_path x);
    do eq <- str_eq path filename;
    ret (if (eq : bool) then inl it else inr NULL)) NULL.

Definition lookup_file_or_open (filename : list Z) : M st Z :=
  on_files_lock (spinlock_lock cpu_id);;;
  do file <- lookup_file filename;
  if negb (file =? NULL) then
    on_ref_count file atomic_inc;;;
    on_files_lock (spinlock_unlock cpu_id);;;
    ret file
  else
    do file <- open_file filename;
    if file =? NULL then
      on_files_lock (spinlock_unlock cpu_id);;;
      ret NULL
    else
      on_file_links (list_add OPENED_FILES (file + FILE_NODE));;;
      on_files_lock (spinlock_unlock cpu_id);;;
      ret file.

Definition vfs_open (filename : list Z) : M st Z := lookup_file_or_open filename.

Definition close_file (f : Z) : M st unit :=
  assert_files_locked;;;
  do x <- get_file f;
  do path <- get_string (abs_path x);
  do found <- lookup_file path;
  ASSERT (found =? NULL) "!lookup_file(file->abs_path)";;;
  do mount <- find_mount_for_file path;
  ASSERT (negb (mount =? NULL)) "mount";;;
  do m <- get_mount mount;
  on_file_rwlock f (rwlock_write_lock cpu_id);;;
  do fs <- get_fs (mount_fs m);
  on_fs (op_close_file fs (fs_private x));;;
  on_file_rwlock f (rwlock_write_unlock cpu_id);;;
  free_path (abs_path x);;;
  free_file f.

Definition vfs_close (f : Z) : M st unit :=
  on_files_lock (spinlock_lock cpu_id);;;
  do last <- on_ref_count f atomic_dec_and_test;
  when last
    (on_file_links (list_del (f + FILE_NODE));;;
     close_file f);;;
  on_files_lock (spinlock_unlock cpu_id).

(** ** Reading, writing and deleting *)

Definition vfs_read (f offset : Z) (buf : list Z) (len : Z) : M st (Z * list Z) :=
  on_file_rwlock f (rwlock_read_lock cpu_id);;;
  do x <- get_file f;
  do o <- must (ops x) "file->ops";
  do res <- on_fs (op_read o (file_disk x) (fs_private x) offset buf len);
  on_file_rwlock f (rwlock_read_unlock cpu_id);;;
  ret res.

Definition vfs_write (f offset : Z) (buf : list Z) (len : Z) : M st Z :=
  on_file_rwlock f (rwlock_write_lock cpu_id);;;
  do x <- get_file f;
  do o <- must (ops x) "file->ops";
  do res <- on_fs (op_write o (file_disk x) (fs_private x) offset buf len);
  on_file_rwlock f (rwlock_write_unlock cpu_id);;;
  ret res.

Definition vfs_delete (filename : list Z) : M st unit :=
  do mount <- find_mount_for_file filename;
  when (mount =? NULL) (panic "Cannot find mount point for file");;;
  do m <- get_mount mount;
  do mount_len <- str_len (mount_point m);
  do fs <- get_fs (mount_fs m);
  on_fs (op_delete_file fs (mount_disk m) (drop (Z.to_nat mount_len) filename)).

End Vfs.
