(* ===== verification/VfsSpec.v ===== *)
(** * Correctness of the virtual file system

    [FsEnv] is what [vfs.c] relies on: memory, and file systems that keep
    their private data in memory of their own.  The state of the VFS is
    related to the list of mounts and the list of opened files; every
    operation is shown to do to the two lists what it should, and to keep
    exactly the memory they need. *)

From S2P Require Import Prelude Math DList Spinlock ErrorCodes Kmalloc KHeap CMem RwLock Fs Vfs.

(** [fe_inv f L ps]: the blocks [L] are allocated, of which [ps] are the
    private data of opened files.  [fe_disk] are the disks that exist,
    [fe_halts] the ways in which a file system may halt. *)
Class FsEnv (F : Type) `{Heap F} (fss : list (fs_ops F)) := {
  fe_inv : F -> gset Z -> gset Z -> Prop;
  fe_disk : Z -> Prop;
  fe_halts : halt -> Prop;
  fe_static : Z -> Prop;
  fe_wf f L ps : fe_inv f L ps -> ps ⊆ L /\ set_Forall (fun p => p <> NULL /\ ~ fe_static p) L;
  fe_kmalloc f L ps n : fe_inv f L ps -> 0 <= n <= MAX_SMALL ->
    wp (hp_kmalloc n) (fun r f' => (r = NULL /\ fe_inv f' L ps) \/
      (r <> NULL /\ (r ∉ L) /\ 0 < r /\ r + n < 2 ^ 32 /\ fe_inv f' ({[r]} ∪ L) ps)) f;
  fe_kfree f L ps p : fe_inv f L ps -> p ∈ L -> p ∉ ps ->
    wp (hp_kfree p) (fun _ f' => fe_inv f' (L ∖ {[p]}) ps) f;
  fe_detect fs f L ps disk : fs ∈ fss -> fe_inv f L ps -> fe_disk disk ->
    wpx fe_halts (op_detect_fs fs disk) (fun _ f' => fe_inv f' L ps) f;
  fe_open fs f L ps disk rel path : fs ∈ fss -> fe_inv f L ps -> fe_disk disk -> rel <> NULL ->
    0 ∉ path -> Z.of_nat (length path) < 2 ^ 32 ->
    wpx fe_halts (op_open_file fs disk rel path) (fun r f' =>
      match r with
      | (FS_SUCCESS, Some (_, p)) => p <> NULL /\ (p ∉ L) /\ fe_inv f' ({[p]} ∪ L) ({[p]} ∪ ps)
      | (FS_SUCCESS, None) => False
      | (_, Some _) => False
      | (_, None) => fe_inv f' L ps
      end) f;
  fe_close fs f L ps p : fs ∈ fss -> fe_inv f L ps -> p ∈ ps ->
    wpx fe_halts (op_close_file fs p) (fun _ f' => fe_inv f' (L ∖ {[p]}) (ps ∖ {[p]})) f }.

(** ** Sets of blocks *)

Lemma union_swap (a b : Z) (L : gset Z) : {[a]} ∪ ({[b]} ∪ L) = {[b]} ∪ ({[a]} ∪ L).
Proof. set_solver. Qed.

Lemma union_remove (a : Z) (L : gset Z) : a ∉ L -> ({[a]} ∪ L) ∖ {[a]} = L.
Proof. set_solver. Qed.

Lemma not_in_union (a b : Z) (L : gset Z) : a ∉ {[b]} ∪ L <-> a <> b /\ a ∉ L.
Proof. set_solver. Qed.

Lemma set_snoc (l : list Z) a : list_to_set (l ++ [a]) =@{gset Z} {[a]} ∪ list_to_set l.
Proof. rewrite list_to_set_app_L. set_solver. Qed.

Lemma set_snoc3 (l : list Z) a b x :
  list_to_set (l ++ [a; b; x]) =@{gset Z} {[x]} ∪ ({[a]} ∪ ({[b]} ∪ list_to_set l)).
Proof. rewrite list_to_set_app_L. set_solver. Qed.

(** ** Pure versions of the loops and tests *)

(** A loop over a list that can be left. *)
Fixpoint fold_break {X B} (f : X -> B -> B + B) (l : list X) (acc : B) : B :=
  match l with
  | [] => acc
  | x :: l' => match f x acc with inl b => b | inr b => fold_break f l' b end
  end.

Definition is_prefix (p q : list Z) : bool := bool_decide (take (length p) q = p).

(** The mount a file is on: the longest mount point that is a prefix of the
    path, the first one if there are several. *)
Definition common_prefix (m : mount) (filename : list Z) : Z :=
  if is_prefix (mount_point m) filename then Z.of_nat (length (mount_point m)) else 0.
Definition mount_step (filename : list Z) (x : Z * mount) (acc : Z * Z) : (Z * Z) + (Z * Z) :=
  inr (if acc.2 <? common_prefix x.2 filename then (x.1, common_prefix x.2 filename) else acc).
Definition best_mount (ms : list (Z * mount)) (filename : list Z) : Z * Z :=
  fold_break (mount_step filename) ms (NULL, 0).

(** A path a caller may use. *)
Definition path_ok (p : list Z) : Prop := (0 ∉ p) /\ Z.of_nat (length p) < MAX_SMALL.

Lemma path_cstring {S} (st : S) p : path_ok p -> cstring (rd_buf (p ++ [0])) st 0 p.
Proof. intros [H0 Hl]. unfold MAX_SMALL in Hl. apply cstring_buf; [done|lia]. Qed.

Lemma is_prefix_length p q : is_prefix p q = true -> (length p <= length q)%nat.
Proof. unfold is_prefix. intros E%bool_decide_eq_true. apply (f_equal length) in E. rewrite length_take in E. lia. Qed.

(** What the loop keeps, from any start. *)
Lemma best_mount_from (ms : list (Z * mount)) filename a n :
  0 <= n ->
  let r := fold_break (mount_step filename) ms (a, n) in
  n <= r.2 /\ (forall x, x ∈ ms -> is_prefix (mount_point x.2) filename = true ->
                 Z.of_nat (length (mount_point x.2)) <= r.2) /\
  (r = (a, n) \/ n < r.2 /\ exists x, x ∈ ms /\ is_prefix (mount_point x.2) filename = true /\
                   r = (x.1, Z.of_nat (length (mount_point x.2)))).
Proof.
  revert a n. induction ms as [|x ms IH]; intros a n Hn; cbn [fold_break].
  { simpl. split_and!; [lia|by intros ? ?%not_elem_of_nil|by left]. }
  unfold mount_step at 1 3 5 7 9. cbn [snd].
  assert (Hc : is_prefix (mount_point x.2) filename = true ->
    common_prefix x.2 filename = Z.of_nat (length (mount_point x.2))) by (unfold common_prefix; by intros ->).
  assert (Hc0 : is_prefix (mount_point x.2) filename = false -> common_prefix x.2 filename = 0)
    by (unfold common_prefix; by intros ->).
  set (common := common_prefix x.2 filename) in *. clearbody common.
  destruct (Z.ltb_spec n common) as [Hlt|Hge].
  - assert (Ep : is_prefix (mount_point x.2) filename = true).
    { destruct (is_prefix _ _) eqn:E; [done|]. specialize (Hc0 eq_refl). lia. }
    destruct (IH x.1 common ltac:(lia)) as (H1 & H2 & H3). split_and!; [lia| |].
    + intros y [->|Hy]%elem_of_cons Hpy; [rewrite <- Hc by done; lia|by apply H2].
    + right. split; [lia|]. destruct H3 as [E|(_ & y & Hy & Hpy & E)].
      * exists x. rewrite <- Hc by done. split_and!; [set_solver|done|done].
      * exists y. split_and!; [set_solver|done|done].
  - destruct (IH a n Hn) as (H1 & H2 & H3). split_and!; [lia| |].
    + intros y [->|Hy]%elem_of_cons Hpy; [rewrite <- Hc by done; lia|by apply H2].
    + destruct H3 as [E|(? & y & Hy & Hpy & E)]; [by left|right]. split; [done|]. exists y.
      split_and!; [set_solver|done|done].
Qed.

(** [best_mount] finds a mount whose path is a prefix of the file name, and no
    longer one exists; [NULL] means that there is none. *)
Lemma best_mount_spec (ms : list (Z * mount)) filename :
  Forall (fun x => x.1 <> NULL /\ mount_point x.2 <> []) ms ->
  let a := (best_mount ms filename).1 in
  if decide (a = NULL) then forall x, x ∈ ms -> is_prefix (mount_point x.2) filename = false
  else exists x, x ∈ ms /\ x.1 = a /\ is_prefix (mount_point x.2) filename = true /\
    forall y, y ∈ ms -> is_prefix (mount_point y.2) filename = true ->
      (length (mount_point y.2) <= length (mount_point x.2))%nat.
Proof.
  intros Hm. rewrite Forall_forall in Hm. destruct (best_mount_from ms filename NULL 0 ltac:(lia)) as (_ & H2 & H3).
  fold (best_mount ms filename) in H2, H3. cbn zeta. destruct H3 as [E|(Hlt & x & Hx & Hp & E)]; rewrite E in *; cbn [fst snd] in *.
  - rewrite decide_True by done. intros x Hx. destruct (is_prefix _ _) eqn:Ep; [|done].
    specialize (H2 _ Hx Ep). destruct (Hm _ Hx) as [_ Hne]. destruct (mount_point x.2); [done|simpl in H2; lia].
  - rewrite decide_False by (apply Hm, Hx). exists x. split_and!; [done..|]. intros y Hy Hpy. specialize (H2 _ Hy Hpy). lia.
Qed.

Section Runs.
Context {F : Type} `{Heap F} (c MOUNTS OPENED_FILES : Z) (fss : list (fs_ops F)).
Abbreviation st := (vfs F).
Implicit Types (s : st).

Lemma str_len_run s p : path_ok p -> str_len p s = Ok (Z.of_nat (length p), s).
Proof. intros Hp. apply strlen_run; [by apply path_cstring|lia]. Qed.

Lemma str_eq_run s p q : path_ok p -> path_ok q -> str_eq p q s = Ok (bool_decide (p = q), s).
Proof. intros Hp Hq. apply streq_run; [by apply path_cstring|by apply path_cstring|lia|lia]. Qed.

(** A loop over entries that does not change the state. *)
Lemma list_for_each_run {B} (nxt : Z -> M st Z) (links : store) fuel head off (X : Type) (addr : X -> Z) (l : list X)
    (body : Z -> B -> M st (B + B)) (f : X -> B -> B + B) acc s :
  (forall a b, nxt_is links a b -> nxt a s = Ok (b, s)) ->
  dll links head (map (fun x => addr x + off) l) -> (length l <= fuel)%nat ->
  (forall x b, x ∈ l -> body (addr x) b s = Ok (f x b, s)) ->
  list_for_each fuel nxt head (fun node => body (node - off)) acc s = Ok (fold_break f l acc, s).
Proof.
  intros Hn Hd Hf Hb.
  assert (Hw : wp (list_for_each fuel nxt head (fun node => body (node - off)) acc)
    (fun b s' => b = fold_break f l acc /\ s' = s) s).
  2: { apply wp_ok in Hw as (? & ? & E & -> & ->). done. }
  apply (wp_list_for_each nxt head (fun node => body (node - off))
    (fun rest b s' => s' = s /\ exists l1 l2, l = l1 ++ l2 /\ rest = map (fun x => addr x + off) l2 /\
       fold_break f l2 b = fold_break f l acc) _ _ (map (fun x => addr x + off) l)).
  - intros x rest b s' (-> & l1 & l2 & El & Er & Ef). destruct l2 as [|y l2]; simpl in Er; [done|].
    injection Er as -> ->. unfold wp. replace (addr y + off - off) with (addr y) by lia.
    rewrite Hb by (rewrite El; set_solver). simpl in Ef. destruct (f y b) as [b'|b']; [done|].
    assert (Hnx : nxt_is links (addr y + off) (hd head (map (fun x => addr x + off) l2))).
    { apply (dll_next _ _ (map (fun x => addr x + off) l1)). by rewrite El, map_app in Hd. }
    rewrite (Hn _ _ Hnx). split; [done|]. split; [done|]. exists (l1 ++ [y]), l2. by rewrite <- app_assoc.
  - intros b s' (-> & l1 & l2 & El & Er & Ef). destruct l2; [|done]. done.
  - by apply (dll_head_notin _ _ _ Hd).
  - by rewrite length_map.
  - unfold wp. rewrite (Hn _ _ (dll_head_next _ _ _ Hd)). split; [done|]. split; [done|]. by exists [], l.
Qed.

Lemma next_run links a b : nxt_is links a b -> next_of a links = Ok (b, links).
Proof.
  intros Hn. pose proof (wp_next_of links a b (fun b' x => b' = b /\ x = links) Hn) as Hw.
  destruct (proj1 (wp_ok _ _ _) (Hw (conj eq_refl eq_refl))) as (? & ? & E & -> & ->). done.
Qed.

Lemma for_each_mount_run {B} s (ms : list (Z * mount)) body (f : Z * mount -> B -> B + B) acc :
  dll (v_mount_links s) MOUNTS (map (fun x => x.1 + MOUNT_NODE) ms) ->
  (forall x b, x ∈ ms -> body x.1 b s = Ok (f x b, s)) ->
  for_each_mount MOUNTS body acc s = Ok (fold_break f ms acc, s).
Proof.
  intros Hd Hb. unfold for_each_mount. erewrite bind_ok by reflexivity.
  apply (list_for_each_run _ (v_mount_links s) _ _ _ _ fst ms body f); [|done| |done].
  - intros a b Hn. unfold on_mount_links, zoom. rewrite (next_run _ _ _ Hn). by destruct s.
  - pose proof (dll_fuel _ _ _ Hd) as Hf. by rewrite length_map in Hf.
Qed.

Lemma for_each_file_run {B X} s (addr : X -> Z) (fl : list X) body (f : X -> B -> B + B) acc :
  dll (v_file_links s) OPENED_FILES (map (fun x => addr x + FILE_NODE) fl) ->
  (forall x b, x ∈ fl -> body (addr x) b s = Ok (f x b, s)) ->
  for_each_file OPENED_FILES body acc s = Ok (fold_break f fl acc, s).
Proof.
  intros Hd Hb. unfold for_each_file. erewrite bind_ok by reflexivity.
  apply (list_for_each_run _ (v_file_links s) _ _ _ _ addr fl body f); [|done| |done].
  - intros a b Hn. unfold on_file_links, zoom. rewrite (next_run _ _ _ Hn). by destruct s.
  - pose proof (dll_fuel _ _ _ Hd) as Hf. by rewrite length_map in Hf.
Qed.

(** ** Locks *)

Lemma mounts_lock_run s : unlocked (MOUNTS_LOCK s) ->
  on_mounts_lock (spinlock_lock c) s = Ok (tt, put_locks (mk_spinlock 1 (v_if s) c) (OPENED_FILES_LOCK s) false s).
Proof. intros Hu. unfold on_mounts_lock, zoom. by rewrite spinlock_lock_run. Qed.

Lemma mounts_unlock_run s i : MOUNTS_LOCK s = mk_spinlock 1 i c ->
  on_mounts_lock (spinlock_unlock c) s = Ok (tt, put_locks (mk_spinlock 0 i NO_OWNER) (OPENED_FILES_LOCK s) i s).
Proof. intros E. unfold on_mounts_lock, zoom. by rewrite E, spinlock_unlock_run. Qed.

Lemma files_lock_run s : unlocked (OPENED_FILES_LOCK s) ->
  on_files_lock (spinlock_lock c) s = Ok (tt, put_locks (MOUNTS_LOCK s) (mk_spinlock 1 (v_if s) c) false s).
Proof. intros Hu. unfold on_files_lock, zoom. by rewrite spinlock_lock_run. Qed.

Lemma files_unlock_run s i : OPENED_FILES_LOCK s = mk_spinlock 1 i c ->
  on_files_lock (spinlock_unlock c) s = Ok (tt, put_locks (MOUNTS_LOCK s) (mk_spinlock 0 i NO_OWNER) i s).
Proof. intros E. unfold on_files_lock, zoom. by rewrite E, spinlock_unlock_run. Qed.

Lemma assert_files_locked_run s i : OPENED_FILES_LOCK s = mk_spinlock 1 i c ->
  assert_files_locked c s = Ok (tt, s).
Proof.
  intros E. unfold assert_files_locked, bind, on_files_lock, zoom, spinlock_is_held, bind, gets, ret. rewrite E. simpl.
  rewrite Z.eqb_refl. simpl. unfold put_locks. rewrite <- E. by destruct s.
Qed.

(** ** The mount of a file *)

Lemma is_under_mount_run s (m : mount) filename :
  path_ok (mount_point m) -> path_ok filename ->
  is_under_mount m filename s = Ok (common_prefix m filename, s).
Proof.
  intros Hm Hf. unfold is_under_mount, common_prefix, is_prefix. erewrite bind_ok by (by apply str_len_run).
  erewrite bind_ok by (by apply str_len_run).
  destruct (Z.ltb_spec (Z.of_nat (length filename)) (Z.of_nat (length (mount_point m)))) as [Hlt|Hge].
  { rewrite bool_decide_false; [done|]. intros E. apply (f_equal length) in E. rewrite length_take in E. lia. }
  erewrite bind_ok.
  2: { rewrite (for_all_run _ _ (fun i => nth (Z.to_nat i) (mount_point m) 0 =?
         nth (Z.to_nat i) (take (length (mount_point m)) filename) 0)).
       - reflexivity.
       - intros i Hi%elem_of_range. unfold rd_buf.
         destruct (lookup_lt_is_Some_2 (mount_point m) (Z.to_nat i)) as [x Ex]; [lia|].
         destruct (lookup_lt_is_Some_2 filename (Z.to_nat i)) as [y Ey]; [lia|].
         rewrite (lookup_app_l_Some _ _ _ _ Ex), (lookup_app_l_Some _ _ _ _ Ey), (nth_lookup_Some _ _ _ _ Ex).
         rewrite (nth_lookup_Some (take _ filename) _ 0 y); [done|]. by rewrite lookup_take_lt by lia. }
  rewrite forallb_range_eq by (rewrite length_take; lia). unfold ret.
  destruct (decide (mount_point m = take (length (mount_point m)) filename)) as [E|E].
  - by rewrite !bool_decide_true.
  - by rewrite !bool_decide_false by congruence.
Qed.

End Runs.

(** ** The invariant *)

(** An opened file: its address, its path, and its [struct file]. *)
Record ofile (F : Type) := mk_of { of_addr : Z; of_path : list Z; of_file : file F }.
Arguments mk_of {F}.
Arguments of_addr {F}.
Arguments of_path {F}.
Arguments of_file {F}.

Section Spec.
Context {F : Type} `{Heap F} (c MOUNTS OPENED_FILES : Z) (fss : list (fs_ops F)) {HE : FsEnv F fss}.
Abbreviation st := (vfs F).
Abbreviation mounts := (list (Z * mount)).
Abbreviation files := (list (ofile F)).
Implicit Types (s : st) (ms : mounts) (fl ex : files).

Hypothesis MOUNTS_static : fe_static (MOUNTS - MOUNT_NODE).
Hypothesis OPENED_FILES_static : fe_static (OPENED_FILES - FILE_NODE).

Definition mount_ok (m : mount) : Prop :=
  path_ok (mount_point m) /\ mount_point m <> [] /\ fe_disk (mount_disk m) /\ (mount_fs m < length fss)%nat.

Definition file_ok s (o : ofile F) : Prop :=
  v_files s !! of_addr o = Some (of_file o) /\ v_strings s !! abs_path (of_file o) = Some (of_path o) /\
  path_ok (of_path o) /\ rw_free (file_lock (of_file o)) /\ is_Some (ops (of_file o)).

Definition count_of (o : ofile F) : Z := value (open_ref_count (of_file o)).

Definition nodes_of fl : list Z := map (fun o => of_addr o + FILE_NODE) fl.

(** The lists and the objects: [fl] are the files in the list of opened files,
    [ex] the files that are not (yet, or any more) in it. *)
Record vlists s ms fl ex : Prop := {
  vl_mlist : dll (v_mount_links s) MOUNTS (map (fun x => x.1 + MOUNT_NODE) ms);
  vl_mounts : Forall (fun x => v_mounts s !! x.1 = Some x.2 /\ mount_ok x.2) ms;
  vl_points : NoDup (map (fun x => mount_point x.2) ms);
  vl_flist : dll (v_file_links s) OPENED_FILES (nodes_of fl);
  vl_files : Forall (file_ok s) (fl ++ ex);
  vl_counts : Forall (fun o => 1 <= count_of o < 2 ^ 31) fl;
  vl_nodes : Forall (fun a => is_Some (v_file_links s !! a)) (nodes_of ex);
  vl_paths : NoDup (map of_path fl) }.

Definition file_blocks (o : ofile F) : list Z := [of_addr o; abs_path (of_file o); fs_private (of_file o)].
Definition blocks ms fl : list Z := ms.*1 ++ concat (map file_blocks fl).
Definition privs fl : list Z := map (fun o => fs_private (of_file o)) fl.

(** The memory: exactly the blocks of the mounts and files. *)
Definition vmem s ms fl : Prop :=
  NoDup (blocks ms fl) /\ fe_inv (v_fs s) (list_to_set (blocks ms fl)) (list_to_set (privs fl)).

Record vcore s ms fl ex : Prop := {
  vc_lists : vlists s ms fl ex;
  vc_mem : vmem s ms (fl ++ ex) }.

(** Between two calls. *)
Record vfs_inv s ms fl : Prop := {
  vi_core : vcore s ms fl [];
  vi_mlock : unlocked (MOUNTS_LOCK s);
  vi_flock : unlocked (OPENED_FILES_LOCK s) }.

(** What does not look at the locks and the errors. *)
Lemma vcore_locks s ms fl ex a b i : vcore s ms fl ex -> vcore (put_locks a b i s) ms fl ex.
Proof. intros [[] ?]. by split. Qed.

Lemma vcore_error s ms fl ex msg code s' :
  vcore s ms fl ex -> SET_ERROR msg code s = Ok (tt, s') ->
  vcore s' ms fl ex /\ v_errors s' = v_errors s ++
    [mk_err msg code ((lock (MOUNTS_LOCK s) =? 1) || (lock (OPENED_FILES_LOCK s) =? 1))] /\
  MOUNTS_LOCK s' = MOUNTS_LOCK s /\ OPENED_FILES_LOCK s' = OPENED_FILES_LOCK s /\ v_if s' = v_if s.
Proof. intros [[] ?] [= <-]. by split. Qed.

(** ** Searching *)

Lemma find_mount_run s ms fl ex filename :
  vlists s ms fl ex -> unlocked (MOUNTS_LOCK s) -> path_ok filename ->
  find_mount_for_file c MOUNTS filename s =
    Ok ((best_mount ms filename).1, put_locks (mk_spinlock 0 (v_if s) NO_OWNER) (OPENED_FILES_LOCK s) (v_if s) s).
Proof.
  intros Hv Hu Hp. unfold find_mount_for_file. erewrite bind_ok by (by apply mounts_lock_run).
  erewrite bind_ok; [|apply (for_each_mount_run MOUNTS _ ms); [apply Hv|]].
  - fold (best_mount ms filename). by erewrite bind_ok by (by apply mounts_unlock_run).
  - intros x b Hx. pose proof (vl_mounts _ _ _ _ Hv) as Hm. rewrite Forall_forall in Hm. destruct (Hm _ Hx) as [El [Hpm _]].
    erewrite bind_ok by (unfold get_mount; simpl; by rewrite El).
    by erewrite bind_ok by (by apply is_under_mount_run).
Qed.

Definition lookup_of fl (filename : list Z) : Z :=
  fold_break (fun (o : ofile F) _ => if bool_decide (of_path o = filename) then inl (of_addr o) else inr NULL) fl NULL.

Lemma lookup_file_run s ms fl ex filename i :
  vlists s ms fl ex -> OPENED_FILES_LOCK s = mk_spinlock 1 i c -> path_ok filename ->
  lookup_file c OPENED_FILES filename s = Ok (lookup_of fl filename, s).
Proof.
  intros Hv Hl Hp. unfold lookup_file. erewrite bind_ok by (by eapply assert_files_locked_run).
  apply (for_each_file_run OPENED_FILES s of_addr fl); [apply Hv|].
  intros o b Ho. pose proof (vl_files _ _ _ _ Hv) as Hf. rewrite Forall_forall in Hf.
  destruct (Hf o) as (E1 & E2 & Hpo & _); [set_solver|].
  erewrite bind_ok by (unfold get_file; by rewrite E1). erewrite bind_ok by (unfold get_string; by rewrite E2).
  erewrite bind_ok by (by apply str_eq_run). unfold ret. by destruct (bool_decide _).
Qed.

Lemma lookup_of_spec fl filename :
  Forall (fun o => of_addr o <> NULL) fl ->
  (lookup_of fl filename = NULL /\ filename ∉ map of_path fl) \/
  (exists l1 o l2, fl = l1 ++ o :: l2 /\ of_path o = filename /\ lookup_of fl filename = of_addr o /\
     of_addr o <> NULL).
Proof.
  unfold lookup_of. induction fl as [|o fl IH]; intros Hn; [left; split; [done|apply not_elem_of_nil]|].
  apply Forall_cons in Hn as [Ho Hn]. cbn [fold_break]. destruct (decide (of_path o = filename)) as [E|E].
  - rewrite bool_decide_true by done. right. by exists [], o, fl.
  - rewrite bool_decide_false by done. destruct (IH Hn) as [[E1 E2]|(l1 & o' & l2 & -> & ? & ? & ?)].
    + left. split; [done|]. simpl. rewrite not_elem_of_cons. split; [congruence|done].
    + right. by exists (o :: l1), o', l2.
Qed.

(** ** What stays *)

(** The objects in the blocks [L], the mounts and the list head are the same
    in both states. *)
Definition keeps (L : gset Z) s s' : Prop :=
  v_mount_links s' = v_mount_links s /\ v_mounts s' = v_mounts s /\
  v_file_links s' !! OPENED_FILES = v_file_links s !! OPENED_FILES /\
  forall a, a ∈ L -> v_files s' !! a = v_files s !! a /\ v_strings s' !! a = v_strings s !! a /\
    v_file_links s' !! (a + FILE_NODE) = v_file_links s !! (a + FILE_NODE).

Lemma in_blocks ms fl o : o ∈ fl -> of_addr o ∈ blocks ms fl /\ abs_path (of_file o) ∈ blocks ms fl /\
  fs_private (of_file o) ∈ blocks ms fl.
Proof.
  intros Ho. unfold blocks. rewrite !elem_of_app, !list_elem_of_In, !in_concat.
  assert (Hin : In (file_blocks o) (map file_blocks fl)) by (apply in_map; by apply list_elem_of_In).
  split_and!; right; exists (file_blocks o); (split; [done|]); simpl; tauto.
Qed.

Lemma file_ok_keeps L s s' ms fl o :
  keeps L s s' -> list_to_set (blocks ms fl) ⊆ L -> o ∈ fl -> file_ok s o -> file_ok s' o.
Proof.
  intros (_ & _ & _ & Hk) HL Ho (E1 & E2 & Hr). destruct (in_blocks ms fl o Ho) as (H1 & H2 & _).
  destruct (Hk (of_addr o)) as (F1 & _); [apply HL, elem_of_list_to_set, H1|].
  destruct (Hk (abs_path (of_file o))) as (_ & F2 & _); [apply HL, elem_of_list_to_set, H2|].
  unfold file_ok. by rewrite F1, F2.
Qed.

Lemma vlists_keeps L s s' ms fl ex :
  vlists s ms fl ex -> keeps L s s' -> list_to_set (blocks ms (fl ++ ex)) ⊆ L -> vlists s' ms fl ex.
Proof.
  intros [H1 H2 H3 H4 H5 Hct H6 H7] Hk HL. pose proof Hk as (E1 & E2 & E3 & E4).
  assert (Hn : forall o, o ∈ fl ++ ex -> v_file_links s' !! (of_addr o + FILE_NODE) = v_file_links s !! (of_addr o + FILE_NODE)).
  { intros o Ho. destruct (in_blocks ms _ o Ho) as (Hb & _). apply E4, HL, elem_of_list_to_set, Hb. }
  split; rewrite ?E1, ?E2; try done.
  - eapply dll_frame; [exact H4|]. intros a [->|(o & -> & Ho)%list_elem_of_fmap]%elem_of_cons; [done|].
    apply Hn. set_solver.
  - apply Forall_forall. intros o Ho. rewrite Forall_forall in H5. by eapply file_ok_keeps; [| | |apply H5].
  - apply Forall_forall. intros a (o & -> & Ho)%list_elem_of_fmap. rewrite Hn by set_solver.
    rewrite Forall_forall in H6. apply H6, list_elem_of_fmap. by exists o.
Qed.

Lemma blocks_app ms fl ex : blocks ms (fl ++ ex) = blocks ms fl ++ concat (map file_blocks ex).
Proof. unfold blocks. by rewrite map_app, concat_app, app_assoc. Qed.

Lemma vmem_put_fs s ms fl f : vmem (put_fs f s) ms fl <->
  NoDup (blocks ms fl) /\ fe_inv f (list_to_set (blocks ms fl)) (list_to_set (privs fl)).
Proof. done. Qed.

(** A new file, not in the list yet. *)
Lemma vcore_extra s ms fl o :
  vlists s ms fl [] -> file_ok s o -> is_Some (v_file_links s !! (of_addr o + FILE_NODE)) ->
  vlists s ms fl [o].
Proof.
  intros [H1 H2 H3 H4 H5 Hct H6 H7] Ho Hn. split; try done.
  - rewrite app_nil_r in H5. apply Forall_app. split; [done|by apply Forall_singleton].
  - by apply Forall_singleton.
Qed.

(** ** Operations on one file *)

Definition with_lock (l : rwlock_t) (x : file F) : file F :=
  mk_file (abs_path x) (fs_relative_path x) (file_disk x) l (ops x) (fs_private x) (open_ref_count x).
Definition with_count (n : atomic_t) (x : file F) : file F :=
  mk_file (abs_path x) (fs_relative_path x) (file_disk x) (file_lock x) (ops x) (fs_private x) n.

Lemma on_file_rwlock_run s f x m l i :
  v_files s !! f = Some x -> m (file_lock x, v_if s) = Ok (tt, (l, i)) ->
  on_file_rwlock f m s = Ok (tt, put_locks (MOUNTS_LOCK s) (OPENED_FILES_LOCK s) i
    (put_files (<[f := with_lock l x]> (v_files s)) s)).
Proof. intros E1 E2. unfold on_file_rwlock. by rewrite E1, E2. Qed.

Lemma on_ref_count_run {B} s f x (m : M atomic_t B) b n :
  v_files s !! f = Some x -> m (open_ref_count x) = Ok (b, n) ->
  on_ref_count f m s = Ok (b, put_files (<[f := with_count n x]> (v_files s)) s).
Proof. intros E1 E2. unfold on_ref_count. by rewrite E1, E2. Qed.

Lemma write_lock_run R n W i :
  unlocked W -> rwlock_write_lock c (mk_rwlock R n W, i) = Ok (tt, (mk_rwlock R n (mk_spinlock 1 i c), false)).
Proof. apply on_writer_lock_run. Qed.

Lemma write_unlock_run R n r i :
  rwlock_write_unlock c (mk_rwlock R n (mk_spinlock 1 r c), i) =
    Ok (tt, (mk_rwlock R n (mk_spinlock 0 r NO_OWNER), r)).
Proof. apply on_writer_unlock_run. Qed.

(** Memory of the VFS itself. *)
Lemma fs_kmalloc_wp s L ps n (Q : Z -> st -> Prop) :
  fe_inv (v_fs s) L ps -> 0 <= n <= MAX_SMALL ->
  (forall f', fe_inv f' L ps -> Q NULL (put_fs f' s)) ->
  (forall r f', r <> NULL -> r ∉ L -> 0 < r -> r + n < 2 ^ 32 -> ~ fe_static r ->
     fe_inv f' ({[r]} ∪ L) ps -> Q r (put_fs f' s)) ->
  wpx fe_halts (on_fs (hp_kmalloc n)) Q s.
Proof.
  intros Hf Hn H1 H2. apply wpx_zoom, wpx_wp. eapply wp_mono; [by eapply fe_kmalloc|].
  intros r f' [[-> Hf']|(Hr & Hnin & H0 & Hr2 & Hf')]; [by apply H1|]. apply H2; try done.
  destruct (fe_wf _ _ _ Hf') as [_ Hs]. apply (Hs r). set_solver.
Qed.

Lemma fs_kfree_wp s L ps p (Q : unit -> st -> Prop) :
  fe_inv (v_fs s) ({[p]} ∪ L) ps -> p ∉ L -> p ∉ ps ->
  (forall f', fe_inv f' L ps -> Q tt (put_fs f' s)) -> wpx fe_halts (on_fs (hp_kfree p)) Q s.
Proof.
  intros Hf Hp Hps HQ. apply wpx_zoom, wpx_wp. eapply wp_mono; [eapply (fe_kfree _ _ _ p Hf); [set_solver|done]|].
  intros [] f' Hf'. apply HQ. by replace L with (({[p]} ∪ L) ∖ {[p]}) by (apply set_eq; set_solver).
Qed.

(** ** Opening *)

Lemma free_path_wp s L ps copy (Q : unit -> st -> Prop) :
  fe_inv (v_fs s) ({[copy]} ∪ L) ps -> copy ∉ L -> copy ∉ ps ->
  (forall f', fe_inv f' L ps -> Q tt (put_strings (delete copy (v_strings s)) (put_fs f' s))) ->
  wpx fe_halts (free_path copy) Q s.
Proof.
  intros Hf Hc Hps HQ. apply wpx_bind. eapply fs_kfree_wp; [done..|]. intros f' Hf'. apply wpx_wp, wp_modify. by apply HQ.
Qed.

Lemma free_file_wp s L ps f (Q : unit -> st -> Prop) :
  fe_inv (v_fs s) ({[f]} ∪ L) ps -> f ∉ L -> f ∉ ps ->
  (forall f', fe_inv f' L ps -> Q tt (put_files (delete f (v_files s))
     (put_file_links (delete (f + FILE_NODE) (v_file_links s)) (put_fs f' s)))) ->
  wpx fe_halts (free_file f) Q s.
Proof.
  intros Hf Hc Hps HQ. apply wpx_bind. eapply fs_kfree_wp; [done..|]. intros f' Hf'. apply wpx_wp, wp_modify. by apply HQ.
Qed.

(** The locks a caller of [open_file] and [close_file] sees. *)
Definition same_locks s s' : Prop :=
  unlocked (MOUNTS_LOCK s') /\ OPENED_FILES_LOCK s' = OPENED_FILES_LOCK s /\ v_if s' = v_if s.

(** Only the file [f] and its path at [copy] are different. *)
Lemma keeps_file L s s' f copy :
  f ∉ L -> copy ∉ L -> f + FILE_NODE <> OPENED_FILES ->
  v_mount_links s' = v_mount_links s -> v_mounts s' = v_mounts s ->
  (forall a, a <> f -> v_files s' !! a = v_files s !! a) ->
  (forall a, a <> f + FILE_NODE -> v_file_links s' !! a = v_file_links s !! a) ->
  (forall a, a <> copy -> v_strings s' !! a = v_strings s !! a) -> keeps L s s'.
Proof.
  intros Hf Hc Hn E1 E2 E3 E4 E5. split_and!; [done|done|by apply E4|].
  intros a Ha. assert (a <> f) by (intros ->; done). assert (a <> copy) by (intros ->; done).
  split_and!; [by apply E3|by apply E5|apply E4; lia].
Qed.

Lemma privs_blocks ms fl : (list_to_set (privs fl) : gset Z) ⊆ list_to_set (blocks ms fl).
Proof.
  intros x (o & -> & Ho)%elem_of_list_to_set%list_elem_of_fmap. apply elem_of_list_to_set. by apply in_blocks.
Qed.

Lemma fe_inv_sets f L L' ps ps' : fe_inv f L ps -> L = L' -> ps = ps' -> fe_inv f L' ps'.
Proof. by intros ? <- <-. Qed.

Lemma vmem_new_file s ms fl o :
  let L := list_to_set (blocks ms fl) in
  NoDup (blocks ms fl) -> abs_path (of_file o) ∉ L -> of_addr o ∉ {[abs_path (of_file o)]} ∪ L ->
  fs_private (of_file o) ∉ {[of_addr o]} ∪ ({[abs_path (of_file o)]} ∪ L) ->
  fe_inv (v_fs s) ({[fs_private (of_file o)]} ∪ ({[of_addr o]} ∪ ({[abs_path (of_file o)]} ∪ L)))
    ({[fs_private (of_file o)]} ∪ list_to_set (privs fl)) ->
  vmem s ms (fl ++ [o]).
Proof.
  intros L Hnd Hc Hf Hp Hi. unfold vmem. rewrite blocks_app. unfold privs. rewrite map_app. simpl.
  rewrite not_elem_of_union, not_elem_of_singleton in Hf. rewrite !not_elem_of_union, !not_elem_of_singleton in Hp.
  assert (HL : forall x, x ∈ blocks ms fl <-> x ∈ L) by (intros x; unfold L; by rewrite elem_of_list_to_set).
  split.
  - apply NoDup_app. split_and!; [done| |].
    + intros x Hx%HL. rewrite !elem_of_cons. intros [->|[->|[->|?%not_elem_of_nil]]]; naive_solver.
    + repeat constructor; rewrite ?elem_of_cons; set_solver.
  - eapply fe_inv_sets; [exact Hi|by rewrite set_snoc3|by rewrite set_snoc].
Qed.

(** What [open_file] guarantees. *)
Definition open_post s ms fl filename (r : Z) (s' : st) : Prop :=
  same_locks s s' /\
  ((r = NULL /\ vcore s' ms fl [] /\ exists e, v_errors s' = v_errors s ++ [e]) \/
   (r <> NULL /\ v_errors s' = v_errors s /\ exists o x, vcore s' ms fl [o] /\ of_addr o = r /\ of_path o = filename /\
      x ∈ ms /\ x.1 = (best_mount ms filename).1 /\ file_disk (of_file o) = mount_disk x.2 /\
      count_of o = 1)).

(** Giving up: the path and the file are freed again. *)
Lemma discard_file_wp s s1 ms fl filename copy f :
  let L := list_to_set (blocks ms fl) in
  vlists s ms fl [] -> NoDup (blocks ms fl) -> keeps L s s1 ->
  fe_inv (v_fs s1) ({[f]} ∪ ({[copy]} ∪ L)) (list_to_set (privs fl)) ->
  copy ∉ L -> f ∉ {[copy]} ∪ L -> f + FILE_NODE <> OPENED_FILES ->
  same_locks s s1 -> v_errors s1 = v_errors s ->
  wpx fe_halts (free_path copy;;; free_file f;;; SET_ERROR "Cannot find file on filesystem" ENOTFOUND;;; ret NULL)
    (open_post s ms fl filename) s1.
Proof.
  intros L Hv Hnd (K1 & K2 & K3 & K4) Hf1 Hc Hff Hnode (Hl1 & Hl2 & Hl3) Her. pose proof (privs_blocks ms fl) as Hps.
  apply not_in_union in Hff as [Hfc Hff]. assert (Hcp : copy ∉ (list_to_set (privs fl) : gset Z)) by (intros Hin; by apply Hc, Hps).
  assert (Hfp : f ∉ (list_to_set (privs fl) : gset Z)) by (intros Hin; by apply Hff, Hps).
  apply wpx_bind. eapply (free_path_wp _ ({[f]} ∪ L));
    [rewrite union_swap; exact Hf1|rewrite not_in_union; split; [congruence|done]|done|].
  intros f1 Hf2. apply wpx_bind. eapply free_file_wp; [exact Hf2|done|done|]. intros f2 Hf3.
  apply wpx_bind, wpx_wp, wp_modify, wpx_ret. split; [by split_and!|]. left. split; [done|]. split.
  - split; [|split; [by rewrite app_nil_r|]; eapply fe_inv_sets; [exact Hf3|by rewrite app_nil_r..]].
    eapply (vlists_keeps L); [exact Hv| |by rewrite app_nil_r].
    split_and!; [done|done|simpl; by rewrite lookup_delete_ne|]. intros a Ha. destruct (K4 a Ha) as (K5 & K6 & K7).
    assert (a <> f) by (intros ->; done). assert (a <> copy) by (intros ->; done). simpl. by rewrite !lookup_delete_ne by lia.
  - simpl. rewrite Her. by eexists.
Qed.

Lemma fill_file_wp s ms fl (m : mount) filename copy f :
  let L := list_to_set (blocks ms fl) in
  vlists s ms fl [] -> NoDup (blocks ms fl) -> mount_ok m -> path_ok filename ->
  fe_inv (v_fs s) ({[f]} ∪ ({[copy]} ∪ L)) (list_to_set (privs fl)) ->
  copy ∉ L -> f ∉ {[copy]} ∪ L -> 0 < copy -> copy + Z.of_nat (length filename) < 2 ^ 32 ->
  is_prefix (mount_point m) filename = true -> v_strings s !! copy = Some filename ->
  ((best_mount ms filename).1, m) ∈ ms -> unlocked (MOUNTS_LOCK s) ->
  wpx fe_halts (fill_file c fss m filename copy (Z.of_nat (length (mount_point m))) f)
    (open_post s ms fl filename) s.
Proof.
  intros L Hv Hnd (Hpm & Hmne & Hdisk & Hfs) Hp Hf Hc Hff Hc0 Hcs Hpre Hstr Hin Hu. unfold fill_file.
  pose proof (is_prefix_length _ _ Hpre) as Hle.
  destruct (fe_wf _ _ _ Hf) as [_ Hst]. destruct (Hst f ltac:(set_solver)) as [Hfn Hfst]. clear Hst.
  assert (Hnode : f + FILE_NODE <> OPENED_FILES).
  { intros E. apply Hfst. by replace f with (OPENED_FILES - FILE_NODE) by lia. }
  assert (Hps : list_to_set (privs fl) ⊆ L) by apply privs_blocks.
  rewrite u32_id by lia. apply wpx_bind, wpx_wp, wp_modify. apply wpx_bind, wpx_zoom, wpx_wp, wp_modify.
  eapply wpx_bind_ok; [apply on_file_rwlock_run; [simpl; by rewrite lookup_insert_eq|by apply write_lock_run]|].
  destruct (lookup_lt_is_Some_2 fss (mount_fs m) Hfs) as [fs Efs]. apply wpx_bind. eapply wpx_must; [done|].
  apply wpx_bind, wpx_zoom. eapply wpx_mono.
  { eapply (fe_open fs); [by eapply list_elem_of_lookup_2|exact Hf|done|unfold NULL; lia| |].
    - intros Hi0. destruct Hp as [Hp0 _]. apply Hp0. exact (subseteq_drop _ _ _ Hi0).
    - destruct Hp as [_ Hp]. rewrite length_drop. unfold MAX_SMALL in Hp. lia. }
  intros [res fields] f' Hr. destruct res, fields as [[o p]|]; try done.
  - destruct Hr as (Hpn & Hpf & Hf'). apply wpx_bind.
    eapply wpx_bind_ok; [unfold get_file; simpl; by rewrite !lookup_insert_eq|]. apply wpx_wp, wp_modify.
    eapply wpx_bind_ok; [apply on_file_rwlock_run; [simpl; by rewrite !lookup_insert_eq|apply write_unlock_run]|].
    rewrite bool_decide_true by done. apply wpx_ret. split; [by split_and!|]. right. split; [done|]. split; [done|].
    exists (mk_of f filename (mk_file copy (copy + Z.of_nat (length (mount_point m))) (mount_disk m)
      (mk_rwlock INIT_SPINLOCK 0 (mk_spinlock 0 (v_if s) NO_OWNER)) (Some o) p (mk_atomic 1))), ((best_mount ms filename).1, m). split; [|done]. split.
    + apply vcore_extra.
      * eapply (vlists_keeps L); [exact Hv| |by rewrite app_nil_r]. apply (keeps_file L _ _ f copy); try done; [set_solver|..];
          intros a Ha; simpl; by rewrite ?lookup_insert_ne by done.
      * split_and!; simpl; [by rewrite lookup_insert_eq|done|done|by split_and!|done].
      * simpl. by rewrite lookup_insert_eq.
    + by apply vmem_new_file.
  - apply wpx_bind, wpx_ret.
    eapply wpx_bind_ok; [apply on_file_rwlock_run; [simpl; by rewrite !lookup_insert_eq|apply write_unlock_run]|].
    rewrite bool_decide_false by done.
    eapply wpx_bind_ok; [unfold get_file; simpl; by rewrite !lookup_insert_eq|]. 
    apply (discard_file_wp s _ ms fl filename copy f); try done; apply (keeps_file L _ _ f copy); try done; [set_solver|..];
      intros a Ha; simpl; by rewrite ?lookup_insert_ne by done.
  - apply wpx_bind, wpx_ret.
    eapply wpx_bind_ok; [apply on_file_rwlock_run; [simpl; by rewrite !lookup_insert_eq|apply write_unlock_run]|].
    rewrite bool_decide_false by done.
    eapply wpx_bind_ok; [unfold get_file; simpl; by rewrite !lookup_insert_eq|]. 
    apply (discard_file_wp s _ ms fl filename copy f); try done; apply (keeps_file L _ _ f copy); try done; [set_solver|..];
      intros a Ha; simpl; by rewrite ?lookup_insert_ne by done.
Qed.

Lemma mounts_ok s ms fl ex f L ps :
  vlists s ms fl ex -> fe_inv f L ps -> list_to_set (blocks ms (fl ++ ex)) ⊆ L ->
  Forall (fun x => x.1 <> NULL /\ mount_point x.2 <> []) ms.
Proof.
  intros Hv Hf HL. pose proof (vl_mounts _ _ _ _ Hv) as Hm. rewrite Forall_forall in *. intros x Hx.
  destruct (Hm x Hx) as (_ & _ & Hne & _). split; [|done]. destruct (fe_wf _ _ _ Hf) as [_ Hst].
  apply (Hst x.1). apply HL, elem_of_list_to_set, elem_of_app. left. by apply list_elem_of_fmap_2.
Qed.

Lemma files_ok s ms fl ex : vcore s ms fl ex -> Forall (fun o => of_addr o <> NULL) (fl ++ ex).
Proof.
  intros [Hv [_ Hi]]. apply Forall_forall. intros o Ho. destruct (fe_wf _ _ _ Hi) as [_ Hst].
  apply (Hst (of_addr o)), elem_of_list_to_set. by apply in_blocks.
Qed.

Lemma open_file_wp s ms fl filename i :
  vcore s ms fl [] -> path_ok filename -> unlocked (MOUNTS_LOCK s) -> OPENED_FILES_LOCK s = mk_spinlock 1 i c ->
  wpx fe_halts (open_file c MOUNTS fss filename) (open_post s ms fl filename) s.
Proof.
  intros [Hv [Hnd Hi]] Hp Hu Hl. rewrite app_nil_r in Hnd, Hi. unfold open_file.
  eapply wpx_bind_ok; [by eapply assert_files_locked_run|].
  eapply wpx_bind_ok; [by eapply find_mount_run|].
  pose proof (mounts_ok _ _ _ _ _ _ _ Hv Hi ltac:(by rewrite app_nil_r)) as Hmok.
  pose proof (best_mount_spec ms filename Hmok) as Hb. cbn zeta in Hb.
  assert (Hfail : forall s1, keeps (list_to_set (blocks ms fl)) s s1 -> same_locks s s1 ->
    fe_inv (v_fs s1) (list_to_set (blocks ms fl)) (list_to_set (privs fl)) ->
    (exists e, v_errors s1 = v_errors s ++ [e]) -> open_post s ms fl filename NULL s1).
  { intros s1 Hk Hs1 Hi1 He. split; [done|]. left. split_and!; [done| |done].
    split; [by eapply vlists_keeps; [exact Hv|exact Hk|by rewrite app_nil_r]|split; by rewrite app_nil_r]. }
  case_decide as Hbn.
  { rewrite Hbn. simpl. apply wpx_bind, wpx_wp, wp_modify, wpx_ret. apply Hfail; [done|by split_and!|done|by eexists]. }
  destruct Hb as (x & Hx & Exa & Hpre & _). rewrite <- Exa in *. rewrite (proj2 (Z.eqb_neq _ _) Hbn).
  pose proof (vl_mounts _ _ _ _ Hv) as Hm. rewrite Forall_forall in Hm. destruct (Hm _ Hx) as [Em Hmo].
  eapply wpx_bind_ok; [unfold get_mount; simpl; by rewrite Em|]. apply wpx_bind. unfold memdup_path.
  pose proof Hp as [Hp0 Hpl]. unfold MAX_SMALL in Hpl.
  eapply wpx_bind_ok; [by apply str_len_run|]. rewrite u32_id by lia. apply wpx_bind.
  eapply fs_kmalloc_wp; [exact Hi|unfold MAX_SMALL; lia| |].
  { intros f1 Hf1. apply wpx_ret. cbn [Z.eqb NULL]. apply wpx_bind, wpx_wp, wp_modify, wpx_ret.
    apply Hfail; [done|by split_and!|done|by eexists]. }
  intros copy f1 Hcn Hc Hc0 Hcs Hcst Hf1. rewrite (proj2 (Z.eqb_neq _ _) Hcn). apply wpx_bind, wpx_wp, wp_modify, wpx_ret.
  rewrite (proj2 (Z.eqb_neq _ _) Hcn). eapply wpx_bind_ok; [apply str_len_run, Hmo|]. apply wpx_bind.
  eapply fs_kmalloc_wp; [exact Hf1|unfold MAX_SMALL, SIZEOF_FILE; lia| |].
  - intros f2 Hf2. cbn [Z.eqb NULL]. apply wpx_bind, wpx_wp, wp_modify. apply wpx_bind.
    eapply free_path_wp; [exact Hf2|done|intros Hin; by apply Hc, privs_blocks|]. intros f3 Hf3. apply wpx_ret.
    apply Hfail; [|by split_and!|done|by eexists]. split_and!; [done..|]. intros a Ha. simpl. rewrite lookup_delete_ne, lookup_insert_ne by set_solver. done.
  - intros f f2 Hfn Hff Hf0 Hfs Hfst Hf2. rewrite (proj2 (Z.eqb_neq _ _) Hfn).
    eapply wpx_mono.
    + apply (fill_file_wp _ ms fl x.2 filename copy f); try done; [|lia|simpl; by rewrite lookup_insert_eq|by rewrite <- Exa, <- surjective_pairing].
      eapply (vlists_keeps (list_to_set (blocks ms fl))); [exact Hv| |by rewrite app_nil_r].
      split_and!; [done..|]. intros a Ha. simpl. by rewrite lookup_insert_ne by set_solver.
    + intros r s' [Hs' Hr]. split; [|exact Hr]. destruct Hs' as (? & ? & ?). by split_and!.
Qed.

(** ** Moving files in and out of the list *)

Lemma blocks_middle ms l1 o l2 : blocks ms (l1 ++ o :: l2) ≡ₚ file_blocks o ++ blocks ms (l1 ++ l2).
Proof. unfold blocks. rewrite !map_app, !concat_app. simpl. solve_Permutation. Qed.

Lemma other_addr ms l1 o l2 o2 :
  NoDup (blocks ms (l1 ++ o :: l2)) -> o2 ∈ l1 ++ l2 -> of_addr o2 <> of_addr o.
Proof.
  rewrite blocks_middle. intros (_ & Hd & _)%NoDup_app Ho2 E. destruct (in_blocks ms _ _ Ho2) as (Hin & _).
  apply (Hd (of_addr o2)); [rewrite E; by left|done].
Qed.

(** [o] with a new value of its [struct file]; its blocks are the same. *)
Definition same_blocks (x y : file F) : Prop := abs_path x = abs_path y /\ fs_private x = fs_private y.

Definition updated_file s s' (o : ofile F) (x : file F) : Prop :=
  v_mount_links s' = v_mount_links s /\ v_mounts s' = v_mounts s /\ v_strings s' = v_strings s /\ v_fs s' = v_fs s /\
  v_files s' = <[of_addr o := x]> (v_files s) /\ same_blocks x (of_file o) /\ rw_free (file_lock x) /\ is_Some (ops x).

Lemma updated_files_ok s s' ms l1 o l2 x :
  updated_file s s' o x -> NoDup (blocks ms (l1 ++ o :: l2)) -> Forall (file_ok s) (l1 ++ o :: l2) ->
  Forall (file_ok s') (l1 ++ l2) /\ file_ok s' (mk_of (of_addr o) (of_path o) x).
Proof.
  intros (_ & _ & E3 & _ & E5 & (E6 & _) & Hl & Ho) Hnd Hf. rewrite Forall_forall in Hf. split.
  - apply Forall_forall. intros o2 Ho2. pose proof (other_addr _ _ _ _ _ Hnd Ho2).
    destruct (Hf o2) as (F1 & F2 & F3); [set_solver|]. unfold file_ok. by rewrite E5, E3, lookup_insert_ne by done.
  - destruct (Hf o) as (F1 & F2 & F3 & F4 & F5); [set_solver|]. unfold file_ok. simpl.
    rewrite E5, E3, E6, lookup_insert_eq. done.
Qed.

Lemma vmem_moved s s' ms fl fl' :
  v_fs s' = v_fs s -> blocks ms fl' ≡ₚ blocks ms fl -> privs fl' ≡ₚ privs fl -> vmem s ms fl -> vmem s' ms fl'.
Proof.
  intros E1 E2 E3 [Hnd Hi]. split; [by rewrite E2|]. rewrite E1. eapply fe_inv_sets; [exact Hi| |];
    apply list_to_set_perm_L; by symmetry.
Qed.

Lemma moved_blocks ms l1 o l2 x ex :
  same_blocks x (of_file o) -> ex = [mk_of (of_addr o) (of_path o) x] ->
  blocks ms (l1 ++ ex ++ l2) ≡ₚ blocks ms (l1 ++ o :: l2) /\ privs (l1 ++ ex ++ l2) ≡ₚ privs (l1 ++ o :: l2) /\
  blocks ms ((l1 ++ l2) ++ ex) ≡ₚ blocks ms (l1 ++ o :: l2) /\ privs ((l1 ++ l2) ++ ex) ≡ₚ privs (l1 ++ o :: l2).
Proof.
  intros [E1 E2] ->. unfold blocks, privs. rewrite !map_app, !concat_app. simpl. unfold file_blocks. simpl.
  rewrite E1, E2. split_and!; [done|done| |]; solve_Permutation.
Qed.

Lemma vcore_update s s' ms l1 o l2 x :
  vcore s ms (l1 ++ o :: l2) [] -> updated_file s s' o x -> v_file_links s' = v_file_links s ->
  1 <= value (open_ref_count x) < 2 ^ 31 -> vcore s' ms (l1 ++ mk_of (of_addr o) (of_path o) x :: l2) [].
Proof.
  intros [[H1 H2 H3 H4 H5 Hct H6 H7] Hm] Hu El Hc. rewrite app_nil_r in Hm, H5.
  destruct (updated_files_ok s s' ms l1 o l2 x Hu (proj1 Hm) H5) as [Hf Ho].
  pose proof Hu as (E1 & E2 & E3 & E4 & E5 & Hb & _). split; [split|]; rewrite ?E1, ?E2, ?El, ?app_nil_r; try done.
  - unfold nodes_of in *. rewrite map_app in *. simpl in *. done.
  - apply Forall_app in Hf as [Hf1 Hf2]. apply Forall_app. split; [done|by constructor].
  - apply Forall_app in Hct as [Hc1 [_ Hc2]%Forall_cons]. apply Forall_app. split; [done|by constructor].
  - rewrite map_app in *. simpl in *. done.
  - destruct (moved_blocks ms l1 o l2 x _ Hb eq_refl) as (B1 & B2 & _). by apply (vmem_moved s _ _ _ _ E4 B1 B2).
Qed.

Lemma vcore_remove s s' ms l1 o l2 x :
  vcore s ms (l1 ++ o :: l2) [] -> updated_file s s' o x ->
  dll (v_file_links s') OPENED_FILES (nodes_of (l1 ++ l2)) -> dom (v_file_links s') = dom (v_file_links s) ->
  vcore s' ms (l1 ++ l2) [mk_of (of_addr o) (of_path o) x].
Proof.
  intros [[H1 H2 H3 H4 H5 Hct H6 H7] Hm] Hu Hd Edom. rewrite app_nil_r in Hm, H5.
  destruct (updated_files_ok s s' ms l1 o l2 x Hu (proj1 Hm) H5) as [Hf Ho].
  pose proof Hu as (E1 & E2 & E3 & E4 & E5 & Hb & _). split; [split|]; rewrite ?E1, ?E2; try done.
  - apply Forall_app. split; [done|by constructor].
  - apply Forall_app in Hct as [Hc1 [_ Hc2]%Forall_cons]. by apply Forall_app.
  - apply Forall_singleton, elem_of_dom. rewrite Edom. apply elem_of_dom, (dll_present _ _ _ _ H4).
    right. apply list_elem_of_fmap. exists o. split; [done|set_solver].
  - rewrite map_app in *. simpl in *. apply NoDup_app in H7 as (N1 & N2 & [_ N3]%NoDup_cons). apply NoDup_app.
    split_and!; [done| |done]. intros y Hy Hy2. apply (N2 y Hy). by right.
  - destruct (moved_blocks ms l1 o l2 x _ Hb eq_refl) as (_ & _ & B1 & B2). by apply (vmem_moved s _ _ _ _ E4 B1 B2).
Qed.

Lemma vcore_link s ms fl o :
  vcore s ms fl [o] -> 1 <= count_of o < 2 ^ 31 -> of_path o ∉ map of_path fl ->
  wpx fe_halts (on_file_links (list_add OPENED_FILES (of_addr o + FILE_NODE))) (fun _ s' =>
    vcore s' ms (o :: fl) [] /\ exists l, s' = put_file_links l s) s.
Proof.
  intros [[H1 H2 H3 H4 H5 Hct H6 H7] Hm] Hc Hn. apply wpx_zoom, wpx_wp.
  assert (Hnew : of_addr o + FILE_NODE ∉ OPENED_FILES :: [] ++ nodes_of fl).
  { destruct Hm as [Hnd Hi]. simpl. rewrite not_elem_of_cons. split.
    - destruct (fe_wf _ _ _ Hi) as [_ Hst]. destruct (Hst (of_addr o)) as [_ Hs].
      { apply elem_of_list_to_set, in_blocks. set_solver. }
      intros E. apply Hs. by replace (of_addr o) with (OPENED_FILES - FILE_NODE) by lia.
    - intros (o2 & E & Ho2)%list_elem_of_fmap. apply (other_addr ms fl o [] o2); [done|by rewrite app_nil_r|lia]. }
  eapply wp_mono; [apply (list_add_after _ OPENED_FILES [] OPENED_FILES [] (nodes_of fl)); try done|].
  - by apply Forall_cons in H6 as [H6 _].
  - intros [] l [Hd _]. simpl in Hd. split; [|by eexists]. split; [split|]; simpl; try done; rewrite ?app_nil_r.
    + apply Forall_app in H5 as [Hf1 [Hf2 _]%Forall_cons]. by constructor.
    + by constructor.
    + by constructor.
    + eapply vmem_moved; [done| | |exact Hm].
      * change (o :: fl) with ([] ++ o :: fl). rewrite !blocks_middle. simpl. by rewrite app_nil_r.
      * unfold privs. rewrite map_app. simpl. solve_Permutation.
Qed.

(** ** vfs_open *)

(** [o] with its reference count changed. *)
Definition recount (o : ofile F) (n : Z) : ofile F :=
  mk_of (of_addr o) (of_path o) (with_count (mk_atomic n) (of_file o)).

Lemma vfs_open_wp s ms fl filename :
  vfs_inv s ms fl -> path_ok filename -> Forall (fun o => count_of o < 2 ^ 31 - 1) fl ->
  wpx fe_halts (vfs_open c MOUNTS OPENED_FILES fss filename) (fun r s' => v_if s' = v_if s /\
    ((exists l1 o l2, fl = l1 ++ o :: l2 /\ of_path o = filename /\ r = of_addr o /\ v_errors s' = v_errors s /\
        vfs_inv s' ms (l1 ++ recount o (count_of o + 1) :: l2)) \/
     (filename ∉ map of_path fl) /\
     ((r = NULL /\ vfs_inv s' ms fl /\ exists e, v_errors s' = v_errors s ++ [e]) \/
      (r <> NULL /\ v_errors s' = v_errors s /\ exists o x, vfs_inv s' ms (o :: fl) /\ of_addr o = r /\
         of_path o = filename /\ x ∈ ms /\ x.1 = (best_mount ms filename).1 /\
         file_disk (of_file o) = mount_disk x.2 /\ count_of o = 1)))) s.
Proof.
  intros [Hc Hm Hf] Hp Hct. unfold vfs_open, lookup_file_or_open.
  eapply wpx_bind_ok; [by apply files_lock_run|].
  set (s1 := put_locks _ _ _ s). assert (Hc1 : vcore s1 ms fl []) by by apply vcore_locks.
  eapply wpx_bind_ok; [eapply (lookup_file_run s1 ms fl []); [apply Hc1|done|done]|].
  pose proof (files_ok _ _ _ _ Hc) as Hn. rewrite app_nil_r in Hn.
  destruct (lookup_of_spec fl filename Hn) as [[E Hnin]|(l1 & o & l2 & -> & Eo & E & Hon)]; rewrite E.
  - cbn [Z.eqb NULL negb]. apply wpx_bind. eapply wpx_mono; [by eapply (open_file_wp s1 ms fl filename)|].
    intros r s2 [(Hl1 & Hl2 & Hl3) Hr]. destruct Hr as [(-> & Hc2 & e & He)|(Hrn & He & o & x & Hc2 & Ea & Ep & Hx & Ex & Ed & Ect)].
    + cbn [Z.eqb NULL]. eapply wpx_bind_ok; [apply files_unlock_run; by rewrite Hl2|]. apply wpx_ret. split; [done|].
      right. split; [done|]. left. split; [done|]. split; [|by exists e]. split; [by apply vcore_locks|done|done].
    + rewrite (proj2 (Z.eqb_neq _ _) Hrn). apply wpx_bind. rewrite <- Ea. eapply wpx_mono; [eapply vcore_link; [exact Hc2|lia|by rewrite Ep]|].
      intros [] s3 [Hc3 [l ->]]. eapply wpx_bind_ok; [apply files_unlock_run; simpl; by rewrite Hl2|]. apply wpx_ret.
      split; [done|]. right. split; [done|]. right. split; [congruence|]. split; [done|]. exists o, x.
      split_and!; try done. split; [by apply vcore_locks|done|done].
  - rewrite (proj2 (Z.eqb_neq _ _) Hon). cbn [negb].
    assert (Hfo : file_ok s1 o).
    { pose proof (vl_files _ _ _ _ (vc_lists _ _ _ _ Hc1)) as Hall. rewrite Forall_forall in Hall. apply Hall. set_solver. }
    destruct Hfo as (F1 & F2 & F3 & F4 & F5).
    assert (Hcb : 1 <= count_of o < 2 ^ 31 - 1).
    { pose proof (vl_counts _ _ _ _ (vc_lists _ _ _ _ Hc1)) as H1. rewrite Forall_forall in H1, Hct.
      specialize (H1 o ltac:(set_solver)). specialize (Hct o ltac:(set_solver)). cbn beta in *. lia. }
    eapply wpx_bind_ok; [by apply (on_ref_count_run s1 (of_addr o) (of_file o) atomic_inc)|].
    eapply wpx_bind_ok; [apply files_unlock_run; reflexivity|]. apply wpx_ret. split; [done|]. left.
    exists l1, o, l2. split_and!; try done. split; [|done|done]. apply vcore_locks.
    assert (Es : s32 (count_of o + 1) = count_of o + 1) by (apply s32_id; lia).
    unfold count_of in Es. rewrite Es.
    apply (vcore_update s1 _ ms l1 o l2); [done|by split_and!|done|]. unfold count_of in *. simpl. lia.
Qed.

(** ** vfs_close *)

Lemma vlists_drop s ms fl ex : vlists s ms fl ex -> vlists s ms fl [].
Proof.
  intros [H1 H2 H3 H4 H5 Hct H6 H7]. split; try done. rewrite app_nil_r.
  by apply Forall_app in H5 as [H5 _].
Qed.

(** The blocks of a file and the others. *)
Lemma vmem_split s ms fl o : vmem s ms (fl ++ [o]) ->
  let L := list_to_set (blocks ms fl) in
  (abs_path (of_file o) ∉ L) /\ (of_addr o ∉ {[abs_path (of_file o)]} ∪ L) /\
  (fs_private (of_file o) ∉ {[of_addr o]} ∪ ({[abs_path (of_file o)]} ∪ L)) /\ NoDup (blocks ms fl) /\
  fe_inv (v_fs s) ({[fs_private (of_file o)]} ∪ ({[of_addr o]} ∪ ({[abs_path (of_file o)]} ∪ L)))
    ({[fs_private (of_file o)]} ∪ list_to_set (privs fl)).
Proof.
  intros [Hnd Hi] L. rewrite blocks_app in Hnd, Hi. simpl in Hnd, Hi. unfold privs in Hi. rewrite map_app in Hi. simpl in Hi.
  apply NoDup_app in Hnd as (Hnd & Hd & Hn).
  assert (HL : forall x, x ∈ L -> x ∈ blocks ms fl) by (intros x Hx; by apply elem_of_list_to_set in Hx).
  apply NoDup_cons in Hn as [N1 [N2 _]%NoDup_cons]. rewrite !not_elem_of_cons in N1. rewrite !not_elem_of_cons in N2.
  assert (Hx : forall x, x ∈ [of_addr o; abs_path (of_file o); fs_private (of_file o)] -> x ∉ L).
  { intros x Hx Hin. by apply (Hd x (HL x Hin)). }
  pose proof (Hx _ (list_elem_of_here _ _)). pose proof (Hx (abs_path (of_file o)) ltac:(set_solver)).
  pose proof (Hx (fs_private (of_file o)) ltac:(set_solver)).
  split_and!; [done| | |done|].
  - rewrite not_elem_of_union, not_elem_of_singleton. naive_solver.
  - rewrite !not_elem_of_union, !not_elem_of_singleton. naive_solver.
  - eapply fe_inv_sets; [exact Hi|by rewrite set_snoc3|by rewrite set_snoc].
Qed.

Lemma close_file_wp s ms fl o i :
  vcore s ms fl [o] -> of_path o ∉ map of_path fl -> (best_mount ms (of_path o)).1 <> NULL ->
  unlocked (MOUNTS_LOCK s) -> OPENED_FILES_LOCK s = mk_spinlock 1 i c ->
  wpx fe_halts (close_file c MOUNTS OPENED_FILES fss (of_addr o)) (fun _ s' =>
    same_locks s s' /\ vcore s' ms fl [] /\ v_errors s' = v_errors s) s.
Proof.
  intros [Hv Hmem] Hnin Hb Hu Hl. unfold close_file.
  pose proof (vl_files _ _ _ _ Hv) as Hall. apply Forall_app in Hall as [_ [(F1 & F2 & F3 & F4 & F5) _]%Forall_cons].
  eapply wpx_bind_ok; [by eapply assert_files_locked_run|].
  eapply wpx_bind_ok; [unfold get_file; by rewrite F1|]. eapply wpx_bind_ok; [unfold get_string; by rewrite F2|].
  eapply wpx_bind_ok; [by eapply lookup_file_run|].
  pose proof (files_ok _ _ _ _ (Build_vcore _ _ _ _ Hv Hmem)) as Hn. apply Forall_app in Hn as [Hn [Hon _]%Forall_cons].
  destruct (lookup_of_spec fl (of_path o) Hn) as [[E _]|(l1 & o2 & l2 & -> & E & _)];
    [rewrite E|destruct Hnin; rewrite map_app; set_solver].
  apply wpx_bind, wpx_assert; [done|]. eapply wpx_bind_ok; [by eapply find_mount_run|].
  apply wpx_bind, wpx_assert; [by rewrite (proj2 (Z.eqb_neq _ _) Hb)|].
  destruct (vmem_split _ _ _ _ Hmem) as (M1 & M2 & M3 & Hnd & Hi). set (L := list_to_set (blocks ms fl)) in *.
  apply not_in_union in M2 as [M2 M4]. apply not_in_union in M3 as [M3 [M5 M6]%not_in_union].
  pose proof (privs_blocks ms fl) as Hps. fold L in Hps.
  assert (HLs : L ⊆ {[fs_private (of_file o)]} ∪ ({[of_addr o]} ∪ ({[abs_path (of_file o)]} ∪ L))) by (clear; set_solver).
  pose proof (mounts_ok _ _ _ _ _ _ _ (vlists_drop _ _ _ _ Hv) Hi ltac:(by rewrite app_nil_r)) as Hmok.
  pose proof (best_mount_spec ms (of_path o) Hmok) as Hbs. cbn zeta in Hbs. rewrite decide_False in Hbs by done.
  destruct Hbs as (x & Hx & Ex & _). pose proof (vl_mounts _ _ _ _ Hv) as Hm. rewrite Forall_forall in Hm.
  destruct (Hm _ Hx) as (Em & _ & _ & _ & Hfs). rewrite <- Ex.
  eapply wpx_bind_ok; [unfold get_mount; simpl; by rewrite Em|].
  destruct (file_lock (of_file o)) as [R nr W] eqn:El. destruct F4 as (HR & HW & Hnr). simpl in HR, HW, Hnr.
  eapply wpx_bind_ok; [apply on_file_rwlock_run; [exact F1|rewrite El; by apply write_lock_run]|].
  destruct (lookup_lt_is_Some_2 fss (mount_fs x.2) Hfs) as [fs Efs]. apply wpx_bind. eapply wpx_must; [done|].
  apply wpx_bind, wpx_zoom.
  eapply wpx_mono; [eapply (fe_close fs); [by eapply list_elem_of_lookup_2|exact Hi|apply elem_of_union_l, elem_of_singleton_2, eq_refl]|].
  intros [] f1 Hf1. rewrite !union_remove in Hf1 by (rewrite ?not_in_union; auto).
  eapply wpx_bind_ok; [apply on_file_rwlock_run; [simpl; by rewrite lookup_insert_eq|apply write_unlock_run]|].
  apply wpx_bind. eapply (free_path_wp _ ({[of_addr o]} ∪ L) (list_to_set (privs fl)));
    [rewrite union_swap; exact Hf1|rewrite not_in_union; split; [congruence|done]|auto|].
  intros f2 Hf2. eapply free_file_wp; [exact Hf2|done|auto|]. intros f3 Hf3.
  split; [by split_and!|]. split; [|done].
  split; [|split; [by rewrite app_nil_r|]; eapply fe_inv_sets; [exact Hf3|by rewrite app_nil_r..]].
  eapply (vlists_keeps L); [by eapply vlists_drop| |by rewrite app_nil_r]. apply (keeps_file L _ _ (of_addr o) (abs_path (of_file o))); try done.
  - destruct (fe_wf _ _ _ Hi) as [_ Hst]. destruct (Hst (of_addr o)) as [_ Hs]; [rewrite union_swap; by apply elem_of_union_l, elem_of_singleton|].
    intros E2. apply Hs. by replace (of_addr o) with (OPENED_FILES - FILE_NODE) by lia.
  - intros a Ha. simpl. by rewrite lookup_delete_ne, !lookup_insert_ne by done.
  - intros a Ha. simpl. by rewrite lookup_delete_ne by done.
  - intros a Ha. simpl. by rewrite lookup_delete_ne by done.
Qed.

Lemma file_nodes_app l1 o l2 : nodes_of (l1 ++ o :: l2) = nodes_of l1 ++ (of_addr o + FILE_NODE) :: nodes_of l2.
Proof. unfold nodes_of. by rewrite map_app. Qed.

(** The start of [vfs_close]: the lock and the reference count. *)
Definition closing s (o : ofile F) : st :=
  put_files (<[of_addr o := with_count (mk_atomic (count_of o - 1)) (of_file o)]> (v_files s))
    (put_locks (MOUNTS_LOCK s) (mk_spinlock 1 (v_if s) c) false s).

Lemma vfs_close_start s ms l1 o l2 (Q : unit -> st -> Prop) E :
  vfs_inv s ms (l1 ++ o :: l2) ->
  (wpx E (when (count_of o - 1 =? 0)
            (on_file_links (list_del (of_addr o + FILE_NODE));;; close_file c MOUNTS OPENED_FILES fss (of_addr o));;;
          on_files_lock (spinlock_unlock c)) Q (closing s o)) ->
  wpx E (vfs_close c MOUNTS OPENED_FILES fss (of_addr o)) Q s.
Proof.
  intros [[Hv _] Hm Hf] HQ. unfold vfs_close. eapply wpx_bind_ok; [by apply files_lock_run|].
  pose proof (vl_files _ _ _ _ Hv) as Hall. rewrite Forall_forall in Hall. destruct (Hall o) as (F1 & _); [set_solver|].
  pose proof (vl_counts _ _ _ _ Hv) as Hct. rewrite Forall_forall in Hct. specialize (Hct o ltac:(set_solver)). cbn beta in Hct.
  eapply wpx_bind_ok; [by apply (on_ref_count_run _ (of_addr o) (of_file o) atomic_dec_and_test)|].
  unfold count_of in *. rewrite s32_id by lia. done.
Qed.

Lemma closing_file s ms l1 o l2 :
  vfs_inv s ms (l1 ++ o :: l2) -> updated_file s (closing s o) o (with_count (mk_atomic (count_of o - 1)) (of_file o)).
Proof.
  intros [[Hv _] _ _]. pose proof (vl_files _ _ _ _ Hv) as Hall. rewrite Forall_forall in Hall.
  destruct (Hall o) as (_ & _ & _ & F4 & F5); [set_solver|]. by split_and!.
Qed.

(** Out of the list. *)
Lemma list_del_file s ms l1 o l2 (Q : unit -> st -> Prop) E :
  vfs_inv s ms (l1 ++ o :: l2) ->
  (forall ls, vcore (put_file_links ls (closing s o)) ms (l1 ++ l2) [recount o (count_of o - 1)] ->
     Q tt (put_file_links ls (closing s o))) ->
  wpx E (on_file_links (list_del (of_addr o + FILE_NODE))) Q (closing s o).
Proof.
  intros Hi HQ. pose proof (vl_flist _ _ _ _ (vc_lists _ _ _ _ (vi_core _ _ _ Hi))) as Hd. rewrite file_nodes_app in Hd.
  apply wpx_zoom, wpx_wp. eapply wp_mono; [apply (list_del_wp _ OPENED_FILES _ _ _ Hd)|].
  intros [] ls (Hd' & _ & _ & Edom). apply HQ.
  apply (vcore_remove s _ ms l1 o l2); [apply Hi| |simpl; unfold nodes_of in *; by rewrite map_app|done].
  destruct (closing_file _ _ _ _ _ Hi) as (? & ? & ? & ? & ? & ? & ? & ?). by split_and!.
Qed.

Lemma vfs_close_wp s ms l1 o l2 :
  vfs_inv s ms (l1 ++ o :: l2) -> 1 < count_of o \/ (best_mount ms (of_path o)).1 <> NULL ->
  wpx fe_halts (vfs_close c MOUNTS OPENED_FILES fss (of_addr o)) (fun _ s' =>
    v_if s' = v_if s /\ v_errors s' = v_errors s /\
    vfs_inv s' ms (if count_of o =? 1 then l1 ++ l2 else l1 ++ recount o (count_of o - 1) :: l2)) s.
Proof.
  intros Hi Hb. eapply vfs_close_start; [exact Hi|]. pose proof Hi as [Hc Hm Hf].
  pose proof (vl_counts _ _ _ _ (vc_lists _ _ _ _ Hc)) as Hct. rewrite Forall_forall in Hct.
  specialize (Hct o ltac:(set_solver)). cbn beta in Hct. destruct (Z.eqb_spec (count_of o) 1) as [E|E].
  - assert ((count_of o - 1 =? 0) = true) as -> by lia. apply wpx_bind. cbn [when]. apply wpx_bind.
    eapply list_del_file; [exact Hi|]. intros ls Hc2.
    eapply wpx_mono; [eapply (close_file_wp _ ms (l1 ++ l2) (recount o (count_of o - 1))); try done|].
    + pose proof (vl_paths _ _ _ _ (vc_lists _ _ _ _ Hc)) as Hp. rewrite map_app in *. simpl in *.
      apply NoDup_app in Hp as (_ & Hd & [Hn _]%NoDup_cons). intros [H1|H1]%elem_of_app; [|done]. apply (Hd _ H1). by left.
    + destruct Hb as [Hb|Hb]; [lia|exact Hb].
    + intros [] s' ((Hl1 & Hl2 & Hl3) & Hc3 & Her). unfold wpx. rewrite (files_unlock_run c s' (v_if s)) by (by rewrite Hl2).
      split_and!; [done|done|]. split; [by apply vcore_locks|done|done].
  - assert ((count_of o - 1 =? 0) = false) as -> by lia. apply wpx_bind, wpx_ret. unfold wpx.
    rewrite (files_unlock_run c _ (v_if s)) by done. split_and!; [done|done|]. split; [|done|done].
    apply vcore_locks. apply (vcore_update s _ ms l1 o l2); [done|by eapply closing_file|done|]. simpl. lia.
Qed.

(** Closing the last reference to a file whose disk is not mounted any more
    fails an assertion. *)
Lemma vfs_close_unmounted s ms l1 o l2 :
  vfs_inv s ms (l1 ++ o :: l2) -> count_of o = 1 -> (best_mount ms (of_path o)).1 = NULL ->
  vfs_close c MOUNTS OPENED_FILES fss (of_addr o) s = Halt (Panic "mount").
Proof.
  intros Hi E Hb.
  assert (Hw : wpx (fun h => h = Panic "mount") (vfs_close c MOUNTS OPENED_FILES fss (of_addr o)) (fun _ _ => False) s).
  2: { unfold wpx in Hw. destruct (vfs_close _ _ _ _ _ _) as [[]|]; [done|by rewrite Hw]. }
  eapply vfs_close_start; [exact Hi|]. rewrite E. cbn [Z.sub Z.eqb when]. apply wpx_bind, wpx_bind.
  eapply list_del_file; [exact Hi|]. intros ls Hc. pose proof Hc as [Hv Hmem]. unfold close_file.
  pose proof (vl_files _ _ _ _ Hv) as Hall. apply Forall_app in Hall as [_ [(F1 & F2 & F3 & F4 & F5) _]%Forall_cons].
  eapply wpx_bind_ok; [by eapply assert_files_locked_run|].
  change (of_addr o) with (of_addr (recount o (count_of o - 1))).
  eapply wpx_bind_ok; [unfold get_file; by rewrite F1|]. eapply wpx_bind_ok; [unfold get_string; by rewrite F2|].
  eapply wpx_bind_ok; [by eapply lookup_file_run|].
  pose proof (files_ok _ _ _ _ Hc) as Hn. apply Forall_app in Hn as [Hn _].
  pose proof (vl_paths _ _ _ _ (vc_lists _ _ _ _ (vi_core _ _ _ Hi))) as Hp.
  destruct (lookup_of_spec (l1 ++ l2) (of_path o) Hn) as [[E2 _]|(k1 & o2 & k2 & Ek & E2 & _)].
  - change (of_path (recount o (count_of o - 1))) with (of_path o). rewrite E2. apply wpx_bind, wpx_assert; [done|].
    eapply wpx_bind_ok; [eapply find_mount_run; [exact Hv|apply Hi|done]|]. rewrite Hb. by apply wpx_bind.
  - exfalso. rewrite map_app in Hp. simpl in Hp. apply NoDup_app in Hp as (_ & Hd & [Hn2 _]%NoDup_cons).
    assert (Hin : of_path o ∈ map of_path (l1 ++ l2)) by (rewrite Ek, map_app; set_solver).
    rewrite map_app in Hin. apply elem_of_app in Hin as [H1|H1]; [|done]. apply (Hd _ H1). by left.
Qed.

(** ** Mounting *)

Definition valid_target (p : list Z) : bool := (hd 0 p =? 47) && (List.last p 0 =? 47).

Definition mount_nodes ms : list Z := map (fun x => x.1 + MOUNT_NODE) ms.
Definition points ms : list (list Z) := map (fun x => mount_point x.2) ms.

Lemma valid_target_run s p : path_ok p -> mount_target_is_valid p s = Ok (valid_target p, s).
Proof.
  intros Hp. unfold mount_target_is_valid, valid_target. erewrite bind_ok by (by apply str_len_run).
  destruct p as [|a p]; [done|]. destruct (Z.eqb_spec (Z.of_nat (length (a :: p))) 0) as [E|_]; [simpl in E; lia|].
  erewrite bind_ok by reflexivity. cbn [hd]. destruct (Z.eqb_spec a 47); [|done]. cbn [negb andb].
  erewrite bind_ok; [reflexivity|]. unfold rd_buf.
  destruct (exists_last (l := a :: p)) as (q & b & Eq); [done|]. rewrite Eq, length_app, last_last. simpl length.
  replace (Z.to_nat _) with (length q) by lia. rewrite <- app_assoc. simpl. by rewrite list_lookup_middle.
Qed.

Lemma detect_from_wp s disk L ps fss' i :
  fe_inv (v_fs s) L ps -> fe_disk disk -> (forall fs, fs ∈ fss' -> fs ∈ fss) -> (i + length fss' = length fss)%nat ->
  wpx fe_halts (detect_from i fss' disk) (fun r s' => exists f', s' = put_fs f' s /\ fe_inv f' L ps /\
    match r with Some j => (j < length fss)%nat | None => True end) s.
Proof.
  revert s i. induction fss' as [|fs fss' IH]; intros s i Hi Hd Hin Hl; cbn [detect_from].
  { apply wpx_ret. exists (v_fs s). split; [by destruct s|done]. }
  apply wpx_bind, wpx_zoom. eapply wpx_mono; [eapply fe_detect; [apply Hin; by left|exact Hi|done]|].
  intros b f1 Hf1. simpl in Hl. destruct b.
  - apply wpx_ret. exists f1. split_and!; [done|done|lia].
  - eapply wpx_mono; [apply (IH (put_fs f1 s)); [done|done|set_solver|lia]|]. intros r s' (f2 & -> & ?). by exists f2.
Qed.

Lemma vlists_mounts s s' ms ms' fl ex :
  vlists s ms fl ex -> v_file_links s' = v_file_links s -> v_files s' = v_files s -> v_strings s' = v_strings s ->
  dll (v_mount_links s') MOUNTS (mount_nodes ms') ->
  Forall (fun x => v_mounts s' !! x.1 = Some x.2 /\ mount_ok x.2) ms' -> NoDup (points ms') -> vlists s' ms' fl ex.
Proof.
  intros [H1 H2 H3 H4 H5 Hct H6 H7] E1 E2 E3 Hd Hm Hn. split; rewrite ?E1; try done.
  eapply Forall_impl; [exact H5|]. intros o. unfold file_ok. by rewrite E2, E3.
Qed.

Lemma used_spec ms target :
  fold_break (fun (x : Z * mount) (_ : bool) => if bool_decide (mount_point x.2 = target) then inl true else inr false) ms false
  = bool_decide (target ∈ points ms).
Proof.
  induction ms as [|x ms IH]; [by rewrite bool_decide_false by apply not_elem_of_nil|]. cbn [fold_break].
  destruct (decide (mount_point x.2 = target)) as [E|E].
  - rewrite !bool_decide_true; [done|simpl; rewrite E; by left|done].
  - rewrite (bool_decide_false _ E), IH. apply bool_decide_ext. simpl. rewrite elem_of_cons. naive_solver.
Qed.

Lemma blocks_snoc ms x fl : blocks (ms ++ [x]) fl ≡ₚ x.1 :: blocks ms fl.
Proof. unfold blocks. rewrite fmap_app. simpl. solve_Permutation. Qed.

(** The new mount [a], not in the list yet: [s1] is the state with the object
    and its node. *)
Lemma new_mount_lists s s1 ms fl a m nd :
  vlists s ms fl [] -> a ∉ blocks ms fl -> ~ fe_static a ->
  v_file_links s1 = v_file_links s -> v_files s1 = v_files s -> v_strings s1 = v_strings s ->
  v_mounts s1 = <[a := m]> (v_mounts s) -> v_mount_links s1 = <[a + MOUNT_NODE := nd]> (v_mount_links s) ->
  vlists s1 ms fl [] /\ a + MOUNT_NODE ∉ MOUNTS :: mount_nodes ms.
Proof.
  intros Hv Ha Hst E1 E2 E3 E4 E5.
  assert (Hne : forall x, x ∈ ms -> x.1 <> a).
  { intros x Hx Ex. apply Ha, elem_of_app. left. rewrite <- Ex. by apply list_elem_of_fmap_2. }
  assert (Hn : a + MOUNT_NODE ∉ MOUNTS :: mount_nodes ms).
  { rewrite not_elem_of_cons. split.
    - intros E. apply Hst. by replace a with (MOUNTS - MOUNT_NODE) by lia.
    - intros (x & E & Hx)%list_elem_of_fmap. apply (Hne x Hx). lia. }
  split; [|done]. eapply vlists_mounts; [exact Hv|done..| | |apply Hv].
  - eapply dll_frame; [apply Hv|]. intros b Hb. rewrite E5, lookup_insert_ne; [done|]. intros <-. by apply Hn.
  - pose proof (vl_mounts _ _ _ _ Hv) as Hm. rewrite Forall_forall in *. intros x Hx.
    rewrite E4, lookup_insert_ne by (by apply not_eq_sym, Hne). by apply Hm.
Qed.

(** What [vfs_mount] guarantees. *)
Definition mount_post s ms fl disk target (r : bool) (s' : st) : Prop :=
  v_if s' = v_if s /\
  ((r = false /\ vfs_inv s' ms fl /\ exists e, v_errors s' = v_errors s ++ [e]) \/
   (r = true /\ v_errors s' = v_errors s /\ (target ∉ points ms) /\
    exists a i, vfs_inv s' (ms ++ [(a, mk_mount target disk i)]) fl)).

(** The last part of [vfs_mount]: the new mount is in its block, the lock is
    held. *)
Lemma register_mount_wp s s1 ms fl disk target a i :
  vfs_inv s ms fl -> path_ok target -> target <> [] -> fe_disk disk -> (i < length fss)%nat ->
  a ∉ blocks ms fl -> ~ fe_static a ->
  v_file_links s1 = v_file_links s -> v_files s1 = v_files s -> v_strings s1 = v_strings s ->
  v_mounts s1 = <[a := mk_mount target disk i]> (v_mounts s) ->
  v_mount_links s1 = <[a + MOUNT_NODE := mk_node (a + MOUNT_NODE) (a + MOUNT_NODE)]> (v_mount_links s) ->
  MOUNTS_LOCK s1 = mk_spinlock 1 (v_if s) c -> OPENED_FILES_LOCK s1 = OPENED_FILES_LOCK s -> v_errors s1 = v_errors s ->
  fe_inv (v_fs s1) ({[a]} ∪ list_to_set (blocks ms fl)) (list_to_set (privs fl)) -> target ∉ points ms ->
  wpx fe_halts (on_mount_links (list_add_tail MOUNTS (a + MOUNT_NODE));;;
                on_mounts_lock (spinlock_unlock c);;; ret true) (mount_post s ms fl disk target) s1.
Proof.
  intros [[Hv [Hnd _]] Hm Hf] Hp Htne Hd Hi Ha Hst E1 E2 E3 E4 E5 E6 E7 E8 Hfi Hnin. rewrite app_nil_r in Hnd.
  destruct (new_mount_lists s s1 ms fl a _ _ Hv Ha Hst E1 E2 E3 E4 E5) as [Hv1 Hn].
  apply wpx_bind, wpx_zoom, wpx_wp.
  eapply wp_mono; [apply (list_add_tail_wp _ MOUNTS (mount_nodes ms)); [apply Hv1|done|by rewrite E5, lookup_insert_eq]|].
  intros [] ls [Hdl _]. eapply wpx_bind_ok; [apply mounts_unlock_run; simpl; exact E6|]. apply wpx_ret. split; [done|]. right.
  split_and!; [done|done|done|]. exists a, i. split; [|done|simpl; by rewrite E7]. apply vcore_locks. split.
  - eapply vlists_mounts; [exact Hv1|done..| | |].
    + simpl. unfold mount_nodes in *. by rewrite map_app.
    + apply Forall_app. split; [apply Hv1|]. constructor; [|done]. simpl. rewrite E4, lookup_insert_eq. by split_and!.
    + unfold points in *. rewrite map_app. simpl. apply NoDup_app. split_and!; [apply Hv| |apply NoDup_singleton].
      intros x Hx ->%list_elem_of_singleton. done.
  - rewrite app_nil_r. split; [rewrite blocks_snoc; by constructor|]. simpl. eapply fe_inv_sets; [exact Hfi| |done].
    rewrite (list_to_set_perm_L _ _ (blocks_snoc ms (a, mk_mount target disk i) fl)). done.
Qed.

Lemma vfs_mount_wp s ms fl disk target :
  vfs_inv s ms fl -> path_ok target -> valid_target target = true -> fe_disk disk ->
  wpx fe_halts (vfs_mount c MOUNTS fss disk target) (mount_post s ms fl disk target) s.
Proof.
  intros Hinv Hp Hvt Hd. pose proof Hinv as [[Hv [Hnd Hi]] Hm Hf]. rewrite app_nil_r in Hnd, Hi. unfold vfs_mount.
  eapply wpx_bind_ok; [by apply valid_target_run|]. rewrite Hvt. apply wpx_bind, wpx_assert; [done|]. apply wpx_bind.
  assert (Hfail : forall s1, dll (v_mount_links s1) MOUNTS (mount_nodes ms) ->
    (forall x, x ∈ ms -> v_mounts s1 !! x.1 = v_mounts s !! x.1) -> v_file_links s1 = v_file_links s -> v_files s1 = v_files s -> v_strings s1 = v_strings s ->
    unlocked (MOUNTS_LOCK s1) -> OPENED_FILES_LOCK s1 = OPENED_FILES_LOCK s -> v_if s1 = v_if s ->
    (exists e, v_errors s1 = v_errors s ++ [e]) ->
    fe_inv (v_fs s1) (list_to_set (blocks ms fl)) (list_to_set (privs fl)) -> mount_post s ms fl disk target false s1).
  { intros s1 E1 E2 E3 E4 E5 E6 E7 E8 E9 E10. split; [done|]. left. split_and!; [done| |done]. split; [|done|by rewrite E7].
    split; [|by rewrite app_nil_r]. eapply vlists_mounts; [exact Hv|done..| |apply Hv].
    pose proof (vl_mounts _ _ _ _ Hv) as Hmm. rewrite Forall_forall in *. intros x Hx. rewrite E2 by done. by apply Hmm. }
  eapply fs_kmalloc_wp; [exact Hi|unfold MAX_SMALL, SIZEOF_MOUNT; lia| |].
  { intros f1 Hf1. cbn [Z.eqb NULL]. apply wpx_bind, wpx_wp, wp_modify, wpx_ret. apply Hfail; try done; [apply Hv|by eexists]. }
  intros a f1 Han Ha _ _ Hst Hf1. rewrite (proj2 (Z.eqb_neq _ _) Han).
  assert (Hap : a ∉ (list_to_set (privs fl) : gset Z)) by (intros Hin; by apply Ha, privs_blocks).
  apply wpx_bind. eapply wpx_mono; [by eapply (detect_from_wp _ disk _ _ fss 0)|]. intros [i|] s1 (f2 & -> & Hf2 & Hil).
  2: { apply wpx_bind, wpx_wp, wp_modify. apply wpx_bind. eapply fs_kfree_wp; [exact Hf2|done|done|].
       intros f3 Hf3. apply wpx_ret. apply Hfail; try done; [apply Hv|by eexists]. }
  apply wpx_bind, wpx_wp, wp_modify. apply wpx_bind, wpx_zoom, wpx_wp, wp_modify.
  eapply wpx_bind_ok; [by apply mounts_lock_run|].
  assert (Ha' : a ∉ blocks ms fl) by (intros Hin; by apply Ha, elem_of_list_to_set).
  match goal with |- wpx _ _ _ ?x => set (s2 := x) end.
  destruct (new_mount_lists s s2 ms fl a (mk_mount target disk i) (mk_node (a + MOUNT_NODE) (a + MOUNT_NODE))
    Hv Ha' Hst eq_refl eq_refl eq_refl eq_refl eq_refl) as [Hv2 Hnn].
  eapply wpx_bind_ok.
  { apply (for_each_mount_run MOUNTS s2 ms _ (fun x _ => if bool_decide (mount_point x.2 = target) then inl true else inr false));
      [apply Hv2|]. intros x b Hx. pose proof (vl_mounts _ _ _ _ Hv2) as Hmm. rewrite Forall_forall in Hmm.
    destruct (Hmm _ Hx) as [Em [Hpm _]]. erewrite bind_ok by (unfold get_mount; by rewrite Em).
    erewrite bind_ok by (by apply str_eq_run). unfold ret. by destruct (bool_decide _). }
  rewrite used_spec. destruct (bool_decide (target ∈ points ms)) eqn:Eu.
  - eapply wpx_bind_ok; [by apply mounts_unlock_run|]. apply wpx_bind, wpx_wp, wp_modify. apply wpx_bind.
    eapply fs_kfree_wp; [exact Hf2|done|done|]. intros f3 Hf3. apply wpx_bind, wpx_wp, wp_modify, wpx_ret.
    apply Hfail; try done; [| |by eexists].
    + eapply dll_frame; [apply Hv|]. intros b Hb. simpl.
      assert (b <> a + MOUNT_NODE) by (intros ->; done). by rewrite lookup_delete_ne, lookup_insert_ne by done.
    + intros x Hx. simpl. assert (x.1 <> a).
      { intros Ex. apply Ha', elem_of_app. left. rewrite <- Ex. by apply list_elem_of_fmap_2. }
      by rewrite lookup_delete_ne, lookup_insert_ne by done.
  - apply bool_decide_eq_false in Eu. apply (register_mount_wp s s2 ms fl disk target a i); try done. by intros ->.
Qed.

(** ** Unmounting *)

Definition unmount_step (path : list Z) (x : Z * mount) (_ : Z) : Z + Z :=
  if bool_decide (mount_point x.2 = path) then inl x.1 else inr (MOUNTS - MOUNT_NODE).

Lemma unmount_found ms path :
  ((path ∉ points ms) /\ fold_break (unmount_step path) ms (MOUNTS - MOUNT_NODE) = MOUNTS - MOUNT_NODE) \/
  (exists m1 x m2, ms = m1 ++ x :: m2 /\ mount_point x.2 = path /\
     fold_break (unmount_step path) ms (MOUNTS - MOUNT_NODE) = x.1).
Proof.
  induction ms as [|x ms IH]; [left; split; [apply not_elem_of_nil|done]|]. cbn [fold_break]. unfold unmount_step at 1 3.
  destruct (decide (mount_point x.2 = path)) as [E|E].
  - rewrite bool_decide_true by done. right. by exists [], x, ms.
  - rewrite bool_decide_false by done. destruct IH as [[Hn Hf]|(m1 & y & m2 & -> & Ey & Hf)].
    + left. split; [simpl; rewrite not_elem_of_cons; split; [congruence|done]|done].
    + right. by exists (x :: m1), y, m2.
Qed.

Lemma unmount_hit m1 x m2 acc : mount_point x.2 ∉ points m1 ->
  fold_break (unmount_step (mount_point x.2)) (m1 ++ x :: m2) acc = x.1.
Proof.
  revert acc. induction m1 as [|y m1 IH]; intros acc Hn; cbn [fold_break app]; unfold unmount_step at 1.
  - by rewrite bool_decide_true.
  - simpl in Hn. apply not_elem_of_cons in Hn as [Hy Hn]. rewrite bool_decide_false by congruence. by apply IH.
Qed.

(** The state in the loop of [vfs_unmount]. *)
Definition unmounting s : st := put_locks (mk_spinlock 1 (v_if s) c) (OPENED_FILES_LOCK s) false s.

Lemma vfs_unmount_start s ms fl path :
  vfs_inv s ms fl -> path_ok path ->
  vfs_unmount c MOUNTS path s =
    (let mount := fold_break (unmount_step path) ms (MOUNTS - MOUNT_NODE) in
     if (u32 (Z.of_nat (length ms)) =? 0) || (mount =? NULL) then
       on_mounts_lock (spinlock_unlock c);;;
       SET_ERROR "Tried to unmount non mount point" ENOTMOUNTPOINT;;;
       ret false
     else
       on_mount_links (list_del (mount + MOUNT_NODE));;;
       on_mounts_lock (spinlock_unlock c);;;
       on_fs (hp_kfree mount);;;
       modify (fun s => put_mounts (delete mount (v_mounts s)) s);;;
       ret true) (unmounting s).
Proof.
  intros [[Hv _] Hm Hf] Hp. unfold vfs_unmount. erewrite bind_ok by (by apply mounts_lock_run).
  erewrite bind_ok.
  2: { apply (for_each_mount_run MOUNTS _ ms _ (unmount_step path)); [apply Hv|]. intros x b Hx.
       pose proof (vl_mounts _ _ _ _ Hv) as Hmm. rewrite Forall_forall in Hmm. destruct (Hmm _ Hx) as [Em [Hpm _]].
       erewrite bind_ok by (unfold get_mount; simpl; by rewrite Em). erewrite bind_ok by (by apply str_eq_run).
       unfold ret, unmount_step. by destruct (bool_decide _). }
  erewrite bind_ok; [reflexivity|]. unfold on_mount_links, zoom. simpl.
  rewrite (list_size_run _ _ _ (vl_mlist _ _ _ _ Hv)), length_map. by destruct s.
Qed.

Lemma blocks_mount_middle m1 x m2 fl : blocks (m1 ++ x :: m2) fl ≡ₚ x.1 :: blocks (m1 ++ m2) fl.
Proof. unfold blocks. rewrite !fmap_app. simpl. solve_Permutation. Qed.

Lemma vfs_unmount_wp s m1 x m2 fl :
  vfs_inv s (m1 ++ x :: m2) fl -> Z.of_nat (length (m1 ++ x :: m2)) < 2 ^ 32 ->
  wpx fe_halts (vfs_unmount c MOUNTS (mount_point x.2)) (fun r s' =>
    r = true /\ v_if s' = v_if s /\ v_errors s' = v_errors s /\ vfs_inv s' (m1 ++ m2) fl) s.
Proof.
  intros Hinv Hlen. pose proof Hinv as [[Hv [Hnd Hi]] Hm Hf]. rewrite app_nil_r in Hnd, Hi.
  pose proof (vl_mounts _ _ _ _ Hv) as Hmm. rewrite Forall_forall in Hmm. destruct (Hmm x) as [_ [Hpx _]]; [set_solver|].
  eapply wpx_eq; [by eapply vfs_unmount_start|]. cbn zeta. pose proof (vl_points _ _ _ _ Hv) as Hn.
  rewrite map_app in Hn. simpl in Hn. pose proof Hn as (Hn1 & Hnd1 & [Hn2 Hn3]%NoDup_cons)%NoDup_app.
  rewrite unmount_hit by (intros H1; apply (Hnd1 _ H1); by left).
  destruct (fe_wf _ _ _ Hi) as [_ Hst]. destruct (Hst x.1) as [Hxn _].
  { apply elem_of_list_to_set. rewrite blocks_mount_middle. by left. }
  rewrite u32_id, (proj2 (Z.eqb_neq _ _) Hxn) by lia. rewrite length_app in *. simpl length in *.
  rewrite (proj2 (Z.eqb_neq (Z.of_nat _) 0)) by lia. cbn [orb]. rewrite blocks_mount_middle in Hnd.
  apply NoDup_cons in Hnd as [Hxb Hnd].
  pose proof (vl_mlist _ _ _ _ Hv) as Hd. rewrite map_app in Hd. simpl in Hd.
  apply wpx_bind, wpx_zoom, wpx_wp. eapply wp_mono; [apply (list_del_wp _ MOUNTS _ _ _ Hd)|]. intros [] ls (Hd' & _ & _).
  eapply wpx_bind_ok; [by apply mounts_unlock_run|]. apply wpx_bind.
  eapply (fs_kfree_wp _ (list_to_set (blocks (m1 ++ m2) fl))).
  - eapply fe_inv_sets; [exact Hi| |done]. by rewrite (list_to_set_perm_L _ _ (blocks_mount_middle m1 x m2 fl)).
  - by rewrite elem_of_list_to_set.
  - intros Hin. apply (privs_blocks (m1 ++ m2)), elem_of_list_to_set in Hin. done.
  - intros f1 Hf1. apply wpx_bind, wpx_wp, wp_modify, wpx_ret. split_and!; [done..|]. split; [|done|done].
    split; [|by rewrite app_nil_r]. eapply vlists_mounts; [exact Hv|done..| | |].
    + simpl. unfold mount_nodes. by rewrite map_app.
    + apply Forall_forall. intros y Hy. simpl. rewrite lookup_delete_ne; [apply Hmm; set_solver|].
      intros Ey. apply Hxb, elem_of_app. left. rewrite Ey. by apply list_elem_of_fmap_2.
    + unfold points. rewrite map_app. apply NoDup_app. split_and!; [done| |done]. intros y Hy Hy2. apply (Hnd1 y Hy). by right.
Qed.

(** Unmounting when nothing is mounted. *)
Lemma vfs_unmount_none s fl path :
  vfs_inv s [] fl -> path_ok path ->
  exists s', vfs_unmount c MOUNTS path s = Ok (false, s') /\ vfs_inv s' [] fl /\ v_if s' = v_if s /\
    v_errors s' = v_errors s ++ [mk_err "Tried to unmount non mount point" ENOTMOUNTPOINT
      ((lock (OPENED_FILES_LOCK s) =? 1))].
Proof.
  intros Hinv Hp. erewrite vfs_unmount_start by done. cbn zeta. change (u32 _ =? 0) with true. cbn [orb].
  erewrite bind_ok by (by apply mounts_unlock_run). eexists. split; [by erewrite bind_ok by reflexivity|].
  destruct Hinv as [[[] Hmem] Hm Hf]. split; [|done]. by split.
Qed.

(** Unmounting a path that is not mounted while something is: the list of
    mounts is emptied, and the memory in front of the list head is freed. *)
Lemma vfs_unmount_lost s ms fl path :
  vfs_inv s ms fl -> path_ok path -> ms <> [] -> path ∉ points ms -> MOUNTS <> MOUNT_NODE ->
  Z.of_nat (length ms) < 2 ^ 32 ->
  match hp_kfree (MOUNTS - MOUNT_NODE) (v_fs s) with
  | Ok (_, f') => exists s', vfs_unmount c MOUNTS path s = Ok (true, s') /\ v_fs s' = f' /\
      dll (v_mount_links s') MOUNTS [] /\ unlocked (MOUNTS_LOCK s')
  | Halt h => vfs_unmount c MOUNTS path s = Halt h
  end.
Proof.
  intros Hinv Hp Hne Hnin HM Hlen. erewrite vfs_unmount_start by done. cbn zeta.
  destruct (unmount_found ms path) as [[_ E]|(m1 & x & m2 & -> & E & _)].
  2: { destruct Hnin. unfold points. rewrite map_app. set_solver. }
  rewrite E, u32_id by lia. rewrite (proj2 (Z.eqb_neq (Z.of_nat _) 0)) by (destruct ms; [done|simpl; lia]).
  rewrite (proj2 (Z.eqb_neq _ _)) by (unfold NULL; lia). cbn [orb]. replace (MOUNTS - MOUNT_NODE + MOUNT_NODE) with MOUNTS by lia.
  pose proof (vl_mlist _ _ _ _ (vc_lists _ _ _ _ (vi_core _ _ _ Hinv))) as Hd.
  assert (Hw := list_del_head_wp _ _ _ Hd ltac:(by destruct ms)). apply wp_ok in Hw as ([] & ls & El & Hls).
  erewrite bind_ok by (unfold on_mount_links, zoom; simpl; by rewrite El).
  erewrite bind_ok by (by apply mounts_unlock_run).
  destruct (hp_kfree (MOUNTS - MOUNT_NODE) (v_fs s)) as [[[] f']|h] eqn:Ek.
  - erewrite bind_ok by (unfold on_fs, zoom; simpl; by rewrite Ek). eexists. split; [reflexivity|]. by split_and!.
  - apply bind_halt. unfold on_fs, zoom. simpl. by rewrite Ek.
Qed.

(** ** Reading and writing *)

(** [s'] is [s] after an operation of the file system on the file [o], whose
    lock was taken and released. *)
Definition passed_through s ms l1 o l2 (f' : F) s' : Prop :=
  exists l, rw_free l /\ vlists s' ms (l1 ++ mk_of (of_addr o) (of_path o) (with_lock l (of_file o)) :: l2) [] /\
    v_fs s' = f' /\ v_if s' = v_if s /\ MOUNTS_LOCK s' = MOUNTS_LOCK s /\ OPENED_FILES_LOCK s' = OPENED_FILES_LOCK s /\
    v_errors s' = v_errors s.

Lemma passed_through_intro s ms l1 o l2 f' s' l :
  vfs_inv s ms (l1 ++ o :: l2) -> rw_free l ->
  s' = put_fs f' (put_files (<[of_addr o := with_lock l (of_file o)]> (v_files s)) s) ->
  passed_through s ms l1 o l2 f' s'.
Proof.
  intros [Hc _ _] Hl ->. exists l. split; [done|]. split; [|done].
  pose proof (vl_files _ _ _ _ (vc_lists _ _ _ _ Hc)) as Hall. rewrite Forall_forall in Hall.
  destruct (Hall o) as (_ & _ & _ & _ & Hops); [set_solver|].
  pose proof (vl_counts _ _ _ _ (vc_lists _ _ _ _ Hc)) as Hct. rewrite Forall_forall in Hct. specialize (Hct o ltac:(set_solver)).
  destruct (vcore_update s (put_files (<[of_addr o := with_lock l (of_file o)]> (v_files s)) s) ms l1 o l2 (with_lock l (of_file o)) Hc)
    as [[] _]; [by split_and!|done|done|]. by split.
Qed.

(** [vfs_read] and [vfs_write] call the file system of the file and nothing
    else; the lock of the file is free again afterwards. *)
Lemma vfs_read_run s ms l1 o l2 op offset buf len :
  vfs_inv s ms (l1 ++ o :: l2) -> ops (of_file o) = Some op ->
  match op_read op (file_disk (of_file o)) (fs_private (of_file o)) offset buf len (v_fs s) with
  | Ok (r, f') => exists s', vfs_read c (of_addr o) offset buf len s = Ok (r, s') /\ passed_through s ms l1 o l2 f' s'
  | Halt h => vfs_read c (of_addr o) offset buf len s = Halt h
  end.
Proof.
  intros Hinv Eop. pose proof Hinv as [[Hv _] _ _]. pose proof (vl_files _ _ _ _ Hv) as Hall. rewrite Forall_forall in Hall.
  destruct (Hall o) as (F1 & _ & _ & F4 & _); [set_solver|]. destruct (file_lock (of_file o)) as [R n W] eqn:El.
  destruct F4 as (HR & HW & Hn). simpl in HR, HW, Hn. subst n. unfold vfs_read.
  erewrite bind_ok by (eapply on_file_rwlock_run; [exact F1|rewrite El; by apply rwlock_read_lock_run]).
  erewrite bind_ok by (unfold get_file; simpl; by rewrite lookup_insert_eq). 
  erewrite bind_ok by (cbn [ops with_lock]; rewrite Eop; reflexivity). cbn [file_disk fs_private with_lock].
  destruct (op_read op _ _ _ _ _ (v_fs s)) as [[r f']|h] eqn:Er.
  - erewrite bind_ok by (unfold on_fs, zoom; simpl; by rewrite Er).
    erewrite bind_ok by (eapply on_file_rwlock_run; [apply lookup_insert_eq|apply rwlock_read_unlock_run; done]).
    eexists. split; [reflexivity|].
    eapply passed_through_intro; [done| |simpl; unfold put_fs, put_files, put_locks; simpl; by rewrite insert_insert_eq].
    by split_and!.
  - apply bind_halt. unfold on_fs, zoom. simpl. by rewrite Er.
Qed.

Lemma vfs_write_run s ms l1 o l2 op offset buf len :
  vfs_inv s ms (l1 ++ o :: l2) -> ops (of_file o) = Some op ->
  match op_write op (file_disk (of_file o)) (fs_private (of_file o)) offset buf len (v_fs s) with
  | Ok (r, f') => exists s', vfs_write c (of_addr o) offset buf len s = Ok (r, s') /\ passed_through s ms l1 o l2 f' s'
  | Halt h => vfs_write c (of_addr o) offset buf len s = Halt h
  end.
Proof.
  intros Hinv Eop. pose proof Hinv as [[Hv _] _ _]. pose proof (vl_files _ _ _ _ Hv) as Hall. rewrite Forall_forall in Hall.
  destruct (Hall o) as (F1 & _ & _ & F4 & _); [set_solver|]. destruct (file_lock (of_file o)) as [R n W] eqn:El.
  destruct F4 as (HR & HW & Hn). simpl in HR, HW, Hn. subst n. unfold vfs_write.
  erewrite bind_ok by (eapply on_file_rwlock_run; [exact F1|rewrite El; by apply write_lock_run]).
  erewrite bind_ok by (unfold get_file; simpl; by rewrite lookup_insert_eq). 
  erewrite bind_ok by (cbn [ops with_lock]; rewrite Eop; reflexivity). cbn [file_disk fs_private with_lock].
  destruct (op_write op _ _ _ _ _ (v_fs s)) as [[r f']|h] eqn:Er.
  - erewrite bind_ok by (unfold on_fs, zoom; simpl; by rewrite Er).
    erewrite bind_ok by (eapply on_file_rwlock_run; [apply lookup_insert_eq|apply write_unlock_run]).
    eexists. split; [reflexivity|].
    eapply passed_through_intro; [done| |simpl; unfold put_fs, put_files, put_locks; simpl; by rewrite insert_insert_eq].
    by split_and!.
  - apply bind_halt. unfold on_fs, zoom. simpl. by rewrite Er.
Qed.

End Spec.
