(* ===== verification/VfsProps.v ===== *)
(** * Properties of the virtual file system, and USTAR under it

    The USTAR file system over any disks and any heap keeps what [FsEnv] asks
    of a file system; the properties of [vfs.c] are stated for any file system
    that does. *)

From S2P Require Import Prelude Math DList Spinlock ErrorCodes Kmalloc KHeap CMem RwLock Disk Fs Ustar Vfs VfsSpec.

(** ** USTAR keeps the promise *)

Section UstarEnv.
Context {D A : Type} `{HD : DiskLaws D} `{HA : HeapLaws A}.
(** The disks and the archives on them. *)
Context (disks : gmap Z (list entry)) (fuel : nat).

Abbreviation st := (ust D A).

#[export] Instance ust_heap : Heap st := {
  hp_kmalloc n := in_heap (hp_kmalloc n);
  hp_kfree p := in_heap (hp_kfree p) }.

Definition archives_on (f : st) : Prop :=
  forall k es, disks !! k = Some es -> exists d, u_disks f !! k = Some d /\ dk_ok d /\ dk_data d = archive es.

Definition ustar_inv (f : st) (L ps : gset Z) : Prop :=
  hp_live (u_heap f) L /\ ps ⊆ L /\ (NULL ∉ L) /\ dom (u_priv f) = ps /\ archives_on f.

Definition ustar_disk (k : Z) : Prop :=
  k <> NULL /\ exists es, disks !! k = Some es /\ Forall entry_ok es /\ (length es < fuel)%nat.

Lemma archives_on_read (f f' : st) k d d' :
  archives_on f -> u_disks f !! k = Some d -> u_disks f' = <[k := d']> (u_disks f) -> same_disk d d' -> archives_on f'.
Proof.
  intros Ha Hd E (Hok & _ & Edat & _) k' es Hk. destruct (Ha k' es Hk) as (d1 & Hd1 & Hok1 & Ed1). rewrite E.
  destruct (decide (k' = k)) as [->|Hne].
  - exists d'. rewrite lookup_insert_eq. split_and!; [done|done|]. congruence.
  - exists d1. by rewrite lookup_insert_ne by done.
Qed.

Lemma ustar_detect_wp (f : st) L ps k :
  ustar_inv f L ps -> ustar_disk k -> wpx out_of_memory (ustar_detect_fs k) (fun _ f' => ustar_inv f' L ps) f.
Proof.
  intros (Hl & Hps & Hn & Hdom & Ha) (_ & es & Hk & Hes & _). destruct (Ha _ _ Hk) as (d & Hd & Hok & Edat).
  assert (Hkeep : forall f', reads k d f f' -> hp_live (u_heap f') L -> ustar_inv f' L ps).
  { intros f' (E1 & d' & E2 & Hs) Hl'. split_and!; try done; [by rewrite E1|by eapply archives_on_read]. }
  unfold ustar_detect_fs. apply wpx_bind. destruct es as [|e es].
  - unfold archive in Edat. simpl in Edat. pose proof (read_header_end f k d L (replicate 512 0) Hd Hok Hl) as Hr.
    rewrite Edat in Hr. eapply wpx_mono; [by apply Hr|]. intros [ok h] f' (E & Hr' & Hl'). simpl in E. subst ok.
    apply wpx_ret. by apply Hkeep.
  - apply Forall_cons in Hes as [He _].
    eapply wpx_mono; [apply (read_header_wp f k d L [] (e_hdr e) ((e_data e ++ e_pad e) ++ archive es)); try done|].
    + rewrite Edat. change (archive (e :: es)) with (e_bytes e ++ archive es). unfold e_bytes. by rewrite <- app_assoc.
    + apply (eo_len _ He).
    + intros [ok h] f' ([= -> ->] & Hr' & Hl'). cbn [negb]. eapply wpx_bind_ok; [reflexivity|]. unfold wpx, strneq.
      rewrite (for_all_run _ _ (fun i => nth (Z.to_nat (257 + i)) (e_hdr e) 0 =? nth (Z.to_nat i) [117; 115; 116; 97; 114; 0] 0)).
      * by apply Hkeep.
      * intros i Hi5. assert (Hi : i ∈ range 0 5) by exact Hi5. apply elem_of_range in Hi. unfold HDR_indicator, rd_buf. rewrite !u32_id by lia.
        pose proof (eo_len _ He) as Hlen. destruct (lookup_lt_is_Some_2 (e_hdr e) (Z.to_nat (257 + i))) as [x Ex]; [lia|].
        destruct (lookup_lt_is_Some_2 [117; 115; 116; 97; 114; 0] (Z.to_nat (0 + i))) as [y Ey]; [simpl; lia|].
        rewrite Ex, (nth_lookup_Some _ _ _ _ Ex). rewrite Ey. replace (Z.to_nat i) with (Z.to_nat (0 + i)) by lia.
        by rewrite (nth_lookup_Some _ _ _ _ Ey).
Qed.

#[export] Instance ustar_env : FsEnv st [ustar_fs_ops fuel].
Proof.
  refine {| fe_inv := ustar_inv; fe_disk := ustar_disk; fe_halts := out_of_memory; fe_static := hp_static |}.
  - intros f L ps (Hl & Hps & Hn & _). split; [done|]. intros p Hp. split; [by intros ->|by eapply hp_live_static].
  - intros f L ps n (Hl & Hps & Hn & Hdom & Ha) Hs. apply wp_zoom.
    pose proof (hp_kmalloc_law _ L n Hl Hs) as H1. pose proof (hp_kmalloc_space _ L n Hl Hs) as H2. unfold wp in *.
    destruct (hp_kmalloc n (u_heap f)) as [[r a']|]; [|done]. destruct H1 as [[-> H1]|(Hr & Hnin & H1)].
    + left. by split_and!.
    + right. destruct H2 as [->|[H2 H3]]; [done|]. split_and!; try done.
      split_and!; try done; [set_solver|rewrite not_elem_of_union, not_elem_of_singleton; done].
  - intros f L ps p (Hl & Hps & Hn & Hdom & Ha) Hp Hpn. apply wp_zoom. eapply wp_mono; [by apply hp_kfree_law|].
    intros [] a' Hl'. split_and!; try done; set_solver.
  - intros fs f L ps k ->%list_elem_of_singleton Hi Hk. by apply ustar_detect_wp.
  - intros fs f L ps k rel path ->%list_elem_of_singleton (Hl & Hps & Hn & Hdom & Ha) (Hkn & es & Hk & Hes & Hf) Hrel Hp0 Hpl.
    destruct (Ha _ _ Hk) as (d & Hd & Hok & Edat).
    eapply wpx_mono; [by eapply (ustar_open_file_wp path L es fuel f k d rel)|]. intros r f' [(d' & E1 & Hs) Hr].
    assert (Ha' : archives_on f') by (by eapply archives_on_read). destruct (find_entry es path 0) as [[off e]|].
    + destruct Hr as (p & -> & Hpn & Hpf & Hl' & Hpr). split_and!; try done.
      split_and!; try done; [set_solver|rewrite not_elem_of_union, not_elem_of_singleton; done|].
      by rewrite Hpr, dom_insert_L, Hdom.
    + destruct Hr as (-> & Hl' & Hpr). split_and!; try done. by rewrite Hpr.
  - intros fs f L ps p ->%list_elem_of_singleton (Hl & Hps & Hn & Hdom & Ha) Hp. apply wpx_wp.
    assert (EL : {[p]} ∪ (L ∖ {[p]}) = L).
    { apply set_eq. intros x. specialize (Hps p Hp). destruct (decide (x = p)); set_solver. }
    eapply wp_mono; [apply (ustar_close_file_wp f (L ∖ {[p]}) p); [by rewrite EL|set_solver]|].
    intros [] f' (Hl' & E1 & E2). split_and!; [done|set_solver|set_solver|by rewrite E2, dom_delete_L, Hdom|].
    intros k es Hk. rewrite E1. by apply Ha.
Defined.

End UstarEnv.

(** ** Properties *)

Section Properties.
Context {F : Type} `{Heap F} (c MOUNTS OPENED_FILES : Z) (fss : list (fs_ops F)) {HE : FsEnv F fss}.
Abbreviation vst := (vfs F).
Implicit Types (s : vst) (ms : list (Z * mount)) (fl : list (ofile F)).

Hypothesis MOUNTS_static : fe_static (MOUNTS - MOUNT_NODE).
Hypothesis OPENED_FILES_static : fe_static (OPENED_FILES - FILE_NODE).

Abbreviation inv := (vfs_inv MOUNTS OPENED_FILES fss).

(** [x] is the mount of the file: the one with the longest mount point that is
    a prefix of its path. *)
Definition mount_of ms (path : list Z) (x : Z * mount) : Prop :=
  x ∈ ms /\ is_prefix (mount_point x.2) path = true /\
  forall y, y ∈ ms -> is_prefix (mount_point y.2) path = true ->
    (length (mount_point y.2) <= length (mount_point x.2))%nat.

Lemma inv_mounts s ms fl :
  inv s ms fl -> Forall (fun x => x.1 <> NULL /\ mount_point x.2 <> []) ms.
Proof.
  intros [Hc _ _]. pose proof Hc as [Hv [_ Hi]]. pose proof (vl_mounts _ _ _ _ _ _ _ Hv) as Hm.
  rewrite Forall_forall in *. intros x Hx. split; [|by apply Hm]. destruct (fe_wf _ _ _ Hi) as [_ Hst].
  apply Hst, elem_of_list_to_set, elem_of_app. left. by apply list_elem_of_fmap_2.
Qed.

Lemma best_mount_of s ms fl path x :
  inv s ms fl -> x ∈ ms -> x.1 = (best_mount ms path).1 -> mount_of ms path x.
Proof.
  intros Hi Hx E. pose proof (inv_mounts _ _ _ Hi) as Hm. pose proof (best_mount_spec ms path Hm) as Hb.
  cbn zeta in Hb. rewrite Forall_forall in Hm. rewrite <- E in Hb. rewrite decide_False in Hb by (by apply Hm).
  destruct Hb as (y & Hy & Ey & Hp & Hmax). replace x with y; [by split_and!|].
  destruct Hi as [[Hv _] _ _]. pose proof (vl_mounts _ _ _ _ _ _ _ Hv) as Hvm. rewrite Forall_forall in Hvm.
  destruct (Hvm _ Hx) as [E1 _]. destruct (Hvm _ Hy) as [E2 _]. rewrite Ey, E1 in E2. destruct x, y; simpl in *. congruence.
Qed.

Lemma best_mount_none s ms fl path :
  inv s ms fl -> (best_mount ms path).1 = NULL <-> forall x, x ∈ ms -> is_prefix (mount_point x.2) path = false.
Proof.
  intros Hi. pose proof (best_mount_spec ms path (inv_mounts _ _ _ Hi)) as Hb. cbn zeta in Hb. split.
  - intros E. by rewrite E, decide_True in Hb by done.
  - intros Hno. destruct (decide _) as [E|E] in Hb; [done|]. destruct Hb as (x & Hx & _ & Hp & _).
    by rewrite Hno in Hp by done.
Qed.

Lemma init_vfs_run s :
  fe_inv (v_fs s) ∅ ∅ -> unlocked (MOUNTS_LOCK s) -> unlocked (OPENED_FILES_LOCK s) ->
  exists s', init_vfs MOUNTS OPENED_FILES s = Ok (tt, s') /\ inv s' [] [].
Proof.
  intros Hi Hm Hf. eexists. split; [reflexivity|]. split; [|done|done].
  split; [|split; [constructor|done]].
  split; simpl; first [apply list_init_dll|constructor].
Qed.

(** C35: Mounting and unmounting, with no other processor in the kernel.
    [init_vfs] starts with nothing mounted and no open file.  Mounting on a
    path that does not start and end with a slash stops the kernel; otherwise
    [vfs_mount] either adds exactly one mount for a mount point that was not
    in use, or reports an error and changes nothing, the block it allocated
    included.  Unmounting a mount point removes that mount only and frees its
    block; unmounting when nothing is mounted reports an error. *)
Theorem vfs_mount_correct s ms fl disk target :
  inv s ms fl -> path_ok target -> fe_disk disk -> Z.of_nat (length ms) < 2 ^ 32 ->
  (fe_inv (v_fs s) ∅ ∅ -> exists s', init_vfs MOUNTS OPENED_FILES s = Ok (tt, s') /\ inv s' [] []) /\
  (if valid_target target then
     match vfs_mount c MOUNTS fss disk target s with
     | Ok (r, s') => v_if s' = v_if s /\
         if r : bool then v_errors s' = v_errors s /\ (target ∉ points ms) /\
           exists a i, inv s' (ms ++ [(a, mk_mount target disk i)]) fl
         else inv s' ms fl /\ exists e, v_errors s' = v_errors s ++ [e]
     | Halt h => fe_halts h
     end
   else vfs_mount c MOUNTS fss disk target s = Halt (Panic "mount_target_is_valid(target)")) /\
  (forall m1 x m2, ms = m1 ++ x :: m2 ->
     match vfs_unmount c MOUNTS (mount_point x.2) s with
     | Ok (r, s') => r = true /\ v_if s' = v_if s /\ v_errors s' = v_errors s /\ inv s' (m1 ++ m2) fl
     | Halt h => fe_halts h
     end) /\
  (ms = [] -> exists s' e, vfs_unmount c MOUNTS target s = Ok (false, s') /\ inv s' [] fl /\
     v_errors s' = v_errors s ++ [e]).
Proof.
  intros Hi Hp Hd Hlen. split_and!.
  - intros H0. by apply init_vfs_run, (vi_flock _ _ _ _ _ _ Hi); [|apply (vi_mlock _ _ _ _ _ _ Hi)].
  - destruct (valid_target target) eqn:E.
    + assert (Hw := vfs_mount_wp c MOUNTS OPENED_FILES fss MOUNTS_static OPENED_FILES_static s ms fl disk target Hi Hp E Hd).
      unfold wpx in Hw. destruct (vfs_mount _ _ _ _ _ _) as [[r s']|h]; [|done].
      destruct Hw as [? [(-> & ? & ?)|(-> & ? & ? & ?)]]; by split.
    + unfold vfs_mount. erewrite bind_ok by (by apply valid_target_run). by rewrite E.
  - intros m1 x m2 ->. by apply (vfs_unmount_wp c MOUNTS OPENED_FILES fss).
  - intros ->. destruct (vfs_unmount_none c MOUNTS OPENED_FILES fss s fl target Hi Hp) as (s' & E1 & E2 & _ & E3).
    by exists s', (mk_err "Tried to unmount non mount point" ENOTMOUNTPOINT (lock (OPENED_FILES_LOCK s) =? 1)).
Qed.

(** C33: Opening a file, with no other processor in the kernel.  A path that
    is open already gives the file that is open, with one more reference.
    Otherwise [vfs_open] either reports an error, returns [NULL] and leaves
    nothing behind, or adds one file, with one reference, on the disk of the
    mount with the longest mount point that is a prefix of the path. *)
Theorem vfs_open_correct s ms fl filename :
  inv s ms fl -> path_ok filename -> Forall (fun o => count_of o < 2 ^ 31 - 1) fl ->
  match vfs_open c MOUNTS OPENED_FILES fss filename s with
  | Ok (r, s') => v_if s' = v_if s /\
      ((exists l1 o l2, fl = l1 ++ o :: l2 /\ of_path o = filename /\ r = of_addr o /\ v_errors s' = v_errors s /\
          inv s' ms (l1 ++ recount o (count_of o + 1) :: l2)) \/
       ((filename ∉ map of_path fl) /\ r = NULL /\ inv s' ms fl /\ exists e, v_errors s' = v_errors s ++ [e]) \/
       ((filename ∉ map of_path fl) /\ r <> NULL /\ v_errors s' = v_errors s /\ exists o x, inv s' ms (o :: fl) /\
          of_addr o = r /\ of_path o = filename /\ count_of o = 1 /\
          mount_of ms filename x /\ file_disk (of_file o) = mount_disk x.2))
  | Halt h => fe_halts h
  end.
Proof.
  intros Hi Hp Hct. assert (Hw := vfs_open_wp c MOUNTS OPENED_FILES fss MOUNTS_static OPENED_FILES_static s ms fl filename Hi Hp Hct).
  unfold wpx in Hw. destruct (vfs_open _ _ _ _ _ _) as [[r s']|h]; [|done].
  destruct Hw as [Hif [Hw|[Hn [Hw|(Hr & He & o & x & Ho & Ea & Ep & Hx & Ex & Ed & Ec)]]]]; split; try done.
  - by left.
  - right. left. destruct Hw as (? & ? & ?). by split_and!.
  - right. right. split_and!; [done..|]. exists o, x. split_and!; try done. by eapply best_mount_of.
Qed.

(** C34: Closing a file, with no other processor in the kernel.  A file with
    more than one reference loses one.  The last reference removes the file
    and frees its three blocks, unless no mount is left for its path: then the
    kernel stops on an assertion. *)
Theorem vfs_close_correct s ms l1 o l2 :
  inv s ms (l1 ++ o :: l2) ->
  (1 < count_of o \/ (exists x, x ∈ ms /\ is_prefix (mount_point x.2) (of_path o) = true) ->
   match vfs_close c MOUNTS OPENED_FILES fss (of_addr o) s with
   | Ok (_, s') => v_if s' = v_if s /\ v_errors s' = v_errors s /\
       inv s' ms (if count_of o =? 1 then l1 ++ l2 else l1 ++ recount o (count_of o - 1) :: l2)
   | Halt h => fe_halts h
   end) /\
  (count_of o = 1 -> (forall x, x ∈ ms -> is_prefix (mount_point x.2) (of_path o) = false) ->
   vfs_close c MOUNTS OPENED_FILES fss (of_addr o) s = Halt (Panic "mount")).
Proof.
  intros Hi. split.
  - intros Hor. apply vfs_close_wp; try done. destruct Hor as [?|(x & Hx & Hp)]; [by left|right].
    intros E. rewrite best_mount_none in E by done. by rewrite E in Hp by done.
  - intros E Hno. eapply vfs_close_unmounted; [done|done|exact Hi|done|]. by eapply best_mount_none.
Qed.


End Properties.

(** ** A mounted archive with one open file *)

Definition disks0 : gmap Z (list entry) := {[1 := small_archive]}.
Definition fss0 : list (fs_ops (ust memdisk_data counting)) := [ustar_fs_ops 3].

#[local] Instance env0 : FsEnv (ust memdisk_data counting) fss0 := ustar_env disks0 3.

Definition no_lock : spinlock_t := mk_spinlock 0 true NO_OWNER.
Definition file0 (count : Z) : ofile (ust memdisk_data counting) :=
  mk_of 0x1080 [47; 97]
    (mk_file 0x1100 0x1101 1 (mk_rwlock no_lock 0 no_lock) (Some ustar_file_ops) 0x1200 (mk_atomic count)).
Definition mount0 : Z * mount := (0x1000, mk_mount [47] 1 0).

Definition vfs0 (count : Z) : vfs (ust memdisk_data counting) :=
  mk_vfs {[0x100 := mk_node 0x100c 0x100c; 0x100c := mk_node 0x100 0x100]}
    {[0x200 := mk_node 0x10a0 0x10a0; 0x10a0 := mk_node 0x200 0x200]}
    {[0x1000 := mk_mount [47] 1 0]} {[0x1080 := of_file (file0 count)]} {[0x1100 := [47; 97]]}
    no_lock no_lock true []
    (mk_ust {[1 := archive_disk false]} {[0x1200 := mk_private 0 (e_hdr file_a)]}
       (mk_counting 0x2000 {[0x1000; 0x1080; 0x1100; 0x1200]} false)).

Lemma small_path (p : list Z) : bool_decide (0 ∉ p) = true -> (Z.of_nat (length p) <? MAX_SMALL) = true -> path_ok p.
Proof. intros H1%bool_decide_eq_true H2%Z.ltb_lt. done. Qed.

Lemma disk0 : fe_disk 1.
Proof.
  split; [discriminate|]. exists small_archive. split_and!; [reflexivity| |simpl; lia].
  repeat (apply Forall_cons; split; [apply file_a_ok || apply file_b_ok|]). constructor.
Qed.

Lemma vfs0_inv count : 1 <= count < 2 ^ 31 -> vfs_inv 0x100 0x200 fss0 (vfs0 count) [mount0] [file0 count].
Proof.
  intros Hc. split; [|done|done]. split; [split|split].
  - split; [|by apply (bool_decide_unpack _)]. repeat split; by eexists.
  - apply Forall_singleton. split; [done|]. split_and!; [by apply small_path|done|apply disk0|simpl; lia].
  - apply NoDup_singleton.
  - split; [|by apply (bool_decide_unpack _)]. repeat split; by eexists.
  - apply Forall_singleton. split_and!; [done|done|by apply small_path|done|by eexists].
  - by apply Forall_singleton.
  - constructor.
  - apply NoDup_singleton.
  - by apply (bool_decide_unpack _).
  - split_and!.
    + split_and!; [reflexivity|simpl; lia|]. intros p Hp. cbn in Hp. set_unfold in Hp. simpl. lia.
    + cbn. set_solver.
    + cbn. set_solver.
    + reflexivity.
    + intros k es Hk. unfold disks0 in Hk. apply lookup_singleton_Some in Hk as [<- <-]. exists (archive_disk false). split_and!; [reflexivity|apply archive_disk_ok|reflexivity].
Qed.

Lemma static0 : fe_static (0x100 - MOUNT_NODE) /\ fe_static (0x200 - FILE_NODE).
Proof. by split; left. Qed.

(** Mounting the disk a second time under another path. *)
Lemma vfs_mount_correct_witness :
  match vfs_mount 0 0x100 fss0 1 [47; 98; 47] (vfs0 1) with
  | Ok (r, s') => r = true /\ exists a i,
      vfs_inv 0x100 0x200 fss0 s' [mount0; (a, mk_mount [47; 98; 47] 1 i)] [file0 1]
  | Halt _ => False
  end.
Proof.
  destruct static0 as [H1 H2].
  destruct (vfs_mount_correct 0 0x100 0x200 fss0 H1 H2 (vfs0 1) [mount0] [file0 1] 1 [47; 98; 47]
    (vfs0_inv 1 ltac:(lia)) ltac:(by apply small_path) disk0 ltac:(simpl; lia)) as (_ & H & _).
  assert (E : match vfs_mount 0 0x100 fss0 1 [47; 98; 47] (vfs0 1) with Ok (r, _) => r | Halt _ => false end = true)
    by (vm_compute; reflexivity).
  cbn [valid_target hd List.last Z.eqb andb Pos.eqb] in H.
  destruct (vfs_mount _ _ _ _ _ _) as [[r s']|h]; [|discriminate]. subst r. split; [done|].
  destruct H as (_ & _ & _ & a & i & H). by exists a, i.
Defined.

(** Opening a second file. *)
Lemma vfs_open_correct_witness :
  match vfs_open 0 0x100 0x200 fss0 [47; 100; 47; 98] (vfs0 1) with
  | Ok (r, s') => exists o, vfs_inv 0x100 0x200 fss0 s' [mount0] [o; file0 1] /\ of_addr o = r /\ count_of o = 1
  | Halt _ => False
  end.
Proof.
  destruct static0 as [H1 H2].
  assert (H := vfs_open_correct 0 0x100 0x200 fss0 H1 H2 (vfs0 1) [mount0] [file0 1] [47; 100; 47; 98]
    (vfs0_inv 1 ltac:(lia)) ltac:(by apply small_path) ltac:(apply Forall_singleton; cbn; lia)).
  assert (E : match vfs_open 0 0x100 0x200 fss0 [47; 100; 47; 98] (vfs0 1) with Ok (r, _) => negb (r =? NULL) | Halt _ => false end = true)
    by (vm_compute; reflexivity).
  destruct (vfs_open _ _ _ _ _ _) as [[r s']|h]; [|discriminate].
  destruct H as [_ [(l1 & o & l2 & Hl & Ho & _)|[(_ & -> & _)|(_ & _ & _ & o & x & Hi & <- & _ & Hc & _)]]].
  - destruct l1 as [|o1 [|o2 l1]]; [|discriminate..]. injection Hl as <- <-. discriminate.
  - discriminate.
  - by exists o.
Defined.

(** Closing one of two references, and the last reference. *)
Lemma vfs_close_correct_witness :
  match vfs_close 0 0x100 0x200 fss0 0x1080 (vfs0 2) with
  | Ok (_, s') => vfs_inv 0x100 0x200 fss0 s' [mount0] [file0 1]
  | Halt _ => False
  end /\
  match vfs_close 0 0x100 0x200 fss0 0x1080 (vfs0 1) with
  | Ok (_, s') => vfs_inv 0x100 0x200 fss0 s' [mount0] []
  | Halt _ => False
  end.
Proof.
  destruct static0 as [H1 H2]. split.
  - destruct (vfs_close_correct 0 0x100 0x200 fss0 H1 H2 (vfs0 2) [mount0] [] (file0 2) [] (vfs0_inv 2 ltac:(lia))) as [H _].
    assert (E : is_ok (vfs_close 0 0x100 0x200 fss0 0x1080 (vfs0 2)) = true) by (vm_compute; reflexivity).
    specialize (H ltac:(left; cbn; lia)). change (of_addr (file0 2)) with 0x1080 in H.
    destruct (vfs_close _ _ _ _ _ _) as [[r s']|h]; [|discriminate]. apply H.
  - destruct (vfs_close_correct 0 0x100 0x200 fss0 H1 H2 (vfs0 1) [mount0] [] (file0 1) [] (vfs0_inv 1 ltac:(lia))) as [H _].
    assert (E : is_ok (vfs_close 0 0x100 0x200 fss0 0x1080 (vfs0 1)) = true) by (vm_compute; reflexivity).
    specialize (H ltac:(right; exists mount0; split; [by left|reflexivity])). change (of_addr (file0 1)) with 0x1080 in H.
    destruct (vfs_close _ _ _ _ _ _) as [[r s']|h]; [|discriminate]. apply H.
Defined.

