(* ===== verification/Segmentation.v ===== *)
(** * Segmentation and per-cpu variables: [src/segmentation.c], [src/percpu.c],
    [src/percpu.h], [src/cpu_impl.c]

    The descriptor tables are lists of 64-bit descriptors.  A segment register
    is a selector with the descriptor the processor read when the selector was
    loaded; loading one checks what the processor checks in ring 0, and traps
    where it raises an exception.  The variables of a cpu are a record at the
    address of its area, found through the base of the segment in GS.

    The addresses the linker chooses are the record [linker]; the heap is any
    [Heap].  [c] is the cpu that runs the code. *)

From S2P Require Import Prelude Math Bits Kmalloc KHeap Percpu.

(** ** Descriptors and selectors *)

Inductive segment_granularity := BYTES | PAGES.
Inductive segment_type := DATA | CODE.

Definition granularity_value (g : segment_granularity) : Z := match g with BYTES => 0 | PAGES => 1 end.
Definition type_value (t : segment_type) : Z := match t with DATA => 1 | CODE => 5 end.

Record segment_descriptor_t := mk_sd {
  limit_15_0 : Z;
  base_15_0 : Z;
  base_23_16 : Z;
  accessed : Z;
  type : Z;
  system : Z;
  privilege_level : Z;
  present : Z;
  limit_19_16 : Z;
  avail : Z;
  is_64_bit_segment : Z;
  operation_size : Z;
  granularity : Z;
  base_31_24 : Z }.

Definition sd_fields (d : segment_descriptor_t) : list field :=
  [(16, limit_15_0 d); (16, base_15_0 d); (8, base_23_16 d); (1, accessed d); (3, type d); (1, system d);
   (2, privilege_level d); (1, present d); (4, limit_19_16 d); (1, avail d); (1, is_64_bit_segment d);
   (1, operation_size d); (1, granularity d); (8, base_31_24 d)].

(** The [value] member of the union. *)
Definition sd_value (d : segment_descriptor_t) : Z := pack (sd_fields d).

Definition sd_of_value (v : Z) : segment_descriptor_t :=
  mk_sd (bits 0 16 v) (bits 16 16 v) (bits 32 8 v) (bits 40 1 v) (bits 41 3 v) (bits 44 1 v) (bits 45 2 v)
    (bits 47 1 v) (bits 48 4 v) (bits 52 1 v) (bits 53 1 v) (bits 54 1 v) (bits 55 1 v) (bits 56 8 v).

Record tss_descriptor := mk_td {
  td_limit_15_0 : Z;
  td_base_15_0 : Z;
  td_base_23_16 : Z;
  td_type : Z;
  td_zero : Z;
  td_privilege_level : Z;
  td_present : Z;
  td_limit_19_16 : Z;
  td_avail : Z;
  td_zero2 : Z;
  td_granularity : Z;
  td_base_31_24 : Z }.

Definition td_value (d : tss_descriptor) : Z :=
  pack [(16, td_limit_15_0 d); (16, td_base_15_0 d); (8, td_base_23_16 d); (4, td_type d); (1, td_zero d);
        (2, td_privilege_level d); (1, td_present d); (4, td_limit_19_16 d); (1, td_avail d); (2, td_zero2 d);
        (1, td_granularity d); (8, td_base_31_24 d)].

Definition td_of_value (v : Z) : tss_descriptor :=
  mk_td (bits 0 16 v) (bits 16 16 v) (bits 32 8 v) (bits 40 4 v) (bits 44 1 v) (bits 45 2 v) (bits 47 1 v)
    (bits 48 4 v) (bits 52 1 v) (bits 53 2 v) (bits 55 1 v) (bits 56 8 v).

Definition SIZEOF_TSS : Z := 104.

Definition GDT_ENTRY (base : Z) (gran : segment_granularity) (limit : Z) (ty : segment_type) (dpl : Z) : Z :=
  sd_value (mk_sd (Z.land limit 0x0000FFFF) (Z.land base 0x0000FFFF) (Z.shiftr (Z.land base 0x00FF0000) 16)
    0 (type_value ty) 1 dpl 1 (Z.shiftr (Z.land limit 0x000F0000) 16) 0 0 1 (granularity_value gran)
    (Z.shiftr (Z.land base 0xFF000000) 24)).

Definition GDT_NULL_ENTRY : Z := 0.

Definition GDT_TSS_ENTRY (tss_addr : Z) : Z :=
  td_value (mk_td (Z.land SIZEOF_TSS 0x0000FFFF) (Z.land tss_addr 0x0000FFFF)
    (Z.shiftr (Z.land tss_addr 0x00FF0000) 16) 9 0 0 1 (Z.shiftr (Z.land SIZEOF_TSS 0x000F0000) 16) 0 0 0
    (Z.shiftr (Z.land tss_addr 0xFF000000) 24)).

(** [union segment_selector_t] *)
Definition SEG_SEL (idx rpl : Z) : Z := pack [(2, rpl); (1, 0); (13, idx)].
Definition sel_rpl (sel : Z) : Z := bits 0 2 sel.
Definition sel_is_local (sel : Z) : Z := bits 2 1 sel.
Definition sel_index (sel : Z) : Z := bits 3 13 sel.

(** What the processor makes of a descriptor: its base, and its last byte. *)
Definition seg_base (v : Z) : Z :=
  let d := sd_of_value v in base_15_0 d + Z.shiftl (base_23_16 d) 16 + Z.shiftl (base_31_24 d) 24.
Definition seg_limit (v : Z) : Z :=
  let d := sd_of_value v in
  let l := limit_15_0 d + Z.shiftl (limit_19_16 d) 16 in
  if granularity d =? 1 then Z.shiftl l 12 + 0xFFF else l.

(** ** State *)

Record seg_reg := mk_sr { sr_sel : Z; sr_desc : Z }.

Record tss := mk_tss {
  prev_task : Z;
  esp0 : Z; ss0 : Z;
  esp1 : Z; ss1 : Z;
  esp2 : Z; ss2 : Z;
  tss_cr3 : Z;
  tss_eip : Z; tss_eflags : Z;
  tss_eax : Z; tss_ecx : Z; tss_edx : Z; tss_ebx : Z; tss_esp : Z; tss_ebp : Z; tss_esi : Z; tss_edi : Z;
  tss_es : Z; tss_cs : Z; tss_ss : Z; tss_ds : Z; tss_fs : Z; tss_gs : Z;
  ldt_segment_sel : Z;
  debug_trap : Z;
  io_map_base_addr : Z }.

(** A TSS of zeros. *)
Definition tss0 : tss := mk_tss 0 0 0 0 0 0 0 0 0 0 0 0 0 0 0 0 0 0 0 0 0 0 0 0 0 0 0.

(** The registers of one cpu. *)
Record cpu_regs := mk_cpu {
  gdtr_limit : Z;
  gdtr_base : Z;
  r_cs : seg_reg; r_ds : seg_reg; r_es : seg_reg; r_fs : seg_reg; r_gs : seg_reg; r_ss : seg_reg;
  r_tr : seg_reg;
  r_cr3 : Z;
  r_eip : Z;
  r_if : bool;
  r_paging : bool }.

(** The variables of one cpu that this code uses. *)
Record percpu := mk_percpu {
  this_cpu_off : Z;
  pc_cpu_id : Z;
  kernel_stack : Z;
  pc_tss : tss;
  preempt_count : Z;
  sched_running : bool;
  curr_addr_space : Z }.

Definition percpu0 : percpu := mk_percpu 0 0 0 tss0 0 false 0.

Record linker := mk_linker {
  BOOT_GDT_addr : Z;
  DOUBLE_FAULT_TASK_addr : Z;
  DOUBLE_FAULT_TASK_DEFAULT_STACK_addr : Z;
  interrupt_handler_8 : Z;
  stack_top : Z;
  SECTION_PERCPU_START_ADDR : Z;
  SECTION_PERCPU_SIZE : Z;
  VAR_OFFSET_this_cpu_off : Z;
  VAR_OFFSET_tss : Z;
  KERNEL_ADDR_SPACE_addr : Z }.

Record segst (A : Type) := mk_segst {
  BOOT_GDT : list Z;
  GDT : Z;
  GDT_SIZE : Z;
  gdt_table : list Z;
  cpus : gmap Z cpu_regs;
  areas : gmap Z percpu;
  PER_CPU_OFFSETS : Z;
  per_cpu_offsets : list Z;
  DOUBLE_FAULT_TASK : tss;
  DOUBLE_FAULT_TASK_DEFAULT_STACK : list Z;
  NCPUS : Z;
  page_dir_phy_addr : Z;
  sg_heap : A }.
Arguments mk_segst {A}.
Arguments BOOT_GDT {A}.
Arguments GDT {A}.
Arguments GDT_SIZE {A}.
Arguments gdt_table {A}.
Arguments cpus {A}.
Arguments areas {A}.
Arguments PER_CPU_OFFSETS {A}.
Arguments per_cpu_offsets {A}.
Arguments DOUBLE_FAULT_TASK {A}.
Arguments DOUBLE_FAULT_TASK_DEFAULT_STACK {A}.
Arguments NCPUS {A}.
Arguments page_dir_phy_addr {A}.
Arguments sg_heap {A}.

Section Setters.
Context {A : Type}.
Abbreviation st := (segst A).

Definition put_boot_gdt (x : list Z) (s : st) : st :=
  mk_segst x (GDT s) (GDT_SIZE s) (gdt_table s) (cpus s) (areas s) (PER_CPU_OFFSETS s) (per_cpu_offsets s)
    (DOUBLE_FAULT_TASK s) (DOUBLE_FAULT_TASK_DEFAULT_STACK s) (NCPUS s) (page_dir_phy_addr s) (sg_heap s).
Definition put_gdt (a n : Z) (x : list Z) (s : st) : st :=
  mk_segst (BOOT_GDT s) a n x (cpus s) (areas s) (PER_CPU_OFFSETS s) (per_cpu_offsets s)
    (DOUBLE_FAULT_TASK s) (DOUBLE_FAULT_TASK_DEFAULT_STACK s) (NCPUS s) (page_dir_phy_addr s) (sg_heap s).
Definition put_cpus (x : gmap Z cpu_regs) (s : st) : st :=
  mk_segst (BOOT_GDT s) (GDT s) (GDT_SIZE s) (gdt_table s) x (areas s) (PER_CPU_OFFSETS s) (per_cpu_offsets s)
    (DOUBLE_FAULT_TASK s) (DOUBLE_FAULT_TASK_DEFAULT_STACK s) (NCPUS s) (page_dir_phy_addr s) (sg_heap s).
Definition put_areas (x : gmap Z percpu) (s : st) : st :=
  mk_segst (BOOT_GDT s) (GDT s) (GDT_SIZE s) (gdt_table s) (cpus s) x (PER_CPU_OFFSETS s) (per_cpu_offsets s)
    (DOUBLE_FAULT_TASK s) (DOUBLE_FAULT_TASK_DEFAULT_STACK s) (NCPUS s) (page_dir_phy_addr s) (sg_heap s).
Definition put_offsets (a : Z) (x : list Z) (s : st) : st :=
  mk_segst (BOOT_GDT s) (GDT s) (GDT_SIZE s) (gdt_table s) (cpus s) (areas s) a x
    (DOUBLE_FAULT_TASK s) (DOUBLE_FAULT_TASK_DEFAULT_STACK s) (NCPUS s) (page_dir_phy_addr s) (sg_heap s).
Definition put_df_task (x : tss) (y : list Z) (s : st) : st :=
  mk_segst (BOOT_GDT s) (GDT s) (GDT_SIZE s) (gdt_table s) (cpus s) (areas s) (PER_CPU_OFFSETS s) (per_cpu_offsets s)
    x y (NCPUS s) (page_dir_phy_addr s) (sg_heap s).
Definition put_heap (x : A) (s : st) : st :=
  mk_segst (BOOT_GDT s) (GDT s) (GDT_SIZE s) (gdt_table s) (cpus s) (areas s) (PER_CPU_OFFSETS s) (per_cpu_offsets s)
    (DOUBLE_FAULT_TASK s) (DOUBLE_FAULT_TASK_DEFAULT_STACK s) (NCPUS s) (page_dir_phy_addr s) x.

End Setters.

Definition set_gdtr (l b : Z) (r : cpu_regs) : cpu_regs :=
  mk_cpu l b (r_cs r) (r_ds r) (r_es r) (r_fs r) (r_gs r) (r_ss r) (r_tr r) (r_cr3 r) (r_eip r) (r_if r) (r_paging r).
Definition set_cs (x : seg_reg) (r : cpu_regs) : cpu_regs :=
  mk_cpu (gdtr_limit r) (gdtr_base r) x (r_ds r) (r_es r) (r_fs r) (r_gs r) (r_ss r) (r_tr r) (r_cr3 r) (r_eip r)
    (r_if r) (r_paging r).
Definition set_ds (x : seg_reg) (r : cpu_regs) : cpu_regs :=
  mk_cpu (gdtr_limit r) (gdtr_base r) (r_cs r) x (r_es r) (r_fs r) (r_gs r) (r_ss r) (r_tr r) (r_cr3 r) (r_eip r)
    (r_if r) (r_paging r).
Definition set_es (x : seg_reg) (r : cpu_regs) : cpu_regs :=
  mk_cpu (gdtr_limit r) (gdtr_base r) (r_cs r) (r_ds r) x (r_fs r) (r_gs r) (r_ss r) (r_tr r) (r_cr3 r) (r_eip r)
    (r_if r) (r_paging r).
Definition set_fs (x : seg_reg) (r : cpu_regs) : cpu_regs :=
  mk_cpu (gdtr_limit r) (gdtr_base r) (r_cs r) (r_ds r) (r_es r) x (r_gs r) (r_ss r) (r_tr r) (r_cr3 r) (r_eip r)
    (r_if r) (r_paging r).
Definition set_gs (x : seg_reg) (r : cpu_regs) : cpu_regs :=
  mk_cpu (gdtr_limit r) (gdtr_base r) (r_cs r) (r_ds r) (r_es r) (r_fs r) x (r_ss r) (r_tr r) (r_cr3 r) (r_eip r)
    (r_if r) (r_paging r).
Definition set_ss (x : seg_reg) (r : cpu_regs) : cpu_regs :=
  mk_cpu (gdtr_limit r) (gdtr_base r) (r_cs r) (r_ds r) (r_es r) (r_fs r) (r_gs r) x (r_tr r) (r_cr3 r) (r_eip r)
    (r_if r) (r_paging r).
Definition set_tr (x : seg_reg) (r : cpu_regs) : cpu_regs :=
  mk_cpu (gdtr_limit r) (gdtr_base r) (r_cs r) (r_ds r) (r_es r) (r_fs r) (r_gs r) (r_ss r) x (r_cr3 r) (r_eip r)
    (r_if r) (r_paging r).
Definition set_cr3 (x : Z) (r : cpu_regs) : cpu_regs :=
  mk_cpu (gdtr_limit r) (gdtr_base r) (r_cs r) (r_ds r) (r_es r) (r_fs r) (r_gs r) (r_ss r) (r_tr r) x (r_eip r)
    (r_if r) (r_paging r).
Definition set_eip (x : Z) (r : cpu_regs) : cpu_regs :=
  mk_cpu (gdtr_limit r) (gdtr_base r) (r_cs r) (r_ds r) (r_es r) (r_fs r) (r_gs r) (r_ss r) (r_tr r) (r_cr3 r) x
    (r_if r) (r_paging r).
Definition set_if (x : bool) (r : cpu_regs) : cpu_regs :=
  mk_cpu (gdtr_limit r) (gdtr_base r) (r_cs r) (r_ds r) (r_es r) (r_fs r) (r_gs r) (r_ss r) (r_tr r) (r_cr3 r) (r_eip r)
    x (r_paging r).

Definition with_tss (t : tss) (a : percpu) : percpu :=
  mk_percpu (this_cpu_off a) (pc_cpu_id a) (kernel_stack a) t (preempt_count a) (sched_running a) (curr_addr_space a).
Definition with_preempt_count (n : Z) (a : percpu) : percpu :=
  mk_percpu (this_cpu_off a) (pc_cpu_id a) (kernel_stack a) (pc_tss a) n (sched_running a) (curr_addr_space a).
Definition with_curr_addr_space (x : Z) (a : percpu) : percpu :=
  mk_percpu (this_cpu_off a) (pc_cpu_id a) (kernel_stack a) (pc_tss a) (preempt_count a) (sched_running a) x.
Definition with_cpu_id (x : Z) (a : percpu) : percpu :=
  mk_percpu (this_cpu_off a) x (kernel_stack a) (pc_tss a) (preempt_count a) (sched_running a) (curr_addr_space a).
Definition with_kernel_stack (x : Z) (a : percpu) : percpu :=
  mk_percpu (this_cpu_off a) (pc_cpu_id a) x (pc_tss a) (preempt_count a) (sched_running a) (curr_addr_space a).
Definition with_this_cpu_off (x : Z) (a : percpu) : percpu :=
  mk_percpu x (pc_cpu_id a) (kernel_stack a) (pc_tss a) (preempt_count a) (sched_running a) (curr_addr_space a).
Definition with_esp0 (x : Z) (t : tss) : tss :=
  mk_tss (prev_task t) x (ss0 t) (esp1 t) (ss1 t) (esp2 t) (ss2 t) (tss_cr3 t) (tss_eip t) (tss_eflags t) (tss_eax t)
    (tss_ecx t) (tss_edx t) (tss_ebx t) (tss_esp t) (tss_ebp t) (tss_esi t) (tss_edi t) (tss_es t) (tss_cs t) (tss_ss t)
    (tss_ds t) (tss_fs t) (tss_gs t) (ldt_segment_sel t) (debug_trap t) (io_map_base_addr t).

(** The accessed bit, which the processor sets when it loads a segment, and
    the type of a TSS descriptor, whose bit 1 says that the task is busy. *)
Definition set_accessed (v : Z) : Z :=
  let d := sd_of_value v in
  sd_value (mk_sd (limit_15_0 d) (base_15_0 d) (base_23_16 d) 1 (type d) (system d) (privilege_level d) (present d)
    (limit_19_16 d) (avail d) (is_64_bit_segment d) (operation_size d) (granularity d) (base_31_24 d)).
Definition set_tss_type (t v : Z) : Z :=
  let d := td_of_value v in
  td_value (mk_td (td_limit_15_0 d) (td_base_15_0 d) (td_base_23_16 d) t (td_zero d) (td_privilege_level d)
    (td_present d) (td_limit_19_16 d) (td_avail d) (td_zero2 d) (td_granularity d) (td_base_31_24 d)).

(** The checks of the processor in ring 0, for a descriptor with a selector
    that is not null. *)
Definition is_code (d : segment_descriptor_t) : bool := (system d =? 1) && Z.testbit (type d) 2.
Definition is_data (d : segment_descriptor_t) : bool := (system d =? 1) && negb (Z.testbit (type d) 2).
Definition loadable_code (sel : Z) (d : segment_descriptor_t) : bool :=
  is_code d && negb (Z.testbit (type d) 1) && (privilege_level d =? 0) && (sel_rpl sel =? 0) && (present d =? 1).
Definition loadable_data (sel : Z) (d : segment_descriptor_t) : bool :=
  (is_data d || is_code d && Z.testbit (type d) 0) && (sel_rpl sel <=? privilege_level d) && (present d =? 1).
Definition loadable_stack (sel : Z) (d : segment_descriptor_t) : bool :=
  is_data d && Z.testbit (type d) 0 && (privilege_level d =? 0) && (sel_rpl sel =? 0) && (present d =? 1).

Section Ops.
Context {A : Type} `{Heap A} (lk : linker) (c : Z).
Abbreviation st := (segst A).

(** ** The processor *)

Definition get_regs : M st cpu_regs := fun s => must (cpus s !! c) "cpu" s.
Definition mod_regs (f : cpu_regs -> cpu_regs) : M st unit :=
  do r <- get_regs; modify (fun s => put_cpus (<[c := f r]> (cpus s)) s).

(** The boot GDT is in memory at its virtual and at its physical address. *)
Definition is_boot_gdt (a : Z) : bool := (a =? BOOT_GDT_addr lk) || (a =? to_phys (BOOT_GDT_addr lk)).
Definition table_at (a : Z) (s : st) : option (list Z) :=
  if is_boot_gdt a then Some (BOOT_GDT s)
  else if negb (a =? NULL) && (a =? GDT s) then Some (gdt_table s) else None.
Definition put_table (a : Z) (l : list Z) (s : st) : st :=
  if is_boot_gdt a then put_boot_gdt l s else put_gdt (GDT s) (GDT_SIZE s) l s.

Definition read_descriptor (sel : Z) : M st Z :=
  do r <- get_regs;
  if negb (sel_is_local sel =? 0) || (gdtr_limit r <? 8 * sel_index sel + 7) then halt_with (Trap "#GP")
  else fun s => must (l ← table_at (gdtr_base r) s; l !! Z.to_nat (sel_index sel)) "GDT" s.
Definition write_descriptor (sel v : Z) : M st unit :=
  do r <- get_regs;
  fun s => match table_at (gdtr_base r) s with
           | Some l => Ok (tt, put_table (gdtr_base r) (<[Z.to_nat (sel_index sel) := v]> l) s)
           | None => Halt (Trap "GDT")
           end.

Definition load_segment (ok : segment_descriptor_t -> bool) (set : seg_reg -> cpu_regs -> cpu_regs) (sel : Z) : M st unit :=
  do v <- read_descriptor sel;
  if negb (ok (sd_of_value v)) then halt_with (Trap "#GP")
  else
    write_descriptor sel (set_accessed v);;;
    mod_regs (set (mk_sr sel (set_accessed v))).

Definition null_sel (sel : Z) : bool := (sel_index sel =? 0) && (sel_is_local sel =? 0).

Definition cpu_set_cs (sel : Z) : M st unit :=
  if null_sel sel then halt_with (Trap "#GP") else load_segment (loadable_code sel) set_cs sel.
Definition cpu_set_data (set : seg_reg -> cpu_regs -> cpu_regs) (sel : Z) : M st unit :=
  if null_sel sel then mod_regs (set (mk_sr sel 0)) else load_segment (loadable_data sel) set sel.
Definition cpu_set_ds (sel : Z) : M st unit := cpu_set_data set_ds sel.
Definition cpu_set_es (sel : Z) : M st unit := cpu_set_data set_es sel.
Definition cpu_set_fs (sel : Z) : M st unit := cpu_set_data set_fs sel.
Definition cpu_set_gs (sel : Z) : M st unit := cpu_set_data set_gs sel.
Definition cpu_set_ss (sel : Z) : M st unit :=
  if null_sel sel then halt_with (Trap "#GP") else load_segment (loadable_stack sel) set_ss sel.

Definition cpu_ltr (sel : Z) : M st unit :=
  do v <- read_descriptor sel;
  let d := td_of_value v in
  if negb ((td_type d =? 9) && (td_zero d =? 0) && (td_present d =? 1)) then halt_with (Trap "#GP")
  else
    write_descriptor sel (set_tss_type 11 v);;;
    mod_regs (set_tr (mk_sr sel (set_tss_type 11 v))).

Definition cpu_lgdt (limit base : Z) : M st unit := mod_regs (set_gdtr limit base).
Definition cpu_apic_id : M st Z := ret (u8 c).

(** ** percpu.h *)

(** The area of the boot cpu is in memory at its virtual and at its physical
    address. *)
Definition area_key (a : Z) : Z :=
  if a =? to_phys (SECTION_PERCPU_START_ADDR lk) then SECTION_PERCPU_START_ADDR lk else a.
Definition get_area (a : Z) : M st percpu := fun s => must (areas s !! area_key a) "percpu area" s.
Definition mod_area (a : Z) (f : percpu -> percpu) : M st unit :=
  do x <- get_area a; modify (fun s => put_areas (<[area_key a := f x]> (areas s)) s).

(** [%gs:_VAR_OFFSET(this_cpu_off)] *)
Definition _read_void_ptr_at_offset : M st Z :=
  do r <- get_regs;
  if null_sel (sr_sel (r_gs r)) || (seg_limit (sr_desc (r_gs r)) <? VAR_OFFSET_this_cpu_off lk + 3)
  then halt_with (Trap "#GP")
  else do x <- get_area (seg_base (sr_desc (r_gs r))); ret (this_cpu_off x).

Definition read_this {B} (f : percpu -> B) : M st B :=
  do p <- _read_void_ptr_at_offset; do x <- get_area p; ret (f x).
Definition write_this (f : percpu -> percpu) : M st unit :=
  do p <- _read_void_ptr_at_offset; mod_area p f.

#[export] Instance seg_cpu_vars : CpuVars st := {
  interrupts_enabled := do r <- get_regs; ret (r_if r);
  cpu_set_interrupt_flag b := mod_regs (set_if b);
  cpu_read_gs := do r <- get_regs; ret (sr_sel (r_gs r));
  read_preempt_count := read_this preempt_count;
  write_preempt_count n := write_this (with_preempt_count n);
  read_sched_running := read_this sched_running }.

(** [cpu_var(var, cpu)] *)
Definition cpu_off (cpu : Z) : M st Z := fun s =>
  if PER_CPU_OFFSETS s =? NULL then Halt (Trap "PER_CPU_OFFSETS")
  else must (per_cpu_offsets s !! Z.to_nat cpu) "PER_CPU_OFFSETS" s.
Definition cpu_var {B} (f : percpu -> B) (cpu : Z) : M st B :=
  do p <- cpu_off cpu; do x <- get_area p; ret (f x).
Definition set_cpu_var (f : percpu -> percpu) (cpu : Z) : M st unit :=
  do p <- cpu_off cpu; mod_area p f.

Context (schedule : M st unit).

(** ** cpu_impl.c *)

Definition cpu_id : M st Z :=
  do gs <- cpu_read_gs;
  if negb (gs =? 0) then
    preempt_disable;;;
    do cpu <- this_cpu_var (read_this pc_cpu_id);
    preempt_enable schedule;;;
    ret cpu
  else cpu_apic_id.

Definition acpi_get_number_cpus : M st Z :=
  do n <- gets NCPUS; ASSERT (negb (n =? 0)) "NCPUS";;; ret n.

(** ** segmentation.c *)

Definition BOOT_GDT_KDATA_IDX : Z := 1.
Definition BOOT_GDT_KCODE_IDX : Z := 2.
Definition BOOT_GDT_BSP_PC_IDX : Z := 3.

Definition BOOT_GDT_init : list Z :=
  [GDT_NULL_ENTRY; GDT_ENTRY 0x40000000 PAGES 0xFFFFF DATA 0; GDT_ENTRY 0x40000000 PAGES 0xFFFFF CODE 0; GDT_NULL_ENTRY].

Definition GDT_KDATA_IDX : Z := 1.
Definition GDT_KCODE_IDX : Z := 2.
Definition GDT_UDATA_IDX : Z := 3.
Definition GDT_UCODE_IDX : Z := 4.
Definition GDT_DOUBLE_FAULT_TASK_IDX : Z := 5.
Definition GDT_PERCPU_IDX (cpu : Z) : Z := 6 + cpu.
Definition GDT_TSS_IDX (cpu : Z) : M st Z := do n <- acpi_get_number_cpus; ret (6 + n + cpu).

(** [BOOT_GDT[i] = v] and [GDT[i] = v] *)
Definition set_boot_gdt (i v : Z) : M st unit :=
  modify (fun s => put_boot_gdt (<[Z.to_nat i := v]> (BOOT_GDT s)) s).
Definition set_gdt (i v : Z) : M st unit := fun s =>
  if bool_decide (Z.to_nat i < length (gdt_table s))%nat
  then Ok (tt, put_gdt (GDT s) (GDT_SIZE s) (<[Z.to_nat i := v]> (gdt_table s)) s)
  else Halt (Trap "GDT").

Definition load_gdt (gdt size : Z) : M st unit :=
  ASSERT (negb (gdt =? NULL)) "gdt";;;
  cpu_lgdt (u16 (size - 1)) gdt.

Definition set_segment_regs (code_seg data_seg pcpu_seg : Z) : M st unit :=
  cpu_set_cs code_seg;;;
  cpu_set_ds data_seg;;;
  cpu_set_es data_seg;;;
  cpu_set_fs data_seg;;;
  cpu_set_ss data_seg;;;
  cpu_set_gs pcpu_seg.

(** [segmentation_asm.S]; the far jump to the target. *)
Definition set_higher_half_segments (code_seg data_seg pcpu_seg target : Z) : M st unit :=
  cpu_set_ds data_seg;;;
  cpu_set_es data_seg;;;
  cpu_set_fs data_seg;;;
  cpu_set_ss data_seg;;;
  cpu_set_gs pcpu_seg;;;
  cpu_set_cs code_seg;;;
  mod_regs (set_eip target).

(** The state when the execution reaches the target. *)
Definition init_segmentation (target : Z) : M st unit :=
  ASSERT (KERNEL_PHY_OFFSET <=? target) "(uint32_t)target >= (uint32_t)KERNEL_PHY_OFFSET";;;
  let gdt_phy := to_phys (BOOT_GDT_addr lk) in
  let base := to_phys (SECTION_PERCPU_START_ADDR lk) in
  let limit := u16 (SECTION_PERCPU_SIZE lk) in
  set_boot_gdt BOOT_GDT_BSP_PC_IDX (GDT_ENTRY base BYTES limit DATA 0);;;
  load_gdt gdt_phy (4 * 8);;;
  let kdata := SEG_SEL BOOT_GDT_KDATA_IDX 0 in
  let kcode := SEG_SEL BOOT_GDT_KCODE_IDX 0 in
  let percpu := SEG_SEL BOOT_GDT_BSP_PC_IDX 0 in
  set_higher_half_segments kcode kdata percpu target.

Definition fixup_gdt_after_paging_enable : M st unit :=
  do r <- get_regs;
  ASSERT (gdtr_base r =? to_phys (BOOT_GDT_addr lk)) "gdtr.base == to_phys(&BOOT_GDT)";;;
  set_boot_gdt BOOT_GDT_KDATA_IDX (GDT_ENTRY 0x0 PAGES 0xFFFFF DATA 0);;;
  set_boot_gdt BOOT_GDT_KCODE_IDX (GDT_ENTRY 0x0 PAGES 0xFFFFF CODE 0);;;
  let base := SECTION_PERCPU_START_ADDR lk in
  let limit := u16 (SECTION_PERCPU_SIZE lk) in
  set_boot_gdt BOOT_GDT_BSP_PC_IDX (GDT_ENTRY base BYTES limit DATA 0);;;
  let kdata := SEG_SEL BOOT_GDT_KDATA_IDX 0 in
  let kcode := SEG_SEL BOOT_GDT_KCODE_IDX 0 in
  let percpu := SEG_SEL BOOT_GDT_BSP_PC_IDX 0 in
  set_segment_regs kcode kdata percpu;;;
  load_gdt (BOOT_GDT_addr lk) (4 * 8).

(** [switch_to_addr_space(get_kernel_addr_space())] of addr_space.c *)
Definition switch_to_kernel_addr_space : M st unit :=
  do dir <- gets page_dir_phy_addr;
  ASSERT (negb (dir =? NULL)) "addr_space->page_dir_phy_addr";;;
  do irqs <- interrupts_enabled;
  cpu_set_interrupt_flag false;;;
  this_cpu_var (write_this (with_curr_addr_space (KERNEL_ADDR_SPACE_addr lk)));;;
  mod_regs (set_cr3 dir);;;
  cpu_set_interrupt_flag irqs.

Definition ap_init_segmentation : M st unit :=
  do gdt <- gets GDT;
  when (gdt =? NULL) (panic "Final GDT has not been allocated before waking APs.");;;
  do size <- gets GDT_SIZE;
  load_gdt gdt (size * 8);;;
  do cpu <- cpu_apic_id;
  let kdata := SEG_SEL GDT_KDATA_IDX 0 in
  let kcode := SEG_SEL GDT_KCODE_IDX 0 in
  let percpu := SEG_SEL (GDT_PERCPU_IDX cpu) 0 in
  set_segment_regs kcode kdata percpu;;;
  switch_to_kernel_addr_space.

Definition kernel_data_selector : Z := SEG_SEL GDT_KDATA_IDX 0.
Definition kernel_code_selector : Z := SEG_SEL GDT_KCODE_IDX 0.
Definition user_code_seg_sel : Z := SEG_SEL GDT_UCODE_IDX 3.
Definition user_data_seg_sel : Z := SEG_SEL GDT_UDATA_IDX 3.

Definition init_double_fault_interrupt_task : M st unit :=
  do r <- get_regs;
  let esp := u32 (DOUBLE_FAULT_TASK_DEFAULT_STACK_addr lk + 128) in
  let kcode := kernel_code_selector in
  let kdata := kernel_data_selector in
  modify (put_df_task
    (mk_tss 0 0 0 0 0 0 0 (r_cr3 r) (interrupt_handler_8 lk) 0 0 0 0 0 esp 0 0 0 kdata kcode kdata kdata kdata 0 0 0 0)
    (replicate 128 0)).

Definition set_percpu_entry (i : Z) : M st unit :=
  do base <- cpu_var this_cpu_off i;
  set_gdt (GDT_PERCPU_IDX i) (GDT_ENTRY base BYTES (SECTION_PERCPU_SIZE lk) DATA 0).

Definition init_final_gdt : M st unit :=
  do offsets <- gets PER_CPU_OFFSETS;
  when (offsets =? NULL) (panic "Percpu areas were not allocated prior to the final GDT");;;
  do n <- acpi_get_number_cpus;
  let ncpus := u8 n in
  let size := 6 + 2 * ncpus in
  do gdt <- zoom sg_heap put_heap (hp_kmalloc (size * 8));
  modify (put_gdt gdt size (replicate (Z.to_nat size) 0));;;
  when (gdt =? NULL) (panic "Cannot allocate final GDT");;;
  set_gdt GDT_KDATA_IDX (GDT_ENTRY 0x0 PAGES 0xFFFFF DATA 0);;;
  set_gdt GDT_KCODE_IDX (GDT_ENTRY 0x0 PAGES 0xFFFFF CODE 0);;;
  set_gdt GDT_UDATA_IDX (GDT_ENTRY 0x0 PAGES 0xFFFFF DATA 3);;;
  set_gdt GDT_UCODE_IDX (GDT_ENTRY 0x0 PAGES 0xFFFFF CODE 3);;;
  set_gdt GDT_DOUBLE_FAULT_TASK_IDX (GDT_TSS_ENTRY (DOUBLE_FAULT_TASK_addr lk));;;
  init_double_fault_interrupt_task;;;
  for_each (range 0 ncpus) set_percpu_entry;;;
  load_gdt gdt (size * 8);;;
  do cpu <- cpu_id;
  let kdata := SEG_SEL GDT_KDATA_IDX 0 in
  let kcode := SEG_SEL GDT_KCODE_IDX 0 in
  let percpu := SEG_SEL (GDT_PERCPU_IDX cpu) 0 in
  set_segment_regs kcode kdata percpu.

Definition setup_tss : M st unit :=
  do cpu <- cpu_id;
  do area <- this_cpu_var _read_void_ptr_at_offset;
  mod_area area (with_tss tss0);;;
  do stack <- this_cpu_var (read_this kernel_stack);
  do r <- get_regs;
  mod_area area (with_tss (mk_tss 0 stack (sr_sel (r_ss r)) 0 0 0 0 0 0 0 0 0 0 0 0 0 0 0 0 0 0 0 0 0 0 0 0));;;
  do tss_index <- GDT_TSS_IDX cpu;
  set_gdt tss_index (GDT_TSS_ENTRY (u32 (area + VAR_OFFSET_tss lk)));;;
  cpu_ltr (SEG_SEL tss_index 0).

Definition set_segment_registers_for_kernel : M st unit :=
  do cpu <- cpu_apic_id;
  let kdata := SEG_SEL GDT_KDATA_IDX 0 in
  let kcode := SEG_SEL GDT_KCODE_IDX 0 in
  let percpu := SEG_SEL (GDT_PERCPU_IDX cpu) 0 in
  set_segment_regs kcode kdata percpu.

Definition change_tss_esp0 (new_esp0 : Z) : M st unit :=
  this_cpu_var (write_this (fun a => with_tss (with_esp0 new_esp0 (pc_tss a)) a)).

Definition get_tss_esp0 (cpu : Z) : M st Z := cpu_var (fun a => esp0 (pc_tss a)) cpu.

Definition reset_double_fault_task_busy_bit : M st unit := fun s =>
  match gdt_table s !! Z.to_nat GDT_DOUBLE_FAULT_TASK_IDX with
  | Some v => set_gdt GDT_DOUBLE_FAULT_TASK_IDX (set_tss_type 9 v) s
  | None => Halt (Trap "GDT")
  end.

(** ** percpu.c *)

Definition allocate_area (i : Z) : M st unit :=
  do me <- cpu_id;
  if i =? me then
    do off <- this_cpu_var (read_this this_cpu_off);
    modify (fun s => put_offsets (PER_CPU_OFFSETS s) (<[Z.to_nat i := off]> (per_cpu_offsets s)) s)
  else
    do area <- zoom sg_heap put_heap (hp_kmalloc (SECTION_PERCPU_SIZE lk));
    when (area =? NULL) (panic "Cannot allocate percpu area for cpu");;;
    modify (fun s => put_areas (<[area_key area := percpu0]> (areas s)) s);;;
    modify (fun s => put_offsets (PER_CPU_OFFSETS s) (<[Z.to_nat i := area]> (per_cpu_offsets s)) s);;;
    set_cpu_var (with_this_cpu_off area) i;;;
    set_cpu_var (with_cpu_id i) i.

Definition allocate_aps_percpu_areas : M st unit :=
  do n <- acpi_get_number_cpus;
  let ncpus := u8 n in
  do offsets <- zoom sg_heap put_heap (hp_kmalloc (ncpus * 4));
  modify (put_offsets offsets (replicate (Z.to_nat ncpus) 0));;;
  when (offsets =? NULL) (panic "Cannot allocate percpu metadata");;;
  for_each (range 0 ncpus) allocate_area.

Definition init_bsp_boot_percpu : M st unit :=
  do r <- get_regs;
  ASSERT (negb (r_paging r)) "!cpu_paging_enabled()";;;
  ASSERT (KERNEL_PHY_OFFSET <? r_eip r) "in_higher_half()";;;
  let base := SECTION_PERCPU_START_ADDR lk in
  mod_area base (with_this_cpu_off base);;;
  do id <- cpu_apic_id;
  this_cpu_var (write_this (with_cpu_id id));;;
  this_cpu_var (write_this (with_kernel_stack (stack_top lk))).

End Ops.

(** The trampoline of the application processors: [struct ap_boot_data_frame]
    of smp.h. *)
Record ap_boot_data_frame := mk_frame {
  gdt_desc_limit : Z;
  gdt_desc_base : Z;
  frame_gdt : list Z;
  page_dir_addr : Z;
  wake_up_target : Z;
  kernel_stacks : list Z }.

Definition initialize_trampoline_gdt (data_frame : Z) (f : ap_boot_data_frame) : ap_boot_data_frame :=
  mk_frame (3 * 8 - 1) (u32 (data_frame + 6))
    [GDT_NULL_ENTRY; GDT_ENTRY 0x0 PAGES 0xFFFFF DATA 0; GDT_ENTRY 0x0 PAGES 0xFFFFF CODE 0]
    (page_dir_addr f) (wake_up_target f) (kernel_stacks f).
