(* ===== verification/SegmentationSpec.v ===== *)
(** * Correctness of segmentation and per-cpu variables

    The descriptors say what the arguments of [GDT_ENTRY] and [GDT_TSS_ENTRY]
    say; the boot GDT maps the higher half; the final GDT gives every cpu flat
    segments and a segment for its own variables. *)

From S2P Require Import Prelude Math Bits Kmalloc KHeap Percpu Segmentation.

(** ** Descriptors *)

(** Every field is as wide as its bit field. *)
Definition sd_ok (d : segment_descriptor_t) : Prop := Forall (fun f => 0 <= f.2 < 2 ^ f.1) (sd_fields d).

Lemma sd_of_sd_value d :
  sd_of_value (sd_value d) =
    mk_sd (limit_15_0 d mod 2 ^ 16) (base_15_0 d mod 2 ^ 16) (base_23_16 d mod 2 ^ 8) (accessed d mod 2 ^ 1)
      (type d mod 2 ^ 3) (system d mod 2 ^ 1) (privilege_level d mod 2 ^ 2) (present d mod 2 ^ 1)
      (limit_19_16 d mod 2 ^ 4) (avail d mod 2 ^ 1) (is_64_bit_segment d mod 2 ^ 1) (operation_size d mod 2 ^ 1)
      (granularity d mod 2 ^ 1) (base_31_24 d mod 2 ^ 8).
Proof.
  assert (Hw : widths_ok (map fst (sd_fields d))) by by apply widths_okb.
  unfold sd_of_value, sd_value.
  rewrite (bits_pack_nth _ 0 0 16 _ Hw eq_refl eq_refl), (bits_pack_nth _ 1 16 16 _ Hw eq_refl eq_refl),
    (bits_pack_nth _ 2 32 8 _ Hw eq_refl eq_refl), (bits_pack_nth _ 3 40 1 _ Hw eq_refl eq_refl),
    (bits_pack_nth _ 4 41 3 _ Hw eq_refl eq_refl), (bits_pack_nth _ 5 44 1 _ Hw eq_refl eq_refl),
    (bits_pack_nth _ 6 45 2 _ Hw eq_refl eq_refl), (bits_pack_nth _ 7 47 1 _ Hw eq_refl eq_refl),
    (bits_pack_nth _ 8 48 4 _ Hw eq_refl eq_refl), (bits_pack_nth _ 9 52 1 _ Hw eq_refl eq_refl),
    (bits_pack_nth _ 10 53 1 _ Hw eq_refl eq_refl), (bits_pack_nth _ 11 54 1 _ Hw eq_refl eq_refl),
    (bits_pack_nth _ 12 55 1 _ Hw eq_refl eq_refl), (bits_pack_nth _ 13 56 8 _ Hw eq_refl eq_refl).
  done.
Qed.

(** The code or data segment with a base, a limit and so on, and its accessed
    bit. *)
Definition seg_entry (a base : Z) (gran : segment_granularity) (limit : Z) (ty : segment_type) (dpl : Z) : Z :=
  sd_value (mk_sd (bits 0 16 limit) (bits 0 16 base) (bits 16 8 base) a (type_value ty) 1 dpl 1 (bits 16 4 limit)
    0 0 1 (granularity_value gran) (bits 24 8 base)).

Lemma GDT_ENTRY_eq base gran limit ty dpl : GDT_ENTRY base gran limit ty dpl = seg_entry 0 base gran limit ty dpl.
Proof.
  assert (H16 : forall v, Z.land v 0xFFFF = bits 0 16 v).
  { intros v. rewrite <- (shift_mask 0 16 v 0xFFFF) by done. by rewrite Z.shiftr_0_r. }
  unfold GDT_ENTRY, seg_entry. rewrite !H16.
  by rewrite (shift_mask 16 8 base), (shift_mask 24 8 base), (shift_mask 16 4 limit) by done.
Qed.

Lemma sd_of_seg_entry a base gran limit ty dpl : 0 <= a < 2 -> 0 <= dpl < 4 ->
  sd_of_value (seg_entry a base gran limit ty dpl) =
    mk_sd (bits 0 16 limit) (bits 0 16 base) (bits 16 8 base) a (type_value ty) 1 dpl 1 (bits 16 4 limit)
      0 0 1 (granularity_value gran) (bits 24 8 base).
Proof.
  intros Ha Hd. unfold seg_entry. rewrite sd_of_sd_value. simpl. rewrite !bits_mod by done.
  rewrite (Z.mod_small a) by lia. rewrite (Z.mod_small dpl) by lia. by destruct ty, gran.
Qed.

(** A 32-bit address from its three parts. *)
Lemma base_join v : 0 <= v < 2 ^ 32 ->
  bits 0 16 v + Z.shiftl (bits 16 8 v) 16 + Z.shiftl (bits 24 8 v) 24 = v.
Proof.
  intros Hv. rewrite !Z.shiftl_mul_pow2 by done.
  pose proof (bits_join 0 16 8 v ltac:(done) ltac:(done) ltac:(done)) as E1.
  pose proof (bits_all 24 8 v ltac:(done) ltac:(done)) as E2. rewrite (Z.mod_small v) in E2 by done.
  change (0 + 16) with 16 in E1. change (16 + 8) with 24 in E1. lia.
Qed.

Lemma seg_base_entry a base gran limit ty dpl : 0 <= a < 2 -> 0 <= dpl < 4 -> 0 <= base < 2 ^ 32 ->
  seg_base (seg_entry a base gran limit ty dpl) = base.
Proof.
  intros Ha Hd Hb. unfold seg_base. rewrite sd_of_seg_entry by done. simpl.
  by apply base_join.
Qed.

Lemma seg_limit_entry a base gran limit ty dpl : 0 <= a < 2 -> 0 <= dpl < 4 -> 0 <= limit < 2 ^ 20 ->
  seg_limit (seg_entry a base gran limit ty dpl) = match gran with BYTES => limit | PAGES => limit * 4096 + 4095 end.
Proof.
  intros Ha Hd Hl. unfold seg_limit. rewrite sd_of_seg_entry by done. simpl.
  pose proof (bits_all 16 4 limit ltac:(done) ltac:(done)) as E. rewrite (Z.mod_small limit) in E by done.
  rewrite !Z.shiftl_mul_pow2 by done. destruct gran; simpl; lia.
Qed.

Lemma set_accessed_entry a base gran limit ty dpl : 0 <= a < 2 -> 0 <= dpl < 4 ->
  set_accessed (seg_entry a base gran limit ty dpl) = seg_entry 1 base gran limit ty dpl.
Proof. intros Ha Hd. unfold set_accessed. by rewrite sd_of_seg_entry by done. Qed.

(** The TSS descriptor with a type. *)
Definition tss_entry (t addr : Z) : Z :=
  td_value (mk_td 104 (bits 0 16 addr) (bits 16 8 addr) t 0 0 1 0 0 0 0 (bits 24 8 addr)).

Lemma GDT_TSS_ENTRY_eq addr : GDT_TSS_ENTRY addr = tss_entry 9 addr.
Proof.
  unfold GDT_TSS_ENTRY, tss_entry. rewrite (shift_mask 16 8 addr), (shift_mask 24 8 addr) by done.
  rewrite <- (shift_mask 0 16 addr 0xFFFF), Z.shiftr_0_r by done. done.
Qed.

Lemma td_of_tss_entry t addr : 0 <= t < 16 ->
  td_of_value (tss_entry t addr) = mk_td 104 (bits 0 16 addr) (bits 16 8 addr) t 0 0 1 0 0 0 0 (bits 24 8 addr).
Proof.
  intros Ht. unfold td_of_value, tss_entry, td_value. set (fs := [(16, _); _; _; _; _; _; _; _; _; _; _; _]).
  assert (Hw : widths_ok (map fst fs)) by by apply widths_okb.
  rewrite (bits_pack_nth fs 0 0 16 _ Hw eq_refl eq_refl), (bits_pack_nth fs 1 16 16 _ Hw eq_refl eq_refl),
    (bits_pack_nth fs 2 32 8 _ Hw eq_refl eq_refl), (bits_pack_nth fs 3 40 4 _ Hw eq_refl eq_refl),
    (bits_pack_nth fs 4 44 1 _ Hw eq_refl eq_refl), (bits_pack_nth fs 5 45 2 _ Hw eq_refl eq_refl),
    (bits_pack_nth fs 6 47 1 _ Hw eq_refl eq_refl), (bits_pack_nth fs 7 48 4 _ Hw eq_refl eq_refl),
    (bits_pack_nth fs 8 52 1 _ Hw eq_refl eq_refl), (bits_pack_nth fs 9 53 2 _ Hw eq_refl eq_refl),
    (bits_pack_nth fs 10 55 1 _ Hw eq_refl eq_refl), (bits_pack_nth fs 11 56 8 _ Hw eq_refl eq_refl).
  cbn [td_limit_15_0 td_base_15_0 td_base_23_16 td_type td_zero td_privilege_level td_present td_limit_19_16 td_avail
    td_zero2 td_granularity td_base_31_24]. rewrite !bits_mod by done. by rewrite (Z.mod_small t) by lia.
Qed.

Lemma set_tss_type_entry t t' addr : 0 <= t < 16 -> set_tss_type t' (tss_entry t addr) = tss_entry t' addr.
Proof. intros Ht. unfold set_tss_type. by rewrite td_of_tss_entry. Qed.

Lemma seg_base_tss t addr : 0 <= t < 16 -> 0 <= addr < 2 ^ 32 -> seg_base (tss_entry t addr) = addr.
Proof.
  intros Ht Hb. pose proof (td_of_tss_entry t addr Ht) as E. injection E as _ E1 E2 _ _ _ _ _ _ _ _ E3.
  unfold seg_base. cbn [sd_of_value base_15_0 base_23_16 base_31_24]. rewrite E1, E2, E3.
  by apply base_join.
Qed.

Lemma seg_limit_tss t addr : 0 <= t < 16 -> seg_limit (tss_entry t addr) = 104.
Proof.
  intros Ht. pose proof (td_of_tss_entry t addr Ht) as E. injection E as E1 _ _ _ _ _ _ E2 _ _ E3 _.
  unfold seg_limit. cbn [sd_of_value limit_15_0 limit_19_16 granularity]. by rewrite E1, E2, E3.
Qed.

Lemma SEG_SEL_fields idx rpl : 0 <= idx < 2 ^ 13 -> 0 <= rpl < 4 ->
  sel_index (SEG_SEL idx rpl) = idx /\ sel_rpl (SEG_SEL idx rpl) = rpl /\ sel_is_local (SEG_SEL idx rpl) = 0.
Proof.
  intros Hi Hr. unfold SEG_SEL, sel_index, sel_rpl, sel_is_local. set (fs := [_; _; _]).
  assert (Hw : widths_ok (map fst fs)) by by apply widths_okb.
  rewrite (bits_pack_nth fs 2 3 13 _ Hw eq_refl eq_refl), (bits_pack_nth fs 0 0 2 _ Hw eq_refl eq_refl),
    (bits_pack_nth fs 1 2 1 _ Hw eq_refl eq_refl). rewrite (Z.mod_small idx) by done. by rewrite (Z.mod_small rpl) by (simpl; lia).
Qed.

(** ** Tables

    The abstract descriptors, and the words that stand for them: the processor
    sets the accessed bit of a segment and the busy bit of a task. *)

Inductive desc :=
| NullDesc
| Seg (base : Z) (gran : segment_granularity) (limit : Z) (ty : segment_type) (dpl : Z)
| Task (addr : Z).

Definition matches (d : desc) (v : Z) : Prop :=
  match d with
  | NullDesc => v = GDT_NULL_ENTRY
  | Seg b g l ty dpl => v = seg_entry 0 b g l ty dpl \/ v = seg_entry 1 b g l ty dpl
  | Task a => v = tss_entry 9 a \/ v = tss_entry 11 a
  end.

Definition desc_ok (d : desc) : Prop :=
  match d with
  | NullDesc => True
  | Seg b g l ty dpl => 0 <= b < 2 ^ 32 /\ 0 <= l < 2 ^ 20 /\ 0 <= dpl < 4
  | Task a => 0 <= a < 2 ^ 32
  end.

Definition flat (ty : segment_type) (dpl : Z) : desc := Seg 0 PAGES 0xFFFFF ty dpl.

Definition sel_ok (i : Z) : Prop := 0 < i < 2 ^ 13.

Section Loads.
Context {A : Type} `{Heap A} (lk : linker) (c : Z).
Abbreviation st := (segst A).
Implicit Types (s : st).

Definition table_is (a : Z) (ds : list desc) s : Prop :=
  exists l, table_at lk a s = Some l /\ Forall2 matches ds l.

(** [s'] is [s] with other registers of the cpu, and with the table as it was
    but for accessed and busy bits. *)
Definition loaded (r r' : cpu_regs) (ds : list desc) s s' : Prop :=
  exists l, s' = put_cpus (<[c := r']> (cpus s)) (put_table lk (gdtr_base r) l s) /\ Forall2 matches ds l.

Lemma table_at_put_table a l s l' : table_at lk a s = Some l' -> table_at lk a (put_table lk a l s) = Some l.
Proof. unfold table_at, put_table. destruct (is_boot_gdt lk a) eqn:E; [done|]. simpl. by destruct (_ && _). Qed.

Lemma table_at_put_cpus a m s : table_at lk a (put_cpus m s) = table_at lk a s.
Proof. done. Qed.

Lemma loaded_trans r r' r'' ds s s' s'' :
  gdtr_base r' = gdtr_base r -> loaded r r' ds s s' -> loaded r' r'' ds s' s'' -> loaded r r'' ds s s''.
Proof.
  intros Eb (l & -> & Hl) (l' & -> & Hl'). exists l'. split; [|done]. rewrite Eb. destruct s. unfold put_table.
  destruct (is_boot_gdt lk _); unfold put_cpus; simpl; by rewrite insert_insert_eq.
Qed.

Lemma loaded_table r r' ds s s' : table_is (gdtr_base r) ds s -> loaded r r' ds s s' -> table_is (gdtr_base r) ds s'.
Proof.
  intros (l & Hl & _) (l' & -> & Hl'). exists l'. split; [|done]. rewrite table_at_put_cpus.
  by eapply table_at_put_table.
Qed.

Lemma loaded_regs r r' ds s s' : loaded r r' ds s s' -> cpus s' !! c = Some r'.
Proof. intros (l & -> & _). apply lookup_insert_eq. Qed.

Lemma read_descriptor_run s r ds (i : Z) d :
  cpus s !! c = Some r -> table_is (gdtr_base r) ds s -> sel_ok i -> ds !! Z.to_nat i = Some d ->
  8 * i + 7 <= gdtr_limit r ->
  exists v, read_descriptor lk c (SEG_SEL i 0) s = Ok (v, s) /\ matches d v /\
    forall v', matches d v' ->
      exists s', write_descriptor lk c (SEG_SEL i 0) v' s = Ok (tt, s') /\ loaded r r ds s s'.
Proof.
  intros Hr (l & Ht & Hm) Hi Hd Hlim. destruct (SEG_SEL_fields i 0) as (E1 & E2 & E3); [unfold sel_ok in Hi; lia|lia|].
  destruct (Forall2_lookup_l _ _ _ _ _ Hm Hd) as (v & Hv & Hmv). exists v. unfold read_descriptor, write_descriptor, get_regs.
  split_and!; [|done|].
  - unfold bind. rewrite Hr. simpl. rewrite E3, E1. rewrite (proj2 (Z.ltb_ge _ _)) by lia. simpl. by rewrite Ht; simpl; rewrite Hv.
  - intros v' Hv'. unfold bind. rewrite Hr. simpl. rewrite Ht, E1. eexists. split; [reflexivity|].
    exists (<[Z.to_nat i := v']> l). split.
    + unfold put_cpus, put_table. destruct s, (is_boot_gdt lk (gdtr_base r)); simpl in *; by rewrite insert_id.
    + rewrite <- (list_insert_id _ _ _ Hd). by apply Forall2_insert.
Qed.

Lemma load_segment_run s r ds i b g l ty dpl ok set :
  cpus s !! c = Some r -> table_is (gdtr_base r) ds s -> sel_ok i -> ds !! Z.to_nat i = Some (Seg b g l ty dpl) ->
  0 <= dpl < 4 -> 8 * i + 7 <= gdtr_limit r ->
  (forall a, 0 <= a < 2 -> ok (sd_of_value (seg_entry a b g l ty dpl)) = true) ->
  exists s', load_segment lk c ok set (SEG_SEL i 0) s = Ok (tt, s') /\
    loaded r (set (mk_sr (SEG_SEL i 0) (seg_entry 1 b g l ty dpl)) r) ds s s'.
Proof.
  intros Hr Ht Hi Hd Hdpl Hlim Hok. destruct (read_descriptor_run s r ds i _ Hr Ht Hi Hd Hlim) as (v & E & Hm & Hw).
  unfold load_segment. erewrite bind_ok by exact E.
  assert (ok (sd_of_value v) = true /\ set_accessed v = seg_entry 1 b g l ty dpl) as [E1 E2].
  { destruct Hm as [-> | ->]; (split; [apply Hok; lia|apply set_accessed_entry; lia]). }
  rewrite E1, E2. cbn [negb]. destruct (Hw (seg_entry 1 b g l ty dpl)) as (s1 & E3 & Hl1); [by right|].
  erewrite bind_ok by exact E3. pose proof (loaded_regs _ _ _ _ _ Hl1) as Hr1. unfold mod_regs, get_regs.
  erewrite bind_ok by (by rewrite Hr1). eexists. split; [reflexivity|].
  destruct Hl1 as (l1 & -> & Hl1). exists l1. split; [|done]. destruct s. unfold put_table.
  destruct (is_boot_gdt lk _); unfold put_cpus; simpl; by rewrite insert_insert_eq.
Qed.

Lemma not_null i : sel_ok i -> null_sel (SEG_SEL i 0) = false.
Proof.
  intros Hi. unfold null_sel, sel_ok in *. destruct (SEG_SEL_fields i 0) as (-> & _ & _); [lia|lia|].
  by rewrite (proj2 (Z.eqb_neq i 0)) by lia.
Qed.

Lemma cpu_set_data_run s r ds i b g l ty dpl set :
  cpus s !! c = Some r -> table_is (gdtr_base r) ds s -> sel_ok i -> ds !! Z.to_nat i = Some (Seg b g l ty dpl) ->
  0 <= dpl < 4 -> 8 * i + 7 <= gdtr_limit r ->
  exists s', cpu_set_data lk c set (SEG_SEL i 0) s = Ok (tt, s') /\
    loaded r (set (mk_sr (SEG_SEL i 0) (seg_entry 1 b g l ty dpl)) r) ds s s'.
Proof.
  intros Hr Ht Hi Hd Hdpl Hlim. unfold cpu_set_data. rewrite not_null by done. eapply load_segment_run; [done..|].
  intros a Ha. rewrite sd_of_seg_entry by done. unfold loadable_data. simpl.
  destruct (SEG_SEL_fields i 0) as (_ & -> & _); [unfold sel_ok in Hi; lia|lia|].
  rewrite (proj2 (Z.leb_le 0 dpl)) by lia. by destruct ty.
Qed.

Lemma cpu_set_cs_run s r ds i b g l :
  cpus s !! c = Some r -> table_is (gdtr_base r) ds s -> sel_ok i -> ds !! Z.to_nat i = Some (Seg b g l CODE 0) ->
  8 * i + 7 <= gdtr_limit r ->
  exists s', cpu_set_cs lk c (SEG_SEL i 0) s = Ok (tt, s') /\
    loaded r (set_cs (mk_sr (SEG_SEL i 0) (seg_entry 1 b g l CODE 0)) r) ds s s'.
Proof.
  intros Hr Ht Hi Hd Hlim. unfold cpu_set_cs. rewrite not_null by done. eapply load_segment_run; [done..|].
  intros a Ha. rewrite sd_of_seg_entry by done. unfold loadable_code. simpl.
  by destruct (SEG_SEL_fields i 0) as (_ & -> & _); [unfold sel_ok in Hi; lia|lia|].
Qed.

Lemma cpu_set_ss_run s r ds i b g l :
  cpus s !! c = Some r -> table_is (gdtr_base r) ds s -> sel_ok i -> ds !! Z.to_nat i = Some (Seg b g l DATA 0) ->
  8 * i + 7 <= gdtr_limit r ->
  exists s', cpu_set_ss lk c (SEG_SEL i 0) s = Ok (tt, s') /\
    loaded r (set_ss (mk_sr (SEG_SEL i 0) (seg_entry 1 b g l DATA 0)) r) ds s s'.
Proof.
  intros Hr Ht Hi Hd Hlim. unfold cpu_set_ss. rewrite not_null by done. eapply load_segment_run; [done..|].
  intros a Ha. rewrite sd_of_seg_entry by done. unfold loadable_stack. simpl.
  by destruct (SEG_SEL_fields i 0) as (_ & -> & _); [unfold sel_ok in Hi; lia|lia|].
Qed.

(** The registers after the kernel segments were loaded. *)
Definition with_segs (ic id ip : Z) (code data pcpu : Z) (r : cpu_regs) : cpu_regs :=
  set_gs (mk_sr (SEG_SEL ip 0) pcpu) (set_ss (mk_sr (SEG_SEL id 0) data) (set_fs (mk_sr (SEG_SEL id 0) data)
    (set_es (mk_sr (SEG_SEL id 0) data) (set_ds (mk_sr (SEG_SEL id 0) data) (set_cs (mk_sr (SEG_SEL ic 0) code) r))))).

Lemma set_segment_regs_run s r ds ic id ip bc gc lc bd gd ld bp gp lp dp :
  cpus s !! c = Some r -> table_is (gdtr_base r) ds s -> sel_ok ic -> sel_ok id -> sel_ok ip ->
  ds !! Z.to_nat ic = Some (Seg bc gc lc CODE 0) -> ds !! Z.to_nat id = Some (Seg bd gd ld DATA 0) ->
  ds !! Z.to_nat ip = Some (Seg bp gp lp DATA dp) -> 0 <= dp < 4 ->
  8 * ic + 7 <= gdtr_limit r -> 8 * id + 7 <= gdtr_limit r -> 8 * ip + 7 <= gdtr_limit r ->
  exists s', set_segment_regs lk c (SEG_SEL ic 0) (SEG_SEL id 0) (SEG_SEL ip 0) s = Ok (tt, s') /\
    loaded r (with_segs ic id ip (seg_entry 1 bc gc lc CODE 0) (seg_entry 1 bd gd ld DATA 0)
      (seg_entry 1 bp gp lp DATA dp) r) ds s s'.
Proof.
  intros Hr Ht Hc Hd Hp Ec Ed Ep Hdp Lc Ld Lp. unfold set_segment_regs.
  destruct (cpu_set_cs_run s r ds ic _ _ _ Hr Ht Hc Ec Lc) as (s1 & E1 & L1).
  pose proof (loaded_regs _ _ _ _ _ L1) as R1. pose proof (loaded_table _ _ _ _ _ Ht L1) as T1.
  destruct (cpu_set_data_run s1 _ ds id _ _ _ _ _ set_ds R1 T1 Hd Ed ltac:(lia) Ld) as (s2 & E2 & L2).
  pose proof (loaded_regs _ _ _ _ _ L2) as R2. pose proof (loaded_table _ _ _ _ _ T1 L2) as T2.
  destruct (cpu_set_data_run s2 _ ds id _ _ _ _ _ set_es R2 T2 Hd Ed ltac:(lia) Ld) as (s3 & E3 & L3).
  pose proof (loaded_regs _ _ _ _ _ L3) as R3. pose proof (loaded_table _ _ _ _ _ T2 L3) as T3.
  destruct (cpu_set_data_run s3 _ ds id _ _ _ _ _ set_fs R3 T3 Hd Ed ltac:(lia) Ld) as (s4 & E4 & L4).
  pose proof (loaded_regs _ _ _ _ _ L4) as R4. pose proof (loaded_table _ _ _ _ _ T3 L4) as T4.
  destruct (cpu_set_ss_run s4 _ ds id _ _ _ R4 T4 Hd Ed Ld) as (s5 & E5 & L5).
  pose proof (loaded_regs _ _ _ _ _ L5) as R5. pose proof (loaded_table _ _ _ _ _ T4 L5) as T5.
  destruct (cpu_set_data_run s5 _ ds ip _ _ _ _ _ set_gs R5 T5 Hp Ep Hdp Lp) as (s6 & E6 & L6).
  exists s6. split.
  - erewrite bind_ok by exact E1. erewrite bind_ok by exact E2. erewrite bind_ok by exact E3. erewrite bind_ok by exact E4.
    by erewrite bind_ok by exact E5.
  - do 5 (eapply loaded_trans; [|eassumption|]; [done|]). exact L6.
Qed.

End Loads.

(** ** Per-cpu variables *)

Lemma alter_some {B} (m : gmap Z B) i x (f : B -> B) : m !! i = Some x -> alter f i m = <[i := f x]> m.
Proof.
  intros Hx. apply map_eq. intros j. destruct (decide (i = j)) as [->|Hne].
  - by rewrite lookup_alter_eq, lookup_insert_eq, Hx.
  - by rewrite lookup_alter_ne, lookup_insert_ne.
Qed.

Section Vars.
Context {A : Type} `{Heap A} (lk : linker) (c : Z) (schedule : M (segst A) unit).
Abbreviation st := (segst A).
Implicit Types (s : st).

(** Where the variables of a cpu with these registers are. *)
Definition area_of (r : cpu_regs) : Z := area_key lk (seg_base (sr_desc (r_gs r))).

(** GS selects the area [x], which knows its own address. *)
Record gs_ok s (r : cpu_regs) (x : percpu) : Prop := {
  gs_regs : cpus s !! c = Some r;
  gs_sel : null_sel (sr_sel (r_gs r)) = false;
  gs_limit : VAR_OFFSET_this_cpu_off lk + 3 <= seg_limit (sr_desc (r_gs r));
  gs_area : areas s !! area_of r = Some x;
  gs_self : area_key lk (this_cpu_off x) = area_of r }.

Definition with_vars (v : cpu_view) (x : percpu) : percpu :=
  mk_percpu (this_cpu_off x) (pc_cpu_id x) (kernel_stack x) (pc_tss x) (v_count v) (v_running v) (curr_addr_space x).

Definition seg_view s : cpu_view :=
  match cpus s !! c with
  | Some r => let x := default percpu0 (areas s !! area_of r) in
      mk_view (r_if r) (preempt_count x) (sched_running x) (sr_sel (r_gs r))
  | None => mk_view false 0 false 0
  end.

Definition seg_put (v : cpu_view) s : st :=
  match cpus s !! c with
  | Some r => put_cpus (<[c := set_if (v_if v) r]> (cpus s)) (put_areas (alter (with_vars v) (area_of r) (areas s)) s)
  | None => s
  end.

Lemma seg_view_ok s r x : gs_ok s r x -> seg_view s = mk_view (r_if r) (preempt_count x) (sched_running x) (sr_sel (r_gs r)).
Proof. intros []. unfold seg_view. by rewrite gs_regs0, gs_area0. Qed.

Lemma seg_put_ok s r x v : gs_ok s r x -> gs_ok (seg_put v s) (set_if (v_if v) r) (with_vars v x).
Proof.
  intros []. unfold seg_put. rewrite gs_regs0. split; try done.
  - simpl. by rewrite lookup_insert_eq.
  - simpl. change (area_of (set_if (v_if v) r)) with (area_of r). by rewrite lookup_alter_eq, gs_area0.
Qed.

Lemma read_ptr_run s r x : gs_ok s r x -> _read_void_ptr_at_offset lk c s = Ok (this_cpu_off x, s).
Proof.
  intros []. unfold _read_void_ptr_at_offset, get_regs. erewrite bind_ok by (by rewrite gs_regs0).
  rewrite gs_sel0, (proj2 (Z.ltb_ge _ _)) by done. simpl. unfold get_area, bind. fold (area_of r). by rewrite gs_area0.
Qed.

Lemma read_this_run {B} s r x (f : percpu -> B) : gs_ok s r x -> read_this lk c f s = Ok (f x, s).
Proof.
  intros Hg. unfold read_this. erewrite bind_ok by by eapply read_ptr_run. unfold get_area, bind.
  rewrite (gs_self _ _ _ Hg). by rewrite (gs_area _ _ _ Hg).
Qed.

Lemma mod_area_run s a x f : areas s !! area_key lk a = Some x ->
  mod_area lk a f s = Ok (tt, put_areas (<[area_key lk a := f x]> (areas s)) s).
Proof. intros Hx. unfold mod_area, get_area, bind. by rewrite Hx. Qed.

Lemma write_this_run s r x f : gs_ok s r x ->
  write_this lk c f s = Ok (tt, put_areas (<[area_of r := f x]> (areas s)) s).
Proof.
  intros Hg. unfold write_this. erewrite bind_ok by by eapply read_ptr_run. rewrite <- (gs_self _ _ _ Hg).
  apply mod_area_run. rewrite (gs_self _ _ _ Hg). apply Hg.
Qed.

Lemma null_sel_0 : null_sel 0 = true.
Proof. done. Qed.

#[export] Instance seg_cpu_laws : @CpuVarsLaws st (seg_cpu_vars lk c).
Proof.
  refine {| cv_ok s := exists r x, gs_ok s r x; cv_view := seg_view; cv_put := seg_put |}.
  - intros s v (r & x & Hg) _. eexists _, _. by apply seg_put_ok.
  - intros s v (r & x & Hg) E. erewrite seg_view_ok by by apply seg_put_ok. erewrite seg_view_ok in E by done.
    destruct v; simpl in *. by subst.
  - intros s v w (r & x & Hg) _ _. pose proof (gs_regs _ _ _ Hg) as Hr. unfold seg_put at 2 3. rewrite Hr.
    unfold seg_put. simpl. rewrite lookup_insert_eq. unfold put_cpus, put_areas. simpl.
    change (area_of (set_if _ r)) with (area_of r). rewrite insert_insert_eq. f_equal.
    rewrite alter_alter_eq. by apply alter_ext.
  - intros s (r & x & Hg). erewrite seg_view_ok by done. destruct Hg. unfold seg_put. rewrite gs_regs0.
    unfold put_cpus, put_areas. simpl. rewrite insert_id by (rewrite gs_regs0; by destruct r).
    rewrite alter_id; [by destruct s|]. intros y Hy. rewrite Hy in gs_area0. injection gs_area0 as ->. by destruct x.
  - intros s (r & x & Hg). erewrite seg_view_ok by done. simpl. intros E. destruct Hg. by rewrite E in gs_sel0.
  - intros s (r & x & Hg). erewrite seg_view_ok by done. destruct Hg. simpl. unfold get_regs, bind. by rewrite gs_regs0.
  - intros s b (r & x & Hg). erewrite seg_view_ok by done. destruct Hg. simpl. unfold mod_regs, get_regs, bind.
    rewrite gs_regs0. simpl. unfold modify, seg_put. rewrite gs_regs0. unfold put_cpus, put_areas. simpl. do 3 f_equal.
    symmetry. apply alter_id. intros y Hy. rewrite Hy in gs_area0. injection gs_area0 as ->. by destruct x.
  - intros s (r & x & Hg). erewrite seg_view_ok by done. destruct Hg. simpl. unfold get_regs, bind. by rewrite gs_regs0.
  - intros s (r & x & Hg). erewrite seg_view_ok by done. simpl. by apply (read_this_run s r x).
  - intros s n (r & x & Hg). erewrite seg_view_ok by done. simpl. erewrite write_this_run by done. destruct Hg.
    unfold seg_put. rewrite gs_regs0. unfold put_cpus, put_areas. simpl. do 3 f_equal.
    + symmetry. apply insert_id. rewrite gs_regs0. by destruct r.
    + by rewrite (alter_some _ _ x) by done.
  - intros s (r & x & Hg). erewrite seg_view_ok by done. simpl. by apply (read_this_run s r x).
Defined.

#[local] Hint Extern 0 (CpuVars _) => exact (seg_cpu_vars lk c) : typeclass_instances.

(** Reading a variable with preemption disabled, by a cpu whose scheduler does
    not run or that cannot be preempted. *)
Definition quiet (x : percpu) : Prop :=
  0 <= preempt_count x < 2 ^ 32 - 1 /\ (0 < preempt_count x \/ sched_running x = false).

Lemma read_with_preempt_disabled {B} s r x (f : percpu -> B) :
  gs_ok s r x -> quiet x -> (forall v, f (with_vars v x) = f x) ->
  with_preempt_disabled schedule (this_cpu_var (read_this lk c f)) s = Ok (f x, s).
Proof.
  intros Hg [Hc Hq] Hf. assert (Hok : cv_ok s) by by exists r, x.
  assert (Ev := seg_view_ok s r x Hg). change (seg_view s) with (cv_view s) in Ev.
  erewrite (with_preempt_disabled_run schedule _ _ s) with (s' := set_preempt (v_if (cv_view s)) (v_count (cv_view s) + 1) s).
  - by rewrite set_preempt_twice, set_preempt_same.
  - done.
  - by rewrite Ev.
  - by rewrite Ev.
  - rewrite this_cpu_var_run; [|by apply set_preempt_ok|right; rewrite set_preempt_view, Ev by done; simpl; lia].
    erewrite read_this_run by by apply seg_put_ok. by rewrite Hf.
  - by apply set_preempt_ok.
  - by rewrite set_preempt_view.
Qed.

Lemma cpu_id_run s r x : gs_ok s r x -> quiet x -> cpu_id lk c schedule s = Ok (pc_cpu_id x, s).
Proof.
  intros Hg Hq. unfold cpu_id. pose proof (gs_regs _ _ _ Hg) as Hr. pose proof (gs_sel _ _ _ Hg) as Hs.
  erewrite bind_ok by (simpl; unfold get_regs, bind; by rewrite Hr).
  destruct (Z.eqb_spec (sr_sel (r_gs r)) 0) as [E|_]; [by rewrite E in Hs|]. cbn [negb].
  by apply (read_with_preempt_disabled s r x pc_cpu_id).
Qed.

End Vars.

(** ** The areas of the cpus *)

Record linker_ok {A} `{HeapLaws A} (lk : linker) : Prop := {
  lk_percpu : KERNEL_PHY_OFFSET <= SECTION_PERCPU_START_ADDR lk < 2 ^ 32;
  lk_size : 0 < SECTION_PERCPU_SIZE lk <= MAX_SMALL;
  lk_off : 0 <= VAR_OFFSET_this_cpu_off lk /\ VAR_OFFSET_this_cpu_off lk + 4 <= SECTION_PERCPU_SIZE lk;
  lk_tss : 0 <= VAR_OFFSET_tss lk /\ VAR_OFFSET_tss lk + SIZEOF_TSS <= SECTION_PERCPU_SIZE lk;
  lk_end : SECTION_PERCPU_START_ADDR lk + SECTION_PERCPU_SIZE lk < 2 ^ 32;
  lk_boot : KERNEL_PHY_OFFSET < BOOT_GDT_addr lk < 2 ^ 32;
  lk_task : 0 <= DOUBLE_FAULT_TASK_addr lk < 2 ^ 32;
  lk_static : hp_static (SECTION_PERCPU_START_ADDR lk) /\ hp_static (to_phys (SECTION_PERCPU_START_ADDR lk)) /\
    hp_static (BOOT_GDT_addr lk) /\ hp_static (to_phys (BOOT_GDT_addr lk)) }.

Section Areas.
Context {A : Type} `{HLaws : HeapLaws A} (lk : linker) (c : Z) (schedule : M (segst A) unit).
Abbreviation st := (segst A).
Implicit Types (s : st) (offs : list Z).
#[local] Hint Extern 0 (CpuVars _) => exact (seg_cpu_vars lk c) : typeclass_instances.

Hypothesis Hlk : linker_ok lk.
Hypothesis Hc0 : 0 <= c.

(** [offs] are the addresses of the areas of the cpus 0, 1, ...: each area
    knows its address and its cpu, and no two cpus share one. *)
Record areas_ok s offs : Prop := {
  ao_each i p : offs !! i = Some p -> exists y, areas s !! area_key lk p = Some y /\
    this_cpu_off y = p /\ pc_cpu_id y = Z.of_nat i /\ 0 <= p /\ p + SECTION_PERCPU_SIZE lk < 2 ^ 32;
  ao_distinct : NoDup (map (area_key lk) offs) }.

Definition no_memory (h : halt) : Prop :=
  h = Panic "Cannot allocate percpu metadata" \/ h = Panic "Cannot allocate percpu area for cpu" \/
  h = Panic "Cannot allocate final GDT".

(** What the allocation of the areas does not touch. *)
Definition same_tables s s' : Prop :=
  BOOT_GDT s' = BOOT_GDT s /\ GDT s' = GDT s /\ GDT_SIZE s' = GDT_SIZE s /\ gdt_table s' = gdt_table s /\
  cpus s' = cpus s /\ NCPUS s' = NCPUS s /\ page_dir_phy_addr s' = page_dir_phy_addr s.

Lemma heap_area_key a L p : hp_live a L -> p ∈ L -> area_key lk p = p /\ p <> SECTION_PERCPU_START_ADDR lk.
Proof.
  intros Hl Hp. destruct (lk_static lk Hlk) as (S1 & S2 & _). pose proof (hp_live_static _ _ _ Hl Hp) as Hn.
  unfold area_key. destruct (Z.eqb_spec p (to_phys (SECTION_PERCPU_START_ADDR lk))) as [->|_]; [done|].
  split; [done|]. by intros ->.
Qed.

(** The state while areas are allocated: [offs] are the areas so far. *)
Record allocating s0 (n : nat) r x offs s : Prop := {
  al_list : per_cpu_offsets s = offs ++ replicate (n - length offs) 0;
  al_areas : areas_ok s offs;
  al_live : exists L, hp_live (sg_heap s) L /\ forall p, p ∈ map (area_key lk) offs ->
    p = SECTION_PERCPU_START_ADDR lk /\ c < Z.of_nat (length offs) \/ p ∈ L;
  al_ptr : PER_CPU_OFFSETS s <> NULL;
  al_mine p : offs !! Z.to_nat c = Some p -> p = SECTION_PERCPU_START_ADDR lk;
  al_gs : gs_ok lk c s r x;
  al_same : same_tables s0 s }.

Lemma fill_list (n : nat) offs p : (length offs < n)%nat ->
  <[length offs := p]> (offs ++ replicate (n - length offs) 0) = (offs ++ [p]) ++ replicate (n - length (offs ++ [p])) 0.
Proof.
  intros Hn. rewrite length_app. simpl. destruct (n - length offs)%nat as [|m] eqn:E; [lia|].
  replace (n - (length offs + 1))%nat with m by lia. simpl. rewrite <- app_assoc. simpl.
  by rewrite (insert_app_r_alt _ _ (length offs)), Nat.sub_diag by lia.
Qed.

Lemma areas_ok_snoc s s' offs p y :
  areas_ok s offs -> (forall q, q ∈ offs -> areas s' !! area_key lk q = areas s !! area_key lk q) ->
  areas s' !! area_key lk p = Some y -> this_cpu_off y = p -> pc_cpu_id y = Z.of_nat (length offs) ->
  0 <= p -> p + SECTION_PERCPU_SIZE lk < 2 ^ 32 -> area_key lk p ∉ map (area_key lk) offs -> areas_ok s' (offs ++ [p]).
Proof.
  intros [He Hd] Hsame Hy E1 E2 H0 H1 Hnin. split.
  - intros i q Hq. apply lookup_app_Some in Hq as [Hq|[Hi Hq]].
    + destruct (He i q Hq) as (z & Hz & ?). exists z. rewrite Hsame by (by eapply list_elem_of_lookup_2). done.
    + apply list_lookup_singleton_Some in Hq as [Ei <-]. exists y. split_and!; try done. rewrite E2. lia.
  - rewrite map_app. apply NoDup_app. split_and!; [done| |apply NoDup_singleton].
    intros q Hq ->%list_elem_of_singleton. done.
Qed.

Lemma areas_ok_ext s s' offs : areas s' = areas s -> areas_ok s offs -> areas_ok s' offs.
Proof. intros E [He Hd]. split; [|done]. intros i p Hp. rewrite E. by apply He. Qed.

Lemma allocate_boot_area s0 n r x offs s :
  allocating s0 n r x offs s -> (length offs < n)%nat -> Z.of_nat (length offs) = c ->
  pc_cpu_id x = c -> this_cpu_off x = SECTION_PERCPU_START_ADDR lk ->
  allocating s0 n r x (offs ++ [SECTION_PERCPU_START_ADDR lk])
    (put_offsets (PER_CPU_OFFSETS s) (<[Z.to_nat c := SECTION_PERCPU_START_ADDR lk]> (per_cpu_offsets s)) s).
Proof.
  intros [Hl Ha (L & HL & HLk) Hp Hmi Hg Hs] Hn Ec Eid Eoff. pose proof (gs_self _ _ _ _ _ Hg) as Hself.
  pose proof (gs_area _ _ _ _ _ Hg) as Hx. pose proof (lk_percpu lk Hlk). pose proof (lk_end lk Hlk).
  pose proof (lk_size lk Hlk). rewrite Eoff in Hself.
  assert (Hk : area_key lk (SECTION_PERCPU_START_ADDR lk) = SECTION_PERCPU_START_ADDR lk).
  { unfold area_key. by destruct (_ =? _). }
  split; try done.
  - simpl. rewrite Hl, <- Ec, Nat2Z.id. by apply fill_list.
  - eapply (areas_ok_snoc s _ _ _ x); try done; simpl.
    + by rewrite Hself.
    + congruence.
    + unfold KERNEL_PHY_OFFSET in *. lia.
    + rewrite Hk. intros Hin. destruct (HLk _ Hin) as [[_ Hlt]|Hin2]; [lia|]. by apply (heap_area_key _ _ _ HL Hin2).
  - exists L. split; [done|]. intros p. rewrite map_app. intros [Hq|Hq]%elem_of_app.
    + destruct (HLk _ Hq) as [[-> ?]|?]; [left|by right]. split; [done|]. rewrite length_app. simpl. lia.
    + apply list_elem_of_singleton in Hq as ->. left. rewrite Hk. split; [done|]. rewrite length_app. simpl. lia.
  - intros q [Hq|[_ Hq]]%lookup_app_Some; [by apply Hmi|]. by apply list_lookup_singleton_Some in Hq as [_ <-].
  - by destruct Hg.
Qed.

Lemma allocate_new_area s0 n r x offs s a h L :
  allocating s0 n r x offs s -> (length offs < n)%nat -> Z.of_nat (length offs) <> c ->
  this_cpu_off x = SECTION_PERCPU_START_ADDR lk ->
  hp_live (sg_heap s) L -> (forall p, p ∈ map (area_key lk) offs -> p = SECTION_PERCPU_START_ADDR lk /\
    c < Z.of_nat (length offs) \/ p ∈ L) ->
  hp_live h ({[a]} ∪ L) -> a ∉ L -> 0 < a -> a + SECTION_PERCPU_SIZE lk < 2 ^ 32 ->
  allocating s0 n r x (offs ++ [a])
    (put_areas (<[a := with_cpu_id (Z.of_nat (length offs)) (with_this_cpu_off a percpu0)]> (areas s))
      (put_offsets (PER_CPU_OFFSETS s) (<[length offs := a]> (per_cpu_offsets s)) (put_heap h s))).
Proof.
  intros [Hl Ha _ Hp Hmi Hg Hs] Hn Ec Eoff HL HLk Hh Hnin H0 H1.
  destruct (heap_area_key _ _ a Hh) as [Hka Hst]; [set_solver|]. pose proof (gs_self _ _ _ _ _ Hg) as Hself.
  rewrite Eoff in Hself. unfold area_key in Hself at 1. assert (Hao : area_of lk r = SECTION_PERCPU_START_ADDR lk) by
    (rewrite <- Hself; by destruct (_ =? _)).
  assert (Hna : a ∉ map (area_key lk) offs) by (intros Hin; by destruct (HLk _ Hin) as [[-> _]|?]).
  split; try done.
  - simpl. rewrite Hl. by apply fill_list.
  - eapply (areas_ok_snoc s); try done; simpl.
    + intros q Hq. rewrite lookup_insert_ne; [done|]. intros E. apply Hna. rewrite E. by apply list_elem_of_fmap_2.
    + by rewrite Hka, lookup_insert_eq.
    + done.
    + done.
    + lia.
    + by rewrite Hka.
  - exists ({[a]} ∪ L). split; [done|]. intros p. rewrite map_app. intros [Hq|Hq]%elem_of_app.
    + destruct (HLk _ Hq) as [[-> ?]|?]; [left|right; set_solver]. split; [done|]. rewrite length_app. simpl. lia.
    + apply list_elem_of_singleton in Hq as ->. right. rewrite Hka. set_solver.
  - intros q [Hq|[Hc1 Hq]]%lookup_app_Some; [by apply Hmi|]. apply list_lookup_singleton_Some in Hq as [Hc2 _]. lia.
  - destruct Hg. split; try done. simpl. rewrite lookup_insert_ne by (rewrite Hao; done). done.
Qed.

Lemma cpu_off_run s i p : PER_CPU_OFFSETS s <> NULL -> per_cpu_offsets s !! Z.to_nat i = Some p -> cpu_off i s = Ok (p, s).
Proof. intros Hp Hi. unfold cpu_off. by rewrite (proj2 (Z.eqb_neq _ _) Hp), Hi. Qed.

Lemma set_cpu_var_run s f i p y :
  PER_CPU_OFFSETS s <> NULL -> per_cpu_offsets s !! Z.to_nat i = Some p -> areas s !! area_key lk p = Some y ->
  set_cpu_var lk f i s = Ok (tt, put_areas (<[area_key lk p := f y]> (areas s)) s).
Proof. intros Hp Hi Hy. unfold set_cpu_var. erewrite bind_ok by by apply cpu_off_run. by apply mod_area_run. Qed.

Lemma cpu_var_run {B} s (f : percpu -> B) i p y :
  PER_CPU_OFFSETS s <> NULL -> per_cpu_offsets s !! Z.to_nat i = Some p -> areas s !! area_key lk p = Some y ->
  cpu_var lk f i s = Ok (f y, s).
Proof.
  intros Hp Hi Hy. unfold cpu_var. erewrite bind_ok by by apply cpu_off_run. unfold get_area, bind. by rewrite Hy.
Qed.

Lemma allocate_area_wp s0 n r x offs s :
  allocating s0 n r x offs s -> (length offs < n)%nat -> quiet x -> r_if r = false \/ preempt_count x <> 0 ->
  pc_cpu_id x = c -> this_cpu_off x = SECTION_PERCPU_START_ADDR lk ->
  wpx no_memory (allocate_area lk c schedule (Z.of_nat (length offs)))
    (fun _ s' => exists p, allocating s0 n r x (offs ++ [p]) s') s.
Proof.
  intros Hal Hn Hq Hpre Eid Eoff. pose proof (al_gs _ _ _ _ _ _ Hal) as Hg. unfold allocate_area.
  eapply wpx_bind_ok; [by eapply cpu_id_run|]. rewrite Eid. destruct (Z.eqb_spec (Z.of_nat (length offs)) c) as [Ec|Ec].
  - eapply wpx_bind_ok.
    { rewrite this_cpu_var_run; [by eapply read_this_run|by exists r, x|]. change (cv_view s) with (seg_view lk c s).
      by rewrite (seg_view_ok lk c s r x Hg). }
    apply wpx_wp, wp_modify. rewrite Eoff, Ec. eexists. by apply allocate_boot_area.
  - destruct (al_live _ _ _ _ _ _ Hal) as (L & HL & HLk). apply wpx_bind, wpx_zoom, wpx_wp. pose proof (lk_size lk Hlk).
    pose proof (hp_kmalloc_law _ L (SECTION_PERCPU_SIZE lk) HL ltac:(lia)) as H1.
    pose proof (hp_kmalloc_space _ L (SECTION_PERCPU_SIZE lk) HL ltac:(lia)) as H2. unfold wp in *.
    destruct (hp_kmalloc _ _) as [[a h]|]; [|done]. destruct H1 as [[-> H1]|(Han & Hnin & Hh)].
    + apply wpx_bind, wpx_halt. right. by left.
    + destruct H2 as [->|[H2 H3]]; [done|]. rewrite (proj2 (Z.eqb_neq _ _) Han). apply wpx_bind, wpx_ret.
      apply wpx_bind, wpx_wp, wp_modify, wpx_bind, wpx_wp, wp_modify.
      destruct (heap_area_key _ _ a Hh) as [Hka _]; [set_solver|].
      pose proof (allocate_new_area _ _ _ _ _ _ _ _ _ Hal Hn Ec Eoff HL HLk Hh Hnin H2 H3) as Hnew.
      pose proof (al_list _ _ _ _ _ _ Hnew) as Hli. simpl in Hli. rewrite Nat2Z.id, Hka.
      assert (Hi : <[length offs := a]> (per_cpu_offsets s) !! Z.to_nat (Z.of_nat (length offs)) = Some a).
      { rewrite Hli, Nat2Z.id, <- app_assoc. by apply list_lookup_middle. }
      eapply wpx_bind_ok; [eapply set_cpu_var_run; [apply Hal|exact Hi|by rewrite Hka; apply lookup_insert_eq]|].
      eapply wpx_eq with (m' := ret tt); [erewrite set_cpu_var_run; [reflexivity|apply Hal|exact Hi|
        by rewrite Hka; apply lookup_insert_eq]|].
      exists a. eapply eq_ind; [exact Hnew|]. unfold put_areas, put_offsets, put_heap. simpl. by rewrite Hka, !insert_insert_eq.
Qed.

Definition allocated s0 (n : nat) r x s : Prop :=
  exists offs, (forall p, offs !! Z.to_nat c = Some p -> p = SECTION_PERCPU_START_ADDR lk) /\ length offs = n /\ per_cpu_offsets s = offs /\ areas_ok s offs /\ PER_CPU_OFFSETS s <> NULL /\
    gs_ok lk c s r x /\ same_tables s0 s /\ exists L, hp_live (sg_heap s) L.

Lemma allocate_aps_percpu_areas_wp s L r x :
  gs_ok lk c s r x -> hp_live (sg_heap s) L -> quiet x -> r_if r = false \/ preempt_count x <> 0 ->
  pc_cpu_id x = c -> this_cpu_off x = SECTION_PERCPU_START_ADDR lk -> 0 < NCPUS s < 256 ->
  wpx no_memory (allocate_aps_percpu_areas lk c schedule) (fun _ s' => allocated s (Z.to_nat (NCPUS s)) r x s') s.
Proof.
  intros Hg HL Hq Hpre Eid Eoff Hn. unfold allocate_aps_percpu_areas, acpi_get_number_cpus.
  eapply wpx_bind_ok; [by erewrite bind_ok by reflexivity; rewrite (proj2 (Z.eqb_neq _ 0)) by lia|].
  rewrite u8_id by lia. apply wpx_bind, wpx_zoom, wpx_wp.
  pose proof (hp_kmalloc_law _ L (NCPUS s * 4) HL ltac:(unfold MAX_SMALL; lia)) as H1. unfold wp in *.
  destruct (hp_kmalloc _ _) as [[a h]|]; [|done]. apply wpx_bind, wpx_wp, wp_modify.
  destruct H1 as [[-> H1]|(Han & Hnin & Hh)]; [by apply wpx_bind, wpx_halt; left|].
  rewrite (proj2 (Z.eqb_neq _ _) Han). apply wpx_bind, wpx_ret.
  eapply wpx_mono; [eapply (wpx_range no_memory (fun i s' => exists offs, Z.of_nat (length offs) = i /\
    allocating s (Z.to_nat (NCPUS s)) r x offs s')); [lia| |]|].
  - exists []. split; [done|]. split; try done.
    + simpl. by rewrite Nat.sub_0_r.
    + split; [by intros i p ?|constructor].
    + exists ({[a]} ∪ L). split; [done|]. intros p Hp. simpl in Hp. by apply not_elem_of_nil in Hp.
    + by destruct Hg.
  - intros i s1 Hi (offs & <- & Hal). eapply wpx_mono; [eapply allocate_area_wp; try done; lia|].
    intros [] s2 [p Hp]. exists (offs ++ [p]). split; [|done]. rewrite length_app. simpl. lia.
  - intros [] s1 (offs & Hlen & [Hl Ha (L' & HL' & _) Hp Hmi Hg1 Hs]). exists offs.
    replace (Z.to_nat (NCPUS s) - length offs)%nat with 0%nat in Hl by lia. simpl in Hl. rewrite app_nil_r in Hl.
    split_and!; try done; [lia|by exists L'].
Qed.

(** ** The final GDT *)

Definition gdt_header : list desc :=
  [NullDesc; flat DATA 0; flat CODE 0; flat DATA 3; flat CODE 3; Task (DOUBLE_FAULT_TASK_addr lk)].
Definition percpu_seg (p : Z) : desc := Seg p BYTES (SECTION_PERCPU_SIZE lk) DATA 0.
Definition final_gdt offs (tasks : list desc) : list desc := gdt_header ++ map percpu_seg offs ++ tasks.

(** The final GDT is set up for the cpus whose areas are [offs]. *)
Record gdt_final s offs tasks : Prop := {
  gf_ptr : GDT s <> NULL;
  gf_boot : is_boot_gdt lk (GDT s) = false;
  gf_size : GDT_SIZE s = 6 + 2 * Z.of_nat (length offs);
  gf_table : Forall2 matches (final_gdt offs tasks) (gdt_table s);
  gf_tasks : length tasks = length offs;
  gf_offs : per_cpu_offsets s = offs /\ PER_CPU_OFFSETS s <> NULL;
  gf_areas : areas_ok s offs;
  gf_ncpus : NCPUS s = Z.of_nat (length offs) /\ 0 < NCPUS s < 256 }.

Definition kernel_segs (p : Z) (r : cpu_regs) : cpu_regs :=
  with_segs GDT_KCODE_IDX GDT_KDATA_IDX (GDT_PERCPU_IDX c) (seg_entry 1 0 PAGES 0xFFFFF CODE 0)
    (seg_entry 1 0 PAGES 0xFFFFF DATA 0) (seg_entry 1 p BYTES (SECTION_PERCPU_SIZE lk) DATA 0) r.

(** The cpu uses the final GDT, its kernel segments, and its own area [y]. *)
Record on_cpu s offs tasks p (y : percpu) r : Prop := {
  oc_gdt : gdt_final s offs tasks;
  oc_gdtr : gdtr_base r = GDT s /\ gdtr_limit r = 8 * GDT_SIZE s - 1;
  oc_segs : kernel_segs p r = r;
  oc_gs : gs_ok lk c s r y;
  oc_mine : offs !! Z.to_nat c = Some p /\ this_cpu_off y = p /\ pc_cpu_id y = c }.

Lemma put_table_final a l s : is_boot_gdt lk a = false -> put_table lk a l s = put_gdt (GDT s) (GDT_SIZE s) l s.
Proof. unfold put_table. by intros ->. Qed.

Lemma table_at_final s offs tasks : gdt_final s offs tasks -> table_at lk (GDT s) s = Some (gdt_table s).
Proof.
  intros Hf. unfold table_at. rewrite (gf_boot _ _ _ Hf), (proj2 (Z.eqb_neq _ _) (gf_ptr _ _ _ Hf)). by rewrite Z.eqb_refl.
Qed.

Lemma final_lookup offs tasks (i : nat) d :
  gdt_header !! i = Some d -> final_gdt offs tasks !! i = Some d.
Proof. intros Hi. unfold final_gdt. by apply lookup_app_l_Some. Qed.

Lemma final_lookup_percpu offs tasks (i : nat) p :
  offs !! i = Some p -> final_gdt offs tasks !! (6 + i)%nat = Some (percpu_seg p).
Proof.
  intros Hi. unfold final_gdt. rewrite lookup_app_r by (simpl; lia). replace (6 + i - length gdt_header)%nat with i by (simpl; lia).
  apply lookup_app_l_Some. by rewrite list_lookup_fmap, Hi.
Qed.

(** Loading the kernel segments of a cpu that uses the final GDT. *)
Lemma kernel_segs_run s offs tasks r p :
  gdt_final s offs tasks -> cpus s !! c = Some r -> gdtr_base r = GDT s -> gdtr_limit r = 8 * GDT_SIZE s - 1 ->
  0 <= c -> offs !! Z.to_nat c = Some p ->
  exists s' y, set_segment_regs lk c (SEG_SEL GDT_KCODE_IDX 0) (SEG_SEL GDT_KDATA_IDX 0) (SEG_SEL (GDT_PERCPU_IDX c) 0) s
      = Ok (tt, s') /\
    on_cpu s' offs tasks p y (kernel_segs p r) /\ areas s !! area_key lk p = Some y /\
    exists l, s' = put_cpus (<[c := kernel_segs p r]> (cpus s)) (put_gdt (GDT s) (GDT_SIZE s) l s).
Proof.
  intros Hf Hr Eb El Hc Hp. pose proof (lookup_lt_Some _ _ _ Hp) as Hlt. pose proof (gf_ncpus _ _ _ Hf) as [En Hn].
  pose proof (gf_size _ _ _ Hf) as Esz. assert (Ht : table_is lk (gdtr_base r) (final_gdt offs tasks) s).
  { exists (gdt_table s). rewrite Eb. split; [by eapply table_at_final|apply Hf]. }
  pose proof (lk_size lk Hlk) as Hsize. pose proof (lk_off lk Hlk) as Hoff. unfold MAX_SMALL in Hsize.
  destruct (ao_each _ _ (gf_areas _ _ _ Hf) _ _ Hp) as (y & Hy & Ey & Eid & Hp0 & Hp1).
  destruct (set_segment_regs_run lk c s r (final_gdt offs tasks) GDT_KCODE_IDX GDT_KDATA_IDX (GDT_PERCPU_IDX c)
    0 PAGES 0xFFFFF 0 PAGES 0xFFFFF p BYTES (SECTION_PERCPU_SIZE lk) 0) as (s' & Es & l & -> & Hm);
    unfold sel_ok, GDT_KCODE_IDX, GDT_KDATA_IDX, GDT_PERCPU_IDX; try done; try lia.
  { replace (Z.to_nat (6 + c)) with (6 + Z.to_nat c)%nat by lia. by apply final_lookup_percpu. }
  rewrite Eb, (put_table_final _ _ _ (gf_boot _ _ _ Hf)) in Es.
  eexists _, y. split; [exact Es|]. split; [|split; [done|by exists l]].
  assert (Hgs : gs_ok lk c (put_cpus (<[c := kernel_segs p r]> (cpus s)) (put_gdt (GDT s) (GDT_SIZE s) l s)) (kernel_segs p r) y).
  { split.
    - apply lookup_insert_eq.
    - apply not_null. unfold sel_ok, GDT_PERCPU_IDX. lia.
    - simpl. rewrite seg_limit_entry by lia. lia.
    - unfold area_of. simpl. by rewrite seg_base_entry by lia.
    - unfold area_of. simpl. by rewrite seg_base_entry, Ey by lia. }
  split; [|done|done|exact Hgs|].
  - destruct Hf. split; try done. by apply (areas_ok_ext s).
  - split_and!; [done|done|]. rewrite Eid. lia.
Qed.

Lemma set_gdt_run s (i : nat) v : (i < length (gdt_table s))%nat ->
  set_gdt (Z.of_nat i) v s = Ok (tt, put_gdt (GDT s) (GDT_SIZE s) (<[i := v]> (gdt_table s)) s).
Proof. intros Hi. unfold set_gdt. by rewrite Nat2Z.id, bool_decide_true. Qed.

(** The loop of [init_final_gdt] over the cpus. *)
Lemma percpu_entries_run s offs :
  areas_ok s offs -> per_cpu_offsets s = offs -> PER_CPU_OFFSETS s <> NULL ->
  Forall2 matches (gdt_header ++ replicate (2 * length offs) NullDesc) (gdt_table s) ->
  exists l, for_each (range 0 (Z.of_nat (length offs))) (set_percpu_entry lk) s = Ok (tt, put_gdt (GDT s) (GDT_SIZE s) l s) /\
    Forall2 matches (final_gdt offs (replicate (length offs) NullDesc)) l.
Proof.
  intros Ha Eo Hp Ht.
  assert (Hw : wp (for_each (range 0 (Z.of_nat (length offs))) (set_percpu_entry lk)) (fun _ s' => exists l,
    s' = put_gdt (GDT s) (GDT_SIZE s) l s /\ Forall2 matches (final_gdt offs (replicate (length offs) NullDesc)) l) s).
  2: { apply wp_ok in Hw as ([] & s' & E & l & -> & Hl). by exists l. }
  eapply wp_mono; [eapply (wp_for_range (fun i s' => exists l, s' = put_gdt (GDT s) (GDT_SIZE s) l s /\
    Forall2 matches (gdt_header ++ map percpu_seg (take (Z.to_nat i) offs) ++
      replicate (2 * length offs - Z.to_nat i) NullDesc) l)); [lia| |]|].
  - exists (gdt_table s). split; [by destruct s|]. simpl take. by rewrite Nat.sub_0_r.
  - intros i s1 Hi (l & -> & Hl). destruct (lookup_lt_is_Some_2 offs (Z.to_nat i)) as [p Hpi]; [lia|].
    destruct (ao_each _ _ Ha _ _ Hpi) as (y & Hy & Ey & _). unfold set_percpu_entry.
    eapply wp_bind_ok; [eapply cpu_var_run; [done|simpl; by rewrite Eo|exact Hy]|]. rewrite Ey, GDT_ENTRY_eq.
    unfold GDT_PERCPU_IDX. pose proof (Forall2_length _ _ _ Hl) as Hlen.
    rewrite !length_app, length_map, length_take, length_replicate in Hlen. simpl length in Hlen.
    replace (6 + i) with (Z.of_nat (6 + Z.to_nat i)) by lia. unfold wp. rewrite set_gdt_run by (simpl; lia).
    eexists. split; [reflexivity|]. simpl gdt_table.
    replace (Z.to_nat (i + 1)) with (S (Z.to_nat i)) by lia. rewrite (take_S_r _ _ p) by done.
    assert (Hins : forall X : list desc, <[(6 + Z.to_nat i)%nat := percpu_seg p]> (gdt_header ++ X) = gdt_header ++ <[Z.to_nat i := percpu_seg p]> X).
    { intros X. rewrite insert_app_r_alt by (simpl; lia). f_equal. f_equal. simpl. lia. }
    pose proof (Forall2_insert matches _ _ (percpu_seg p) (seg_entry 0 p BYTES (SECTION_PERCPU_SIZE lk) DATA 0) (6 + Z.to_nat i)%nat Hl ltac:(by left)) as Hl2.
    clear Hl. rename Hl2 into Hl. rewrite Hins in Hl.
    rewrite insert_app_r_alt in Hl by (rewrite length_map, length_take; lia).
    rewrite length_map, length_take, Nat.min_l, Nat.sub_diag in Hl by lia.
    destruct (2 * length offs - Z.to_nat i)%nat as [|m] eqn:Em; [lia|]. replace (2 * length offs - S (Z.to_nat i))%nat with m by lia.
    rewrite map_app, <- app_assoc. exact Hl.
  - intros [] s' (l & -> & Hl). exists l. split; [done|]. rewrite Nat2Z.id, firstn_all in Hl. unfold final_gdt.
    by replace (length offs) with (2 * length offs - length offs)%nat by lia.
Qed.

(** The GDT with its first six entries. *)
Definition header_words : list Z :=
  [GDT_NULL_ENTRY; GDT_ENTRY 0 PAGES 0xFFFFF DATA 0; GDT_ENTRY 0 PAGES 0xFFFFF CODE 0; GDT_ENTRY 0 PAGES 0xFFFFF DATA 3;
   GDT_ENTRY 0 PAGES 0xFFFFF CODE 3; GDT_TSS_ENTRY (DOUBLE_FAULT_TASK_addr lk)].

Lemma header_matches (k : nat) :
  Forall2 matches (gdt_header ++ replicate k NullDesc) (header_words ++ replicate k 0).
Proof.
  apply Forall2_app.
  - unfold gdt_header, header_words. rewrite !GDT_ENTRY_eq, GDT_TSS_ENTRY_eq. repeat constructor.
  - apply Forall2_replicate. done.
Qed.

Lemma set_header_wp s (k : nat) E (rest : M st unit) Q :
  gdt_table s = replicate (6 + k) 0 ->
  wpx E rest Q (put_gdt (GDT s) (GDT_SIZE s) (header_words ++ replicate k 0) s) ->
  wpx E (set_gdt GDT_KDATA_IDX (GDT_ENTRY 0x0 PAGES 0xFFFFF DATA 0);;;
    set_gdt GDT_KCODE_IDX (GDT_ENTRY 0x0 PAGES 0xFFFFF CODE 0);;;
    set_gdt GDT_UDATA_IDX (GDT_ENTRY 0x0 PAGES 0xFFFFF DATA 3);;;
    set_gdt GDT_UCODE_IDX (GDT_ENTRY 0x0 PAGES 0xFFFFF CODE 3);;;
    set_gdt GDT_DOUBLE_FAULT_TASK_IDX (GDT_TSS_ENTRY (DOUBLE_FAULT_TASK_addr lk));;;
    rest) Q s.
Proof.
  intros Et HQ. assert (Hlen : length (gdt_table s) = (6 + k)%nat) by (rewrite Et; apply length_replicate).
  eapply wpx_bind_ok; [apply (set_gdt_run s 1); lia|].
  eapply wpx_bind_ok; [apply (set_gdt_run _ 2); simpl; rewrite length_insert; lia|].
  eapply wpx_bind_ok; [apply (set_gdt_run _ 3); simpl; rewrite !length_insert; lia|].
  eapply wpx_bind_ok; [apply (set_gdt_run _ 4); simpl; rewrite !length_insert; lia|].
  eapply wpx_bind_ok; [apply (set_gdt_run _ 5); simpl; rewrite !length_insert; lia|].
  simpl gdt_table. rewrite Et. exact HQ.
Qed.

Lemma kernel_segs_twice p r : kernel_segs p (kernel_segs p r) = kernel_segs p r.
Proof. done. Qed.

Lemma init_final_gdt_wp s L offs r x p :
  gs_ok lk c s r x -> quiet x -> pc_cpu_id x = c -> areas_ok s offs -> per_cpu_offsets s = offs ->
  PER_CPU_OFFSETS s <> NULL -> NCPUS s = Z.of_nat (length offs) -> 0 < NCPUS s < 256 ->
  8 * (6 + 2 * NCPUS s) <= MAX_SMALL -> hp_live (sg_heap s) L -> 0 <= c -> offs !! Z.to_nat c = Some p ->
  wpx no_memory (init_final_gdt lk c schedule) (fun _ s' => exists y r',
    on_cpu s' offs (replicate (length offs) NullDesc) p y r' /\ r_if r' = r_if r /\ areas s' = areas s /\
    delete c (cpus s') = delete c (cpus s)) s.
Proof.
  intros Hg Hq Eid Ha Eo Hp En Hn Hsz HL Hc Hpc. unfold init_final_gdt, acpi_get_number_cpus.
  eapply wpx_bind_ok; [reflexivity|]. rewrite (proj2 (Z.eqb_neq _ _) Hp). apply wpx_bind, wpx_ret.
  eapply wpx_bind_ok; [by erewrite bind_ok by reflexivity; rewrite (proj2 (Z.eqb_neq _ 0)) by lia|].
  rewrite u8_id by lia. apply wpx_bind, wpx_zoom, wpx_wp.
  pose proof (hp_kmalloc_law _ L ((6 + 2 * NCPUS s) * 8) HL ltac:(lia)) as H1. unfold wp in *.
  destruct (hp_kmalloc _ _) as [[g h]|]; [|done]. apply wpx_bind, wpx_wp, wp_modify.
  destruct H1 as [[-> H1]|(Hgn & Hnin & Hh)]; [by apply wpx_bind, wpx_halt; right; right|].
  rewrite (proj2 (Z.eqb_neq _ _) Hgn). apply wpx_bind, wpx_ret.
  apply (set_header_wp _ (2 * length offs)); [cbn [gdt_table put_gdt put_heap]; f_equal; lia|].
  unfold init_double_fault_interrupt_task, get_regs. pose proof (gs_regs _ _ _ _ _ Hg) as Hr.
  apply wpx_bind. eapply wpx_bind_ok; [simpl; by rewrite Hr|]. apply wpx_wp, wp_modify.
  set (s1 := put_df_task _ _ _). assert (Hgb : is_boot_gdt lk g = false).
  { pose proof (hp_live_static _ _ g Hh ltac:(set_solver)) as Hns. destruct (lk_static lk Hlk) as (_ & _ & S3 & S4).
    unfold is_boot_gdt. apply orb_false_intro; apply Z.eqb_neq; by intros ->. }
  destruct (percpu_entries_run s1 offs) as (l & El & Hl); [by apply (areas_ok_ext s)|done|done|apply header_matches|].
  rewrite En. eapply wpx_bind_ok; [exact El|]. unfold load_gdt, cpu_lgdt, mod_regs, get_regs.
  apply wpx_bind. rewrite (proj2 (Z.eqb_neq _ _) Hgn). eapply wpx_bind_ok; [reflexivity|].
  eapply wpx_bind_ok; [simpl; by rewrite Hr|]. apply wpx_wp, wp_modify. simpl cpus.
  rewrite u16_id by (unfold MAX_SMALL in *; lia). set (s2 := put_cpus _ _).
  set (r2 := set_gdtr ((6 + 2 * Z.of_nat (length offs)) * 8 - 1) g r).
  assert (Hg2 : gs_ok lk c s2 r2 x) by (destruct Hg; split; try done; apply lookup_insert_eq).
  eapply wpx_bind_ok; [by eapply cpu_id_run|]. rewrite Eid.
  assert (Hf2 : gdt_final s2 offs (replicate (length offs) NullDesc)).
  { split; try done; [simpl; lia|by rewrite length_replicate|by apply (areas_ok_ext s)]. }
  destruct (kernel_segs_run s2 offs _ r2 p Hf2) as (s3 & y & E3 & Ho & Hy & l3 & E4); try done.
  { apply lookup_insert_eq. }
  { simpl. lia. }
  unfold wpx. rewrite E3. exists y, (kernel_segs p r2). split_and!; [done|done|by rewrite E4|].
  rewrite E4. simpl. by rewrite !delete_insert_eq.
Qed.

(** ** The task state segment of a cpu *)

(** Another value for the variables of the cpu, at the same address. *)
Lemma gs_ok_update s r y y' :
  gs_ok lk c s r y -> this_cpu_off y' = this_cpu_off y -> gs_ok lk c (put_areas (<[area_of lk r := y']> (areas s)) s) r y'.
Proof. intros [] E. split; try done; [simpl; by rewrite lookup_insert_eq|by rewrite E]. Qed.

Lemma areas_ok_update s offs p y y' :
  areas_ok s offs -> p ∈ offs -> areas s !! area_key lk p = Some y -> this_cpu_off y' = this_cpu_off y ->
  pc_cpu_id y' = pc_cpu_id y -> areas_ok (put_areas (<[area_key lk p := y']> (areas s)) s) offs.
Proof.
  intros [He Hd] Hp Hy E1 E2. split; [|done]. intros i q Hq. destruct (He i q Hq) as (z & Hz & Ez1 & Ez2 & Ez3).
  simpl. destruct (decide (area_key lk q = area_key lk p)) as [E|E].
  - exists y'. rewrite E, lookup_insert_eq. rewrite E, Hy in Hz. injection Hz as ->.
    split_and!; [done|congruence|congruence|apply Ez3..].
  - exists z. by rewrite lookup_insert_ne by done.
Qed.

Lemma on_cpu_update s offs tasks p y r y' :
  on_cpu s offs tasks p y r -> this_cpu_off y' = this_cpu_off y -> pc_cpu_id y' = pc_cpu_id y ->
  on_cpu (put_areas (<[area_key lk p := y']> (areas s)) s) offs tasks p y' r.
Proof.
  intros [Hf Hr Hs Hg (H1 & H2 & H3)] E1 E2. pose proof (gs_self _ _ _ _ _ Hg) as Hself. rewrite H2 in Hself.
  split; try done.
  - destruct Hf. split; try done. eapply areas_ok_update; try done; [by eapply list_elem_of_lookup_2|rewrite Hself; apply Hg].
  - rewrite Hself. by eapply gs_ok_update.
  - split_and!; [done|congruence|congruence].
Qed.

(** Updating the last part of the table. *)
Lemma final_insert offs tasks (i : nat) d :
  <[(6 + length offs + i)%nat := d]> (final_gdt offs tasks) = final_gdt offs (<[i := d]> tasks).
Proof.
  unfold final_gdt. rewrite insert_app_r_alt by (simpl; lia). f_equal. rewrite insert_app_r_alt by (rewrite length_map; simpl; lia).
  do 2 f_equal. rewrite length_map. simpl. lia.
Qed.

Lemma on_cpu_set_task s offs tasks p y r (i : nat) a :
  on_cpu s offs tasks p y r ->
  on_cpu (put_gdt (GDT s) (GDT_SIZE s) (<[(6 + length offs + i)%nat := tss_entry 9 a]> (gdt_table s)) s)
    offs (<[i := Task a]> tasks) p y r.
Proof.
  intros [Hf Hr Hs Hg Hm]. split; try done.
  - destruct Hf. split; try done.
    + rewrite <- final_insert. apply Forall2_insert; [done|by left].
    + by rewrite length_insert.
    + by apply (areas_ok_ext s).
  - by destruct Hg.
Qed.

Lemma cpu_ltr_run s offs tasks p y r (i : nat) a :
  on_cpu s offs tasks p y r -> gdt_table s !! (6 + length offs + i)%nat = Some (tss_entry 9 a) ->
  (i < length offs)%nat -> tasks !! i = Some (Task a) ->
  let r' := set_tr (mk_sr (SEG_SEL (Z.of_nat (6 + length offs + i)) 0) (tss_entry 11 a)) r in
  exists s', cpu_ltr lk c (SEG_SEL (Z.of_nat (6 + length offs + i)) 0) s = Ok (tt, s') /\
    on_cpu s' offs tasks p y r' /\ areas s' = areas s /\ cpus s' = <[c := r']> (cpus s) /\ GDT s' = GDT s.
Proof.
  intros [Hf [Eb El] Hs Hg Hm] Hv Hi Hti r'. pose proof (gf_ncpus _ _ _ Hf) as [En Hn]. pose proof (gf_size _ _ _ Hf) as Esz.
  pose proof (gs_regs _ _ _ _ _ Hg) as Hr. set (k := (6 + length offs + i)%nat) in *.
  destruct (SEG_SEL_fields (Z.of_nat k) 0) as (E1 & _ & E3); [subst k; lia|lia|].
  unfold cpu_ltr, read_descriptor, write_descriptor, mod_regs, get_regs.
  erewrite bind_ok.
  2: { erewrite bind_ok by (by rewrite Hr). rewrite E3, E1, (proj2 (Z.ltb_ge _ _)) by (subst k; lia). cbn [orb negb Z.eqb]. cbv beta.
       rewrite Eb, (table_at_final _ _ _ Hf). simpl mbind. rewrite Nat2Z.id, Hv. reflexivity. }
  rewrite td_of_tss_entry, set_tss_type_entry by lia. cbn [td_type td_zero td_present Z.eqb Pos.eqb andb negb].
  erewrite bind_ok.
  2: { erewrite bind_ok by (by rewrite Hr). rewrite Eb, (table_at_final _ _ _ Hf), E1, Nat2Z.id.
       rewrite (put_table_final _ _ _ (gf_boot _ _ _ Hf)). reflexivity. }
  erewrite bind_ok by (simpl; by rewrite Hr). eexists. split; [reflexivity|]. split; [|done].
  destruct Hf, Hg. split; try done.
  - split; try done.
    + rewrite <- (list_insert_id tasks i (Task a)) by done. rewrite <- final_insert. apply Forall2_insert; [done|by right].
    + by apply (areas_ok_ext s).
  - unfold kernel_segs, with_segs in *. subst r'. by rewrite <- Hs.
  - split; try done. apply lookup_insert_eq.
Qed.

Definition tss_for (y : percpu) : tss :=
  mk_tss 0 (kernel_stack y) kernel_data_selector 0 0 0 0 0 0 0 0 0 0 0 0 0 0 0 0 0 0 0 0 0 0 0 0.

Lemma setup_tss_run s offs tasks p y r :
  on_cpu s offs tasks p y r -> quiet y -> r_if r = false \/ preempt_count y <> 0 -> 0 <= c ->
  let a := p + VAR_OFFSET_tss lk in
  exists s' r', setup_tss lk c schedule s = Ok (tt, s') /\
    on_cpu s' offs (<[Z.to_nat c := Task a]> tasks) p (with_tss (tss_for y) y) r' /\
    seg_base (sr_desc (r_tr r')) = a /\ delete c (cpus s') = delete c (cpus s) /\
    delete (area_key lk p) (areas s') = delete (area_key lk p) (areas s) /\ GDT s' = GDT s.
Proof.
  intros Ho Hq Hpre Hc a. pose proof Ho as [Hf Hr Hs Hg (H1 & H2 & H3)]. pose proof (gs_self _ _ _ _ _ Hg) as Hself.
  rewrite H2 in Hself. assert (Hlt := lookup_lt_Some _ _ _ H1). unfold setup_tss.
  assert (Hcv : forall s0 y0, gs_ok lk c s0 r y0 -> preempt_count y0 = preempt_count y ->
    v_if (cv_view s0) = false \/ v_count (cv_view s0) <> 0).
  { intros s0 y0 Hg0 E0. change (cv_view s0) with (seg_view lk c s0). rewrite (seg_view_ok lk c s0 r y0 Hg0). simpl. by rewrite E0. }
  erewrite bind_ok by by eapply cpu_id_run.
  erewrite bind_ok by (rewrite this_cpu_var_run; [by eapply read_ptr_run|by exists r, y|by eapply Hcv]). rewrite H2, H3.
  erewrite bind_ok by (eapply mod_area_run; rewrite Hself; apply Hg).
  pose proof (on_cpu_update _ _ _ _ _ _ (with_tss tss0 y) Ho eq_refl eq_refl) as Ho1. pose proof (oc_gs _ _ _ _ _ _ Ho1) as Hg1.
  set (s1 := put_areas _ s) in *.
  erewrite bind_ok by (rewrite this_cpu_var_run; [by eapply read_this_run|by eexists _, _|by eapply Hcv]).
  erewrite bind_ok by (unfold get_regs; by rewrite (gs_regs _ _ _ _ _ Hg1)).
  erewrite bind_ok by (eapply mod_area_run; rewrite Hself; apply Hg1).
  pose proof (on_cpu_update _ _ _ _ _ _ (with_tss (tss_for y) y) Ho1 eq_refl eq_refl) as Ho2.
  assert (Ess : sr_sel (r_ss r) = kernel_data_selector) by (by rewrite <- Hs). rewrite Ess.
  change (with_tss _ (with_tss tss0 y)) with (with_tss (tss_for y) y). set (s2 := put_areas _ s1) in *.
  pose proof (gf_ncpus _ _ _ Hf) as [En Hn]. unfold GDT_TSS_IDX, acpi_get_number_cpus.
  erewrite bind_ok by (erewrite bind_ok; [reflexivity|]; erewrite bind_ok by reflexivity;
    simpl; by rewrite (proj2 (Z.eqb_neq _ 0)) by lia). cbn beta.
  pose proof (on_cpu_set_task _ _ _ _ _ _ (Z.to_nat c) a Ho2) as Ho3.
  destruct (ao_each _ _ (gf_areas _ _ _ Hf) _ _ H1) as (_ & _ & _ & _ & Hp0 & Hp1). destruct (lk_tss lk Hlk) as [Hv0 Hv1].
  rewrite u32_id by (unfold SIZEOF_TSS in *; lia). rewrite GDT_TSS_ENTRY_eq. fold a.
  assert (Hlen : length (gdt_table s2) = (6 + length offs + length offs)%nat).
  { rewrite <- (Forall2_length _ _ _ (gf_table _ _ _ (oc_gdt _ _ _ _ _ _ Ho2))). unfold final_gdt.
    rewrite !length_app, length_map, (gf_tasks _ _ _ Hf). simpl. lia. }
  replace (6 + NCPUS s + c) with (Z.of_nat (6 + length offs + Z.to_nat c)) by lia.
  erewrite bind_ok by (apply set_gdt_run; rewrite Hlen; lia).
  destruct (cpu_ltr_run _ _ _ _ _ _ (Z.to_nat c) a Ho3) as (s4 & E4 & Ho4 & Ea & Ec & Eg); [..|].
  - simpl. apply list_lookup_insert_eq. change (gdt_table s) with (gdt_table s2). lia.
  - lia.
  - apply list_lookup_insert_eq. rewrite (gf_tasks _ _ _ Hf). lia.
  - eexists s4, _. split; [exact E4|]. split; [exact Ho4|]. split_and!.
    + simpl. apply seg_base_tss; [lia|]. subst a. unfold SIZEOF_TSS in *. lia.
    + rewrite Ec. simpl. by rewrite delete_insert_eq.
    + rewrite Ea. simpl. by rewrite !delete_insert_eq.
    + by rewrite Eg.
Qed.

(** ** Application processors and interrupts *)

Lemma set_segment_registers_for_kernel_run s offs tasks r p :
  gdt_final s offs tasks -> cpus s !! c = Some r -> gdtr_base r = GDT s -> gdtr_limit r = 8 * GDT_SIZE s - 1 ->
  0 <= c -> offs !! Z.to_nat c = Some p ->
  exists s' y, set_segment_registers_for_kernel lk c s = Ok (tt, s') /\ on_cpu s' offs tasks p y (kernel_segs p r) /\
    areas s' = areas s /\ cpus s' = <[c := kernel_segs p r]> (cpus s).
Proof.
  intros Hf Hr Eb El Hc Hp. pose proof (lookup_lt_Some _ _ _ Hp) as Hlt. pose proof (gf_ncpus _ _ _ Hf) as [En Hn].
  destruct (kernel_segs_run s offs tasks r p Hf Hr Eb El Hc Hp) as (s' & y & E & Ho & Hy & l & El').
  unfold set_segment_registers_for_kernel. erewrite bind_ok by reflexivity. cbn zeta. rewrite u8_id by lia.
  exists s', y. rewrite El' at 3 4. done.
Qed.

Lemma set_flag_regs s r b : cpus s !! c = Some r ->
  cpu_set_interrupt_flag b s = Ok (tt, put_cpus (<[c := set_if b r]> (cpus s)) s).
Proof. intros Hr. simpl. unfold mod_regs, get_regs, bind. by rewrite Hr. Qed.

(** Other registers than the segments. *)
Lemma on_cpu_regs s offs tasks p y r r' :
  on_cpu s offs tasks p y r -> gdtr_base r' = gdtr_base r -> gdtr_limit r' = gdtr_limit r -> kernel_segs p r' = r' ->
  on_cpu (put_cpus (<[c := r']> (cpus s)) s) offs tasks p y r'.
Proof.
  intros [Hf [Eb El] Hs Hg Hm] E1 E2 E3. assert (Egs : r_gs r' = r_gs r) by (by rewrite <- E3, <- Hs).
  split; try done.
  - destruct Hf. split; try done. by apply (areas_ok_ext s).
  - by rewrite E1, E2.
  - destruct Hg. unfold area_of in *. split; try (by rewrite ?Egs); [apply lookup_insert_eq|..]; unfold area_of; by rewrite Egs.
Qed.

Lemma switch_to_kernel_addr_space_run s offs tasks p y r :
  on_cpu s offs tasks p y r -> page_dir_phy_addr s <> NULL ->
  exists s', switch_to_kernel_addr_space lk c s = Ok (tt, s') /\
    on_cpu s' offs tasks p (with_curr_addr_space (KERNEL_ADDR_SPACE_addr lk) y) (set_cr3 (page_dir_phy_addr s) r) /\
    areas s' = <[area_key lk p := with_curr_addr_space (KERNEL_ADDR_SPACE_addr lk) y]> (areas s) /\
    cpus s' = <[c := set_cr3 (page_dir_phy_addr s) r]> (cpus s) /\ GDT s' = GDT s.
Proof.
  intros Ho Hd. unfold switch_to_kernel_addr_space. erewrite bind_ok by reflexivity. rewrite (proj2 (Z.eqb_neq _ _) Hd).
  erewrite bind_ok by reflexivity. pose proof (gs_regs _ _ _ _ _ (oc_gs _ _ _ _ _ _ Ho)) as Hr.
  erewrite bind_ok by (simpl; unfold get_regs, bind; by rewrite Hr). erewrite bind_ok by by apply set_flag_regs.
  pose proof (on_cpu_regs _ _ _ _ _ _ (set_if false r) Ho eq_refl eq_refl
    ltac:(pose proof (oc_segs _ _ _ _ _ _ Ho) as E; by rewrite <- E)) as Ho1.
  pose proof (oc_gs _ _ _ _ _ _ Ho1) as Hg1. set (s1 := put_cpus _ s) in *.
  erewrite bind_ok.
  2: { rewrite this_cpu_var_run; [by eapply write_this_run|by eexists _, _|]. change (cv_view s1) with (seg_view lk c s1).
       erewrite seg_view_ok by done. by left. }
  assert (Hself : area_of lk (set_if false r) = area_key lk p).
  { rewrite <- (gs_self _ _ _ _ _ Hg1). f_equal. apply (oc_mine _ _ _ _ _ _ Ho1). }
  rewrite Hself. pose proof (on_cpu_update _ _ _ _ _ _ (with_curr_addr_space (KERNEL_ADDR_SPACE_addr lk) y) Ho1 eq_refl eq_refl) as Ho2.
  set (s2 := put_areas _ s1) in *. unfold mod_regs at 1, get_regs.
  erewrite bind_ok by (erewrite bind_ok by (simpl; by rewrite lookup_insert_eq); reflexivity).
  rewrite (set_flag_regs _ (set_cr3 (page_dir_phy_addr s) (set_if false r))) by (simpl; by rewrite lookup_insert_eq).
  assert (Eregs : set_if (r_if r) (set_cr3 (page_dir_phy_addr s) (set_if false r)) = set_cr3 (page_dir_phy_addr s) r) by by destruct r.
  rewrite Eregs. exists (put_cpus (<[c := set_cr3 (page_dir_phy_addr s) r]> (cpus s2)) s2). split_and!.
  - unfold put_cpus. simpl. by rewrite !insert_insert_eq.
  - apply (on_cpu_regs _ _ _ _ _ _ _ Ho2); [done|done|]. pose proof (oc_segs _ _ _ _ _ _ Ho) as E. by rewrite <- E.
  - done.
  - simpl. by rewrite insert_insert_eq.
  - done.
Qed.

Lemma ap_init_segmentation_run s offs tasks r p y :
  gdt_final s offs tasks -> cpus s !! c = Some r -> 0 <= c -> offs !! Z.to_nat c = Some p ->
  areas s !! area_key lk p = Some y -> page_dir_phy_addr s <> NULL ->
  exists s' r', ap_init_segmentation lk c s = Ok (tt, s') /\
    on_cpu s' offs tasks p (with_curr_addr_space (KERNEL_ADDR_SPACE_addr lk) y) r' /\
    r_if r' = r_if r /\ r_cr3 r' = page_dir_phy_addr s /\ delete c (cpus s') = delete c (cpus s) /\
    delete (area_key lk p) (areas s') = delete (area_key lk p) (areas s) /\ GDT s' = GDT s.
Proof.
  intros Hf Hr Hc Hp Hy Hd. unfold ap_init_segmentation. erewrite bind_ok by reflexivity.
  rewrite (proj2 (Z.eqb_neq _ _) (gf_ptr _ _ _ Hf)). erewrite bind_ok by reflexivity. erewrite bind_ok by reflexivity.
  pose proof (gf_ncpus _ _ _ Hf) as [En Hn]. pose proof (gf_size _ _ _ Hf) as Esz. pose proof (lookup_lt_Some _ _ _ Hp) as Hlt.
  unfold load_gdt, cpu_lgdt, mod_regs, get_regs. rewrite (proj2 (Z.eqb_neq _ _) (gf_ptr _ _ _ Hf)).
  erewrite bind_ok by (erewrite bind_ok by reflexivity; by erewrite bind_ok by (by rewrite Hr)).
  erewrite bind_ok by reflexivity. cbn zeta. rewrite u8_id, u16_id by lia.
  set (r1 := set_gdtr (GDT_SIZE s * 8 - 1) (GDT s) r). set (s1 := put_cpus _ s).
  assert (Hf1 : gdt_final s1 offs tasks) by (destruct Hf; split; try done; by apply (areas_ok_ext s)).
  destruct (kernel_segs_run s1 offs tasks r1 p Hf1) as (s2 & y2 & E2 & Ho2 & Hy2 & l2 & El2); try done.
  { apply lookup_insert_eq. }
  { simpl. lia. }
  erewrite bind_ok by exact E2. simpl in Hy2. rewrite Hy in Hy2. injection Hy2 as <-.
  destruct (switch_to_kernel_addr_space_run s2 _ _ _ _ _ Ho2) as (s3 & E3 & Ho3 & Ea & Ec & Eg); [by rewrite El2|].
  eexists s3, _. split; [exact E3|]. split; [exact Ho3|]. rewrite Ea, Ec, Eg, El2. simpl. by rewrite !delete_insert_eq.
Qed.

End Areas.
