(* ===== verification/SegProps.v ===== *)
(** * Properties of segmentation and per-cpu variables

    The boot GDT and the first per-cpu variables, and the properties of
    [segmentation.c] and [percpu.c], each for any heap that keeps its promise
    and any addresses the linker may choose. *)

From S2P Require Import Prelude Math Bits Kmalloc KHeap Percpu Segmentation SegmentationSpec.

Section Boot.
Context {A : Type} `{HLaws : HeapLaws A} (lk : linker) (c : Z) (schedule : M (segst A) unit).
Abbreviation st := (segst A).
Implicit Types (s : st).
#[local] Hint Extern 0 (CpuVars _) => exact (seg_cpu_vars lk c) : typeclass_instances.

Hypothesis Hlk : linker_ok lk.

(** The boot GDT: code and data at [base], the variables of the cpu at [p]. *)
Definition boot_gdt (base p : Z) : list desc :=
  [NullDesc; Seg base PAGES 0xFFFFF DATA 0; Seg base PAGES 0xFFFFF CODE 0; Seg p BYTES (SECTION_PERCPU_SIZE lk) DATA 0].

Definition boot_segs (base p : Z) (r : cpu_regs) : cpu_regs :=
  with_segs BOOT_GDT_KCODE_IDX BOOT_GDT_KDATA_IDX BOOT_GDT_BSP_PC_IDX (seg_entry 1 base PAGES 0xFFFFF CODE 0)
    (seg_entry 1 base PAGES 0xFFFFF DATA 0) (seg_entry 1 p BYTES (SECTION_PERCPU_SIZE lk) DATA 0) r.

Lemma is_boot_gdt_addr : is_boot_gdt lk (BOOT_GDT_addr lk) = true /\ is_boot_gdt lk (to_phys (BOOT_GDT_addr lk)) = true.
Proof. unfold is_boot_gdt. by rewrite !Z.eqb_refl, orb_true_r. Qed.

Lemma boot_table a ds s : is_boot_gdt lk a = true -> Forall2 matches ds (BOOT_GDT s) -> table_is lk a ds s.
Proof. intros E Hm. exists (BOOT_GDT s). unfold table_at. by rewrite E. Qed.

Lemma loaded_boot r r' ds s s' : is_boot_gdt lk (gdtr_base r) = true -> loaded lk c r r' ds s s' ->
  exists l, s' = put_cpus (<[c := r']> (cpus s)) (put_boot_gdt l s) /\ Forall2 matches ds l.
Proof. intros E (l & -> & Hl). exists l. unfold put_table. by rewrite E. Qed.

Lemma boot_lookup base p :
  boot_gdt base p !! Z.to_nat BOOT_GDT_KDATA_IDX = Some (Seg base PAGES 0xFFFFF DATA 0) /\
  boot_gdt base p !! Z.to_nat BOOT_GDT_KCODE_IDX = Some (Seg base PAGES 0xFFFFF CODE 0) /\
  boot_gdt base p !! Z.to_nat BOOT_GDT_BSP_PC_IDX = Some (Seg p BYTES (SECTION_PERCPU_SIZE lk) DATA 0).
Proof. done. Qed.

(** [set_higher_half_segments] loads CS last. *)
Lemma set_higher_half_segments_run s r base p target :
  cpus s !! c = Some r -> is_boot_gdt lk (gdtr_base r) = true -> gdtr_limit r = 31 ->
  Forall2 matches (boot_gdt base p) (BOOT_GDT s) ->
  exists l, set_higher_half_segments lk c (SEG_SEL BOOT_GDT_KCODE_IDX 0) (SEG_SEL BOOT_GDT_KDATA_IDX 0)
      (SEG_SEL BOOT_GDT_BSP_PC_IDX 0) target s =
      Ok (tt, put_cpus (<[c := set_eip target (boot_segs base p r)]> (cpus s)) (put_boot_gdt l s)) /\
    Forall2 matches (boot_gdt base p) l.
Proof.
  intros Hr Eb El Hm. pose proof (boot_table _ _ _ Eb Hm) as Ht. destruct (boot_lookup base p) as (Ed & Ec & Ep).
  assert (sel_ok BOOT_GDT_KDATA_IDX /\ sel_ok BOOT_GDT_KCODE_IDX /\ sel_ok BOOT_GDT_BSP_PC_IDX) as (Kd & Kc & Kp) by done.
  unfold set_higher_half_segments.
  destruct (cpu_set_data_run lk c s r _ _ _ _ _ _ _ set_ds Hr Ht Kd Ed ltac:(lia) ltac:(rewrite El; done)) as (s1 & E1 & L1).
  pose proof (loaded_regs _ _ _ _ _ _ _ L1) as R1. pose proof (loaded_table _ _ _ _ _ _ _ Ht L1) as T1.
  destruct (cpu_set_data_run lk c s1 _ _ _ _ _ _ _ _ set_es R1 T1 Kd Ed ltac:(lia) ltac:(simpl; rewrite El; done)) as (s2 & E2 & L2).
  pose proof (loaded_regs _ _ _ _ _ _ _ L2) as R2. pose proof (loaded_table _ _ _ _ _ _ _ T1 L2) as T2.
  destruct (cpu_set_data_run lk c s2 _ _ _ _ _ _ _ _ set_fs R2 T2 Kd Ed ltac:(lia) ltac:(simpl; rewrite El; done)) as (s3 & E3 & L3).
  pose proof (loaded_regs _ _ _ _ _ _ _ L3) as R3. pose proof (loaded_table _ _ _ _ _ _ _ T2 L3) as T3.
  destruct (cpu_set_ss_run lk c s3 _ _ _ _ _ _ R3 T3 Kd Ed ltac:(simpl; rewrite El; done)) as (s4 & E4 & L4).
  pose proof (loaded_regs _ _ _ _ _ _ _ L4) as R4. pose proof (loaded_table _ _ _ _ _ _ _ T3 L4) as T4.
  destruct (cpu_set_data_run lk c s4 _ _ _ _ _ _ _ _ set_gs R4 T4 Kp Ep ltac:(lia) ltac:(simpl; rewrite El; done)) as (s5 & E5 & L5).
  pose proof (loaded_regs _ _ _ _ _ _ _ L5) as R5. pose proof (loaded_table _ _ _ _ _ _ _ T4 L5) as T5.
  destruct (cpu_set_cs_run lk c s5 _ _ _ _ _ _ R5 T5 Kc Ec ltac:(simpl; rewrite El; done)) as (s6 & E6 & L6).
  pose proof (loaded_regs _ _ _ _ _ _ _ L6) as R6.
  erewrite bind_ok by exact E1. erewrite bind_ok by exact E2. erewrite bind_ok by exact E3. erewrite bind_ok by exact E4.
  erewrite bind_ok by exact E5. erewrite bind_ok by exact E6. unfold mod_regs, get_regs. erewrite bind_ok by (by rewrite R6).
  assert (L : loaded lk c r (boot_segs base p r) (boot_gdt base p) s s6).
  { do 5 (eapply loaded_trans; [|eassumption|]; [done|]). exact L6. }
  apply loaded_boot in L as (l & -> & Hl); [|done]. exists l. split; [|done]. unfold modify, put_cpus. simpl. by rewrite insert_insert_eq.
Qed.

Lemma percpu_u16 : u16 (SECTION_PERCPU_SIZE lk) = SECTION_PERCPU_SIZE lk.
Proof. pose proof (lk_size lk Hlk). unfold MAX_SMALL in *. apply u16_id. lia. Qed.

Lemma init_segmentation_run s r target :
  cpus s !! c = Some r -> BOOT_GDT s = BOOT_GDT_init -> KERNEL_PHY_OFFSET <= target ->
  let p := to_phys (SECTION_PERCPU_START_ADDR lk) in
  let r' := set_eip target (boot_segs 0x40000000 p (set_gdtr 31 (to_phys (BOOT_GDT_addr lk)) r)) in
  exists l, init_segmentation lk c target s = Ok (tt, put_cpus (<[c := r']> (cpus s)) (put_boot_gdt l s)) /\
    Forall2 matches (boot_gdt 0x40000000 p) l.
Proof.
  intros Hr Eb Ht p r'. unfold init_segmentation. rewrite (proj2 (Z.leb_le _ _) Ht). erewrite bind_ok by reflexivity.
  cbn zeta. erewrite bind_ok by reflexivity. unfold load_gdt, cpu_lgdt, mod_regs, get_regs.
  pose proof (lk_boot lk Hlk) as Hb. assert (Hn : to_phys (BOOT_GDT_addr lk) <> NULL).
  { unfold to_phys, KERNEL_PHY_OFFSET, NULL in *. rewrite u32_id by lia. lia. }
  rewrite (proj2 (Z.eqb_neq _ _) Hn).
  erewrite bind_ok by (erewrite bind_ok by reflexivity; by erewrite bind_ok by (simpl; by rewrite Hr)).
  change (u16 (4 * 8 - 1)) with 31. set (s1 := put_cpus _ _).
  destruct (set_higher_half_segments_run s1 (set_gdtr 31 (to_phys (BOOT_GDT_addr lk)) r) 0x40000000 p target) as (l & E & Hl).
  - apply lookup_insert_eq.
  - apply is_boot_gdt_addr.
  - done.
  - simpl. rewrite Eb, percpu_u16. unfold BOOT_GDT_init. rewrite !GDT_ENTRY_eq. repeat constructor.
  - exists l. split; [|done]. rewrite E. subst s1. unfold put_cpus, put_boot_gdt. simpl. by rewrite insert_insert_eq.
Qed.

(** The registers of the boot cpu and its area. *)
Lemma boot_gs_ok s base p r y :
  cpus s !! c = Some (boot_segs base p r) -> 0 <= p < 2 ^ 32 ->
  areas s !! area_key lk p = Some y -> area_key lk (this_cpu_off y) = area_key lk p ->
  gs_ok lk c s (boot_segs base p r) y.
Proof.
  intros Hr Hp Hy Ey. pose proof (lk_off lk Hlk). pose proof (lk_size lk Hlk). unfold MAX_SMALL in *.
  split; [done|done| |unfold area_of; simpl; by rewrite seg_base_entry by lia|unfold area_of; simpl; by rewrite seg_base_entry by lia].
  simpl. rewrite seg_limit_entry by lia. lia.
Qed.

Lemma area_key_start :
  area_key lk (SECTION_PERCPU_START_ADDR lk) = SECTION_PERCPU_START_ADDR lk /\
  area_key lk (to_phys (SECTION_PERCPU_START_ADDR lk)) = SECTION_PERCPU_START_ADDR lk.
Proof. unfold area_key. rewrite Z.eqb_refl. by destruct (_ =? _). Qed.

Lemma init_bsp_boot_percpu_run s base r x :
  let p := to_phys (SECTION_PERCPU_START_ADDR lk) in
  let r1 := boot_segs base p r in
  cpus s !! c = Some r1 -> r_paging r1 = false -> KERNEL_PHY_OFFSET < r_eip r1 -> r_if r1 = false ->
  areas s !! SECTION_PERCPU_START_ADDR lk = Some x ->
  let y := with_kernel_stack (stack_top lk) (with_cpu_id (u8 c) (with_this_cpu_off (SECTION_PERCPU_START_ADDR lk) x)) in
  init_bsp_boot_percpu lk c s = Ok (tt, put_areas (<[SECTION_PERCPU_START_ADDR lk := y]> (areas s)) s) /\
  gs_ok lk c (put_areas (<[SECTION_PERCPU_START_ADDR lk := y]> (areas s)) s) r1 y.
Proof.
  intros p r1 Hr Hpg He Hif Hx y. destruct area_key_start as [K1 K2]. fold p in K2. pose proof (lk_percpu lk Hlk) as Hst.
  assert (Hp : 0 <= p < 2 ^ 32) by apply u32_range. assert (Ka : area_of lk r1 = SECTION_PERCPU_START_ADDR lk).
  { unfold area_of. simpl. by rewrite seg_base_entry, K2 by lia. }
  assert (Hg : forall z, this_cpu_off z = SECTION_PERCPU_START_ADDR lk ->
    gs_ok lk c (put_areas (<[SECTION_PERCPU_START_ADDR lk := z]> (areas s)) s) r1 z).
  { intros z Ez. apply boot_gs_ok; [done|done|by rewrite K2; apply lookup_insert_eq|by rewrite Ez, K1, K2]. }
  assert (Hvar : forall z f, this_cpu_off z = SECTION_PERCPU_START_ADDR lk ->
    this_cpu_var (write_this lk c f) (put_areas (<[SECTION_PERCPU_START_ADDR lk := z]> (areas s)) s) =
    Ok (tt, put_areas (<[SECTION_PERCPU_START_ADDR lk := f z]> (areas s)) s)).
  { intros z f Ez. specialize (Hg z Ez). rewrite this_cpu_var_run; [|by eexists _, _|].
    - erewrite write_this_run by done. rewrite Ka. unfold put_areas. simpl. by rewrite insert_insert_eq.
    - left. change (cv_view ?s0) with (seg_view lk c s0). by erewrite seg_view_ok by done. }
  split; [|by apply Hg]. unfold init_bsp_boot_percpu, get_regs. erewrite bind_ok by (by rewrite Hr).
  rewrite Hpg, (proj2 (Z.ltb_lt _ _) He). do 2 erewrite bind_ok by reflexivity.
  erewrite bind_ok by (apply mod_area_run; by rewrite K1). rewrite K1. erewrite bind_ok by reflexivity.
  erewrite bind_ok by by apply Hvar. by rewrite Hvar.
Qed.

Lemma fixup_gdt_after_paging_enable_run s r base p :
  cpus s !! c = Some r -> gdtr_base r = to_phys (BOOT_GDT_addr lk) -> gdtr_limit r = 31 ->
  Forall2 matches (boot_gdt base p) (BOOT_GDT s) ->
  let q := SECTION_PERCPU_START_ADDR lk in
  let r' := set_gdtr 31 (BOOT_GDT_addr lk) (boot_segs 0 q r) in
  exists l, fixup_gdt_after_paging_enable lk c s = Ok (tt, put_cpus (<[c := r']> (cpus s)) (put_boot_gdt l s)) /\
    Forall2 matches (boot_gdt 0 q) l.
Proof.
  intros Hr Eb El Hm q r'. pose proof (lk_boot lk Hlk) as Hb. unfold fixup_gdt_after_paging_enable, get_regs.
  erewrite bind_ok by (by rewrite Hr). rewrite (proj2 (Z.eqb_eq _ _) Eb). cbn zeta. do 4 erewrite bind_ok by reflexivity.
  simpl BOOT_GDT. set (s1 := put_boot_gdt _ _).
  assert (Hm1 : Forall2 matches (boot_gdt 0 q) (BOOT_GDT s1)).
  { simpl. pose proof (Forall2_length _ _ _ Hm) as Hlen. destruct (BOOT_GDT s) as [|w0 [|w1 [|w2 [|w3 [|]]]]]; try done.
    apply Forall2_cons in Hm as [Hm0 _]. rewrite !GDT_ENTRY_eq, percpu_u16. simpl.
    repeat (constructor; [first [exact Hm0|by left]|]). constructor. }
  destruct (boot_lookup 0 q) as (Ed & Ec & Ep).
  destruct (set_segment_regs_run lk c s1 r (boot_gdt 0 q) BOOT_GDT_KCODE_IDX BOOT_GDT_KDATA_IDX BOOT_GDT_BSP_PC_IDX
    0 PAGES 0xFFFFF 0 PAGES 0xFFFFF q BYTES (SECTION_PERCPU_SIZE lk) 0) as (s2 & E2 & L2); try done; try (rewrite El; done).
  { apply boot_table; [rewrite Eb; apply is_boot_gdt_addr|done]. }
  erewrite bind_ok by exact E2. apply loaded_boot in L2 as (l & -> & Hl); [|rewrite Eb; apply is_boot_gdt_addr].
  exists l. split; [|done]. unfold load_gdt, cpu_lgdt, mod_regs, get_regs.
  rewrite (proj2 (Z.eqb_neq _ _)) by (unfold NULL, KERNEL_PHY_OFFSET in *; lia). erewrite bind_ok by reflexivity.
  erewrite bind_ok by (simpl; by rewrite lookup_insert_eq). unfold modify, put_cpus. simpl. by rewrite insert_insert_eq.
Qed.

End Boot.

(** ** Properties *)

Section Properties.
Context {A : Type} `{HLaws : HeapLaws A} (lk : linker) (schedule : M (segst A) unit).
Implicit Types (s : segst A).

(** [cpu_enable_paging] *)
Definition set_paging (r : cpu_regs) : cpu_regs :=
  mk_cpu (gdtr_limit r) (gdtr_base r) (r_cs r) (r_ds r) (r_es r) (r_fs r) (r_gs r) (r_ss r) (r_tr r) (r_cr3 r) (r_eip r)
    (r_if r) true.

Definition flat_regs (r : cpu_regs) : list seg_reg := [r_cs r; r_ds r; r_es r; r_fs r; r_ss r].

(** The descriptors say what the arguments of the macros say: whatever the
    processor reads back from a descriptor built by [GDT_ENTRY] is the base,
    the limit (in pages of 4KiB or in bytes), the type and the privilege level
    given, the segment is present, and the descriptor fits in 64 bits; so for
    [GDT_TSS_ENTRY] and [SEG_SEL]. *)
Theorem descriptors_correct base gran limit ty dpl addr idx :
  0 <= base < 2 ^ 32 -> 0 <= limit < 2 ^ 20 -> 0 <= dpl < 4 -> 0 <= addr < 2 ^ 32 -> 0 <= idx < 2 ^ 13 ->
  (let v := GDT_ENTRY base gran limit ty dpl in
   0 <= v < 2 ^ 64 /\ sd_value (sd_of_value v) = v /\ seg_base v = base /\
   seg_limit v = match gran with BYTES => limit | PAGES => limit * 4096 + 4095 end /\
   type (sd_of_value v) = type_value ty /\ privilege_level (sd_of_value v) = dpl /\
   present (sd_of_value v) = 1 /\ system (sd_of_value v) = 1) /\
  (let v := GDT_TSS_ENTRY addr in
   0 <= v < 2 ^ 64 /\ td_value (td_of_value v) = v /\ seg_base v = addr /\ seg_limit v = SIZEOF_TSS /\
   td_type (td_of_value v) = 9 /\ td_present (td_of_value v) = 1) /\
  (let sel := SEG_SEL idx dpl in
   0 <= sel < 2 ^ 16 /\ sel_index sel = idx /\ sel_rpl sel = dpl /\ sel_is_local sel = 0).
Proof.
  intros Hb Hl Hd Ha Hi. cbv zeta. rewrite GDT_ENTRY_eq, GDT_TSS_ENTRY_eq. split_and!.
  1-2: apply (pack_range (sd_fields _)); by apply widths_okb.
  1: by rewrite sd_of_seg_entry.
  1: by apply seg_base_entry.
  1: by apply seg_limit_entry.
  1-4: by rewrite sd_of_seg_entry.
  1-2: apply pack_range; by apply widths_okb.
  1: by rewrite td_of_tss_entry.
  1: by apply seg_base_tss.
  1: by apply seg_limit_tss.
  1-2: by rewrite td_of_tss_entry.
  1-2: apply pack_range; by apply widths_okb.
  1-3: by apply SEG_SEL_fields.
Qed.

(** Booting: [init_segmentation] jumps to its target with segments that
    map every higher half address to its physical address; after
    [init_bsp_boot_percpu] the cpu reads its own number from its variables;
    and once paging is on, [fixup_gdt_after_paging_enable] leaves flat
    segments, the higher half address of the table, and the variables where
    they were. *)
Theorem boot_segmentation_correct c s r x target :
  linker_ok lk -> cpus s !! c = Some r -> BOOT_GDT s = BOOT_GDT_init -> KERNEL_PHY_OFFSET < target ->
  r_if r = false -> r_paging r = false -> areas s !! SECTION_PERCPU_START_ADDR lk = Some x -> quiet x ->
  exists s1 s2 r2, init_segmentation lk c target s = Ok (tt, s1) /\ init_bsp_boot_percpu lk c s1 = Ok (tt, s2) /\
    cpus s2 = <[c := r2]> (cpus s) /\ r_eip r2 = target /\ cpu_id lk c schedule s2 = Ok (u8 c, s2) /\
    (forall sr v, sr ∈ flat_regs r2 -> KERNEL_PHY_OFFSET <= v < 2 ^ 32 ->
       u32 (seg_base (sr_desc sr) + v) = to_phys v /\ v <= seg_limit (sr_desc sr)) /\
    let s3 := put_cpus (<[c := set_paging r2]> (cpus s2)) s2 in
    exists s4 r4, fixup_gdt_after_paging_enable lk c s3 = Ok (tt, s4) /\ cpus s4 = <[c := r4]> (cpus s) /\
      gdtr_base r4 = BOOT_GDT_addr lk /\ cpu_id lk c schedule s4 = Ok (u8 c, s4) /\
      forall sr, sr ∈ flat_regs r4 -> seg_base (sr_desc sr) = 0 /\ seg_limit (sr_desc sr) = 2 ^ 32 - 1.
Proof.
  intros Hlk Hr Eb Ht Hif Hpg Hx Hq. destruct (init_segmentation_run lk c Hlk s r target Hr Eb ltac:(lia)) as (l & E1 & Hl).
  set (r0 := set_gdtr 31 (to_phys (BOOT_GDT_addr lk)) r) in *. set (p := to_phys (SECTION_PERCPU_START_ADDR lk)) in *.
  set (s1 := put_cpus _ _) in *. pose proof (lk_percpu lk Hlk) as Hst. destruct (area_key_start lk) as [K1 K2].
  destruct (init_bsp_boot_percpu_run lk c Hlk s1 0x40000000 (set_eip target r0) x) as [E2 Hg2]; try done; [apply lookup_insert_eq|].
  set (y := with_kernel_stack _ _) in *. set (s2 := put_areas _ _) in *.
  exists s1, s2, (boot_segs lk 0x40000000 p (set_eip target r0)). split_and!; try done.
  - rewrite (cpu_id_run lk c schedule s2 _ y Hg2 Hq). done.
  - intros sr v Hsr Hv. assert (Eb' : seg_base (sr_desc sr) = 0x40000000 /\ seg_limit (sr_desc sr) = 2 ^ 32 - 1).
    { unfold flat_regs in Hsr. repeat (apply elem_of_cons in Hsr as [->|Hsr]); [..|by apply not_elem_of_nil in Hsr]; simpl;
        rewrite seg_base_entry, seg_limit_entry by lia; done. }
    destruct Eb' as [-> ->]. split; [|lia]. unfold to_phys, KERNEL_PHY_OFFSET, u32 in *.
    replace (0x40000000 + v) with (v - 0xC0000000 + 1 * 4294967296) by lia. by rewrite Z.mod_add by lia.
  - intros s3. destruct (fixup_gdt_after_paging_enable_run lk c Hlk s3 (set_paging (boot_segs lk 0x40000000 p (set_eip target r0)))
      0x40000000 p) as (l4 & E4 & Hl4); try done; [apply lookup_insert_eq|].
    eexists _, _. split; [exact E4|]. split_and!.
    + simpl. by rewrite !insert_insert_eq.
    + done.
    + erewrite (cpu_id_run lk c schedule _ _ y); [done| |done]. apply (boot_gs_ok lk c Hlk _ 0 (SECTION_PERCPU_START_ADDR lk)
        (set_gdtr 31 (BOOT_GDT_addr lk) (set_paging (boot_segs lk 0x40000000 p (set_eip target r0))))).
      * apply lookup_insert_eq.
      * unfold KERNEL_PHY_OFFSET in Hst. lia.
      * simpl. rewrite K1. apply lookup_insert_eq.
      * done.
    + intros sr Hsr. unfold flat_regs in Hsr. repeat (apply elem_of_cons in Hsr as [->|Hsr]); [..|by apply not_elem_of_nil in Hsr]; simpl;
        rewrite seg_base_entry, seg_limit_entry by lia; done.
Qed.

(** The boot cpu of a machine with [NCPUS] cpus: [allocate_aps_percpu_areas],
    [init_final_gdt] and [setup_tss], in the order of [kernel_main], stop only
    for want of memory.  Otherwise every cpu has an area of its own that knows
    its address and its cpu, the final GDT has the layout the code documents
    (flat kernel and user segments, the double fault task, the area of every
    cpu, no task but the one of the boot cpu), and the boot cpu uses it with
    its own area and its own task state segment. *)
Theorem final_gdt_correct c s L r x :
  linker_ok lk -> gs_ok lk c s r x -> hp_live (sg_heap s) L -> quiet x -> r_if r = false \/ preempt_count x <> 0 ->
  pc_cpu_id x = c -> this_cpu_off x = SECTION_PERCPU_START_ADDR lk -> 0 <= c < NCPUS s -> NCPUS s < 256 ->
  8 * (6 + 2 * NCPUS s) <= MAX_SMALL ->
  match (allocate_aps_percpu_areas lk c schedule;;; init_final_gdt lk c schedule;;; setup_tss lk c schedule) s with
  | Ok (_, s') => exists offs r',
      let p := SECTION_PERCPU_START_ADDR lk in
      let tasks := <[Z.to_nat c := Task (p + VAR_OFFSET_tss lk)]> (replicate (length offs) NullDesc) in
      Z.of_nat (length offs) = NCPUS s /\ on_cpu lk c s' offs tasks p (with_tss (tss_for x) x) r' /\
      seg_base (sr_desc (r_tr r')) = p + VAR_OFFSET_tss lk /\ delete c (cpus s') = delete c (cpus s)
  | Halt h => no_memory h
  end.
Proof.
  intros Hlk Hg HL Hq Hpre Eid Eoff Hc Hn Hsz.
  apply (wpx_bind no_memory _ _ (fun (_ : unit) s' => exists offs r', _)). eapply wpx_mono.
  { eapply allocate_aps_percpu_areas_wp; try done; lia. }
  intros [] s1 (offs & Hmi & Hlen & Eo & Ha & Hp & Hg1 & Hs1 & L1 & HL1). destruct Hs1 as (_ & _ & _ & _ & Ecp & En & _).
  destruct (lookup_lt_is_Some_2 offs (Z.to_nat c)) as [p Hpc]; [lia|]. pose proof (Hmi p Hpc) as ->.
  apply wpx_bind. eapply wpx_mono; [eapply (init_final_gdt_wp lk c schedule Hlk); try done; rewrite ?En; try done; lia|].
  intros [] s2 (y & r2 & Ho & Eif & Ear & Ecp2). pose proof (oc_gs _ _ _ _ _ _ _ _ Ho) as Hg2.
  pose proof (oc_mine _ _ _ _ _ _ _ _ Ho) as (_ & Eo2 & _). pose proof (gs_self _ _ _ _ _ Hg2) as Hs2.
  rewrite Eo2 in Hs2. pose proof (gs_area _ _ _ _ _ Hg2) as Hy. rewrite <- Hs2, Ear in Hy.
  pose proof (gs_self _ _ _ _ _ Hg1) as Hs1. rewrite Eoff in Hs1. pose proof (gs_area _ _ _ _ _ Hg1) as Hx.
  rewrite <- Hs1, Hy in Hx. injection Hx as <-.
  destruct (setup_tss_run lk c schedule Hlk s2 offs _ _ _ _ Ho Hq) as (s3 & r3 & E3 & Ho3 & Etr & Ecp3 & _ & _);
    [by rewrite Eif|lia|]. unfold wpx. rewrite E3. exists offs, r3. split_and!; [lia|done|done|]. rewrite Ecp3, Ecp2. by rewrite Ecp.
Qed.

(** C37: Cpus do not get into each other's way: another cpu that enters the
    kernel ([ap_init_segmentation], [setup_tss]) ends up with its own segment,
    area and task state segment, and a cpu that runs already keeps its
    registers, its variables and its task; each of the two then reads its own
    number. *)
Theorem cpus_isolated c1 c2 s offs tasks r1 p1 y1 r2 p2 y2 :
  linker_ok lk -> c1 <> c2 -> 0 <= c1 -> 0 <= c2 -> on_cpu lk c2 s offs tasks p2 y2 r2 -> cpus s !! c1 = Some r1 ->
  offs !! Z.to_nat c1 = Some p1 -> areas s !! area_key lk p1 = Some y1 -> r_if r1 = false ->
  quiet y1 -> quiet y2 -> page_dir_phy_addr s <> NULL ->
  let tasks' := <[Z.to_nat c1 := Task (p1 + VAR_OFFSET_tss lk)]> tasks in
  exists s' r1' y1', (ap_init_segmentation lk c1;;; setup_tss lk c1 schedule) s = Ok (tt, s') /\
    on_cpu lk c1 s' offs tasks' p1 y1' r1' /\ on_cpu lk c2 s' offs tasks' p2 y2 r2 /\
    seg_base (sr_desc (r_tr r1')) = p1 + VAR_OFFSET_tss lk /\ kernel_stack y1' = esp0 (pc_tss y1') /\
    cpu_id lk c1 schedule s' = Ok (c1, s') /\ cpu_id lk c2 schedule s' = Ok (c2, s').
Proof.
  intros Hlk Hne Hc1 Hc2 Ho2 Hr1 Hp1 Hy1 Hif Hq1 Hq2 Hd tasks'.
  destruct (ap_init_segmentation_run lk c1 Hlk Hc1 s offs tasks r1 p1 y1 (oc_gdt _ _ _ _ _ _ _ _ Ho2) Hr1 Hc1 Hp1 Hy1 Hd)
    as (s1 & r3 & E1 & Ho1 & Ei & _ & Ec & Ea & Eg).
  destruct (setup_tss_run lk c1 schedule Hlk s1 offs tasks p1 _ r3 Ho1) as (s2 & r4 & E2 & Ho3 & Etr & Ec2 & Ea2 & Eg2);
    [done|left; congruence|done|].
  set (y4 := with_tss _ _) in *. exists s2, r4, y4. erewrite bind_ok by exact E1.
  destruct Ho2 as [Hf2 Hb2 Hs2 Hg2 (M1 & M2 & M3)]. pose proof (gs_self _ _ _ _ _ Hg2) as Hself. rewrite M2 in Hself.
  assert (Hk : area_key lk p1 <> area_key lk p2).
  { intros E. pose proof (ao_distinct _ _ _ (gf_areas _ _ _ _ Hf2)) as Hnd. apply Hne.
    assert (Z.to_nat c1 = Z.to_nat c2); [|lia]. eapply NoDup_lookup; [exact Hnd|rewrite list_lookup_fmap, Hp1; reflexivity|].
    rewrite list_lookup_fmap, M1. simpl. by rewrite E. }
  assert (Hon2 : on_cpu lk c2 s2 offs tasks' p2 y2 r2).
  { split; [apply (oc_gdt _ _ _ _ _ _ _ _ Ho3)| |done| |done].
    - rewrite (gf_size _ _ _ _ (oc_gdt _ _ _ _ _ _ _ _ Ho3)), <- (gf_size _ _ _ _ Hf2), Eg2, Eg. done.
    - destruct Hg2. split; try done.
      + rewrite <- (lookup_delete_ne (cpus s2) c1 c2), Ec2, Ec, lookup_delete_ne by done. done.
      + rewrite <- Hself. rewrite <- (lookup_delete_ne (areas s2) (area_key lk p1)), Ea2, Ea, lookup_delete_ne by done.
        by rewrite Hself. }
  split_and!; try done.
  - by rewrite (cpu_id_run lk c1 schedule s2 _ _ (oc_gs _ _ _ _ _ _ _ _ Ho3)), (proj2 (proj2 (oc_mine _ _ _ _ _ _ _ _ Ho3))).
  - by rewrite (cpu_id_run lk c2 schedule s2 _ _ (oc_gs _ _ _ _ _ _ _ _ Hon2)), M3.
Qed.

End Properties.

(** ** A machine with two cpus *)

Definition lk0 : linker := mk_linker 0xC0000900 0xC0000A00 0xC0000B00 0xC0000C00 0xC0000D00 0xC0000800 0x90 0 0x10 0xC0000E00.

Lemma lk0_ok : linker_ok lk0.
Proof. split; simpl; unfold MAX_SMALL, SIZEOF_TSS, KERNEL_PHY_OFFSET; try lia.
  split_and!; [right|left|right|left]; vm_compute; first [reflexivity|discriminate].
Qed.

Definition regs0 : cpu_regs := mk_cpu 0 0 (mk_sr 0 0) (mk_sr 0 0) (mk_sr 0 0) (mk_sr 0 0) (mk_sr 0 0) (mk_sr 0 0) (mk_sr 0 0)
  0 0 false false.

(** Nothing is set up. *)
Definition seg0 : segst counting :=
  mk_segst BOOT_GDT_init 0 0 [] {[0 := regs0; 1 := regs0]} {[0xC0000800 := percpu0]} 0 [] tss0 [] 2 0x5000 counting0.

Lemma descriptors_correct_witness :
  let v := GDT_ENTRY 0x40000000 PAGES 0xFFFFF CODE 0 in seg_base v = 0x40000000 /\ seg_limit v = 0xFFFFFFFF.
Proof.
  destruct (descriptors_correct 0x40000000 PAGES 0xFFFFF CODE 0 0xC0000A00 6 ltac:(lia) ltac:(lia) ltac:(lia) ltac:(lia) ltac:(lia))
    as ((_ & _ & H1 & H2 & _) & _). cbv zeta in *. rewrite H1, H2. done.
Defined.

Lemma boot_segmentation_correct_witness :
  exists s1 s2, init_segmentation lk0 0 0xC0100000 seg0 = Ok (tt, s1) /\ init_bsp_boot_percpu lk0 0 s1 = Ok (tt, s2) /\
    cpu_id lk0 0 (ret tt) s2 = Ok (0, s2).
Proof.
  destruct (boot_segmentation_correct lk0 (ret tt) 0 seg0 regs0 percpu0 0xC0100000 lk0_ok eq_refl eq_refl
    ltac:(unfold KERNEL_PHY_OFFSET; lia) eq_refl eq_refl eq_refl ltac:(split; [simpl; lia|by right]))
    as (s1 & s2 & _ & E1 & E2 & _ & _ & E3 & _).
  exists s1, s2. split; [exact E1|]. split; [exact E2|]. exact E3.
Defined.

(** The boot cpu after booting. *)
Definition boot_vars : percpu := mk_percpu 0xC0000800 0 0xC0000D00 tss0 0 false 0.
Definition boot_regs : cpu_regs := boot_segs lk0 0 0xC0000800 regs0.
Definition seg1 : segst counting :=
  mk_segst BOOT_GDT_init 0 0 [] {[0 := boot_regs; 1 := regs0]} {[0xC0000800 := boot_vars]} 0 [] tss0 [] 2 0x5000 counting0.

Lemma final_gdt_correct_witness :
  match (allocate_aps_percpu_areas lk0 0 (ret tt);;; init_final_gdt lk0 0 (ret tt);;; setup_tss lk0 0 (ret tt)) seg1 with
  | Ok (_, s') => exists offs tasks y r', length offs = 2%nat /\ on_cpu lk0 0 s' offs tasks 0xC0000800 y r'
  | Halt _ => False
  end.
Proof.
  assert (Hg : gs_ok lk0 0 seg1 boot_regs boot_vars).
  { apply (boot_gs_ok lk0 0 lk0_ok); [reflexivity|lia|reflexivity|reflexivity]. }
  assert (H := final_gdt_correct lk0 (ret tt) 0 seg1 ∅ boot_regs boot_vars lk0_ok Hg counting0_live
    ltac:(split; [simpl; lia|by right]) ltac:(by left) eq_refl eq_refl ltac:(simpl; lia) ltac:(simpl; lia)
    ltac:(unfold MAX_SMALL; simpl; lia)).
  assert (E : is_ok ((allocate_aps_percpu_areas lk0 0 (ret tt);;; init_final_gdt lk0 0 (ret tt);;; setup_tss lk0 0 (ret tt)) seg1)
    = true) by (vm_compute; reflexivity).
  destruct ((allocate_aps_percpu_areas lk0 0 (ret tt);;; _) seg1) as [[u s']|h]; [|discriminate]. destruct H as (offs & r' & Hlen & Ho & _).
  exists offs, (<[Z.to_nat 0 := Task (SECTION_PERCPU_START_ADDR lk0 + VAR_OFFSET_tss lk0)]> (replicate (length offs) NullDesc)).
  eexists _, r'. split; [simpl in Hlen; lia|exact Ho].
Defined.

(** The boot cpu runs, the other one wakes up. *)
Definition ap_vars : percpu := mk_percpu 0x3000 1 0x4000 tss0 0 false 0.
Definition final_regs : cpu_regs := kernel_segs lk0 0 0xC0000800 (set_gdtr 79 0x2000 regs0).
Definition final_table : list Z :=
  [GDT_NULL_ENTRY; seg_entry 1 0 PAGES 0xFFFFF DATA 0; seg_entry 1 0 PAGES 0xFFFFF CODE 0; seg_entry 0 0 PAGES 0xFFFFF DATA 3;
   seg_entry 0 0 PAGES 0xFFFFF CODE 3; tss_entry 9 0xC0000A00; seg_entry 1 0xC0000800 BYTES 0x90 DATA 0;
   seg_entry 0 0x3000 BYTES 0x90 DATA 0; tss_entry 11 0xC0000810; GDT_NULL_ENTRY].
Definition seg2 : segst counting :=
  mk_segst BOOT_GDT_init 0x2000 10 final_table {[0 := final_regs; 1 := regs0]}
    {[0xC0000800 := boot_vars; 0x3000 := ap_vars]} 0x1000 [0xC0000800; 0x3000] tss0 [] 2 0x5000 counting0.

Lemma seg2_on_cpu :
  on_cpu lk0 0 seg2 [0xC0000800; 0x3000] [Task 0xC0000810; NullDesc] 0xC0000800 boot_vars final_regs.
Proof.
  split; [|done|done| |done].
  - split; try done.
    + unfold final_gdt, gdt_header, flat, percpu_seg. simpl. unfold final_table.
      repeat (apply Forall2_cons; split; [first [reflexivity|by left|by right]|]). constructor.
    + split; [|by apply (bool_decide_unpack _)].
      intros [|[|i]] p [= <-]; [exists boot_vars|exists ap_vars]; (split; [reflexivity|]); simpl; lia.
  - split; try done; unfold area_of, final_regs; simpl; rewrite ?seg_base_entry, ?seg_limit_entry by lia; done.
Qed.

Lemma cpus_isolated_witness :
  exists s', (ap_init_segmentation lk0 1;;; setup_tss lk0 1 (ret tt)) seg2 = Ok (tt, s') /\
    cpu_id lk0 1 (ret tt) s' = Ok (1, s') /\ cpu_id lk0 0 (ret tt) s' = Ok (0, s').
Proof.
  assert (Hq : forall v, v = boot_vars \/ v = ap_vars -> quiet v).
  { intros v [-> | ->]; (split; [simpl; lia|by right]). }
  destruct (cpus_isolated lk0 (ret tt) 1 0 seg2 _ _ regs0 0x3000 ap_vars final_regs 0xC0000800 boot_vars lk0_ok
    ltac:(lia) ltac:(lia) ltac:(lia) seg2_on_cpu eq_refl eq_refl eq_refl eq_refl (Hq _ ltac:(by right)) (Hq _ ltac:(by left))
    ltac:(discriminate)) as (s' & r1 & y1 & E1 & _ & _ & _ & _ & E2 & E3).
  exists s'. split; [exact E1|]. split; [exact E2|]. exact E3.
Defined.
