(* ===== verification/Paging.v ===== *)
(** * Paging: [src/paging.c], [src/paging.h]

    Physical memory is a map from pairs of a frame number and a word index to
    32-bit words (a word that is not in the map is 0).  Every access to a page
    directory or a page table is an access to a virtual address, translated
    the way the processor does: through the boot segments before paging is
    enabled, and by a walk of the paging structures in CR3 afterwards.  The
    recursive entry and the temporary mappings of the code so do what the
    translation makes of them.  The TLB and the accessed and dirty bits are not
    modelled; invalidations and shootdowns are counted.

    The frame allocator is any [Frames].  [c] is the cpu that runs the code,
    [junk] what uninitialised fields on its stack hold. *)

From S2P Require Import Prelude Math Bits Spinlock ErrorCodes FrameAlloc Kmalloc CMem.

Class Frames (F : Type) := {
  fr_alloc : M F Z;
  fr_free : Z -> M F unit }.

(** ** Entries *)

Definition PDES_PER_PAGE : Z := 1024.
Definition PTES_PER_PAGE : Z := 1024.
Definition RECURSIVE_PDE_IDX : Z := 1023.
Definition TEMP_MAP_PDE_IDX : Z := 1022.
Definition KERNEL_MIN_PDE_IDX : Z := Z.shiftr KERNEL_PHY_OFFSET 22.
Definition KERNEL_MAX_PDE_IDX : Z := RECURSIVE_PDE_IDX - 1.

Definition VM_WRITE_THROUGH : Z := 2.
Definition VM_CACHE_DISABLE : Z := 4.
Definition VM_USER : Z := 8.
Definition VM_NON_GLOBAL : Z := 16.

Record pde_t := mk_pde {
  pde_present : Z; pde_writable : Z; pde_user_accessible : Z; pde_write_through : Z; pde_cache_disable : Z;
  pde_accessed : Z; pde_ignored : Z; page_table_addr : Z }.
Definition pde_val (e : pde_t) : Z :=
  pack [(1, pde_present e); (1, pde_writable e); (1, pde_user_accessible e); (1, pde_write_through e);
        (1, pde_cache_disable e); (1, pde_accessed e); (6, pde_ignored e); (20, page_table_addr e)].

Record pte_t := mk_pte {
  pte_present : Z; pte_writable : Z; pte_user_accessible : Z; pte_write_through : Z; pte_cache_disable : Z;
  pte_accessed : Z; pte_dirty : Z; pte_zero : Z; pte_global : Z; pte_ignored : Z; frame_addr : Z }.
Definition pte_val (e : pte_t) : Z :=
  pack [(1, pte_present e); (1, pte_writable e); (1, pte_user_accessible e); (1, pte_write_through e);
        (1, pte_cache_disable e); (1, pte_accessed e); (1, pte_dirty e); (1, pte_zero e); (1, pte_global e);
        (3, pte_ignored e); (20, frame_addr e)].
Definition pte_of_val (v : Z) : pte_t :=
  mk_pte (bits 0 1 v) (bits 1 1 v) (bits 2 1 v) (bits 3 1 v) (bits 4 1 v) (bits 5 1 v) (bits 6 1 v) (bits 7 1 v)
    (bits 8 1 v) (bits 9 3 v) (bits 12 20 v).

(** The fields both kinds of entries share. *)
Definition present (v : Z) : bool := bits 0 1 v =? 1.
Definition entry_addr (v : Z) : Z := bits 12 20 v.

Definition compare_ptes (a b : pte_t) : bool :=
  (pte_present a =? pte_present b) && (pte_writable a =? pte_writable b) &&
  (pte_user_accessible a =? pte_user_accessible b) && (pte_write_through a =? pte_write_through b) &&
  (pte_cache_disable a =? pte_cache_disable b) && (pte_zero a =? pte_zero b) && (pte_global a =? pte_global b) &&
  (frame_addr a =? frame_addr b).

(** ** State *)

Record addr_space := mk_as { as_lock : spinlock_t; page_dir_phy_addr : Z }.

Record pgst (F : Type) := mk_pg {
  pg_mem : gmap (Z * Z) Z;
  pg_cr3 : Z;
  pg_paging : bool;
  pg_spaces : gmap Z addr_space;
  pg_curr : Z;
  pg_if : bool;
  pg_online : bool;
  pg_flushes : Z;
  pg_shootdowns : Z;
  pg_errors : list err_call;
  pg_frames : F }.
Arguments mk_pg {F}.
Arguments pg_mem {F}.
Arguments pg_cr3 {F}.
Arguments pg_paging {F}.
Arguments pg_spaces {F}.
Arguments pg_curr {F}.
Arguments pg_if {F}.
Arguments pg_online {F}.
Arguments pg_flushes {F}.
Arguments pg_shootdowns {F}.
Arguments pg_errors {F}.
Arguments pg_frames {F}.

Section Setters.
Context {F : Type}.
Abbreviation st := (pgst F).

Definition put_mem (x : gmap (Z * Z) Z) (s : st) : st :=
  mk_pg x (pg_cr3 s) (pg_paging s) (pg_spaces s) (pg_curr s) (pg_if s) (pg_online s) (pg_flushes s) (pg_shootdowns s)
    (pg_errors s) (pg_frames s).
Definition put_cr3 (x : Z) (curr : Z) (s : st) : st :=
  mk_pg (pg_mem s) x (pg_paging s) (pg_spaces s) curr (pg_if s) (pg_online s) (pg_flushes s) (pg_shootdowns s)
    (pg_errors s) (pg_frames s).
Definition put_paging (x : bool) (s : st) : st :=
  mk_pg (pg_mem s) (pg_cr3 s) x (pg_spaces s) (pg_curr s) (pg_if s) (pg_online s) (pg_flushes s) (pg_shootdowns s)
    (pg_errors s) (pg_frames s).
Definition put_spaces (x : gmap Z addr_space) (i : bool) (s : st) : st :=
  mk_pg (pg_mem s) (pg_cr3 s) (pg_paging s) x (pg_curr s) i (pg_online s) (pg_flushes s) (pg_shootdowns s)
    (pg_errors s) (pg_frames s).
Definition put_tlb (x y : Z) (s : st) : st :=
  mk_pg (pg_mem s) (pg_cr3 s) (pg_paging s) (pg_spaces s) (pg_curr s) (pg_if s) (pg_online s) x y
    (pg_errors s) (pg_frames s).
Definition put_errors (x : list err_call) (s : st) : st :=
  mk_pg (pg_mem s) (pg_cr3 s) (pg_paging s) (pg_spaces s) (pg_curr s) (pg_if s) (pg_online s) (pg_flushes s)
    (pg_shootdowns s) x (pg_frames s).
Definition put_frames (x : F) (s : st) : st :=
  mk_pg (pg_mem s) (pg_cr3 s) (pg_paging s) (pg_spaces s) (pg_curr s) (pg_if s) (pg_online s) (pg_flushes s)
    (pg_shootdowns s) (pg_errors s) x.

End Setters.

(** ** The processor *)

Definition word (m : gmap (Z * Z) Z) (f i : Z) : Z := default 0 (m !! (f, i)).

(** The walk of the structures whose directory is in frame [d]. *)
Definition walk (m : gmap (Z * Z) Z) (d va : Z) : option Z :=
  let pde := word m d (Z.shiftr va 22) in
  if negb (present pde) then None else
  let pte := word m (entry_addr pde) (Z.land (Z.shiftr va 12) 0x3FF) in
  if negb (present pte) then None else Some (entry_addr pte * 4096 + Z.land va 0xFFF).

Section Ops.
Context {F : Type} `{Frames F} (c KERNEL_ADDR_SPACE junk : Z).
Abbreviation st := (pgst F).

Definition translate (va : Z) (s : st) : option Z :=
  if pg_paging s then walk (pg_mem s) (pg_cr3 s / 4096) va else Some (to_phys va).

Definition rd32 (va : Z) : M st Z := fun s =>
  match translate va s with
  | Some p => Ok (word (pg_mem s) (p / 4096) (p mod 4096 / 4), s)
  | None => Halt (Trap "page fault")
  end.
Definition wr32 (va v : Z) : M st unit := fun s =>
  match translate va s with
  | Some p => Ok (tt, put_mem (<[(p / 4096, p mod 4096 / 4) := v]> (pg_mem s)) s)
  | None => Halt (Trap "page fault")
  end.

Definition cpu_paging_enabled : M st bool := gets pg_paging.
Definition cpu_invalidate_tlb : M st unit := modify (fun s => put_tlb (pg_flushes s + 1) (pg_shootdowns s) s).

(** [p->entry[i]] *)
Definition get_entry (p i : Z) : M st Z := rd32 (u32 (p + 4 * i)).
Definition set_entry (p i v : Z) : M st unit := wr32 (u32 (p + 4 * i)) v.
Definition memzero_page (p : Z) : M st unit := for_each (range 0 1024) (fun i => set_entry p i 0).

Definition get_space (a : Z) : M st addr_space := fun s => must (pg_spaces s !! a) "struct addr_space" s.
Definition on_space_lock (a : Z) (m : M lockst unit) : M st unit := fun s =>
  match pg_spaces s !! a with
  | Some x =>
      match m (as_lock x, pg_if s) with
      | Ok (_, (l, i)) => Ok (tt, put_spaces (<[a := mk_as l (page_dir_phy_addr x)]> (pg_spaces s)) i s)
      | Halt h => Halt h
      end
  | None => Halt (Trap "struct addr_space")
  end.
Definition lock_addr_space (a : Z) : M st unit := on_space_lock a (spinlock_lock c).
Definition unlock_addr_space (a : Z) : M st unit := on_space_lock a (spinlock_unlock c).

Definition SET_ERROR (a : Z) (msg : string) (code : Z) : M st unit :=
  modify (fun s =>
    let locked := match pg_spaces s !! a with Some x => lock (as_lock x) =? 1 | None => false end in
    put_errors (pg_errors s ++ [mk_err msg code locked]) s).

Definition alloc_page_dir : M st Z := zoom pg_frames put_frames fr_alloc.
Definition alloc_page_table : M st Z := zoom pg_frames put_frames fr_alloc.
Definition free_frame (p : Z) : M st unit := zoom pg_frames put_frames (fr_free p).

(** ** Page tables and directories *)

Definition pde_index (vaddr : Z) : Z := Z.shiftr vaddr 22.
Definition pte_index (vaddr : Z) : Z := Z.land (Z.shiftr vaddr 12) 0x3FF.
Definition is_temp_mapping (vaddr : Z) : bool := pde_index vaddr =? TEMP_MAP_PDE_IDX.

Definition flag (flags f : Z) : Z := b2z (negb (Z.land flags f =? 0)).

(** The entry [map_page_in] writes. *)
Definition new_pte (paddr flags : Z) : pte_t :=
  mk_pte 1 (flag flags VM_WRITE) (flag flags VM_USER) (flag flags VM_WRITE_THROUGH) (flag flags VM_CACHE_DISABLE)
    0 0 0 (b2z (Z.land flags VM_NON_GLOBAL =? 0)) junk (Z.shiftr paddr 12).
Definition new_pde (table user : Z) : pde_t := mk_pde 1 1 user 0 0 0 junk (Z.shiftr table 12).

(** The functions that map a page and those that need a temporary mapping call
    each other; the temporary mapping is made in the current address space,
    where no further one is needed. *)
Section Recursion.
Context (map : Z -> Z -> Z -> Z -> M st bool).

Definition create_temp_mapping_with (phy_addr : Z) : M st Z :=
  let cpu := u8 c in
  let entry := Z.lor (Z.shiftl RECURSIVE_PDE_IDX 22) (Z.shiftl TEMP_MAP_PDE_IDX 12) + 4 * cpu in
  ASSERT (Z.land entry 3 =? 0) "!(((uint32_t)entry) & 0x3)";;;
  do e <- rd32 entry;
  wr32 entry (e - bits 0 1 e);;;
  let vaddr := Z.lor (Z.shiftl TEMP_MAP_PDE_IDX 22) (Z.shiftl cpu 12) in
  let flags := Z.lor (Z.lor (Z.lor VM_WRITE VM_WRITE_THROUGH) VM_NON_GLOBAL) VM_CACHE_DISABLE in
  do curr <- gets pg_curr;
  do res <- map curr phy_addr vaddr flags;
  ASSERT res "res";;;
  cpu_invalidate_tlb;;;
  ret vaddr.

Definition get_page_dir_with (a : Z) : M st Z :=
  do paging <- cpu_paging_enabled;
  do curr <- gets pg_curr;
  if negb paging then do x <- get_space a; ret (to_virt (page_dir_phy_addr x))
  else if curr =? a then ret (Z.lor (Z.shiftl RECURSIVE_PDE_IDX 22) (Z.shiftl RECURSIVE_PDE_IDX 12))
  else do x <- get_space a; create_temp_mapping_with (page_dir_phy_addr x).

Definition get_page_table_with (page_dir index : Z) : M st Z :=
  do paging <- cpu_paging_enabled;
  if negb paging then
    do e <- get_entry page_dir index; ret (to_virt (Z.shiftl (entry_addr e) 12))
  else if page_dir =? 0xFFFFF000 then ret (Z.lor (Z.shiftl RECURSIVE_PDE_IDX 22) (Z.shiftl index 12))
  else
    do e <- get_entry page_dir index;
    create_temp_mapping_with (Z.shiftl (entry_addr e) 12).

Definition map_page_in_with (a paddr vaddr flags : Z) : M st bool :=
  ASSERT (is_4kib_aligned paddr) "is_4kib_aligned(paddr)";;;
  ASSERT (is_4kib_aligned vaddr) "is_4kib_aligned(vaddr)";;;
  ASSERT ((a =? KERNEL_ADDR_SPACE) || is_user_addr vaddr || is_temp_mapping vaddr)
    "addr_space == get_kernel_addr_space() || is_user_addr(vaddr) || is_temp_mapping(vaddr)";;;
  do page_dir <- get_page_dir_with a;
  do paging <- cpu_paging_enabled;
  when (paging && negb (is_higher_half page_dir)) (panic "Must use a virtual pointer to modify page directory.");;;
  let pde_idx := pde_index vaddr in
  do e <- get_entry page_dir pde_idx;
  do page_table_allocated <-
    (if present e then ret (Some false) else
     do new_table <- alloc_page_table;
     if new_table =? NO_FRAME then SET_ERROR a "Cannot allocate new page table" ENONE;;; ret None
     else
       set_entry page_dir pde_idx (pde_val (new_pde new_table (flag flags VM_USER)));;;
       ret (Some true));
  match page_table_allocated with
  | None => ret false
  | Some allocated =>
      do page_table <- get_page_table_with page_dir pde_idx;
      when allocated (memzero_page page_table);;;
      let pte := pte_val (new_pte paddr flags) in
      let pte_idx := pte_index vaddr in
      do old <- get_entry page_table pte_idx;
      when (present old && negb (compare_ptes (pte_of_val pte) (pte_of_val old)))
        (panic "Overwriting previous PTE when mapping address");;;
      set_entry page_table pte_idx pte;;;
      ret true
  end.

End Recursion.

Fixpoint map_page_in_fuel (fuel : nat) (a paddr vaddr flags : Z) : M st bool :=
  match fuel with
  | O => halt_with (Hang "map_page_in")
  | S fuel' => map_page_in_with (map_page_in_fuel fuel') a paddr vaddr flags
  end.

Definition create_temp_mapping : Z -> M st Z := create_temp_mapping_with (map_page_in_fuel 1).
Definition get_page_dir : Z -> M st Z := get_page_dir_with (map_page_in_fuel 1).
Definition get_page_table : Z -> Z -> M st Z := get_page_table_with (map_page_in_fuel 1).
Definition map_page_in : Z -> Z -> Z -> Z -> M st bool := map_page_in_fuel 2.

Definition page_table_is_empty (table : Z) : M st bool :=
  for_all (range 0 PTES_PER_PAGE) (fun i => do e <- get_entry table i; ret (negb (present e))).

Definition unmap_page_in (a vaddr : Z) (free_phy_frame : bool) : M st unit :=
  ASSERT (is_4kib_aligned vaddr) "is_4kib_aligned(vaddr)";;;
  ASSERT ((a =? KERNEL_ADDR_SPACE) || is_user_addr vaddr) "addr_space == get_kernel_addr_space() || (is_user_addr(vaddr))";;;
  do page_dir <- get_page_dir a;
  let pde_idx := pde_index vaddr in
  do e <- get_entry page_dir pde_idx;
  when (negb (present e)) (panic "Address is not mapped.");;;
  do page_table <- get_page_table page_dir pde_idx;
  let pte_idx := pte_index vaddr in
  do e <- get_entry page_table pte_idx;
  when (negb (present e)) (panic "Address is not mapped.");;;
  when free_phy_frame (do e <- get_entry page_table pte_idx; free_frame (Z.shiftl (entry_addr e) 12));;;
  set_entry page_table pte_idx 0;;;
  do empty <- page_table_is_empty page_table;
  when empty
    (do page_dir <- get_page_dir a;
     do e <- get_entry page_dir pde_idx;
     set_entry page_dir pde_idx (e - bits 0 1 e);;;
     do e <- get_entry page_dir pde_idx;
     free_frame (Z.shiftl (entry_addr e) 12)).

Definition page_offset (addr : Z) : Z := Z.land addr 0xFFF.

(** [exec_tlb_shootdown] makes the other cpus invalidate their TLBs. *)
Definition maybe_to_tlb_shootdown : M st unit :=
  modify (fun s => if pg_online s then put_tlb (pg_flushes s) (pg_shootdowns s + 1) s else s).

(** The loop of [do_paging_map_in] over the pages. *)
Fixpoint map_pages (a start_phy start_virt flags : Z) (l : list Z) : M st bool :=
  match l with
  | [] => ret true
  | i :: l' =>
      do ok <- map_page_in a (u32 (start_phy + i * PAGE_SIZE)) (u32 (start_virt + i * PAGE_SIZE)) flags;
      if negb ok then
        SET_ERROR a "Failed to map one frame in request" ENONE;;;
        for_each (range 0 i) (fun j => unmap_page_in a (u32 (start_virt + j * PAGE_SIZE)) false);;;
        ret false
      else map_pages a start_phy start_virt flags l'
  end.

Definition do_paging_map_in (a paddr vaddr len flags : Z) : M st bool :=
  ASSERT (page_offset paddr =? page_offset vaddr) "page_offset(paddr) == page_offset(vaddr)";;;
  let start_phy := get_page_addr paddr in
  let start_virt := get_page_addr vaddr in
  let fixed_len := u32 (len + u32 (paddr - start_phy)) in
  let num_frames := ceil_x_over_y_u32 fixed_len PAGE_SIZE in
  map_pages a start_phy start_virt flags (range 0 num_frames).

Definition paging_map_in (a paddr vaddr len flags : Z) : M st bool :=
  lock_addr_space a;;;
  do res <- do_paging_map_in a paddr vaddr len flags;
  unlock_addr_space a;;;
  when res (cpu_invalidate_tlb;;; maybe_to_tlb_shootdown);;;
  ret res.

Definition do_paging_unmap_in (a vaddr len : Z) (free_phy_frame : bool) : M st unit :=
  let start_virt := get_page_addr vaddr in
  let fixed_len := u32 (len + u32 (vaddr - start_virt)) in
  let num_frames := ceil_x_over_y_u32 fixed_len PAGE_SIZE in
  for_each (range 0 num_frames) (fun i => unmap_page_in a (u32 (start_virt + i * PAGE_SIZE)) free_phy_frame).

Definition paging_unmap_in (a vaddr len : Z) : M st unit :=
  lock_addr_space a;;;
  do_paging_unmap_in a vaddr len false;;;
  unlock_addr_space a;;;
  cpu_invalidate_tlb;;;
  maybe_to_tlb_shootdown.

Definition paging_unmap_and_free_frames_in (a vaddr len : Z) : M st unit :=
  lock_addr_space a;;;
  do_paging_unmap_in a vaddr len true;;;
  unlock_addr_space a;;;
  cpu_invalidate_tlb;;;
  maybe_to_tlb_shootdown.

Definition page_is_mapped (a vaddr : Z) : M st bool :=
  ASSERT (is_4kib_aligned vaddr) "is_4kib_aligned(vaddr)";;;
  do page_dir <- get_page_dir a;
  let pde_idx := pde_index vaddr in
  let pte_idx := pte_index vaddr in
  do e <- get_entry page_dir pde_idx;
  if negb (present e) then ret false else
  do table <- get_page_table page_dir pde_idx;
  do e <- get_entry table pte_idx;
  ret (present e).

(** [fuel] is more than the number of pages up to [max_ptr]. *)
Fixpoint find_next_loop (fuel : nat) (a ptr max_ptr : Z) : M st Z :=
  match fuel with
  | O => halt_with (Hang "find_next_non_mapped_page")
  | S fuel' =>
      if negb (ptr <? max_ptr) then ret NO_REGION else
      do mapped <- page_is_mapped a ptr;
      if negb mapped then ret ptr else find_next_loop fuel' a (u32 (ptr + PAGE_SIZE)) max_ptr
  end.
Definition find_next_non_mapped_page (a start : Z) : M st Z :=
  let max_ptr := Z.shiftl TEMP_MAP_PDE_IDX 22 in
  find_next_loop (S (Z.to_nat ((max_ptr - start) / PAGE_SIZE + 1))) a start max_ptr.

(** The loops of [compute_hole_size]: over the entries of one table, which stops
    at a page in use ([inl]), and over the tables. *)
Fixpoint hole_in_table (page_table count : Z) (l : list Z) : M st (Z + Z) :=
  match l with
  | [] => ret (inr count)
  | j :: l' =>
      do e <- get_entry page_table j;
      if negb (present e) then hole_in_table page_table (u32 (count + 1)) l' else ret (inl count)
  end.
Fixpoint hole_in_dir (page_dir vaddr count : Z) (l : list Z) : M st Z :=
  match l with
  | [] => ret count
  | i :: l' =>
      do pde <- get_entry page_dir i;
      if negb (present pde) then
        let n := if i =? pde_index vaddr then PTES_PER_PAGE - pte_index vaddr else PTES_PER_PAGE in
        hole_in_dir page_dir vaddr (u32 (count + n)) l'
      else
        do page_table <- get_page_table page_dir i;
        let start_pte_idx := if i =? pde_index vaddr then pte_index vaddr else 0 in
        do r <- hole_in_table page_table count (range start_pte_idx PTES_PER_PAGE);
        match r with
        | inl count => ret count
        | inr count => hole_in_dir page_dir vaddr count l'
        end
  end.
Definition compute_hole_size (a vaddr : Z) : M st Z :=
  do page_dir <- get_page_dir a;
  hole_in_dir page_dir vaddr 0 (range (pde_index vaddr) (PDES_PER_PAGE - 2)).

Fixpoint find_hole_loop (fuel : nat) (a ptr npages : Z) : M st Z :=
  match fuel with
  | O => halt_with (Hang "do_paging_find_contiguous_non_mapped_pages_in")
  | S fuel' =>
      if ptr =? NO_REGION then
        SET_ERROR a "Could not find big enough region in virt memory space" ENOMEM;;; ret NO_REGION
      else
        do hole <- compute_hole_size a ptr;
        if npages <=? hole then ret ptr
        else do ptr <- find_next_non_mapped_page a (u32 (ptr + PAGE_SIZE)); find_hole_loop fuel' a ptr npages
  end.
Definition do_paging_find_contiguous_non_mapped_pages_in (a start_addr npages : Z) : M st Z :=
  do ptr <- find_next_non_mapped_page a start_addr;
  find_hole_loop (S (S (Z.to_nat ((Z.shiftl TEMP_MAP_PDE_IDX 22 - start_addr) / PAGE_SIZE + 1)))) a ptr npages.

Definition paging_find_contiguous_non_mapped_pages_in (a start_addr npages : Z) : M st Z :=
  lock_addr_space a;;;
  do res <- do_paging_find_contiguous_non_mapped_pages_in a start_addr npages;
  unlock_addr_space a;;;
  ret res.

(** The loop of [paging_map_frames_above_in]. *)
Fixpoint map_frames (a start flags i : Z) (frames : list Z) : M st bool :=
  match frames with
  | [] => ret true
  | frame :: frames' =>
      do res <- do_paging_map_in a frame (u32 (start + i * PAGE_SIZE)) PAGE_SIZE flags;
      if negb res then SET_ERROR a "Could not map frames in virtual mem space hole" ENONE;;; ret false
      else map_frames a start flags (i + 1) frames'
  end.

(** When a frame cannot be mapped the lock stays taken. *)
Definition paging_map_frames_above_in (a start_addr : Z) (frames : list Z) (flags : Z) : M st Z :=
  lock_addr_space a;;;
  do start <- do_paging_find_contiguous_non_mapped_pages_in a start_addr (Z.of_nat (length frames));
  if start =? NO_REGION then unlock_addr_space a;;; ret NO_REGION
  else
    do ok <- map_frames a start flags 0 frames;
    if negb ok then ret NO_REGION
    else
      unlock_addr_space a;;;
      cpu_invalidate_tlb;;;
      maybe_to_tlb_shootdown;;;
      ret start.

Definition paging_setup_new_page_dir (page_dir_phy : Z) : M st unit :=
  do curr <- gets pg_curr;
  do curr_pd <- get_page_dir curr;
  do dest_pd <- create_temp_mapping page_dir_phy;
  ASSERT (negb (curr_pd =? dest_pd)) "curr_pd != dest_pd";;;
  memzero_page dest_pd;;;
  for_each (range (pde_index KERNEL_PHY_OFFSET) (PDES_PER_PAGE - 1)) (fun i =>
    do e <- get_entry curr_pd i; set_entry dest_pd i e);;;
  do e <- get_entry curr_pd TEMP_MAP_PDE_IDX;
  set_entry dest_pd TEMP_MAP_PDE_IDX e;;;
  do rec <- get_entry curr_pd RECURSIVE_PDE_IDX;
  do x <- get_space curr;
  ASSERT (entry_addr rec =? Z.shiftr (page_dir_phy_addr x) 12) "rec.page_table_addr == (uint32_t)curr_pd_addr >> 12";;;
  set_entry dest_pd RECURSIVE_PDE_IDX (bits 0 12 rec + 4096 * Z.shiftr page_dir_phy 12).

Definition free_table_frames (page_table : Z) : M st unit :=
  for_each (range 0 PTES_PER_PAGE) (fun j =>
    do pte <- get_entry page_table j;
    if negb (present pte) then ret tt else free_frame (Z.shiftl (entry_addr pte) 12)).

Definition paging_free_addr_space (a : Z) : M st unit :=
  for_each (range 0 (pde_index KERNEL_PHY_OFFSET)) (fun i =>
    do page_dir <- get_page_dir a;
    do pde <- get_entry page_dir i;
    if negb (present pde) then ret tt
    else
      do page_table <- get_page_table page_dir i;
      free_table_frames page_table;;;
      free_frame (Z.shiftl (entry_addr pde) 12));;;
  do x <- get_space a;
  free_frame (page_dir_phy_addr x);;;
  maybe_to_tlb_shootdown.

(** ** Address spaces: addr_space.c *)

Definition switch_to_addr_space (a : Z) : M st unit :=
  do x <- get_space a;
  ASSERT (negb (page_dir_phy_addr x =? NULL)) "addr_space->page_dir_phy_addr";;;
  do irqs <- gets pg_if;
  modify (fun s => put_spaces (pg_spaces s) false s);;;
  modify (put_cr3 (page_dir_phy_addr x) a);;;
  modify (fun s => put_spaces (pg_spaces s) irqs s).

Definition init_kernel_addr_space (dir : Z) : M st unit :=
  do x <- get_space KERNEL_ADDR_SPACE;
  when (negb (page_dir_phy_addr x =? NULL)) (panic "Kernel address space has already been initialized.");;;
  modify (fun s => put_spaces (<[KERNEL_ADDR_SPACE := mk_as (as_lock x) dir]> (pg_spaces s)) (pg_if s) s).

(** ** Enabling paging *)

Definition create_recursive_entry (page_dir : Z) : M st unit :=
  set_entry page_dir RECURSIVE_PDE_IDX (pde_val (mk_pde 1 1 0 1 1 0 junk (Z.shiftr (to_phys page_dir) 12))).

Definition create_temp_mapping_entry (page_dir : Z) : M st unit :=
  do page_table <- alloc_page_table;
  when (page_table =? NO_FRAME) (panic "Cannot allocated temp mapping page table");;;
  memzero_page (to_virt page_table);;;
  do e <- get_entry page_dir TEMP_MAP_PDE_IDX;
  ASSERT (negb (present e)) "!page_dir->entry[TEMP_MAP_PDE_IDX].present";;;
  set_entry page_dir TEMP_MAP_PDE_IDX (pde_val (mk_pde 1 1 0 1 1 junk junk (Z.shiftr page_table 12))).

Definition preallocate_kernel_page_table (page_dir : Z) : M st unit :=
  for_each (range KERNEL_MIN_PDE_IDX KERNEL_MAX_PDE_IDX) (fun i =>
    do e <- get_entry page_dir i;
    if present e then ret tt
    else
      do page_table <- zoom pg_frames put_frames fr_alloc;
      when (page_table =? NO_FRAME) (panic "Cannot pre-allocate kernel page tables");;;
      memzero_page (to_virt page_table);;;
      set_entry page_dir i (pde_val (new_pde page_table 0))).

(** The sections of the kernel that the linker lays out. *)
Record sections := mk_sections {
  KERNEL_END_ADDR : Z;
  TEXT_START : Z; TEXT_END : Z;
  RODATA_START : Z; RODATA_END : Z }.
Context (sec : sections).

Definition in_text_section (p : Z) : bool := ptr_in_range p (TEXT_START sec) (TEXT_END sec).
Definition in_rodata_section (p : Z) : bool := ptr_in_range p (RODATA_START sec) (RODATA_END sec).

Definition kernel_page_flags (ptr : Z) : Z :=
  if in_low_mem ptr then Z.lor (Z.lor VM_WRITE VM_WRITE_THROUGH) VM_CACHE_DISABLE
  else if in_text_section ptr || in_rodata_section ptr then 0
  else VM_WRITE.

(** The pages from [KERNEL_PHY_OFFSET] up to the end of the kernel. *)
Definition kernel_page_count : Z := (KERNEL_END_ADDR sec - KERNEL_PHY_OFFSET + PAGE_SIZE - 1) / PAGE_SIZE.

Definition create_identity_and_higher_half_mappings : M st unit :=
  do a <- gets pg_curr;
  for_each (range 0 kernel_page_count) (fun i =>
    let ptr := KERNEL_PHY_OFFSET + i * PAGE_SIZE in
    let flags := kernel_page_flags ptr in
    let paddr := to_phys ptr in
    do ok <- map_page_in a paddr ptr flags;
    when (negb ok) (panic "Cannot create higher half mapping");;;
    do ok <- map_page_in a paddr paddr flags;
    when (negb ok) (panic "Cannot create identity mapping")).

Definition remove_identity_mapping : M st unit :=
  do curr <- gets pg_curr;
  do page_dir <- get_page_dir curr;
  let num_frames := ceil_x_over_y_u32 (to_phys (KERNEL_END_ADDR sec)) PAGE_SIZE in
  let num_page_tables := ceil_x_over_y_u32 num_frames 1024 in
  for_each (range 0 num_page_tables) (fun i =>
    do e <- get_entry page_dir i;
    ASSERT (present e) "page_dir->entry[i].present";;;
    set_entry page_dir i 0).

(** [fixup_gdt_after_paging_enable] and [interrupt_fixup_idtr] change other
    registers of the cpu. *)
Definition init_paging : M st unit :=
  do page_dir_phy <- alloc_page_dir;
  when (page_dir_phy =? NO_FRAME) (panic "Not enough physical memory to even initialize paging ??");;;
  let page_dir := to_virt page_dir_phy in
  memzero_page page_dir;;;
  init_kernel_addr_space page_dir_phy;;;
  switch_to_addr_space KERNEL_ADDR_SPACE;;;
  create_identity_and_higher_half_mappings;;;
  create_recursive_entry page_dir;;;
  create_temp_mapping_entry page_dir;;;
  preallocate_kernel_page_table page_dir;;;
  modify (put_paging true);;;
  remove_identity_mapping;;;
  cpu_invalidate_tlb.

End Ops.
