(* ===== verification/PagingSpec.v ===== *)
(** * Correctness of paging

    What an address space maps ([lookup_page]), the invariant that keeps the
    paging structures apart ([pg_inv]: every frame that holds one has one
    owner), and the effect of every operation of [paging.c] on what is
    mapped. *)

From S2P Require Import Prelude Math Bits Spinlock ErrorCodes FrameAlloc Kmalloc CMem Paging.

Lemma wp_seq {S A} (m1 m2 : M S unit) (k : M S A) Q s : wp (m1;;; m2) (fun _ => wp k Q) s -> wp (m1;;; m2;;; k) Q s.
Proof. intros Hw. unfold wp. rewrite <- (bind_assoc m1 (fun _ => m2) (fun _ => k)). by apply wp_bind in Hw. Qed.

(** ** The words of memory *)

Abbreviation pmem := (gmap (Z * Z) Z).

Lemma word_insert_eq (m : pmem) f i v : word (<[(f, i) := v]> m) f i = v.
Proof. unfold word. by rewrite lookup_insert_eq. Qed.

Lemma word_insert_ne (m : pmem) f i v f' i' : (f, i) <> (f', i') -> word (<[(f, i) := v]> m) f' i' = word m f' i'.
Proof. intros Hne. unfold word. by rewrite lookup_insert_ne. Qed.

(** ** Entries *)

Lemma pde_val_fields e :
  present (pde_val e) = (pde_present e mod 2 =? 1) /\ entry_addr (pde_val e) = page_table_addr e mod 2 ^ 20.
Proof.
  unfold present, entry_addr, pde_val. set (fs := [_; _; _; _; _; _; _; _]).
  assert (Hw : widths_ok (map fst fs)) by by apply widths_okb.
  by rewrite (bits_pack_nth fs 0 0 1 _ Hw eq_refl eq_refl), (bits_pack_nth fs 7 12 20 _ Hw eq_refl eq_refl).
Qed.

Lemma pte_val_fields e :
  pte_of_val (pte_val e) =
    mk_pte (pte_present e mod 2) (pte_writable e mod 2) (pte_user_accessible e mod 2) (pte_write_through e mod 2)
      (pte_cache_disable e mod 2) (pte_accessed e mod 2) (pte_dirty e mod 2) (pte_zero e mod 2) (pte_global e mod 2)
      (pte_ignored e mod 2 ^ 3) (frame_addr e mod 2 ^ 20).
Proof.
  unfold pte_of_val, pte_val. set (fs := [_; _; _; _; _; _; _; _; _; _; _]).
  assert (Hw : widths_ok (map fst fs)) by by apply widths_okb.
  rewrite (bits_pack_nth fs 0 0 1 _ Hw eq_refl eq_refl), (bits_pack_nth fs 1 1 1 _ Hw eq_refl eq_refl),
    (bits_pack_nth fs 2 2 1 _ Hw eq_refl eq_refl), (bits_pack_nth fs 3 3 1 _ Hw eq_refl eq_refl),
    (bits_pack_nth fs 4 4 1 _ Hw eq_refl eq_refl), (bits_pack_nth fs 5 5 1 _ Hw eq_refl eq_refl),
    (bits_pack_nth fs 6 6 1 _ Hw eq_refl eq_refl), (bits_pack_nth fs 7 7 1 _ Hw eq_refl eq_refl),
    (bits_pack_nth fs 8 8 1 _ Hw eq_refl eq_refl), (bits_pack_nth fs 9 9 3 _ Hw eq_refl eq_refl),
    (bits_pack_nth fs 10 12 20 _ Hw eq_refl eq_refl). done.
Qed.

(** A frame number as the entries hold it. *)
Definition frame_ok (f : Z) : Prop := 0 <= f < 2 ^ 20.

Lemma shiftr12 p : Z.shiftr p 12 = p / 4096.
Proof. by rewrite Z.shiftr_div_pow2. Qed.

Lemma new_pde_fields junk f user : frame_ok f ->
  present (pde_val (new_pde junk (f * 4096) user)) = true /\ entry_addr (pde_val (new_pde junk (f * 4096) user)) = f.
Proof.
  intros Hf. destruct (pde_val_fields (new_pde junk (f * 4096) user)) as [-> ->]. simpl.
  rewrite shiftr12, Z.div_mul by lia. split; [done|]. by apply Z.mod_small.
Qed.

Lemma new_pte_fields junk f flags : frame_ok f ->
  present (pte_val (new_pte junk (f * 4096) flags)) = true /\ entry_addr (pte_val (new_pte junk (f * 4096) flags)) = f.
Proof.
  intros Hf. pose proof (pte_val_fields (new_pte junk (f * 4096) flags)) as E. injection E as E1 _ _ _ _ _ _ _ _ _ E2.
  unfold present, entry_addr. rewrite E1, E2. simpl. rewrite shiftr12, Z.div_mul by lia. split; [done|]. by apply Z.mod_small.
Qed.

(** Clearing the present bit. *)
Lemma bits_even v : bits 0 1 (v - bits 0 1 v) = 0 /\ entry_addr (v - bits 0 1 v) = entry_addr v.
Proof.
  unfold entry_addr, bits. change (2 ^ 0) with 1. change (2 ^ 1) with 2. rewrite !Z.div_1_r.
  split; [Z.to_euclidean_division_equations; lia|]. f_equal. change (2 ^ 12) with 4096. Z.to_euclidean_division_equations; lia.
Qed.

Lemma present_clear v : present (v - bits 0 1 v) = false.
Proof. unfold present. by rewrite (proj1 (bits_even v)). Qed.

(** ** Virtual addresses of the structures *)

Lemma rec_addr i : 0 <= i < 1024 -> Z.lor (Z.shiftl RECURSIVE_PDE_IDX 22) (Z.shiftl i 12) = 0xFFC00000 + i * 4096.
Proof.
  intros Hi. assert (Hall : forallb (fun i => Z.lor (Z.shiftl RECURSIVE_PDE_IDX 22) (Z.shiftl i 12) =? 0xFFC00000 + i * 4096)
    (range 0 1024) = true) by (vm_compute; reflexivity).
  rewrite forallb_forall in Hall. apply Z.eqb_eq, Hall, list_elem_of_In, elem_of_range. lia.
Qed.

Lemma temp_addr i : 0 <= i < 1024 -> Z.lor (Z.shiftl TEMP_MAP_PDE_IDX 22) (Z.shiftl i 12) = 0xFF800000 + i * 4096.
Proof.
  intros Hi. assert (Hall : forallb (fun i => Z.lor (Z.shiftl TEMP_MAP_PDE_IDX 22) (Z.shiftl i 12) =? 0xFF800000 + i * 4096)
    (range 0 1024) = true) by (vm_compute; reflexivity).
  rewrite forallb_forall in Hall. apply Z.eqb_eq, Hall, list_elem_of_In, elem_of_range. lia.
Qed.

Lemma va_fields d i o : 0 <= d < 1024 -> 0 <= i < 1024 -> 0 <= o < 4096 ->
  let va := d * 2 ^ 22 + i * 4096 + o in
  Z.shiftr va 22 = d /\ Z.land (Z.shiftr va 12) 0x3FF = i /\ Z.land va 0xFFF = o.
Proof.
  intros Hd Hi Ho va. change 0x3FF with (Z.ones 10). change 0xFFF with (Z.ones 12).
  rewrite !Z.shiftr_div_pow2, !Z.land_ones by lia. subst va. change (2 ^ 22) with 4194304. change (2 ^ 12) with 4096. change (2 ^ 10) with 1024.
  split_and!; Z.to_euclidean_division_equations; lia.
Qed.

(** The walk of an address whose parts are given. *)
Lemma walk_parts (m : pmem) d i j o :
  0 <= i < 1024 -> 0 <= j < 1024 -> 0 <= o < 4096 ->
  walk m d (i * 2 ^ 22 + j * 4096 + o) =
    if present (word m d i) then
      let pte := word m (entry_addr (word m d i)) j in
      if present pte then Some (entry_addr pte * 4096 + o) else None
    else None.
Proof.
  intros Hi Hj Ho. unfold walk. destruct (va_fields i j o Hi Hj Ho) as (-> & -> & ->).
  destruct (present (word m d i)); [|done]. simpl. by destruct (present _).
Qed.

(** What an address space with its directory in frame [d] maps the page
    [vp] to. *)
Definition lookup_page (m : pmem) (d vp : Z) : option Z :=
  let pde := word m d (vp / 1024) in
  if present pde then
    let pte := word m (entry_addr pde) (vp mod 1024) in
    if present pte then Some pte else None
  else None.

Lemma lookup_page_eq m m' d vp :
  word m' d (vp / 1024) = word m d (vp / 1024) ->
  (present (word m d (vp / 1024)) = true ->
    word m' (entry_addr (word m d (vp / 1024))) (vp mod 1024) = word m (entry_addr (word m d (vp / 1024))) (vp mod 1024)) ->
  lookup_page m' d vp = lookup_page m d vp.
Proof. intros E1 E2. unfold lookup_page. rewrite E1. destruct (present (word m d _)); [|done]. by rewrite E2. Qed.

Lemma page_parts vp : 0 <= vp < 1022 * 1024 -> 0 <= vp / 1024 < 1022 /\ 0 <= vp mod 1024 < 1024.
Proof. intros Hvp. Z.to_euclidean_division_equations; lia. Qed.

Lemma page_join i j : 0 <= j < 1024 -> (i * 1024 + j) / 1024 = i /\ (i * 1024 + j) mod 1024 = j.
Proof. intros Hj. Z.to_euclidean_division_equations; lia. Qed.

Lemma lookup_page_some m d i j pte : 0 <= j < 1024 -> lookup_page m d (i * 1024 + j) = Some pte ->
  present (word m d i) = true /\ word m (entry_addr (word m d i)) j = pte /\ present pte = true.
Proof.
  intros Hj. unfold lookup_page. destruct (page_join i j Hj) as [-> ->].
  destruct (present (word m d i)) eqn:E1; [|done]. destruct (present (word m _ j)) eqn:E2; [|done]. by intros [= <-].
Qed.

Lemma frame_aligned f : frame_ok f -> is_4kib_aligned (f * 4096) = true.
Proof. intros Hf. rewrite is_4kib_aligned_mod, Z.mod_mul by lia. done. Qed.

Lemma vaddr_index i j : 0 <= i < 1024 -> 0 <= j < 1024 ->
  pde_index (i * 2 ^ 22 + j * 4096) = i /\ pte_index (i * 2 ^ 22 + j * 4096) = j /\
  is_4kib_aligned (i * 2 ^ 22 + j * 4096) = true.
Proof.
  intros Hi Hj. unfold pde_index, pte_index, is_4kib_aligned.
  rewrite <- (Z.add_0_r (i * 2 ^ 22 + j * 4096)). destruct (va_fields i j 0 Hi Hj ltac:(lia)) as (-> & -> & ->). done.
Qed.

Lemma no_frame_ne t : frame_ok t -> (t * 4096 =? NO_FRAME) = false.
Proof. intros Ht. apply Z.eqb_neq. unfold NO_FRAME. unfold frame_ok in Ht. lia. Qed.

Definition table_empty (m : pmem) (t : Z) : bool := forallb (fun k => negb (present (word m t k))) (range 0 1024).

Lemma table_empty_spec m t : table_empty m t = true <-> forall k, 0 <= k < 1024 -> present (word m t k) = false.
Proof.
  unfold table_empty. rewrite forallb_forall. split.
  - intros Hall k Hk. apply negb_true_iff, Hall, list_elem_of_In, elem_of_range. lia.
  - intros Hall k Hk%list_elem_of_In%elem_of_range. rewrite Hall by lia. done.
Qed.

Lemma table_used_spec m t : table_empty m t = false -> exists k, 0 <= k < 1024 /\ present (word m t k) = true.
Proof.
  intros He. unfold table_empty in He. rewrite <- not_true_iff_false, forallb_forall in He.
  destruct (decide (Exists (fun k => present (word m t k) = true) (range 0 1024))) as [Hex|Hn].
  - apply Exists_exists in Hex as (k & Hk%elem_of_range & Hp). by exists k.
  - exfalso. apply He. intros k Hk. apply negb_true_iff, not_true_is_false. intros Hp. apply Hn, Exists_exists.
    exists k. by rewrite list_elem_of_In.
Qed.

(** ** Windows *)

(** Through the directory in frame [d], the page at the virtual address [p] is
    the frame [f]; the entry that says so is in the frame [t]. *)
Definition window (m : pmem) (d p f t : Z) : Prop :=
  exists i j, 0 <= i < 1024 /\ 0 <= j < 1024 /\ p = i * 2 ^ 22 + j * 4096 /\
    present (word m d i) = true /\ entry_addr (word m d i) = t /\
    present (word m t j) = true /\ entry_addr (word m t j) = f.

Lemma window_walk m d p f t o : window m d p f t -> 0 <= o < 4096 -> walk m d (p + o) = Some (f * 4096 + o).
Proof.
  intros (i & j & Hi & Hj & -> & Hp & Ht & Hq & Hf) Ho. rewrite walk_parts by done. rewrite Hp, Ht. simpl. by rewrite Hq, Hf.
Qed.

Lemma window_range m d p f t : window m d p f t -> 0 <= p <= 2 ^ 32 - 4096.
Proof. intros (i & j & Hi & Hj & -> & _). lia. Qed.

(** A window does not change with what the frame it shows holds. *)
Lemma window_same m m' d p f t :
  window m d p f t -> f <> d -> f <> t -> (forall g k, g <> f -> word m' g k = word m g k) -> window m' d p f t.
Proof.
  intros (i & j & Hi & Hj & -> & Hp & Ht & Hq & Hf) Hd Hne Hsame. exists i, j. rewrite !Hsame by congruence. split_and!; (done || lia).
Qed.

(** The recursive entry shows every structure the directory points to, and the
    directory itself. *)
Lemma window_rec m d i :
  present (word m d 1023) = true -> entry_addr (word m d 1023) = d -> 0 <= i < 1024 -> present (word m d i) = true ->
  window m d (0xFFC00000 + i * 4096) (entry_addr (word m d i)) d.
Proof. intros H1 H2 Hi Hp. exists 1023, i. split_and!; first [done|lia|assumption]. Qed.

Definition zero_frame (f : Z) (m : pmem) : pmem := fold_left (fun m i => <[(f, i) := 0]> m) (range 0 1024) m.

Lemma word_zeros (f : Z) (l : list Z) (m : pmem) (g k : Z) :
  word (fold_left (fun m i => <[(f, i) := 0]> m) l m) g k = if bool_decide (g = f /\ k ∈ l) then 0 else word m g k.
Proof.
  revert m. induction l as [|i l IH]; intros m; simpl.
  - rewrite bool_decide_false by (intros [_ H]; by inversion H). done.
  - rewrite IH. destruct (decide (g = f /\ k ∈ l)) as [[-> Hk]|Hn].
    + rewrite !bool_decide_true by (split; [done|set_solver]). done.
    + rewrite (bool_decide_false _ Hn). destruct (decide ((f, i) = (g, k))) as [[= -> ->]|Hne].
      * rewrite word_insert_eq, bool_decide_true by set_solver. done.
      * rewrite word_insert_ne by done. rewrite bool_decide_false; [done|]. intros [-> [->|]%elem_of_cons]; [done|]. by apply Hn.
Qed.

Lemma word_zero_frame f m g k : word (zero_frame f m) g k = if bool_decide (g = f /\ 0 <= k < 1024) then 0 else word m g k.
Proof.
  unfold zero_frame. rewrite word_zeros. by rewrite (bool_decide_ext (g = f /\ k ∈ range 0 1024) (g = f /\ 0 <= k < 1024)) by (by rewrite elem_of_range).
Qed.

Section Access.
Context {F : Type}.
Implicit Types s : pgst F.

Definition sees s (p f t : Z) : Prop := pg_paging s = true /\ window (pg_mem s) (pg_cr3 s / 4096) p f t.

Lemma entry_translate s p f t i : sees s p f t -> 0 <= i < 1024 -> translate (u32 (p + 4 * i)) s = Some (f * 4096 + 4 * i).
Proof.
  intros [Hp Hw] Hi. pose proof (window_range _ _ _ _ _ Hw). rewrite u32_id by lia.
  unfold translate. rewrite Hp. apply (window_walk _ _ _ _ _ _ Hw). lia.
Qed.

Lemma entry_place f i : 0 <= i < 1024 -> (f * 4096 + 4 * i) / 4096 = f /\ (f * 4096 + 4 * i) mod 4096 / 4 = i.
Proof. intros Hi. split; Z.to_euclidean_division_equations; lia. Qed.

Lemma get_entry_run s p f t i : sees s p f t -> 0 <= i < 1024 -> get_entry p i s = Ok (word (pg_mem s) f i, s).
Proof.
  intros Hs Hi. unfold get_entry, rd32. rewrite (entry_translate _ _ _ _ _ Hs Hi).
  by destruct (entry_place f i Hi) as [-> ->].
Qed.

Lemma set_entry_run s p f t i v : sees s p f t -> 0 <= i < 1024 ->
  set_entry p i v s = Ok (tt, put_mem (<[(f, i) := v]> (pg_mem s)) s).
Proof.
  intros Hs Hi. unfold set_entry, wr32. rewrite (entry_translate _ _ _ _ _ Hs Hi).
  by destruct (entry_place f i Hi) as [-> ->].
Qed.

Lemma put_mem_mem m m' s : put_mem m (put_mem m' s) = put_mem m s.
Proof. done. Qed.

Lemma put_mem_same s : put_mem (pg_mem s) s = s.
Proof. by destruct s. Qed.

Lemma sees_insert s p f t k v : sees s p f t -> f <> pg_cr3 s / 4096 -> f <> t -> sees (put_mem (<[(f, k) := v]> (pg_mem s)) s) p f t.
Proof.
  intros [Hp Hw] Hd Ht. split; [done|]. apply (window_same (pg_mem s)); [done..|].
  intros g k' Hg. apply word_insert_ne. congruence.
Qed.

Lemma memzero_page_run s p f t : sees s p f t -> f <> pg_cr3 s / 4096 -> f <> t ->
  memzero_page p s = Ok (tt, put_mem (zero_frame f (pg_mem s)) s).
Proof.
  intros Hs Hd Ht. unfold memzero_page, zero_frame.
  assert (Hall : forall i, i ∈ range 0 1024 -> 0 <= i < 1024) by (intros i; by rewrite elem_of_range).
  revert s Hs Hd Hall. generalize (range 0 1024). induction l as [|i l IH]; intros s Hs Hd Hall; simpl; [by rewrite put_mem_same|].
  erewrite bind_ok; [|apply (set_entry_run _ _ _ _ _ _ Hs), Hall; set_solver].
  rewrite IH; [done|by apply sees_insert|done|set_solver].
Qed.

End Access.

(** ** What the frame allocator promises *)

Class FrameLaws (F : Type) `{Frames F} := {
  fr_ok : F -> Prop;
  fr_live : F -> gset Z;
  fr_alloc_ok s : fr_ok s ->
    wpx (fun _ => True) fr_alloc (fun p s' => fr_ok s' /\
      ((p = NO_FRAME /\ fr_live s' = fr_live s) \/
       (exists f, p = f * 4096 /\ frame_ok f /\ (f ∉ fr_live s) /\ fr_live s' = {[f]} ∪ fr_live s))) s;
  fr_free_ok s f : fr_ok s -> f ∈ fr_live s ->
    wp (fr_free (f * 4096)) (fun _ s' => fr_ok s' /\ fr_live s' = fr_live s ∖ {[f]}) s }.

(** An allocation may fault, when the frames above low memory are gone. *)
Definition fr_fault {F} `{FrameLaws F} (h : halt) : Prop := exists s, fr_ok s /\ fr_alloc s = Halt h.

(** ** The invariant *)

(** Who uses a frame that holds a paging structure: it is a directory, the
    table of the entry [i] of the directory in [d], or the table of the entry
    [i] of every directory. *)
Inductive owner := ODir | OTab (d i : Z) | OKTab (i : Z).

#[export] Instance owner_eq_dec : EqDecision owner.
Proof. solve_decision. Defined.

Record layout := mk_layout { own : gmap Z owner; kt : Z -> Z }.

Definition is_dir (L : layout) (d : Z) : Prop := own L !! d = Some ODir.

Definition user_pde (i : Z) : Prop := 0 <= i < 768.
Definition kernel_pde (i : Z) : Prop := 768 <= i < 1023.

Record mem_inv (L : layout) (m : pmem) : Prop := {
  mi_frame : forall f o, own L !! f = Some o -> frame_ok f;
  mi_rec : forall d, is_dir L d -> present (word m d 1023) = true /\ entry_addr (word m d 1023) = d;
  mi_kernel : forall d i, is_dir L d -> kernel_pde i ->
    present (word m d i) = true /\ entry_addr (word m d i) = kt L i;
  mi_kt : forall i, kernel_pde i -> own L !! kt L i = Some (OKTab i);
  mi_user : forall d i, is_dir L d -> user_pde i -> present (word m d i) = true ->
    own L !! entry_addr (word m d i) = Some (OTab d i);
  mi_tab : forall f d i, own L !! f = Some (OTab d i) ->
    is_dir L d /\ user_pde i /\ present (word m d i) = true /\ entry_addr (word m d i) = f }.

(** No table of user pages is kept once it is empty. *)
Definition tables_used (L : layout) (m : pmem) : Prop :=
  forall f d i, own L !! f = Some (OTab d i) -> exists j, 0 <= j < 1024 /\ present (word m f j) = true.

Section Inv.
Context {F : Type} `{HLaws : FrameLaws F}.

(** The part that mentions neither the frame allocator nor the address spaces
    that are not in use. *)
Record pg_core (L : layout) (s : pgst F) : Prop := {
  pi_paging : pg_paging s = true;
  pi_mem : mem_inv L (pg_mem s);
  pi_curr : exists x d, pg_spaces s !! pg_curr s = Some x /\ page_dir_phy_addr x = d * 4096 /\ pg_cr3 s = d * 4096 /\ is_dir L d }.

Record pg_inv (L : layout) (s : pgst F) : Prop := {
  pi_core :> pg_core L s;
  pi_spaces : forall a x, pg_spaces s !! a = Some x -> exists d, page_dir_phy_addr x = d * 4096 /\ is_dir L d;
  pi_ok : fr_ok (pg_frames s);
  pi_live : forall f o, own L !! f = Some o -> f ∈ fr_live (pg_frames s) }.

End Inv.

#[export] Hint Extern 0 (pg_core _ _) => (apply pi_core; assumption) : core.

(** The temporary table is the one of entry 1022 of every directory. *)
Abbreviation temp_table L := (kt L 1022).

Section MemInv.
Context (L : layout) (m : pmem).
Hypothesis Hm : mem_inv L m.

(** Directories are all the invariant depends on. *)
Lemma mem_inv_ext m' : (forall d i, is_dir L d -> word m' d i = word m d i) -> mem_inv L m'.
Proof.
  intros E. destruct Hm as [H1 H2 H3 H4 H5 H6]. split.
  - done.
  - intros d Hd. rewrite !E by done. by apply H2.
  - intros d i Hd Hi. rewrite !E by done. by apply H3.
  - done.
  - intros d i Hd Hi. rewrite !E by done. by apply H5.
  - intros f d i Hf. destruct (H6 f d i Hf) as (Hd & ? & ? & ?). rewrite !E by done. done.
Qed.

Lemma table_owner d i : is_dir L d -> 0 <= i < 1023 -> present (word m d i) = true ->
  own L !! entry_addr (word m d i) = Some (if decide (i < 768) then OTab d i else OKTab i).
Proof.
  intros Hd Hi Hp. case_decide.
  - apply (mi_user _ _ Hm); [done|unfold user_pde; lia|done].
  - assert (Hk : kernel_pde i) by (unfold kernel_pde; lia). destruct (mi_kernel _ _ Hm d i Hd Hk) as [_ ->]. by apply (mi_kt _ _ Hm).
Qed.

Lemma table_not_dir d i f : is_dir L d -> 0 <= i < 1023 -> present (word m d i) = true -> is_dir L f -> entry_addr (word m d i) <> f.
Proof. intros Hd Hi Hp Hf E. pose proof (table_owner d i Hd Hi Hp) as Ho. rewrite E, Hf in Ho. case_decide; simplify_eq. Qed.

Lemma temp_owner : own L !! temp_table L = Some (OKTab 1022).
Proof. apply (mi_kt _ _ Hm). unfold kernel_pde. lia. Qed.

Lemma temp_not_dir d : is_dir L d -> temp_table L <> d.
Proof. intros Hd E. pose proof temp_owner as H. rewrite E, Hd in H. done. Qed.

Lemma table_not_temp d i : is_dir L d -> 0 <= i < 1022 -> present (word m d i) = true -> entry_addr (word m d i) <> temp_table L.
Proof.
  intros Hd Hi Hp E. pose proof (table_owner d i Hd ltac:(lia) Hp) as Ho. rewrite E, temp_owner in Ho. case_decide; simplify_eq. lia.
Qed.

(** Two directories share the tables of the kernel and no others. *)
Lemma table_shared d i d' i' :
  is_dir L d -> is_dir L d' -> 0 <= i < 1023 -> 0 <= i' < 1023 ->
  present (word m d i) = true -> present (word m d' i') = true ->
  entry_addr (word m d i) = entry_addr (word m d' i') -> i = i' /\ (d = d' \/ 768 <= i).
Proof.
  intros Hd Hd' Hi Hi' Hp Hp' E. pose proof (table_owner d i Hd Hi Hp) as Ho. rewrite E, (table_owner d' i' Hd' Hi' Hp') in Ho.
  repeat case_decide; simplify_eq; (split; [lia|]); auto with lia.
Qed.

End MemInv.

(** ** Temporary mappings *)

Definition REC (i : Z) : Z := 0xFFC00000 + i * 4096.
Definition TMP (c : Z) : Z := 0xFF800000 + c * 4096.

Definition temp_flags : Z := Z.lor (Z.lor (Z.lor VM_WRITE VM_WRITE_THROUGH) VM_NON_GLOBAL) VM_CACHE_DISABLE.

Section Pages.
Context {F : Type} `{HLaws : FrameLaws F} (c KERNEL_ADDR_SPACE junk : Z) (Hc : 0 <= c < 256).
Implicit Types s : pgst F.

(** [s'] is [s] but for what the operations on pages change. *)
Record same_rest s s' : Prop := {
  sr_cr3 : pg_cr3 s' = pg_cr3 s;
  sr_paging : pg_paging s' = pg_paging s;
  sr_spaces : pg_spaces s' = pg_spaces s;
  sr_curr : pg_curr s' = pg_curr s;
  sr_if : pg_if s' = pg_if s;
  sr_online : pg_online s' = pg_online s;
  sr_shootdowns : pg_shootdowns s' = pg_shootdowns s }.

Lemma same_rest_refl s : same_rest s s.
Proof. done. Qed.

Lemma same_rest_trans s1 s2 s3 : same_rest s1 s2 -> same_rest s2 s3 -> same_rest s1 s3.
Proof. intros [] []. split; congruence. Qed.

(** [s'] is [s] but for the entry of this cpu in the temporary table. *)
Record temp_step (L : layout) s s' : Prop := {
  ts_rest : same_rest s s';
  ts_frames : pg_frames s' = pg_frames s;
  ts_errors : pg_errors s' = pg_errors s;
  ts_word : forall g k, (g, k) <> (temp_table L, c) -> word (pg_mem s') g k = word (pg_mem s) g k }.

Lemma temp_step_refl L s : temp_step L s s.
Proof. done. Qed.

Lemma temp_step_trans L s1 s2 s3 : temp_step L s1 s2 -> temp_step L s2 s3 -> temp_step L s1 s3.
Proof.
  intros [? ? ? H1] [? ? ? H2]. split; [by eapply same_rest_trans|congruence|congruence|]. intros g k Hg. by rewrite H2, H1.
Qed.

(** A step that leaves the directories and the allocator alone keeps the
    invariant. *)
Lemma pg_core_mem L s s' : pg_core L s -> same_rest s s' -> mem_inv L (pg_mem s') -> pg_core L s'.
Proof. intros [Hp Hm Hcu] [E1 E2 E3 E4 E5 E6 E7] Hm'. by split; rewrite ?E1, ?E2, ?E3, ?E4. Qed.

Lemma pg_inv_mem L s s' :
  pg_inv L s -> same_rest s s' -> pg_frames s' = pg_frames s -> mem_inv L (pg_mem s') -> pg_inv L s'.
Proof. intros [Hco Hsp Hok Hl] Hr Ef Hm'. split; [by apply (pg_core_mem L s)|by rewrite (sr_spaces _ _ Hr)|by rewrite Ef..]. Qed.

Lemma pg_inv_ext L s s' :
  pg_inv L s -> same_rest s s' -> pg_frames s' = pg_frames s ->
  (forall d i, is_dir L d -> word (pg_mem s') d i = word (pg_mem s) d i) -> pg_inv L s'.
Proof. intros Hi Hr Ef Hw. apply (pg_inv_mem L s); [done..|]. by apply (mem_inv_ext _ _ (pi_mem _ _ Hi)). Qed.

Lemma pg_core_temp L s s' : pg_core L s -> temp_step L s s' -> pg_core L s'.
Proof.
  intros Hi [Hr Hf _ Hw]. apply (pg_core_mem L s); [done..|]. apply (mem_inv_ext _ _ (pi_mem _ _ Hi)).
  intros d i Hd. apply Hw. intros [= -> _]. by apply (temp_not_dir _ _ (pi_mem _ _ Hi) _ Hd).
Qed.

Lemma pg_inv_temp L s s' : pg_inv L s -> temp_step L s s' -> pg_inv L s'.
Proof. intros [Hco Hsp Hok Hl] Hst. split; [by apply (pg_core_temp L s)|by rewrite (sr_spaces _ _ (ts_rest _ _ _ Hst))|by rewrite (ts_frames _ _ _ Hst)..]. Qed.

Lemma curr_dir L s : pg_core L s -> is_dir L (pg_cr3 s / 4096).
Proof.
  intros Hi. destruct (pi_curr _ _ Hi) as (x & d & _ & _ & -> & Hd).
  by rewrite Z.div_mul by lia.
Qed.

Lemma sees_rec L s i : pg_core L s -> 0 <= i < 1024 -> present (word (pg_mem s) (pg_cr3 s / 4096) i) = true ->
  sees s (REC i) (entry_addr (word (pg_mem s) (pg_cr3 s / 4096) i)) (pg_cr3 s / 4096).
Proof.
  intros Hi Hr Hp. split; [apply Hi|]. destruct (mi_rec _ _ (pi_mem _ _ Hi) _ (curr_dir _ _ Hi)) as [H1 H2]. by apply window_rec.
Qed.

Lemma sees_curr_dir L s : pg_core L s -> sees s (REC 1023) (pg_cr3 s / 4096) (pg_cr3 s / 4096).
Proof.
  intros Hi. destruct (mi_rec _ _ (pi_mem _ _ Hi) _ (curr_dir _ _ Hi)) as [H1 H2].
  pose proof (sees_rec L s 1023 Hi ltac:(lia) H1) as Hs. by rewrite H2 in Hs.
Qed.

Lemma curr_temp L s : pg_core L s ->
  present (word (pg_mem s) (pg_cr3 s / 4096) 1022) = true /\ entry_addr (word (pg_mem s) (pg_cr3 s / 4096) 1022) = temp_table L.
Proof. intros Hi. apply (mi_kernel _ _ (pi_mem _ _ Hi)); [by apply curr_dir|]. unfold kernel_pde. lia. Qed.

(** The temporary entry of this cpu is for the frame [f]. *)
Definition shows (L : layout) s (f : Z) : Prop :=
  present (word (pg_mem s) (temp_table L) c) = true /\ entry_addr (word (pg_mem s) (temp_table L) c) = f.

Lemma sees_temp L s f : pg_core L s -> shows L s f -> sees s (TMP c) f (temp_table L).
Proof.
  intros Hi [Hp Hf]. split; [apply Hi|]. destruct (curr_temp _ _ Hi) as [H1 H2]. exists 1022, c. rewrite H2. unfold TMP. split_and!; (done || lia).
Qed.

Definition temp_pte (f : Z) : Z := pte_val (new_pte junk (f * 4096) temp_flags).

(** The rest of [map_page_in] once the table is there. *)
Definition write_pte (page_table paddr vaddr flags : Z) : M (pgst F) bool :=
  let pte := pte_val (new_pte junk paddr flags) in
  let pte_idx := pte_index vaddr in
  do old <- get_entry page_table pte_idx;
  when (present old && negb (compare_ptes (pte_of_val pte) (pte_of_val old)))
    (panic "Overwriting previous PTE when mapping address");;;
  set_entry page_table pte_idx pte;;;
  ret true.

Lemma write_pte_run s q t tt' paddr i j flags :
  sees s q t tt' -> 0 <= i < 1024 -> 0 <= j < 1024 ->
  write_pte q paddr (i * 2 ^ 22 + j * 4096) flags s =
    if present (word (pg_mem s) t j) &&
       negb (compare_ptes (pte_of_val (pte_val (new_pte junk paddr flags))) (pte_of_val (word (pg_mem s) t j)))
    then Halt (Panic "Overwriting previous PTE when mapping address")
    else Ok (true, put_mem (<[(t, j) := pte_val (new_pte junk paddr flags)]> (pg_mem s)) s).
Proof.
  intros Hs Hi Hj. unfold write_pte. destruct (vaddr_index i j Hi Hj) as (_ & -> & _).
  erewrite bind_ok by by eapply get_entry_run. unfold when.
  destruct (present _ && _); [done|]. erewrite bind_ok; [|done]. by erewrite bind_ok by by eapply set_entry_run.
Qed.

Lemma get_page_dir_curr map s : pg_paging s = true -> get_page_dir_with c map (pg_curr s) s = Ok (REC 1023, s).
Proof. intros Hp. unfold get_page_dir_with, cpu_paging_enabled, gets, bind. rewrite Hp. simpl. by rewrite Z.eqb_refl. Qed.

Lemma get_page_table_curr map i s : pg_paging s = true -> 0 <= i < 1024 ->
  get_page_table_with c map (REC 1023) i s = Ok (REC i, s).
Proof.
  intros Hp Hi. unfold get_page_table_with, cpu_paging_enabled, gets, bind. rewrite Hp. simpl. by rewrite rec_addr.
Qed.

(** Mapping a page of the temporary table in the current address space. *)
Lemma map_temp_run map L s f :
  pg_core L s -> frame_ok f -> present (word (pg_mem s) (temp_table L) c) = false ->
  map_page_in_with c KERNEL_ADDR_SPACE junk map (pg_curr s) (f * 4096) (TMP c) temp_flags s =
    Ok (true, put_mem (<[(temp_table L, c) := temp_pte f]> (pg_mem s)) s).
Proof.
  intros Hi Hf Hold. pose proof (pi_paging _ _ Hi) as Hp. destruct (curr_temp _ _ Hi) as [H1 H2].
  change (TMP c) with (1022 * 2 ^ 22 + c * 4096). destruct (vaddr_index 1022 c ltac:(lia) ltac:(lia)) as (Ep & _ & Ea).
  unfold map_page_in_with, is_temp_mapping. rewrite frame_aligned, Ea, Ep, !orb_true_r by done.
  erewrite bind_ok; [|done]. erewrite bind_ok; [|done]. erewrite bind_ok; [|done].
  erewrite bind_ok by by apply get_page_dir_curr. erewrite bind_ok by done. rewrite Hp.
  erewrite bind_ok; [|done]. erewrite bind_ok by (eapply get_entry_run; [by apply (sees_curr_dir L)|lia]). rewrite H1.
  erewrite bind_ok; [|done]. cbv beta iota. erewrite bind_ok by (by apply get_page_table_curr). erewrite bind_ok; [|done].
  pose proof (sees_rec L s 1022 Hi ltac:(lia) H1) as Hs. rewrite H2 in Hs.
  etrans; [apply (write_pte_run s (REC 1022) (temp_table L) _ (f * 4096) 1022 c temp_flags Hs); lia|]. by rewrite Hold.
Qed.

(** [create_temp_mapping] shows the frame in the page of this cpu. *)
Lemma create_temp_mapping_run L s f :
  pg_core L s -> frame_ok f ->
  create_temp_mapping c KERNEL_ADDR_SPACE junk (f * 4096) s =
    Ok (TMP c, put_tlb (pg_flushes s + 1) (pg_shootdowns s)
          (put_mem (<[(temp_table L, c) := temp_pte f]> (pg_mem s)) s)).
Proof.
  intros Hi Hf. destruct (curr_temp _ _ Hi) as [H1 H2].
  pose proof (sees_rec L s 1022 Hi ltac:(lia) H1) as Hs. rewrite H2 in Hs.
  unfold create_temp_mapping, create_temp_mapping_with. rewrite (u8_id c) by lia. rewrite rec_addr, temp_addr by (unfold TEMP_MAP_PDE_IDX; lia).
  change (0xFFC00000 + TEMP_MAP_PDE_IDX * 4096 + 4 * c) with (REC 1022 + 4 * c).
  rewrite <- (u32_id (REC 1022 + 4 * c)) by (unfold REC; lia).
  erewrite bind_ok; [|unfold ASSERT; change 3 with (Z.ones 2); rewrite Z.land_ones, u32_id by (unfold REC; lia);
    by replace ((REC 1022 + 4 * c) mod 2 ^ 2) with 0 by (unfold REC; change (2 ^ 2) with 4; Z.to_euclidean_division_equations; lia)].
  set (e := word (pg_mem s) (temp_table L) c).
  erewrite bind_ok by (apply (get_entry_run _ _ _ _ c Hs); lia).
  erewrite bind_ok by (apply (set_entry_run _ _ _ _ c _ Hs); lia). fold e. cbv zeta.
  set (s1 := put_mem (<[(temp_table L, c) := e - bits 0 1 e]> (pg_mem s)) s).
  assert (Hi1 : pg_core L s1).
  { apply (pg_core_temp L s); [done|]. split; [done..|]. intros g k Hg. apply word_insert_ne. congruence. }
  erewrite bind_ok by done. change (0xFF800000 + c * 4096) with (TMP c). change (Z.lor _ VM_CACHE_DISABLE) with temp_flags.
  erewrite bind_ok; [|apply (map_temp_run _ L s1 f Hi1 Hf); subst s1; simpl; rewrite word_insert_eq; apply present_clear].
  erewrite bind_ok by done. erewrite bind_ok by done. unfold ret. subst s1. simpl. unfold put_tlb, put_mem. simpl. by rewrite insert_insert_eq.
Qed.

Lemma temp_pte_fields f : frame_ok f -> present (temp_pte f) = true /\ entry_addr (temp_pte f) = f.
Proof. apply new_pte_fields. Qed.

Lemma create_temp_mapping_spec L s f :
  pg_core L s -> frame_ok f ->
  wp (create_temp_mapping c KERNEL_ADDR_SPACE junk (f * 4096))
    (fun p s' => p = TMP c /\ temp_step L s s' /\ shows L s' f) s.
Proof.
  intros Hi Hf. unfold wp. rewrite (create_temp_mapping_run L s f Hi Hf). set (s' := put_tlb _ _ _).
  assert (Hst : temp_step L s s') by (split; [done..|intros g k Hg; apply word_insert_ne; congruence]).
  split; [done|]. split; [done|]. unfold shows. simpl. rewrite word_insert_eq. by apply temp_pte_fields.
Qed.

(** [p] points to the directory in frame [d]. *)
Definition dir_ptr (L : layout) s (d p : Z) : Prop :=
  (p = REC 1023 /\ d = pg_cr3 s / 4096) \/ (p = TMP c /\ shows L s d).

Lemma dir_ptr_sees L s d p : pg_core L s -> dir_ptr L s d p -> exists t, sees s p d t.
Proof. intros Hi [[-> ->]|[-> Hs]]; [|exists (temp_table L); by apply sees_temp]. exists (pg_cr3 s / 4096). by apply (sees_curr_dir L). Qed.

Lemma dir_ptr_higher L s d p : dir_ptr L s d p -> is_higher_half p = true.
Proof.
  intros [[-> _]|[-> _]]; [done|]. unfold is_higher_half, ptr_in_range, TMP, KERNEL_PHY_OFFSET. lia.
Qed.

(** The directory of an address space. *)
Definition dir_of s (a : Z) : option Z := (fun x => page_dir_phy_addr x / 4096) <$> pg_spaces s !! a.

Lemma dir_of_inv L s a d : pg_inv L s -> dir_of s a = Some d ->
  is_dir L d /\ frame_ok d /\ exists x, pg_spaces s !! a = Some x /\ page_dir_phy_addr x = d * 4096.
Proof.
  intros Hi (x & Hx & ->)%fmap_Some. destruct (pi_spaces _ _ Hi _ _ Hx) as (d & E & Hd). rewrite E, Z.div_mul by lia.
  split; [done|]. split; [by apply (mi_frame _ _ (pi_mem _ _ Hi) _ _ Hd)|]. by exists x.
Qed.

Lemma dir_of_curr L s : pg_core L s -> dir_of s (pg_curr s) = Some (pg_cr3 s / 4096).
Proof. intros Hi. destruct (pi_curr _ _ Hi) as (x & d & Hx & Ex & -> & _). unfold dir_of. rewrite Hx. simpl. by rewrite Ex. Qed.

Lemma dir_of_rest s s' a : same_rest s s' -> dir_of s' a = dir_of s a.
Proof. intros Hr. unfold dir_of. by rewrite (sr_spaces _ _ Hr). Qed.

Lemma get_page_dir_core L s a d :
  pg_core L s -> is_dir L d -> (exists x, pg_spaces s !! a = Some x /\ page_dir_phy_addr x = d * 4096) ->
  wp (get_page_dir c KERNEL_ADDR_SPACE junk a) (fun p s' => temp_step L s s' /\ dir_ptr L s' d p) s.
Proof.
  intros Hi Hdir (x & Hx & Ex). pose proof (mi_frame _ _ (pi_mem _ _ Hi) _ _ Hdir) as Hf.
  unfold get_page_dir. destruct (decide (pg_curr s = a)) as [<-|Hne].
  - unfold wp. rewrite get_page_dir_curr by apply Hi. split; [apply temp_step_refl|]. left.
    destruct (pi_curr _ _ Hi) as (y & e & Hy & Ey & -> & _). rewrite Z.div_mul by lia. simplify_eq. split; [done|]. lia.
  - unfold get_page_dir_with. apply wp_bind, wp_gets, wp_bind, wp_gets. rewrite (pi_paging _ _ Hi). simpl. rewrite (proj2 (Z.eqb_neq _ _) Hne).
    eapply wp_bind_ok; [unfold get_space, must; by rewrite Hx|]. rewrite Ex.
    eapply wp_mono; [by apply (create_temp_mapping_spec L)|]. intros p s' (-> & Hst & Hs). split; [done|]. by right.
Qed.

Lemma get_page_dir_spec L s a d :
  pg_inv L s -> dir_of s a = Some d ->
  wp (get_page_dir c KERNEL_ADDR_SPACE junk a) (fun p s' => temp_step L s s' /\ dir_ptr L s' d p) s.
Proof. intros Hi Hd. destruct (dir_of_inv _ _ _ _ Hi Hd) as (Hdir & _ & x & Hx & Ex). apply get_page_dir_core; [done|done|by exists x]. Qed.

(** A pointer to the table of an entry of the directory. *)
Lemma get_page_table_spec L s d p i :
  pg_core L s -> is_dir L d -> dir_ptr L s d p -> 0 <= i < 1023 -> present (word (pg_mem s) d i) = true ->
  wp (get_page_table c KERNEL_ADDR_SPACE junk p i) (fun q s' => temp_step L s s' /\
    exists t, sees s' q (entry_addr (word (pg_mem s) d i)) t /\ (t = pg_cr3 s / 4096 \/ t = temp_table L)) s.
Proof.
  intros Hi Hd Hp Hr Hpr. unfold get_page_table. destruct Hp as [[-> ->]|[-> Hs]].
  - unfold wp. rewrite get_page_table_curr by (apply Hi || lia). split; [apply temp_step_refl|].
    exists (pg_cr3 s / 4096). split; [|by left]. apply (sees_rec L); (done || lia).
  - unfold get_page_table_with. apply wp_bind, wp_gets. rewrite (pi_paging _ _ Hi). simpl.
    rewrite (proj2 (Z.eqb_neq (TMP c) _)) by (unfold TMP; lia).
    eapply wp_bind_ok; [apply (get_entry_run _ _ _ _ i (sees_temp _ _ _ Hi Hs)); lia|]. rewrite Z.shiftl_mul_pow2 by lia.
    pose proof (table_owner _ _ (pi_mem _ _ Hi) d i Hd Hr Hpr) as Ho.
    eapply wp_mono; [apply (create_temp_mapping_spec L); [done|by apply (mi_frame _ _ (pi_mem _ _ Hi) _ _ Ho)]|].
    intros q s' (-> & Hst & Hs'). split; [done|]. exists (temp_table L). split; [|by right].
    apply sees_temp; [by apply (pg_core_temp L s)|done].
Qed.

(** ** Mapping a page *)

Lemma map_tail_spec L s d p i j paddr flags allocated :
  let t := entry_addr (word (pg_mem s) d i) in
  let m0 := if allocated : bool then zero_frame t (pg_mem s) else pg_mem s in
  let pte := pte_val (new_pte junk paddr flags) in
  pg_inv L s -> is_dir L d -> dir_ptr L s d p -> 0 <= i < 1022 -> 0 <= j < 1024 ->
  present (word (pg_mem s) d i) = true ->
  (present (word m0 t j) = true -> compare_ptes (pte_of_val pte) (pte_of_val (word m0 t j)) = true) ->
  wp (do page_table <- get_page_table c KERNEL_ADDR_SPACE junk p i;
      when allocated (memzero_page page_table);;;
      write_pte page_table paddr (i * 2 ^ 22 + j * 4096) flags)
    (fun r s' => r = true /\ same_rest s s' /\ pg_frames s' = pg_frames s /\ pg_errors s' = pg_errors s /\
      forall g k, (g, k) <> (temp_table L, c) -> word (pg_mem s') g k = word (<[(t, j) := pte]> m0) g k) s.
Proof.
  intros t m0 pte Hi Hd Hp Hri Hrj Hpr Hcmp. pose proof (pi_mem _ _ Hi) as Hm.
  assert (Hnd : t <> pg_cr3 s / 4096) by (apply (table_not_dir _ _ Hm); (done || lia || by apply curr_dir)).
  assert (Hnt : t <> temp_table L) by (by apply (table_not_temp _ _ Hm)).
  apply wp_bind. eapply wp_mono; [apply (get_page_table_spec L _ d); (done || lia)|].
  intros q s1 (Hst & tt' & Hs & Htt). fold t in Hs. destruct Hst as [Hr Hf He Hw].
  assert (Ht' : t <> tt') by (destruct Htt; congruence).
  set (s2 := if allocated then put_mem (zero_frame t (pg_mem s1)) s1 else s1).
  assert (Hw2 : forall g k, (g, k) <> (temp_table L, c) -> word (pg_mem s2) g k = word m0 g k).
  { intros g k Hg. subst s2 m0. destruct allocated; [simpl; rewrite !word_zero_frame; by case_bool_decide; auto|by apply Hw]. }
  assert (Hr2 : same_rest s s2 /\ pg_frames s2 = pg_frames s /\ pg_errors s2 = pg_errors s).
  { subst s2. destruct allocated; [|done]. split; [destruct Hr; by split|done]. }
  assert (Hs2 : sees s2 q t tt').
  { subst s2. destruct allocated; [|done]. destruct Hs as [Hp1 Hs]. split; [done|]. simpl.
    eapply window_same; [exact Hs|by rewrite (sr_cr3 _ _ Hr)|done|]. intros g k Hg. rewrite word_zero_frame, bool_decide_false; [done|naive_solver]. }
  eapply wp_bind_ok with (s' := s2) (a := tt).
  { subst s2. destruct allocated; [|done]. apply (memzero_page_run _ _ _ tt'); [done|by rewrite (sr_cr3 _ _ Hr)|done]. }
  unfold wp. rewrite (write_pte_run s2 q t tt') by (done || lia). rewrite (Hw2 t j) by congruence. fold pte.
  assert (Hb : present (word m0 t j) && negb (compare_ptes (pte_of_val pte) (pte_of_val (word m0 t j))) = false).
  { destruct (present (word m0 t j)); [by rewrite (Hcmp eq_refl)|done]. }
  rewrite Hb. destruct Hr2 as (Hr2 & Hf2 & He2). split; [done|]. split; [destruct Hr2; by split|]. do 2 (split; [done|]).
  intros g k Hg. simpl. destruct (decide ((t, j) = (g, k))) as [[= <- <-]|]; [by rewrite !word_insert_eq|].
  rewrite !word_insert_ne by done. by apply Hw2.
Qed.

(** What changes in the address spaces: the pages [u] is defined on, in the
    directory [d], and in every directory if they are pages of the kernel. *)
Definition changes (L : layout) (d : Z) (u : Z -> option (option Z)) (m m' : pmem) : Prop :=
  forall d' vp, is_dir L d' -> 0 <= vp < 1022 * 1024 ->
    lookup_page m' d' vp =
      match u vp with
      | Some r => if decide (d' = d \/ 768 * 1024 <= vp) then r else lookup_page m d' vp
      | None => lookup_page m d' vp
      end.

Definition one (vp : Z) (r : option Z) : Z -> option (option Z) := fun v => if decide (v = vp) then Some r else None.

(** The temporary entry of a cpu is not seen. *)
Lemma lookup_page_temp L m m' d vp :
  mem_inv L m -> is_dir L d -> 0 <= vp < 1022 * 1024 ->
  (forall g k, (g, k) <> (temp_table L, c) -> word m' g k = word m g k) -> lookup_page m' d vp = lookup_page m d vp.
Proof.
  intros Hm Hd Hvp E. destruct (page_parts _ Hvp) as [Hri Hrj]. apply lookup_page_eq.
  - apply E. intros [= H1 _]. by apply (temp_not_dir _ _ Hm _ Hd).
  - intros Hp. apply E. intros [= H1 _]. by apply (table_not_temp _ _ Hm d (vp / 1024)).
Qed.

(** Writing an entry of a table changes the page it is for. *)
Lemma changes_entry L m m' d i j v :
  mem_inv L m -> is_dir L d -> 0 <= i < 1022 -> 0 <= j < 1024 -> present (word m d i) = true ->
  (forall g k, (g, k) <> (temp_table L, c) -> word m' g k = word (<[(entry_addr (word m d i), j) := v]> m) g k) ->
  changes L d (one (i * 1024 + j) (if present v then Some v else None)) m m'.
Proof.
  intros Hm Hd Hi Hj Hp E d' vp Hd' Hvp. destruct (page_parts _ Hvp) as [Hri Hrj]. set (t := entry_addr (word m d i)) in *.
  assert (Hdirs : forall d i, is_dir L d -> word m' d i = word m d i).
  { intros e k He. rewrite E by (intros [= H1 _]; by apply (temp_not_dir _ _ Hm _ He)).
    apply word_insert_ne. intros [= H1 _]. by apply (table_not_dir _ _ Hm d i e Hd ltac:(lia) Hp He). }
  destruct (decide (vp = i * 1024 + j /\ (d' = d \/ 768 * 1024 <= vp))) as [[-> Hh]|Hn].
  - unfold one. rewrite !decide_True by done. unfold lookup_page. destruct (page_join i j Hj) as [-> ->].
    rewrite Hdirs by done.
    assert (Hsame : present (word m d' i) = true /\ entry_addr (word m d' i) = t).
    { destruct Hh as [->|Hh]; [done|]. assert (Hk : kernel_pde i) by (unfold kernel_pde; lia). subst t.
      destruct (mi_kernel _ _ Hm d' i Hd' Hk) as [? ->], (mi_kernel _ _ Hm d i Hd Hk) as [? ->]. done. }
    destruct Hsame as [-> ->]. rewrite E, word_insert_eq; [done|]. intros [= H1 _]. by apply (table_not_temp _ _ Hm d i).
  - transitivity (lookup_page m d' vp).
    + apply lookup_page_eq; [by apply Hdirs|]. intros Hp'. rewrite E by (intros [= H1 _]; by apply (table_not_temp _ _ Hm d' (vp / 1024))).
      apply word_insert_ne. intros [= H1 H2]. apply Hn.
      destruct (table_shared _ _ Hm d i d' (vp / 1024) Hd Hd' ltac:(lia) ltac:(lia) Hp Hp' H1) as [-> Hor].
      split; [pose proof (Z.div_mod vp 1024); lia|]. destruct Hor; [by left|right]. Z.to_euclidean_division_equations; lia.
    + unfold one. case_decide as H1; [|done]. case_decide as H2; [|done]. by destruct Hn.
Qed.

(** A table with a present entry is in use. *)
Lemma used_entry L m m' t j v :
  mem_inv L m -> present v = true -> 0 <= j < 1024 -> t <> temp_table L ->
  (forall g k, (g, k) <> (temp_table L, c) -> word m' g k = word (<[(t, j) := v]> m) g k) ->
  (forall f d i, own L !! f = Some (OTab d i) -> f <> t -> exists j, 0 <= j < 1024 /\ present (word m f j) = true) ->
  tables_used L m'.
Proof.
  intros Hm Hv Hj Ht E Hu f d i Hf. destruct (decide (f = t)) as [->|Hne].
  - exists j. rewrite E by congruence. by rewrite word_insert_eq.
  - destruct (Hu f d i Hf Hne) as (k & Hk & Hp). exists k. split; [done|].
    rewrite E, word_insert_ne by (congruence || (intros [= -> _]; by rewrite (temp_owner _ _ Hm) in Hf)). done.
Qed.

(** *** A new table *)

Definition add_table (t d i : Z) (L : layout) : layout := mk_layout (<[t := OTab d i]> (own L)) (kt L).

Section NewTable.
Context (L : layout) (m : pmem) (d i t v : Z).
Hypothesis Hm : mem_inv L m.
Hypothesis Hd : is_dir L d.
Hypothesis Hi : user_pde i.
Hypothesis Habs : present (word m d i) = false.
Hypothesis Hfree : own L !! t = None.
Hypothesis Hf : frame_ok t.
Hypothesis Hv : present v = true /\ entry_addr v = t.

Lemma add_table_dir e : is_dir (add_table t d i L) e <-> is_dir L e.
Proof.
  clear -Hfree.
  unfold is_dir. simpl. destruct (decide (e = t)) as [->|Hne]; [rewrite lookup_insert_eq, Hfree; naive_solver|by rewrite lookup_insert_ne].
Qed.

Lemma dir_not_new e : is_dir L e -> e <> t.
Proof. intros He ->. unfold is_dir in He. by rewrite Hfree in He. Qed.

Lemma new_word_other e k : (d, i) <> (e, k) -> word (<[(d, i) := v]> m) e k = word m e k.
Proof. apply word_insert_ne. Qed.

Lemma mem_inv_new_table : mem_inv (add_table t d i L) (<[(d, i) := v]> m).
Proof.
  assert (Hnk : forall k, kernel_pde k -> (d, i) <> (d, k)) by (unfold user_pde, kernel_pde in *; intros k Hk [= E]; lia).
  assert (Hold : forall f o, own L !! f = Some o -> own (add_table t d i L) !! f = Some o)
    by (intros f o Ho; simpl; rewrite lookup_insert_ne; congruence).
  split.
  - intros f o. simpl. intros [[<- <-]|[Hne Ho]]%lookup_insert_Some; [done|by apply (mi_frame _ _ Hm _ _ Ho)].
  - intros e He%add_table_dir. rewrite !new_word_other by (unfold user_pde in *; intros [= _ E]; lia). by apply (mi_rec _ _ Hm).
  - intros e k He%add_table_dir Hk. rewrite !new_word_other by (unfold user_pde, kernel_pde in *; intros [= _ E]; lia). by apply (mi_kernel _ _ Hm).
  - intros k Hk. by apply Hold, (mi_kt _ _ Hm).
  - intros e k He%add_table_dir Hk. destruct (decide ((d, i) = (e, k))) as [[= <- <-]|Hne].
    + rewrite word_insert_eq. intros _. rewrite (proj2 Hv). simpl. by rewrite lookup_insert_eq.
    + rewrite new_word_other by done. intros Hp. by apply Hold, (mi_user _ _ Hm).
  - intros f e k. simpl. intros [[<- [= <- <-]]|[Hne Ho]]%lookup_insert_Some.
    + rewrite word_insert_eq. split_and!; [by apply add_table_dir|apply Hi..|apply Hv|apply Hv].
    + destruct (mi_tab _ _ Hm _ _ _ Ho) as (He & Hk & Hp & Ha). rewrite new_word_other by (intros [= -> ->]; congruence).
      split_and!; [by apply add_table_dir|apply Hk..|done|done].
Qed.

Lemma lookup_new_table e vp : is_dir L e -> 0 <= vp < 1022 * 1024 ->
  lookup_page (zero_frame t (<[(d, i) := v]> m)) e vp = lookup_page m e vp.
Proof.
  intros He Hvp. destruct (page_parts _ Hvp) as [Hri Hrj]. destruct (decide ((d, i) = (e, vp / 1024))) as [[= <- Ei]|Hne].
  - unfold lookup_page. rewrite word_zero_frame, bool_decide_false by (intros [E _]; by apply (dir_not_new d)).
    rewrite <- Ei, word_insert_eq, Habs, (proj1 Hv), (proj2 Hv). rewrite word_zero_frame, bool_decide_true by done. done.
  - apply lookup_page_eq.
    + rewrite word_zero_frame, bool_decide_false by (intros [E _]; by apply (dir_not_new e)). by apply new_word_other.
    + intros Hp. pose proof (table_owner _ _ Hm e (vp / 1024) He ltac:(lia) Hp) as Ho.
      rewrite word_zero_frame, bool_decide_false by (intros [E _]; congruence).
      apply new_word_other. intros [= E _]. by apply (table_not_dir _ _ Hm e (vp / 1024) d He ltac:(lia) Hp Hd).
Qed.

(** The new table is zeroed and gets its first entry. *)
Lemma new_table_entry m' j pte :
  0 <= j < 1024 -> present pte = true ->
  (forall g k, (g, k) <> (temp_table L, c) -> word m' g k = word (<[(t, j) := pte]> (zero_frame t (<[(d, i) := v]> m))) g k) ->
  mem_inv (add_table t d i L) m' /\
  (tables_used L m -> tables_used (add_table t d i L) m') /\
  changes L d (one (i * 1024 + j) (Some pte)) m m'.
Proof.
  intros Hj Hpv Hw. set (m1 := zero_frame t (<[(d, i) := v]> m)) in *. set (L' := add_table t d i L).
  assert (Hm1 : mem_inv L' m1).
  { apply (mem_inv_ext _ _ mem_inv_new_table). intros e k He%add_table_dir.
    subst m1. rewrite word_zero_frame, bool_decide_false; [done|]. intros [E _]. by apply (dir_not_new e). }
  assert (Hd' : is_dir L' d) by by apply add_table_dir.
  assert (Ew : word m1 d i = v).
  { subst m1. rewrite word_zero_frame, bool_decide_false; [apply word_insert_eq|]. intros [E _]. by apply (dir_not_new d). }
  assert (Ht : t <> temp_table L) by (intros E; pose proof (temp_owner _ _ Hm); congruence).
  split_and!.
  - apply (mem_inv_ext _ _ Hm1). intros e k He. rewrite Hw by (intros [= E _]; by apply (temp_not_dir _ _ Hm1 e)).
    apply word_insert_ne. intros [= E _]. apply add_table_dir in He. by apply (dir_not_new e).
  - intros Hu. apply (used_entry L' m1 m' t j pte); [done..|].
    intros g e k Hg Hne. simpl in Hg. rewrite lookup_insert_ne in Hg by done. destruct (Hu _ _ _ Hg) as (k' & Hk & Hp). exists k'. split; [done|].
    subst m1. rewrite word_zero_frame, bool_decide_false by naive_solver. rewrite new_word_other; [done|]. intros [= <- _].
    unfold is_dir in Hd. congruence.
  - assert (Hp1 : present (word m1 d i) = true) by (rewrite Ew; apply Hv).
    pose proof (changes_entry L' m1 m' d i j pte Hm1 Hd' ltac:(unfold user_pde in *; lia) Hj Hp1) as Hch.
    rewrite Ew, (proj2 Hv), Hpv in Hch. specialize (Hch Hw). intros e vp He Hvp.
    rewrite (Hch e vp (proj2 (add_table_dir e) He) Hvp). pose proof (lookup_new_table e vp He Hvp) as El. fold m1 in El. by rewrite El.
Qed.

End NewTable.

(** *** [map_page_in] *)

(** The frames in use that do not hold a paging structure. *)
Definition data_frames (L : layout) s : gset Z := fr_live (pg_frames s) ∖ dom (own L).

(** An operation on pages: tables may have come and gone. *)
Record pages_step (L : layout) s (L' : layout) s' : Prop := {
  ps_rest : same_rest s s';
  ps_inv : pg_inv L' s';
  ps_used : tables_used L (pg_mem s) -> tables_used L' (pg_mem s');
  ps_dirs : forall d, is_dir L' d <-> is_dir L d;
  ps_kt : kt L' = kt L }.

Lemma pages_step_trans L1 s1 L2 s2 L3 s3 : pages_step L1 s1 L2 s2 -> pages_step L2 s2 L3 s3 -> pages_step L1 s1 L3 s3.
Proof.
  intros [H1 H2 H3 H4 H5] [G1 G2 G3 G4 G5]. split; [by eapply same_rest_trans|done|auto|intros d; by rewrite G4|congruence].
Qed.

Lemma pages_step_refl L s : pg_inv L s -> pages_step L s L s.
Proof. intros Hi. by split. Qed.

Lemma pages_step_temp L s s' : pg_inv L s -> temp_step L s s' -> pages_step L s L s'.
Proof.
  intros Hi Hst. pose proof (pg_inv_temp _ _ _ Hi Hst). split; [apply Hst|done| |done|done].
  intros Hu f d i Hf. destruct (Hu f d i Hf) as (j & Hj & Hp). exists j. split; [done|].
  rewrite (ts_word _ _ _ Hst); [done|]. intros [= -> _]. by rewrite (temp_owner _ _ (pi_mem _ _ Hi)) in Hf.
Qed.

Lemma changes_temp L d s s' : pg_inv L s -> temp_step L s s' -> changes L d (fun _ => None) (pg_mem s) (pg_mem s').
Proof. intros Hi Hst d' vp Hd' Hvp. apply (lookup_page_temp L); [apply Hi|done|done|apply Hst]. Qed.

(** The entry is there, or the table can be allocated. *)
Lemma map_present_spec L s d p i j f flags :
  let pte := pte_val (new_pte junk (f * 4096) flags) in
  pg_inv L s -> is_dir L d -> dir_ptr L s d p -> 0 <= i < 1022 -> 0 <= j < 1024 -> frame_ok f ->
  present (word (pg_mem s) d i) = true ->
  (forall old, lookup_page (pg_mem s) d (i * 1024 + j) = Some old -> compare_ptes (pte_of_val pte) (pte_of_val old) = true) ->
  wp (do page_table <- get_page_table c KERNEL_ADDR_SPACE junk p i;
      when false (memzero_page page_table);;;
      write_pte page_table (f * 4096) (i * 2 ^ 22 + j * 4096) flags)
    (fun r s' => r = true /\ pages_step L s L s' /\ pg_frames s' = pg_frames s /\ pg_errors s' = pg_errors s /\
      changes L d (one (i * 1024 + j) (Some pte)) (pg_mem s) (pg_mem s')) s.
Proof.
  intros pte Hi Hd Hp Hri Hrj Hf Hpr Hcmp. pose proof (pi_mem _ _ Hi) as Hm.
  destruct (new_pte_fields junk f flags Hf) as [Hpv _]. fold pte in Hpv.
  eapply wp_mono; [apply (map_tail_spec L s d p i j (f * 4096) flags false); try done|].
  { intros Ho. apply Hcmp. unfold lookup_page. destruct (page_join i j Hrj) as [-> ->]. by rewrite Hpr, Ho. }
  intros r s' (-> & Hr & Hfr & He & Hw). fold pte in Hw. split; [done|].
  assert (Hdirs : forall e k, is_dir L e -> word (pg_mem s') e k = word (pg_mem s) e k).
  { intros e k He'. rewrite Hw by (intros [= E _]; by apply (temp_not_dir _ _ Hm _ He')).
    apply word_insert_ne. intros [= E _]. by apply (table_not_dir _ _ Hm d i e Hd ltac:(lia) Hpr He'). }
  split; [split; [done|by apply (pg_inv_ext L s)| |done|done]|].
  - intros Hu. apply (used_entry L (pg_mem s) _ (entry_addr (word (pg_mem s) d i)) j pte); try done.
    + by apply (table_not_temp _ _ Hm).
    + intros g e k Hg _. by apply (Hu g e k).
  - do 2 (split; [done|]). pose proof (changes_entry L _ _ d i j pte Hm Hd Hri Hrj Hpr Hw) as Hch. by rewrite Hpv in Hch.
Qed.

Lemma dir_ptr_set L L' s d p i v :
  mem_inv L (pg_mem s) -> kt L' = kt L -> is_dir L d -> dir_ptr L s d p -> dir_ptr L' (put_mem (<[(d, i) := v]> (pg_mem s)) s) d p.
Proof.
  intros Hm Hkt Hd [Hp|[-> Hs]]; [by left|right]. split; [done|]. unfold shows in *. simpl. rewrite Hkt.
  rewrite word_insert_ne; [done|]. intros [= E _]. by apply (temp_not_dir _ _ Hm d).
Qed.

Lemma map_new_table_spec L s fr d p i j f flags t user :
  let pte := pte_val (new_pte junk (f * 4096) flags) in
  let L' := add_table t d i L in
  pg_inv L s -> is_dir L d -> dir_ptr L s d p -> user_pde i -> 0 <= j < 1024 -> frame_ok f ->
  present (word (pg_mem s) d i) = false ->
  t ∉ fr_live (pg_frames s) -> frame_ok t -> fr_ok fr -> fr_live fr = {[t]} ∪ fr_live (pg_frames s) ->
  wp (set_entry p i (pde_val (new_pde junk (t * 4096) user));;;
      do page_table <- get_page_table c KERNEL_ADDR_SPACE junk p i;
      when true (memzero_page page_table);;;
      write_pte page_table (f * 4096) (i * 2 ^ 22 + j * 4096) flags)
    (fun r s' => r = true /\ pages_step L s L' s' /\ data_frames L' s' = data_frames L s /\ pg_errors s' = pg_errors s /\
      changes L d (one (i * 1024 + j) (Some pte)) (pg_mem s) (pg_mem s')) (put_frames fr s).
Proof.
  intros pte L' Hi Hd Hp Hu Hrj Hf Habs Ht Hft Hok Hlv. pose proof (pi_mem _ _ Hi) as Hm.
  assert (Hri : 0 <= i < 768) by done. destruct (new_pte_fields junk f flags Hf) as [Hpv _]. fold pte in Hpv.
  assert (Hfree : own L !! t = None).
  { destruct (own L !! t) as [o|] eqn:Eo; [|done]. exfalso. by apply Ht, (pi_live _ _ Hi _ _ Eo). }
  destruct (dir_ptr_sees _ _ _ _ Hi Hp) as [tt' Hs].
  set (v := pde_val _). pose proof (new_pde_fields junk t user Hft) as Hv. fold v in Hv.
  eapply wp_bind_ok; [apply (set_entry_run (put_frames fr s) p d tt' i v); [done|lia]|].
  set (s1 := put_mem _ _). set (m1 := <[(d, i) := v]> (pg_mem s)).
  assert (Hm1 : mem_inv L' m1) by by apply mem_inv_new_table.
  assert (Hdir : forall e, is_dir L' e <-> is_dir L e) by (intros e; by apply add_table_dir).
  assert (Hi1 : pg_inv L' s1).
  { destruct Hi as [[H1 H2 (y & e0 & H4)] H3 H5 H6]. split; [split; [done|done|exists y, e0; by rewrite Hdir]| |done|].
    - intros b x Hx. destruct (H3 b x Hx) as (e & -> & He). exists e. by rewrite Hdir.
    - intros g o Ho. simpl in *. rewrite Hlv. apply lookup_insert_Some in Ho as [[<- _]|[_ Ho]]; [set_solver|]. specialize (H6 _ _ Ho). set_solver. }
  assert (Ew : word (pg_mem s1) d i = v) by apply word_insert_eq.
  eapply wp_mono.
  { apply (map_tail_spec L' s1 d p i j (f * 4096) flags true); [done|by apply Hdir|by apply (dir_ptr_set L L' s)|lia|done|by rewrite Ew; apply Hv|].
    rewrite Ew, (proj2 Hv), word_zero_frame, bool_decide_true by done. done. }
  rewrite Ew, (proj2 Hv). intros r s' (-> & Hr & Hfr & He & Hw). fold pte in Hw.
  destruct (new_table_entry L (pg_mem s) d i t v Hm Hd Hu Habs Hfree Hft Hv (pg_mem s') j pte Hrj Hpv Hw) as (Hm' & Hus & Hch).
  split; [done|]. split; [split; [destruct Hr; by split| |done|done|done]|].
  - apply (pg_inv_mem L' s1); [done|done..].
  - split; [|done]. unfold data_frames. rewrite Hfr. simpl. rewrite Hlv, dom_insert_L. clear -Ht. set_solver.
Qed.

Lemma alloc_page_table_spec s : fr_ok (pg_frames s) ->
  wpx fr_fault alloc_page_table (fun p s' => exists fr, s' = put_frames fr s /\ fr_ok fr /\
    ((p = NO_FRAME /\ fr_live fr = fr_live (pg_frames s)) \/
     (exists t, p = t * 4096 /\ frame_ok t /\ (t ∉ fr_live (pg_frames s)) /\ fr_live fr = {[t]} ∪ fr_live (pg_frames s)))) s.
Proof.
  intros Hok. unfold alloc_page_table, zoom, wpx. pose proof (fr_alloc_ok _ Hok) as Ha. unfold wpx in Ha.
  destruct (fr_alloc (pg_frames s)) as [[p fr]|h] eqn:E; [|by exists (pg_frames s)].
  exists fr. split; [done|]. split; apply Ha.
Qed.

(** The page [vp] of the directory [d] is free or has the same entry. *)
Definition compatible (m : pmem) (d vp pte : Z) : Prop :=
  forall old, lookup_page m d vp = Some old -> compare_ptes (pte_of_val pte) (pte_of_val old) = true.

Definition table_error s (a : Z) : err_call :=
  mk_err "Cannot allocate new page table" ENONE
    (match pg_spaces s !! a with Some x => lock (as_lock x) =? 1 | None => false end).

Definition map_post (L : layout) s (a d vp pte : Z) (r : bool) s' : Prop :=
  exists L', pages_step L s L' s' /\ data_frames L' s' = data_frames L s /\
    changes L d (if r then one vp (Some pte) else fun _ => None) (pg_mem s) (pg_mem s') /\
    pg_errors s' = pg_errors s ++ (if r then [] else [table_error s a]) /\
    (r = false -> lookup_page (pg_mem s) d vp = None /\ vp < 768 * 1024).

Lemma map_post_temp L s s1 a d vp pte r s' :
  pg_inv L s -> temp_step L s s1 -> is_dir L d -> 0 <= vp < 1022 * 1024 ->
  map_post L s1 a d vp pte r s' -> map_post L s a d vp pte r s'.
Proof.
  intros Hi Hst Hd Hvp (L' & Hps & Hdf & Hch & He & Hn). pose proof (changes_temp L d _ _ Hi Hst) as Hch1.
  exists L'. split; [by eapply pages_step_trans; [apply pages_step_temp|]|]. split_and!.
  - rewrite Hdf. unfold data_frames. by rewrite (ts_frames _ _ _ Hst).
  - intros d' v Hd' Hv. rewrite Hch by done. by rewrite Hch1.
  - rewrite He, (ts_errors _ _ _ Hst). unfold table_error. by rewrite (sr_spaces _ _ (ts_rest _ _ _ Hst)).
  - intros E. destruct (Hn E) as [Hl ?]. split; [|done]. by rewrite <- (Hch1 d vp Hd Hvp).
Qed.

(** The table has to be allocated. *)
Lemma map_absent_spec L s a d p i j f flags :
  let pte := pte_val (new_pte junk (f * 4096) flags) in
  pg_inv L s -> is_dir L d -> dir_ptr L s d p -> user_pde i -> 0 <= j < 1024 -> frame_ok f ->
  present (word (pg_mem s) d i) = false ->
  wpx fr_fault
    (do page_table_allocated <-
       (do new_table <- alloc_page_table;
        if new_table =? NO_FRAME then SET_ERROR a "Cannot allocate new page table" ENONE;;; ret None
        else
          set_entry p i (pde_val (new_pde junk new_table (flag flags VM_USER)));;;
          ret (Some true));
     match page_table_allocated with
     | None => ret false
     | Some allocated =>
         do page_table <- get_page_table c KERNEL_ADDR_SPACE junk p i;
         when allocated (memzero_page page_table);;;
         write_pte page_table (f * 4096) (i * 2 ^ 22 + j * 4096) flags
     end) (map_post L s a d (i * 1024 + j) pte) s.
Proof.
  intros pte Hi Hd Hp Hu Hrj Hf Epr. assert (Hri : 0 <= i < 768) by done.
  assert (Hnone : lookup_page (pg_mem s) d (i * 1024 + j) = None /\ i * 1024 + j < 768 * 1024).
  { split; [|lia]. unfold lookup_page. destruct (page_join i j Hrj) as [-> ->]. by rewrite Epr. }
  eapply wpx_bind, wpx_bind, wpx_mono; [apply alloc_page_table_spec, Hi|].
  intros q s2 (fr & -> & Hok & [[-> Hlv]|(t & -> & Hft & Ht & Hlv)]).
  - eapply wpx_bind_ok; [done|]. apply wpx_ret, wpx_ret. exists L. cbv zeta. split_and!; try done.
    + split; try done. destruct Hi as [[H1 H2 H4] H3 H5 H6]. split; [by split|done|done|]. intros g o Ho. simpl. rewrite Hlv. by apply (H6 _ o).
    + unfold data_frames. simpl. by rewrite Hlv.
  - rewrite no_frame_ne by done. destruct (dir_ptr_sees _ _ _ _ Hi Hp) as [tt' Hs].
    pose proof (set_entry_run (put_frames fr s) p d tt' i (pde_val (new_pde junk (t * 4096) (flag flags VM_USER))) Hs ltac:(lia)) as Hrun.
    eapply wpx_bind_ok; [exact Hrun|]. apply wpx_ret, wpx_wp.
    pose proof (map_new_table_spec L s fr d p i j f flags t (flag flags VM_USER) Hi Hd Hp Hu Hrj Hf Epr Ht Hft Hok Hlv) as Hw.
    unfold wp in Hw. erewrite bind_ok in Hw by exact Hrun. eapply wp_mono; [exact Hw|].
    intros r s' (-> & Hps & Hdf & He & Hch). exists (add_table t d i L). rewrite app_nil_r. done.
Qed.

Lemma map_page_in_spec L s a d i j f flags :
  let pte := pte_val (new_pte junk (f * 4096) flags) in
  pg_inv L s -> dir_of s a = Some d -> 0 <= i < 1022 -> 0 <= j < 1024 -> frame_ok f ->
  a = KERNEL_ADDR_SPACE \/ i < 768 -> compatible (pg_mem s) d (i * 1024 + j) pte ->
  wpx fr_fault (map_page_in c KERNEL_ADDR_SPACE junk a (f * 4096) (i * 2 ^ 22 + j * 4096) flags)
    (map_post L s a d (i * 1024 + j) pte) s.
Proof.
  intros pte Hi Hda Hri Hrj Hf Hk Hcmp. destruct (dir_of_inv _ _ _ _ Hi Hda) as (Hd & _).
  destruct (vaddr_index i j ltac:(lia) Hrj) as (Ep & _ & Ea).
  change (map_page_in c KERNEL_ADDR_SPACE junk) with (map_page_in_with c KERNEL_ADDR_SPACE junk (map_page_in_fuel c KERNEL_ADDR_SPACE junk 1)).
  unfold map_page_in_with. rewrite Ep, Ea, frame_aligned by done.
  apply wpx_bind, wpx_assert; [done|]. apply wpx_bind, wpx_assert; [done|]. apply wpx_bind, wpx_assert.
  { destruct Hk as [->|Hk]; [by rewrite Z.eqb_refl|]. unfold is_user_addr, is_kernel_addr, KERNEL_PHY_OFFSET.
    rewrite (proj2 (Z.leb_gt 0xC0000000 _)) by lia. by rewrite orb_true_r. }
  apply wpx_bind, wpx_wp. eapply wp_mono; [by apply (get_page_dir_spec L s a d)|]. intros p s1 [Hst Hp].
  pose proof (pg_inv_temp _ _ _ Hi Hst) as Hi1. pose proof (changes_temp L d _ _ Hi Hst d (i * 1024 + j) Hd ltac:(lia)) as El.
  eapply wpx_mono with (P := map_post L s1 a d (i * 1024 + j) pte); [|intros r s'; apply map_post_temp; (done || lia)].
  eapply wpx_bind_ok; [done|]. rewrite (dir_ptr_higher _ _ _ _ Hp), andb_false_r. eapply wpx_bind_ok; [done|].
  destruct (dir_ptr_sees _ _ _ _ Hi1 Hp) as [tt' Hs]. eapply wpx_bind_ok; [apply (get_entry_run _ _ _ _ i Hs); lia|].
  destruct (present (word (pg_mem s1) d i)) eqn:Epr.
  - eapply wpx_bind_ok; [done|]. apply wpx_wp. eapply wp_mono; [apply (map_present_spec L s1 d p i j f flags); try done|].
    { intros old Ho. apply Hcmp. by rewrite <- El. }
    intros r s' (-> & Hps & Hfr & He & Hch). exists L. unfold data_frames. by rewrite Hfr, He, app_nil_r.
  - apply (map_absent_spec L s1 a d p i j f flags); try done. unfold user_pde.
    destruct (decide (i < 768)); [lia|]. destruct (mi_kernel _ _ (pi_mem _ _ Hi1) d i Hd) as [? _]; [unfold kernel_pde; lia|congruence].
Qed.

(** ** Unmapping a page *)

Lemma free_frame_spec s f : fr_ok (pg_frames s) -> f ∈ fr_live (pg_frames s) ->
  wp (free_frame (f * 4096)) (fun _ s' => exists fr, s' = put_frames fr s /\ fr_ok fr /\
    fr_live fr = fr_live (pg_frames s) ∖ {[f]}) s.
Proof.
  intros Hok Hf. unfold free_frame. apply wp_zoom. eapply wp_mono; [by apply fr_free_ok|]. intros [] fr [H1 H2]. by exists fr.
Qed.

Lemma page_table_is_empty_run s q t tt' : sees s q t tt' -> page_table_is_empty q s = Ok (table_empty (pg_mem s) t, s).
Proof.
  intros Hs. unfold page_table_is_empty. apply for_all_run. intros k Hk%elem_of_range.
  erewrite bind_ok by (eapply get_entry_run; [exact Hs|unfold PTES_PER_PAGE in Hk; lia]). done.
Qed.

(** *** A table goes *)

Definition del_table (t : Z) (L : layout) : layout := mk_layout (delete t (own L)) (kt L).

Section DelTable.
Context (L : layout) (m : pmem) (d i t v : Z).
Hypothesis Hm : mem_inv L m.
Hypothesis Ho : own L !! t = Some (OTab d i).
Hypothesis Hv : present v = false.

Lemma del_table_dir e : is_dir (del_table t L) e <-> is_dir L e.
Proof.
  clear -Ho. unfold is_dir. simpl. destruct (decide (e = t)) as [->|Hne]; [rewrite lookup_delete_eq, Ho; naive_solver|by rewrite lookup_delete_ne].
Qed.

Lemma mem_inv_del_table : mem_inv (del_table t L) (<[(d, i) := v]> m).
Proof.
  destruct (mi_tab _ _ Hm _ _ _ Ho) as (Hd & Hi & Hp & Ha). unfold user_pde in Hi.
  assert (Hkeep : forall f o, own L !! f = Some o -> o <> OTab d i -> own (del_table t L) !! f = Some o)
    by (intros f o Hf Hne; simpl; rewrite lookup_delete_ne; congruence).
  split.
  - intros f o. simpl. intros [Hne Hf]%lookup_delete_Some. by apply (mi_frame _ _ Hm _ _ Hf).
  - intros e He%del_table_dir. rewrite !word_insert_ne by (intros [= _ E]; lia). by apply (mi_rec _ _ Hm).
  - intros e k He%del_table_dir Hk. unfold kernel_pde in Hk. rewrite !word_insert_ne by (intros [= _ E]; lia). by apply (mi_kernel _ _ Hm).
  - intros k Hk. apply Hkeep; [by apply (mi_kt _ _ Hm)|done].
  - intros e k He%del_table_dir Hk. destruct (decide ((d, i) = (e, k))) as [[= <- <-]|Hne].
    + rewrite word_insert_eq. congruence.
    + rewrite word_insert_ne by done. intros Hp'. apply Hkeep; [by apply (mi_user _ _ Hm)|]. intros [= -> ->]. done.
  - intros f e k. simpl. intros [Hne Hf]%lookup_delete_Some. destruct (mi_tab _ _ Hm _ _ _ Hf) as (He & Hk & Hp' & Ha').
    rewrite word_insert_ne by (intros [= <- <-]; congruence). split_and!; [by apply del_table_dir|apply Hk..|done|done].
Qed.

Lemma lookup_del_table e vp : table_empty m t = true -> is_dir L e -> 0 <= vp < 1022 * 1024 ->
  lookup_page (<[(d, i) := v]> m) e vp = lookup_page m e vp.
Proof.
  intros He Hde Hvp. destruct (mi_tab _ _ Hm _ _ _ Ho) as (Hd & Hi & Hp & Ha). destruct (page_parts _ Hvp) as [Hri Hrj].
  destruct (decide ((d, i) = (e, vp / 1024))) as [[= <- Ei]|Hne].
  - unfold lookup_page. rewrite <- Ei, word_insert_eq, Hv, Hp, Ha. by rewrite (proj1 (table_empty_spec m t) He) by lia.
  - apply lookup_page_eq; [by apply word_insert_ne|]. intros Hp'. apply word_insert_ne. intros [= E _].
    by apply (table_not_dir _ _ Hm e (vp / 1024) d Hde ltac:(lia) Hp' Hd).
Qed.

End DelTable.

(** *** [unmap_page_in] *)

(** The end of [unmap_page_in] when the table is empty. *)
Definition release_table (a pde_idx : Z) : M (pgst F) unit :=
  do page_dir <- get_page_dir c KERNEL_ADDR_SPACE junk a;
  do e <- get_entry page_dir pde_idx;
  set_entry page_dir pde_idx (e - bits 0 1 e);;;
  do e <- get_entry page_dir pde_idx;
  free_frame (Z.shiftl (entry_addr e) 12).

Lemma release_table_spec L s a d i t :
  pg_inv L s -> dir_of s a = Some d -> own L !! t = Some (OTab d i) -> table_empty (pg_mem s) t = true ->
  wp (release_table a i)
    (fun _ s' => same_rest s s' /\ pg_errors s' = pg_errors s /\ pg_inv (del_table t L) s' /\
      fr_live (pg_frames s') = fr_live (pg_frames s) ∖ {[t]} /\
      changes L d (fun _ => None) (pg_mem s) (pg_mem s') /\
      (forall g k, ~ is_dir L g -> g <> temp_table L -> word (pg_mem s') g k = word (pg_mem s) g k)) s.
Proof.
  intros Hi Hda Ho Hemp. destruct (dir_of_inv _ _ _ _ Hi Hda) as (Hd & _).
  apply wp_bind. eapply wp_mono; [by apply (get_page_dir_spec L s a d)|]. intros p s1 [Hst Hp].
  pose proof (pg_inv_temp _ _ _ Hi Hst) as Hi1. pose proof (pi_mem _ _ Hi1) as Hm1.
  destruct (mi_tab _ _ Hm1 _ _ _ Ho) as (_ & Hu & Hpr & Ha). assert (Hri : 0 <= i < 768) by done.
  destruct (dir_ptr_sees _ _ _ _ Hi1 Hp) as [t1 Hs1]. eapply wp_bind_ok; [apply (get_entry_run _ _ _ _ i Hs1); lia|].
  set (e := word (pg_mem s1) d i) in *. eapply wp_bind_ok; [apply (set_entry_run _ _ _ _ i _ Hs1); lia|].
  set (s2 := put_mem _ _). set (L' := del_table t L).
  assert (Hdir : forall e, is_dir L' e <-> is_dir L e) by (intros k; by apply (del_table_dir L d i t)).
  assert (Hi2 : pg_inv L' s2).
  { destruct Hi1 as [[H1 H2 (y & k0 & H4)] H3 H5 H6]. split; [split; [done| |exists y, k0; by rewrite Hdir]| |done|].
    - apply (mem_inv_del_table L _ d i t); [done|done|apply present_clear].
    - intros b x Hx. destruct (H3 b x Hx) as (k & -> & Hk). exists k. by rewrite Hdir.
    - intros g o Hg. simpl in Hg. apply lookup_delete_Some in Hg as [_ Hg]. by apply (H6 _ o). }
  assert (Hp2 : dir_ptr L' s2 d p) by by apply (dir_ptr_set L L' s1).
  destruct (dir_ptr_sees _ _ _ _ Hi2 Hp2) as [t2 Hs2]. eapply wp_bind_ok; [apply (get_entry_run _ _ _ _ i Hs2); lia|].
  simpl. rewrite word_insert_eq, (proj2 (bits_even e)), Ha, Z.shiftl_mul_pow2 by lia. change (2 ^ 12) with 4096.
  eapply wp_mono; [apply free_frame_spec; [apply Hi2|apply (pi_live _ _ Hi1 _ _ Ho)]|].
  intros [] s' (fr & -> & Hok & Hlv). simpl in Hlv. rewrite (ts_frames _ _ _ Hst) in Hlv. destruct Hst as [Hr Hf He Hw].
  split_and!; simpl; try done.
  - destruct Hr; by split.
  - destruct Hi2 as [[H1 H2 H4] H3 H5 H6]. split; [by split|done|done|]. intros g o Hg. simpl. rewrite Hlv. specialize (H6 _ _ Hg). simpl in H6.
    simpl in Hg. apply lookup_delete_Some in Hg as [Hne _]. rewrite Hf in H6. set_solver.
  - intros d' vp Hd' Hvp. etrans; [apply (lookup_del_table L _ d i t); try done; [apply present_clear|]|].
    + apply table_empty_spec. intros k Hk. rewrite Hw by (intros [= -> _]; by rewrite (temp_owner _ _ Hm1) in Ho).
      by apply table_empty_spec.
    + apply (lookup_page_temp L); [apply Hi|done..].
  - intros g k Hg Hne. rewrite word_insert_ne by (intros [= -> _]; done). apply Hw. congruence.
Qed.

Lemma clear_pte_spec L s q d i j tt' (free_phy_frame : bool) :
  let t := entry_addr (word (pg_mem s) d i) in
  let f := entry_addr (word (pg_mem s) t j) in
  pg_inv L s -> is_dir L d -> 0 <= i < 1022 -> 0 <= j < 1024 -> present (word (pg_mem s) d i) = true ->
  sees s q t tt' -> tt' = pg_cr3 s / 4096 \/ tt' = temp_table L ->
  (free_phy_frame = true -> f ∈ data_frames L s) ->
  wp (when free_phy_frame (do e <- get_entry q j; free_frame (Z.shiftl (entry_addr e) 12));;; set_entry q j 0)
    (fun _ s' => same_rest s s' /\ pg_errors s' = pg_errors s /\ pg_inv L s' /\ sees s' q t tt' /\
      fr_live (pg_frames s') = fr_live (pg_frames s) ∖ (if free_phy_frame then {[f]} else ∅) /\
      pg_mem s' = <[(t, j) := 0]> (pg_mem s)) s.
Proof.
  intros t f Hi Hd Hri Hrj Hpr Hs Htt Hf. pose proof (pi_mem _ _ Hi) as Hm.
  assert (Hnd : forall e, is_dir L e -> t <> e) by (intros e He; apply (table_not_dir _ _ Hm); (done || lia)).
  assert (Hnt : t <> temp_table L) by by apply (table_not_temp _ _ Hm).
  assert (Ht' : t <> tt') by (destruct Htt as [->| ->]; [apply Hnd, curr_dir|]; done).
  apply wp_bind. apply wp_mono with (P := fun _ s1 => exists fr, s1 = put_frames fr s /\ fr_ok fr /\
    fr_live fr = fr_live (pg_frames s) ∖ (if free_phy_frame then {[f]} else ∅)).
  { destruct free_phy_frame; simpl.
    - eapply wp_bind_ok; [by apply (get_entry_run _ _ _ _ j Hs)|]. rewrite Z.shiftl_mul_pow2 by lia.
      apply free_frame_spec; [apply Hi|]. specialize (Hf eq_refl). unfold data_frames in Hf. set_solver.
    - apply wp_ret. exists (pg_frames s). destruct s. split; [done|]. split; [apply Hi|]. by rewrite difference_empty_L. }
  intros [] s1 (fr & -> & Hok & Hlv). unfold wp. rewrite (set_entry_run (put_frames fr s) q t tt') by done.
  split_and!; simpl; try done.
  - destruct Hi as [[H1 H2 H4] H3 H5 H6]. split; [split; simpl; try done|done|done|]; simpl.
    + apply (mem_inv_ext _ _ Hm). intros e k He. apply word_insert_ne. intros [= E _]. by apply (Hnd e).
    + intros g o Hg. rewrite Hlv. specialize (H6 _ _ Hg). destruct free_phy_frame; [|set_solver].
      specialize (Hf eq_refl). unfold data_frames in Hf. apply elem_of_difference in Hf as [_ Hf]. rewrite not_elem_of_dom in Hf.
      apply elem_of_difference. split; [done|]. intros ->%elem_of_singleton. congruence.
  - apply (sees_insert (put_frames fr s)); [done|apply Hnd, (curr_dir L _ Hi)|done].
Qed.

Definition unmap_post (L : layout) s (d vp : Z) (freed : gset Z) s' : Prop :=
  exists L', pages_step L s L' s' /\ data_frames L' s' = data_frames L s ∖ freed /\
    changes L d (one vp None) (pg_mem s) (pg_mem s') /\ pg_errors s' = pg_errors s.

Definition freed_by (free_phy_frame : bool) (pte : Z) : gset Z := if free_phy_frame then {[entry_addr pte]} else ∅.

(** What is left to do once the entry is cleared, in both cases. *)
Lemma release_if_empty_spec L s s2 s3 a d i j (freed : gset Z) :
  let t := entry_addr (word (pg_mem s2) d i) in
  pg_inv L s -> temp_step L s s2 -> dir_of s a = Some d -> 0 <= i < 1022 -> 0 <= j < 1024 -> present (word (pg_mem s2) d i) = true ->
  same_rest s2 s3 -> pg_errors s3 = pg_errors s2 -> pg_inv L s3 ->
  fr_live (pg_frames s3) = fr_live (pg_frames s2) ∖ freed -> pg_mem s3 = <[(t, j) := 0]> (pg_mem s2) ->
  (768 <= i -> table_empty (pg_mem s3) t = false) ->
  wp (when (table_empty (pg_mem s3) t) (release_table a i)) (fun _ => unmap_post L s d (i * 1024 + j) freed) s3.
Proof.
  intros t Hi Hst Hda Hri Hrj Hpr Hr He Hi3 Hlv Em Hk. destruct (dir_of_inv _ _ _ _ Hi Hda) as (Hd & _).
  pose proof (pg_inv_temp _ _ _ Hi Hst) as Hi2. pose proof (pi_mem _ _ Hi2) as Hm2.
  assert (Hr3 : same_rest s s3) by (eapply same_rest_trans; [apply Hst|done]).
  assert (Hch : changes L d (one (i * 1024 + j) None) (pg_mem s) (pg_mem s3)).
  { intros d' vp Hd' Hvp. rewrite (changes_entry L (pg_mem s2) (pg_mem s3) d i j 0) by (done || (intros; by rewrite Em)).
    by rewrite (changes_temp L d _ _ Hi Hst). }
  assert (Hot : own L !! t = Some (if decide (i < 768) then OTab d i else OKTab i)) by (apply (table_owner _ _ Hm2); (done || lia)).
  assert (Hused : tables_used L (pg_mem s) -> forall f e k, own L !! f = Some (OTab e k) -> f <> t ->
    exists j, 0 <= j < 1024 /\ present (word (pg_mem s3) f j) = true).
  { intros Hu f e k Hf Hne. destruct (Hu f e k Hf) as (k' & Hk' & Hp). exists k'. split; [done|].
    rewrite Em, word_insert_ne by congruence. rewrite (ts_word _ _ _ Hst); [done|]. intros [= -> _].
    by rewrite (temp_owner _ _ Hm2) in Hf. }
  rewrite (ts_frames _ _ _ Hst) in Hlv. rewrite (ts_errors _ _ _ Hst) in He.
  destruct (table_empty (pg_mem s3) t) eqn:Eemp.
  - destruct (decide (i < 768)) as [Hu|]; [|by specialize (Hk ltac:(lia))].
    eapply wp_mono; [apply (release_table_spec L s3 a d i t); [done|by rewrite (dir_of_rest s)|done|done]|].
    intros [] s' (Hr' & He' & Hi' & Hlv' & Hch' & Hw'). exists (del_table t L). split; [|split_and!].
    + split; [by eapply same_rest_trans|done| |intros e; by apply (del_table_dir L d i t)|done].
      intros Hus f e k Hf. simpl in Hf. apply lookup_delete_Some in Hf as [Hne Hf].
      destruct (Hused Hus f e k Hf (not_eq_sym Hne)) as (k' & ? & ?). exists k'. rewrite Hw'; [done|..].
      * unfold is_dir. by rewrite Hf.
      * intros ->. by rewrite (temp_owner _ _ Hm2) in Hf.
    + unfold data_frames. simpl. rewrite Hlv', Hlv, dom_delete_L. apply set_eq. intros g. rewrite !elem_of_difference, elem_of_singleton.
      destruct (decide (g = t)) as [->|]; [|tauto]. assert (t ∈ dom (own L)) by (by apply elem_of_dom). tauto.
    + intros d' vp Hd' Hvp. rewrite Hch' by done. by apply Hch.
    + congruence.
  - apply wp_ret. exists L. split; [|split_and!].
    + split; [done|done| |done|done]. intros Hus f e k Hf. destruct (decide (f = t)) as [->|Hne]; [|by eapply Hused].
      by apply table_used_spec.
    + unfold data_frames. rewrite Hlv. clear. set_solver.
    + done.
    + done.
Qed.

(** A page other than [vp] is mapped by the same table. *)
Definition shares_table (m : pmem) (d vp : Z) : Prop :=
  exists k, 0 <= k < 1024 /\ k <> vp mod 1024 /\ present (word m (entry_addr (word m d (vp / 1024))) k) = true.

Lemma unmap_page_in_spec L s a d i j pte free_phy_frame :
  pg_inv L s -> dir_of s a = Some d -> 0 <= i < 1022 -> 0 <= j < 1024 ->
  a = KERNEL_ADDR_SPACE \/ i < 768 -> lookup_page (pg_mem s) d (i * 1024 + j) = Some pte ->
  (free_phy_frame = true -> entry_addr pte ∈ data_frames L s) ->
  (768 <= i -> shares_table (pg_mem s) d (i * 1024 + j)) ->
  wp (unmap_page_in c KERNEL_ADDR_SPACE junk a (i * 2 ^ 22 + j * 4096) free_phy_frame)
    (fun _ => unmap_post L s d (i * 1024 + j) (freed_by free_phy_frame pte)) s.
Proof.
  intros Hi Hda Hri Hrj Hk Hl Hf Hsh. destruct (dir_of_inv _ _ _ _ Hi Hda) as (Hd & _). pose proof (pi_mem _ _ Hi) as Hm.
  destruct (lookup_page_some _ _ _ _ _ Hrj Hl) as (Hpr & Hw & Hpp). destruct (vaddr_index i j ltac:(lia) Hrj) as (Ep & Eq & Ea).
  unfold unmap_page_in. rewrite Ep, Eq, Ea. apply wp_bind, wp_assert; [done|]. apply wp_bind, wp_assert.
  { destruct Hk as [->|Hk]; [by rewrite Z.eqb_refl|]. unfold is_user_addr, is_kernel_addr, KERNEL_PHY_OFFSET.
    rewrite (proj2 (Z.leb_gt 0xC0000000 _)) by lia. by rewrite orb_true_r. }
  apply wp_bind. eapply wp_mono; [by apply (get_page_dir_spec L s a d)|]. intros p s1 [Hst1 Hp].
  pose proof (pg_inv_temp _ _ _ Hi Hst1) as Hi1. destruct (dir_ptr_sees _ _ _ _ Hi1 Hp) as [t1 Hs1].
  assert (Hw1 : word (pg_mem s1) d i = word (pg_mem s) d i).
  { apply (ts_word _ _ _ Hst1). intros [= E _]. by apply (temp_not_dir _ _ Hm d). }
  eapply wp_bind_ok; [apply (get_entry_run _ _ _ _ i Hs1); lia|]. rewrite Hw1, Hpr. eapply wp_bind_ok; [done|].
  apply wp_bind. eapply wp_mono; [apply (get_page_table_spec L s1 d p i); (done || lia || by rewrite Hw1)|].
  intros q s2 (Hst2 & t2 & Hs2 & Ht2). rewrite Hw1 in Hs2. pose proof (temp_step_trans _ _ _ _ Hst1 Hst2) as Hst.
  pose proof (pg_inv_temp _ _ _ Hi Hst) as Hi2. set (t := entry_addr (word (pg_mem s) d i)) in *.
  assert (Hnt : t <> temp_table L) by by apply (table_not_temp _ _ Hm).
  assert (Hw2 : word (pg_mem s2) d i = word (pg_mem s) d i).
  { apply (ts_word _ _ _ Hst). intros [= E _]. by apply (temp_not_dir _ _ Hm d). }
  assert (Hwt : forall k, word (pg_mem s2) t k = word (pg_mem s) t k) by (intros k; apply (ts_word _ _ _ Hst); congruence).
  eapply wp_bind_ok; [by apply (get_entry_run _ _ _ _ j Hs2)|]. rewrite Hwt, Hw, Hpp. eapply wp_bind_ok; [done|].
  apply wp_seq. rewrite <- (sr_cr3 _ _ (ts_rest _ _ _ Hst2)) in Ht2.
  pose proof (clear_pte_spec L s2 q d i j t2 free_phy_frame Hi2 Hd Hri Hrj) as Hcl. rewrite Hw2 in Hcl. fold t in Hcl.
  rewrite Hwt, Hw in Hcl. unfold data_frames in Hcl. rewrite (ts_frames _ _ _ Hst) in Hcl.
  eapply wp_mono; [by apply Hcl|]. intros [] s3 (Hr3 & He3 & Hi3 & Hs3 & Hlv3 & Hm3).
  eapply wp_bind_ok; [apply (page_table_is_empty_run s3 q t t2 Hs3)|].
  replace t with (entry_addr (word (pg_mem s2) d i)) by (by rewrite Hw2).
  apply (release_if_empty_spec L s s2 s3 a d i j); try done; rewrite ?Hw2, ?(ts_frames _ _ _ Hst); try done.
  intros Hki. apply not_true_iff_false. rewrite table_empty_spec. intros Hall. destruct (Hsh Hki) as (k & Hk1 & Hk2 & Hk3).
  destruct (page_join i j Hrj) as [E1 E2]. rewrite E1, E2 in *. fold t in Hk3, Hall. specialize (Hall k Hk1).
  rewrite Hm3, word_insert_ne, Hwt in Hall by congruence. congruence.
Qed.

End Pages.
