(* ===== verification/PagingRange.v ===== *)
(** * Ranges of pages

    The operations of [paging.c] on many pages: mapping a range, which is
    undone when a page cannot be mapped, unmapping it, and the entry points
    that take the lock of the address space. *)

From S2P Require Import Prelude Math Bits Spinlock ErrorCodes FrameAlloc Kmalloc CMem Paging PagingSpec.

(** ** Changes, composed *)

Definition nothing : Z -> option (option Z) := fun _ => None.

Section Changes.
Context (L : layout) (d : Z).

Lemma changes_refl m : changes L d nothing m m.
Proof. intros d' vp _ _. done. Qed.

Lemma changes_trans u1 u2 u m m1 m2 :
  changes L d u1 m m1 -> changes L d u2 m1 m2 ->
  (forall v, 0 <= v < 1022 * 1024 -> u v = match u2 v with Some r => Some r | None => u1 v end) -> changes L d u m m2.
Proof.
  intros H1 H2 Hu d' v Hd Hv. rewrite H2, H1, Hu by done. destruct (u2 v); [|done]. case_decide as E; [done|].
  by destruct (u1 v).
Qed.

Lemma changes_ext u u' m m' :
  changes L d u m m' -> (forall v, 0 <= v < 1022 * 1024 -> u' v = u v) -> changes L d u' m m'.
Proof. intros H Hu d' v Hd Hv. rewrite H, Hu by done. done. Qed.

(** A change that gives a page back what it had is none. *)
Lemma changes_undo u u' m m' :
  changes L d u m m' ->
  (forall v, 0 <= v < 1022 * 1024 -> u' v = u v \/ (u' v = None /\ v < 768 * 1024 /\ u v = Some (lookup_page m d v))) ->
  changes L d u' m m'.
Proof.
  intros H Hu d' v Hd Hv. rewrite H by done. destruct (Hu v Hv) as [->|(-> & Hlt & ->)]; [done|].
  case_decide as Hc; [|done]. destruct Hc as [->|]; [done|lia].
Qed.

Lemma changes_lookup u m m' v : is_dir L d -> changes L d u m m' -> 0 <= v < 1022 * 1024 ->
  lookup_page m' d v = match u v with Some r => r | None => lookup_page m d v end.
Proof. intros Hd H Hv. rewrite H by done. destruct (u v); [|done]. by rewrite decide_True by by left. Qed.

Lemma changes_dirs L' u m m' : (forall e, is_dir L' e <-> is_dir L e) -> changes L' d u m m' -> changes L d u m m'.
Proof. intros Hdir H d' v Hd Hv. apply H; [by apply Hdir|done]. Qed.

End Changes.

Lemma page_vaddr vp : 0 <= vp < 1022 * 1024 -> vp * 4096 = (vp / 1024) * 2 ^ 22 + (vp mod 1024) * 4096 /\ vp = (vp / 1024) * 1024 + vp mod 1024.
Proof. intros Hv. change (2 ^ 22) with (1024 * 4096). Z.to_euclidean_division_equations; lia. Qed.

Section Range.
Context {F : Type} `{HLaws : FrameLaws F} (c KERNEL_ADDR_SPACE junk : Z) (Hc : 0 <= c < 256).
Implicit Types s : pgst F.

(** Pages an operation on the address space [a] may name. *)
Definition page_ok (a vp : Z) : Prop := 0 <= vp < 1022 * 1024 /\ (a = KERNEL_ADDR_SPACE \/ vp < 768 * 1024).

Lemma map_vp_spec L s a d vp f flags :
  let pte := pte_val (new_pte junk (f * 4096) flags) in
  pg_inv L s -> dir_of s a = Some d -> page_ok a vp -> frame_ok f -> compatible (pg_mem s) d vp pte ->
  wpx fr_fault (map_page_in c KERNEL_ADDR_SPACE junk a (f * 4096) (vp * 4096) flags) (map_post L s a d vp pte) s.
Proof.
  intros pte Hi Hd [Hv Hk] Hf Hcmp. destruct (page_vaddr vp Hv) as [-> Ev]. destruct (page_parts vp Hv) as [Hri Hrj].
  revert Hcmp. rewrite Ev at 1. intros Hcmp.
  pose proof (map_page_in_spec c KERNEL_ADDR_SPACE junk Hc L s a d (vp / 1024) (vp mod 1024) f flags Hi Hd Hri Hrj Hf) as H0.
  rewrite <- Ev in *. apply H0; [|done]. destruct Hk; [by left|right; lia].
Qed.

Lemma unmap_vp_spec L s a d vp pte free_phy_frame :
  pg_inv L s -> dir_of s a = Some d -> page_ok a vp -> lookup_page (pg_mem s) d vp = Some pte ->
  (free_phy_frame = true -> entry_addr pte ∈ data_frames L s) ->
  (768 * 1024 <= vp -> shares_table (pg_mem s) d vp) ->
  wp (unmap_page_in c KERNEL_ADDR_SPACE junk a (vp * 4096) free_phy_frame)
    (fun _ => unmap_post L s d vp (freed_by free_phy_frame pte)) s.
Proof.
  intros Hi Hd [Hv Hk] Hl Hf Hsh. destruct (page_vaddr vp Hv) as [-> Ev]. destruct (page_parts vp Hv) as [Hri Hrj].
  pose proof (unmap_page_in_spec c KERNEL_ADDR_SPACE junk Hc L s a d (vp / 1024) (vp mod 1024) pte free_phy_frame Hi Hd Hri Hrj) as H0.
  rewrite <- Ev in H0. apply H0; [destruct Hk; [by left|right; lia]|done..|]. intros Hki. apply Hsh. lia.
Qed.

(** ** Mapping a range *)

Section Map.
Context (L0 : layout) (s0 : pgst F) (a d f0 b n flags : Z).

Definition range_pte (v : Z) : Z := pte_val (new_pte junk ((f0 + (v - b)) * 4096) flags).

(** The pages of the range from the [lo]-th up to the [hi]-th are mapped. *)
Definition mapped_part (lo hi : Z) : Z -> option (option Z) :=
  fun v => if decide (b + lo <= v < b + hi) then Some (Some (range_pte v)) else None.

Definition range_error : err_call :=
  mk_err "Failed to map one frame in request" ENONE
    (match pg_spaces s0 !! a with Some x => lock (as_lock x) =? 1 | None => false end).

Hypothesis Hi0 : pg_inv L0 s0.
Hypothesis Hd0 : dir_of s0 a = Some d.
Hypothesis Hb : 0 <= b.
Hypothesis Hend : b + n <= 1022 * 1024.
Hypothesis Hsp : a = KERNEL_ADDR_SPACE \/ b + n <= 768 * 1024.
Hypothesis Hf : 0 <= f0 /\ f0 + n <= 2 ^ 20.
Hypothesis Hfree : forall v, b <= v < b + n -> lookup_page (pg_mem s0) d v = None.

(** The range is mapped from [lo] to [hi] and the rest is as it was. *)
Record partly (es : list err_call) (lo hi : Z) s : Prop := {
  pa_step : exists L, pages_step L0 s0 L s /\ data_frames L s = data_frames L0 s0;
  pa_changes : changes L0 d (mapped_part lo hi) (pg_mem s0) (pg_mem s);
  pa_errors : pg_errors s = pg_errors s0 ++ es }.

Lemma range_dir : is_dir L0 d.
Proof. by destruct (dir_of_inv _ _ _ _ Hi0 Hd0). Qed.

Lemma unmap_first es lo hi s :
  partly es lo hi s -> 0 <= lo < hi -> hi <= n -> b + hi <= 768 * 1024 ->
  wp (unmap_page_in c KERNEL_ADDR_SPACE junk a ((b + lo) * 4096) false) (fun _ => partly es (lo + 1) hi) s.
Proof.
  intros [(L & Hps & Hdf) Hch He] Hlo Hhi Hu. pose proof range_dir as Hd.
  assert (Hl : lookup_page (pg_mem s) d (b + lo) = Some (range_pte (b + lo))).
  { rewrite (changes_lookup _ _ _ _ _ _ Hd Hch) by lia. unfold mapped_part. by rewrite decide_True by lia. }
  eapply wp_mono.
  { apply (unmap_vp_spec L s a d (b + lo) (range_pte (b + lo)) false); [apply Hps|by rewrite (dir_of_rest s0 s) by apply Hps| |done|done|lia].
    split; [lia|]. destruct Hsp; [by left|right; lia]. }
  intros [] s' (L' & Hps' & Hdf' & Hch' & He'). split; [| |congruence].
  - exists L'. split; [by eapply pages_step_trans|]. simpl in Hdf'. by rewrite Hdf', Hdf, difference_empty_L.
  - apply (changes_dirs L0) in Hch'; [|apply Hps].
    pose proof (changes_trans _ _ _ _ _ _ _ _ Hch Hch' (fun v _ => eq_refl)) as Ht. apply (changes_undo _ _ _ _ _ _ Ht).
    intros v Hv. unfold one, mapped_part. destruct (decide (v = b + lo)) as [->|Hne].
    + right. rewrite decide_False by lia. split; [done|]. split; [lia|]. by rewrite Hfree by lia.
    + left. destruct (decide (b + lo <= v < b + hi)); [by rewrite decide_True by lia|by rewrite decide_False by lia].
Qed.

Lemma range_vaddr k : 0 <= k < n -> u32 (b * 4096 + k * PAGE_SIZE) = (b + k) * 4096 /\ u32 (f0 * 4096 + k * PAGE_SIZE) = (f0 + k) * 4096.
Proof. intros Hk. unfold PAGE_SIZE. split; rewrite u32_id; lia. Qed.

(** The pages mapped so far are unmapped again. *)
Lemma rollback es k s :
  partly es 0 k s -> 0 <= k <= n -> b + k <= 768 * 1024 ->
  wp (for_each (range 0 k) (fun j => unmap_page_in c KERNEL_ADDR_SPACE junk a (u32 (b * 4096 + j * PAGE_SIZE)) false))
    (fun _ => partly es k k) s.
Proof.
  intros Hp Hk Hu. apply (wp_for_range (fun j => partly es j k)); [lia|done|]. intros j s1 Hj Hp1.
  destruct (range_vaddr j ltac:(lia)) as [-> _]. apply unmap_first; (done || lia).
Qed.

Lemma partly_none es k s : partly es k k s -> exists L, pages_step L0 s0 L s /\ data_frames L s = data_frames L0 s0 /\
  changes L0 d nothing (pg_mem s0) (pg_mem s) /\ pg_errors s = pg_errors s0 ++ es.
Proof.
  intros [(L & Hps & Hdf) Hch He]. exists L. split_and!; [done|done| |done].
  apply (changes_ext _ _ _ _ _ _ Hch). intros v _. unfold mapped_part. by rewrite decide_False by lia.
Qed.

Definition range_post (r : bool) s' : Prop :=
  exists L, pages_step L0 s0 L s' /\ data_frames L s' = data_frames L0 s0 /\
    changes L0 d (if r then mapped_part 0 n else nothing) (pg_mem s0) (pg_mem s') /\
    pg_errors s' = pg_errors s0 ++ (if r then [] else [table_error s0 a; range_error]) /\
    (r = false -> b < 768 * 1024).

Lemma map_failed k s :
  partly [table_error s0 a] 0 k s -> 0 <= k <= n -> b + k < 768 * 1024 ->
  wp (SET_ERROR a "Failed to map one frame in request" ENONE;;;
      for_each (range 0 k) (fun j => unmap_page_in c KERNEL_ADDR_SPACE junk a (u32 (b * 4096 + j * PAGE_SIZE)) false);;;
      ret false) range_post s.
Proof.
  intros [(L & Hps & Hdf) Hch He] Hk Hu. eapply wp_bind_ok; [done|]. cbv zeta. apply wp_bind.
  eapply wp_mono; [apply (rollback [table_error s0 a; range_error] k); [|lia|lia]|].
  - split; [|done|].
    + exists L. split; [|done]. destruct Hps as [H1 H2 H3 H4 H5]. split; [by destruct H1| |done|done|done].
      destruct H2 as [[G1 G2 G3] G4 G5 G6]. split; [by split|done|done|done].
    + simpl. rewrite He, <- app_assoc. unfold range_error. by rewrite (sr_spaces _ _ (ps_rest _ _ _ _ Hps)).
  - intros [] s1 Hp. apply wp_ret. apply partly_none in Hp as (L1 & H1 & H2 & H3 & H4). exists L1. split_and!; try done. lia.
Qed.

(** One page more. *)
Lemma map_next k s :
  partly [] 0 k s -> 0 <= k < n ->
  wpx fr_fault (map_page_in c KERNEL_ADDR_SPACE junk a ((f0 + k) * 4096) ((b + k) * 4096) flags)
    (fun r s' => if r then partly [] 0 (k + 1) s' else partly [table_error s0 a] 0 k s' /\ b + k < 768 * 1024) s.
Proof.
  intros [(L & Hps & Hdf) Hch He] Hk. pose proof range_dir as Hd.
  assert (Hl : lookup_page (pg_mem s) d (b + k) = None).
  { rewrite (changes_lookup _ _ _ _ _ _ Hd Hch) by lia. unfold mapped_part. by rewrite decide_False, Hfree by lia. }
  eapply wpx_mono.
  { apply (map_vp_spec L s a d (b + k) (f0 + k) flags); [apply Hps|by rewrite (dir_of_rest s0 s) by apply Hps| |unfold frame_ok; lia|].
    - split; [lia|]. destruct Hsp; [by left|right; lia].
    - intros old Ho. congruence. }
  intros r s1 (L1 & Hps1 & Hdf1 & Hch1 & He1 & Hn1). apply (changes_dirs L0) in Hch1; [|apply Hps].
  assert (Hps2 : exists L, pages_step L0 s0 L s1 /\ data_frames L s1 = data_frames L0 s0).
  { exists L1. split; [by eapply pages_step_trans|congruence]. }
  pose proof (changes_trans _ _ _ _ _ _ _ _ Hch Hch1 (fun v _ => eq_refl)) as Ht. rewrite He, app_nil_r in He1. destruct r.
  - split; [done| |done]. apply (changes_ext _ _ _ _ _ _ Ht). intros v Hv. unfold one, mapped_part. destruct (decide (v = b + k)) as [->|].
    + rewrite decide_True by lia. unfold range_pte. do 6 f_equal. lia.
    + destruct (decide (b + 0 <= v < b + (k + 1))); [by rewrite decide_True by lia|by rewrite decide_False by lia].
  - split; [|by apply Hn1]. split; [done|by apply (changes_ext _ _ _ _ _ _ Ht)|].
    rewrite He1. unfold table_error. by rewrite (sr_spaces _ _ (ps_rest _ _ _ _ Hps)).
Qed.

Lemma map_pages_from k s :
  partly [] 0 k s -> 0 <= k <= n ->
  wpx fr_fault (map_pages c KERNEL_ADDR_SPACE junk a (f0 * 4096) (b * 4096) flags (range k n)) range_post s.
Proof.
  intros Hp Hk. remember (Z.to_nat (n - k)) as fuel eqn:Ef. revert k s Hp Hk Ef. induction fuel as [|fuel IH]; intros k s Hp Hk Ef.
  - assert (k = n) as -> by lia. rewrite range_nil by lia. apply wpx_ret. destruct Hp as [(L & Hps & Hdf) Hch He]. by exists L.
  - rewrite range_cons by lia. simpl. destruct (range_vaddr k ltac:(lia)) as [-> ->].
    apply wpx_bind. eapply wpx_mono; [apply map_next; [done|lia]|]. intros [] s1; simpl.
    + intros Hp1. apply IH; (done || lia).
    + intros [Hp1 Hu]. apply wpx_wp, map_failed; (done || lia).
Qed.

Lemma map_pages_spec :
  wpx fr_fault (map_pages c KERNEL_ADDR_SPACE junk a (f0 * 4096) (b * 4096) flags (range 0 n)) range_post s0.
Proof.
  destruct (decide (0 <= n)).
  - apply map_pages_from; [|lia]. split; [|apply (changes_ext _ _ _ _ _ _ (changes_refl _ _ _))|by rewrite app_nil_r].
    + exists L0. split; [by apply pages_step_refl|done].
    + intros v _. unfold mapped_part. by rewrite decide_False by lia.
  - rewrite range_nil by lia. apply wpx_ret. exists L0. split_and!; [by apply pages_step_refl|done| |by rewrite app_nil_r|done].
    apply (changes_ext _ _ _ _ _ _ (changes_refl _ _ _)). intros v _. unfold mapped_part. by rewrite decide_False by lia.
Qed.

End Map.

(** ** Unmapping a range *)

Section Unmap.
Context (L0 : layout) (s0 : pgst F) (a d b n : Z) (pt : Z -> Z) (free_phy_frame : bool).

Definition cleared (k : Z) : Z -> option (option Z) := fun v => if decide (b <= v < b + k) then Some None else None.

(** The frames of the first [k] pages, if they are freed. *)
Definition freed_frames (k : Z) : gset Z :=
  if free_phy_frame then list_to_set (map (fun v => entry_addr (pt v)) (range b (b + k))) else ∅.

Hypothesis Hi0 : pg_inv L0 s0.
Hypothesis Hd0 : dir_of s0 a = Some d.
Hypothesis Hb : 0 <= b.
Hypothesis Hend : b + n <= 1022 * 1024.
Hypothesis Hsp : a = KERNEL_ADDR_SPACE \/ b + n <= 768 * 1024.
Hypothesis Hmap : forall v, b <= v < b + n -> lookup_page (pg_mem s0) d v = Some (pt v).
Hypothesis Hfr : free_phy_frame = true ->
  freed_frames n ⊆ data_frames L0 s0 /\ NoDup (map (fun v => entry_addr (pt v)) (range b (b + n))).
Hypothesis Hkeep : forall v, b <= v < b + n -> 768 * 1024 <= v ->
  exists v', v' / 1024 = v / 1024 /\ ~ (b <= v' < b + n) /\ is_Some (lookup_page (pg_mem s0) d v').

Record cleared_to (k : Z) s : Prop := {
  ct_step : exists L, pages_step L0 s0 L s /\ data_frames L s = data_frames L0 s0 ∖ freed_frames k;
  ct_changes : changes L0 d (cleared k) (pg_mem s0) (pg_mem s);
  ct_errors : pg_errors s = pg_errors s0 }.

Lemma range_snoc k : 0 <= k -> range b (b + (k + 1)) = range b (b + k) ++ [b + k].
Proof.
  intros Hk. rewrite (range_app b (b + k) (b + (k + 1))) by lia. f_equal. rewrite range_cons, range_nil by lia. done.
Qed.

Lemma freed_next k : 0 <= k -> freed_frames (k + 1) = freed_frames k ∪ freed_by free_phy_frame (pt (b + k)).
Proof.
  intros Hk. unfold freed_frames, freed_by. destruct free_phy_frame; [|set_solver].
  rewrite range_snoc, map_app, list_to_set_app_L by done. simpl. set_solver.
Qed.

Lemma frame_not_freed k : free_phy_frame = true -> 0 <= k < n ->
  entry_addr (pt (b + k)) ∈ data_frames L0 s0 ∖ freed_frames k.
Proof.
  intros Ht Hk. destruct (Hfr Ht) as [Hsub Hnd]. unfold freed_frames in *. rewrite Ht in *.
  rewrite (range_app b (b + k) (b + n)), (range_cons (b + k)), map_app in Hnd, Hsub by lia.
  apply elem_of_difference. split.
  - apply Hsub. rewrite list_to_set_app_L. simpl. set_solver.
  - rewrite elem_of_list_to_set. intros Hin. apply NoDup_app in Hnd as (_ & Hdj & _). apply (Hdj _ Hin). simpl. set_solver.
Qed.

Lemma page_shares k s : cleared_to k s -> 0 <= k < n -> 768 * 1024 <= b + k -> shares_table (pg_mem s) d (b + k).
Proof.
  intros Hct Hk Hv. destruct (Hkeep (b + k) ltac:(lia) Hv) as (v' & Ev & Hout & [pte Hl]).
  destruct (dir_of_inv _ _ _ _ Hi0 Hd0) as (Hd & _).
  assert (Hr : 0 <= v' < 1022 * 1024) by (Z.to_euclidean_division_equations; lia).
  pose proof (changes_lookup _ _ _ _ _ _ Hd (ct_changes _ _ Hct) Hr) as E. unfold cleared in E. rewrite decide_False, Hl in E by lia.
  destruct (page_vaddr v' Hr) as [_ Ej]. rewrite Ej in E. apply lookup_page_some in E as (_ & Hw & Hp); [|by apply page_parts].
  exists (v' mod 1024). rewrite Ev in Hw. rewrite Hw. split; [by apply page_parts|]. split; [|done].
  intros Em. apply Hout. pose proof (Z.div_mod v' 1024). pose proof (Z.div_mod (b + k) 1024). lia.
Qed.

Lemma unmap_next k s : cleared_to k s -> 0 <= k < n ->
  wp (unmap_page_in c KERNEL_ADDR_SPACE junk a ((b + k) * 4096) free_phy_frame) (fun _ => cleared_to (k + 1)) s.
Proof.
  intros Hct Hk. destruct (dir_of_inv _ _ _ _ Hi0 Hd0) as (Hd & _). pose proof (page_shares k s Hct Hk) as Hsh.
  destruct Hct as [(L & Hps & Hdf) Hch He].
  assert (Hl : lookup_page (pg_mem s) d (b + k) = Some (pt (b + k))).
  { rewrite (changes_lookup _ _ _ _ _ _ Hd Hch) by lia. unfold cleared. by rewrite decide_False, Hmap by lia. }
  eapply wp_mono.
  { apply (unmap_vp_spec L s a d (b + k) (pt (b + k)) free_phy_frame); [apply Hps|by rewrite (dir_of_rest s0 s) by apply Hps| |done| |done].
    - split; [lia|]. destruct Hsp; [by left|right; lia].
    - rewrite Hdf. intros Ht. by apply frame_not_freed. }
  intros [] s1 (L1 & Hps1 & Hdf1 & Hch1 & He1). apply (changes_dirs L0) in Hch1; [|apply Hps]. split; [| |congruence].
  - exists L1. split; [by eapply pages_step_trans|]. rewrite Hdf1, Hdf, freed_next by lia. by rewrite difference_difference_l_L.
  - apply (changes_trans _ _ _ _ _ _ _ _ Hch Hch1). intros v Hv. unfold one, cleared.
    destruct (decide (v = b + k)) as [->|]; [by rewrite decide_True by lia|].
    destruct (decide (b <= v < b + k)); [by rewrite decide_True by lia|by rewrite decide_False by lia].
Qed.

Definition unmap_range_post s' : Prop :=
  exists L, pages_step L0 s0 L s' /\ data_frames L s' = data_frames L0 s0 ∖ freed_frames n /\
    changes L0 d (cleared n) (pg_mem s0) (pg_mem s') /\ pg_errors s' = pg_errors s0.

Lemma unmap_pages_spec : 0 <= n ->
  wp (for_each (range 0 n) (fun i => unmap_page_in c KERNEL_ADDR_SPACE junk a (u32 (b * 4096 + i * PAGE_SIZE)) free_phy_frame))
    (fun _ => unmap_range_post) s0.
Proof.
  intros Hn. eapply wp_mono; [apply (wp_for_range cleared_to)|]; [done| | |].
  - split; [|apply (changes_ext _ _ _ _ _ _ (changes_refl _ _ _))|done].
    + exists L0. split; [by apply pages_step_refl|]. unfold freed_frames. rewrite Z.add_0_r, range_nil by lia.
      destruct free_phy_frame; simpl; by rewrite difference_empty_L.
    + intros v _. unfold cleared. by rewrite decide_False by lia.
  - intros k s Hk Hct. replace (u32 (b * 4096 + k * PAGE_SIZE)) with ((b + k) * 4096) by (unfold PAGE_SIZE; rewrite u32_id; lia).
    by apply unmap_next.
  - intros [] s' [(L & Hps & Hdf) Hch He]. by exists L.
Qed.

End Unmap.

(** ** The lock of the address space *)

(** [s] with the lock of [a] taken, and given back. *)
Definition held (a : Z) (x : addr_space) s : pgst F :=
  put_spaces (<[a := mk_as (mk_spinlock 1 (pg_if s) c) (page_dir_phy_addr x)]> (pg_spaces s)) false s.
Definition released (a : Z) (x : addr_space) (i : bool) s : pgst F :=
  put_spaces (<[a := mk_as (mk_spinlock 0 i NO_OWNER) (page_dir_phy_addr x)]> (pg_spaces s)) i s.

Lemma space_lock_run s a x : pg_spaces s !! a = Some x -> unlocked (as_lock x) -> lock_addr_space c a s = Ok (tt, held a x s).
Proof. intros Hx Hu. unfold lock_addr_space, on_space_lock. rewrite Hx, spinlock_lock_run by done. done. Qed.

Lemma space_unlock_run s s' a x : pg_spaces s' = pg_spaces (held a x s) ->
  unlock_addr_space c a s' = Ok (tt, released a x (pg_if s) s').
Proof.
  intros Es. unfold unlock_addr_space, on_space_lock. rewrite Es. unfold held at 1, put_spaces at 1, pg_spaces at 1.
  rewrite lookup_insert_eq. cbn [as_lock]. rewrite spinlock_unlock_run. unfold released. by rewrite Es.
Qed.

Lemma pg_inv_spaces L s a x l i : pg_inv L s -> pg_spaces s !! a = Some x ->
  pg_inv L (put_spaces (<[a := mk_as l (page_dir_phy_addr x)]> (pg_spaces s)) i s).
Proof.
  intros [[H1 H2 H4] H3 H5 H6] Hx. split; [split; simpl; try done| |done|done].
  - destruct H4 as (y & e & Hy & Ey & Hcr & He). destruct (decide (a = pg_curr s)) as [->|Hne].
    + rewrite lookup_insert_eq. eexists _, e. split; [done|]. simpl. simplify_eq. done.
    + rewrite lookup_insert_ne by done. by exists y, e.
  - simpl. intros b y [[<- <-]|[Hne Hy]]%lookup_insert_Some; [by apply (H3 a x)|by apply (H3 b y)].
Qed.

Lemma dir_of_spaces s a x l i b : pg_spaces s !! a = Some x ->
  dir_of (put_spaces (<[a := mk_as l (page_dir_phy_addr x)]> (pg_spaces s)) i s) b = dir_of s b.
Proof.
  intros Hx. unfold dir_of. simpl. destruct (decide (a = b)) as [->|]; [by rewrite lookup_insert_eq, Hx|by rewrite lookup_insert_ne].
Qed.

(** What an operation that takes the lock of [a] leaves. *)
Record locked_step (a : Z) (x : addr_space) (L : layout) s (L' : layout) s' : Prop := {
  lo_cr3 : pg_cr3 s' = pg_cr3 s;
  lo_curr : pg_curr s' = pg_curr s;
  lo_if : pg_if s' = pg_if s;
  lo_online : pg_online s' = pg_online s;
  lo_spaces : pg_spaces s' = <[a := mk_as (mk_spinlock 0 (pg_if s) NO_OWNER) (page_dir_phy_addr x)]> (pg_spaces s);
  lo_inv : pg_inv L' s';
  lo_used : tables_used L (pg_mem s) -> tables_used L' (pg_mem s');
  lo_dirs : forall d, is_dir L' d <-> is_dir L d;
  lo_kt : kt L' = kt L }.

Lemma released_step a x L s L' s' : pg_spaces s !! a = Some x ->
  pages_step L (held a x s) L' s' -> locked_step a x L s L' (released a x (pg_if s) s').
Proof.
  intros Hx [[E1 E2 E3 E4 E5 E6 E7] Hi Hu Hd Hk]. split; try done.
  - simpl. rewrite E3. simpl. by rewrite insert_insert_eq.
  - unfold released. pose proof (pg_inv_spaces L' s' a (mk_as (mk_spinlock 1 (pg_if s) c) (page_dir_phy_addr x)) (mk_spinlock 0 (pg_if s) NO_OWNER) (pg_if s) Hi) as Hp.
    apply Hp. rewrite E3. simpl. by rewrite lookup_insert_eq.
Qed.

(** ** The entry points *)

(** The pages that [len] bytes at [vaddr] touch. *)
Definition page_count (vaddr len : Z) : Z := (len + vaddr mod 4096 + 4095) / 4096.

(** [a] may hold [len] bytes at [vaddr]. *)
Definition area_ok (a vaddr len : Z) : Prop :=
  0 <= vaddr /\ 0 <= len /\ vaddr + len <= 1022 * 2 ^ 22 /\ (a = KERNEL_ADDR_SPACE \/ vaddr + len <= KERNEL_PHY_OFFSET).

Lemma area_pages a vaddr len : area_ok a vaddr len ->
  get_page_addr vaddr = vaddr / 4096 * 4096 /\
  ceil_x_over_y_u32 (u32 (len + u32 (vaddr - vaddr / 4096 * 4096))) PAGE_SIZE = page_count vaddr len /\
  0 <= page_count vaddr len /\ 0 <= vaddr / 4096 /\ vaddr / 4096 + page_count vaddr len <= 1022 * 1024 /\
  (a = KERNEL_ADDR_SPACE \/ vaddr / 4096 + page_count vaddr len <= 768 * 1024).
Proof.
  intros (H0 & H1 & H2 & H3). unfold KERNEL_PHY_OFFSET in *. change (2 ^ 22) with 4194304 in *. unfold page_count.
  pose proof (Z.div_mod vaddr 4096). pose proof (Z.mod_pos_bound vaddr 4096).
  split; [apply get_page_addr_div; lia|].
  replace (vaddr - vaddr / 4096 * 4096) with (vaddr mod 4096) by lia. rewrite (u32_id (vaddr mod 4096)) by lia. rewrite u32_id by lia.
  split; [rewrite ceil_no_wrap by (unfold PAGE_SIZE; lia); unfold PAGE_SIZE, b2z; destruct (_ =? _) eqn:E; simpl; Z.to_euclidean_division_equations; lia|].
  clear -H0 H1 H2 H3. split_and!; [Z.to_euclidean_division_equations; lia..|].
  destruct H3 as [?|?]; [by left|right]. Z.to_euclidean_division_equations; lia.
Qed.

Lemma do_paging_map_in_spec L s a d paddr vaddr len flags :
  pg_inv L s -> dir_of s a = Some d -> area_ok a vaddr len ->
  0 <= paddr < 2 ^ 32 -> paddr + len <= 2 ^ 32 -> paddr mod 4096 = vaddr mod 4096 ->
  (forall v, vaddr / 4096 <= v < vaddr / 4096 + page_count vaddr len -> lookup_page (pg_mem s) d v = None) ->
  wpx fr_fault (do_paging_map_in c KERNEL_ADDR_SPACE junk a paddr vaddr len flags)
    (range_post L s a d (paddr / 4096) (vaddr / 4096) (page_count vaddr len) flags) s.
Proof.
  intros Hi Hd Ha Hp0 Hpl Hoff Hfree. destruct (area_pages _ _ _ Ha) as (Ev & Ec & Hn & Hb & Hend & Hsp).
  destruct Ha as (H0 & H1 & H2 & _). change (2 ^ 22) with 4194304 in *.
  pose proof (Z.div_mod paddr 4096). pose proof (Z.div_mod vaddr 4096). pose proof (Z.mod_pos_bound vaddr 4096).
  unfold do_paging_map_in. apply wpx_bind, wpx_assert.
  { unfold page_offset. change 0xFFF with (Z.ones 12). rewrite !Z.land_ones by lia. change (2 ^ 12) with 4096. rewrite Hoff. apply Z.eqb_refl. }
  rewrite Ev, (get_page_addr_div paddr) by lia. replace (paddr - paddr / 4096 * 4096) with (vaddr - vaddr / 4096 * 4096) by lia. rewrite Ec.
  apply map_pages_spec; try done. split; [Z.to_euclidean_division_equations; lia|]. unfold page_count. rewrite <- Hoff. Z.to_euclidean_division_equations; lia.
Qed.

Lemma do_paging_unmap_in_spec L s a d vaddr len pt free_phy_frame :
  let b := vaddr / 4096 in
  let n := page_count vaddr len in
  pg_inv L s -> dir_of s a = Some d -> area_ok a vaddr len ->
  (forall v, b <= v < b + n -> lookup_page (pg_mem s) d v = Some (pt v)) ->
  (free_phy_frame = true -> freed_frames b pt free_phy_frame n ⊆ data_frames L s /\
    NoDup (map (fun v => entry_addr (pt v)) (range b (b + n)))) ->
  (forall v, b <= v < b + n -> 768 * 1024 <= v ->
    exists v', v' / 1024 = v / 1024 /\ ~ (b <= v' < b + n) /\ is_Some (lookup_page (pg_mem s) d v')) ->
  wp (do_paging_unmap_in c KERNEL_ADDR_SPACE junk a vaddr len free_phy_frame)
    (fun _ => unmap_range_post L s d b n pt free_phy_frame) s.
Proof.
  intros b n Hi Hd Ha Hmap Hfr Hkeep. destruct (area_pages _ _ _ Ha) as (Ev & Ec & Hn & Hb & Hend & Hsp).
  unfold do_paging_unmap_in. rewrite Ev, Ec. by apply unmap_pages_spec.
Qed.

(** The invalidations at the end of an operation. *)
Definition tlb_flushed s : pgst F :=
  let s1 := put_tlb (pg_flushes s + 1) (pg_shootdowns s) s in
  if pg_online s then put_tlb (pg_flushes s1) (pg_shootdowns s1 + 1) s1 else s1.

Lemma flush_run s : (cpu_invalidate_tlb;;; maybe_to_tlb_shootdown) s = Ok (tt, tlb_flushed s).
Proof. done. Qed.

Lemma locked_step_tlb a x L s L' s' m n : locked_step a x L s L' s' -> locked_step a x L s L' (put_tlb m n s').
Proof. intros [H1 H2 H3 H4 H5 [[G1 G2 G3] G4 G5 G6] H7 H8 H9]. by split. Qed.

Lemma locked_step_flushed a x L s L' s' : locked_step a x L s L' s' -> locked_step a x L s L' (tlb_flushed s').
Proof.
  intros Hs. unfold tlb_flushed. destruct (pg_online s'); by repeat apply locked_step_tlb.
Qed.

Lemma mem_flushed s : pg_mem (tlb_flushed s) = pg_mem s /\ pg_frames (tlb_flushed s) = pg_frames s /\ pg_errors (tlb_flushed s) = pg_errors s.
Proof. unfold tlb_flushed. by destruct (pg_online s). Qed.

Lemma shootdowns_flushed s : pg_shootdowns (tlb_flushed s) = pg_shootdowns s + b2z (pg_online s).
Proof. unfold tlb_flushed. destruct (pg_online s); simpl; lia. Qed.

(** The address space [a] with the directory [d], its lock free. *)
Definition space_at s (a d : Z) (x : addr_space) : Prop :=
  pg_spaces s !! a = Some x /\ unlocked (as_lock x) /\ page_dir_phy_addr x = d * 4096.

Lemma space_at_dir s a d x : space_at s a d x -> dir_of s a = Some d.
Proof. intros (Hx & _ & E). unfold dir_of. rewrite Hx. simpl. by rewrite E, Z.div_mul by lia. Qed.

Lemma held_inv L s a d x : pg_inv L s -> space_at s a d x -> pg_inv L (held a x s) /\ dir_of (held a x s) a = Some d.
Proof.
  intros Hi Hs. split; [by apply pg_inv_spaces, Hs|]. unfold held. rewrite dir_of_spaces by apply Hs. by eapply space_at_dir.
Qed.

(** The errors of a mapping that fails are set while the lock is taken. *)
Definition map_in_errors : list err_call :=
  [mk_err "Cannot allocate new page table" ENONE true; mk_err "Failed to map one frame in request" ENONE true].

Definition map_in_post (L : layout) s (a d : Z) (x : addr_space) (paddr vaddr len flags : Z) (r : bool) s' : Prop :=
  exists L', locked_step a x L s L' s' /\ data_frames L' s' = data_frames L s /\
    changes L d (if r then mapped_part (paddr / 4096) (vaddr / 4096) flags 0 (page_count vaddr len) else nothing) (pg_mem s) (pg_mem s') /\
    pg_errors s' = pg_errors s ++ (if r then [] else map_in_errors) /\
    pg_shootdowns s' = pg_shootdowns s + b2z (r && pg_online s).

Lemma paging_map_in_spec L s a d x paddr vaddr len flags :
  pg_inv L s -> space_at s a d x -> area_ok a vaddr len ->
  0 <= paddr < 2 ^ 32 -> paddr + len <= 2 ^ 32 -> paddr mod 4096 = vaddr mod 4096 ->
  (forall v, vaddr / 4096 <= v < vaddr / 4096 + page_count vaddr len -> lookup_page (pg_mem s) d v = None) ->
  wpx fr_fault (paging_map_in c KERNEL_ADDR_SPACE junk a paddr vaddr len flags)
    (map_in_post L s a d x paddr vaddr len flags) s.
Proof.
  intros Hi Hs Ha Hp Hpl Hoff Hfree. destruct (held_inv _ _ _ _ _ Hi Hs) as [Hih Hdh]. destruct Hs as (Hx & Hu & _).
  unfold paging_map_in. eapply wpx_bind_ok; [by apply space_lock_run|].
  apply wpx_bind. eapply wpx_mono; [by apply (do_paging_map_in_spec L _ a d)|].
  intros r s1 (L' & Hps & Hdf & Hch & He & _). eapply wpx_bind_ok; [by apply (space_unlock_run s), Hps|].
  pose proof (released_step _ _ _ _ _ _ Hx Hps) as Hst. set (s2 := released a x (pg_if s) s1) in *.
  assert (Hsd : pg_shootdowns s2 = pg_shootdowns s) by apply (ps_rest _ _ _ _ Hps).
  assert (Ee : table_error (held a x s) a = mk_err "Cannot allocate new page table" ENONE true /\
               range_error (held a x s) a = mk_err "Failed to map one frame in request" ENONE true).
  { unfold table_error, range_error. simpl. by rewrite lookup_insert_eq. }
  destruct Ee as [E1 E2]. rewrite E1, E2 in He. destruct r.
  - eapply wpx_bind_ok; [apply flush_run|]. apply wpx_ret. exists L'. destruct (mem_flushed s2) as (Em & Ef & Ee).
    split; [by apply locked_step_flushed|]. unfold data_frames. rewrite Em, Ef, Ee, shootdowns_flushed, Hsd, (lo_online _ _ _ _ _ _ Hst). done.
  - eapply wpx_bind_ok; [done|]. apply wpx_ret. exists L'. split_and!; [done..|]. rewrite Hsd. unfold b2z, andb. lia.
Qed.

Definition unmap_in_post (L : layout) s (a d : Z) (x : addr_space) (vaddr len : Z) pt (free_phy_frame : bool) s' : Prop :=
  exists L', locked_step a x L s L' s' /\
    data_frames L' s' = data_frames L s ∖ freed_frames (vaddr / 4096) pt free_phy_frame (page_count vaddr len) /\
    changes L d (cleared (vaddr / 4096) (page_count vaddr len)) (pg_mem s) (pg_mem s') /\
    pg_errors s' = pg_errors s /\ pg_shootdowns s' = pg_shootdowns s + b2z (pg_online s).

Lemma unmap_locked_spec L s a d x vaddr len pt free_phy_frame :
  let b := vaddr / 4096 in
  let n := page_count vaddr len in
  pg_inv L s -> space_at s a d x -> area_ok a vaddr len ->
  (forall v, b <= v < b + n -> lookup_page (pg_mem s) d v = Some (pt v)) ->
  (free_phy_frame = true -> freed_frames b pt free_phy_frame n ⊆ data_frames L s /\
    NoDup (map (fun v => entry_addr (pt v)) (range b (b + n)))) ->
  (forall v, b <= v < b + n -> 768 * 1024 <= v ->
    exists v', v' / 1024 = v / 1024 /\ ~ (b <= v' < b + n) /\ is_Some (lookup_page (pg_mem s) d v')) ->
  wp (lock_addr_space c a;;;
      do_paging_unmap_in c KERNEL_ADDR_SPACE junk a vaddr len free_phy_frame;;;
      unlock_addr_space c a;;; cpu_invalidate_tlb;;; maybe_to_tlb_shootdown)
    (fun _ => unmap_in_post L s a d x vaddr len pt free_phy_frame) s.
Proof.
  intros b n Hi Hs Ha Hmap Hfr Hk. destruct (held_inv _ _ _ _ _ Hi Hs) as [Hih Hdh]. destruct Hs as (Hx & Hu & _).
  eapply wp_bind_ok; [by apply space_lock_run|].
  apply wp_bind. eapply wp_mono; [by apply (do_paging_unmap_in_spec L _ a d _ _ pt)|].
  intros [] s1 (L' & Hps & Hdf & Hch & He). eapply wp_bind_ok; [by apply (space_unlock_run s), Hps|].
  pose proof (released_step _ _ _ _ _ _ Hx Hps) as Hst. set (s2 := released a x (pg_if s) s1) in *.
  assert (Hsd : pg_shootdowns s2 = pg_shootdowns s) by apply (ps_rest _ _ _ _ Hps).
  unfold wp. rewrite flush_run. exists L'. destruct (mem_flushed s2) as (Em & Ef & Ee).
  split; [by apply locked_step_flushed|]. unfold data_frames. rewrite Em, Ef, Ee, shootdowns_flushed, Hsd, (lo_online _ _ _ _ _ _ Hst). done.
Qed.

(** ** Misuse *)

(** Mapping over a different entry and unmapping a page that is not mapped
    stop the kernel. *)
Definition panics {A} (msg : string) (m : M (pgst F) A) s : Prop := wpx (fun h => h = Panic msg) m (fun _ _ => False) s.

Lemma panics_halt {A} msg (m : M (pgst F) A) s : panics msg m s -> m s = Halt (Panic msg).
Proof. unfold panics, wpx. destruct (m s) as [[]|h]; [done|by intros ->]. Qed.

Lemma map_conflict_panics L s a d vp f flags old :
  pg_inv L s -> dir_of s a = Some d -> page_ok a vp -> frame_ok f -> lookup_page (pg_mem s) d vp = Some old ->
  compare_ptes (pte_of_val (pte_val (new_pte junk (f * 4096) flags))) (pte_of_val old) = false ->
  panics "Overwriting previous PTE when mapping address" (map_page_in c KERNEL_ADDR_SPACE junk a (f * 4096) (vp * 4096) flags) s.
Proof.
  intros Hi Hda [Hv Hk] Hf Hl Hcmp. destruct (dir_of_inv _ _ _ _ Hi Hda) as (Hd & _). pose proof (pi_mem _ _ Hi) as Hm.
  destruct (page_vaddr vp Hv) as [-> Ev]. destruct (page_parts vp Hv) as [Hri Hrj]. rewrite Ev in Hl.
  set (i := vp / 1024) in *. set (j := vp mod 1024) in *. destruct (lookup_page_some _ _ _ _ _ Hrj Hl) as (Hpr & Hw & Hpp).
  destruct (vaddr_index i j ltac:(lia) Hrj) as (Ep & _ & Ea).
  change (map_page_in c KERNEL_ADDR_SPACE junk) with (map_page_in_with c KERNEL_ADDR_SPACE junk (map_page_in_fuel c KERNEL_ADDR_SPACE junk 1)).
  unfold panics, map_page_in_with. rewrite Ep, Ea, frame_aligned by done.
  apply wpx_bind, wpx_assert; [done|]. apply wpx_bind, wpx_assert; [done|]. apply wpx_bind, wpx_assert.
  { destruct Hk as [->|Hk]; [by rewrite Z.eqb_refl|]. unfold is_user_addr, is_kernel_addr, KERNEL_PHY_OFFSET.
    rewrite (proj2 (Z.leb_gt 0xC0000000 _)) by lia. by rewrite orb_true_r. }
  apply wpx_bind, wpx_wp. eapply wp_mono; [by apply (get_page_dir_spec c KERNEL_ADDR_SPACE junk Hc L s a d)|]. intros p s1 [Hst Hp].
  pose proof (pg_inv_temp _ _ _ _ Hi Hst) as Hi1.
  eapply wpx_bind_ok; [done|]. rewrite (dir_ptr_higher _ Hc _ _ _ _ Hp), andb_false_r. eapply wpx_bind_ok; [done|].
  destruct (dir_ptr_sees _ Hc _ _ _ _ (pi_core _ _ Hi1) Hp) as [t1 Hs1]. eapply wpx_bind_ok; [apply (get_entry_run _ _ _ _ i Hs1); lia|].
  assert (Hw1 : word (pg_mem s1) d i = word (pg_mem s) d i).
  { apply (ts_word _ _ _ _ Hst). intros [= E _]. by apply (temp_not_dir _ _ Hm d). }
  rewrite Hw1, Hpr. eapply wpx_bind_ok; [done|]. apply wpx_bind, wpx_wp.
  eapply wp_mono; [apply (get_page_table_spec c KERNEL_ADDR_SPACE junk Hc L s1 d p i); (done || lia || by rewrite Hw1)|].
  intros q s2 (Hst2 & t2 & Hs2 & _). rewrite Hw1 in Hs2. eapply wpx_bind_ok; [done|].
  change (wpx (fun h => h = Panic "Overwriting previous PTE when mapping address")
    (write_pte junk q (f * 4096) (i * 2 ^ 22 + j * 4096) flags) (fun _ _ => False) s2).
  unfold wpx. rewrite (write_pte_run junk s2 q _ t2) by (done || lia).
  rewrite (ts_word _ _ _ _ (temp_step_trans _ _ _ _ _ Hst Hst2)) by (intros [= E _]; by apply (table_not_temp _ _ Hm d i)).
  rewrite Hw, Hpp, Hcmp. done.
Qed.

Lemma unmap_absent_panics L s a d vp free_phy_frame :
  pg_inv L s -> dir_of s a = Some d -> page_ok a vp -> lookup_page (pg_mem s) d vp = None ->
  panics "Address is not mapped." (unmap_page_in c KERNEL_ADDR_SPACE junk a (vp * 4096) free_phy_frame) s.
Proof.
  intros Hi Hda [Hv Hk] Hl. destruct (dir_of_inv _ _ _ _ Hi Hda) as (Hd & _). pose proof (pi_mem _ _ Hi) as Hm.
  destruct (page_vaddr vp Hv) as [-> Ev]. destruct (page_parts vp Hv) as [Hri Hrj]. unfold lookup_page in Hl.
  set (i := vp / 1024) in *. set (j := vp mod 1024) in *. destruct (vaddr_index i j ltac:(lia) Hrj) as (Ep & Eq & Ea).
  unfold panics, unmap_page_in. rewrite Ep, Eq, Ea. apply wpx_bind, wpx_assert; [done|]. apply wpx_bind, wpx_assert.
  { destruct Hk as [->|Hk]; [by rewrite Z.eqb_refl|]. unfold is_user_addr, is_kernel_addr, KERNEL_PHY_OFFSET.
    rewrite (proj2 (Z.leb_gt 0xC0000000 _)) by lia. by rewrite orb_true_r. }
  apply wpx_bind, wpx_wp. eapply wp_mono; [by apply (get_page_dir_spec c KERNEL_ADDR_SPACE junk Hc L s a d)|]. intros p s1 [Hst Hp].
  pose proof (pg_inv_temp _ _ _ _ Hi Hst) as Hi1. destruct (dir_ptr_sees _ Hc _ _ _ _ (pi_core _ _ Hi1) Hp) as [t1 Hs1].
  eapply wpx_bind_ok; [apply (get_entry_run _ _ _ _ i Hs1); lia|].
  assert (Hw1 : word (pg_mem s1) d i = word (pg_mem s) d i).
  { apply (ts_word _ _ _ _ Hst). intros [= E _]. by apply (temp_not_dir _ _ Hm d). }
  rewrite Hw1. destruct (present (word (pg_mem s) d i)) eqn:Epr; [|done]. eapply wpx_bind_ok; [done|]. apply wpx_bind, wpx_wp.
  eapply wp_mono; [apply (get_page_table_spec c KERNEL_ADDR_SPACE junk Hc L s1 d p i); (done || lia || by rewrite Hw1)|].
  intros q s2 (Hst2 & t2 & Hs2 & _). rewrite Hw1 in Hs2. eapply wpx_bind_ok; [by apply (get_entry_run _ _ _ _ j Hs2)|].
  rewrite (ts_word _ _ _ _ (temp_step_trans _ _ _ _ _ Hst Hst2)) by (intros [= E _]; by apply (table_not_temp _ _ Hm d i)).
  destruct (present (word (pg_mem s) _ j)); done.
Qed.

End Range.
