(* ===== verification/PagingFind.v ===== *)
(** * Searching for unmapped pages

    [page_is_mapped], and the search for a hole in the address space in use:
    the size of a hole as [compute_hole_size] counts it over the paging
    structures, and the first hole that is large enough. *)

From S2P Require Import Prelude Math Bits Spinlock ErrorCodes FrameAlloc Kmalloc CMem Paging PagingSpec PagingRange.

(** The pages below the temporary mappings. *)
Definition LIMIT : Z := 1022 * 1024.

(** The hole at [vp] has [n] pages. *)
Definition is_hole (m : pmem) (d vp n : Z) : Prop :=
  0 <= n /\ vp + n <= LIMIT /\ (forall v, vp <= v < vp + n -> lookup_page m d v = None) /\
  (vp + n < LIMIT -> is_Some (lookup_page m d (vp + n))).

(** There are [npages] unmapped pages at [vp]. *)
Definition fits (m : pmem) (d npages vp : Z) : Prop :=
  vp + npages <= LIMIT /\ forall v, vp <= v < vp + npages -> lookup_page m d v = None.

Lemma hole_fits m d vp n npages : is_hole m d vp n -> npages <= n <-> fits m d npages vp.
Proof.
  intros (Hn & Hl & Hfree & Hend). split.
  - intros Hle. split; [lia|]. intros v Hv. apply Hfree. lia.
  - intros [Hle Hf]. destruct (decide (npages <= n)) as [|Hgt]; [done|]. destruct Hend as [x Hx]; [lia|].
    rewrite Hf in Hx by lia. done.
Qed.

Section Find.
Context {F : Type} `{HLaws : FrameLaws F} (c KERNEL_ADDR_SPACE junk : Z) (Hc : 0 <= c < 256).
Implicit Types s : pgst F.

Lemma page_is_mapped_spec L s a d vp :
  pg_inv L s -> dir_of s a = Some d -> 0 <= vp < LIMIT ->
  wp (page_is_mapped c KERNEL_ADDR_SPACE junk a (vp * 4096))
    (fun r s' => temp_step c L s s' /\ r = bool_decide (is_Some (lookup_page (pg_mem s) d vp))) s.
Proof.
  unfold LIMIT. intros Hi Hda Hv. destruct (dir_of_inv _ _ _ _ Hi Hda) as (Hd & _). pose proof (pi_mem _ _ Hi) as Hm.
  destruct (page_vaddr vp Hv) as [-> Ev]. destruct (page_parts vp Hv) as [Hri Hrj].
  destruct (vaddr_index (vp / 1024) (vp mod 1024) ltac:(lia) Hrj) as (Ep & Eq & Ea).
  unfold page_is_mapped. rewrite Ep, Eq, Ea. apply wp_bind, wp_assert; [done|].
  apply wp_bind. eapply wp_mono; [by apply (get_page_dir_spec c KERNEL_ADDR_SPACE junk Hc L s a d)|]. intros p s1 [Hst1 Hp].
  pose proof (pg_inv_temp _ _ _ _ Hi Hst1) as Hi1. destruct (dir_ptr_sees _ Hc _ _ _ _ Hi1 Hp) as [t1 Hs1].
  assert (Hw1 : word (pg_mem s1) d (vp / 1024) = word (pg_mem s) d (vp / 1024)).
  { apply (ts_word _ _ _ _ Hst1). intros [= E _]. by apply (temp_not_dir _ _ Hm d). }
  eapply wp_bind_ok; [apply (get_entry_run _ _ _ _ (vp / 1024) Hs1); lia|]. rewrite Hw1.
  destruct (present (word (pg_mem s) d (vp / 1024))) eqn:Epr; simpl.
  - apply wp_bind. eapply wp_mono; [apply (get_page_table_spec c KERNEL_ADDR_SPACE junk Hc L s1 d p); (done || lia || by rewrite Hw1)|].
    intros q s2 (Hst2 & t2 & Hs2 & _). pose proof (temp_step_trans _ _ _ _ _ Hst1 Hst2) as Hst. rewrite Hw1 in Hs2.
    eapply wp_bind_ok; [by apply (get_entry_run _ _ _ _ (vp mod 1024) Hs2)|]. apply wp_ret. split; [done|].
    rewrite (ts_word _ _ _ _ Hst) by (intros [= E _]; by apply (table_not_temp _ _ Hm d (vp / 1024))).
    unfold lookup_page. rewrite Epr. by destruct (present (word _ _ (vp mod 1024))).
  - apply wp_ret. split; [done|]. unfold lookup_page. by rewrite Epr.
Qed.

(** The first unmapped page from [p] on. *)
Definition next_free (m : pmem) (d p r : Z) : Prop :=
  (r = NO_REGION /\ forall v, p <= v < LIMIT -> is_Some (lookup_page m d v)) \/
  (exists q, r = q * 4096 /\ p <= q < LIMIT /\ lookup_page m d q = None /\ forall v, p <= v < q -> is_Some (lookup_page m d v)).

Lemma next_free_temp L s s' d p r : pg_inv L s -> temp_step c L s s' -> is_dir L d -> 0 <= p ->
  next_free (pg_mem s') d p r <-> next_free (pg_mem s) d p r.
Proof.
  intros Hi Hst Hd Hp. assert (E : forall v, 0 <= v < LIMIT -> lookup_page (pg_mem s') d v = lookup_page (pg_mem s) d v).
  { intros v Hv. apply (lookup_page_temp c L); [apply Hi|done|done|apply Hst]. }
  split; (intros [[-> Hall]|(q & -> & Hq & Hn & Hall)]; [left|right]).
  - split; [done|]. intros v Hv. rewrite <- E by lia. by apply Hall.
  - exists q. rewrite <- E by lia. split_and!; try done; try lia. intros v Hv. rewrite <- E by lia. by apply Hall.
  - split; [done|]. intros v Hv. rewrite E by lia. by apply Hall.
  - exists q. rewrite E by lia. split_and!; try done; try lia. intros v Hv. rewrite E by lia. by apply Hall.
Qed.

Lemma find_next_loop_spec fuel : forall L s a d p,
  pg_inv L s -> dir_of s a = Some d -> 0 <= p <= LIMIT -> (Z.to_nat (LIMIT - p) < fuel)%nat ->
  wp (find_next_loop c KERNEL_ADDR_SPACE junk fuel a (p * 4096) (LIMIT * 4096))
    (fun r s' => temp_step c L s s' /\ next_free (pg_mem s) d p r) s.
Proof.
  induction fuel as [|fuel IH]; intros L s a d p Hi Hda Hp Hf; [lia|]. destruct (dir_of_inv _ _ _ _ Hi Hda) as (Hd & _).
  unfold LIMIT in *. simpl. destruct (Z.ltb_spec (p * 4096) (1022 * 1024 * 4096)); simpl.
  - apply wp_bind. eapply wp_mono; [apply (page_is_mapped_spec L s a d p); [done|done|unfold LIMIT; lia]|]. intros r s1 [Hst ->].
    pose proof (pg_inv_temp _ _ _ _ Hi Hst) as Hi1. case_bool_decide as Hm; simpl.
    + replace (u32 (p * 4096 + PAGE_SIZE)) with ((p + 1) * 4096) by (unfold PAGE_SIZE; rewrite u32_id; lia).
      eapply wp_mono; [apply (IH L s1 a d (p + 1)); [done|by rewrite (dir_of_rest s s1) by apply Hst|lia|lia]|].
      intros r s2 [Hst2 Hn]. split; [by eapply temp_step_trans|].
      apply (next_free_temp L s s1) in Hn; [|done|done|done|lia].
      assert (Hall : forall q v, (forall v, p + 1 <= v < q -> is_Some (lookup_page (pg_mem s) d v)) -> p <= v < q -> is_Some (lookup_page (pg_mem s) d v)).
      { intros q v Hq Hv. destruct (decide (v = p)) as [->|]; [done|]. apply Hq. lia. }
      destruct Hn as [[-> Hn]|(q & -> & Hq & Hn & Hn')]; [left|right].
      * split; [done|]. intros v Hv. by apply (Hall LIMIT).
      * exists q. split_and!; try done; try lia. intros v Hv. by apply (Hall q).
    + apply wp_ret. split; [done|]. right. exists p. unfold LIMIT. split_and!; try done; try lia. by apply eq_None_not_Some.
  - apply wp_ret. split; [apply temp_step_refl|]. left. split; [done|]. unfold LIMIT. intros v Hv. lia.
Qed.

Lemma find_next_non_mapped_page_spec L s a d p :
  pg_inv L s -> dir_of s a = Some d -> 0 <= p <= LIMIT ->
  wp (find_next_non_mapped_page c KERNEL_ADDR_SPACE junk a (p * 4096))
    (fun r s' => temp_step c L s s' /\ next_free (pg_mem s) d p r) s.
Proof.
  intros Hi Hda Hp. unfold find_next_non_mapped_page. change (Z.shiftl TEMP_MAP_PDE_IDX 22) with (LIMIT * 4096).
  apply find_next_loop_spec; [done..|]. unfold PAGE_SIZE.
  replace ((LIMIT * 4096 - p * 4096) / 4096) with (LIMIT - p) by (rewrite <- Z.mul_sub_distr_r, Z.div_mul; lia). lia.
Qed.

(** ** The size of a hole *)

Section Hole.
Context (L : layout) (s : pgst F) (vp : Z).
Hypothesis Hi : pg_inv L s.
Hypothesis Hv : 0 <= vp < LIMIT.

Abbreviation d := (pg_cr3 s / 4096).
Abbreviation m := (pg_mem s).

(** All pages from [vp] up to [w] are unmapped. *)
Definition free_to (w : Z) : Prop := vp <= w <= LIMIT /\ forall v, vp <= v < w -> lookup_page m d v = None.

Lemma free_to_step w : free_to w -> w < LIMIT -> lookup_page m d w = None -> free_to (w + 1).
Proof. intros [Hw Hall] Hlt Hn. split; [lia|]. intros v Hvw. destruct (decide (v = w)) as [->|]; [done|]. apply Hall. lia. Qed.

Lemma free_to_hole w : free_to w -> (w < LIMIT -> is_Some (lookup_page m d w)) -> is_hole m d vp (w - vp).
Proof.
  intros [Hw Hall] Hend. split; [lia|]. replace (vp + (w - vp)) with w by lia. split; [lia|]. done.
Qed.

(** The loop over the entries of one table, from the page [w] on. *)
Lemma hole_in_table_run i k : 0 <= i < 1022 -> present (word m d i) = true -> forall j,
  Z.to_nat (1024 - j) = k -> 0 <= j <= 1024 -> free_to (i * 1024 + j) ->
  exists r, hole_in_table (REC i) (i * 1024 + j - vp) (range j 1024) s = Ok (r, s) /\
    match r with
    | inl n => is_hole m d vp n
    | inr n => n = (i + 1) * 1024 - vp /\ free_to ((i + 1) * 1024)
    end.
Proof.
  intros Hri Hpr. induction k as [|k IH]; intros j Ek Hj Hf.
  - assert (j = 1024) as -> by lia. rewrite range_nil by lia. eexists. split; [done|]. simpl.
    replace ((i + 1) * 1024) with (i * 1024 + 1024) by lia. split; [lia|done].
  - rewrite range_cons by lia. simpl. unfold LIMIT in *.
    erewrite bind_ok by (eapply get_entry_run; [by apply (sees_rec L s i Hi); [lia|]|lia]).
    assert (El : lookup_page m d (i * 1024 + j) = let pte := word m (entry_addr (word m d i)) j in if present pte then Some pte else None).
    { unfold lookup_page. destruct (page_join i j ltac:(lia)) as [-> ->]. by rewrite Hpr. }
    cbv zeta in El. destruct (present (word m (entry_addr (word m d i)) j)) eqn:Ep; simpl.
    + eexists. split; [done|]. simpl. apply free_to_hole; [done|]. intros _. by rewrite El.
    + destruct Hf as [Hw Hall]. rewrite u32_id by (unfold LIMIT in *; lia). replace (i * 1024 + j - vp + 1) with (i * 1024 + (j + 1) - vp) by lia.
      apply IH; [lia|lia|]. replace (i * 1024 + (j + 1)) with (i * 1024 + j + 1) by lia.
      apply free_to_step; [by split|unfold LIMIT; lia|done].
Qed.

Lemma vp_index : pde_index (vp * 4096) = vp / 1024 /\ pte_index (vp * 4096) = vp mod 1024.
Proof.
  unfold LIMIT in Hv. destruct (page_vaddr vp Hv) as [-> _]. destruct (page_parts vp Hv) as [Hri Hrj].
  by destruct (vaddr_index (vp / 1024) (vp mod 1024) ltac:(lia) Hrj) as (? & ? & _).
Qed.

(** The loop over the tables; at the first one the pages before [vp] do not
    count. *)
Lemma hole_in_dir_run k : forall i,
  Z.to_nat (1022 - i) = k -> vp / 1024 <= i <= 1022 -> free_to (Z.max vp (i * 1024)) ->
  exists n, hole_in_dir c KERNEL_ADDR_SPACE junk (REC 1023) (vp * 4096) (Z.max vp (i * 1024) - vp) (range i 1022) s = Ok (n, s) /\
    is_hole m d vp n.
Proof.
  destruct vp_index as [Ep Eq]. unfold LIMIT in Hv. destruct (page_parts vp Hv) as [Hri Hrj]. destruct (page_vaddr vp Hv) as [_ Ev].
  induction k as [|k IH]; intros i Ek Hir Hf.
  - assert (i = 1022) as -> by lia. rewrite range_nil by lia. eexists. split; [done|]. apply free_to_hole; [done|].
    destruct Hf as [Hw _]. unfold LIMIT in *. lia.
  - rewrite range_cons by lia. simpl. erewrite bind_ok by (eapply get_entry_run; [by apply (sees_curr_dir L)|lia]).
    rewrite Ep, Eq. destruct (present (word m d i)) eqn:Epr; simpl.
    + erewrite bind_ok by (apply (get_page_table_curr c); [apply Hi|lia]).
      set (j := if i =? vp / 1024 then vp mod 1024 else 0).
      assert (Ej : Z.max vp (i * 1024) = i * 1024 + j /\ 0 <= j < 1024).
      { subst j. destruct (Z.eqb_spec i (vp / 1024)) as [->|]; lia. }
      destruct Ej as [Ej Hj]. rewrite Ej in *.
      destruct (hole_in_table_run i (Z.to_nat (1024 - j)) ltac:(lia) Epr j eq_refl ltac:(lia) Hf) as (r & Hr & Hpost).
      erewrite bind_ok by exact Hr. destruct r as [n|n].
      * by exists n.
      * destruct Hpost as [-> Hf']. replace ((i + 1) * 1024) with (Z.max vp ((i + 1) * 1024)) in * by lia. apply IH; [lia|lia|done].
    + set (n := if i =? vp / 1024 then PTES_PER_PAGE - vp mod 1024 else PTES_PER_PAGE).
      assert (En : Z.max vp (i * 1024) - vp + n = Z.max vp ((i + 1) * 1024) - vp).
      { subst n. unfold PTES_PER_PAGE. destruct (Z.eqb_spec i (vp / 1024)) as [->|]; lia. }
      rewrite u32_id by (rewrite En; lia). rewrite En. apply IH; [lia|lia|]. destruct Hf as [Hw Hall]. split; [unfold LIMIT in *; lia|].
      intros v Hvr. destruct (decide (v < Z.max vp (i * 1024))); [apply Hall; lia|].
      unfold lookup_page. replace (v / 1024) with i by (Z.to_euclidean_division_equations; lia). by rewrite Epr.
Qed.

Lemma compute_hole_size_run :
  exists n, compute_hole_size c KERNEL_ADDR_SPACE junk (pg_curr s) (vp * 4096) s = Ok (n, s) /\ is_hole m d vp n.
Proof.
  unfold compute_hole_size, get_page_dir. erewrite bind_ok by (apply get_page_dir_curr, Hi). destruct vp_index as [-> _].
  unfold LIMIT in Hv. destruct (page_parts vp Hv) as [Hri Hrj]. destruct (page_vaddr vp Hv) as [_ Ev].
  change (PDES_PER_PAGE - 2) with 1022. replace 0 with (Z.max vp (vp / 1024 * 1024) - vp) by lia.
  apply (hole_in_dir_run (Z.to_nat (1022 - vp / 1024))); [done|lia|]. split; [unfold LIMIT; lia|]. intros v Hvr. lia.
Qed.

End Hole.

(** ** The search *)

(** The first place from [p] on with [npages] unmapped pages. *)
Definition first_fit (m : pmem) (d npages p r : Z) : Prop :=
  (r = NO_REGION /\ forall q, p <= q -> ~ fits m d npages q) \/
  (exists q, r = q * 4096 /\ p <= q < LIMIT /\ fits m d npages q /\ forall q', p <= q' < q -> ~ fits m d npages q').

(** Mapped pages are not the start of a hole. *)
Lemma no_fit_mapped m d npages q : 0 < npages -> is_Some (lookup_page m d q) -> ~ fits m d npages q.
Proof. intros Hn [x Hx] [_ Hf]. rewrite Hf in Hx by lia. done. Qed.

Lemma next_free_fit m d npages p r : 0 < npages -> next_free m d p r ->
  (r = NO_REGION /\ forall q, p <= q -> ~ fits m d npages q) \/
  (exists q, r = q * 4096 /\ p <= q < LIMIT /\ forall q', p <= q' < q -> ~ fits m d npages q').
Proof.
  intros Hn [[-> Hall]|(q & -> & Hq & _ & Hall)]; [left|right].
  - split; [done|]. intros q Hq Hf. destruct (decide (q < LIMIT)); [by apply (no_fit_mapped m d npages q Hn); [apply Hall; lia|]|].
    destruct Hf as [Hf _]. lia.
  - exists q. split_and!; try done; try lia. intros q' Hq'. apply no_fit_mapped; [done|]. by apply Hall.
Qed.

Definition search_error s (a : Z) : err_call :=
  mk_err "Could not find big enough region in virt memory space" ENOMEM
    (match pg_spaces s !! a with Some x => lock (as_lock x) =? 1 | None => false end).

(** The end of a search: the temporary entry may have changed, and a search
    that fails says so. *)
Definition search_post (L : layout) s (d npages p r : Z) s' : Prop :=
  exists s1, temp_step c L s s1 /\ first_fit (pg_mem s) d npages p r /\
    s' = if r =? NO_REGION then put_errors (pg_errors s ++ [search_error s (pg_curr s)]) s1 else s1.

Lemma fits_temp L s s' d npages q : pg_inv L s -> temp_step c L s s' -> is_dir L d -> 0 <= q ->
  fits (pg_mem s') d npages q <-> fits (pg_mem s) d npages q.
Proof.
  intros Hi Hst Hd Hq. assert (E : forall v, 0 <= v < LIMIT -> lookup_page (pg_mem s') d v = lookup_page (pg_mem s) d v).
  { intros v Hv. apply (lookup_page_temp c L); [apply Hi|done|done|apply Hst]. }
  unfold fits. split; intros [Hle Hf]; (split; [done|]); intros v Hv; specialize (Hf v Hv); [rewrite <- E by lia|rewrite E by lia]; done.
Qed.

Lemma search_post_temp L s s1 d npages p r s' : pg_inv L s -> temp_step c L s s1 -> is_dir L d -> 0 <= p ->
  search_post L s1 d npages p r s' -> search_post L s d npages p r s'.
Proof.
  intros Hi Hst Hd Hp (s2 & Hst2 & Hff & ->). exists s2. split; [by eapply temp_step_trans|]. split.
  - destruct Hff as [[-> Hall]|(q & -> & Hq & Hf & Hall)]; [left|right].
    + split; [done|]. intros q Hq. rewrite <- (fits_temp L s s1) by (done || lia). by apply Hall.
    + exists q. rewrite <- (fits_temp L s s1) by (done || lia). split_and!; try done; try lia.
      intros q' Hq'. rewrite <- (fits_temp L s s1) by (done || lia). by apply Hall.
  - unfold search_error. by rewrite (ts_errors _ _ _ _ Hst), (sr_spaces _ _ (ts_rest _ _ _ _ Hst)), (sr_curr _ _ (ts_rest _ _ _ _ Hst)).
Qed.

Lemma no_region_ne q : 0 <= q < LIMIT -> (q * 4096 =? NO_REGION) = false.
Proof. intros Hq. apply Z.eqb_neq. unfold NO_REGION, LIMIT in *. lia. Qed.

(** Not a hole at [p], so look from the next unmapped page on. *)
Lemma search_post_later L s d npages p p' r s' : p <= p' -> (forall q, p <= q < p' -> ~ fits (pg_mem s) d npages q) ->
  search_post L s d npages p' r s' -> search_post L s d npages p r s'.
Proof.
  intros Hle Hno (s1 & Hst & Hff & Es). exists s1. split; [done|]. split; [|done].
  destruct Hff as [[-> Hall]|(q & -> & Hq & Hf & Hall)]; [left|right].
  - split; [done|]. intros q Hq. destruct (decide (q < p')); [by apply Hno|]. apply Hall. lia.
  - exists q. split_and!; try done; try lia. intros q' Hq'. destruct (decide (q' < p')); [apply Hno; lia|]. apply Hall. lia.
Qed.

Lemma find_hole_loop_spec fuel : forall L s npages p ptr,
  pg_inv L s -> 0 < npages -> 0 <= p <= LIMIT -> (Z.to_nat (LIMIT - p) + 1 < fuel)%nat ->
  next_free (pg_mem s) (pg_cr3 s / 4096) p ptr ->
  wp (find_hole_loop c KERNEL_ADDR_SPACE junk fuel (pg_curr s) ptr npages) (search_post L s (pg_cr3 s / 4096) npages p) s.
Proof.
  induction fuel as [|fuel IH]; intros L s npages p ptr Hi Hn Hp Hf Hnf; [lia|]. pose proof (curr_dir _ _ Hi) as Hd.
  set (d := pg_cr3 s / 4096) in *. simpl. destruct (next_free_fit _ _ npages _ _ Hn Hnf) as [[-> Hno]|(q & -> & Hq & Hno)].
  - eapply wp_bind_ok; [done|]. apply wp_ret. exists s. split; [apply temp_step_refl|]. split; [by left|done].
  - rewrite no_region_ne by lia. destruct (compute_hole_size_run L s q Hi ltac:(lia)) as (n & Hrun & Hh). fold d in Hh.
    eapply wp_bind_ok; [exact Hrun|]. pose proof (hole_fits _ _ _ _ npages Hh) as Hfit. destruct (Z.leb_spec npages n) as [Hle|Hgt].
    + apply wp_ret. exists s. split; [apply temp_step_refl|]. rewrite no_region_ne by lia. split; [|done].
      right. exists q. split_and!; try done; try lia. by apply Hfit.
    + apply wp_bind. replace (u32 (q * 4096 + PAGE_SIZE)) with ((q + 1) * 4096) by (unfold PAGE_SIZE, LIMIT in *; rewrite u32_id; lia).
      eapply wp_mono; [apply (find_next_non_mapped_page_spec L s _ d (q + 1)); [done|by apply (dir_of_curr L)|lia]|].
      intros ptr' s1 [Hst Hnf']. pose proof (pg_inv_temp _ _ _ _ Hi Hst) as Hi1.
      eapply wp_mono; [|intros r s2 Hpost; apply (search_post_later L s d npages p (q + 1)); [lia| |]].
      * rewrite <- (sr_curr _ _ (ts_rest _ _ _ _ Hst)). apply (IH L s1 npages (q + 1)); [done|done|lia|lia|].
        rewrite (sr_cr3 _ _ (ts_rest _ _ _ _ Hst)). fold d. apply (next_free_temp L s s1); (done || lia).
      * intros q' Hq'. destruct (decide (q' = q)) as [->|]; [rewrite <- Hfit; lia|]. apply Hno. lia.
      * rewrite (sr_cr3 _ _ (ts_rest _ _ _ _ Hst)) in Hpost. apply (search_post_temp L s s1); (done || lia).
Qed.

Lemma do_find_spec L s npages p :
  pg_inv L s -> 0 < npages -> 0 <= p <= LIMIT ->
  wp (do_paging_find_contiguous_non_mapped_pages_in c KERNEL_ADDR_SPACE junk (pg_curr s) (p * 4096) npages)
    (search_post L s (pg_cr3 s / 4096) npages p) s.
Proof.
  intros Hi Hn Hp. pose proof (curr_dir _ _ Hi) as Hd. apply wp_bind.
  eapply wp_mono; [apply (find_next_non_mapped_page_spec L s _ (pg_cr3 s / 4096) p); [done|by apply (dir_of_curr L)|done]|].
  intros ptr s1 [Hst Hnf]. pose proof (pg_inv_temp _ _ _ _ Hi Hst) as Hi1. destruct Hst as [Hr Hfr He Hw]. pose proof (sr_cr3 _ _ Hr) as E.
  eapply wp_mono; [|intros r s2 Hpost; apply (search_post_temp L s s1); [done|by split|done|lia|rewrite <- E; exact Hpost]].
  rewrite <- (sr_curr _ _ Hr). apply find_hole_loop_spec; [done|done|done| |].
  - change (Z.shiftl TEMP_MAP_PDE_IDX 22) with (LIMIT * 4096). unfold PAGE_SIZE.
    replace ((LIMIT * 4096 - p * 4096) / 4096) with (LIMIT - p) by (rewrite <- Z.mul_sub_distr_r, Z.div_mul; lia). lia.
  - rewrite E. apply (next_free_temp L s s1); (done || lia || by split).
Qed.

(** ** Mapping frames into a hole *)

Section Frames.
Context (L0 : layout) (s0 : pgst F) (a d q flags : Z) (fs : list Z).

Abbreviation n := (Z.of_nat (length fs)).

(** The first [k] frames are mapped, one page each, from the page [q] on. *)
Definition frames_part (k : Z) : Z -> option (option Z) :=
  fun v => if decide (q <= v < q + k) then Some (Some (pte_val (new_pte junk (nth (Z.to_nat (v - q)) fs 0) flags))) else None.

Hypothesis Hi0 : pg_inv L0 s0.
Hypothesis Hd0 : dir_of s0 a = Some d.
Hypothesis Ha : a = KERNEL_ADDR_SPACE.
Hypothesis Hq : 768 * 1024 <= q /\ fits (pg_mem s0) d n q.
Hypothesis Hfs : Forall (fun p => exists f, p = f * 4096 /\ frame_ok f) fs.

Definition frames_post (k : Z) s : Prop :=
  exists L, pages_step L0 s0 L s /\ data_frames L s = data_frames L0 s0 /\
    changes L0 d (frames_part k) (pg_mem s0) (pg_mem s) /\ pg_errors s = pg_errors s0.

Lemma map_one_frame k p s :
  frames_post k s -> 0 <= k < n -> nth (Z.to_nat k) fs 0 = p -> (exists f, p = f * 4096 /\ frame_ok f) ->
  wpx fr_fault (do_paging_map_in c KERNEL_ADDR_SPACE junk a p (u32 (q * 4096 + k * PAGE_SIZE)) PAGE_SIZE flags)
    (fun r s' => r = true /\ frames_post (k + 1) s') s.
Proof.
  intros (L & Hps & Hdf & Hch & He) Hk Hp (f & -> & Hf). destruct Hq as [Hq1 [Hq2 Hfree]]. unfold LIMIT in *.
  destruct (dir_of_inv _ _ _ _ Hi0 Hd0) as (Hd & _). unfold frame_ok in Hf.
  replace (u32 (q * 4096 + k * PAGE_SIZE)) with ((q + k) * 4096) by (unfold PAGE_SIZE; rewrite u32_id; lia).
  assert (Hpc : page_count ((q + k) * 4096) PAGE_SIZE = 1) by (unfold page_count, PAGE_SIZE; by rewrite Z.mod_mul).
  eapply wpx_mono.
  { apply (do_paging_map_in_spec c KERNEL_ADDR_SPACE junk Hc L s a d (f * 4096)); [apply Hps|by rewrite (dir_of_rest s0 s) by apply Hps| | | | |].
    - unfold area_ok, PAGE_SIZE. split_and!; [lia..|by left].
    - lia.
    - unfold PAGE_SIZE. lia.
    - by rewrite !Z.mod_mul.
    - rewrite Hpc, Z.div_mul by lia. intros v Hv. rewrite (changes_lookup _ _ _ _ _ _ Hd Hch) by lia.
      unfold frames_part. by rewrite decide_False, Hfree by lia. }
  rewrite Hpc, !Z.div_mul by lia. intros r s1 (L1 & Hps1 & Hdf1 & Hch1 & He1 & Hk1).
  destruct r; [|specialize (Hk1 eq_refl); lia]. split; [done|]. exists L1. split_and!; [by eapply pages_step_trans|congruence| |by rewrite He1, app_nil_r].
  apply (changes_dirs L0) in Hch1; [|apply Hps]. apply (changes_trans _ _ _ _ _ _ _ _ Hch Hch1).
  intros v Hv. unfold frames_part, mapped_part, range_pte. destruct (decide (q + k + 0 <= v < q + k + 1)).
  - rewrite decide_True by lia. replace (v - q) with k by lia. rewrite Hp. replace (f + (v - (q + k))) with f by lia. done.
  - destruct (decide (q <= v < q + (k + 1))); [by rewrite decide_True by lia|by rewrite decide_False by lia].
Qed.

Lemma map_frames_spec k s : frames_post k s -> 0 <= k <= n ->
  wpx fr_fault (map_frames c KERNEL_ADDR_SPACE junk a (q * 4096) flags k (drop (Z.to_nat k) fs))
    (fun r s' => r = true /\ frames_post n s') s.
Proof.
  intros Hp Hk. remember (Z.to_nat (n - k)) as fuel eqn:Ef. revert k s Hp Hk Ef. induction fuel as [|fuel IH]; intros k s Hp Hk Ef.
  - assert (k = n) as -> by lia. rewrite drop_ge by lia. by apply wpx_ret.
  - destruct (lookup_lt_is_Some_2 fs (Z.to_nat k) ltac:(lia)) as [p Hlk]. rewrite (drop_S fs p _ Hlk). simpl.
    apply wpx_bind. eapply wpx_mono.
    { apply (map_one_frame k p); [done|lia|by apply nth_lookup_Some|]. rewrite Forall_lookup in Hfs. by apply (Hfs _ _ Hlk). }
    intros r s1 [-> Hp1]. simpl. replace (S (Z.to_nat k)) with (Z.to_nat (k + 1)) by lia. apply IH; [done|lia|lia].
Qed.

End Frames.

(** ** The entry points *)

Definition no_region_error : err_call := mk_err "Could not find big enough region in virt memory space" ENOMEM true.

(** A search under the lock, as far as the address spaces can tell. *)
Lemma search_held L s x npages p r s1 : pg_inv L s -> space_at s (pg_curr s) (pg_cr3 s / 4096) x ->
  search_post L (held c (pg_curr s) x s) (pg_cr3 s / 4096) npages p r s1 ->
  pages_step L (held c (pg_curr s) x s) L s1 /\ data_frames L s1 = data_frames L s /\
  changes L (pg_cr3 s / 4096) nothing (pg_mem s) (pg_mem s1) /\
  pg_errors s1 = pg_errors s ++ (if r =? NO_REGION then [no_region_error] else []) /\
  first_fit (pg_mem s) (pg_cr3 s / 4096) npages p r.
Proof.
  intros Hi Hs (s2 & Hst & Hff & ->). destruct (held_inv c _ _ _ _ _ Hi Hs) as [Hih _].
  pose proof (pages_step_temp _ _ _ _ Hih Hst) as Hps. pose proof (changes_temp c L (pg_cr3 s / 4096) _ _ Hih Hst) as Hch.
  assert (Hdf : data_frames L s2 = data_frames L s) by (unfold data_frames; by rewrite (ts_frames _ _ _ _ Hst)).
  unfold search_error. simpl. rewrite lookup_insert_eq. destruct (r =? NO_REGION); simpl.
  - split_and!; try done. destruct Hps as [[] [[] ? ? ?] H3 H4 H5]. by split.
  - split_and!; try done. rewrite app_nil_r. apply (ts_errors _ _ _ _ Hst).
Qed.

Lemma find_locked_spec L s x npages p :
  pg_inv L s -> space_at s (pg_curr s) (pg_cr3 s / 4096) x -> 0 < npages -> 0 <= p <= LIMIT ->
  wp (paging_find_contiguous_non_mapped_pages_in c KERNEL_ADDR_SPACE junk (pg_curr s) (p * 4096) npages)
    (fun r s' => first_fit (pg_mem s) (pg_cr3 s / 4096) npages p r /\
      locked_step (pg_curr s) x L s L s' /\ data_frames L s' = data_frames L s /\
      changes L (pg_cr3 s / 4096) nothing (pg_mem s) (pg_mem s') /\
      pg_errors s' = pg_errors s ++ (if r =? NO_REGION then [no_region_error] else [])) s.
Proof.
  intros Hi Hs Hn Hp. destruct (held_inv c _ _ _ _ _ Hi Hs) as [Hih Hdh]. pose proof Hs as (Hx & Hu & _).
  unfold paging_find_contiguous_non_mapped_pages_in. eapply wp_bind_ok; [by apply space_lock_run|].
  apply wp_bind. eapply wp_mono; [apply (do_find_spec L (held c (pg_curr s) x s) npages p Hih Hn Hp)|].
  intros r s1 Hsp. destruct (search_held _ _ _ _ _ _ _ Hi Hs Hsp) as (Hps & Hdf & Hch & He & Hff).
  eapply wp_bind_ok; [by apply (space_unlock_run c s), Hps|]. apply wp_ret. pose proof (released_step c _ _ _ _ _ _ Hx Hps) as Hst. done.
Qed.

Lemma fits_nothing L s d d' m' npages q : is_dir L d -> 0 <= q -> changes L d' nothing (pg_mem s) m' ->
  fits (pg_mem s) d npages q -> fits m' d npages q.
Proof. intros Hd Hq Hch [Hle Hf]. unfold LIMIT in *. split; [done|]. intros v Hv. rewrite Hch by (done || lia). by apply Hf. Qed.

Definition map_frames_above_post (L : layout) s (x : addr_space) (p flags : Z) (fs : list Z) (r : Z) s' : Prop :=
  first_fit (pg_mem s) (pg_cr3 s / 4096) (Z.of_nat (length fs)) p r /\
  exists L', locked_step (pg_curr s) x L s L' s' /\ data_frames L' s' = data_frames L s /\
    changes L (pg_cr3 s / 4096) (if r =? NO_REGION then nothing else frames_part (r / 4096) flags fs (Z.of_nat (length fs)))
      (pg_mem s) (pg_mem s') /\
    pg_errors s' = pg_errors s ++ (if r =? NO_REGION then [no_region_error] else []).

Lemma map_frames_above_spec L s x p flags fs :
  pg_inv L s -> pg_curr s = KERNEL_ADDR_SPACE -> space_at s (pg_curr s) (pg_cr3 s / 4096) x -> fs <> [] ->
  768 * 1024 <= p <= LIMIT -> Forall (fun p => exists f, p = f * 4096 /\ frame_ok f) fs ->
  wpx fr_fault (paging_map_frames_above_in c KERNEL_ADDR_SPACE junk (pg_curr s) (p * 4096) fs flags)
    (map_frames_above_post L s x p flags fs) s.
Proof.
  intros Hi Hk Hs Hne Hp Hfs. destruct (held_inv c _ _ _ _ _ Hi Hs) as [Hih Hdh]. pose proof Hs as (Hx & Hu & _).
  assert (Hn : 0 < Z.of_nat (length fs)) by (destruct fs; [done|simpl; lia]).
  unfold paging_map_frames_above_in. eapply wpx_bind_ok; [by apply space_lock_run|].
  apply wpx_bind, wpx_wp. eapply wp_mono; [apply (do_find_spec L (held c (pg_curr s) x s) _ p Hih Hn ltac:(lia))|].
  intros r s1 Hsp. destruct (search_held _ _ _ _ _ _ _ Hi Hs Hsp) as (Hps & Hdf & Hch & He & Hff).
  destruct (Z.eqb_spec r NO_REGION) as [->|Hr].
  - eapply wpx_bind_ok; [by apply (space_unlock_run c s), Hps|]. apply wpx_ret. split; [done|]. exists L.
    pose proof (released_step c _ _ _ _ _ _ Hx Hps) as Hst. done.
  - pose proof Hff as [[? _]|(q & -> & Hq & Hfit & Hno)]; [done|]. rewrite app_nil_r in He.
    assert (Hcd : dir_of s1 (pg_curr s) = Some (pg_cr3 s / 4096)) by (by rewrite (dir_of_rest _ _ _ (ps_rest _ _ _ _ Hps))).
    pose proof (map_frames_spec L s1 (pg_curr s) (pg_cr3 s / 4096) q flags fs (ps_inv _ _ _ _ Hps) Hcd Hk) as Hmf.
    apply wpx_bind. eapply wpx_mono; [apply (Hmf ltac:(split; [lia|by apply (fits_nothing L s _ (pg_cr3 s / 4096)); [apply curr_dir|lia|..]]) Hfs 0 s1); [|lia]|].
    + exists L. split_and!; [by apply pages_step_refl, Hps|done| |done].
      apply (changes_ext _ _ _ _ _ _ (changes_refl _ _ _)). intros v _. unfold frames_part. by rewrite decide_False by lia.
    + intros ok s2 [-> (L2 & Hps2 & Hdf2 & Hch2 & He2)]. simpl. pose proof (pages_step_trans _ _ _ _ _ _ Hps Hps2) as Hps'.
      eapply wpx_bind_ok; [by apply (space_unlock_run c s), Hps'|]. pose proof (released_step c _ _ _ _ _ _ Hx Hps') as Hst.
      eapply wpx_bind_ok; [done|]. eapply wpx_bind_ok; [done|]. apply wpx_ret. split; [done|]. exists L2.
      rewrite (proj2 (Z.eqb_neq _ _) Hr), Z.div_mul, app_nil_r by lia.
      set (s3 := released _ _ _ _) in *. change (if pg_online _ then _ else _) with (tlb_flushed s3).
      destruct (mem_flushed s3) as (Em & Ef & Ee). unfold data_frames in *. rewrite Em, Ef, Ee. split; [by apply locked_step_flushed|].
      change (pg_frames s3) with (pg_frames s2). change (pg_errors s3) with (pg_errors s2).
      split_and!; [congruence| |congruence]. apply (changes_trans _ _ _ _ _ _ _ _ Hch Hch2). intros v _. by destruct (frames_part _ _ _ _ v).
Qed.

End Find.
