(* ===== verification/PagingBoot.v ===== *)
(** * Enabling paging

    [init_paging] runs without paging until the structures are there: the
    directory of the kernel, the mappings of the kernel at its own addresses
    and at the physical ones, the recursive entry, the table of the temporary
    mappings and the preallocated tables of the kernel.  It leaves the
    invariant [pg_inv] that the other operations keep. *)

From S2P Require Import Prelude Math Bits Spinlock ErrorCodes FrameAlloc Kmalloc CMem Paging PagingSpec PagingRange.

Section Boot.
Context {F : Type} `{HLaws : FrameLaws F} (c KERNEL_ADDR_SPACE junk : Z).
Implicit Types s : pgst F.

(** ** Accesses without paging *)

Lemma off_place s f i : pg_paging s = false -> frame_ok f -> 0 <= i < 1024 ->
  translate (u32 (to_virt (f * 4096) + 4 * i)) s = Some (f * 4096 + 4 * i).
Proof.
  intros Hp Hf Hi. unfold translate. rewrite Hp. f_equal. unfold to_phys, to_virt, frame_ok in *. dlia.
Qed.

Lemma off_get s f i : pg_paging s = false -> frame_ok f -> 0 <= i < 1024 ->
  get_entry (to_virt (f * 4096)) i s = Ok (word (pg_mem s) f i, s).
Proof.
  intros Hp Hf Hi. unfold get_entry, rd32. rewrite off_place by done. by destruct (entry_place f i Hi) as [-> ->].
Qed.

Lemma off_set s f i v : pg_paging s = false -> frame_ok f -> 0 <= i < 1024 ->
  set_entry (to_virt (f * 4096)) i v s = Ok (tt, put_mem (<[(f, i) := v]> (pg_mem s)) s).
Proof.
  intros Hp Hf Hi. unfold set_entry, wr32. rewrite off_place by done. by destruct (entry_place f i Hi) as [-> ->].
Qed.

Lemma off_memzero s f : pg_paging s = false -> frame_ok f ->
  memzero_page (to_virt (f * 4096)) s = Ok (tt, put_mem (zero_frame f (pg_mem s)) s).
Proof.
  intros Hp Hf. unfold memzero_page, zero_frame.
  assert (Hall : forall i, i ∈ range 0 1024 -> 0 <= i < 1024) by (intros i; by rewrite elem_of_range).
  revert s Hp Hall. generalize (range 0 1024). induction l as [|i l IH]; intros s Hp Hall; simpl; [by rewrite put_mem_same|].
  erewrite bind_ok; [|apply off_set; [done|done|apply Hall; set_solver]]. rewrite IH; [done|done|set_solver].
Qed.

(** ** The directory while it is built

    [T] are the tables of the entries; the recursive entry is not one. *)
Record boot_ok (d : Z) (T : gmap Z Z) s : Prop := {
  bo_off : pg_paging s = false;
  bo_space : exists x, pg_spaces s !! KERNEL_ADDR_SPACE = Some x /\ page_dir_phy_addr x = d * 4096;
  bo_curr : pg_curr s = KERNEL_ADDR_SPACE;
  bo_dir : frame_ok d;
  bo_pde : forall i, 0 <= i < 1023 ->
    match T !! i with
    | Some t => present (word (pg_mem s) d i) = true /\ entry_addr (word (pg_mem s) d i) = t
    | None => present (word (pg_mem s) d i) = false
    end;
  bo_tab : forall i t, T !! i = Some t -> 0 <= i < 1023 /\ frame_ok t /\ t <> d;
  bo_inj : forall i j t, T !! i = Some t -> T !! j = Some t -> i = j;
  bo_ok : fr_ok (pg_frames s);
  bo_live_dir : d ∈ fr_live (pg_frames s);
  bo_live : forall i t, T !! i = Some t -> t ∈ fr_live (pg_frames s) }.

Lemma boot_page_lookup d T s i j : boot_ok d T s -> 0 <= i < 1023 -> 0 <= j < 1024 ->
  lookup_page (pg_mem s) d (i * 1024 + j) =
    match T !! i with
    | Some t => if present (word (pg_mem s) t j) then Some (word (pg_mem s) t j) else None
    | None => None
    end.
Proof.
  intros Hb Hi Hj. unfold lookup_page. destruct (page_join i j Hj) as [-> ->]. pose proof (bo_pde _ _ _ Hb i Hi) as Hp.
  destruct (T !! i) as [t|]; [destruct Hp as [-> ->]; done|by rewrite Hp].
Qed.

Lemma boot_lookup_put d T s m' i j : boot_ok d T (put_mem m' s) -> 0 <= i < 1023 -> 0 <= j < 1024 ->
  lookup_page m' d (i * 1024 + j) =
    match T !! i with Some t => if present (word m' t j) then Some (word m' t j) else None | None => None end.
Proof. apply boot_page_lookup. Qed.

(** Writing an entry of a table. *)
Lemma boot_set_pte d T s i t j v : boot_ok d T s -> T !! i = Some t -> boot_ok d T (put_mem (<[(t, j) := v]> (pg_mem s)) s).
Proof.
  intros [H1 H2 H3 H4 H5 H6 H7 H8 H9 H10] Ht. split; try done. intros k Hk. simpl.
  rewrite !word_insert_ne; [by apply H5|]. intros [= E _]. by destruct (H6 _ _ Ht) as (_ & _ & ?).
Qed.

(** A new table, which is empty. *)
Lemma boot_new_table d T s i t v fr : boot_ok d T s -> T !! i = None -> 0 <= i < 1023 ->
  t ∉ fr_live (pg_frames s) -> frame_ok t -> fr_ok fr -> fr_live fr = {[t]} ∪ fr_live (pg_frames s) ->
  present v = true /\ entry_addr v = t ->
  boot_ok d (<[i := t]> T) (put_mem (zero_frame t (<[(d, i) := v]> (pg_mem s))) (put_frames fr s)).
Proof.
  intros [H1 H2 H3 H4 H5 H6 H7 H8 H9 H10] Hn Hi Ht Hf Hok Hlv Hv. assert (Htd : t <> d) by congruence. split; simpl; try done.
  - intros k Hk. rewrite word_zero_frame, bool_decide_false by (intros [E _]; congruence). destruct (decide (k = i)) as [->|Hne].
    + by rewrite lookup_insert_eq, word_insert_eq.
    + rewrite lookup_insert_ne, word_insert_ne by congruence. by apply H5.
  - intros k u [[<- <-]|[_ Hu]]%lookup_insert_Some; [done|by apply (H6 _ _ Hu)].
  - intros k k' u [[<- <-]|[Hne Hu]]%lookup_insert_Some [[<- ?]|[Hne' Hu']]%lookup_insert_Some; try done.
    + exfalso. by apply Ht, (H10 _ _ Hu').
    + subst u. exfalso. by apply Ht, (H10 _ _ Hu).
    + by apply (H7 _ _ u).
  - rewrite Hlv. by apply elem_of_union_r.
  - rewrite Hlv. intros k u [[<- <-]|[_ Hu]]%lookup_insert_Some; [clear; set_solver|]. by apply elem_of_union_r, (H10 _ _ Hu).
Qed.

Lemma off_table map s d i : pg_paging s = false -> frame_ok d -> 0 <= i < 1024 ->
  get_page_table_with c map (to_virt (d * 4096)) i s = Ok (to_virt (entry_addr (word (pg_mem s) d i) * 4096), s).
Proof.
  intros Hp Hd Hi. unfold get_page_table_with, cpu_paging_enabled, gets, bind. rewrite Hp. simpl.
  rewrite off_get by done. rewrite Z.shiftl_mul_pow2 by lia. done.
Qed.

Lemma boot_table_run map d T s i t : boot_ok d T s -> T !! i = Some t ->
  get_page_table_with c map (to_virt (d * 4096)) i s = Ok (to_virt (t * 4096), s).
Proof.
  intros Hb Ht. destruct (bo_tab _ _ _ Hb _ _ Ht) as (Hi & Hf & _). pose proof (bo_pde _ _ _ Hb i Hi) as Hp. rewrite Ht in Hp.
  rewrite off_table; [by rewrite (proj2 Hp)|apply Hb|apply Hb|lia].
Qed.

(** The pages after one more is mapped. *)
Definition boot_mapped (d vp pte : Z) (m m' : pmem) : Prop :=
  forall v, 0 <= v < 1023 * 1024 -> lookup_page m' d v = if decide (v = vp) then Some pte else lookup_page m d v.

Lemma boot_parts v : 0 <= v < 1023 * 1024 -> v = v / 1024 * 1024 + v mod 1024 /\ 0 <= v / 1024 < 1023 /\ 0 <= v mod 1024 < 1024.
Proof. intros Hv. Z.to_euclidean_division_equations; lia. Qed.

(** The entry of an unmapped page of a table is written. *)
Lemma boot_write d T s i t j pte : boot_ok d T s -> T !! i = Some t -> 0 <= j < 1024 -> present pte = true ->
  boot_mapped d (i * 1024 + j) pte (pg_mem s) (<[(t, j) := pte]> (pg_mem s)).
Proof.
  intros Hb Ht Hj Hp v Hv. destruct (boot_parts v Hv) as (Ev & Hvi & Hvj). pose proof (boot_set_pte _ _ _ _ _ j pte Hb Ht) as Hb'.
  rewrite Ev. rewrite (boot_page_lookup _ _ _ _ _ Hb Hvi Hvj). rewrite (boot_lookup_put _ _ _ _ _ _ Hb' Hvi Hvj).
  destruct (decide (v / 1024 * 1024 + v mod 1024 = i * 1024 + j)) as [E|Hne].
  - assert (v / 1024 = i /\ v mod 1024 = j) as [-> ->] by lia. rewrite Ht, word_insert_eq. by rewrite Hp.
  - destruct (T !! (v / 1024)) as [u|] eqn:Eu; [|done]. rewrite word_insert_ne; [done|]. intros [= -> E].
    pose proof (bo_inj _ _ _ Hb _ _ _ Ht Eu). subst. by apply Hne.
Qed.

Lemma boot_table_empty d T s i t v fr vp : boot_ok d T s -> T !! i = None -> 0 <= i < 1023 -> t <> d -> (forall k, T !! k <> Some t) ->
  boot_ok d (<[i := t]> T) (put_mem (zero_frame t (<[(d, i) := v]> (pg_mem s))) (put_frames fr s)) -> 0 <= vp < 1023 * 1024 ->
  lookup_page (zero_frame t (<[(d, i) := v]> (pg_mem s))) d vp = lookup_page (pg_mem s) d vp.
Proof.
  intros Hb Hn Hi Htd Hfresh Hb' Hv. destruct (boot_parts vp Hv) as (Ev & Hvi & Hvj). rewrite Ev.
  rewrite (boot_page_lookup _ _ _ _ _ Hb Hvi Hvj). rewrite (boot_lookup_put _ _ _ _ _ _ Hb' Hvi Hvj).
  destruct (decide (vp / 1024 = i)) as [->|Hne].
  - rewrite lookup_insert_eq, Hn, word_zero_frame, bool_decide_true by done. done.
  - rewrite lookup_insert_ne by done. destruct (T !! (vp / 1024)) as [u|] eqn:Eu; [|done].
    assert (u <> t) by (intros ->; by apply (Hfresh (vp / 1024))).
    rewrite word_zero_frame, bool_decide_false by naive_solver. rewrite word_insert_ne; [done|]. intros [= -> _].
    by destruct (bo_tab _ _ _ Hb _ _ Eu) as (_ & _ & ?).
Qed.

Definition boot_map_post (d : Z) (T : gmap Z Z) s (vp pte : Z) (r : bool) s' : Prop :=
  r = true -> exists T', boot_ok d T' s' /\ same_rest s s' /\ boot_mapped d vp pte (pg_mem s) (pg_mem s') /\
    (forall i, is_Some (T' !! i) <-> is_Some (T !! i) \/ i = vp / 1024).

Lemma boot_write_run d T s i t j f flags :
  boot_ok d T s -> T !! i = Some t -> 0 <= j < 1024 -> frame_ok f -> lookup_page (pg_mem s) d (i * 1024 + j) = None ->
  write_pte junk (to_virt (t * 4096)) (f * 4096) (i * 2 ^ 22 + j * 4096) flags s =
    Ok (true, put_mem (<[(t, j) := pte_val (new_pte junk (f * 4096) flags)]> (pg_mem s)) s).
Proof.
  intros Hb Ht Hj Hf Hl. destruct (bo_tab _ _ _ Hb _ _ Ht) as (Hi & Hft & _). rewrite (boot_page_lookup _ _ _ _ _ Hb Hi Hj), Ht in Hl.
  unfold write_pte. destruct (vaddr_index i j ltac:(lia) Hj) as (_ & -> & _).
  erewrite bind_ok by (apply off_get; [apply Hb|done|lia]). destruct (present (word (pg_mem s) t j)); [done|]. simpl.
  erewrite bind_ok by done. by erewrite bind_ok by (apply off_set; [apply Hb|done|lia]).
Qed.

Lemma boot_map_new d T s i j f flags :
  let pte := pte_val (new_pte junk (f * 4096) flags) in
  boot_ok d T s -> T !! i = None -> 0 <= i < 1023 -> 0 <= j < 1024 -> frame_ok f ->
  lookup_page (pg_mem s) d (i * 1024 + j) = None ->
  wpx fr_fault
    (do page_table_allocated <-
       (do new_table <- alloc_page_table;
        if new_table =? NO_FRAME then SET_ERROR KERNEL_ADDR_SPACE "Cannot allocate new page table" ENONE;;; ret None
        else
          set_entry (to_virt (d * 4096)) i (pde_val (new_pde junk new_table (flag flags VM_USER)));;;
          ret (Some true));
     match page_table_allocated with
     | None => ret false
     | Some allocated =>
         do page_table <- get_page_table c KERNEL_ADDR_SPACE junk (to_virt (d * 4096)) i;
         when allocated (memzero_page page_table);;;
         write_pte junk page_table (f * 4096) (i * 2 ^ 22 + j * 4096) flags
     end) (boot_map_post d T s (i * 1024 + j) pte) s.
Proof.
  intros pte Hb Hn Hi Hj Hf Hl. destruct (new_pte_fields junk f flags Hf) as [Hpv _]. fold pte in Hpv.
  eapply wpx_bind, wpx_bind, wpx_mono; [apply alloc_page_table_spec, Hb|].
  intros q s1 (fr & -> & Hok & [[-> Hlv]|(t & -> & Hft & Ht & Hlv)]); [by eapply wpx_bind_ok|].
  rewrite no_frame_ne by done. eapply wpx_bind_ok; [apply off_set; [apply Hb|apply Hb|lia]|]. apply wpx_ret.
  set (v := pde_val _). pose proof (new_pde_fields junk t (flag flags VM_USER) Hft) as Hv. fold v in Hv.
  pose proof (boot_new_table d T s i t v fr Hb Hn Hi Ht Hft Hok Hlv Hv) as Hb2. set (T2 := <[i := t]> T) in *.
  assert (Htd : t <> d) by (intros ->; by apply Ht, Hb).
  assert (Hfresh : forall k, T !! k <> Some t) by (intros k Hk; by apply Ht, (bo_live _ _ _ Hb _ _ Hk)).
  assert (Ht2 : T2 !! i = Some t) by apply lookup_insert_eq.
  change (pg_mem (put_frames fr s)) with (pg_mem s). set (s2 := put_mem (<[(d, i) := v]> (pg_mem s)) (put_frames fr s)).
  eapply wpx_bind_ok.
  { apply (off_table _ s2 d i); [apply Hb|apply Hb|lia]. }
  simpl pg_mem. rewrite word_insert_eq, (proj2 Hv). eapply wpx_bind_ok; [apply (off_memzero s2); [apply Hb|done]|]. set (s3 := put_mem _ s2).
  change (boot_ok d T2 s3) in Hb2. unfold wpx.
  assert (Hl3 : forall vp, 0 <= vp < 1023 * 1024 -> lookup_page (pg_mem s3) d vp = lookup_page (pg_mem s) d vp).
  { intros vp Hvp. by apply (boot_table_empty d T s i t v fr). }
  rewrite (boot_write_run d T2 s3 i t j f flags Hb2 Ht2 Hj Hf) by (rewrite Hl3 by lia; done).
  intros _. exists T2. split; [by apply (boot_set_pte _ _ _ i)|]. split; [done|]. split.
  - intros w Hw. etrans; [apply (boot_write d T2 s3 i t j pte Hb2 Ht2 Hj Hpv w Hw)|]. by rewrite Hl3.
  - intros k. destruct (page_join i j Hj) as [-> _]. subst T2. destruct (decide (k = i)) as [->|Hne]; [rewrite lookup_insert_eq|rewrite lookup_insert_ne by done]; naive_solver.
Qed.

Lemma boot_map_spec d T s vp f flags :
  let pte := pte_val (new_pte junk (f * 4096) flags) in
  boot_ok d T s -> 0 <= vp < 1023 * 1024 -> frame_ok f -> lookup_page (pg_mem s) d vp = None ->
  wpx fr_fault (map_page_in c KERNEL_ADDR_SPACE junk KERNEL_ADDR_SPACE (f * 4096) (vp * 4096) flags) (boot_map_post d T s vp pte) s.
Proof.
  intros pte Hb Hv Hf Hl. destruct (boot_parts vp Hv) as (Ev & Hi & Hj). set (i := vp / 1024) in *. set (j := vp mod 1024) in *.
  destruct (new_pte_fields junk f flags Hf) as [Hpv _]. fold pte in Hpv.
  replace (vp * 4096) with (i * 2 ^ 22 + j * 4096) by (rewrite Ev; lia). destruct (vaddr_index i j ltac:(lia) Hj) as (Ep & _ & Ea).
  change (map_page_in c KERNEL_ADDR_SPACE junk) with (map_page_in_with c KERNEL_ADDR_SPACE junk (map_page_in_fuel c KERNEL_ADDR_SPACE junk 1)).
  unfold map_page_in_with. rewrite Ep, Ea, frame_aligned, Z.eqb_refl by done. do 3 (eapply wpx_bind_ok; [done|]).
  eapply wpx_bind_ok.
  { destruct (bo_space _ _ _ Hb) as (x & Hx & Ex). unfold get_page_dir_with, cpu_paging_enabled, gets, bind, get_space, must.
    rewrite (bo_off _ _ _ Hb). simpl. rewrite Hx. unfold ret. by rewrite Ex. }
  eapply wpx_bind_ok; [done|]. rewrite (bo_off _ _ _ Hb). eapply wpx_bind_ok; [done|].
  eapply wpx_bind_ok; [apply off_get; [apply Hb|apply Hb|lia]|]. pose proof (bo_pde _ _ _ Hb i Hi) as Hp.
  destruct (T !! i) as [t|] eqn:Et.
  - rewrite (proj1 Hp). eapply wpx_bind_ok; [done|]. eapply wpx_bind_ok; [by apply (boot_table_run _ d T)|]. eapply wpx_bind_ok; [done|].
    unfold wpx. rewrite Ev in Hl. pose proof (boot_write_run d T s i t j f flags Hb Et Hj Hf Hl) as Hrun. unfold write_pte in Hrun. rewrite Hrun.
    intros _. exists T. split; [by apply (boot_set_pte _ _ _ i)|]. split; [done|]. split; [rewrite Ev; by apply (boot_write _ T)|].
    intros k. fold i. split; [by left|]. intros [?| ->]; [done|by exists t].
  - rewrite Hp. rewrite Ev in Hl |- *. by apply boot_map_new.
Qed.

(** ** The mappings of the kernel *)

Definition boot_panics : list string :=
  ["Not enough physical memory to even initialize paging ??"; "Cannot create higher half mapping"; "Cannot create identity mapping";
   "Cannot allocated temp mapping page table"; "Cannot pre-allocate kernel page tables"].

(** What stops the boot: an allocation that faults, or no memory. *)
Definition boot_halt (h : halt) : Prop := fr_fault h \/ exists msg, msg ∈ boot_panics /\ h = Panic msg.

Lemma boot_panic {A} msg (Q : A -> pgst F -> Prop) s : bool_decide (msg ∈ boot_panics) = true -> wpx boot_halt (panic msg) Q s.
Proof. intros Hm%bool_decide_eq_true. right. by exists msg. Qed.

Lemma wpx_fault {A} (m : M (pgst F) A) Q s : wpx fr_fault m Q s -> wpx boot_halt m Q s.
Proof. unfold wpx. destruct (m s) as [[]|h]; [done|]. intros Hh. by left. Qed.

Section Identity.
Context (sec : sections) (d : Z).
Abbreviation n := (kernel_page_count sec).
Hypothesis Hn : 0 <= n <= 254 * 1024.

(** The entry of the [i]-th page of the kernel. *)
Definition kernel_pte (i : Z) : Z :=
  pte_val (new_pte junk (i * 4096) (kernel_page_flags sec (KERNEL_PHY_OFFSET + i * PAGE_SIZE))).

(** The pages up to the [k]-th at both addresses, the one at its physical
    address only up to the [l]-th. *)
Definition kernel_pages (k l v : Z) : option Z :=
  if decide (768 * 1024 <= v < 768 * 1024 + k) then Some (kernel_pte (v - 768 * 1024))
  else if decide (0 <= v < l) then Some (kernel_pte v) else None.

Record built (k l : Z) (s0 : pgst F) s : Prop := {
  bu_boot : exists T, boot_ok d T s /\
    forall i, is_Some (T !! i) <-> (0 <= i /\ i * 1024 < l) \/ (768 <= i /\ (i - 768) * 1024 < k);
  bu_pages : forall v, 0 <= v < 1023 * 1024 -> lookup_page (pg_mem s) d v = kernel_pages k l v;
  bu_rest : same_rest s0 s }.

Lemma map_kernel_page k l s0 s vp i :
  built k l s0 s -> 0 <= l <= k -> k <= n -> 0 <= i < n -> 0 <= vp < 1022 * 1024 -> kernel_pages k l vp = None ->
  wpx fr_fault (map_page_in c KERNEL_ADDR_SPACE junk (pg_curr s0) (i * 4096) (vp * 4096)
      (kernel_page_flags sec (KERNEL_PHY_OFFSET + i * PAGE_SIZE)))
    (fun r s' => r = true -> exists T T', boot_ok d T s /\ boot_ok d T' s' /\ same_rest s0 s' /\
      (forall i, is_Some (T !! i) <-> (0 <= i /\ i * 1024 < l) \/ (768 <= i /\ (i - 768) * 1024 < k)) /\
      (forall i, is_Some (T' !! i) <-> is_Some (T !! i) \/ i = vp / 1024) /\
      forall v, 0 <= v < 1023 * 1024 -> lookup_page (pg_mem s') d v = if decide (v = vp) then Some (kernel_pte i) else kernel_pages k l v) s.
Proof.
  intros [(T & Hb & HT) Hp Hr] Hl Hk Hi Hv Hnone. rewrite <- (sr_curr _ _ Hr), (bo_curr _ _ _ Hb).
  eapply wpx_mono; [apply (boot_map_spec d T s vp i); [done|lia|unfold frame_ok; lia|by rewrite Hp by lia]|].
  intros r s' Hpost Er. destruct (Hpost Er) as (T' & Hb' & Hr' & Hm & HT'). exists T, T'.
  split_and!; [done|done|by eapply same_rest_trans|done|done|]. intros v Hvr. rewrite Hm by done. by rewrite Hp.
Qed.

Lemma built_high k s0 s : built k k s0 s -> 0 <= k < n ->
  wpx fr_fault (map_page_in c KERNEL_ADDR_SPACE junk (pg_curr s0) (k * 4096) ((768 * 1024 + k) * 4096)
      (kernel_page_flags sec (KERNEL_PHY_OFFSET + k * PAGE_SIZE)))
    (fun r s' => r = true -> built (k + 1) k s0 s') s.
Proof.
  intros Hb Hk. eapply wpx_mono; [apply (map_kernel_page k k s0 s (768 * 1024 + k) k Hb); try lia|].
  { unfold kernel_pages. rewrite !decide_False by lia. done. }
  intros r s' Hpost Er. destruct (Hpost Er) as (T & T' & _ & Hb' & Hr' & HT & HT' & Hp). split; [| |done].
  - exists T'. split; [done|]. intros i. rewrite HT', HT. Z.to_euclidean_division_equations; lia.
  - intros v Hv. rewrite Hp by done. unfold kernel_pages. destruct (decide (v = 768 * 1024 + k)) as [->|Hne].
    + rewrite decide_True by lia. f_equal. f_equal. lia.
    + destruct (decide (768 * 1024 <= v < 768 * 1024 + k)); [by rewrite decide_True by lia|by rewrite (decide_False (P := 768 * 1024 <= v < _)) by lia].
Qed.

Lemma built_low k s0 s : built (k + 1) k s0 s -> 0 <= k < n ->
  wpx fr_fault (map_page_in c KERNEL_ADDR_SPACE junk (pg_curr s0) (k * 4096) (k * 4096)
      (kernel_page_flags sec (KERNEL_PHY_OFFSET + k * PAGE_SIZE)))
    (fun r s' => r = true -> built (k + 1) (k + 1) s0 s') s.
Proof.
  intros Hb Hk. eapply wpx_mono; [apply (map_kernel_page (k + 1) k s0 s k k Hb); try lia|].
  { unfold kernel_pages. rewrite !decide_False by lia. done. }
  intros r s' Hpost Er. destruct (Hpost Er) as (T & T' & _ & Hb' & Hr' & HT & HT' & Hp). split; [| |done].
  - exists T'. split; [done|]. intros i. rewrite HT', HT. Z.to_euclidean_division_equations; lia.
  - intros v Hv. rewrite Hp by done. unfold kernel_pages. destruct (decide (v = k)) as [->|Hne].
    + rewrite (decide_False (P := 768 * 1024 <= k < _)), decide_True by lia. done.
    + destruct (decide (768 * 1024 <= v < 768 * 1024 + (k + 1))); [done|].
      destruct (decide (0 <= v < k)); [by rewrite decide_True by lia|by rewrite decide_False by lia].
Qed.

Lemma kernel_mappings_spec s0 : built 0 0 s0 s0 ->
  wpx boot_halt (create_identity_and_higher_half_mappings c KERNEL_ADDR_SPACE junk sec) (fun _ => built n n s0) s0.
Proof.
  intros Hb0. unfold create_identity_and_higher_half_mappings. eapply wpx_bind_ok; [done|].
  apply (wpx_range boot_halt (fun k => built k k s0)); [lia|done|]. intros k s Hk Hb. cbv zeta.
  assert (Ep : to_phys (KERNEL_PHY_OFFSET + k * PAGE_SIZE) = k * 4096) by (unfold to_phys, KERNEL_PHY_OFFSET, PAGE_SIZE; rewrite u32_id; lia).
  rewrite Ep. replace (KERNEL_PHY_OFFSET + k * PAGE_SIZE) with ((768 * 1024 + k) * 4096) at 1 by (unfold KERNEL_PHY_OFFSET, PAGE_SIZE; lia).
  apply wpx_bind, wpx_fault. eapply wpx_mono; [by apply built_high|]. intros r s1 Hb1.
  destruct r; [|by apply wpx_bind, boot_panic]. eapply wpx_bind_ok; [done|].
  apply wpx_bind, wpx_fault. eapply wpx_mono; [by apply built_low, Hk; apply Hb1|]. intros r s2 Hb2.
  destruct r; [|by apply boot_panic]. apply wpx_ret. by apply Hb2.
Qed.

(** ** The recursive entry and the tables of the kernel *)

(** The tables are those of the mappings, of the temporary mappings if [temp],
    and of the kernel up to the entry [k]. *)
Definition has_table (temp : bool) (k i : Z) : Prop :=
  (0 <= i /\ i * 1024 < n) \/ (768 <= i /\ (i - 768) * 1024 < n) \/ (temp = true /\ i = 1022) \/ 768 <= i < k.

Record prepared (temp : bool) (k : Z) (s0 : pgst F) s : Prop := {
  pr_boot : exists T, boot_ok d T s /\ forall i, is_Some (T !! i) <-> has_table temp k i;
  pr_pages : forall v, 0 <= v < 1023 * 1024 -> lookup_page (pg_mem s) d v = kernel_pages n n v;
  pr_rec : present (word (pg_mem s) d 1023) = true /\ entry_addr (word (pg_mem s) d 1023) = d;
  pr_rest : same_rest s0 s }.

Lemma shiftr_frame f : Z.shiftr (f * 4096) 12 = f.
Proof. rewrite shiftr12, Z.div_mul; lia. Qed.

Lemma recursive_entry_spec s0 s : built n n s0 s ->
  wp (create_recursive_entry junk (to_virt (d * 4096))) (fun _ => prepared false 768 s0) s.
Proof.
  intros [(T & Hb & HT) Hp Hr]. pose proof (bo_dir _ _ _ Hb) as Hd. unfold create_recursive_entry, wp. change RECURSIVE_PDE_IDX with 1023.
  assert (Et : to_phys (to_virt (d * 4096)) = d * 4096) by (unfold to_phys, to_virt, frame_ok in *; dlia).
  rewrite Et, shiftr_frame, off_set by (done || apply Hb). set (v := pde_val _).
  assert (Hv : present v = true /\ entry_addr v = d).
  { subst v. destruct (pde_val_fields (mk_pde 1 1 0 1 1 0 junk d)) as [-> ->]. simpl. split; [done|]. by apply Z.mod_small. }
  assert (Hb' : boot_ok d T (put_mem (<[(d, 1023) := v]> (pg_mem s)) s)).
  { destruct Hb as [H1 H2 H3 H4 H5 H6 H7 H8 H9 H10]. split; try done. intros i Hi. simpl. rewrite word_insert_ne by (intros [= E]; lia). by apply H5. }
  split.
  - exists T. split; [done|]. intros i. rewrite HT. unfold has_table. lia.
  - intros w Hw. rewrite <- Hp by done. destruct (boot_parts w Hw) as (Ew & Hi & Hj). rewrite Ew.
    rewrite (boot_page_lookup _ _ _ _ _ Hb Hi Hj), (boot_page_lookup _ _ _ _ _ Hb' Hi Hj). cbn [pg_mem put_mem]. destruct (T !! (w / 1024)) as [t|] eqn:Et'; [|done].
    rewrite word_insert_ne; [done|]. intros [= -> _]. by destruct (bo_tab _ _ _ Hb _ _ Et') as (_ & _ & ?).
  - simpl. by rewrite word_insert_eq.
  - destruct Hr. by split.
Qed.

(** A table allocated, zeroed and entered into the directory. *)
Lemma add_kernel_table temp k s0 s i v t fr T :
  prepared temp k s0 s -> boot_ok d T s -> (forall i, is_Some (T !! i) <-> has_table temp k i) -> T !! i = None -> 0 <= i < 1023 ->
  t ∉ fr_live (pg_frames s) -> frame_ok t -> fr_ok fr -> fr_live fr = {[t]} ∪ fr_live (pg_frames s) ->
  present v = true /\ entry_addr v = t ->
  let s' := put_mem (<[(d, i) := v]> (zero_frame t (pg_mem s))) (put_frames fr s) in
  boot_ok d (<[i := t]> T) s' /\ (forall v, 0 <= v < 1023 * 1024 -> lookup_page (pg_mem s') d v = kernel_pages n n v) /\
  (present (word (pg_mem s') d 1023) = true /\ entry_addr (word (pg_mem s') d 1023) = d) /\ same_rest s0 s'.
Proof.
  intros [_ Hp Hrec Hr] Hb HT Hn' Hi Ht Hf Hok Hlv Hv s'. assert (Htd : t <> d) by (intros ->; by apply Ht, Hb).
  pose proof (boot_new_table d T s i t v fr Hb Hn' Hi Ht Hf Hok Hlv Hv) as Hb2. set (s2 := put_mem _ _) in Hb2.
  assert (Hw : forall g j, word (pg_mem s') g j = word (pg_mem s2) g j).
  { intros g j. subst s' s2. cbn [pg_mem put_mem]. rewrite (word_zero_frame t (<[(d, i) := v]> (pg_mem s))). destruct (decide ((d, i) = (g, j))) as [[= <- <-]|Hne].
    - rewrite word_insert_eq, bool_decide_false by (intros [E _]; congruence). by rewrite word_insert_eq.
    - rewrite !word_insert_ne by done. by rewrite word_zero_frame. }
  assert (Hb' : boot_ok d (<[i := t]> T) s').
  { destruct Hb2 as [H1 H2 H3 H4 H5 H6 H7 H8 H9 H10]. split; try done. intros j Hj. rewrite Hw. by apply H5. }
  split; [done|]. split; [|split].
  - intros w Hw'. rewrite <- Hp by done. rewrite <- (boot_table_empty d T s i t v fr w); try done.
    + apply lookup_page_eq; intros; apply Hw.
    + intros j Hj. by apply Ht, (bo_live _ _ _ Hb _ _ Hj).
  - rewrite Hw. subst s2. cbn [pg_mem put_mem]. rewrite word_zero_frame, bool_decide_false by (intros [E _]; congruence). rewrite word_insert_ne by (intros [= E]; lia). done.
  - destruct Hr. by split.
Qed.

Lemma temp_entry_spec s0 s : prepared false 768 s0 s ->
  wpx boot_halt (create_temp_mapping_entry junk (to_virt (d * 4096))) (fun _ => prepared true 768 s0) s.
Proof.
  intros Hpr. pose proof Hpr as [(T & Hb & HT) _ _ _]. unfold create_temp_mapping_entry.
  apply wpx_bind, wpx_fault. eapply wpx_mono; [apply alloc_page_table_spec, Hb|].
  intros q s1 (fr & -> & Hok & [[-> Hlv]|(t & -> & Hft & Ht & Hlv)]); [by apply wpx_bind, boot_panic|].
  rewrite no_frame_ne by done. eapply wpx_bind_ok; [done|]. eapply wpx_bind_ok; [apply off_memzero; [apply Hb|done]|].
  assert (Hno : T !! 1022 = None).
  { apply eq_None_not_Some. rewrite HT. unfold has_table. intros [?|[?|[[? _]|?]]]; (done || lia). }
  assert (Htd : t <> d) by (intros ->; by apply Ht, Hb).
  eapply wpx_bind_ok; [apply off_get; [apply Hb|apply Hb|done]|].
  pose proof (bo_pde _ _ _ Hb 1022 ltac:(lia)) as Hp. rewrite Hno in Hp. change TEMP_MAP_PDE_IDX with 1022.
  apply wpx_bind, wpx_assert.
  { cbn [pg_mem put_mem]. rewrite word_zero_frame, bool_decide_false by (intros [E _]; congruence). cbn [pg_mem put_frames]. by rewrite Hp. }
  unfold wpx. rewrite off_set by (apply Hb || done). rewrite shiftr_frame. set (v := pde_val _).
  assert (Hv : present v = true /\ entry_addr v = t).
  { subst v. destruct (pde_val_fields (mk_pde 1 1 0 1 1 junk junk t)) as [-> ->]. simpl. split; [done|]. by apply Z.mod_small. }
  destruct (add_kernel_table false 768 s0 s 1022 v t fr T Hpr Hb HT Hno ltac:(lia) Ht Hft Hok Hlv Hv) as (Hb' & Hp' & Hr' & Hrest).
  split; [|done|done|done]. exists (<[1022 := t]> T). split; [done|]. intros i. destruct (decide (i = 1022)) as [->|Hne].
  - rewrite lookup_insert_eq. unfold has_table. split; [intros _; tauto|by exists t].
  - rewrite lookup_insert_ne, HT by done. unfold has_table. intuition congruence.
Qed.

Lemma prealloc_step k s0 s : prepared true k s0 s -> 768 <= k < 1022 ->
  wpx boot_halt (do e <- get_entry (to_virt (d * 4096)) k;
    if present e then ret tt
    else
      do page_table <- zoom pg_frames put_frames fr_alloc;
      when (page_table =? NO_FRAME) (panic "Cannot pre-allocate kernel page tables");;;
      memzero_page (to_virt page_table);;;
      set_entry (to_virt (d * 4096)) k (pde_val (new_pde junk page_table 0))) (fun _ => prepared true (k + 1) s0) s.
Proof.
  intros Hpr Hk. pose proof Hpr as [(T & Hb & HT) Hpp Hpc Hpd]. pose proof (bo_pde _ _ _ Hb k ltac:(lia)) as Hp.
  eapply wpx_bind_ok; [apply off_get; [apply Hb|apply Hb|lia]|]. destruct (T !! k) as [u|] eqn:Eu.
  - rewrite (proj1 Hp). apply wpx_ret. split; [|done|done|done]. exists T. split; [done|]. intros i. rewrite HT.
    assert (Hhk : has_table true k k) by (apply HT; by rewrite Eu). unfold has_table in *. intuition lia.
  - rewrite Hp. apply wpx_bind, wpx_fault. eapply wpx_mono; [apply alloc_page_table_spec, Hb|].
    intros q s1 (fr & -> & Hok & [[-> Hlv]|(t & -> & Hft & Ht & Hlv)]); [by apply wpx_bind, boot_panic|].
    rewrite no_frame_ne by done. eapply wpx_bind_ok; [done|]. eapply wpx_bind_ok; [apply off_memzero; [apply Hb|done]|].
    unfold wpx. rewrite off_set by (apply Hb || lia). pose proof (new_pde_fields junk t 0 Hft) as Hv.
    destruct (add_kernel_table true k s0 s k _ t fr T Hpr Hb HT Eu ltac:(lia) Ht Hft Hok Hlv Hv) as (Hb' & Hp' & Hr' & Hrest).
    split; [|done|done|done]. exists (<[k := t]> T). split; [done|]. intros i. destruct (decide (i = k)) as [->|Hne].
    + rewrite lookup_insert_eq. unfold has_table. split; [intros _; right; right; right; lia|by exists t].
    + rewrite lookup_insert_ne, HT by done. unfold has_table. intuition lia.
Qed.

Lemma preallocate_spec s0 s : prepared true 768 s0 s ->
  wpx boot_halt (preallocate_kernel_page_table junk (to_virt (d * 4096))) (fun _ => prepared true 1022 s0) s.
Proof.
  intros Hp. apply (wpx_range boot_halt (fun k => prepared true k s0)); [done|done|]. intros k s1 Hk Hp1. by apply prealloc_step.
Qed.

(** ** Paging is enabled *)

Definition boot_owner (i : Z) : owner := if decide (i < 768) then OTab d i else OKTab i.

Definition boot_layout (T : gmap Z Z) : layout :=
  mk_layout (list_to_map ((d, ODir) :: map (fun p => (p.2, boot_owner p.1)) (map_to_list T))) (fun i => default 0 (T !! i)).

Lemma boot_layout_own T s f o : boot_ok d T s ->
  own (boot_layout T) !! f = Some o <-> (f = d /\ o = ODir) \/ exists i, T !! i = Some f /\ o = boot_owner i.
Proof.
  intros Hb. unfold boot_layout, own. rewrite <- elem_of_list_to_map.
  - rewrite elem_of_cons, list_elem_of_In, in_map_iff. split.
    + intros [[= -> ->]|([i t] & [= <- <-] & Hin)]; [by left|right]. apply list_elem_of_In, elem_of_map_to_list in Hin. by exists i.
    + intros [[-> ->]|(i & Hi & ->)]; [by left|right]. exists (i, f). split; [done|]. by apply list_elem_of_In, elem_of_map_to_list.
  - simpl. apply NoDup_cons. split.
    + intros Hin. apply list_elem_of_fmap in Hin as ([f' o'] & E & Hin). simpl in E. subst f'.
      apply list_elem_of_In, in_map_iff in Hin as ([i t] & [= -> _] & Hin). apply list_elem_of_In, elem_of_map_to_list in Hin.
      by destruct (bo_tab _ _ _ Hb _ _ Hin) as (_ & _ & ?).
    + rewrite <- list_fmap_compose. apply NoDup_fmap_2_strong; [|apply NoDup_map_to_list].
      intros [i t] [j u] Hi%elem_of_map_to_list Hj%elem_of_map_to_list E. simpl in E. subst u. by rewrite (bo_inj _ _ _ Hb _ _ _ Hi Hj).
Qed.

Lemma enabled_mem_inv s0 s T : prepared true 1022 s0 s -> boot_ok d T s -> (forall i, is_Some (T !! i) <-> has_table true 1022 i) ->
  mem_inv (boot_layout T) (pg_mem s).
Proof.
  intros Hpr Hb HT. pose proof (fun f o => boot_layout_own T s f o Hb) as Ho.
  assert (Hdir : forall e, is_dir (boot_layout T) e -> e = d).
  { intros e [[-> _]|(i & _ & E)]%Ho; [done|]. unfold boot_owner in E. by case_decide. }
  assert (Hpde : forall i t, T !! i = Some t -> present (word (pg_mem s) d i) = true /\ entry_addr (word (pg_mem s) d i) = t).
  { intros i t Hi. destruct (bo_tab _ _ _ Hb _ _ Hi) as (Hr & _). pose proof (bo_pde _ _ _ Hb i Hr) as Hp. by rewrite Hi in Hp. }
  assert (Hker : forall i, kernel_pde i -> exists t, T !! i = Some t).
  { intros i Hi. apply HT. unfold has_table. unfold kernel_pde in Hi. destruct (decide (i = 1022)); [tauto|]. right. right. right. lia. }
  split.
  - intros f o [[-> _]|(i & Hi & _)]%Ho; [apply Hb|]. by destruct (bo_tab _ _ _ Hb _ _ Hi) as (_ & ? & _).
  - intros e He. rewrite (Hdir e He). apply Hpr.
  - intros e i He Hi. rewrite (Hdir e He). destruct (Hker i Hi) as [t Ht]. simpl. rewrite Ht. by apply Hpde.
  - intros i Hi. destruct (Hker i Hi) as [t Ht]. apply Ho. right. exists i. simpl. rewrite Ht. split; [done|].
    unfold boot_owner. unfold kernel_pde in Hi. by rewrite decide_False by lia.
  - intros e i He Hi Hp. rewrite (Hdir e He) in *. apply Ho. right. exists i. unfold user_pde in Hi.
    pose proof (bo_pde _ _ _ Hb i ltac:(lia)) as Hpd. destruct (T !! i) as [t|] eqn:Et; [|congruence].
    rewrite (proj2 Hpd). split; [done|]. unfold boot_owner. by rewrite decide_True by lia.
  - intros f e i [[_ [=]]|(j & Hj & E)]%Ho. unfold boot_owner in E. case_decide; simplify_eq.
    destruct (bo_tab _ _ _ Hb _ _ Hj) as (Hr & _). split_and!; [apply Ho; by left|unfold user_pde; lia|apply (Hpde _ _ Hj)|apply (Hpde _ _ Hj)].
Qed.

(** The pages of the kernel, and at the physical addresses those of the tables
    from the [k]-th on. *)
Definition pages_from (k v : Z) : option Z :=
  if decide (v < k * 1024) then None else kernel_pages n n v.

Record cleaned (k : Z) (s0 : pgst F) s : Prop := {
  cl_inv : exists L, pg_inv L s /\ (forall e, is_dir L e <-> e = d) /\
    (forall f e i, own L !! f = Some (OTab e i) -> e = d /\ k <= i /\ i * 1024 < n) /\
    (forall i, user_pde i -> present (word (pg_mem s) d i) = true <-> k <= i /\ i * 1024 < n);
  cl_pages : forall v, 0 <= v < 1022 * 1024 -> lookup_page (pg_mem s) d v = pages_from k v;
  cl_cr3 : pg_cr3 s = d * 4096;
  cl_curr : pg_curr s = KERNEL_ADDR_SPACE;
  cl_spaces : pg_spaces s = pg_spaces s0;
  cl_if : pg_if s = pg_if s0 }.

Lemma clear_pde_step k s0 s : cleaned k s0 s -> 0 <= k -> k * 1024 < n ->
  wp (do e <- get_entry (REC 1023) k; ASSERT (present e) "page_dir->entry[i].present";;; set_entry (REC 1023) k 0)
    (fun _ => cleaned (k + 1) s0) s.
Proof.
  intros [(L & Hi & Hdir & Htab & Hpde) Hpg Hcr Hcur Hsp Hif] Hk0 Hk. assert (Hu : user_pde k) by (unfold user_pde; lia).
  pose proof (pi_mem _ _ Hi) as Hm. pose proof (proj2 (Hdir d) eq_refl) as Hd. pose proof (proj2 (Hpde k Hu) ltac:(lia)) as Hp.
  pose proof (sees_curr_dir L s (pi_core _ _ Hi)) as Hs. rewrite Hcr, Z.div_mul in Hs by lia.
  eapply wp_bind_ok; [apply (get_entry_run _ _ _ _ k Hs); lia|]. apply wp_bind, wp_assert; [done|].
  unfold wp. rewrite (set_entry_run _ _ _ _ k _ Hs) by lia. pose proof (mi_user _ _ Hm d k Hd Hu Hp) as Ho.
  set (t := entry_addr (word (pg_mem s) d k)) in *. assert (Hdir' : forall e, is_dir (del_table t L) e <-> e = d).
  { intros e. rewrite (del_table_dir L d k t Ho). apply Hdir. }
  split; [|  |done..].
  - exists (del_table t L). split_and!; [|done| |].
    + destruct Hi as [[H1 _ (x & e & Hx & Ex & He & Hde)] H3 H5 H6]. split; [split; [done|by apply mem_inv_del_table|]| |done|].
      * exists x, e. rewrite Hdir'. split_and!; [done..|]. by apply Hdir.
      * intros b y Hy. destruct (H3 b y Hy) as (e' & Ee & He'). exists e'. split; [done|]. apply Hdir'. by apply Hdir.
      * intros f o Hf. simpl in Hf. apply lookup_delete_Some in Hf as [_ Hf]. by apply (H6 _ _ Hf).
    + intros f e i Hf. simpl in Hf. apply lookup_delete_Some in Hf as [Hne Hf]. destruct (Htab f e i Hf) as (-> & Hi1 & Hi2).
      split_and!; [done| |done]. destruct (decide (i = k)) as [->|]; [|lia]. exfalso. apply Hne.
      destruct (mi_tab _ _ Hm _ _ _ Hf) as (_ & _ & _ & E). done.
    + intros i Hui. simpl. destruct (decide (i = k)) as [->|Hne].
      * rewrite word_insert_eq. split; [done|lia].
      * rewrite word_insert_ne by congruence. rewrite Hpde by done. lia.
  - intros v Hv. destruct (page_parts v Hv) as [Hri Hrj]. simpl. destruct (decide (v / 1024 = k)) as [Ek|Hne].
    + unfold lookup_page, pages_from. rewrite Ek, word_insert_eq, decide_True by (Z.to_euclidean_division_equations; lia). done.
    + transitivity (pages_from k v).
      * rewrite <- Hpg by done. apply lookup_page_eq; [apply word_insert_ne; congruence|]. intros Hpr. apply word_insert_ne. intros [= E _].
        by apply (table_not_dir _ _ Hm d (v / 1024) d Hd ltac:(lia) Hpr Hd).
      * unfold pages_from. destruct (decide (v < k * 1024)); [by rewrite decide_True by lia|].
        rewrite (decide_False (P := v < (k + 1) * 1024)) by (Z.to_euclidean_division_equations; lia). done.
Qed.

Lemma table_count : 0 <= KERNEL_END_ADDR sec - KERNEL_PHY_OFFSET < 2 ^ 30 ->
  ceil_x_over_y_u32 (ceil_x_over_y_u32 (to_phys (KERNEL_END_ADDR sec)) PAGE_SIZE) 1024 = (n + 1023) / 1024.
Proof.
  intros He. unfold to_phys. rewrite u32_id by lia. set (x := KERNEL_END_ADDR sec - KERNEL_PHY_OFFSET) in *.
  assert (E : ceil_x_over_y_u32 x PAGE_SIZE = n).
  { rewrite ceil_no_wrap by (unfold PAGE_SIZE; lia). unfold kernel_page_count. fold x. unfold PAGE_SIZE, b2z. destruct (_ =? _) eqn:E; simpl; Z.to_euclidean_division_equations; lia. }
  rewrite E, ceil_no_wrap by lia. unfold b2z. destruct (_ =? _) eqn:E2; simpl; Z.to_euclidean_division_equations; lia.
Qed.

Lemma enabled_clean s0 s x : prepared true 1022 s0 s -> pg_spaces s0 = {[KERNEL_ADDR_SPACE := x]} -> page_dir_phy_addr x = d * 4096 ->
  pg_cr3 s0 = d * 4096 -> pg_curr s0 = KERNEL_ADDR_SPACE -> cleaned 0 s0 (put_paging true s).
Proof.
  intros Hpr Hsp Hx Hcr Hcu. pose proof Hpr as [(T & Hb & HT) Hpg _ [E1 E2 E3 E4 E5 E6 E7]].
  pose proof (fun f o => boot_layout_own T s f o Hb) as Ho. pose proof (enabled_mem_inv s0 s T Hpr Hb HT) as Hm.
  assert (Hdir : forall e, is_dir (boot_layout T) e <-> e = d).
  { intros e. unfold is_dir. rewrite Ho. unfold boot_owner. split; [|by left]. intros [[-> _]|(i & _ & E)]; [done|]. by case_decide. }
  split; simpl; [| |congruence..].
  - exists (boot_layout T). split; [|split_and!; [done| |]].
    + split; [split; simpl; [done|done|]| |apply Hb|]; simpl.
      * exists x, d. rewrite E3, E4, E1, Hsp, Hcu, lookup_singleton_eq. split_and!; [done..|]. by apply Hdir.
      * rewrite E3, Hsp. intros a y [<- <-]%lookup_singleton_Some. exists d. split; [done|]. by apply Hdir.
      * intros f o [[-> _]|(i & Hi & _)]%Ho; [apply Hb|by apply (bo_live _ _ _ Hb _ _ Hi)].
    + intros f e i [[_ [=]]|(j & Hj & E)]%Ho. unfold boot_owner in E. case_decide; simplify_eq. split; [done|].
      assert (Hh : has_table true 1022 j) by (apply HT; by rewrite Hj). destruct (bo_tab _ _ _ Hb _ _ Hj) as (Hr & _). unfold has_table in Hh. lia.
    + intros i Hi. unfold user_pde in Hi. pose proof (bo_pde _ _ _ Hb i ltac:(lia)) as Hp. pose proof (HT i) as Hh. unfold has_table in Hh.
      destruct (T !! i) as [t|] eqn:Et.
      * rewrite (proj1 Hp). split; [|done]. intros _. assert (Hs : is_Some (Some t)) by done. apply Hh in Hs. lia.
      * rewrite Hp. split; [done|]. intros [_ Hlt]. assert (Hs : is_Some (None : option Z)) by (apply Hh; lia). by destruct Hs.
  - intros v Hv. rewrite Hpg by lia. unfold pages_from. by rewrite decide_False by lia.
Qed.

(** What [init_paging] leaves. *)
Record paging_ready s : Prop := {
  re_inv : exists L, pg_inv L s /\ tables_used L (pg_mem s) /\ forall e, is_dir L e <-> e = d;
  re_pages : forall v, 0 <= v < 1022 * 1024 ->
    lookup_page (pg_mem s) d v = if decide (768 * 1024 <= v < 768 * 1024 + n) then Some (kernel_pte (v - 768 * 1024)) else None;
  re_cr3 : pg_cr3 s = d * 4096;
  re_curr : pg_curr s = KERNEL_ADDR_SPACE }.

Lemma remove_identity_spec s0 s : 0 <= KERNEL_END_ADDR sec - KERNEL_PHY_OFFSET < 2 ^ 30 -> cleaned 0 s0 s ->
  wp (remove_identity_mapping c KERNEL_ADDR_SPACE junk sec;;; cpu_invalidate_tlb)
    (fun _ s' => paging_ready s' /\ pg_spaces s' = pg_spaces s0 /\ pg_if s' = pg_if s0) s.
Proof.
  intros He Hcl. apply wp_bind. unfold remove_identity_mapping, get_page_dir. eapply wp_bind_ok; [done|].
  destruct (cl_inv _ _ _ Hcl) as (L & Hi & _). eapply wp_bind_ok; [apply get_page_dir_curr, Hi|]. cbv zeta. rewrite table_count by done.
  eapply wp_mono; [apply (wp_for_range (fun k => cleaned k s0))|].
  - Z.to_euclidean_division_equations; lia.
  - done.
  - intros k s1 Hk Hcl1. apply clear_pde_step; [done|lia|]. Z.to_euclidean_division_equations; lia.
  - intros [] s1 [(L1 & Hi1 & Hdir & Htab & _) Hpg Hcr Hcu Hsp Hif]. apply wp_modify.
    assert (Hready : paging_ready s1).
    { split; [|  |done|done].
      - exists L1. split_and!; [done| |done]. intros f e i Hf. destruct (Htab f e i Hf) as (_ & H1 & H2). exfalso.
        Z.to_euclidean_division_equations; lia.
      - intros v Hv. rewrite Hpg by done. unfold pages_from, kernel_pages. destruct (decide (768 * 1024 <= v < 768 * 1024 + n)) as [Hin|Hout].
        + rewrite decide_False; [done|]. Z.to_euclidean_division_equations; lia.
        + destruct (decide (v < (n + 1023) / 1024 * 1024)); [done|]. rewrite decide_False; [done|]. Z.to_euclidean_division_equations; lia. }
    split_and!; [|done|done]. destruct Hready as [(L2 & [[] ? ? ?] & ? & ?) ? ? ?]. split; try done. by exists L2.
Qed.

End Identity.

(** ** The whole of [init_paging] *)

(** Before: the structure of the kernel address space is the only one, and the
    frame at address 0 is not handed out. *)
Record before_paging s : Prop := {
  bp_off : pg_paging s = false;
  bp_spaces : exists l, pg_spaces s = {[KERNEL_ADDR_SPACE := mk_as l NULL]};
  bp_ok : fr_ok (pg_frames s);
  bp_zero : 0 ∈ fr_live (pg_frames s) }.

Lemma boot_start d T s : pg_paging s = false -> T = ∅ -> (exists x, pg_spaces s !! KERNEL_ADDR_SPACE = Some x /\ page_dir_phy_addr x = d * 4096) ->
  pg_curr s = KERNEL_ADDR_SPACE -> frame_ok d -> fr_ok (pg_frames s) -> d ∈ fr_live (pg_frames s) ->
  (forall i, 0 <= i < 1024 -> word (pg_mem s) d i = 0) -> boot_ok d T s.
Proof. intros Hp -> Hx Hcu Hf Hok Hl Hz. split; try done. intros i Hi. rewrite lookup_empty, Hz by lia. done. Qed.

Lemma init_paging_spec sec s :
  before_paging s -> 0 <= KERNEL_END_ADDR sec - KERNEL_PHY_OFFSET <= 254 * 2 ^ 22 ->
  wpx boot_halt (init_paging c KERNEL_ADDR_SPACE junk sec) (fun _ s' => exists d, paging_ready sec d s' /\
    (d ∉ fr_live (pg_frames s)) /\ pg_if s' = pg_if s /\
    exists l, pg_spaces s' = {[KERNEL_ADDR_SPACE := mk_as l (d * 4096)]}) s.
Proof.
  intros [Hoff [l Hsp] Hok Hz] He. unfold init_paging.
  assert (Hn : 0 <= kernel_page_count sec <= 254 * 1024).
  { unfold kernel_page_count, PAGE_SIZE. change (2 ^ 22) with 4194304 in He. Z.to_euclidean_division_equations; lia. }
  apply wpx_bind, wpx_fault. eapply wpx_mono; [by apply alloc_page_table_spec|].
  intros q s1 (fr & -> & Hok1 & [[-> _]|(d & -> & Hf & Hd & Hlv)]); [by apply wpx_bind, boot_panic|].
  rewrite no_frame_ne by done. eapply wpx_bind_ok; [done|]. cbv zeta.
  eapply wpx_bind_ok; [by apply off_memzero|]. set (m1 := zero_frame d (pg_mem (put_frames fr s))).
  assert (Hd0 : (d * 4096 =? NULL) = false) by (apply Z.eqb_neq; unfold NULL; intros E; assert (d = 0) as -> by lia; done).
  set (x := mk_as l (d * 4096)).
  eapply wpx_bind_ok with (a := tt) (s' := put_spaces {[KERNEL_ADDR_SPACE := x]} (pg_if s) (put_mem m1 (put_frames fr s))).
  { unfold init_kernel_addr_space, bind, get_space, must, put_mem. simpl. rewrite Hsp, lookup_singleton_eq. simpl.
    unfold modify, put_spaces. simpl. by rewrite insert_singleton_eq. }
  eapply wpx_bind_ok with (a := tt) (s' := put_cr3 (d * 4096) KERNEL_ADDR_SPACE (put_spaces {[KERNEL_ADDR_SPACE := x]} (pg_if s) (put_mem m1 (put_frames fr s)))).
  { unfold switch_to_addr_space, bind, get_space, must. simpl. rewrite lookup_singleton_eq. simpl. by rewrite Hd0. }
  set (s2 := put_cr3 _ _ _).
  assert (Hb : built sec d 0 0 s2 s2).
  { split; [|  |done].
    - exists ∅. split; [|intros i; rewrite lookup_empty; split; [by intros []|lia]].
      apply boot_start; try done.
      + exists x. split; [apply lookup_singleton_eq|done].
      + simpl. rewrite Hlv. clear. set_solver.
      + intros i Hi. subst s2 m1. cbn [pg_mem put_cr3 put_spaces put_mem]. by rewrite word_zero_frame, bool_decide_true.
    - intros v Hv. destruct (boot_parts v Hv) as (_ & Hvi & _). unfold lookup_page. subst s2 m1. cbn [pg_mem put_cr3 put_spaces put_mem].
      rewrite word_zero_frame, bool_decide_true by (split; [done|lia]). unfold kernel_pages. by rewrite !decide_False by lia. }
  apply wpx_bind. eapply wpx_mono; [by apply (kernel_mappings_spec sec d Hn)|]. intros [] s3 Hb3.
  apply wpx_bind, wpx_wp. eapply wp_mono; [by apply (recursive_entry_spec sec d)|]. intros [] s4 Hb4.
  apply wpx_bind. eapply wpx_mono; [by apply (temp_entry_spec sec d)|]. intros [] s5 Hb5.
  apply wpx_bind. eapply wpx_mono; [by apply (preallocate_spec sec d)|]. intros [] s6 Hb6.
  eapply wpx_bind_ok; [done|]. apply wpx_wp.
  eapply wp_mono; [apply (remove_identity_spec sec d Hn s2); [change (2 ^ 22) with 4194304 in He; lia|by apply (enabled_clean sec d Hn s2 s6 x)]|].
  intros [] s7 (Hr & Es & Ei). exists d. split_and!; [done|done|done|]. by exists l.
Qed.

End Boot.
