(* ===== verification/AddrSpace.v ===== *)
(** * Address spaces: [src/addr_space.c]

    Creating and deleting address spaces: the [struct addr_space] comes from
    the dynamic allocator, the directory from the frame allocator, and
    [paging.c] fills the directory and frees what the address space uses. *)

From S2P Require Import Prelude Math Bits Spinlock ErrorCodes FrameAlloc Kmalloc KHeap CMem Paging PagingSpec PagingRange.

Record asst (F A : Type) := mk_ast {
  as_pg : pgst F;
  as_heap : A;
  as_ncpus : Z;
  as_cpus : Z -> Z }.
Arguments mk_ast {F A}.
Arguments as_pg {F A}.
Arguments as_heap {F A}.
Arguments as_ncpus {F A}.
Arguments as_cpus {F A}.

Definition SIZEOF_ADDR_SPACE : Z := 8.

Section Ops.
Context {F A : Type} `{Frames F} `{Heap A} (c KERNEL_ADDR_SPACE junk : Z).
Abbreviation st := (asst F A).

Definition put_pg (x : pgst F) (s : st) : st := mk_ast x (as_heap s) (as_ncpus s) (as_cpus s).
Definition put_heap (x : A) (s : st) : st := mk_ast (as_pg s) x (as_ncpus s) (as_cpus s).
Definition on_pg {B} : M (pgst F) B -> M st B := zoom as_pg put_pg.
Definition on_heap {B} : M A B -> M st B := zoom as_heap put_heap.

Definition SET_ERROR (msg : string) (code : Z) : M st unit :=
  on_pg (modify (fun p => put_errors (pg_errors p ++ [mk_err msg code false]) p)).

(** [clone->lock] and [clone->page_dir_phy_addr] *)
Definition init_addr_space (clone page_dir : Z) : M st unit :=
  on_pg (modify (fun p => put_spaces (<[clone := mk_as INIT_SPINLOCK page_dir]> (pg_spaces p)) (pg_if p) p)).

Definition create_new_addr_space : M st Z :=
  do clone <- on_heap (hp_kmalloc SIZEOF_ADDR_SPACE);
  if clone =? NULL then SET_ERROR "Cannot allocated struct addr_space" ENONE;;; ret NULL
  else
    do page_dir <- on_pg alloc_page_dir;
    if page_dir =? NO_FRAME then
      SET_ERROR "Cannot allocate page dir for new address space" ENONE;;;
      on_heap (hp_kfree clone);;;
      ret NULL
    else
      init_addr_space clone page_dir;;;
      on_pg (paging_setup_new_page_dir c KERNEL_ADDR_SPACE junk page_dir);;;
      ret clone.

(** [cpu_var(curr_addr_space, cpu)] *)
Definition cpu_addr_space (cpu : Z) : M st Z := gets (fun s => if cpu =? c then pg_curr (as_pg s) else as_cpus s cpu).

Definition delete_addr_space (a : Z) : M st unit :=
  when (a =? KERNEL_ADDR_SPACE) (panic "Are you insane ?");;;
  do ncpus <- gets as_ncpus;
  for_each (range 0 ncpus) (fun cpu =>
    do cpu_as <- cpu_addr_space cpu;
    when (cpu_as =? a) (panic "Tried to delete an address space used by cpu"));;;
  on_pg (paging_free_addr_space c KERNEL_ADDR_SPACE junk a);;;
  on_heap (hp_kfree a);;;
  on_pg (modify (fun p => put_spaces (delete a (pg_spaces p)) (pg_if p) p)).

End Ops.

(** ** A new directory *)

Lemma rec_entry_fields v f : frame_ok f ->
  present (bits 0 12 v + 4096 * f) = present v /\ entry_addr (bits 0 12 v + 4096 * f) = f.
Proof.
  unfold frame_ok, present, entry_addr, bits. change (2 ^ 0) with 1. change (2 ^ 12) with 4096. change (2 ^ 1) with 2. change (2 ^ 20) with 1048576.
  rewrite !Z.div_1_r. intros Hf. split; [f_equal|]; Z.to_euclidean_division_equations; lia.
Qed.

Definition add_dir (d : Z) (L : layout) : layout := mk_layout (<[d := ODir]> (own L)) (kt L).

Section NewDir.
Context (L : layout) (m m' : pmem) (d nd : Z).
Hypothesis Hm : mem_inv L m.
Hypothesis Hd : is_dir L d.
Hypothesis Hfree : own L !! nd = None.
Hypothesis Hf : frame_ok nd.
Hypothesis Hold : forall e k, is_dir L e -> word m' e k = word m e k.
Hypothesis Huser : forall k, user_pde k -> word m' nd k = 0.
Hypothesis Hker : forall k, kernel_pde k -> word m' nd k = word m d k.
Hypothesis Hrec : present (word m' nd 1023) = true /\ entry_addr (word m' nd 1023) = nd.

Lemma add_dir_is e : is_dir (add_dir nd L) e <-> e = nd \/ is_dir L e.
Proof.
  clear -Hfree. unfold is_dir. simpl. destruct (decide (e = nd)) as [->|Hne]; [rewrite lookup_insert_eq; naive_solver|].
  rewrite lookup_insert_ne by done. naive_solver.
Qed.

Lemma mem_inv_new_dir : mem_inv (add_dir nd L) m'.
Proof.
  assert (Hkeep : forall f o, own L !! f = Some o -> own (add_dir nd L) !! f = Some o)
    by (intros f o Ho; simpl; rewrite lookup_insert_ne; congruence).
  split.
  - intros f o. simpl. intros [[<- _]|[_ Ho]]%lookup_insert_Some; [done|by apply (mi_frame _ _ Hm _ _ Ho)].
  - intros e [->|He]%add_dir_is; [done|]. rewrite !Hold by done. by apply (mi_rec _ _ Hm).
  - intros e k [->|He]%add_dir_is Hk; [rewrite Hker by done|rewrite !Hold by done]; by apply (mi_kernel _ _ Hm).
  - intros k Hk. by apply Hkeep, (mi_kt _ _ Hm).
  - intros e k [->|He]%add_dir_is Hk; [rewrite Huser by done; done|]. rewrite !Hold by done.
    intros Hp. by apply Hkeep, (mi_user _ _ Hm).
  - intros f e k. simpl. intros [[_ [=]]|[Hne Ho]]%lookup_insert_Some.
    destruct (mi_tab _ _ Hm _ _ _ Ho) as (He & Hk & Hp & Ha). rewrite !Hold by done.
    split_and!; [apply add_dir_is; by right|apply Hk..|done|done].
Qed.

End NewDir.

Section Setup.
Context {F : Type} `{HLaws : FrameLaws F} (c KERNEL_ADDR_SPACE junk : Z) (Hc : 0 <= c < 256).
Implicit Types s : pgst F.
Context (L : layout) (s0 : pgst F) (nd : Z).
Abbreviation d0 := (pg_cr3 s0 / 4096).

Hypothesis Hi0 : pg_core L s0.
Hypothesis Hfree : own L !! nd = None.
Hypothesis Hf : frame_ok nd.

(** The kernel entries up to [i] are copied. *)
Record copied (i : Z) s : Prop := {
  co_rest : same_rest s0 s;
  co_frames : pg_frames s = pg_frames s0;
  co_errors : pg_errors s = pg_errors s0;
  co_shows : shows c L s nd;
  co_word : forall g k, g <> nd -> (g, k) <> (temp_table L, c) -> word (pg_mem s) g k = word (pg_mem s0) g k;
  co_new : forall k, 0 <= k < 1024 -> word (pg_mem s) nd k = if decide (768 <= k < i) then word (pg_mem s0) d0 k else 0 }.

Lemma nd_not_dir e : is_dir L e -> e <> nd.
Proof. intros He ->. unfold is_dir in He. congruence. Qed.

Lemma nd_not_temp : temp_table L <> nd.
Proof. intros E. pose proof (temp_owner _ _ (pi_mem _ _ Hi0)) as Ho. congruence. Qed.

Lemma copied_core i s : copied i s -> pg_core L s.
Proof.
  intros Hco. apply (pg_core_mem L s0); [done|apply Hco|]. apply (mem_inv_ext _ _ (pi_mem _ _ Hi0)).
  intros e k He. apply (co_word _ _ Hco); [by apply nd_not_dir|]. intros [= E _]. by apply (temp_not_dir _ _ (pi_mem _ _ Hi0) e).
Qed.

Lemma copied_dir i s k : copied i s -> word (pg_mem s) d0 k = word (pg_mem s0) d0 k.
Proof.
  intros Hco. pose proof (curr_dir _ _ Hi0) as Hd. apply (co_word _ _ Hco); [by apply nd_not_dir|].
  intros [= E _]. by apply (temp_not_dir _ _ (pi_mem _ _ Hi0) d0).
Qed.

(** Writing an entry of the new directory. *)
Lemma new_entry_run i s k v : copied i s -> 0 <= k < 1024 ->
  set_entry (TMP c) k v s = Ok (tt, put_mem (<[(nd, k) := v]> (pg_mem s)) s).
Proof.
  intros Hco Hk. apply (set_entry_run _ _ _ (temp_table L)); [|done]. apply sees_temp; [done|by eapply copied_core|apply Hco].
Qed.

Lemma curr_entry_run i s k : copied i s -> 0 <= k < 1024 -> get_entry (REC 1023) k s = Ok (word (pg_mem s0) d0 k, s).
Proof.
  intros Hco Hk. rewrite <- (copied_dir i s k Hco). rewrite <- (sr_cr3 _ _ (co_rest _ _ Hco)).
  apply (get_entry_run _ _ _ (pg_cr3 s / 4096)); [|done]. eapply sees_curr_dir, copied_core, Hco.
Qed.

Lemma copied_set i s v : copied i s -> 768 <= i < 1023 -> v = word (pg_mem s0) d0 i ->
  copied (i + 1) (put_mem (<[(nd, i) := v]> (pg_mem s)) s).
Proof.
  intros [Hr Hfr He Hsh Hw Hn] Hi ->. split; simpl; try done.
  - destruct Hr. by split.
  - unfold shows in *. simpl. rewrite word_insert_ne; [done|]. intros [= E _]. by apply nd_not_temp.
  - intros g k Hg Hne. rewrite word_insert_ne by congruence. by apply Hw.
  - intros k Hk. destruct (decide (k = i)) as [->|Hne].
    + rewrite word_insert_eq, decide_True by lia. done.
    + rewrite word_insert_ne, Hn by (lia || congruence).
      destruct (decide (768 <= k < i)); [by rewrite decide_True by lia|by rewrite decide_False by lia].
Qed.

Lemma copy_entries s : copied 768 s ->
  wp (for_each (range (pde_index KERNEL_PHY_OFFSET) (PDES_PER_PAGE - 1)) (fun i =>
        do e <- get_entry (REC 1023) i; set_entry (TMP c) i e)) (fun _ => copied 1023) s.
Proof.
  intros Hco. apply (wp_for_range copied); [done|done|]. intros i s1 Hi Hco1. change (pde_index KERNEL_PHY_OFFSET) with 768 in Hi.
  change (PDES_PER_PAGE - 1) with 1023 in Hi. eapply wp_bind_ok; [apply (curr_entry_run i); [done|lia]|].
  unfold wp. rewrite (new_entry_run i) by (done || lia). apply copied_set; [done|lia|done].
Qed.

Lemma copied_again s : copied 1023 s -> copied 1023 (put_mem (<[(nd, 1022) := word (pg_mem s0) d0 1022]> (pg_mem s)) s).
Proof.
  intros [Hr Hfr He Hsh Hw Hn]. split; simpl; try done.
  - destruct Hr. by split.
  - unfold shows in *. simpl. rewrite word_insert_ne; [done|]. intros [= E _]. by apply nd_not_temp.
  - intros g k Hg Hne. rewrite word_insert_ne by congruence. by apply Hw.
  - intros k Hk. destruct (decide (k = 1022)) as [->|Hne]; [by rewrite word_insert_eq|]. rewrite word_insert_ne by congruence. by apply Hn.
Qed.

Lemma zeroed_copied s : temp_step c L s0 s -> shows c L s nd -> copied 768 (put_mem (zero_frame nd (pg_mem s)) s).
Proof.
  intros [Hr Hfr He Hw] Hsh. split; simpl; try done.
  - destruct Hr. by split.
  - unfold shows in *. simpl. rewrite word_zero_frame, bool_decide_false by (intros [E _]; by apply nd_not_temp). done.
  - intros g k Hg Hne. rewrite word_zero_frame, bool_decide_false by naive_solver. by apply Hw.
  - intros k Hk. rewrite word_zero_frame, bool_decide_true by done. by rewrite decide_False by lia.
Qed.

Definition setup_post s : Prop :=
  same_rest s0 s /\ pg_frames s = pg_frames s0 /\ pg_errors s = pg_errors s0 /\
  (forall g k, g <> nd -> (g, k) <> (temp_table L, c) -> word (pg_mem s) g k = word (pg_mem s0) g k) /\
  (forall k, user_pde k -> word (pg_mem s) nd k = 0) /\
  (forall k, kernel_pde k -> word (pg_mem s) nd k = word (pg_mem s0) d0 k) /\
  present (word (pg_mem s) nd 1023) = true /\ entry_addr (word (pg_mem s) nd 1023) = nd.

Lemma paging_setup_new_page_dir_spec :
  wp (paging_setup_new_page_dir c KERNEL_ADDR_SPACE junk (nd * 4096)) (fun _ => setup_post) s0.
Proof.
  destruct (mi_rec _ _ (pi_mem _ _ Hi0) _ (curr_dir _ _ Hi0)) as [Hr1 Hr2].
  unfold paging_setup_new_page_dir, get_page_dir. eapply wp_bind_ok; [done|].
  eapply wp_bind_ok; [apply get_page_dir_curr, Hi0|].
  apply wp_bind. eapply wp_mono; [by apply (create_temp_mapping_spec c KERNEL_ADDR_SPACE junk Hc L)|]. intros p s1 (-> & Hst & Hsh).
  apply wp_bind, wp_assert; [unfold REC, TMP; apply negb_true_iff, Z.eqb_neq; lia|].
  pose proof (pg_core_temp _ _ _ _ Hi0 Hst) as Hi1. pose proof (sr_cr3 _ _ (ts_rest _ _ _ _ Hst)) as Ecr.
  eapply wp_bind_ok.
  { apply (memzero_page_run _ _ nd (temp_table L)); [by apply sees_temp|rewrite Ecr; apply not_eq_sym, nd_not_dir, (curr_dir _ _ Hi0)|apply not_eq_sym, nd_not_temp]. }
  apply wp_bind. eapply wp_mono; [by apply copy_entries, zeroed_copied|]. intros [] s2 Hco.
  eapply wp_bind_ok; [by apply (curr_entry_run 1023)|]. eapply wp_bind_ok; [by apply (new_entry_run 1023)|].
  pose proof (copied_again _ Hco) as Hco3. set (s3 := put_mem _ s2) in *.
  eapply wp_bind_ok; [by apply (curr_entry_run 1023)|].
  destruct (pi_curr _ _ Hi0) as (x & e & Hx & Ex & Ecr0 & _). destruct (co_rest _ _ Hco3) as [E1 E2 E3 E4 E5 E6 E7].
  eapply wp_bind_ok; [unfold get_space, must; rewrite E3, Hx; done|].
  change RECURSIVE_PDE_IDX with 1023. apply wp_bind, wp_assert; [rewrite Hr2, Ex, Ecr0, shiftr12; apply Z.eqb_refl|].
  unfold wp. rewrite (new_entry_run 1023) by done. rewrite shiftr12, Z.div_mul by lia.
  destruct (rec_entry_fields (word (pg_mem s0) d0 1023) nd Hf) as [F1 F2]. destruct Hco3 as [Hr Hfr He _ Hw Hn].
  unfold setup_post. cbn [pg_mem put_mem]. split_and!; try done.
  - intros g k Hg Hne. rewrite word_insert_ne by congruence. by apply Hw.
  - intros k Hk. unfold user_pde in Hk. rewrite word_insert_ne, Hn by (lia || (intros [= E]; lia)). by rewrite decide_False by lia.
  - intros k Hk. unfold kernel_pde in Hk. rewrite word_insert_ne, Hn by (lia || (intros [= E]; lia)). by rewrite decide_True by lia.
  - by rewrite word_insert_eq, F1.
  - by rewrite word_insert_eq, F2.
Qed.

End Setup.

(** ** Freeing the pages of an address space *)

Section Free.
Context {F : Type} `{HLaws : FrameLaws F} (c KERNEL_ADDR_SPACE junk : Z) (Hc : 0 <= c < 256).
Implicit Types s : pgst F.
Context (L : layout) (s0 : pgst F) (a d : Z).

(** The user page [v] is mapped with the entry [pte]. *)
Definition user_page (v pte : Z) : Prop := 0 <= v < 768 * 1024 /\ lookup_page (pg_mem s0) d v = Some pte.

Hypothesis Hi0 : pg_inv L s0.
Hypothesis Hd0 : dir_of s0 a = Some d.
Hypothesis Hdata : forall v pte, user_page v pte -> entry_addr pte ∈ data_frames L s0.
Hypothesis Hinj : forall v pte v' pte', user_page v pte -> user_page v' pte' -> entry_addr pte = entry_addr pte' -> v = v'.

(** The frames freed after the tables below [i] and the pages below [w]. *)
Definition gone (i w f : Z) : Prop :=
  (exists v pte, v < w /\ user_page v pte /\ entry_addr pte = f) \/ (exists k, k < i /\ own L !! f = Some (OTab d k)).

Record emptied (i w : Z) s : Prop := {
  em_temp : temp_step c L (put_frames (pg_frames s) s0) s;
  em_ok : fr_ok (pg_frames s);
  em_live : forall f, f ∈ fr_live (pg_frames s) <-> f ∈ fr_live (pg_frames s0) /\ ~ gone i w f }.

Lemma emptied_core i w s : emptied i w s -> pg_core L s.
Proof. intros He. apply (pg_core_temp c L (put_frames (pg_frames s) s0)); [|apply He]. destruct Hi0 as [[] _ _ _]. by split. Qed.

Lemma emptied_word i w s g k : emptied i w s -> g <> temp_table L -> word (pg_mem s) g k = word (pg_mem s0) g k.
Proof. intros He Hg. apply (ts_word _ _ _ _ (em_temp _ _ _ He)). congruence. Qed.

Lemma emptied_temp i w s s' : emptied i w s -> temp_step c L s s' -> emptied i w s'.
Proof.
  intros [Ht Hok Hl] Hst. pose proof (ts_frames _ _ _ _ Hst) as E. split; rewrite E; try done. by eapply temp_step_trans.
Qed.

(** A frame that is still in use is freed. *)
Lemma emptied_free i w i' w' s f :
  emptied i w s -> f ∈ fr_live (pg_frames s0) -> ~ gone i w f -> (forall g, gone i' w' g <-> gone i w g \/ g = f) ->
  wp (free_frame (f * 4096)) (fun _ s' => emptied i' w' s' /\ exists fr, s' = put_frames fr s) s.
Proof.
  intros [Ht Hok Hl] Hf Hng Hg. eapply wp_mono; [apply free_frame_spec; [done|by apply Hl]|].
  intros [] s' (fr & -> & Hok' & Hlv). split; [|by exists fr]. split; simpl; [|done|].
  - destruct Ht as [Hr _ He Hw]. destruct Hr. by split.
  - intros g. rewrite Hlv, elem_of_difference, Hl, elem_of_singleton, Hg. tauto.
Qed.

Lemma emptied_same i w i' w' s : emptied i w s -> (forall g, gone i' w' g <-> gone i w g) -> emptied i' w' s.
Proof. intros [Ht Hok Hl] Hg. split; [done|done|]. intros f. by rewrite Hg. Qed.

Lemma gone_page i w g : gone i (w + 1) g <-> gone i w g \/ exists pte, user_page w pte /\ entry_addr pte = g.
Proof.
  unfold gone. split.
  - intros [(v & pte & Hv & Hp & E)|Hk]; [|tauto]. destruct (decide (v = w)) as [->|]; [right; by exists pte|].
    left. left. exists v, pte. split; [lia|done].
  - intros [[(v & pte & Hv & Hp & E)|Hk]|(pte & Hp & E)]; [left|tauto|left].
    + exists v, pte. split; [lia|done].
    + exists w, pte. split; [lia|done].
Qed.

Lemma gone_table i w g : gone (i + 1) w g <-> gone i w g \/ own L !! g = Some (OTab d i).
Proof.
  unfold gone. split.
  - intros [Hp|(k & Hk & Ho)]; [tauto|]. destruct (decide (k = i)) as [->|]; [tauto|]. left. right. exists k. split; [lia|done].
  - intros [[Hp|(k & Hk & Ho)]|Ho]; [tauto|right; exists k; split; [lia|done]|right; exists i; split; [lia|done]].
Qed.

(** A mapped user page: its frame is in use, and freed only with it. *)
Lemma page_frame_live i w pte : user_page w pte -> entry_addr pte ∈ fr_live (pg_frames s0) /\ ~ gone i w (entry_addr pte).
Proof.
  intros Hp. pose proof (Hdata _ _ Hp) as Hin. unfold data_frames in Hin. apply elem_of_difference in Hin as [Hin Hno].
  rewrite not_elem_of_dom in Hno. split; [done|]. intros [(v & pte' & Hv & Hp' & E)|(k & _ & Ho)]; [|congruence].
  pose proof (Hinj _ _ _ _ Hp' Hp E). lia.
Qed.

Lemma table_frame_live i w t : own L !! t = Some (OTab d i) -> t ∈ fr_live (pg_frames s0) /\ ~ gone i w t.
Proof.
  intros Ho. split; [by apply (pi_live _ _ Hi0 _ _ Ho)|]. intros [(v & pte & _ & Hp & E)|(k & Hk & Ho')]; [|simplify_eq; lia].
  pose proof (Hdata _ _ Hp) as Hin. unfold data_frames in Hin. apply elem_of_difference in Hin as [_ Hno].
  rewrite not_elem_of_dom, E in Hno. congruence.
Qed.

Lemma is_dir_d : is_dir L d.
Proof. by destruct (dir_of_inv _ _ _ _ Hi0 Hd0). Qed.

Lemma page_of_entry i j : user_pde i -> 0 <= j < 1024 -> present (word (pg_mem s0) d i) = true ->
  lookup_page (pg_mem s0) d (i * 1024 + j) =
    let pte := word (pg_mem s0) (entry_addr (word (pg_mem s0) d i)) j in if present pte then Some pte else None.
Proof. intros Hi Hj Hp. unfold lookup_page. destruct (page_join i j Hj) as [-> ->]. by rewrite Hp. Qed.

Lemma free_entry i j q t2 s :
  let t := entry_addr (word (pg_mem s0) d i) in
  emptied i (i * 1024 + j) s -> user_pde i -> 0 <= j < 1024 -> present (word (pg_mem s0) d i) = true -> sees s q t t2 ->
  wp (do pte <- get_entry q j; if negb (present pte) then ret tt else free_frame (Z.shiftl (entry_addr pte) 12))
    (fun _ s' => emptied i (i * 1024 + (j + 1)) s' /\ sees s' q t t2) s.
Proof.
  intros t He Hi Hj Hp Hs. pose proof (pi_mem _ _ Hi0) as Hm. pose proof is_dir_d as Hd. unfold user_pde in Hi.
  assert (Hnt : t <> temp_table L) by (apply (table_not_temp _ _ Hm); (done || lia)).
  eapply wp_bind_ok; [by apply (get_entry_run _ _ _ _ j Hs)|]. rewrite (emptied_word _ _ _ _ _ He Hnt).
  pose proof (page_of_entry i j Hi Hj Hp) as El. fold t in El. set (pte := word (pg_mem s0) t j) in *. cbv zeta in El.
  destruct (present pte) eqn:Epp; simpl.
  - assert (Hup : user_page (i * 1024 + j) pte) by (split; [lia|done]).
    rewrite Z.shiftl_mul_pow2 by lia. change (2 ^ 12) with 4096.
    destruct (page_frame_live i _ _ Hup) as [Hl Hng].
    eapply wp_mono; [apply (emptied_free _ _ i (i * 1024 + (j + 1)) s _ He Hl Hng)|intros [] s' [He' [fr ->]]; done].
    intros g. rewrite Z.add_assoc, gone_page. split; (intros [?|Hx]; [by left|right]).
    + destruct Hx as (pte' & [_ El'] & <-). congruence.
    + exists pte. done.
  - apply wp_ret. split; [|done]. apply (emptied_same _ _ _ _ _ He). intros g.
    rewrite Z.add_assoc, gone_page. split; [intros [?|(pte' & [_ El'] & _)]; [done|congruence]|by left].
Qed.

Lemma free_table_frames_spec i q t2 s :
  let t := entry_addr (word (pg_mem s0) d i) in
  emptied i (i * 1024) s -> user_pde i -> present (word (pg_mem s0) d i) = true -> sees s q t t2 ->
  wp (free_table_frames q) (fun _ => emptied i ((i + 1) * 1024)) s.
Proof.
  intros t He Hi Hp Hs. unfold free_table_frames.
  eapply wp_mono; [apply (wp_for_range (fun j s => emptied i (i * 1024 + j) s /\ sees s q t t2))|].
  - done.
  - by rewrite Z.add_0_r.
  - intros j s1 Hj [He1 Hs1]. by apply free_entry.
  - intros [] s1 [He1 _]. by replace ((i + 1) * 1024) with (i * 1024 + PTES_PER_PAGE) by (unfold PTES_PER_PAGE; lia).
Qed.

(** One entry of the directory. *)
Definition free_pde (i : Z) : M (pgst F) unit :=
  do page_dir <- get_page_dir c KERNEL_ADDR_SPACE junk a;
  do pde <- get_entry page_dir i;
  if negb (present pde) then ret tt
  else
    do page_table <- get_page_table c KERNEL_ADDR_SPACE junk page_dir i;
    free_table_frames page_table;;;
    free_frame (Z.shiftl (entry_addr pde) 12).

Lemma free_pde_spec i s : emptied i (i * 1024) s -> user_pde i -> wp (free_pde i) (fun _ => emptied (i + 1) ((i + 1) * 1024)) s.
Proof.
  intros He Hi. pose proof (pi_mem _ _ Hi0) as Hm. pose proof is_dir_d as Hd. unfold user_pde in Hi. pose proof (emptied_core _ _ _ He) as Hc0.
  destruct (dir_of_inv _ _ _ _ Hi0 Hd0) as (_ & _ & x & Hx & Ex).
  apply wp_bind. eapply wp_mono; [apply (get_page_dir_core c KERNEL_ADDR_SPACE junk Hc L s a d Hc0 Hd)|].
  { exists x. by rewrite (sr_spaces _ _ (ts_rest _ _ _ _ (em_temp _ _ _ He))). }
  intros p s1 [Hst Hp]. pose proof (emptied_temp _ _ _ _ He Hst) as He1. pose proof (emptied_core _ _ _ He1) as Hc1.
  destruct (dir_ptr_sees _ Hc _ _ _ _ Hc1 Hp) as [t1 Hs1].
  assert (Hw1 : word (pg_mem s1) d i = word (pg_mem s0) d i) by (apply (emptied_word _ _ _ _ _ He1), not_eq_sym, (temp_not_dir _ _ Hm d Hd)).
  eapply wp_bind_ok; [apply (get_entry_run _ _ _ _ i Hs1); lia|]. rewrite Hw1.
  destruct (present (word (pg_mem s0) d i)) eqn:Epr; simpl.
  - apply wp_bind. eapply wp_mono; [apply (get_page_table_spec c KERNEL_ADDR_SPACE junk Hc L s1 d p); (done || lia || by rewrite Hw1)|].
    intros q s2 (Hst2 & t2 & Hs2 & _). rewrite Hw1 in Hs2. pose proof (emptied_temp _ _ _ _ He1 Hst2) as He2.
    apply wp_bind. eapply wp_mono; [by apply (free_table_frames_spec i q t2)|]. intros [] s3 He3.
    assert (Ho : own L !! entry_addr (word (pg_mem s0) d i) = Some (OTab d i)) by by apply (mi_user _ _ Hm).
    rewrite Z.shiftl_mul_pow2 by lia. destruct (table_frame_live i ((i + 1) * 1024) _ Ho) as [Hl Hng].
    eapply wp_mono; [apply (emptied_free _ _ (i + 1) ((i + 1) * 1024) s3 _ He3 Hl Hng)|intros [] s4 [He4 _]; done].
    intros g. rewrite gone_table. split; (intros [?|Hg]; [by left|right]); [|by subst g].
    destruct (mi_tab _ _ Hm _ _ _ Hg) as (_ & _ & _ & E). by rewrite E.
  - apply wp_ret. apply (emptied_same _ _ _ _ _ He1). intros g. rewrite gone_table. split.
    + intros [[(v & pte & Hv & [Hr Hl] & E)|Hk]|Ho]; [|by right|].
      * left. exists v, pte. split_and!; try done; try lia. destruct (decide (v < i * 1024)); [done|]. exfalso.
        unfold lookup_page in Hl. replace (v / 1024) with i in Hl by (Z.to_euclidean_division_equations; lia). by rewrite Epr in Hl.
      * destruct (mi_tab _ _ Hm _ _ _ Ho) as (_ & _ & Hpr & _). congruence.
    + intros [(v & pte & Hv & Hp' & E)|Hk]; [|by left; right]. left. left. exists v, pte. split; [lia|done].
Qed.

(** Everything but the directory itself is freed. *)
Definition freed_with_dir (f : Z) : Prop := gone 768 (768 * 1024) f \/ f = d.

Definition free_post s' : Prop :=
  exists s1, temp_step c L (put_frames (pg_frames s') s0) s1 /\ fr_ok (pg_frames s') /\
    (forall f, f ∈ fr_live (pg_frames s') <-> f ∈ fr_live (pg_frames s0) /\ ~ freed_with_dir f) /\
    s' = if pg_online s0 then put_tlb (pg_flushes s1) (pg_shootdowns s1 + 1) s1 else s1.

Lemma paging_free_addr_space_spec : wp (paging_free_addr_space c KERNEL_ADDR_SPACE junk a) (fun _ => free_post) s0.
Proof.
  pose proof (pi_mem _ _ Hi0) as Hm. pose proof is_dir_d as Hd. destruct (dir_of_inv _ _ _ _ Hi0 Hd0) as (_ & _ & x & Hx & Ex).
  unfold paging_free_addr_space. apply wp_bind. eapply wp_mono; [apply (wp_for_range (fun i => emptied i (i * 1024)))|].
  - done.
  - split; [by destruct s0|apply Hi0|]. intros f. split; [|tauto]. intros Hl. split; [done|].
    intros [(v & pte & Hv & [Hr _] & _)|(k & Hk & Ho)]; [lia|]. destruct (mi_tab _ _ Hm _ _ _ Ho) as (_ & [? ?] & _). lia.
  - intros i s Hi He. by apply free_pde_spec.
  - intros [] s He. change (pde_index KERNEL_PHY_OFFSET) with 768 in He. pose proof (em_temp _ _ _ He) as [Hr _ _ _].
    eapply wp_bind_ok; [unfold get_space, must; rewrite (sr_spaces _ _ Hr); simpl; by rewrite Hx|]. rewrite Ex.
    apply wp_bind. eapply wp_mono; [apply free_frame_spec; [apply He|]|].
    + apply (em_live _ _ _ He). split; [by apply (pi_live _ _ Hi0 _ _ Hd)|]. intros [(v & pte & _ & Hp & E)|(k & _ & Ho)]; [|unfold is_dir in Hd; congruence].
      pose proof (Hdata _ _ Hp) as Hin. unfold data_frames in Hin. apply elem_of_difference in Hin as [_ Hno].
      rewrite not_elem_of_dom, E in Hno. unfold is_dir in Hd. congruence.
    + intros [] s1 (fr & -> & Hok & Hlv). apply wp_modify. exists (put_frames fr s).
      pose proof (sr_online _ _ Hr) as Eon. simpl in Eon. simpl. rewrite Eon.
      assert (Hts : temp_step c L (put_frames fr s0) (put_frames fr s)).
      { destruct (em_temp _ _ _ He) as [Hr' _ He' Hw']. destruct Hr'. by split. }
      assert (Hlf : forall f, f ∈ fr_live fr <-> f ∈ fr_live (pg_frames s0) /\ ~ freed_with_dir f).
      { intros f. rewrite Hlv, elem_of_difference, (em_live _ _ _ He), elem_of_singleton. unfold freed_with_dir. tauto. }
      by destruct (pg_online s0).
Qed.

End Free.

(** ** A directory goes *)

Definition kept (d : Z) (p : Z * owner) : Prop := p.1 <> d /\ forall k, p.2 <> OTab d k.

#[export] Instance kept_dec d p : Decision (kept d p).
Proof.
  destruct p as [f [|e k|k]]; unfold kept; simpl.
  - destruct (decide (f = d)); [right; tauto|left; done].
  - destruct (decide (f = d)); [right; tauto|]. destruct (decide (e = d)) as [->|].
    + right. intros [_ Hk]. by apply (Hk k).
    + left. split; [done|]. intros k'. congruence.
  - destruct (decide (f = d)); [right; tauto|left; done].
Defined.

Definition drop_dir (d : Z) (L : layout) : layout := mk_layout (filter (kept d) (own L)) (kt L).

Section DropDir.
Context (L : layout) (m : pmem) (d : Z).
Hypothesis Hm : mem_inv L m.
Hypothesis Hd : is_dir L d.

Lemma drop_dir_own f o : own (drop_dir d L) !! f = Some o <-> own L !! f = Some o /\ f <> d /\ forall k, o <> OTab d k.
Proof. clear. simpl. rewrite map_lookup_filter_Some. done. Qed.

Lemma drop_dir_is e : is_dir (drop_dir d L) e <-> is_dir L e /\ e <> d.
Proof. clear. unfold is_dir. rewrite drop_dir_own. naive_solver. Qed.

Lemma mem_inv_drop_dir : mem_inv (drop_dir d L) m.
Proof.
  split.
  - intros f o [Ho _]%drop_dir_own. by apply (mi_frame _ _ Hm _ _ Ho).
  - intros e [He _]%drop_dir_is. by apply (mi_rec _ _ Hm).
  - intros e k [He _]%drop_dir_is. by apply (mi_kernel _ _ Hm).
  - intros k Hk. apply drop_dir_own. pose proof (mi_kt _ _ Hm _ Hk) as Ho. simpl. split; [done|]. split; [|done].
    intros E. unfold is_dir in Hd. congruence.
  - intros e k [He Hne]%drop_dir_is Hk Hp. apply drop_dir_own. pose proof (mi_user _ _ Hm e k He Hk Hp) as Ho. split; [done|].
    split; [intros E; unfold is_dir in Hd; congruence|congruence].
  - intros f e k [Ho [_ Hne]]%drop_dir_own. destruct (mi_tab _ _ Hm _ _ _ Ho) as (He & Hk & Hp & Ha).
    split_and!; [|apply Hk..|done|done]. apply drop_dir_is. split; [done|]. intros ->. by apply (Hne k).
Qed.

End DropDir.

(** ** The address spaces of the kernel *)

Section Spaces.
Context {F A : Type} `{HFrames : FrameLaws F} `{HHeap : HeapLaws A} (c KERNEL_ADDR_SPACE junk : Z) (Hc : 0 <= c < 256).
Implicit Types s : asst F A.

(** Every address space but the one of the kernel is in a block of the heap,
    and every directory belongs to exactly one address space. *)
Record spaces_inv (L : layout) (B : gset Z) s : Prop := {
  sp_pg : pg_inv L (as_pg s);
  sp_used : tables_used L (pg_mem (as_pg s));
  sp_heap : hp_live (as_heap s) B;
  sp_static : hp_static KERNEL_ADDR_SPACE;
  sp_keys : forall a x, pg_spaces (as_pg s) !! a = Some x -> a = KERNEL_ADDR_SPACE \/ a ∈ B;
  sp_inj : forall a b d, dir_of (as_pg s) a = Some d -> dir_of (as_pg s) b = Some d -> a = b;
  sp_dirs : forall d, is_dir L d -> exists a, dir_of (as_pg s) a = Some d }.

(** What the other address spaces map is the same. *)
Definition same_pages (L : layout) (m m' : pmem) : Prop :=
  forall d v, is_dir L d -> 0 <= v < 1022 * 1024 -> lookup_page m' d v = lookup_page m d v.

Lemma setup_pages L (p : pgst F) nd p' : pg_core L p -> own L !! nd = None -> frame_ok nd -> setup_post c L p nd p' ->
  mem_inv (add_dir nd L) (pg_mem p') /\ same_pages L (pg_mem p) (pg_mem p') /\
  (tables_used L (pg_mem p) -> tables_used (add_dir nd L) (pg_mem p')) /\
  (forall v, 0 <= v < 768 * 1024 -> lookup_page (pg_mem p') nd v = None) /\
  (forall v, 768 * 1024 <= v < 1022 * 1024 -> lookup_page (pg_mem p') nd v = lookup_page (pg_mem p) (pg_cr3 p / 4096) v).
Proof.
  intros Hi Hfree Hf (Hr & Hfr & He & Hw & Hu & Hk & Hrec). pose proof (pi_mem _ _ Hi) as Hm. pose proof (curr_dir _ _ Hi) as Hd.
  assert (Hold : forall e k, is_dir L e -> word (pg_mem p') e k = word (pg_mem p) e k).
  { intros e k He'. apply Hw; [by apply (nd_not_dir L)|]. intros [= E _]. by apply (temp_not_dir _ _ Hm e). }
  assert (Htab : forall e i j, is_dir L e -> 0 <= i < 1022 -> present (word (pg_mem p) e i) = true ->
    word (pg_mem p') (entry_addr (word (pg_mem p) e i)) j = word (pg_mem p) (entry_addr (word (pg_mem p) e i)) j).
  { intros e i j He' Hi' Hp. apply Hw.
    - pose proof (table_owner _ _ Hm e i He' ltac:(lia) Hp). congruence.
    - intros [= E _]. by apply (table_not_temp _ _ Hm e i). }
  split_and!.
  - by apply (mem_inv_new_dir L (pg_mem p) _ (pg_cr3 p / 4096)).
  - intros e v He' Hv. destruct (page_parts _ Hv) as [Hri Hrj]. apply lookup_page_eq; [by apply Hold|]. intros Hp. by apply Htab.
  - intros Hus f e k Hf'. simpl in Hf'. apply lookup_insert_Some in Hf' as [[_ [=]]|[Hne Ho]].
    destruct (Hus f e k Ho) as (j & Hj & Hp). exists j. split; [done|]. rewrite Hw; [done|done|]. intros [= -> _].
    by rewrite (temp_owner _ _ Hm) in Ho.
  - intros v Hv. unfold lookup_page. rewrite Hu; [done|]. unfold user_pde. Z.to_euclidean_division_equations; lia.
  - intros v Hv. destruct (page_parts v ltac:(lia)) as [Hri Hrj]. assert (Hkv : kernel_pde (v / 1024)) by (unfold kernel_pde; Z.to_euclidean_division_equations; lia).
    unfold lookup_page. rewrite Hk by done. destruct (mi_kernel _ _ Hm _ _ Hd Hkv) as [Hp _]. rewrite Hp. by rewrite (Htab _ _ _ Hd Hri Hp).
Qed.

(** *** [create_new_addr_space] *)

(** A call that fails has set an error and changed nothing else. *)
Definition create_failed (L : layout) (B : gset Z) s s' : Prop :=
  spaces_inv L B s' /\ same_rest (as_pg s) (as_pg s') /\ pg_mem (as_pg s') = pg_mem (as_pg s) /\
  fr_live (pg_frames (as_pg s')) = fr_live (pg_frames (as_pg s)) /\ length (pg_errors (as_pg s')) = S (length (pg_errors (as_pg s))).

Definition created (L : layout) (B : gset Z) s (r : Z) s' : Prop :=
  r <> KERNEL_ADDR_SPACE /\ (r ∉ B) /\ exists nd,
    (nd ∉ fr_live (pg_frames (as_pg s))) /\ spaces_inv (add_dir nd L) ({[r]} ∪ B) s' /\
    fr_live (pg_frames (as_pg s')) = {[nd]} ∪ fr_live (pg_frames (as_pg s)) /\
    pg_spaces (as_pg s') = <[r := mk_as INIT_SPINLOCK (nd * 4096)]> (pg_spaces (as_pg s)) /\
    pg_curr (as_pg s') = pg_curr (as_pg s) /\ pg_cr3 (as_pg s') = pg_cr3 (as_pg s) /\
    as_ncpus s' = as_ncpus s /\ as_cpus s' = as_cpus s /\
    same_pages L (pg_mem (as_pg s)) (pg_mem (as_pg s')) /\
    (forall v, 0 <= v < 768 * 1024 -> lookup_page (pg_mem (as_pg s')) nd v = None) /\
    (forall v, 768 * 1024 <= v < 1022 * 1024 ->
      lookup_page (pg_mem (as_pg s')) nd v = lookup_page (pg_mem (as_pg s)) (pg_cr3 (as_pg s) / 4096) v).

Lemma pg_inv_frames L p fr : pg_inv L p -> fr_ok fr -> (forall f o, own L !! f = Some o -> f ∈ fr_live fr) -> pg_inv L (put_frames fr p).
Proof. intros [[H1 H2 H4] H3 _ _] Hok Hl. split; [by split|done|done|done]. Qed.

Lemma wpx_on_pg {B} E (m : M (pgst F) B) (Q : B -> asst F A -> Prop) s :
  wpx E m (fun r p => Q r (put_pg p s)) (as_pg s) -> wpx E (on_pg m) Q s.
Proof. apply wpx_zoom. Qed.

Lemma wpx_on_heap {B} E (m : M A B) (Q : B -> asst F A -> Prop) s :
  wp m (fun r p => Q r (put_heap p s)) (as_heap s) -> wpx E (on_heap m) Q s.
Proof. intros Hw. by apply wpx_wp, wp_zoom. Qed.

(** The [struct addr_space] is there, its directory not filled yet. *)
Definition with_space (r nd : Z) (fr : F) (p : pgst F) : pgst F :=
  put_spaces (<[r := mk_as INIT_SPINLOCK (nd * 4096)]> (pg_spaces p)) (pg_if p) (put_frames fr p).

Lemma fresh_space L B s r : spaces_inv L B s -> r <> KERNEL_ADDR_SPACE -> r ∉ B -> pg_spaces (as_pg s) !! r = None.
Proof. intros Hi Hk Hb. destruct (pg_spaces (as_pg s) !! r) as [x|] eqn:E; [|done]. destruct (sp_keys _ _ _ Hi r x E); done. Qed.

Lemma with_space_core L B s r nd fr : spaces_inv L B s -> r <> KERNEL_ADDR_SPACE -> r ∉ B -> pg_core L (with_space r nd fr (as_pg s)).
Proof.
  intros Hi Hk Hb. pose proof (fresh_space _ _ _ _ Hi Hk Hb) as Hfr. destruct (sp_pg _ _ _ Hi) as [[H1 H2 (y & e & Hy & H4)] _ _ _].
  split; try done. exists y, e. simpl. rewrite lookup_insert_ne by congruence. done.
Qed.

Lemma created_inv L B s a r nd fr p :
  spaces_inv L B s -> hp_live a ({[r]} ∪ B) -> r <> KERNEL_ADDR_SPACE -> r ∉ B ->
  nd ∉ fr_live (pg_frames (as_pg s)) -> frame_ok nd -> fr_ok fr -> fr_live fr = {[nd]} ∪ fr_live (pg_frames (as_pg s)) ->
  setup_post c L (with_space r nd fr (as_pg s)) nd p ->
  created L B s r (mk_ast p a (as_ncpus s) (as_cpus s)).
Proof.
  intros Hi Ha Hk Hb Hnd Hf Hok Hlv Hset. pose proof (fresh_space _ _ _ _ Hi Hk Hb) as Hfs. pose proof (sp_pg _ _ _ Hi) as Hp.
  assert (Hfree : own L !! nd = None).
  { destruct (own L !! nd) as [o|] eqn:Eo; [|done]. exfalso. by apply Hnd, (pi_live _ _ Hp _ _ Eo). }
  pose proof (with_space_core L B s r nd fr Hi Hk Hb) as Hco.
  destruct (setup_pages L _ nd p Hco Hfree Hf Hset) as (Hm & Hsame & Hus & Hnew & Hker).
  destruct Hset as ([E1 E2 E3 E4 E5 E6 E7] & Efr & Eerr & _). simpl in *.
  split; [done|]. split; [done|]. exists nd. simpl. rewrite E3, E4, Efr, E1. split_and!; try done.
  assert (Hdo : forall b e, dir_of p b = Some e -> (b = r /\ e = nd) \/ (b <> r /\ dir_of (as_pg s) b = Some e)).
  { intros b e. unfold dir_of. rewrite E3. destruct (decide (b = r)) as [->|Hne]; [rewrite lookup_insert_eq|rewrite lookup_insert_ne by done; tauto].
    simpl. rewrite Z.div_mul by lia. intros [= <-]. by left. }
  assert (Hdn : forall b, dir_of (as_pg s) b <> Some nd).
  { intros b Hb'. destruct (dir_of_inv _ _ _ _ Hp Hb') as [Hd _]. unfold is_dir in Hd. congruence. }
  assert (Hdr : dir_of p r = Some nd) by (unfold dir_of; rewrite E3, lookup_insert_eq; simpl; by rewrite Z.div_mul by lia).
  split; simpl.
  - split; [split; [by rewrite E2; apply (pi_paging _ _ Hp)|done|]| |by rewrite Efr|].
    + destruct (pi_curr _ _ Hp) as (y & e & Hy & Ey & Hcr & He). exists y, e. rewrite E3, E4, E1, lookup_insert_ne by congruence.
      split_and!; [done..|]. apply add_dir_is; by right.
    + rewrite E3. intros b x [[<- <-]|[Hne Hx]]%lookup_insert_Some; simpl; [exists nd; split; [done|apply add_dir_is; by left]|].
      destruct (pi_spaces _ _ Hp _ _ Hx) as (e & Ee & He). exists e. split; [done|]. apply add_dir_is; by right.
    + rewrite Efr, Hlv. simpl. intros f o [[<- _]|[_ Ho]]%lookup_insert_Some; [clear; set_solver|]. apply elem_of_union_r, (pi_live _ _ Hp _ _ Ho).
  - apply Hus, Hi.
  - done.
  - apply Hi.
  - rewrite E3. intros b x [[<- _]|[_ Hx]]%lookup_insert_Some; [right; clear; set_solver|].
    destruct (sp_keys _ _ _ Hi b x Hx); [by left|right; by apply elem_of_union_r].
  - intros b b' e [[-> ->]|[Hne He]]%Hdo [[-> ?]|[Hne' He']]%Hdo; [done|by apply Hdn in He'|subst e; by apply Hdn in He|by apply (sp_inj _ _ _ Hi b b' e)].
  - intros e He. apply add_dir_is in He as [->|He]; [by exists r|]. destruct (sp_dirs _ _ _ Hi e He) as [b Hbe]. exists b.
    unfold dir_of in Hbe |- *. rewrite E3, lookup_insert_ne; [done|]. intros <-. by rewrite Hfs in Hbe.
Qed.

Lemma create_failed_intro L B s a fr e : spaces_inv L B s -> hp_live a B -> fr_ok fr -> fr_live fr = fr_live (pg_frames (as_pg s)) ->
  create_failed L B s (mk_ast (put_errors (pg_errors (as_pg s) ++ [e]) (put_frames fr (as_pg s))) a (as_ncpus s) (as_cpus s)).
Proof.
  intros Hi Ha Hok Hlv. destruct Hi as [Hpg H2 H3 H4 H5 H6 H7]. split_and!; try done.
  - split; try done. destruct Hpg as [[P1 P2 P3] P4 P5 P6]. split; [by split|done|done|]. simpl. rewrite Hlv. done.
  - simpl. rewrite length_app. simpl. lia.
Qed.

Lemma create_new_addr_space_spec L B s : spaces_inv L B s ->
  wpx fr_fault (create_new_addr_space c KERNEL_ADDR_SPACE junk)
    (fun r s' => (r = NULL /\ create_failed L B s s') \/ (r <> NULL /\ created L B s r s')) s.
Proof.
  intros Hi. pose proof (sp_pg _ _ _ Hi) as Hp. unfold create_new_addr_space.
  apply wpx_bind, wpx_on_heap. eapply wp_mono; [apply (hp_kmalloc_law _ B); [apply Hi|unfold SIZEOF_ADDR_SPACE, MAX_SMALL; lia]|].
  intros r a [[-> Ha]|(Hr & Hb & Ha)].
  - rewrite Z.eqb_refl. eapply wpx_bind_ok; [done|]. apply wpx_ret. left. split; [done|].
    apply (create_failed_intro L B s a (pg_frames (as_pg s))); [done|done|apply Hp|done].
  - rewrite (proj2 (Z.eqb_neq r NULL) Hr).
    assert (Hk : r <> KERNEL_ADDR_SPACE).
    { intros ->. apply (hp_live_static _ _ KERNEL_ADDR_SPACE Ha); [clear; set_solver|apply Hi]. }
    apply wpx_bind, wpx_on_pg. eapply wpx_mono; [apply alloc_page_table_spec, Hp|].
    intros q p (fr & -> & Hok & [[-> Hlv]|(nd & -> & Hf & Hnd & Hlv)]).
    + rewrite Z.eqb_refl. eapply wpx_bind_ok; [done|]. apply wpx_bind, wpx_on_heap. simpl.
      eapply wp_mono; [apply (hp_kfree_law _ ({[r]} ∪ B)); [done|clear; set_solver]|].
      intros [] a' Ha'. apply wpx_ret. left. split; [done|].
      apply (create_failed_intro L B s a' fr); [done| |done|done].
      replace (({[r]} ∪ B) ∖ {[r]}) with B in Ha' by (clear -Hb; set_solver). done.
    + rewrite no_frame_ne by done. eapply wpx_bind_ok; [done|]. apply wpx_bind, wpx_on_pg, wpx_wp.
      eapply wp_mono.
      { apply (paging_setup_new_page_dir_spec c KERNEL_ADDR_SPACE junk Hc L (with_space r nd fr (as_pg s)) nd); [by apply (with_space_core L B)| |done].
        destruct (own L !! nd) as [o|] eqn:Eo; [|done]. exfalso. by apply Hnd, (pi_live _ _ Hp _ _ Eo). }
      intros [] p Hset. apply wpx_ret. right. split; [done|]. by apply (created_inv L B s a r nd fr p).
Qed.


(** *** [delete_addr_space] *)

(** No cpu uses the address space. *)
Definition unused s (a : Z) : Prop :=
  pg_curr (as_pg s) <> a /\ forall cpu, 0 <= cpu < as_ncpus s -> cpu <> c -> as_cpus s cpu <> a.

(** The frames that the user pages of [d] map are allocated and mapped once. *)
Definition owns_pages (L : layout) (p : pgst F) (d : Z) : Prop :=
  (forall v pte, user_page p d v pte -> entry_addr pte ∈ data_frames L p) /\
  (forall v pte v' pte', user_page p d v pte -> user_page p d v' pte' -> entry_addr pte = entry_addr pte' -> v = v').

Definition deleted (L : layout) (B : gset Z) s (a d : Z) s' : Prop :=
  spaces_inv (drop_dir d L) (B ∖ {[a]}) s' /\
  pg_spaces (as_pg s') = delete a (pg_spaces (as_pg s)) /\
  pg_curr (as_pg s') = pg_curr (as_pg s) /\ pg_cr3 (as_pg s') = pg_cr3 (as_pg s) /\
  (forall f, f ∈ fr_live (pg_frames (as_pg s')) <->
    f ∈ fr_live (pg_frames (as_pg s)) /\ ~ freed_with_dir L (as_pg s) d f) /\
  same_pages (drop_dir d L) (pg_mem (as_pg s)) (pg_mem (as_pg s')).

Lemma deleted_inv L B s a d h p :
  spaces_inv L B s -> dir_of (as_pg s) a = Some d -> pg_curr (as_pg s) <> a -> owns_pages L (as_pg s) d ->
  hp_live h (B ∖ {[a]}) -> free_post c L (as_pg s) d p ->
  deleted L B s a d (mk_ast (put_spaces (delete a (pg_spaces p)) (pg_if p) p) h (as_ncpus s) (as_cpus s)).
Proof.
  intros Hi Hda Hcur Hown Hh (p1 & Hst & Hok & Hlv & Ep). pose proof (sp_pg _ _ _ Hi) as Hp. pose proof (pi_mem _ _ Hp) as Hm.
  destruct (dir_of_inv _ _ _ _ Hp Hda) as [Hd _].
  assert (Hsame : pg_spaces p = pg_spaces (as_pg s) /\ pg_curr p = pg_curr (as_pg s) /\ pg_cr3 p = pg_cr3 (as_pg s) /\ pg_mem p = pg_mem p1 /\ pg_paging p = pg_paging (as_pg s)).
  { destruct Hst as [[E1 E2 E3 E4 E5 E6 E7] _ _ _]. simpl in *. by destruct (pg_online (as_pg s)); subst p; simpl. }
  destruct Hsame as (Es & Ec & Ecr & Em & Epg).
  assert (Hw : forall e k, is_dir L e -> word (pg_mem p) e k = word (pg_mem (as_pg s)) e k).
  { intros e k He. rewrite Em, (ts_word _ _ _ _ Hst); [done|]. intros [= E _]. by apply (temp_not_dir _ _ Hm e). }
  assert (Hne : forall b e, dir_of (as_pg s) b = Some e -> b <> a -> e <> d).
  { intros b e Hb Hba ->. apply Hba. by apply (sp_inj _ _ _ Hi b a d). }
  assert (Hdo : forall b e, dir_of (put_spaces (delete a (pg_spaces p)) (pg_if p) p) b = Some e <-> b <> a /\ dir_of (as_pg s) b = Some e).
  { intros b e. unfold dir_of. simpl. rewrite Es. destruct (decide (b = a)) as [->|Hba]; [rewrite lookup_delete_eq|rewrite lookup_delete_ne by done]; naive_solver. }
  unfold deleted. simpl. rewrite Es in Hdo |- *. rewrite Ec, Ecr. split_and!; try done.
  2:{ intros e v [He Hned]%drop_dir_is Hv. rewrite Em. apply (lookup_page_temp c L); [apply Hp|done|done|apply Hst]. }
  split; simpl; [| |done|apply Hi| | |].
  - split; [split; [by simpl; rewrite Epg; apply (pi_paging _ _ Hp)| |]| |done|]; simpl.
    + apply mem_inv_drop_dir; [|done]. by apply (mem_inv_ext _ _ Hm).
    + destruct (pi_curr _ _ Hp) as (y & e & Hy & Ey & Hcr & He). exists y, e. rewrite Ec, Ecr, lookup_delete_ne by congruence.
      split_and!; [done..|]. apply drop_dir_is. split; [done|]. apply (Hne (pg_curr (as_pg s))); [|done].
      unfold dir_of. rewrite Hy. simpl. by rewrite Ey, Z.div_mul by lia.
    + intros b x [Hba Hx]%lookup_delete_Some. destruct (pi_spaces _ _ Hp _ _ Hx) as (e & Ee & He). exists e. split; [done|].
      apply drop_dir_is. split; [done|]. apply (Hne b); [|done]. unfold dir_of. rewrite Hx. simpl. by rewrite Ee, Z.div_mul by lia.
    + intros f o (Ho & Hfd & Hk)%drop_dir_own. apply Hlv. split; [by apply (pi_live _ _ Hp _ _ Ho)|].
      intros [[(v & pte & _ & Hup & E)|(k & _ & Hk')]|E]; [|simplify_eq; by apply (Hk k)|done].
      destruct Hown as [Hdat _]. specialize (Hdat _ _ Hup). unfold data_frames in Hdat. apply elem_of_difference in Hdat as [_ Hno].
      rewrite not_elem_of_dom, E in Hno. congruence.
  - intros f e k [Ho _]%drop_dir_own. destruct (sp_used _ _ _ Hi f e k Ho) as (j & Hj & Hpr). exists j. split; [done|].
    rewrite Em, (ts_word _ _ _ _ Hst); [done|]. intros [= -> _]. by rewrite (temp_owner _ _ Hm) in Ho.
  - intros b x [Hba Hx]%lookup_delete_Some. destruct (sp_keys _ _ _ Hi b x Hx) as [|Hb]; [by left|right]. clear -Hb Hba. set_solver.
  - intros b b' e [_ Hb]%Hdo [_ Hb']%Hdo. by apply (sp_inj _ _ _ Hi b b' e).
  - intros e [He Hed]%drop_dir_is. destruct (sp_dirs _ _ _ Hi e He) as [b Hb]. exists b. apply Hdo. split; [|done]. intros ->. congruence.
Qed.

Lemma delete_addr_space_spec L B s a d :
  spaces_inv L B s -> dir_of (as_pg s) a = Some d -> a <> KERNEL_ADDR_SPACE -> unused s a -> owns_pages L (as_pg s) d ->
  wp (delete_addr_space c KERNEL_ADDR_SPACE junk a) (fun _ s' => deleted L B s a d s') s.
Proof.
  intros Hi Hda Hk [Hcur Hcpu] Hown. pose proof (sp_pg _ _ _ Hi) as Hp. unfold delete_addr_space. rewrite (proj2 (Z.eqb_neq _ _) Hk).
  eapply wp_bind_ok; [done|]. apply wp_bind, wp_gets. apply wp_bind.
  eapply wp_mono; [apply (wp_for_each (fun l s1 => s1 = s /\ forall cpu, cpu ∈ l -> 0 <= cpu < as_ncpus s))|].
  - split; [done|]. intros cpu. by rewrite elem_of_range.
  - intros cpu l s1 [-> Hl]. apply wp_bind, wp_gets. destruct (Hl cpu ltac:(left)) as [H1 H2].
    assert (Hne : (if cpu =? c then pg_curr (as_pg s) else as_cpus s cpu) <> a).
    { destruct (Z.eqb_spec cpu c) as [->|]; [done|]. by apply Hcpu. }
    rewrite (proj2 (Z.eqb_neq _ _) Hne). apply wp_ret. split; [done|]. intros cpu' Hin. apply Hl. by right.
  - intros [] s1 [-> _]. apply wp_bind, wp_zoom.
    eapply wp_mono; [apply (paging_free_addr_space_spec c KERNEL_ADDR_SPACE junk Hc L (as_pg s) a d Hp Hda); apply Hown|].
    intros [] p Hfp. apply wp_bind, wp_zoom.
    assert (Hb : a ∈ B).
    { unfold dir_of in Hda. destruct (pg_spaces (as_pg s) !! a) as [x|] eqn:Ex; [|done]. by destruct (sp_keys _ _ _ Hi a x Ex). }
    eapply wp_mono; [apply (hp_kfree_law _ B); [apply Hi|done]|]. intros [] h Hh. apply wp_zoom, wp_modify.
    by apply (deleted_inv L B s a d h p).
Qed.

End Spaces.
