(* ===== verification/PagingProps.v ===== *)
(** * Theorems on paging and address spaces

    The frame allocator of [FrameAlloc] keeps the promises [FrameLaws] that
    paging relies on; the theorems on mapping, unmapping, searching, creating
    and deleting address spaces and enabling paging; and what goes wrong where
    the code does not keep its own invariant. *)

From S2P Require Import Prelude Math Bits Bitmap Spinlock Multiboot ErrorCodes FrameAlloc Kmalloc KHeap CMem Paging PagingSpec PagingRange PagingFind PagingBoot AddrSpace.

(** ** The frame allocator *)

Section FrameAllocator.
Context (c : Z).

Definition fa_frames : Frames frame_alloc := {| fr_alloc := alloc_frame c; fr_free := FrameAlloc.free_frame c |}.

Definition used_frames (s : frame_alloc) : gset Z := bits_below (bm_size (FRAME_BITMAP s)) ∖ free_frames s.

Lemma free_below s : free_frames s ⊆ bits_below (bm_size (FRAME_BITMAP s)).
Proof. unfold free_frames, free_bits. intros x. rewrite elem_of_filter. tauto. Qed.

Lemma elem_of_bits_below x n : x ∈ bits_below n <-> 0 <= x < n.
Proof. unfold bits_below. by rewrite elem_of_list_to_set, elem_of_range. Qed.

Lemma used_step s X es s' : fa_step s X es s' -> used_frames s' = bits_below (bm_size (FRAME_BITMAP s)) ∖ X.
Proof. intros Hst. unfold used_frames. by rewrite (fa_step_free _ _ _ _ Hst), (bec_size _ _ _ (fs_bitmap _ _ _ _ Hst)). Qed.

#[export] Instance fa_frame_laws : @FrameLaws frame_alloc fa_frames.
Proof.
  refine (@Build_FrameLaws frame_alloc fa_frames fa_ok used_frames _ _).
  - intros s Hok. unfold wpx. destruct (fr_alloc s) as [[r s']|h] eqn:E; [|done]. pose proof (free_below s) as Hb.
    destruct (do_allocation_result c false s r s' Hok E) as [[-> [es Hst]]|(i & -> & Hi & Hr & Hst)].
    + split; [by eapply fa_step_ok|]. left. split; [done|]. by rewrite (used_step _ _ _ _ Hst).
    + split; [by eapply fa_step_ok|]. right. exists i. pose proof (ok_size _ Hok). unfold frame_ok. split_and!; [done|lia|lia| |].
      * unfold used_frames. set_solver.
      * rewrite (used_step _ _ _ _ Hst). unfold used_frames. apply set_eq. intros x.
        rewrite !elem_of_difference, elem_of_union, elem_of_singleton, elem_of_difference.
        destruct (decide (x = i)) as [->|]; [|tauto]. pose proof (Hb i Hi). tauto.
  - intros s f Hok Hf. unfold used_frames in Hf. apply elem_of_difference in Hf as [Hb Hu]. rewrite elem_of_bits_below in Hb.
    eapply wp_mono; [apply (free_frame_wp c (f * 4096)); try done|]; rewrite ?Z.div_mul, ?Z.mod_mul; try done; try lia.
    intros [] s' Hst. split; [by eapply fa_step_ok|]. rewrite (used_step _ _ _ _ Hst). unfold used_frames. set_solver.
Defined.

End FrameAllocator.

(** ** Checking a layout *)

Definition dir_okb (L : layout) (m : pmem) (d : Z) : bool :=
  present (word m d 1023) && (entry_addr (word m d 1023) =? d) &&
  forallb (fun i => present (word m d i) && (entry_addr (word m d i) =? kt L i)) (range 768 1023) &&
  forallb (fun i => negb (present (word m d i)) || bool_decide (own L !! entry_addr (word m d i) = Some (OTab d i))) (range 0 768).

Definition owner_okb (L : layout) (m : pmem) (p : Z * owner) : bool :=
  (0 <=? p.1) && (p.1 <? 2 ^ 20) &&
  match p.2 with
  | ODir => dir_okb L m p.1
  | OTab d i => bool_decide (own L !! d = Some ODir) && (0 <=? i) && (i <? 768) && present (word m d i) && (entry_addr (word m d i) =? p.1)
  | OKTab _ => true
  end.

Definition layout_okb (L : layout) (m : pmem) : bool :=
  forallb (owner_okb L m) (map_to_list (own L)) &&
  forallb (fun i => bool_decide (own L !! kt L i = Some (OKTab i))) (range 768 1023).

Lemma forallb_range_spec f lo hi : forallb f (range lo hi) = true -> forall i, lo <= i < hi -> f i = true.
Proof. rewrite forallb_forall. intros Hall i Hi. apply Hall, list_elem_of_In, elem_of_range. lia. Qed.

Lemma layout_okb_spec L m : layout_okb L m = true -> mem_inv L m.
Proof.
  unfold layout_okb. rewrite andb_true_iff. intros [Hall Hkt]. rewrite forallb_forall in Hall.
  assert (Ho : forall f o, own L !! f = Some o -> owner_okb L m (f, o) = true).
  { intros f o Hf. by apply Hall, list_elem_of_In, elem_of_map_to_list. }
  assert (Hd : forall d, is_dir L d -> dir_okb L m d = true).
  { intros d Hdir. specialize (Ho _ _ Hdir). unfold owner_okb in Ho. apply andb_true_iff in Ho. apply Ho. }
  split.
  - intros f o Hf. specialize (Ho _ _ Hf). unfold owner_okb in Ho. simpl in Ho. unfold frame_ok. lia.
  - intros d Hdir. specialize (Hd d Hdir). unfold dir_okb in Hd. rewrite !andb_true_iff, Z.eqb_eq in Hd. tauto.
  - intros d i Hdir Hi. specialize (Hd d Hdir). unfold dir_okb in Hd. rewrite !andb_true_iff in Hd. destruct Hd as [[_ Hk] _].
    pose proof (forallb_range_spec _ _ _ Hk i Hi) as E. simpl in E. rewrite andb_true_iff, Z.eqb_eq in E. done.
  - intros i Hi. pose proof (forallb_range_spec _ _ _ Hkt i Hi) as E. by apply bool_decide_eq_true in E.
  - intros d i Hdir Hi Hp. specialize (Hd d Hdir). unfold dir_okb in Hd. rewrite !andb_true_iff in Hd. destruct Hd as [_ Hk].
    pose proof (forallb_range_spec _ _ _ Hk i Hi) as E. simpl in E. rewrite Hp in E. simpl in E. by apply bool_decide_eq_true in E.
  - intros f d i Hf. specialize (Ho _ _ Hf). unfold owner_okb in Ho. cbn [fst snd] in Ho. rewrite !andb_true_iff, bool_decide_eq_true, Z.eqb_eq in Ho.
    unfold is_dir, user_pde. destruct Ho as [_ [[[[? ?] ?] ?] ?]]. split_and!; (done || lia).
Qed.

(** ** A sample machine

    Frame 1 is the directory of the kernel, which is in use, frame 2 the one of
    a process with one page; the tables of the kernel are in the frames from
    256 on, and the frames 600 to 607 are free. *)

Definition kt1 (i : Z) : Z := i - 512.
Definition layout1 : layout :=
  mk_layout (list_to_map ([(1, ODir); (2, ODir); (3, OTab 2 0)] ++ map (fun i => (kt1 i, OKTab i)) (range 768 1023))) kt1.
Definition pde1 (f : Z) : Z := pde_val (new_pde 0 (f * 4096) 0).
Definition pte1 (f : Z) : Z := pte_val (new_pte 0 (f * 4096) VM_WRITE).
Definition mem1 : pmem :=
  list_to_map (map (fun i => ((1, i), pde1 (kt1 i))) (range 768 1023) ++ map (fun i => ((2, i), pde1 (kt1 i))) (range 768 1023) ++
    [((1, 1023), pde1 1); ((2, 1023), pde1 2); ((2, 0), pde1 3); ((3, 5), pte1 16); ((256, 0), pte1 17); ((256, 1), pte1 18); ((257, 0), pte1 19)]).
Definition fa1 : frame_alloc :=
  mk_fa (mk_bitmap 640 8 (replicate 18 0 ++ [0xFF000000; 0])) INIT_SPINLOCK 1 false false sample_boot [].
Definition KAS : Z := 0x100.
Definition UAS : Z := 0x1000.
Definition pg1 : pgst frame_alloc :=
  mk_pg mem1 (1 * 4096) true {[KAS := mk_as INIT_SPINLOCK (1 * 4096); UAS := mk_as INIT_SPINLOCK (2 * 4096)]} KAS true false 0 0 [] fa1.

Lemma layout1_ok : mem_inv layout1 mem1.
Proof. apply layout_okb_spec. by vm_compute. Qed.

Lemma fa1_ok : fa_ok fa1.
Proof.
  split; [|by vm_compute|done]. split; [by vm_compute|by vm_compute| |].
  - apply (bool_decide_unpack _). by vm_compute.
  - by vm_compute.
Qed.

Lemma fa1_used f : 0 <= f < 600 -> f ∈ used_frames fa1.
Proof.
  assert (E : free_frames fa1 = list_to_set (range 600 608)) by (apply (bool_decide_unpack _); by vm_compute).
  intros Hf. unfold used_frames. rewrite elem_of_difference, elem_of_bits_below, E, elem_of_list_to_set, elem_of_range.
  change (bm_size (FRAME_BITMAP fa1)) with 640. lia.
Qed.

Lemma own1_below f o : own layout1 !! f = Some o -> 0 <= f < 600.
Proof.
  assert (Hall : forallb (fun p => (0 <=? p.1) && (p.1 <? 600)) (map_to_list (own layout1)) = true) by by vm_compute.
  rewrite forallb_forall in Hall. intros Hf%elem_of_map_to_list%list_elem_of_In%Hall. cbn [fst] in Hf. lia.
Qed.

#[local] Instance fa_frames0 : Frames frame_alloc := fa_frames 0.
#[local] Instance fa_laws0 : FrameLaws frame_alloc := fa_frame_laws 0.

Lemma pg1_inv : pg_inv layout1 pg1.
Proof.
  split; [split| | |].
  - done.
  - exact layout1_ok.
  - exists (mk_as INIT_SPINLOCK (1 * 4096)), 1. split_and!; by vm_compute.
  - intros a x. unfold pg1, pg_spaces. rewrite lookup_insert_Some, lookup_singleton_Some.
    intros [[<- <-]|[_ [<- <-]]]; [exists 1|exists 2]; (split; [done|by vm_compute]).
  - exact fa1_ok.
  - intros f o Hf. apply fa1_used, (own1_below f o Hf).
Qed.

(** ** Mapping and unmapping *)

Section Claims.
Context {F : Type} `{HLaws : FrameLaws F} (c K junk : Z).


(** C21: [paging_unmap_in] and [paging_unmap_and_free_frames_in] remove exactly
    the mappings of the pages of the range, give the page tables that become
    empty back to the frame allocator and, for the latter only, the frames the
    pages were mapped to; they keep the page tables well formed and flush the
    TLBs.  A kernel page table must not become empty (see
    [unmap_frees_kernel_table]). *)
Theorem paging_unmap_in_correct L (s : pgst F) a d x vaddr len pt (free_phy_frame : bool) :
  0 <= c < 256 -> pg_inv L s -> space_at s a d x -> area_ok K a vaddr len ->
  let b := vaddr / 4096 in
  let n := page_count vaddr len in
  (forall v, b <= v < b + n -> lookup_page (pg_mem s) d v = Some (pt v)) ->
  (free_phy_frame = true -> freed_frames b pt free_phy_frame n ⊆ data_frames L s /\
    NoDup (map (fun v => entry_addr (pt v)) (range b (b + n)))) ->
  (forall v, b <= v < b + n -> 768 * 1024 <= v ->
    exists v', v' / 1024 = v / 1024 /\ ~ (b <= v' < b + n) /\ is_Some (lookup_page (pg_mem s) d v')) ->
  wp ((if free_phy_frame then paging_unmap_and_free_frames_in c K junk else paging_unmap_in c K junk) a vaddr len)
    (fun _ => unmap_in_post L s a d x vaddr len pt free_phy_frame) s.
Proof. intros. destruct free_phy_frame; by apply unmap_locked_spec. Qed.

(** C26: a page is never remapped to something else, and a page that is not
    mapped is never unmapped: [map_page_in] panics if the page is mapped with
    another frame or other flags, and succeeds if it is mapped the same way; [unmap_page_in] panics if the page is not mapped. *)
Theorem page_conflicts_panic L (s : pgst F) a d vp :
  0 <= c < 256 -> pg_inv L s -> dir_of s a = Some d -> page_ok K a vp ->
  match lookup_page (pg_mem s) d vp with
  | Some old => forall f flags, frame_ok f ->
    let pte := pte_val (new_pte junk (f * 4096) flags) in
    if compare_ptes (pte_of_val pte) (pte_of_val old)
    then wpx fr_fault (map_page_in c K junk a (f * 4096) (vp * 4096) flags) (map_post L s a d vp pte) s
    else map_page_in c K junk a (f * 4096) (vp * 4096) flags s = Halt (Panic "Overwriting previous PTE when mapping address")
  | None => forall free_phy_frame,
    unmap_page_in c K junk a (vp * 4096) free_phy_frame s = Halt (Panic "Address is not mapped.")
  end.
Proof.
  intros Hc Hi Hd Hv. destruct (lookup_page (pg_mem s) d vp) as [old|] eqn:E.
  - intros f flags Hf pte. destruct (compare_ptes _ _) eqn:Ec.
    + apply map_vp_spec; try done. intros old' E'. rewrite E in E'. by injection E' as <-.
    + by eapply panics_halt, map_conflict_panics.
  - intros free_phy_frame. by eapply panics_halt, unmap_absent_panics.
Qed.

(** C22: the search for unmapped pages terminates with the lowest address at or
    above the start where enough pages in a row are unmapped, below the
    temporary mappings; it fails, with an error, exactly if there is none.  It
    changes no mapping and no frame. *)
Theorem paging_find_correct L (s : pgst F) x npages p :
  0 <= c < 256 -> pg_inv L s -> space_at s (pg_curr s) (pg_cr3 s / 4096) x -> 0 < npages -> 0 <= p <= LIMIT ->
  wp (paging_find_contiguous_non_mapped_pages_in c K junk (pg_curr s) (p * 4096) npages)
    (fun r s' => first_fit (pg_mem s) (pg_cr3 s / 4096) npages p r /\
      locked_step (pg_curr s) x L s L s' /\ data_frames L s' = data_frames L s /\
      changes L (pg_cr3 s / 4096) nothing (pg_mem s) (pg_mem s') /\
      pg_errors s' = pg_errors s ++ (if r =? NO_REGION then [no_region_error] else [])) s.
Proof. intros. by apply find_locked_spec. Qed.

(** [paging_map_frames_above_in] maps the given frames, in order, at the
    first hole of the kernel's part of the address space that is large enough
    and returns its address, or maps nothing and sets an error if there is no
    hole. *)
Theorem paging_map_frames_above_correct L (s : pgst F) x p flags fs :
  0 <= c < 256 -> pg_inv L s -> pg_curr s = K -> space_at s (pg_curr s) (pg_cr3 s / 4096) x -> fs <> [] ->
  768 * 1024 <= p <= LIMIT -> Forall (fun p => exists f, p = f * 4096 /\ frame_ok f) fs ->
  wpx fr_fault (paging_map_frames_above_in c K junk (pg_curr s) (p * 4096) fs flags) (map_frames_above_post junk L s x p flags fs) s.
Proof. intros. by apply map_frames_above_spec. Qed.

(** C25: [init_paging] either stops the boot, with a fault of the frame
    allocator or one of its panics for lack of memory, or leaves paging on with
    a well-formed address space for the kernel: every page of the kernel image
    is mapped at its higher-half address, writable or not as its section, and
    nothing else is mapped below the temporary mappings, in particular the
    identity mapping is gone. *)
Theorem init_paging_correct sec (s : pgst F) :
  before_paging K s -> 0 <= KERNEL_END_ADDR sec - KERNEL_PHY_OFFSET <= 254 * 2 ^ 22 ->
  wpx boot_halt (init_paging c K junk sec) (fun _ s' => exists d, paging_ready K junk sec d s' /\
    (d ∉ fr_live (pg_frames s)) /\ pg_if s' = pg_if s /\
    exists l, pg_spaces s' = {[K := mk_as l (d * 4096)]}) s.
Proof. intros. by apply init_paging_spec. Qed.

End Claims.

(** ** Address spaces *)

Section SpaceClaims.
Context {F A : Type} `{HFrames : FrameLaws F} `{HHeap : HeapLaws A} (c K junk : Z).

(** C23: [create_new_addr_space] returns a new address space, with a lock of its
    own, no user page and the kernel's pages exactly as in the address space in
    use, at the price of one frame and one block of the heap; or NULL with an
    error set and nothing else changed, the block freed again.  The other
    address spaces map what they mapped. *)
Theorem create_new_addr_space_correct L B (s : asst F A) :
  0 <= c < 256 -> spaces_inv K L B s ->
  wpx fr_fault (create_new_addr_space c K junk)
    (fun r s' => (r = NULL /\ create_failed K L B s s') \/ (r <> NULL /\ created K L B s r s')) s.
Proof. intros. by apply create_new_addr_space_spec. Qed.


Lemma created_owns_nothing (p : pgst F) L nd : (forall v, 0 <= v < 768 * 1024 -> lookup_page (pg_mem p) nd v = None) -> owns_pages L p nd.
Proof. intros Hnone. split; [intros v pte [Hv Hl]|intros v pte v' pte' [Hv Hl]]; by rewrite Hnone in Hl by lia. Qed.

(** creating an address space and deleting it again leaves the set of
    address spaces, the frames in use and every mapping as they were. *)
Theorem create_delete_addr_space L B (s : asst F A) :
  0 <= c < 256 -> spaces_inv K L B s -> (forall cpu, 0 <= cpu < as_ncpus s -> cpu <> c -> is_Some (pg_spaces (as_pg s) !! as_cpus s cpu)) ->
  wpx fr_fault (do a <- create_new_addr_space c K junk; if a =? NULL then ret tt else delete_addr_space c K junk a)
    (fun _ s' => pg_spaces (as_pg s') = pg_spaces (as_pg s) /\
      (forall f, f ∈ fr_live (pg_frames (as_pg s')) <-> f ∈ fr_live (pg_frames (as_pg s))) /\
      same_pages L (pg_mem (as_pg s)) (pg_mem (as_pg s')) /\ exists L', spaces_inv K L' B s') s.
Proof.
  intros Hc Hi Hcpus. pose proof (sp_pg _ _ _ _ Hi) as Hp. apply wpx_bind.
  eapply wpx_mono; [by apply (create_new_addr_space_spec c K junk Hc L B)|].
  intros a s1 [[-> (Hi1 & Hr & Hm & Hl & _)]|[Hnn (Hk & Hb & nd & Hnd & Hi1 & Hl & Hsp & Hcu & Hcr & En & Ec & Hsame & Hnone & _)]].
  { rewrite Z.eqb_refl. apply wpx_ret. rewrite (sr_spaces _ _ Hr), Hl, Hm. split_and!; [done|done|done|by exists L]. }
  rewrite (proj2 (Z.eqb_neq _ _) Hnn). pose proof (fresh_space K L B s a Hi Hk Hb) as Hfs.
  assert (Hno : own L !! nd = None) by (destruct (own L !! nd) as [o|] eqn:Eo; [destruct (Hnd (pi_live _ _ Hp _ _ Eo))|done]).
  apply wpx_wp. eapply wp_mono.
  { apply (delete_addr_space_spec c K junk Hc _ _ s1 a nd Hi1); [|done| |by apply created_owns_nothing].
    - unfold dir_of. rewrite Hsp, lookup_insert_eq. simpl. by rewrite Z.div_mul by lia.
    - split; rewrite ?Hcu, ?En, ?Ec.
      + intros <-. destruct (pi_curr _ _ Hp) as (x & e & Hx & _). congruence.
      + intros cpu Hcp Hne <-. destruct (Hcpus cpu Hcp Hne). congruence. }
  intros [] s2 (Hi2 & Hsp2 & _ & _ & Hl2 & Hs2). rewrite Hsp2, Hsp, delete_insert_id by done. split_and!; [done| | |].
  - intros f. rewrite Hl2, Hl, elem_of_union, elem_of_singleton. split.
    + intros [[->|Hf] Hng]; [destruct Hng; by right|done].
    + intros Hf. split; [by right|]. intros [[(v & pte & _ & [Hv Hlk] & _)|(k & _ & Ho)]| ->]; [by rewrite Hnone in Hlk| |done].
      simpl in Ho. apply lookup_insert_Some in Ho as [[_ [=]]|[_ Ho]]. destruct (mi_tab _ _ (pi_mem _ _ Hp) _ _ _ Ho) as [Hd _]. unfold is_dir in Hd. congruence.
  - intros e v He Hv. rewrite Hs2; [by apply Hsame| |done]. apply drop_dir_is. split; [apply add_dir_is; by right|].
    intros ->. unfold is_dir in He. congruence.
  - eexists. replace B with (({[a]} ∪ B) ∖ {[a]}); [exact Hi2|]. clear -Hb. set_solver.
Qed.

End SpaceClaims.

(** ** The theorems at the sample machine *)

Definition usp : addr_space := mk_as INIT_SPINLOCK (2 * 4096).
Definition ksp : addr_space := mk_as INIT_SPINLOCK (1 * 4096).

Definition unmapped (m : pmem) (d lo hi : Z) : bool :=
  forallb (fun v => match lookup_page m d v with None => true | Some _ => false end) (range lo hi).

Lemma unmapped_spec m d lo hi : unmapped m d lo hi = true -> forall v, lo <= v < hi -> lookup_page m d v = None.
Proof. intros Hall v Hv. pose proof (forallb_range_spec _ _ _ Hall v Hv) as E. simpl in E. by destruct (lookup_page m d v). Qed.

Lemma user_area K a vaddr len : 0 <= vaddr -> 0 <= len -> vaddr + len <= 0xC0000000 -> area_ok K a vaddr len.
Proof. unfold area_ok, KERNEL_PHY_OFFSET. lia. Qed.

Lemma usp_at : space_at pg1 UAS 2 usp.
Proof. by split_and!; vm_compute. Qed.

Lemma ksp_at : space_at pg1 KAS 1 ksp.
Proof. by split_and!; vm_compute. Qed.

Definition returned {S A} (r : result (A * S)) : option A := match r with Ok (a, _) => Some a | Halt _ => None end.


Lemma paging_unmap_in_correct_witness :
  wp (paging_unmap_and_free_frames_in 0 KAS 0 UAS 0x5000 4096) (fun _ => unmap_in_post layout1 pg1 UAS 2 usp 0x5000 4096 (fun _ => pte1 16) true) pg1.
Proof.
  apply (paging_unmap_in_correct 0 KAS 0 layout1 pg1 UAS 2 usp 0x5000 4096 (fun _ => pte1 16) true); [lia|exact pg1_inv|exact usp_at|apply user_area; lia|..].
  - change (0x5000 / 4096) with 5. change (page_count 0x5000 4096) with 1. intros v Hv. replace v with 5 by lia. by vm_compute.
  - intros _. split; [|apply (bool_decide_unpack _); by vm_compute].
    change (freed_frames _ _ _ _) with ({[16]} ∪ ∅ : gset Z). rewrite union_empty_r_L. apply singleton_subseteq_l, elem_of_difference.
    split; [apply fa1_used; lia|]. apply not_elem_of_dom. by vm_compute.
  - change (0x5000 / 4096) with 5. change (page_count 0x5000 4096) with 1. lia.
Defined.

Lemma page_conflicts_panic_witness :
  map_page_in 0 KAS 0 UAS (17 * 4096) (5 * 4096) VM_WRITE pg1 = Halt (Panic "Overwriting previous PTE when mapping address") /\
  unmap_page_in 0 KAS 0 UAS (6 * 4096) true pg1 = Halt (Panic "Address is not mapped.").
Proof.
  assert (Hok : forall vp, 0 <= vp < 768 * 1024 -> page_ok KAS UAS vp) by (intros vp Hv; unfold page_ok; lia).
  pose proof (page_conflicts_panic 0 KAS 0 layout1 pg1 UAS 2 5 ltac:(lia) pg1_inv eq_refl (Hok 5 ltac:(lia))) as H1.
  pose proof (page_conflicts_panic 0 KAS 0 layout1 pg1 UAS 2 6 ltac:(lia) pg1_inv eq_refl (Hok 6 ltac:(lia))) as H2.
  replace (lookup_page (pg_mem pg1) 2 5) with (Some (pte1 16)) in H1 by by vm_compute.
  replace (lookup_page (pg_mem pg1) 2 6) with (@None Z) in H2 by by vm_compute.
  split; [|apply H2]. specialize (H1 17 VM_WRITE ltac:(unfold frame_ok; lia)). cbv zeta in H1.
  match type of H1 with context [if ?b then _ else _] => replace b with false in H1 by by vm_compute end. exact H1.
Defined.

Lemma paging_find_correct_witness :
  returned (paging_find_contiguous_non_mapped_pages_in 0 KAS 0 KAS (768 * 1024 * 4096) 3 pg1) = Some ((768 * 1024 + 2) * 4096) /\
  wp (paging_find_contiguous_non_mapped_pages_in 0 KAS 0 KAS (768 * 1024 * 4096) 3)
    (fun r s' => first_fit mem1 1 3 (768 * 1024) r) pg1.
Proof.
  split; [by vm_compute|]. eapply wp_mono.
  - apply (paging_find_correct 0 KAS 0 layout1 pg1 ksp 3 (768 * 1024)); [lia|exact pg1_inv|exact ksp_at|lia|unfold LIMIT; lia].
  - intros r s' [Hf _]. exact Hf.
Defined.

Lemma paging_map_frames_above_correct_witness :
  returned (paging_map_frames_above_in 0 KAS 0 KAS (768 * 1024 * 4096) [20 * 4096; 33 * 4096] VM_WRITE pg1) = Some ((768 * 1024 + 2) * 4096) /\
  wpx fr_fault (paging_map_frames_above_in 0 KAS 0 KAS (768 * 1024 * 4096) [20 * 4096; 33 * 4096] VM_WRITE)
    (map_frames_above_post 0 layout1 pg1 ksp (768 * 1024) VM_WRITE [20 * 4096; 33 * 4096]) pg1.
Proof.
  split; [by vm_compute|].
  apply (paging_map_frames_above_correct 0 KAS 0 layout1 pg1 ksp); [lia|exact pg1_inv|reflexivity|exact ksp_at|discriminate|unfold LIMIT; lia|].
  repeat constructor; [exists 20|exists 33]; unfold frame_ok; lia.
Defined.

(** *** Boot *)

Definition fa0 : frame_alloc :=
  mk_fa (mk_bitmap 640 512 (replicate 4 0 ++ replicate 16 0xFFFFFFFF)) INIT_SPINLOCK 1 false false sample_boot [].
Definition pg0 : pgst frame_alloc :=
  mk_pg ∅ 0 false {[KAS := mk_as INIT_SPINLOCK NULL]} KAS false false 0 0 [] fa0.
Definition sections0 : sections := mk_sections 0xC0003800 0xC0001000 0xC0002000 0xC0002000 0xC0003000.

Lemma fa0_ok : fa_ok fa0.
Proof.
  split; [|by vm_compute|done]. split; [by vm_compute|by vm_compute| |].
  - apply (bool_decide_unpack _). by vm_compute.
  - by vm_compute.
Qed.

Lemma pg0_before : before_paging KAS pg0.
Proof.
  split; [done|by exists INIT_SPINLOCK|exact fa0_ok|]. apply (bool_decide_unpack _). by vm_compute.
Qed.

Lemma init_paging_correct_witness :
  wpx boot_halt (init_paging 0 KAS 0 sections0) (fun _ s' => exists d, paging_ready KAS 0 sections0 d s' /\
    (d ∉ fr_live (pg_frames pg0)) /\ pg_if s' = false /\
    exists l, pg_spaces s' = {[KAS := mk_as l (d * 4096)]}) pg0.
Proof.
  apply (init_paging_correct 0 KAS 0 sections0 pg0 pg0_before). simpl. unfold KERNEL_PHY_OFFSET. lia.
Defined.

(** *** Address spaces *)

Definition heap1 : counting := mk_counting 0x2000 {[UAS]} false.
Definition spaces1 : asst frame_alloc counting := mk_ast pg1 heap1 2 (fun _ => KAS).

Lemma own1_cases f o : own layout1 !! f = Some o -> match o with ODir => f = 1 \/ f = 2 | OTab d i => f = 3 /\ d = 2 /\ i = 0 | OKTab _ => True end.
Proof.
  assert (Hall : forallb (fun p => match p.2 with ODir => (p.1 =? 1) || (p.1 =? 2) | OTab d i => (p.1 =? 3) && (d =? 2) && (i =? 0) | OKTab _ => true end)
    (map_to_list (own layout1)) = true) by by vm_compute.
  rewrite forallb_forall in Hall. intros Hf%elem_of_map_to_list%list_elem_of_In%Hall. cbn [fst snd] in Hf. destruct o; [lia|lia|done].
Qed.

Lemma dirs1 a d : dir_of pg1 a = Some d <-> (a = KAS /\ d = 1) \/ (a = UAS /\ d = 2).
Proof.
  unfold dir_of, pg1, pg_spaces. destruct (decide (a = KAS)) as [->|Hk]; [rewrite lookup_insert_eq|rewrite lookup_insert_ne by done].
  - change (page_dir_phy_addr <$> _) with (Some (1 * 4096)). simpl. unfold KAS, UAS. split; [intros [= <-]; by left|intros [[_ ->]|[? _]]; done].
  - destruct (decide (a = UAS)) as [->|Hu]; [rewrite lookup_singleton_eq|rewrite lookup_singleton_ne by done].
    + simpl. split; [intros [= <-]; by right|intros [[? _]|[_ ->]]; done].
    + simpl. split; [done|]. intros [[? _]|[? _]]; done.
Qed.

Lemma spaces1_inv : spaces_inv KAS layout1 {[UAS]} spaces1.
Proof.
  split.
  - exact pg1_inv.
  - intros f d i Ho. destruct (own1_cases _ _ Ho) as (-> & _ & _). exists 5. split; [lia|by vm_compute].
  - unfold hp_live. simpl. split_and!; [done|lia|]. intros p ->%elem_of_singleton. unfold UAS. lia.
  - unfold hp_static. simpl. unfold KAS. lia.
  - intros a x. cbn [as_pg spaces1 pg_spaces pg1]. rewrite lookup_insert_Some, lookup_singleton_Some. intros [[<- _]|[_ [<- _]]]; [by left|right; by apply elem_of_singleton].
  - intros a b d Ha%dirs1 Hb%dirs1. lia.
  - intros d Hd. destruct (own1_cases _ _ Hd) as [->| ->]; [exists KAS|exists UAS]; apply dirs1; lia.
Qed.

Lemma create_new_addr_space_correct_witness :
  returned (create_new_addr_space 0 KAS 0 spaces1) = Some 0x2000 /\
  wpx fr_fault (create_new_addr_space 0 KAS 0)
    (fun r s' => (r = NULL /\ create_failed KAS layout1 {[UAS]} spaces1 s') \/ (r <> NULL /\ created KAS layout1 {[UAS]} spaces1 r s')) spaces1.
Proof. split; [by vm_compute|]. apply create_new_addr_space_correct; [lia|exact spaces1_inv]. Defined.

(** A directory with one table below the kernel's part, which maps one page. *)
Lemma single_page m d t j :
  (forall i, 1 <= i < 768 -> present (word m d i) = false) -> entry_addr (word m d 0) = t ->
  (forall k, 0 <= k < 1024 -> k <> j -> present (word m t k) = false) ->
  forall v pte, 0 <= v < 768 * 1024 -> lookup_page m d v = Some pte -> v = j /\ pte = word m t j.
Proof.
  intros Hd Ht Hj v pte Hv. destruct (page_parts v ltac:(lia)) as [Hri Hrj]. pose proof (Z.div_mod v 1024 ltac:(lia)) as Ev.
  unfold lookup_page. destruct (decide (v / 1024 = 0)) as [E|Hne]; [|by rewrite Hd by lia].
  rewrite E, Ht. destruct (present (word m d 0)); [|done]. destruct (decide (v mod 1024 = j)) as [<-|Hne]; [|by rewrite Hj].
  destruct (present _); [|done]. intros [= <-]. split; [lia|done].
Qed.

Lemma pages1 v pte : user_page pg1 2 v pte -> v = 5 /\ pte = word mem1 3 5.
Proof.
  assert (H1 : forallb (fun i => negb (present (word mem1 2 i))) (range 1 768) = true) by by vm_compute.
  assert (H2 : forallb (fun j => (j =? 5) || negb (present (word mem1 3 j))) (range 0 1024) = true) by by vm_compute.
  intros [Hv Hl]. revert Hl. apply (single_page mem1 2 3 5); [| by vm_compute | |done].
  - intros i Hi. apply negb_true_iff, (forallb_range_spec _ _ _ H1 i Hi).
  - intros k Hk Hne. pose proof (forallb_range_spec _ _ _ H2 k Hk) as E. cbv beta in E.
    rewrite (proj2 (Z.eqb_neq _ _) Hne) in E. by apply negb_true_iff.
Qed.


Lemma create_delete_addr_space_witness :
  wpx fr_fault (do a <- create_new_addr_space 0 KAS 0; if a =? NULL then ret tt else delete_addr_space 0 KAS 0 a)
    (fun _ s' => pg_spaces (as_pg s') = pg_spaces pg1 /\
      (forall f, f ∈ fr_live (pg_frames (as_pg s')) <-> f ∈ fr_live (pg_frames pg1)) /\
      same_pages layout1 (pg_mem pg1) (pg_mem (as_pg s')) /\ exists L', spaces_inv KAS L' {[UAS]} s') spaces1.
Proof.
  apply (create_delete_addr_space 0 KAS 0 layout1 {[UAS]} spaces1); [lia|exact spaces1_inv|].
  intros cpu _ _. change (is_Some (pg_spaces pg1 !! KAS)). by exists ksp.
Defined.

(** ** Where the code breaks its own rules *)

(** Unmapping the last page of a kernel page table frees the table, but only
    the directory of one address space learns about it: the entry of the other
    one still refers to the frame, which is free now.  [init_paging] allocates
    the kernel's tables ahead of time so that all address spaces can share
    them. *)
Lemma unmap_frees_kernel_table :
  match unmap_page_in 0 KAS 0 KAS (769 * 2 ^ 22) false pg1 with
  | Ok (_, s') => present (word (pg_mem s') 1 769) = false /\ present (word (pg_mem s') 2 769) = true /\
      entry_addr (word (pg_mem s') 2 769) = 257 /\ bool_decide (257 ∈ free_frames (pg_frames s')) = true
  | Halt _ => False
  end.
Proof. vm_compute. done. Qed.

(** The machine without free frames. *)
Definition pg_full : pgst frame_alloc :=
  put_frames (mk_fa (mk_bitmap 640 0 (replicate 20 0)) INIT_SPINLOCK 1 false false sample_boot []) pg1.

(** When a page table cannot be allocated, [paging_map_frames_above_in] returns
    with the lock of the address space held and interrupts off. *)
Lemma map_frames_above_keeps_lock :
  match paging_map_frames_above_in 0 KAS 0 KAS 0x400000 [20 * 4096] VM_WRITE pg_full with
  | Ok (r, s') => r = NO_REGION /\ ((fun x => lock (as_lock x)) <$> pg_spaces s' !! KAS) = Some 1 /\ pg_if s' = false
  | Halt _ => False
  end.
Proof. vm_compute. done. Qed.

(** The machine with a word in the data page of the process. *)
Definition pg_data : pgst frame_alloc := put_mem (<[(16, 0) := 1]> mem1) pg1.

(** The search in an address space that is not in use goes on reading the page
    directory where the last page table has been mapped since: here the entry 5
    of that table is taken for the directory's, and the content of a data page
    for a page table, so that a hole that is there is not found. *)
Lemma find_reads_wrong_directory :
  returned (paging_find_contiguous_non_mapped_pages_in 0 KAS 0 UAS (1020 * 4096) 4101 pg_data) = Some (1024 * 4096) /\
  unmapped (pg_mem pg_data) 2 1020 (1020 + 4101) = true.
Proof. by split; vm_compute. Qed.
