(* ===== verification/Ipm.v ===== *)
(** * Inter-processor messages: [src/ipm.c], [src/ipm.h]

    Every cpu is a stack of activations: code that may call the functions of
    this file ([Kernel]), one of these functions at some point of its body, or
    the interrupt handler.  A step of a cpu executes one statement that touches
    shared data; what [ipm.c] does under the lock of a message queue is one
    step, since the lock excludes the other cpus ([Spinlock]) and interrupts.
    Steps of different cpus interleave in any order, and an IPI that is pending
    is taken at any step of a cpu whose interrupts are enabled, the body of the
    handler included.

    The objects the cpus share are the messages, the [struct remote_call_data]
    and the counters of TLB shootdowns, each at an address; an access to an
    address where there is no such object (any more) is a [Trap].  The fields
    marked as ghost are read by no code. *)

From S2P Require Import Prelude Spinlock.

Inductive ipm_tag_t := TEST_TAG | REMOTE_CALL | TLB_SHOOTDOWN.

#[export] Instance ipm_tag_eq_dec : EqDecision ipm_tag_t.
Proof. solve_decision. Defined.

(** [number] (ghost) numbers the sends: the messages of a broadcast share it. *)
Record ipm_message := mk_message {
  tag : ipm_tag_t; sender_id : Z; receiver_dealloc : bool; data : Z; len : Z; number : Z }.

(** [executed] (ghost) lists the cpus that have called the function. *)
Record remote_call_data := mk_call {
  func : Z; arg : Z; ref_count : Z; is_synchronous : bool; completed_count : Z; executed : list Z }.

Definition set_ref_count (v : Z) (r : remote_call_data) : remote_call_data :=
  mk_call (func r) (arg r) v (is_synchronous r) (completed_count r) (executed r).
Definition set_completed_count (v : Z) (r : remote_call_data) : remote_call_data :=
  mk_call (func r) (arg r) (ref_count r) (is_synchronous r) v (executed r).
Definition set_executed (v : list Z) (r : remote_call_data) : remote_call_data :=
  mk_call (func r) (arg r) (ref_count r) (is_synchronous r) (completed_count r) v.

(** ** The activations *)

(** The arguments of [do_send_ipm]. *)
Record send := mk_send { to_cpu : Z; s_tag : ipm_tag_t; s_data : Z; s_len : Z; s_number : Z }.

(** What the caller of [do_send_ipm] does next: nothing, or, after
    [exec_remote_call] and [broadcast_remote_call], wait for [completions] cpus
    to complete the call; [dests] (ghost) are these cpus. *)
Inductive after := Return | Await (completions : Z) (dests : list Z).

(** The call that [handle_remote_call] works on: its own copy, or the original. *)
Inductive handled := Copied (r : remote_call_data) | Original (call : Z).

(** The locals of [exec_tlb_shootdown]: its message and counter are on the
    stack.  [since] (ghost) is how often each cpu had flushed its TLB when the
    function was called. *)
Record shootdown := mk_shootdown { tlb_message : Z; wait : Z; target : Z; since : Z -> Z }.

Inductive frame :=
| Kernel
(* [do_send_ipm] *)
| SendLoop (x : send) (i : Z) (k : after)
| SendEnqueue (x : send) (i message : Z) (k : after)
| SendIpi (x : send) (k : after)
(* the end of [exec_remote_call] and [broadcast_remote_call] *)
| CallWait (rem_data completions : Z) (dests : list Z)
| CallFree (rem_data completions : Z) (dests : list Z)
(* [exec_tlb_shootdown] *)
| ShootNext (x : shootdown)
| ShootInit (x : shootdown)
| ShootEnqueue (x : shootdown)
| ShootIpi (x : shootdown)
| ShootEnable (x : shootdown)
| ShootWait (x : shootdown) (irqs : bool)
(* [generic_interrupt_handler] around [ipm_handler] *)
| HandlerEntry
| HandlerExit
(* [process_messages] *)
| Process
| ProcessCopy (first : Z)
| ProcessDispatch (msg : ipm_message)
| TlbFlush (wait : Z)
| TlbAck (wait : Z)
(* [handle_remote_call] *)
| HandleCheck (call : Z)
| HandleMode (call : Z)
| HandleDec (call : Z) (call_cpy : remote_call_data)
| HandleFree (call : Z) (call_cpy : remote_call_data)
| HandleCall (h : handled)
| HandleReturn (h : handled) (irqs : bool)
| HandleSyncDec (call : Z)
| HandleSyncInc (call : Z).

(** [IF] is the interrupt flag, [preempt] the preemption counter. *)
Record thread := mk_thread { stack : list frame; IF_ : bool; preempt : Z }.

(** [ipi]: the IPM interrupt is pending at the local APIC; [tlb]: the number of
    times the TLB was flushed.  [issued] and [delivered] (ghost) list the
    messages, as their number and destination, when they are sent and when they
    are processed. *)
Record ipmst := mk_ipm {
  messages : gmap Z ipm_message;
  calls : gmap Z remote_call_data;
  counters : gmap Z Z;
  message_queue : Z -> list Z;
  ipi : Z -> bool;
  tlb : Z -> Z;
  threads : Z -> thread;
  next_number : Z;
  issued : list (Z * Z);
  delivered : list (Z * Z) }.

Definition upd {A} (f : Z -> A) (c : Z) (v : A) : Z -> A := fun d => if decide (d = c) then v else f d.

Section Setters.
Definition put_messages x s := mk_ipm x (calls s) (counters s) (message_queue s) (ipi s) (tlb s) (threads s) (next_number s) (issued s) (delivered s).
Definition put_calls x s := mk_ipm (messages s) x (counters s) (message_queue s) (ipi s) (tlb s) (threads s) (next_number s) (issued s) (delivered s).
Definition put_counters x s := mk_ipm (messages s) (calls s) x (message_queue s) (ipi s) (tlb s) (threads s) (next_number s) (issued s) (delivered s).
Definition put_queues x s := mk_ipm (messages s) (calls s) (counters s) x (ipi s) (tlb s) (threads s) (next_number s) (issued s) (delivered s).
Definition put_ipi x s := mk_ipm (messages s) (calls s) (counters s) (message_queue s) x (tlb s) (threads s) (next_number s) (issued s) (delivered s).
Definition put_flushes x s := mk_ipm (messages s) (calls s) (counters s) (message_queue s) (ipi s) x (threads s) (next_number s) (issued s) (delivered s).
Definition put_threads x s := mk_ipm (messages s) (calls s) (counters s) (message_queue s) (ipi s) (tlb s) x (next_number s) (issued s) (delivered s).
Definition put_issued n x s := mk_ipm (messages s) (calls s) (counters s) (message_queue s) (ipi s) (tlb s) (threads s) n x (delivered s).
Definition put_delivered x s := mk_ipm (messages s) (calls s) (counters s) (message_queue s) (ipi s) (tlb s) (threads s) (next_number s) (issued s) x.
End Setters.

(** ** Statements *)

Section Ops.
Context (ncpus c : Z).

Definition IPI_BROADCAST : Z := 255.

Definition get_thread : M ipmst thread := gets (fun s => threads s c).
Definition set_thread (t : thread) : M ipmst unit := modify (fun s => put_threads (upd (threads s) c t) s).

(** The activation on top goes on at [f]; it calls [f]; it returns. *)
Definition goto (f : frame) : M ipmst unit := do t <- get_thread; set_thread (mk_thread (f :: tail (stack t)) (IF_ t) (preempt t)).
Definition call (f : frame) : M ipmst unit := do t <- get_thread; set_thread (mk_thread (f :: stack t) (IF_ t) (preempt t)).
Definition return_ : M ipmst unit := do t <- get_thread; set_thread (mk_thread (tail (stack t)) (IF_ t) (preempt t)).

Definition interrupts_enabled : M ipmst bool := do t <- get_thread; ret (IF_ t).
Definition cpu_set_interrupt_flag (b : bool) : M ipmst unit := do t <- get_thread; set_thread (mk_thread (stack t) b (preempt t)).
Definition preempt_disable : M ipmst unit := do t <- get_thread; set_thread (mk_thread (stack t) (IF_ t) (preempt t + 1)).
Definition preempt_enable : M ipmst unit := do t <- get_thread; set_thread (mk_thread (stack t) (IF_ t) (preempt t - 1)).

Definition rd_message (a : Z) : M ipmst ipm_message := fun s => must (messages s !! a) "struct ipm_message" s.
Definition rd_call (a : Z) : M ipmst remote_call_data := fun s => must (calls s !! a) "struct remote_call_data" s.
Definition wr_call (a : Z) (r : remote_call_data) : M ipmst unit := modify (fun s => put_calls (<[a := r]> (calls s)) s).

Definition atomic_read (a : Z) : M ipmst Z := fun s => must (counters s !! a) "atomic_t" s.
Definition atomic_init (a v : Z) : M ipmst unit :=
  do _ <- atomic_read a; modify (fun s => put_counters (<[a := v]> (counters s)) s).
Definition atomic_dec (a : Z) : M ipmst unit :=
  do v <- atomic_read a; modify (fun s => put_counters (<[a := s32 (v - 1)]> (counters s)) s).

(** [atomic_dec_and_test(&call->ref_count)] *)
Definition dec_and_test_ref_count (a : Z) : M ipmst bool :=
  do r <- rd_call a; wr_call a (set_ref_count (s32 (ref_count r - 1)) r);;; ret (s32 (ref_count r - 1) =? 0).

Definition NULL : Z := 0.

(** The dynamic allocator returns a block that is in use nowhere ([hint], chosen
    by the environment), or NULL. *)
Definition kmalloc (hint : Z) : M ipmst Z := gets (fun s =>
  if bool_decide (messages s !! hint = None /\ calls s !! hint = None /\ counters s !! hint = None) then hint else NULL).
Definition kfree_message (a : Z) : M ipmst unit :=
  do _ <- rd_message a; modify (fun s => put_messages (delete a (messages s)) s).
Definition kfree_call (a : Z) : M ipmst unit :=
  do _ <- rd_call a; modify (fun s => put_calls (delete a (calls s)) s).

Definition cpu_invalidate_tlb : M ipmst unit := modify (fun s => put_flushes (upd (tlb s) c (tlb s c + 1)) s).

(** The interrupt becomes pending at its destinations. *)
Definition lapic_send_ipi (dest_cpu : Z) : M ipmst unit :=
  if dest_cpu <? ncpus then modify (fun s => put_ipi (upd (ipi s) dest_cpu true) s)
  else if dest_cpu =? IPI_BROADCAST then
    modify (fun s => put_ipi (fun d => if decide (d = c) then ipi s d else true) s)
  else panic "Invalid cpu id".

(** *** Sending *)

Definition alloc_message (hint : Z) (x : send) : M ipmst Z :=
  do message <- kmalloc hint;
  if message =? NULL then panic "Cannot allocate IPM message" else
  modify (fun s => put_messages (<[message := mk_message (s_tag x) c true (s_data x) (s_len x) (s_number x)]> (messages s)) s);;;
  ret message.

Definition enqueue_message (message cpu : Z) : M ipmst unit :=
  do _ <- must (if bool_decide (0 <= cpu < ncpus) then Some tt else None) "cpu_var(message_queue, cpu)";
  do m <- rd_message message;
  modify (fun s => put_queues (upd (message_queue s) cpu
    (if decide (tag m = TLB_SHOOTDOWN) then message :: message_queue s cpu else message_queue s cpu ++ [message])) s).

Definition is_broadcast (x : send) : bool := to_cpu x =? IPI_BROADCAST.
Definition send_start (x : send) : Z := if is_broadcast x then 0 else to_cpu x.
Definition send_end (x : send) : Z := if is_broadcast x then ncpus else u8 (to_cpu x + 1).

(** The cpus that the loop of [do_send_ipm] has still to send to at [i]. *)
Definition send_targets (x : send) (i : Z) : list Z :=
  filter (fun j => ~ (is_broadcast x = true /\ j = c)) (range i (send_end x)).

Definition finish_send (x : send) (k : after) : M ipmst unit :=
  match k with Return => return_ | Await completions dests => goto (CallWait (s_data x) completions dests) end.

Definition do_send_ipm (hint : Z) (f : frame) : M ipmst unit :=
  match f with
  | SendLoop x i k =>
      if i <? send_end x then
        if is_broadcast x && (i =? c) then goto (SendLoop x (u8 (i + 1)) k)
        else do message <- alloc_message hint x; goto (SendEnqueue x i message k)
      else goto (SendIpi x k)
  | SendEnqueue x i message k => enqueue_message message i;;; goto (SendLoop x (u8 (i + 1)) k)
  | SendIpi x k => lapic_send_ipi (to_cpu x);;; finish_send x k
  | _ => ret tt
  end.

(** A new send, with its number. *)
Definition start_send (cpu : Z) (t : ipm_tag_t) (d n : Z) (k : list Z -> after) : M ipmst unit :=
  do x <- gets (fun s => mk_send cpu t d n (next_number s));
  let dests := send_targets x (send_start x) in
  modify (fun s => put_issued (next_number s + 1) (issued s ++ map (pair (s_number x)) dests) s);;;
  call (SendLoop x (send_start x) (k dests)).

Definition send_ipm (cpu : Z) (t : ipm_tag_t) (d n : Z) : M ipmst unit := start_send cpu t d n (fun _ => Return).
Definition broadcast_ipm (t : ipm_tag_t) (d n : Z) : M ipmst unit := start_send IPI_BROADCAST t d n (fun _ => Return).

(** *** Remote calls *)

(** [sizeof(rem_data)], which is the size of the pointer. *)
Definition SIZEOF_REM_DATA : Z := 4.

Definition new_call (hint f a ref_count_initial_val : Z) (wait : bool) : M ipmst Z :=
  do rem_data <- kmalloc hint;
  if rem_data =? NULL then panic "Cannot allocate remote_call_data for remote call" else
  wr_call rem_data (mk_call f a ref_count_initial_val wait 0 []);;;
  ret rem_data.

Definition exec_remote_call (hint cpu f a : Z) (wait : bool) : M ipmst unit :=
  do rem_data <- new_call hint f a (if wait then 2 else 1) wait;
  start_send cpu REMOTE_CALL rem_data SIZEOF_REM_DATA (if wait then Await 1 else fun _ => Return).

Definition broadcast_remote_call (hint f a : Z) (wait : bool) : M ipmst unit :=
  do rem_data <- new_call hint f a (ncpus - (if wait then 0 else 1)) wait;
  start_send IPI_BROADCAST REMOTE_CALL rem_data SIZEOF_REM_DATA (if wait then Await (ncpus - 1) else fun _ => Return).

(** The end of both: the wait loop, and what follows it. *)
Definition wait_remote_call (f : frame) : M ipmst unit :=
  match f with
  | CallWait rem_data completions dests =>
      do r <- rd_call rem_data;
      if completed_count r =? completions then goto (CallFree rem_data completions dests) else ret tt
  | CallFree rem_data completions dests =>
      do r <- rd_call rem_data;
      ASSERT (ref_count r =? 1) "atomic_read(&rem_data->ref_count) == 1";;;
      kfree_call rem_data;;;
      return_
  | _ => ret tt
  end.

(** *** TLB shootdowns *)

(** The locals of [exec_tlb_shootdown], at addresses that nothing else uses;
    [junk] is what the counter holds before it is initialised. *)
Definition exec_tlb_shootdown (amsg await junk : Z) : M ipmst unit := fun s =>
  if bool_decide (amsg <> await /\ messages s !! amsg = None /\ calls s !! amsg = None /\ counters s !! amsg = None /\
                  messages s !! await = None /\ calls s !! await = None /\ counters s !! await = None)
  then call (ShootNext (mk_shootdown amsg await 0 (tlb s)))
         (put_messages (<[amsg := mk_message TLB_SHOOTDOWN c false await 4 0]> (messages s))
            (put_counters (<[await := junk]> (counters s)) s))
  else ret tt s.

Definition next_target (x : shootdown) : shootdown :=
  mk_shootdown (tlb_message x) (wait x) (u8 (target x + 1)) (since x).

Definition tlb_shootdown (f : frame) : M ipmst unit :=
  match f with
  | ShootNext x =>
      if target x <? ncpus then
        if target x =? c then goto (ShootNext (next_target x)) else goto (ShootInit x)
      else
        modify (fun s => put_messages (delete (tlb_message x) (messages s)) (put_counters (delete (wait x) (counters s)) s));;;
        return_
  | ShootInit x => atomic_init (wait x) 1;;; goto (ShootEnqueue x)
  | ShootEnqueue x => enqueue_message (tlb_message x) (target x);;; goto (ShootIpi x)
  | ShootIpi x => lapic_send_ipi (target x);;; goto (ShootEnable x)
  | ShootEnable x =>
      do irqs <- interrupts_enabled;
      cpu_set_interrupt_flag true;;;
      goto (ShootWait x irqs)
  | ShootWait x irqs =>
      do v <- atomic_read (wait x);
      if v =? 0 then cpu_set_interrupt_flag irqs;;; goto (ShootNext (next_target x)) else ret tt
  | _ => ret tt
  end.

(** *** Receiving *)

(** The interrupt: the processor clears its flag and calls the handler. *)
Definition interrupt : M ipmst unit :=
  do irqs <- interrupts_enabled;
  do pending <- gets (fun s => ipi s c);
  when (irqs && pending)
    (modify (fun s => put_ipi (upd (ipi s) c false) s);;;
     cpu_set_interrupt_flag false;;;
     call HandlerEntry).

(** The end of the interrupt restores the flag, which was set. *)
Definition iret : M ipmst unit := cpu_set_interrupt_flag true;;; return_.

Definition ipm_handler (f : frame) : M ipmst unit :=
  match f with
  | HandlerEntry =>
      do irqs <- interrupts_enabled;
      ASSERT (negb irqs) "!interrupts_enabled()";;;
      cpu_set_interrupt_flag true;;;
      preempt_disable;;;
      goto Process
  | HandlerExit => preempt_enable;;; cpu_set_interrupt_flag false;;; iret
  | _ => ret tt
  end.

Definition process_messages (f : frame) : M ipmst unit :=
  match f with
  | Process =>
      do q <- gets (fun s => message_queue s c);
      match q with
      | [] => goto HandlerExit
      | first :: q' =>
          modify (fun s => put_queues (upd (message_queue s) c q') s);;;
          goto (ProcessCopy first)
      end
  | ProcessCopy first =>
      do msg <- rd_message first;
      when (receiver_dealloc msg) (kfree_message first);;;
      goto (ProcessDispatch msg)
  | ProcessDispatch msg =>
      modify (fun s => put_delivered (delivered s ++ (match tag msg with TLB_SHOOTDOWN => [] | _ => [(number msg, c)] end)) s);;;
      match tag msg with
      | TEST_TAG => goto Process
      | REMOTE_CALL => goto (HandleCheck (data msg))
      | TLB_SHOOTDOWN => goto (TlbFlush (data msg))
      end
  | TlbFlush wait => cpu_invalidate_tlb;;; goto (TlbAck wait)
  | TlbAck wait => atomic_dec wait;;; goto Process
  | _ => ret tt
  end.

Definition handle_remote_call (f : frame) : M ipmst unit :=
  match f with
  | HandleCheck call =>
      do r <- rd_call call;
      when (ref_count r =? 0) (panic "Try to exec with ref_count = 0");;;
      goto (HandleMode call)
  | HandleMode call =>
      do r <- rd_call call;
      if is_synchronous r then goto (HandleCall (Original call)) else goto (HandleDec call r)
  | HandleDec call call_cpy =>
      do zero <- dec_and_test_ref_count call;
      if (zero : bool) then goto (HandleFree call call_cpy) else goto (HandleCall (Copied call_cpy))
  | HandleFree call call_cpy => kfree_call call;;; goto (HandleCall (Copied call_cpy))
  | HandleCall h =>
      do _ <- match h with
              | Copied r => ret tt
              | Original a => do r <- rd_call a; wr_call a (set_executed (executed r ++ [c]) r)
              end;
      do irqs <- interrupts_enabled;
      cpu_set_interrupt_flag true;;;
      goto (HandleReturn h irqs);;;
      call Kernel
  | HandleReturn h irqs =>
      cpu_set_interrupt_flag irqs;;;
      match h with
      | Copied r => ASSERT (negb (is_synchronous r)) "call_data == call";;; goto Process
      | Original a =>
          do r <- rd_call a;
          if is_synchronous r then goto (HandleSyncDec a) else goto Process
      end
  | HandleSyncDec a =>
      do zero <- dec_and_test_ref_count a;
      ASSERT (negb zero) "!atomic_dec_and_test(&call->ref_count)";;;
      goto (HandleSyncInc a)
  | HandleSyncInc a =>
      do r <- rd_call a;
      wr_call a (set_completed_count (s32 (completed_count r + 1)) r);;;
      goto Process
  | _ => ret tt
  end.

(** ** Steps *)

(** What a cpu does next: go on, with an address for the allocator to return;
    take the interrupt; or, where the code is not of this file, call one of the
    functions, return, or change the interrupt flag. *)
Inductive choice :=
| Go (hint : Z)
| TakeIpi
| Send (cpu d n : Z)
| Broadcast (d n : Z)
| ExecCall (hint cpu f a : Z) (wait : bool)
| BroadcastCall (hint f a : Z) (wait : bool)
| Shootdown (amsg await junk : Z)
| ReturnKernel
| SetFlag (b : bool).

Definition run_frame (hint : Z) (f : frame) : M ipmst unit :=
  match f with
  | Kernel => ret tt
  | SendLoop _ _ _ | SendEnqueue _ _ _ _ | SendIpi _ _ => do_send_ipm hint f
  | CallWait _ _ _ | CallFree _ _ _ => wait_remote_call f
  | ShootNext _ | ShootInit _ | ShootEnqueue _ | ShootIpi _ | ShootEnable _ | ShootWait _ _ => tlb_shootdown f
  | HandlerEntry | HandlerExit => ipm_handler f
  | Process | ProcessCopy _ | ProcessDispatch _ | TlbFlush _ | TlbAck _ => process_messages f
  | HandleCheck _ | HandleMode _ | HandleDec _ _ | HandleFree _ _ | HandleCall _ | HandleReturn _ _
  | HandleSyncDec _ | HandleSyncInc _ => handle_remote_call f
  end.

Definition run_kernel (ch : choice) : M ipmst unit :=
  match ch with
  | Send cpu d n => send_ipm cpu TEST_TAG d n
  | Broadcast d n => broadcast_ipm TEST_TAG d n
  | ExecCall hint cpu f a w => exec_remote_call hint cpu f a w
  | BroadcastCall hint f a w => broadcast_remote_call hint f a w
  | Shootdown amsg await junk => exec_tlb_shootdown amsg await junk
  | ReturnKernel => do t <- get_thread; when (negb (bool_decide (tail (stack t) = []))) return_
  | SetFlag b => cpu_set_interrupt_flag b
  | _ => ret tt
  end.

Definition cpu_step (ch : choice) : M ipmst unit :=
  do t <- get_thread;
  match stack t with
  | [] => ret tt
  | f :: _ =>
      match ch, f with
      | TakeIpi, _ => interrupt
      | Go hint, _ => run_frame hint f
      | _, Kernel => run_kernel ch
      | _, _ => ret tt
      end
  end.

End Ops.

(** ** Boot *)

(** The per-cpu variables before and while [init_ipm] runs ([None]: a list node
    that was not initialised), the interrupt flag of the cpu that runs it, and
    whether the handler is registered. *)
Record ipm_boot := mk_boot {
  message_queue_lock : Z -> spinlock_t; boot_queue : Z -> option (list Z); boot_if : bool; registered : bool }.

Definition init_queue (c cpu : Z) : M ipm_boot unit :=
  zoom (fun s => (message_queue_lock s cpu, boot_if s))
       (fun l s => mk_boot (upd (message_queue_lock s) cpu l.1) (boot_queue s) l.2 (registered s))
       (spinlock_unlock c);;;
  modify (fun s => mk_boot (message_queue_lock s) (upd (boot_queue s) cpu (Some [])) (boot_if s) (registered s)).

Definition init_ipm (ncpus c : Z) : M ipm_boot unit :=
  for_each (range 0 ncpus) (init_queue c);;;
  modify (fun s => mk_boot (message_queue_lock s) (boot_queue s) (boot_if s) true).

(** Per-cpu variables are zero before. *)
Definition zeroed : ipm_boot := mk_boot (fun _ => mk_spinlock 0 false 0) (fun _ => None) false false.

(** What the cpus start from: no messages, every cpu in other code. *)
Definition started (b : ipm_boot) : ipmst :=
  mk_ipm ∅ ∅ ∅ (fun c => default [] (boot_queue b c)) (fun _ => false) (fun _ => 0)
    (fun _ => mk_thread [Kernel] (boot_if b) 0) 0 [] [].
