(* ===== verification/IpmSpec.v ===== *)
(** * The invariant of inter-processor messages

    What the code relies on is a matter of counting: how many messages, handlers
    and senders refer to an object.  A [weight] assigns a number to every place
    that refers to something, [total] adds them up over all queues and all
    activations of all cpus; the invariant [Inv] relates the totals to the
    reference counts, completion counts and counters in memory. *)

From S2P Require Import Prelude Spinlock Ipm.

(** ** Sums *)

Fixpoint sumz {A} (f : A -> Z) (l : list A) : Z :=
  match l with [] => 0 | x :: l' => f x + sumz f l' end.

(** 1 if [P] holds, else 0. *)
Definition ind (P : Prop) `{Decision P} : Z := if decide P then 1 else 0.

Definition cnt {A} `{EqDecision A} (x : A) (l : list A) : Z := sumz (fun y => ind (y = x)) l.

Lemma sumz_app {A} (f : A -> Z) l k : sumz f (l ++ k) = sumz f l + sumz f k.
Proof. induction l as [|x l IH]; simpl; lia. Qed.

Lemma sumz_ext {A} (f g : A -> Z) l : (forall x, x ∈ l -> f x = g x) -> sumz f l = sumz g l.
Proof. induction l as [|x l IH]; intros E; simpl; [done|]. rewrite E by left. f_equal. apply IH. intros y Hy. apply E. by right. Qed.

Lemma sumz_le {A} (f g : A -> Z) l : (forall x, x ∈ l -> f x <= g x) -> sumz f l <= sumz g l.
Proof.
  induction l as [|x l IH]; intros E; simpl; [done|]. assert (f x <= g x) by (apply E; left).
  assert (sumz f l <= sumz g l) by (apply IH; intros y Hy; apply E; by right). lia.
Qed.

Lemma sumz_nonneg {A} (f : A -> Z) l : (forall x, x ∈ l -> 0 <= f x) -> 0 <= sumz f l.
Proof. intros Hf. transitivity (sumz (fun _ : A => 0) l); [|by apply sumz_le]. clear. induction l; simpl; lia. Qed.

Lemma sumz_elem {A} (f : A -> Z) l x : (forall y, y ∈ l -> 0 <= f y) -> x ∈ l -> f x <= sumz f l.
Proof.
  induction l as [|y l IH]; intros Hf Hx; [by apply elem_of_nil in Hx|]. simpl.
  assert (0 <= f y) by (apply Hf; left). assert (0 <= sumz f l) by (apply sumz_nonneg; intros z Hz; apply Hf; by right).
  apply elem_of_cons in Hx as [->|Hx]; [lia|]. enough (f x <= sumz f l) by lia. apply IH; [|done]. intros z Hz. apply Hf. by right.
Qed.

Lemma sumz_pos {A} (f : A -> Z) l : 0 < sumz f l -> exists x, x ∈ l /\ 0 < f x.
Proof.
  induction l as [|x l IH]; simpl; [lia|]. intros Hs. destruct (decide (0 < f x)) as [Hx|Hx]; [exists x; split; [left|done]|].
  destruct IH as (y & Hy & Hp); [lia|]. exists y. split; [by right|done].
Qed.

Lemma sumz_change {A} `{EqDecision A} (f g : A -> Z) l x : NoDup l -> x ∈ l -> (forall y, y ∈ l -> y <> x -> g y = f y) -> sumz g l = sumz f l + (g x - f x).
Proof.
  induction l as [|y l IH]; intros Hnd Hx E; [by apply elem_of_nil in Hx|]. apply NoDup_cons in Hnd as [Hy Hnd]. simpl.
  destruct (decide (y = x)) as [->|Hne].
  - rewrite (sumz_ext g f); [lia|]. intros z Hz. apply E; [by right|]. intros ->. done.
  - apply elem_of_cons in Hx as [->|Hx]; [done|]. rewrite E by (left || done). rewrite IH; [lia|done|done|].
    intros z Hz. apply E. by right.
Qed.

Lemma ind_bounds (P : Prop) `{Decision P} : 0 <= ind P <= 1.
Proof. unfold ind. case_decide; lia. Qed.

Lemma ind_yes (P : Prop) `{Decision P} : P -> ind P = 1.
Proof. intros Hp. unfold ind. by rewrite decide_True. Qed.

Lemma ind_no (P : Prop) `{Decision P} : ~ P -> ind P = 0.
Proof. intros Hp. unfold ind. by rewrite decide_False. Qed.

Lemma cnt_nonneg {A} `{EqDecision A} (x : A) l : 0 <= cnt x l.
Proof. apply sumz_nonneg. intros y _. apply ind_bounds. Qed.

Lemma cnt_app {A} `{EqDecision A} (x : A) l k : cnt x (l ++ k) = cnt x l + cnt x k.
Proof. apply sumz_app. Qed.

(** ** Weights *)

(** What a message that is held on, or on its way to, a cpu counts, and what an
    activation counts for anything but the message it holds. *)
Record weight := mk_weight { wm : Z -> Z -> option ipm_message -> Z; wo : Z -> frame -> Z }.

Section Weights.
Context (ncpus : Z).

Definition wf (w : weight) (M : gmap Z ipm_message) (c : Z) (f : frame) : Z :=
  wo w c f +
  match f with
  | SendEnqueue _ i message _ => wm w i message (M !! message)
  | ProcessCopy first => wm w c first (M !! first)
  | _ => 0
  end.

Definition cpu_weight (w : weight) (s : ipmst) (c : Z) : Z :=
  sumz (fun a => wm w c a (messages s !! a)) (message_queue s c) + sumz (wf w (messages s) c) (stack (threads s c)).

Definition total (w : weight) (s : ipmst) : Z := sumz (cpu_weight w s) (range 0 ncpus).

(** The messages at [x] that are held. *)
Definition occ (x : Z) : weight := mk_weight (fun _ a _ => ind (a = x)) (fun _ _ => 0).

Definition is_call (x : Z) (m : ipm_message) : Prop := tag m = REMOTE_CALL /\ data m = x.
Definition is_tlb (x : Z) (m : ipm_message) : Prop := tag m = TLB_SHOOTDOWN /\ data m = x.
Definition is_send (id : Z) (m : ipm_message) : Prop := tag m <> TLB_SHOOTDOWN /\ number m = id.

#[export] Instance is_call_dec x m : Decision (is_call x m).
Proof. unfold is_call. apply _. Defined.
#[export] Instance is_tlb_dec x m : Decision (is_tlb x m).
Proof. unfold is_tlb. apply _. Defined.
#[export] Instance is_send_dec x m : Decision (is_send x m).
Proof. unfold is_send. apply _. Defined.

Definition of_message (P : ipm_message -> Z) (m : option ipm_message) : Z := match m with Some m => P m | None => 0 end.

(** How often a send has still to send to a cpu that satisfies [n]. *)
Definition sends (x : Z) (y : send) (n : Z) : Z := ind (s_tag y = REMOTE_CALL /\ s_data y = x) * n.

(** The references counted by [ref_count]: of the call at [x], the messages to be
    sent and sent, and the handlers that have not released it. *)
Definition refs (x : Z) : weight :=
  mk_weight (fun _ _ m => of_message (fun m => ind (is_call x m)) m)
    (fun c f => match f with
     | SendLoop y i _ => sends x y (Z.of_nat (length (send_targets ncpus c y i)))
     | SendEnqueue y i _ _ => sends x y (Z.of_nat (length (send_targets ncpus c y (i + 1))))
     | ProcessDispatch m => ind (is_call x m)
     | HandleCheck a | HandleMode a | HandleDec a _ => ind (a = x)
     | HandleCall (Original a) | HandleReturn (Original a) _ | HandleSyncDec a => ind (a = x)
     | _ => 0
     end).

(** The sender that waits for the call at [x], and for how many cpus. *)
Definition waits (x : Z) (v : Z -> list Z -> Z) (f : frame) : Z :=
  match f with
  | SendLoop y _ (Await n ds) | SendEnqueue y _ _ (Await n ds) | SendIpi y (Await n ds) => ind (s_data y = x) * v n ds
  | CallWait a n ds | CallFree a n ds => ind (a = x) * v n ds
  | _ => 0
  end.
Definition owners (x : Z) : weight := mk_weight (fun _ _ _ => 0) (fun _ => waits x (fun _ _ => 1)).
Definition needs (x : Z) : weight := mk_weight (fun _ _ _ => 0) (fun _ => waits x (fun n _ => n)).
Definition dests_at (x d : Z) : weight := mk_weight (fun _ _ _ => 0) (fun _ => waits x (fun _ ds => cnt d ds)).

(** The handlers that are about to free the call at [x]; that have released it
    but not completed it; that treat it as an asynchronous or a synchronous one. *)
Definition frees (x : Z) : weight :=
  mk_weight (fun _ _ _ => 0) (fun _ f => match f with HandleFree a _ => ind (a = x) | _ => 0 end).
Definition incs (x : Z) : weight :=
  mk_weight (fun _ _ _ => 0) (fun _ f => match f with HandleSyncInc a => ind (a = x) | _ => 0 end).
Definition asyncs (x : Z) : weight :=
  mk_weight (fun _ _ _ => 0) (fun _ f => match f with HandleDec a _ | HandleFree a _ => ind (a = x) | _ => 0 end).
Definition syncs (x : Z) : weight :=
  mk_weight (fun _ _ _ => 0) (fun _ f => match f with
    | HandleCall (Original a) | HandleReturn (Original a) _ | HandleSyncDec a | HandleSyncInc a => ind (a = x)
    | _ => 0
    end).

(** The cpu [d] has still to execute the call at [x]. *)
Definition pending_at (x d : Z) : weight :=
  mk_weight (fun e _ m => ind (e = d) * of_message (fun m => ind (is_call x m)) m)
    (fun c f => match f with
     | SendLoop y i _ => sends x y (cnt d (send_targets ncpus c y i))
     | SendEnqueue y i _ _ => sends x y (cnt d (send_targets ncpus c y (i + 1)))
     | ProcessDispatch m => ind (c = d) * ind (is_call x m)
     | HandleCheck a | HandleMode a | HandleDec a _ | HandleCall (Original a) => ind (c = d) * ind (a = x)
     | _ => 0
     end).

(** The shootdowns that use the message or the counter at [x]; the counters that
    are set; the requests that were not acknowledged. *)
Definition shooting (f : frame) : option (shootdown * bool) :=
  match f with
  | ShootNext y | ShootInit y => Some (y, false)
  | ShootEnqueue y | ShootIpi y | ShootEnable y | ShootWait y _ => Some (y, true)
  | _ => None
  end.
Definition shoot_messages (x : Z) : weight :=
  mk_weight (fun _ _ _ => 0) (fun _ f => match shooting f with Some (y, _) => ind (tlb_message y = x) | None => 0 end).
Definition shoot_counters (x : Z) : weight :=
  mk_weight (fun _ _ _ => 0) (fun _ f => match shooting f with Some (y, _) => ind (wait y = x) | None => 0 end).
Definition counters_set (x : Z) : weight :=
  mk_weight (fun _ _ _ => 0) (fun _ f => match shooting f with Some (y, true) => ind (wait y = x) | _ => 0 end).
Definition requests (x : Z) : weight :=
  mk_weight (fun _ _ m => of_message (fun m => ind (is_tlb x m)) m)
    (fun _ f => match f with
     | ProcessDispatch m => ind (is_tlb x m)
     | TlbFlush a | TlbAck a => ind (a = x)
     | ShootEnqueue y => ind (wait y = x)
     | _ => 0
     end).

(** The requests of the counter [x] that the cpu [d] has and has not followed,
    and the shootdowns that have sent one to [d]. *)
Definition requests_at (x d : Z) : weight :=
  mk_weight (fun e _ m => ind (e = d) * of_message (fun m => ind (is_tlb x m)) m)
    (fun c f => match f with
     | ProcessDispatch m => ind (c = d) * ind (is_tlb x m)
     | TlbFlush a => ind (c = d) * ind (a = x)
     | _ => 0
     end).
Definition requested (f : frame) : option shootdown :=
  match f with ShootIpi y | ShootEnable y | ShootWait y _ => Some y | _ => None end.
Definition shoots_at (x d : Z) : weight :=
  mk_weight (fun _ _ _ => 0) (fun _ f => match requested f with Some y => ind (wait y = x /\ target y = d) | None => 0 end).

(** The messages of the send [id] to the cpu [d] that were not processed. *)
Definition in_flight (id d : Z) : weight :=
  mk_weight (fun e _ m => ind (e = d) * of_message (fun m => ind (is_send id m)) m)
    (fun c f => match f with
     | SendLoop y i _ => ind (s_number y = id) * cnt d (send_targets ncpus c y i)
     | SendEnqueue y i _ _ => ind (s_number y = id) * cnt d (send_targets ncpus c y (i + 1))
     | ProcessDispatch m => ind (c = d) * ind (is_send id m)
     | _ => 0
     end).

(** The handlers of the cpu [d] that will look at its queue again, and the
    senders whose IPI will reach it. *)
Definition handling (f : frame) : bool :=
  match f with
  | HandlerEntry | Process | ProcessCopy _ | ProcessDispatch _ | TlbFlush _ | TlbAck _
  | HandleCheck _ | HandleMode _ | HandleDec _ _ | HandleFree _ _ | HandleCall _ | HandleReturn _ _
  | HandleSyncDec _ | HandleSyncInc _ => true
  | _ => false
  end.
Definition reaches (x : send) (c d : Z) : Prop := if is_broadcast x then d <> c else to_cpu x = d.
#[export] Instance reaches_dec x c d : Decision (reaches x c d).
Proof. unfold reaches. destruct (is_broadcast x); apply _. Defined.
Definition awake (d : Z) : weight :=
  mk_weight (fun _ _ _ => 0) (fun c f =>
    ind (c = d /\ handling f = true) +
    match f with
    | SendLoop y _ _ | SendEnqueue y _ _ _ | SendIpi y _ => ind (reaches y c d)
    | ShootIpi y => ind (target y = d)
    | _ => 0
    end).

End Weights.

(** ** Totals *)

Section Totals.
Context (ncpus : Z).
Abbreviation total := (total ncpus).

Definition nonneg (w : weight) : Prop := (forall d a m, 0 <= wm w d a m) /\ (forall c f, 0 <= wo w c f).

Lemma wf_nonneg w M c f : nonneg w -> 0 <= wf w M c f.
Proof. intros [Hm Ho]. unfold wf. pose proof (Ho c f). destruct f; try lia; [pose proof (Hm i message (M !! message))|pose proof (Hm c first (M !! first))]; lia. Qed.

Lemma cpu_weight_nonneg w s c : nonneg w -> 0 <= cpu_weight w s c.
Proof.
  intros Hw. unfold cpu_weight.
  assert (0 <= sumz (fun a => wm w c a (messages s !! a)) (message_queue s c)) by (apply sumz_nonneg; intros a _; apply Hw).
  assert (0 <= sumz (wf w (messages s) c) (stack (threads s c))) by (apply sumz_nonneg; intros f _; by apply wf_nonneg). lia.
Qed.

Lemma total_ge_0 w s : nonneg w -> 0 <= total w s.
Proof. intros Hw. apply sumz_nonneg. intros c _. by apply cpu_weight_nonneg. Qed.

(** What an activation counts is part of the total. *)
Lemma total_frame_le w s c f : nonneg w -> 0 <= c < ncpus -> f ∈ stack (threads s c) -> wf w (messages s) c f <= total w s.
Proof.
  intros Hw Hc Hf. transitivity (cpu_weight w s c).
  - unfold cpu_weight. pose proof (sumz_elem (wf w (messages s) c) _ f (fun g _ => wf_nonneg w _ c g Hw) Hf).
    assert (0 <= sumz (fun a => wm w c a (messages s !! a)) (message_queue s c)) by (apply sumz_nonneg; intros a _; apply Hw). lia.
  - apply (sumz_elem (cpu_weight w s)); [intros d _; by apply cpu_weight_nonneg|by apply elem_of_range].
Qed.

Lemma total_queue_le w s c a : nonneg w -> 0 <= c < ncpus -> a ∈ message_queue s c -> wm w c a (messages s !! a) <= total w s.
Proof.
  intros Hw Hc Ha. transitivity (cpu_weight w s c).
  - unfold cpu_weight. pose proof (sumz_elem (fun a => wm w c a (messages s !! a)) _ a (fun b _ => proj1 Hw c b _) Ha).
    assert (0 <= sumz (wf w (messages s) c) (stack (threads s c))) by (apply sumz_nonneg; intros g _; by apply wf_nonneg). simpl in *. lia.
  - apply (sumz_elem (cpu_weight w s)); [intros d _; by apply cpu_weight_nonneg|by apply elem_of_range].
Qed.

(** One weight is at most another one if it is everywhere. *)
Lemma total_le w1 w2 s :
  (forall c a, a ∈ message_queue s c -> wm w1 c a (messages s !! a) <= wm w2 c a (messages s !! a)) ->
  (forall c f, f ∈ stack (threads s c) -> wf w1 (messages s) c f <= wf w2 (messages s) c f) ->
  total w1 s <= total w2 s.
Proof.
  intros Hq Hf. apply sumz_le. intros c _. unfold cpu_weight.
  pose proof (sumz_le (fun a => wm w1 c a (messages s !! a)) (fun a => wm w2 c a (messages s !! a)) (message_queue s c) (Hq c)).
  pose proof (sumz_le (wf w1 (messages s) c) (wf w2 (messages s) c) (stack (threads s c)) (Hf c)). lia.
Qed.

(** The activations of one cpu and the queue of one cpu change. *)
Lemma total_change w s s' c d :
  0 <= c < ncpus -> 0 <= d < ncpus -> messages s' = messages s ->
  (forall e, e <> c -> stack (threads s' e) = stack (threads s e)) ->
  (forall e, e <> d -> message_queue s' e = message_queue s e) ->
  total w s' = total w s
    + (sumz (wf w (messages s) c) (stack (threads s' c)) - sumz (wf w (messages s) c) (stack (threads s c)))
    + (sumz (fun a => wm w d a (messages s !! a)) (message_queue s' d) - sumz (fun a => wm w d a (messages s !! a)) (message_queue s d)).
Proof.
  intros Hc Hd Em Es Eq. set (s1 := put_threads (threads s') s). transitivity (total w s1
    + (sumz (fun a => wm w d a (messages s !! a)) (message_queue s' d) - sumz (fun a => wm w d a (messages s !! a)) (message_queue s d))).
  - unfold IpmSpec.total. rewrite (sumz_change (cpu_weight w s1) _ _ d); [|by apply NoDup_zrange|by apply elem_of_range|].
    + unfold cpu_weight. rewrite Em. simpl. lia.
    + intros e _ He. unfold cpu_weight. rewrite Em, Eq by done. done.
  - unfold IpmSpec.total. rewrite (sumz_change (cpu_weight w s) (cpu_weight w s1) _ c); [|by apply NoDup_zrange|by apply elem_of_range|].
    + unfold cpu_weight. simpl. lia.
    + intros e _ He. unfold cpu_weight. simpl. rewrite Es by done. done.
Qed.

(** Messages that nobody holds do not count. *)
Lemma total_messages w s M : (forall x, 0 < total (occ x) s -> M !! x = messages s !! x) -> total w (put_messages M s) = total w s.
Proof.
  intros E. apply sumz_ext. intros c Hc%elem_of_range. unfold cpu_weight. simpl.
  assert (Hocc : forall x, nonneg (occ x)) by (intros x; split; [intros; apply ind_bounds|done]).
  f_equal; apply sumz_ext.
  - intros a Ha. rewrite E; [done|]. pose proof (total_queue_le (occ a) s c a (Hocc a) Hc Ha) as Hle. simpl in Hle.
    rewrite ind_yes in Hle by done. lia.
  - intros f Hf. assert (Hle := fun x => total_frame_le (occ x) s c f (Hocc x) Hc Hf). unfold wf in *. f_equal.
    destruct f; try done; (rewrite E; [done|]).
    + specialize (Hle message). simpl in Hle. rewrite ind_yes in Hle by done. lia.
    + specialize (Hle first). simpl in Hle. rewrite ind_yes in Hle by done. lia.
Qed.

(** Where one weight counts nothing, another one counts nothing either. *)
Lemma total_zero w1 w2 s :
  nonneg w1 -> (forall d a m, wm w1 d a m = 0 -> wm w2 d a m = 0) -> (forall c f, wo w1 c f = 0 -> wo w2 c f = 0) ->
  total w1 s = 0 -> total w2 s = 0.
Proof.
  intros Hw Hm Ho Hz. unfold IpmSpec.total. rewrite (sumz_ext _ (fun _ => 0)); [clear; induction (range 0 ncpus); simpl; lia|].
  intros c Hc%elem_of_range. unfold cpu_weight.
  rewrite (sumz_ext _ (fun _ => 0) (message_queue s c)), (sumz_ext (wf w2 (messages s) c) (fun _ => 0)).
  - assert (E : forall A (l : list A), sumz (fun _ => 0) l = 0) by (intros A l; induction l; simpl; lia). by rewrite !E.
  - intros f Hf. pose proof (total_frame_le w1 s c f Hw Hc Hf) as Hle. rewrite Hz in Hle. unfold wf in *. pose proof (proj2 Hw c f).
    destruct f; try (rewrite Ho by lia; done).
    + pose proof (proj1 Hw i message (messages s !! message)). rewrite Ho, Hm by lia. done.
    + pose proof (proj1 Hw c first (messages s !! first)). rewrite Ho, Hm by lia. done.
  - intros a Ha. pose proof (total_queue_le w1 s c a Hw Hc Ha) as Hle. pose proof (proj1 Hw c a (messages s !! a)). apply Hm. lia.
Qed.

(** The total of a sum. *)
Definition plus (w1 w2 : weight) : weight := mk_weight (fun d a m => wm w1 d a m + wm w2 d a m) (fun c f => wo w1 c f + wo w2 c f).

Lemma sumz_plus {A} (f g h : A -> Z) l : (forall x, h x = f x + g x) -> sumz h l = sumz f l + sumz g l.
Proof. intros E. induction l as [|x l IH]; simpl; [done|]. rewrite E. lia. Qed.

Lemma total_plus w1 w2 s : total (plus w1 w2) s = total w1 s + total w2 s.
Proof.
  apply sumz_plus. intros c. unfold cpu_weight. rewrite (sumz_plus (wf w1 (messages s) c) (wf w2 (messages s) c) (wf (plus w1 w2) (messages s) c)).
  - rewrite (sumz_plus (fun a => wm w1 c a (messages s !! a)) (fun a => wm w2 c a (messages s !! a))) by done. lia.
  - intros f. unfold wf. simpl. destruct f; lia.
Qed.

Lemma plus_nonneg w1 w2 : nonneg w1 -> nonneg w2 -> nonneg (plus w1 w2).
Proof. intros [H1 H2] [H3 H4]. split; intros; simpl; auto with zarith. Qed.

Lemma awake_nonneg d : nonneg (awake d).
Proof.
  split; [done|]. intros e g. simpl. pose proof (ind_bounds (e = d /\ handling g = true)).
  destruct g; try lia; first [pose proof (ind_bounds (reaches x e d))|pose proof (ind_bounds (target x = d))]; lia.
Qed.

End Totals.

(** ** The invariant *)

Section Invariant.
Context (ncpus : Z).
Abbreviation total := (total ncpus).

(** The cpus that execute a call of the cpu [c]: one, or all the others. *)
Definition call_dests (c : Z) (ds : list Z) : Prop :=
  (exists d, 0 <= d < ncpus /\ ds = [d]) \/ ds = filter (fun d => d <> c) (range 0 ncpus).

Definition send_ok (s : ipmst) (c : Z) (x : send) (k : after) : Prop :=
  s_tag x <> TLB_SHOOTDOWN /\ (is_broadcast x = true \/ 0 <= to_cpu x < ncpus) /\ s_number x < next_number s /\
  match k with Return => True | Await n ds => s_tag x = REMOTE_CALL /\ n = Z.of_nat (length ds) /\ n <= 255 /\ call_dests c ds end.

Definition shoot_ok (s : ipmst) (y : shootdown) : Prop :=
  0 <= target y <= ncpus /\
  exists m, messages s !! tlb_message y = Some m /\ tag m = TLB_SHOOTDOWN /\ data m = wait y /\ receiver_dealloc m = false.

Definition frame_ok (s : ipmst) (c : Z) (f : frame) : Prop :=
  match f with
  | SendLoop x i k => send_ok s c x k /\ send_start x <= i <= 255
  | SendEnqueue x i _ k => send_ok s c x k /\ send_start x <= i < send_end ncpus x /\ ~ (is_broadcast x = true /\ i = c)
  | SendIpi x k => send_ok s c x k
  | CallWait _ n ds | CallFree _ n ds => n = Z.of_nat (length ds) /\ n <= 255 /\ call_dests c ds
  | ShootNext y => shoot_ok s y
  | ShootInit y | ShootEnqueue y | ShootIpi y | ShootEnable y | ShootWait y _ => shoot_ok s y /\ target y < ncpus /\ target y <> c
  | HandleDec _ r | HandleFree _ r | HandleCall (Copied r) | HandleReturn (Copied r) _ => is_synchronous r = false
  | _ => True
  end.

(** The cpus before the target have flushed their TLBs since the start of the
    shootdown, the target has or will before it acknowledges. *)
Definition since_ok (s : ipmst) (c : Z) (f : frame) : Prop :=
  (forall y b, shooting f = Some (y, b) ->
    (forall d, since y d <= tlb s d) /\ (forall d, 0 <= d < target y -> d <> c -> since y d < tlb s d)) /\
  (forall y, requested f = Some y ->
    since y (target y) < tlb s (target y) \/ 1 <= total (requests_at (wait y) (target y)) s).

Definition message_ok (s : ipmst) (x : Z) : Prop :=
  match messages s !! x with
  | None => total (occ x) s = 0 /\ total (shoot_messages x) s = 0
  | Some m =>
      if receiver_dealloc m then total (occ x) s = 1 /\ total (shoot_messages x) s = 0 /\ tag m <> TLB_SHOOTDOWN
      else total (shoot_messages x) s = 1 /\ tag m = TLB_SHOOTDOWN
  end.

Definition callfrees (x : Z) : weight :=
  mk_weight (fun _ _ _ => 0) (fun _ f => match f with CallFree a _ _ => ind (a = x) | _ => 0 end).

Definition call_ok (s : ipmst) (x : Z) : Prop :=
  match calls s !! x with
  | None => total (refs ncpus x) s = 0 /\ total (owners x) s = 0 /\ total (frees x) s = 0 /\ total (incs x) s = 0
  | Some r =>
      ref_count r = total (refs ncpus x) s + total (owners x) s /\ ref_count r <= 256 /\
      if is_synchronous r then
        total (owners x) s = 1 /\ total (asyncs x) s = 0 /\ (total (needs x) s <= 255 /\ 0 <= completed_count r) /\
        completed_count r = total (needs x) s - total (refs ncpus x) s - total (incs x) s /\
        (forall d, cnt d (executed r) + total (pending_at ncpus x d) s = total (dests_at x d) s) /\
        (1 <= total (callfrees x) s -> total (refs ncpus x) s = 0 /\ total (incs x) s = 0)
      else
        total (owners x) s = 0 /\ total (syncs x) s = 0 /\ total (frees x) s <= 1 /\
        (1 <= total (frees x) s -> total (refs ncpus x) s = 0) /\
        (total (refs ncpus x) s = 0 -> total (frees x) s = 1 \/ ncpus = 1)
  end.

Definition counter_ok (s : ipmst) (x : Z) : Prop :=
  match counters s !! x with
  | None => total (requests x) s = 0 /\ total (shoot_counters x) s = 0
  | Some v =>
      total (shoot_counters x) s = 1 /\ total (requests x) s <= 1 /\
      (total (counters_set x) s = 0 -> total (requests x) s = 0) /\
      (total (counters_set x) s = 1 -> v = total (requests x) s)
  end.

(** The interrupt handler starts with interrupts disabled. *)
Definition stack_ok (t : thread) : Prop :=
  (HandlerEntry ∉ tail (stack t)) /\ (head (stack t) = Some HandlerEntry -> IF_ t = false).

Record Inv (s : ipmst) : Prop := {
  i_message : forall x, message_ok s x;
  i_call : forall x, call_ok s x;
  i_counter : forall x, counter_ok s x;
  i_at : forall x d, total (requests_at x d) s <= total (shoots_at x d) s;
  i_flight : forall id d, cnt (id, d) (issued s) = cnt (id, d) (delivered s) + total (in_flight ncpus id d) s;
  i_issued : NoDup (issued s) /\ forall p, p ∈ issued s -> p.1 < next_number s;
  i_awake : forall d, 0 <= d < ncpus -> message_queue s d <> [] -> ipi s d = true \/ 1 <= total (awake d) s;
  i_stack : forall c, stack_ok (threads s c);
  i_frame : forall c f, 0 <= c < ncpus -> f ∈ stack (threads s c) -> frame_ok s c f;
  i_since : forall c f, 0 <= c < ncpus -> f ∈ stack (threads s c) -> since_ok s c f }.

(** ** What is unaffected *)

Definition same_messages (s s' : ipmst) (x : Z) : Prop :=
  messages s' !! x = messages s !! x /\ total (occ x) s' = total (occ x) s /\ total (shoot_messages x) s' = total (shoot_messages x) s.

Definition same_calls (s s' : ipmst) (x : Z) : Prop :=
  calls s' !! x = calls s !! x /\ total (refs ncpus x) s' = total (refs ncpus x) s /\ total (owners x) s' = total (owners x) s /\
  total (frees x) s' = total (frees x) s /\ total (incs x) s' = total (incs x) s /\ total (asyncs x) s' = total (asyncs x) s /\
  total (syncs x) s' = total (syncs x) s /\ total (needs x) s' = total (needs x) s /\ total (callfrees x) s' = total (callfrees x) s /\
  (forall d, total (pending_at ncpus x d) s' = total (pending_at ncpus x d) s) /\ (forall d, total (dests_at x d) s' = total (dests_at x d) s).

Definition same_counters (s s' : ipmst) (x : Z) : Prop :=
  counters s' !! x = counters s !! x /\ total (requests x) s' = total (requests x) s /\
  total (shoot_counters x) s' = total (shoot_counters x) s /\ total (counters_set x) s' = total (counters_set x) s.

Lemma message_same s s' x : same_messages s s' x -> message_ok s x -> message_ok s' x.
Proof. unfold same_messages, message_ok. intros (-> & -> & ->). done. Qed.

Lemma call_same s s' x : same_calls s s' x -> call_ok s x -> call_ok s' x.
Proof.
  unfold same_calls, call_ok. intros (-> & -> & -> & -> & -> & -> & -> & -> & -> & Hp & Hd). destruct (calls s !! x) as [r|]; [|done].
  intros (H1 & H2 & H3). split; [done|]. split; [done|]. destruct (is_synchronous r); [|done]. destruct H3 as (? & ? & [? ?] & ? & H4 & ?).
  split_and!; try done. intros d. by rewrite Hp, Hd.
Qed.

Lemma counter_same s s' x : same_counters s s' x -> counter_ok s x -> counter_ok s' x.
Proof. unfold same_counters, counter_ok. intros (-> & -> & -> & ->). done. Qed.

(** ** Steps *)

(** The weights of the invariant but [awake]: those that count neither
    messages nor deliveries, those that are never negative, and all of them. *)
Inductive basic : weight -> Prop :=
| k_shoot_messages x : basic (shoot_messages x)
| k_refs x : basic (refs ncpus x)
| k_owners x : basic (owners x)
| k_dests x d : basic (dests_at x d)
| k_frees x : basic (frees x)
| k_incs x : basic (incs x)
| k_asyncs x : basic (asyncs x)
| k_syncs x : basic (syncs x)
| k_callfrees x : basic (callfrees x)
| k_pending x d : basic (pending_at ncpus x d)
| k_shoot_counters x : basic (shoot_counters x)
| k_counters_set x : basic (counters_set x)
| k_requests x : basic (requests x)
| k_requests_at x d : basic (requests_at x d)
| k_shoots_at x d : basic (shoots_at x d).

Inductive natural : weight -> Prop :=
| k_occ x : natural (occ x)
| k_in_flight id d : natural (in_flight ncpus id d)
| k_basic w : basic w -> natural w.

Inductive counted : weight -> Prop :=
| k_natural w : natural w -> counted w
| k_needs x : counted (needs x).

Lemma natural_nonneg w : natural w -> nonneg w.
Proof.
  assert (Hi : forall (P : Prop) (D : Decision P), 0 <= @ind P D) by (intros; apply ind_bounds).
  assert (Hx : forall (P : Prop) (D : Decision P) n, 0 <= n -> 0 <= @ind P D * n) by (intros P D n Hn; apply Z.mul_nonneg_nonneg; [apply Hi|done]).
  assert (Hom : forall (g : ipm_message -> Z) m, (forall m, 0 <= g m) -> 0 <= of_message g m) by (intros g [m|] Hg; simpl; [apply Hg|lia]).
  intros Hw. destruct Hw as [| |w Hw]; [| |destruct Hw]; split; simpl; auto using Z.le_refl;
    try (intros ? g; destruct g; simpl; unfold sends; repeat (case_match; simpl); auto using Z.le_refl, cnt_nonneg, Nat2Z.is_nonneg with zarith).
Qed.

Section Step.
Context (s s' : ipmst) (c : Z) (f : frame) (k fs : list frame) (b : bool) (p : Z).
Hypothesis Hc : 0 <= c < ncpus.
Hypothesis HI : Inv s.
Hypothesis Hstack : stack (threads s c) = f :: k.
Hypothesis Hthreads : forall e, threads s' e = upd (threads s) c (mk_thread (fs ++ k) b p) e.

Lemma stack_new e : stack (threads s' e) = if decide (e = c) then fs ++ k else stack (threads s e).
Proof using All. rewrite Hthreads. unfold upd. by case_decide. Qed.

(** Only the activation on top changes. *)
Lemma total_goto w : messages s' = messages s -> message_queue s' = message_queue s ->
  total w s' = total w s + (sumz (wf w (messages s) c) fs - wf w (messages s) c f).
Proof using All.
  intros Em Eq. rewrite (total_change ncpus w s s' c c); [|done|done|done| |by rewrite Eq].
  - rewrite Eq, stack_new, decide_True, Hstack, sumz_app by done. simpl. lia.
  - intros e He. by rewrite stack_new, decide_False.
Qed.

(** The queue of the cpu [d] changes as well. *)
Lemma total_queue w d q : 0 <= d < ncpus -> messages s' = messages s -> message_queue s' = upd (message_queue s) d q ->
  total w s' = total w s + (sumz (wf w (messages s) c) fs - wf w (messages s) c f)
    + (sumz (fun a => wm w d a (messages s !! a)) q - sumz (fun a => wm w d a (messages s !! a)) (message_queue s d)).
Proof using All.
  intros Hd Em Eq. rewrite (total_change ncpus w s s' c d); [|done|done|done| |].
  - rewrite Eq, stack_new, decide_True, Hstack, sumz_app by done. unfold upd. rewrite decide_True by done. simpl. lia.
  - intros e He. by rewrite stack_new, decide_False.
  - intros e He. rewrite Eq. unfold upd. by rewrite decide_False.
Qed.

Lemma stacks_step : HandlerEntry ∉ tail (fs ++ k) -> (head (fs ++ k) = Some HandlerEntry -> b = false) -> forall e, stack_ok (threads s' e).
Proof using All.
  intros H1 H2 e. rewrite Hthreads. unfold upd. case_decide; [done|apply HI].
Qed.

Lemma old_or_new e g : g ∈ stack (threads s' e) -> (e = c /\ g ∈ fs) \/ g ∈ stack (threads s e).
Proof using All.
  rewrite stack_new. case_decide as He; [|by right]. subst e. rewrite elem_of_app, Hstack, elem_of_cons. tauto.
Qed.

(** The activations below stay well formed. *)
Lemma frames_step :
  (forall e g y b, 0 <= e < ncpus -> g ∈ stack (threads s e) -> g ∈ stack (threads s' e) -> shooting g = Some (y, b) ->
    messages s' !! tlb_message y = messages s !! tlb_message y) ->
  next_number s <= next_number s' ->
  (forall g, g ∈ fs -> frame_ok s' c g) -> forall e g, 0 <= e < ncpus -> g ∈ stack (threads s' e) -> frame_ok s' e g.
Proof using All.
  intros Hm Hn Hfs e g He Hg. destruct (old_or_new e g Hg) as [[-> Hin]|Hold]; [by apply Hfs|].
  pose proof (i_frame s HI e g He Hold) as Hok. specialize (Hm e g). 
  destruct g; try done; simpl in Hok |- *; unfold send_ok, shoot_ok in *; try (by destruct k0; intuition lia);
    rewrite (Hm _ _ He Hold Hg eq_refl); done.
Qed.

Lemma since_step :
  (forall d, tlb s d <= tlb s' d) ->
  (forall e g y, 0 <= e < ncpus -> g ∈ stack (threads s e) -> g ∈ stack (threads s' e) -> requested g = Some y ->
    total (requests_at (wait y) (target y)) s <= total (requests_at (wait y) (target y)) s' \/ since y (target y) < tlb s' (target y)) ->
  (forall g, g ∈ fs -> since_ok s' c g) -> forall e g, 0 <= e < ncpus -> g ∈ stack (threads s' e) -> since_ok s' e g.
Proof using All.
  intros Ht Hr Hfs e g He Hg. destruct (old_or_new e g Hg) as [[-> Hin]|Hold]; [by apply Hfs|].
  destruct (i_since s HI e g He Hold) as [H1 H2]. split.
  - intros y v Hy. destruct (H1 y v Hy) as [H3 H4]. split; [intros d; specialize (H3 d); specialize (Ht d); lia|].
    intros d Hd Hne. specialize (H4 d Hd Hne). specialize (Ht d). lia.
  - intros y Hy. specialize (Ht (target y)). destruct (Hr e g y He Hold Hg Hy); destruct (H2 y Hy); lia.
Qed.

(** A step that changes no call and no counter, and no reference to one. *)
Lemma Inv_parts :
  (forall w, basic w -> total w s' = total w s) -> (forall x, total (needs x) s' = total (needs x) s) ->
  calls s' = calls s -> counters s' = counters s -> tlb s' = tlb s -> next_number s <= next_number s' ->
  (forall x, message_ok s' x) ->
  (forall id d, cnt (id, d) (issued s') = cnt (id, d) (delivered s') + total (in_flight ncpus id d) s') ->
  NoDup (issued s') /\ (forall q, q ∈ issued s' -> q.1 < next_number s') ->
  (forall d, 0 <= d < ncpus -> message_queue s' d <> [] -> ipi s' d = true \/ 1 <= total (awake d) s') ->
  (forall e g y v, 0 <= e < ncpus -> g ∈ stack (threads s' e) -> shooting g = Some (y, v) -> messages s' !! tlb_message y = messages s !! tlb_message y) ->
  HandlerEntry ∉ tail (fs ++ k) -> (head (fs ++ k) = Some HandlerEntry -> b = false) ->
  (forall g, g ∈ fs -> frame_ok s' c g) -> (forall g, g ∈ fs -> since_ok s' c g) -> Inv s'.
Proof using All.
  intros Ht Hnd Ec Ek Et En Hm Hfl His Ha Hmsg Hs1 Hs2 Hfr Hsi. split; try done.
  - intros x. apply (call_same s); [|apply HI]. unfold same_calls. rewrite Ec, Hnd, !Ht by constructor.
    split_and!; try done; intros d; by rewrite Ht by constructor.
  - intros x. apply (counter_same s); [|apply HI]. unfold same_counters. rewrite Ek, !Ht by constructor. done.
  - intros x d. rewrite !Ht by constructor. apply HI.
  - by apply stacks_step.
  - apply frames_step; eauto.
  - apply since_step; [intros d; by rewrite Et| |done]. intros e g y _ _ _ _. left. by rewrite Ht by constructor.
Qed.

(** A step that moves no message and no reference. *)
Lemma Inv_neutral :
  messages s' = messages s -> calls s' = calls s -> counters s' = counters s -> message_queue s' = message_queue s ->
  issued s' = issued s -> delivered s' = delivered s -> next_number s' = next_number s -> tlb s' = tlb s ->
  (forall w, counted w -> sumz (wf w (messages s) c) fs = wf w (messages s) c f) ->
  (forall d, 0 <= d < ncpus -> message_queue s d <> [] -> ipi s d = true \/ 1 <= total (awake d) s ->
    ipi s' d = true \/ 1 <= total (awake d) s') ->
  HandlerEntry ∉ tail (fs ++ k) -> (head (fs ++ k) = Some HandlerEntry -> b = false) ->
  (forall g, g ∈ fs -> frame_ok s' c g) -> (forall g, g ∈ fs -> since_ok s' c g) -> Inv s'.
Proof using All.
  intros Em Ec Ek Eq Ei Ed En Et Hw Ha Hs1 Hs2 Hfr Hsi.
  assert (Ht : forall w, counted w -> total w s' = total w s) by (intros w Hcw; rewrite total_goto, Hw by done; lia).
  apply Inv_parts; try done.
  - intros w Hb. apply Ht. by repeat constructor.
  - intros x. apply Ht, k_needs.
  - lia.
  - intros x. apply (message_same s); [|apply HI]. unfold same_messages. rewrite Em, !Ht by repeat constructor. done.
  - intros id d. rewrite Ei, Ed, Ht by repeat constructor. apply HI.
  - rewrite Ei, En. apply HI.
  - intros d Hd Hq. rewrite Eq in Hq. apply Ha; [done|done|]. by apply HI.
  - by rewrite Em.
Qed.

(** A step that moves a message between the activation on top and a queue. *)
Lemma Inv_move d q :
  0 <= d < ncpus ->
  messages s' = messages s -> calls s' = calls s -> counters s' = counters s -> message_queue s' = upd (message_queue s) d q ->
  issued s' = issued s -> delivered s' = delivered s -> next_number s' = next_number s -> tlb s' = tlb s -> ipi s' = ipi s ->
  (forall w, counted w -> sumz (wf w (messages s) c) fs + sumz (fun a => wm w d a (messages s !! a)) q =
    wf w (messages s) c f + sumz (fun a => wm w d a (messages s !! a)) (message_queue s d)) ->
  (forall e, wf (awake e) (messages s) c f <= sumz (wf (awake e) (messages s) c) fs) ->
  1 <= sumz (wf (awake d) (messages s) c) fs ->
  HandlerEntry ∉ tail (fs ++ k) -> (head (fs ++ k) = Some HandlerEntry -> b = false) ->
  (forall g, g ∈ fs -> frame_ok s' c g) -> (forall g, g ∈ fs -> since_ok s' c g) -> Inv s'.
Proof using All.
  intros Hd Em Ec Ek Eq Ei Ed En Et Eip Hw Ha Had Hs1 Hs2 Hfr Hsi.
  assert (Ht0 := fun w => total_queue w d q Hd Em Eq).
  assert (Ht : forall w, counted w -> total w s' = total w s) by (intros w Hcw; rewrite Ht0; specialize (Hw w Hcw); lia).
  assert (Hwa : forall e, total (awake e) s' = total (awake e) s + (sumz (wf (awake e) (messages s) c) fs - wf (awake e) (messages s) c f)).
  { intros e. rewrite Ht0. simpl. assert (E : forall l : list Z, sumz (fun _ => 0) l = 0) by (intros l; induction l; simpl; lia). rewrite !E. lia. }
  apply Inv_parts; try done.
  - intros w Hb. apply Ht. by repeat constructor.
  - intros x. apply Ht, k_needs.
  - lia.
  - intros x. apply (message_same s); [|apply HI]. unfold same_messages. rewrite Em, !Ht by repeat constructor. done.
  - intros id e. rewrite Ei, Ed, Ht by repeat constructor. apply HI.
  - rewrite Ei, En. apply HI.
  - intros e He Hq. rewrite Eip, Hwa. destruct (decide (e = d)) as [->|Hne].
    + right. pose proof (total_frame_le ncpus (awake d) s c f) as Hle. rewrite Hstack in Hle.
      assert (wf (awake d) (messages s) c f <= total (awake d) s); [|lia]. apply Hle; [apply awake_nonneg|done|left].
    + rewrite Eq in Hq. unfold upd in Hq. rewrite decide_False in Hq by done. specialize (Ha e). destruct (i_awake s HI e He Hq); [by left|right; lia].
  - by rewrite Em.
Qed.

End Step.

End Invariant.
