(* ===== verification/IpmSteps.v ===== *)
(** * Every step keeps the invariant of inter-processor messages *)

From S2P Require Import Prelude Spinlock Ipm IpmSpec.

(** What stops a cpu: the allocator has no memory. *)
Definition no_memory (h : halt) : Prop :=
  h = Panic "Cannot allocate IPM message" \/ h = Panic "Cannot allocate remote_call_data for remote call".

(** ** Statements that change the cpu's own state *)

(** [s1] is [s] but for the cpu [c], whose state is [t]. *)
Record local (c : Z) (s : ipmst) (t : thread) (s1 : ipmst) : Prop := {
  lo_threads : forall e, threads s1 e = upd (threads s) c t e;
  lo_rest : s1 = put_threads (threads s1) s }.

Section Local.
Context (c : Z) (s : ipmst) (E : halt -> Prop).

Lemma local_refl : local c s (threads s c) s.
Proof. split; [|by destruct s]. intros e. unfold upd. by case_decide as He; [rewrite He|]. Qed.

Lemma local_get t s1 : local c s t s1 -> threads s1 c = t.
Proof. intros [Ht _]. rewrite Ht. unfold upd. by rewrite decide_True. Qed.

Lemma local_set t t' s1 : local c s t s1 -> local c s t' (put_threads (upd (threads s1) c t') s1).
Proof.
  intros [Ht Hr]. split; simpl; [|by rewrite Hr]. intros e. unfold upd at 1 2. case_decide as He; [done|].
  rewrite Ht. unfold upd. by rewrite decide_False.
Qed.

Lemma wpx_set_thread t t' s1 (Q : unit -> ipmst -> Prop) : local c s t s1 -> (forall s2, local c s t' s2 -> Q tt s2) -> wpx E (set_thread c t') Q s1.
Proof. intros Hl HQ. apply HQ. by apply (local_set t). Qed.

Lemma wpx_goto t s1 f (Q : unit -> ipmst -> Prop) : local c s t s1 ->
  (forall s2, local c s (mk_thread (f :: tail (stack t)) (IF_ t) (preempt t)) s2 -> Q tt s2) -> wpx E (goto c f) Q s1.
Proof. intros Hl HQ. eapply wpx_bind_ok; [done|]. rewrite (local_get _ _ Hl). by apply (wpx_set_thread t). Qed.

Lemma wpx_call t s1 f (Q : unit -> ipmst -> Prop) : local c s t s1 ->
  (forall s2, local c s (mk_thread (f :: stack t) (IF_ t) (preempt t)) s2 -> Q tt s2) -> wpx E (call c f) Q s1.
Proof. intros Hl HQ. eapply wpx_bind_ok; [done|]. rewrite (local_get _ _ Hl). by apply (wpx_set_thread t). Qed.

Lemma wpx_return t s1 (Q : unit -> ipmst -> Prop) : local c s t s1 ->
  (forall s2, local c s (mk_thread (tail (stack t)) (IF_ t) (preempt t)) s2 -> Q tt s2) -> wpx E (return_ c) Q s1.
Proof. intros Hl HQ. eapply wpx_bind_ok; [done|]. rewrite (local_get _ _ Hl). by apply (wpx_set_thread t). Qed.

Lemma wpx_set_flag t s1 b (Q : unit -> ipmst -> Prop) : local c s t s1 ->
  (forall s2, local c s (mk_thread (stack t) b (preempt t)) s2 -> Q tt s2) -> wpx E (Ipm.cpu_set_interrupt_flag c b) Q s1.
Proof. intros Hl HQ. eapply wpx_bind_ok; [done|]. rewrite (local_get _ _ Hl). by apply (wpx_set_thread t). Qed.

Lemma wpx_flag t s1 (Q : bool -> ipmst -> Prop) : local c s t s1 -> Q (IF_ t) s1 -> wpx E (Ipm.interrupts_enabled c) Q s1.
Proof. intros Hl HQ. eapply wpx_bind_ok; [done|]. rewrite (local_get _ _ Hl). done. Qed.

Lemma wpx_preempt_disable t s1 (Q : unit -> ipmst -> Prop) : local c s t s1 ->
  (forall s2, local c s (mk_thread (stack t) (IF_ t) (preempt t + 1)) s2 -> Q tt s2) -> wpx E (Ipm.preempt_disable c) Q s1.
Proof. intros Hl HQ. eapply wpx_bind_ok; [done|]. rewrite (local_get _ _ Hl). by apply (wpx_set_thread t). Qed.

Lemma wpx_preempt_enable t s1 (Q : unit -> ipmst -> Prop) : local c s t s1 ->
  (forall s2, local c s (mk_thread (stack t) (IF_ t) (preempt t - 1)) s2 -> Q tt s2) -> wpx E (Ipm.preempt_enable c) Q s1.
Proof. intros Hl HQ. eapply wpx_bind_ok; [done|]. rewrite (local_get _ _ Hl). by apply (wpx_set_thread t). Qed.

(** Statements that change something else. *)
Lemma local_modify t s1 (g : ipmst -> ipmst) :
  (forall u x, g (put_threads u x) = put_threads u (g x)) -> threads (g s) = threads s -> local c s t s1 -> local c (g s) t (g s1).
Proof.
  intros Hg Ht [H1 H2]. assert (Hth : threads (g s1) = threads s1) by (rewrite H2, Hg; done).
  split; [intros e; by rewrite Hth, Ht, H1|]. rewrite Hth, <- Hg. by rewrite <- H2.
Qed.

End Local.

Section Steps.
Context (ncpus : Z) (Hn : 1 <= ncpus <= 255) (c : Z) (Hc : 0 <= c < ncpus).
Context (s : ipmst) (HI : Inv ncpus s).
Abbreviation total := (total ncpus).

Definition keeps (hint : Z) (f : frame) : Prop :=
  forall k, stack (threads s c) = f :: k -> wpx no_memory (run_frame ncpus c hint f) (fun _ => Inv ncpus) s.

(** An activation that is there, and the invariant it satisfies. *)
Lemma top_ok f k : stack (threads s c) = f :: k -> frame_ok ncpus s c f /\ since_ok ncpus s c f /\ HandlerEntry ∉ k.
Proof.
  intros Hs. assert (f ∈ stack (threads s c)) by (rewrite Hs; left). split_and!; [by apply HI|by apply HI|].
  pose proof (proj1 (i_stack _ _ HI c)) as Hst. by rewrite Hs in Hst.
Qed.

Lemma top_le w f k : stack (threads s c) = f :: k -> natural ncpus w -> (wf w (messages s) c f <= total w s).
Proof. intros Hs Hw. apply total_frame_le; [by apply (natural_nonneg ncpus)|done|]. rewrite Hs. left. Qed.

Lemma entry_below k : HandlerEntry ∉ k -> (HandlerEntry ∉ tail k) /\ head k <> Some HandlerEntry.
Proof. destruct k as [|g k]; simpl; [set_solver|]. intros Hk. split; [set_solver|]. intros [= ->]. set_solver. Qed.

(** A step that only changes the activation on top. *)
Lemma neutral f k fs b p s1 :
  stack (threads s c) = f :: k -> local c s (mk_thread (fs ++ k) b p) s1 ->
  (forall w, counted ncpus w -> sumz (wf w (messages s) c) fs = wf w (messages s) c f) ->
  (forall d, 0 <= d < ncpus -> message_queue s d <> [] -> wf (awake d) (messages s) c f <= sumz (wf (awake d) (messages s) c) fs) ->
  HandlerEntry ∉ tail (fs ++ k) -> (head (fs ++ k) = Some HandlerEntry -> b = false) ->
  (forall g, g ∈ fs -> frame_ok ncpus s c g) -> (forall g, g ∈ fs -> since_ok ncpus s c g) -> Inv ncpus s1.
Proof using All.
  intros Hs Hl Hw Ha H1 H2 H3 H4. pose proof (lo_threads _ _ _ _ Hl) as Hth. pose proof (lo_rest _ _ _ _ Hl) as Hr.
  assert (Ht : forall w, total w s1 = total w s + (sumz (wf w (messages s) c) fs - wf w (messages s) c f)).
  { intros w. apply (total_goto ncpus s s1 c f k fs b p); try done; by rewrite Hr. }
  eapply (Inv_neutral ncpus s s1 c f k fs b p); try done; try (by rewrite Hr).
  - intros d Hd Hq [Hi|Hi]; [left; by rewrite Hr|right]. specialize (Ha d Hd Hq). rewrite Ht. lia.
  - intros g Hg. destruct (H4 g Hg) as [H5 H6]. split; [by rewrite Hr|]. intros y Hy. rewrite Ht, Hw by repeat constructor. rewrite Hr. simpl.
    destruct (H6 y Hy); [by left|right; lia].
Qed.

Ltac weigh := intros w Hw; destruct Hw as [w Hw|]; [destruct Hw as [| |w Hw]; [| |destruct Hw]|]; unfold wf; simpl; try lia.
Ltac indicators := unfold ind in *; repeat case_decide; try lia; try naive_solver lia.
Ltac weigh_awake := intros ? _ ?; unfold wf; simpl; indicators.

(** Solves the side conditions of [neutral] for activations that are not
    shootdowns. *)
Ltac sides Hk :=
  try (by set_solver); try (by intros [=]);
  try (let g := fresh "g" in let Hg := fresh "Hg" in
       intros g Hg; repeat (apply elem_of_cons in Hg as [->|Hg]); [..|by apply elem_of_nil in Hg];
       (done || (split; [by intros ? ? [=]|by intros ? [=]]))).

(** Runs the statements that change the cpu's own state. *)
Ltac run :=
  repeat first
  [ match goal with Hl : local _ _ _ ?s1 |- wpx _ ?m _ ?s1 =>
      match m with
      | Ipm.interrupts_enabled _ => eapply wpx_flag; [exact Hl|]
      | Ipm.cpu_set_interrupt_flag _ _ => eapply wpx_set_flag; [exact Hl|]; first [clear s1 Hl|clear Hl]; intros ? Hl
      | Ipm.preempt_disable _ => eapply wpx_preempt_disable; [exact Hl|]; first [clear s1 Hl|clear Hl]; intros ? Hl
      | Ipm.preempt_enable _ => eapply wpx_preempt_enable; [exact Hl|]; first [clear s1 Hl|clear Hl]; intros ? Hl
      | goto _ _ => eapply wpx_goto; [exact Hl|]; first [clear s1 Hl|clear Hl]; intros ? Hl
      | Ipm.call _ _ => eapply wpx_call; [exact Hl|]; first [clear s1 Hl|clear Hl]; intros ? Hl
      | return_ _ => eapply wpx_return; [exact Hl|]; first [clear s1 Hl|clear Hl]; intros ? Hl
      end
    end
  | match goal with |- wpx _ (bind _ _) _ _ => apply wpx_bind end ].

(** The start of a step of the activation on top. *)
Ltac start Hs Hf Hsi Hk Hl :=
  intros k Hs; destruct (top_ok _ _ Hs) as (Hf & Hsi & Hk); pose proof (local_refl c s) as Hl; unfold run_frame.

(** The end of one: the new state of the cpu. *)
Ltac finish Hs Hl := simpl in Hl; rewrite Hs in Hl; simpl in Hl; match type of Hl with local _ _ _ ?x => rename x into s1 end.

Lemma handler_entry hint : keeps hint HandlerEntry.
Proof using All.
  start Hs Hf Hsi Hk Hl. pose proof (proj2 (i_stack _ _ HI c)) as Hif. rewrite Hs in Hif. specialize (Hif eq_refl).
  unfold ipm_handler. run. rewrite Hif. eapply wpx_ret. run. finish Hs Hl.
  eapply (neutral HandlerEntry k [Process]); [done|exact Hl|weigh|weigh_awake|sides Hk..].
Qed.

Lemma handler_exit hint : keeps hint HandlerExit.
Proof using All.
  start Hs Hf Hsi Hk Hl. unfold ipm_handler, iret. run. finish Hs Hl.
  eapply (neutral HandlerExit k []); [done|exact Hl|weigh|weigh_awake|by apply entry_below|by intros ?%entry_below|..]; by intros ? ?%elem_of_nil.
Qed.

Lemma process_empty hint : message_queue s c = [] -> keeps hint Process.
Proof using All.
  intros Hq. start Hs Hf Hsi Hk Hl. unfold process_messages. eapply wpx_bind_ok; [done|]. simpl. rewrite Hq. run. finish Hs Hl.
  eapply (neutral Process k [HandlerExit]); [done|exact Hl|weigh|weigh_awake|sides Hk..].
Qed.

(** *** Handling a remote call *)

(** A call that is referred to exists. *)
Lemma ref_live x : 1 <= total (refs ncpus x) s -> exists r, calls s !! x = Some r /\ 1 <= ref_count r <= 256.
Proof using HI.
  intros Hr. pose proof (i_call _ _ HI x) as Hx. unfold call_ok in Hx. destruct (calls s !! x) as [r|]; [|lia]. exists r.
  assert (0 <= total (owners x) s) by (apply total_ge_0, (natural_nonneg ncpus); repeat constructor). split; [done|lia].
Qed.

(** The weights that do not concern remote calls. *)
Inductive passive : weight -> Prop :=
| v_occ x : passive (occ x)
| v_shoot_messages x : passive (shoot_messages x)
| v_shoot_counters x : passive (shoot_counters x)
| v_counters_set x : passive (counters_set x)
| v_requests x : passive (requests x)
| v_requests_at x d : passive (requests_at x d)
| v_shoots_at x d : passive (shoots_at x d)
| v_in_flight id d : passive (in_flight ncpus id d).

Lemma calls_total f k fs b p C s1 w :
  stack (threads s c) = f :: k -> local c (put_calls C s) (mk_thread (fs ++ k) b p) s1 ->
  total w s1 = total w s + (sumz (wf w (messages s) c) fs - wf w (messages s) c f).
Proof using All.
  intros Hs Hl. pose proof (lo_rest _ _ _ _ Hl) as Hr.
  apply (total_goto ncpus s s1 c f k fs b p); try done; [apply Hl|by rewrite Hr..].
Qed.

(** A step that changes calls and references to calls only. *)
Lemma calls_step f k fs b p C s1 :
  stack (threads s c) = f :: k -> local c (put_calls C s) (mk_thread (fs ++ k) b p) s1 ->
  (forall x, call_ok ncpus s1 x) ->
  (forall w, passive w -> sumz (wf w (messages s) c) fs = wf w (messages s) c f) ->
  (forall d, 0 <= d < ncpus -> message_queue s d <> [] -> wf (awake d) (messages s) c f <= sumz (wf (awake d) (messages s) c) fs) ->
  HandlerEntry ∉ tail (fs ++ k) -> (head (fs ++ k) = Some HandlerEntry -> b = false) ->
  (forall g, g ∈ fs -> frame_ok ncpus s c g) -> (forall g, g ∈ fs -> since_ok ncpus s c g) -> Inv ncpus s1.
Proof using All.
  intros Hs Hl Hcall Hw Ha H1 H2 H3 H4. pose proof (lo_threads _ _ _ _ Hl) as Hth. pose proof (lo_rest _ _ _ _ Hl) as Hr.
  pose proof (fun w => calls_total f k fs b p C s1 w Hs Hl) as Ht0.
  assert (Ht : forall w, passive w -> total w s1 = total w s) by (intros w Hp; rewrite Ht0, Hw by done; lia).
  split; try done.
  - intros x. apply (message_same ncpus s); [|apply HI]. unfold same_messages. rewrite !Ht by constructor. rewrite Hr. done.
  - intros x. apply (counter_same ncpus s); [|apply HI]. unfold same_counters. rewrite !Ht by constructor. rewrite Hr. done.
  - intros x d. rewrite !Ht by constructor. apply HI.
  - intros id d. rewrite Ht by constructor. rewrite Hr. apply HI.
  - rewrite Hr. apply HI.
  - intros d Hd Hq. rewrite Hr in Hq. destruct (i_awake _ _ HI d Hd Hq) as [Hi|Hi]; [left; by rewrite Hr|right].
    specialize (Ha d Hd Hq). rewrite Ht0. lia.
  - eapply (stacks_step ncpus s s1); eauto.
  - eapply (frames_step ncpus s s1); eauto; [by rewrite Hr|by rewrite Hr|]. intros g Hg. rewrite Hr. by apply H3.
  - eapply (since_step ncpus s s1); eauto; [by rewrite Hr|intros e g y _ _ _ _; left; by rewrite Ht by constructor|].
    intros g Hg. destruct (H4 g Hg) as [H5 H6]. split; [by rewrite Hr|]. intros y Hy. rewrite Ht by constructor. rewrite Hr. by apply H6.
Qed.

Lemma handle_check hint a : keeps hint (HandleCheck a).
Proof using All.
  start Hs Hf Hsi Hk Hl. unfold handle_remote_call.
  pose proof (top_le (refs ncpus a) _ _ Hs ltac:(repeat constructor)) as Hle. unfold wf in Hle. simpl in Hle. rewrite ind_yes in Hle by done.
  destruct (ref_live a) as (r & Hr & Hc1); [lia|]. eapply wpx_bind_ok; [unfold rd_call; by rewrite Hr|].
  rewrite (proj2 (Z.eqb_neq (ref_count r) 0)) by lia. eapply wpx_bind_ok; [done|]. run. finish Hs Hl.
  eapply (neutral (HandleCheck a) k [HandleMode a]); [done|exact Hl|weigh|weigh_awake|sides Hk..].
Qed.

Ltac no_ind := repeat match goal with |- context [ind (?u = ?v)] => rewrite (ind_no (u = v)) by congruence end.

Ltac bound_inds := repeat match goal with |- context [@ind ?P ?D] =>
  let H := fresh in pose proof (@ind_bounds P D) as H; revert H; generalize (@ind P D); intros ? H end.

(** The calls at other addresses than the one a step works on. *)
Ltac other_call Ht Hr :=
  apply (call_same ncpus s); [|apply HI]; unfold same_calls;
  split; [rewrite Hr; simpl; first [done|by rewrite lookup_insert_ne|by rewrite lookup_delete_ne]|];
  split_and!; try (intros ?); rewrite Ht; unfold wf; simpl; no_ind; lia.

(** The call at the address the step works on. *)
Ltac at_call Ht Hr :=
  unfold call_ok; rewrite !Ht; rewrite (f_equal calls Hr : calls _ = _); unfold wf; simpl; rewrite ?lookup_insert_eq, ?lookup_delete_eq; simpl; rewrite ?ind_yes by done.

Ltac weigh_passive := intros w Hw; destruct Hw; unfold wf; simpl; try lia.

Lemma handle_mode hint a : keeps hint (HandleMode a).
Proof using All.
  start Hs Hf Hsi Hk Hl. unfold handle_remote_call.
  pose proof (top_le (refs ncpus a) _ _ Hs ltac:(repeat constructor)) as Hle. unfold wf in Hle. simpl in Hle. rewrite ind_yes in Hle by done.
  destruct (ref_live a) as (r & Hr & Hc1); [lia|]. eapply wpx_bind_ok; [unfold rd_call; by rewrite Hr|].
  pose proof (i_call _ _ HI a) as Ha. unfold call_ok in Ha. rewrite Hr in Ha.
  replace s with (put_calls (calls s) s) in Hl at 1 by by destruct s.
  destruct (is_synchronous r) eqn:Hsy; run; finish Hs Hl.
  - pose proof (fun w => calls_total _ _ [HandleCall (Original a)] _ _ _ _ w Hs Hl) as Ht. pose proof (lo_rest _ _ _ _ Hl) as Hr1.
    eapply (calls_step (HandleMode a) k [HandleCall (Original a)]); [done|exact Hl| |weigh_passive|weigh_awake|sides Hk..].
    intros x. destruct (decide (x = a)) as [->|Hx]; [|other_call Ht Hr1].
    at_call Ht Hr1. rewrite Hr, Hsy. destruct Ha as (? & ? & ? & ? & ? & ? & Hex & ?). split_and!; try lia.
    intros d. rewrite !Ht. specialize (Hex d). unfold wf. simpl. lia.
  - pose proof (fun w => calls_total _ _ [HandleDec a r] _ _ _ _ w Hs Hl) as Ht. pose proof (lo_rest _ _ _ _ Hl) as Hr1.
    eapply (calls_step (HandleMode a) k [HandleDec a r]); [done|exact Hl| |weigh_passive|weigh_awake|sides Hk..].
    intros x. destruct (decide (x = a)) as [->|Hx]; [|other_call Ht Hr1].
    at_call Ht Hr1. rewrite Hr, Hsy. destruct Ha as (? & ? & ? & ? & ? & ?). split_and!; lia.
Qed.

(** The reference of the activation on top. *)
Ltac top_ref a Hs Hle := pose proof (top_le (refs ncpus a) _ _ Hs ltac:(repeat constructor)) as Hle; unfold wf in Hle; simpl in Hle; rewrite ind_yes in Hle by done.
Ltac top_weight w Hs Hle := pose proof (top_le w _ _ Hs ltac:(repeat constructor)) as Hle; unfold wf in Hle; simpl in Hle; rewrite ?ind_yes in Hle by done.

Lemma dec_run a r : calls s !! a = Some r -> 1 <= ref_count r <= 256 ->
  dec_and_test_ref_count a s = Ok (ref_count r - 1 =? 0, put_calls (<[a := set_ref_count (ref_count r - 1) r]> (calls s)) s).
Proof. intros Hr Hb. unfold dec_and_test_ref_count, rd_call, bind. rewrite Hr. simpl. rewrite s32_id by lia. done. Qed.

Lemma handle_dec hint a cpy : keeps hint (HandleDec a cpy).
Proof using All.
  start Hs Hf Hsi Hk Hl. simpl in Hf. unfold handle_remote_call. top_ref a Hs Hle.
  destruct (ref_live a) as (r & Hr & Hc1); [lia|]. eapply wpx_bind_ok; [by apply dec_run|]. clear Hl.
  pose proof (local_refl c (put_calls (<[a := set_ref_count (ref_count r - 1) r]> (calls s)) s)) as Hl.
  pose proof (i_call _ _ HI a) as Ha. unfold call_ok in Ha. rewrite Hr in Ha.
  top_weight (asyncs a) Hs Hla. destruct (is_synchronous r) eqn:Hsy; [lia|]. destruct Ha as (H1 & H2 & H3 & H4 & H5 & H6).
  assert (0 <= total (frees a) s) by (apply total_ge_0, (natural_nonneg ncpus); repeat constructor).
  destruct (Z.eqb_spec (ref_count r - 1) 0) as [E|E]; run; finish Hs Hl.
  - pose proof (fun w => calls_total _ _ [HandleFree a cpy] _ _ _ _ w Hs Hl) as Ht. pose proof (lo_rest _ _ _ _ Hl) as Hr1.
    eapply (calls_step (HandleDec a cpy) k [HandleFree a cpy]); [done|exact Hl| |weigh_passive|weigh_awake|sides Hk..].
    intros x. destruct (decide (x = a)) as [->|Hx]; [|other_call Ht Hr1]. at_call Ht Hr1. rewrite Hsy. split_and!; lia.
  - pose proof (fun w => calls_total _ _ [HandleCall (Copied cpy)] _ _ _ _ w Hs Hl) as Ht. pose proof (lo_rest _ _ _ _ Hl) as Hr1.
    eapply (calls_step (HandleDec a cpy) k [HandleCall (Copied cpy)]); [done|exact Hl| |weigh_passive|weigh_awake|sides Hk..].
    intros x. destruct (decide (x = a)) as [->|Hx]; [|other_call Ht Hr1]. at_call Ht Hr1. rewrite Hsy. split_and!; lia.
Qed.

Lemma handle_free hint a cpy : keeps hint (HandleFree a cpy).
Proof using All.
  start Hs Hf Hsi Hk Hl. simpl in Hf. unfold handle_remote_call. top_weight (frees a) Hs Hle. top_weight (asyncs a) Hs Hla.
  pose proof (i_call _ _ HI a) as Ha. unfold call_ok in Ha. destruct (calls s !! a) as [r|] eqn:Hr; [|lia].
  destruct (is_synchronous r) eqn:Hsy; [lia|]. destruct Ha as (H1 & H2 & H3 & H4 & H5 & H6).
  eapply wpx_bind_ok; [unfold kfree_call, rd_call, bind; by rewrite Hr|]. clear Hl. simpl.
  pose proof (local_refl c (put_calls (delete a (calls s)) s)) as Hl. run. finish Hs Hl.
  pose proof (fun w => calls_total _ _ [HandleCall (Copied cpy)] _ _ _ _ w Hs Hl) as Ht. pose proof (lo_rest _ _ _ _ Hl) as Hr1.
  assert (Hinc : total (incs a) s <= total (syncs a) s).
  { apply total_le; [done|]. intros e g _. unfold wf. destruct g; simpl; try lia; repeat case_match; bound_inds; lia. }
  assert (0 <= total (incs a) s) by (apply total_ge_0, (natural_nonneg ncpus); repeat constructor).
  eapply (calls_step (HandleFree a cpy) k [HandleCall (Copied cpy)]); [done|exact Hl| |weigh_passive|weigh_awake|sides Hk..].
  intros x. destruct (decide (x = a)) as [->|Hx]; [|other_call Ht Hr1]. at_call Ht Hr1. split_and!; lia.
Qed.

Lemma handle_call_copied hint r : keeps hint (HandleCall (Copied r)).
Proof using All.
  start Hs Hf Hsi Hk Hl. simpl in Hf. unfold handle_remote_call. eapply wpx_bind_ok; [done|]. run. finish Hs Hl.
  eapply (neutral _ k [Kernel; HandleReturn (Copied r) (IF_ (threads s c))]); [exact Hs|exact Hl|weigh|weigh_awake|sides Hk..].
Qed.

Lemma handle_call_original hint a : keeps hint (HandleCall (Original a)).
Proof using All.
  start Hs Hf Hsi Hk Hl. unfold handle_remote_call. top_ref a Hs Hle. top_weight (syncs a) Hs Hla.
  pose proof (i_call _ _ HI a) as Ha. unfold call_ok in Ha. destruct (calls s !! a) as [r|] eqn:Hr; [|lia].
  destruct (is_synchronous r) eqn:Hsy; [|lia]. destruct Ha as (H1 & H2 & H3 & H4 & H5 & H6 & H7 & H8).
  eapply wpx_bind_ok; [unfold rd_call, bind; by rewrite Hr|]. clear Hl. simpl.
  pose proof (local_refl c (put_calls (<[a := set_executed (executed r ++ [c]) r]> (calls s)) s)) as Hl. run. finish Hs Hl.
  pose proof (fun w => calls_total _ _ [Kernel; HandleReturn (Original a) (IF_ (threads s c))] _ _ _ _ w Hs Hl) as Ht. pose proof (lo_rest _ _ _ _ Hl) as Hr1.
  eapply (calls_step _ k [Kernel; HandleReturn (Original a) (IF_ (threads s c))]); [exact Hs|exact Hl| |weigh_passive|weigh_awake|sides Hk..].
  intros x. destruct (decide (x = a)) as [->|Hx]; [|other_call Ht Hr1]. at_call Ht Hr1. rewrite Hsy. split_and!; try lia.
  intros d. rewrite !Ht. specialize (H7 d). unfold wf, cnt in *. rewrite sumz_app. simpl. rewrite (ind_yes (a = a)) by done. lia.
Qed.

Lemma rd_call_local t s1 a r : local c s t s1 -> calls s !! a = Some r -> rd_call a s1 = Ok (r, s1).
Proof. intros Hl Hr. unfold rd_call. assert (calls s1 = calls s) as -> by (by rewrite (lo_rest _ _ _ _ Hl)). by rewrite Hr. Qed.

Lemma handle_return hint h irqs : keeps hint (HandleReturn h irqs).
Proof using All.
  start Hs Hf Hsi Hk Hl. unfold handle_remote_call. run. destruct h as [r|a].
  - simpl in Hf. apply wpx_bind, wpx_assert; [by rewrite Hf|]. run. finish Hs Hl.
    eapply (neutral _ k [Process]); [exact Hs|exact Hl|weigh|weigh_awake|sides Hk..].
  - top_ref a Hs Hle. top_weight (syncs a) Hs Hla.
    pose proof (i_call _ _ HI a) as Ha. unfold call_ok in Ha. destruct (calls s !! a) as [r|] eqn:Hr; [|lia].
    destruct (is_synchronous r) eqn:Hsy; [|lia].
    eapply wpx_bind_ok; [by eapply rd_call_local|]. rewrite Hsy. run. finish Hs Hl.
    eapply (neutral _ k [HandleSyncDec a]); [exact Hs|exact Hl|weigh|weigh_awake|sides Hk..].
Qed.

Lemma handle_sync_dec hint a : keeps hint (HandleSyncDec a).
Proof using All.
  start Hs Hf Hsi Hk Hl. unfold handle_remote_call. top_ref a Hs Hle. top_weight (syncs a) Hs Hla.
  destruct (ref_live a) as (r & Hr & Hc1); [lia|]. eapply wpx_bind_ok; [by apply dec_run|]. clear Hl.
  pose proof (i_call _ _ HI a) as Ha. unfold call_ok in Ha. rewrite Hr in Ha.
  destruct (is_synchronous r) eqn:Hsy; [|lia]. destruct Ha as (H1 & H2 & H3 & H4 & H5 & H6 & H7 & H8).
  pose proof (local_refl c (put_calls (<[a := set_ref_count (ref_count r - 1) r]> (calls s)) s)) as Hl.
  apply wpx_bind, wpx_assert; [by rewrite (proj2 (Z.eqb_neq (ref_count r - 1) 0)) by lia|]. run. finish Hs Hl.
  pose proof (fun w => calls_total _ _ [HandleSyncInc a] _ _ _ _ w Hs Hl) as Ht. pose proof (lo_rest _ _ _ _ Hl) as Hr1.
  eapply (calls_step _ k [HandleSyncInc a]); [exact Hs|exact Hl| |weigh_passive|weigh_awake|sides Hk..].
  intros x. destruct (decide (x = a)) as [->|Hx]; [|other_call Ht Hr1]. at_call Ht Hr1. rewrite Hsy. split_and!; try lia.
  intros d. rewrite !Ht. specialize (H7 d). unfold wf. simpl. lia.
Qed.

Lemma handle_sync_inc hint a : keeps hint (HandleSyncInc a).
Proof using All.
  start Hs Hf Hsi Hk Hl. unfold handle_remote_call. top_weight (incs a) Hs Hle. top_weight (syncs a) Hs Hla.
  pose proof (i_call _ _ HI a) as Ha. unfold call_ok in Ha. destruct (calls s !! a) as [r|] eqn:Hr; [|lia].
  destruct (is_synchronous r) eqn:Hsy; [|lia]. destruct Ha as (H1 & H2 & H3 & H4 & H5 & H6 & H7 & H8).
  eapply wpx_bind_ok; [unfold rd_call; by rewrite Hr|]. clear Hl. eapply wpx_bind_ok; [done|]. simpl.
  assert (0 <= total (refs ncpus a) s) by (apply total_ge_0, (natural_nonneg ncpus); repeat constructor).
  rewrite s32_id by lia.
  pose proof (local_refl c (put_calls (<[a := set_completed_count (completed_count r + 1) r]> (calls s)) s)) as Hl. run. finish Hs Hl.
  pose proof (fun w => calls_total _ _ [Process] _ _ _ _ w Hs Hl) as Ht. pose proof (lo_rest _ _ _ _ Hl) as Hr1.
  eapply (calls_step _ k [Process]); [exact Hs|exact Hl| |weigh_passive|weigh_awake|sides Hk..].
  intros x. destruct (decide (x = a)) as [->|Hx]; [|other_call Ht Hr1]. at_call Ht Hr1. rewrite Hsy. split_and!; try lia.
  intros d. rewrite !Ht. specialize (H7 d). unfold wf. simpl. lia.
Qed.

(** *** Waiting for a remote call *)

(** The activation on top is the only one that waits for the call. *)
Lemma only_owner f k a v :
  stack (threads s c) = f :: k -> waits a (fun _ _ => 1) f = 1 -> total (owners a) s = 1 ->
  total (mk_weight (fun _ _ _ => 0) (fun _ => waits a v)) s = waits a v f.
Proof using All.
  intros Hs Hf Ho. set (w := mk_weight _ _). set (s2 := put_threads (upd (threads s) c (mk_thread k true 0)) s).
  assert (Ht : forall w, total w s2 = total w s + (0 - wf w (messages s) c f)) by (intros w'; by apply (total_goto ncpus s s2 c f k [] true 0)).
  assert (Hz : total w s2 = 0).
  { apply (total_zero ncpus (owners a)); [apply (natural_nonneg ncpus); repeat constructor|done| |].
    - intros e g. simpl. destruct g; simpl; try done; try destruct k0; simpl; try done; intros; nia.
    - rewrite Ht. unfold wf. simpl. destruct f; simpl in *; lia. }
  rewrite Ht in Hz. unfold wf in Hz. subst w. simpl in *. destruct f; simpl in *; lia.
Qed.

Lemma frees_async a : total (frees a) s <= total (asyncs a) s.
Proof. apply total_le; [done|]. intros e g _. unfold wf. destruct g; simpl; bound_inds; lia. Qed.

Lemma call_wait hint a n ds : keeps hint (CallWait a n ds).
Proof using All.
  start Hs Hf Hsi Hk Hl. unfold wait_remote_call. top_weight (owners a) Hs Hle.
  pose proof (i_call _ _ HI a) as Ha. unfold call_ok in Ha. destruct (calls s !! a) as [r|] eqn:Hr; [|lia].
  destruct (is_synchronous r) eqn:Hsy; [|lia]. destruct Ha as (H1 & H2 & H3 & H4 & H5 & H6 & H7 & H8).
  pose proof (only_owner _ _ a (fun n _ => n) Hs ltac:(simpl; rewrite ind_yes by done; lia) H3) as Hnd. simpl in Hnd. rewrite ind_yes in Hnd by done.
  change (mk_weight _ _) with (needs a) in Hnd.
  eapply wpx_bind_ok; [unfold rd_call; by rewrite Hr|]. destruct (Z.eqb_spec (completed_count r) n) as [E|E]; [|by apply wpx_ret].
  replace s with (put_calls (calls s) s) in Hl at 1 by by destruct s. run. finish Hs Hl.
  pose proof (fun w => calls_total _ _ [CallFree a n ds] _ _ _ _ w Hs Hl) as Ht. pose proof (lo_rest _ _ _ _ Hl) as Hr1.
  assert (0 <= total (refs ncpus a) s) by (apply total_ge_0, (natural_nonneg ncpus); repeat constructor).
  assert (0 <= total (incs a) s) by (apply total_ge_0, (natural_nonneg ncpus); repeat constructor).
  eapply (calls_step _ k [CallFree a n ds]); [exact Hs|exact Hl| |weigh_passive|weigh_awake|sides Hk..].
  intros x. destruct (decide (x = a)) as [->|Hx]; [|other_call Ht Hr1]. at_call Ht Hr1. rewrite Hr, Hsy. split_and!; try lia.
  intros d. rewrite !Ht. specialize (H7 d). unfold wf. simpl. lia.
Qed.

Lemma call_free hint a n ds : keeps hint (CallFree a n ds).
Proof using All.
  start Hs Hf Hsi Hk Hl. unfold wait_remote_call. top_weight (owners a) Hs Hle. top_weight (callfrees a) Hs Hlc.
  pose proof (i_call _ _ HI a) as Ha. unfold call_ok in Ha. destruct (calls s !! a) as [r|] eqn:Hr; [|lia].
  destruct (is_synchronous r) eqn:Hsy; [|lia]. destruct Ha as (H1 & H2 & H3 & H4 & H5 & H6 & H7 & H8).
  eapply wpx_bind_ok; [unfold rd_call; by rewrite Hr|]. apply wpx_bind, wpx_assert; [apply Z.eqb_eq; lia|].
  eapply wpx_bind_ok; [unfold kfree_call, rd_call, bind; by rewrite Hr|]. clear Hl. simpl.
  pose proof (local_refl c (put_calls (delete a (calls s)) s)) as Hl. run. finish Hs Hl.
  pose proof (fun w => calls_total _ _ [] _ _ _ _ w Hs Hl) as Ht. pose proof (lo_rest _ _ _ _ Hl) as Hr1.
  pose proof (frees_async a). assert (0 <= total (frees a) s) by (apply total_ge_0, (natural_nonneg ncpus); repeat constructor).
  eapply (calls_step _ k []); [exact Hs|exact Hl| |weigh_passive|weigh_awake|by apply entry_below|by intros ?%entry_below|..]; try (by intros ? ?%elem_of_nil).
  intros x. destruct (decide (x = a)) as [->|Hx]; [|other_call Ht Hr1]. at_call Ht Hr1. split_and!; lia.
Qed.

(** *** Sending *)

Lemma targets_skip x i : i < send_end ncpus x -> is_broadcast x = true /\ i = c -> send_targets ncpus c x i = send_targets ncpus c x (i + 1).
Proof. intros Hi Hb. unfold send_targets. rewrite range_cons, filter_cons_False by (done || lia || tauto). done. Qed.

Lemma targets_cons x i : i < send_end ncpus x -> ~ (is_broadcast x = true /\ i = c) -> send_targets ncpus c x i = i :: send_targets ncpus c x (i + 1).
Proof. intros Hi Hb. unfold send_targets. by rewrite range_cons, filter_cons_True by done. Qed.

Lemma targets_nil x i : send_end ncpus x <= i -> send_targets ncpus c x i = [].
Proof. intros Hi. unfold send_targets. by rewrite range_nil. Qed.

Lemma send_end_le x k : send_ok ncpus s c x k -> send_end ncpus x <= 255 /\ 0 <= send_start x /\ (is_broadcast x = false -> send_end ncpus x = to_cpu x + 1).
Proof using Hn.
  intros (_ & Hb & _). unfold send_end, send_start. destruct (is_broadcast x); [split_and!; [lia|lia|done]|].
  destruct Hb as [|Hb]; [done|]. rewrite u8_id by lia. split_and!; lia.
Qed.

Lemma send_loop_skip hint x i k0 : i < send_end ncpus x -> is_broadcast x = true /\ i = c -> keeps hint (SendLoop x i k0).
Proof using All.
  intros Hi Hb. start Hs Hf Hsi Hk Hl. destruct Hf as [Hok Hif]. destruct (send_end_le _ _ Hok) as (He & H0 & _).
  unfold do_send_ipm. rewrite (proj2 (Z.ltb_lt _ _)) by done. rewrite (proj1 Hb), (proj2 (Z.eqb_eq i c)) by apply Hb. simpl. rewrite u8_id by lia. run. finish Hs Hl.
  eapply (neutral _ k [SendLoop x (i + 1) k0]); [exact Hs|exact Hl| |weigh_awake|sides Hk..].
  - pose proof (targets_skip x i Hi Hb) as Et. weigh; rewrite Et; lia.
  - intros g ->%list_elem_of_singleton. split; [done|lia].
Qed.

Lemma send_loop_end hint x i k0 : send_end ncpus x <= i -> keeps hint (SendLoop x i k0).
Proof using All.
  intros Hi. start Hs Hf Hsi Hk Hl. destruct Hf as [Hok Hif]. unfold do_send_ipm. rewrite (proj2 (Z.ltb_ge _ _)) by done. run. finish Hs Hl.
  eapply (neutral _ k [SendIpi x k0]); [exact Hs|exact Hl| |weigh_awake|sides Hk..].
  pose proof (targets_nil x i Hi) as Et. weigh; rewrite Et; unfold sends, cnt; simpl; lia.
Qed.

Lemma send_enqueue hint x i m k0 : keeps hint (SendEnqueue x i m k0).
Proof using All.
  start Hs Hf Hsi Hk Hl. destruct Hf as (Hok & Hif & Hnb). destruct (send_end_le _ _ Hok) as (He & H0 & He2).
  assert (Hi : 0 <= i < ncpus /\ reaches x c i).
  { unfold reaches, send_end, send_start in *. destruct Hok as (_ & Hto & _). destruct (is_broadcast x); [split; [lia|]; intros ->; tauto|].
    specialize (He2 eq_refl). destruct Hto as [|Hto]; [done|]. lia. }
  destruct Hi as [Hi Hre]. top_weight (occ m) Hs Hle.
  pose proof (i_message _ _ HI m) as Hm. unfold message_ok in Hm. destruct (messages s !! m) as [msg|] eqn:Em; [|lia].
  unfold do_send_ipm, enqueue_message. rewrite bool_decide_true by done.
  eapply wpx_bind_ok; [unfold bind, rd_message; simpl; by rewrite Em|]. simpl. set (q := if decide _ then _ else _). clear Hl.
  pose proof (local_refl c (put_queues (upd (message_queue s) i q) s)) as Hl. rewrite u8_id by lia. run. finish Hs Hl.
  pose proof (lo_rest _ _ _ _ Hl) as Hr.
  eapply (Inv_move ncpus s _ c (SendEnqueue x i m k0) k [SendLoop x (i + 1) k0]);
    [done|done|exact Hs|apply Hl|exact Hi|by rewrite Hr|by rewrite Hr|by rewrite Hr|by rewrite Hr|by rewrite Hr|by rewrite Hr|by rewrite Hr|by rewrite Hr|by rewrite Hr|..].
  - intros w Hw. assert (Hq : sumz (fun a => wm w i a (messages s !! a)) q = sumz (fun a => wm w i a (messages s !! a)) (message_queue s i) + wm w i m (messages s !! m)).
    { subst q. case_decide; simpl; [lia|]. rewrite sumz_app. simpl. lia. }
    rewrite Hq. destruct Hw as [w Hw|]; [destruct Hw as [| |w Hw]; [| |destruct Hw]|]; unfold wf; simpl; lia.
  - intros e. unfold wf. simpl. lia.
  - unfold wf. simpl. rewrite (ind_yes (reaches x c i)) by done. bound_inds. lia.
  - exact Hk.
  - by intros [=].
  - intros g ->%list_elem_of_singleton. split; [by rewrite Hr|lia].
  - intros g ->%list_elem_of_singleton. by split.
Qed.

(** As [neutral], for a step that raises interrupts. *)
Lemma neutral_ipi f k fs b p P s1 :
  stack (threads s c) = f :: k -> local c (put_ipi P s) (mk_thread (fs ++ k) b p) s1 ->
  (forall w, counted ncpus w -> sumz (wf w (messages s) c) fs = wf w (messages s) c f) ->
  (forall d, 0 <= d < ncpus -> P d = true \/ (P d = ipi s d /\ wf (awake d) (messages s) c f <= sumz (wf (awake d) (messages s) c) fs)) ->
  HandlerEntry ∉ tail (fs ++ k) -> (head (fs ++ k) = Some HandlerEntry -> b = false) ->
  (forall g, g ∈ fs -> frame_ok ncpus s c g) -> (forall g, g ∈ fs -> since_ok ncpus s c g) -> Inv ncpus s1.
Proof using All.
  intros Hs Hl Hw Ha H1 H2 H3 H4. pose proof (lo_rest _ _ _ _ Hl) as Hr.
  assert (Ht : forall w, total w s1 = total w s + (sumz (wf w (messages s) c) fs - wf w (messages s) c f)).
  { intros w. apply (total_goto ncpus s s1 c f k fs b p); [done|exact HI|exact Hs|apply Hl|by rewrite Hr|by rewrite Hr]. }
  eapply (Inv_neutral ncpus s s1 c f k fs b p);
    [done|exact HI|exact Hs|apply Hl|by rewrite Hr|by rewrite Hr|by rewrite Hr|by rewrite Hr|by rewrite Hr|by rewrite Hr|by rewrite Hr|by rewrite Hr|done| |done|done|..].
  - intros d Hd Hq Hi. rewrite Ht. rewrite (f_equal ipi Hr : ipi s1 = P). destruct (Ha d Hd) as [->|[-> Hle]]; [by left|]. destruct Hi; [by left|right; lia].
  - intros g Hg. rewrite Hr. apply (H3 g Hg).
  - intros g Hg. destruct (H4 g Hg) as [H5 H6]. split; [by rewrite Hr|]. intros y Hy. rewrite Ht, Hw by repeat constructor. rewrite Hr. simpl.
    destruct (H6 y Hy); [by left|right; lia].
Qed.

Lemma send_ipi hint x k0 : keeps hint (SendIpi x k0).
Proof using All.
  start Hs Hf Hsi Hk Hl. simpl in Hf. pose proof Hf as (_ & Hto & _ & Hk0). unfold do_send_ipm. clear Hl.
  assert (Hlap : exists P, lapic_send_ipi ncpus c (to_cpu x) s = Ok (tt, put_ipi P s) /\
    forall d, P d = true \/ (P d = ipi s d /\ ~ reaches x c d)).
  { unfold lapic_send_ipi, reaches, is_broadcast in *. destruct (Z.ltb_spec (to_cpu x) ncpus) as [Hlt|Hge].
    - eexists. split; [done|]. intros d. rewrite (proj2 (Z.eqb_neq _ _)) by (unfold IPI_BROADCAST; lia). unfold upd. case_decide; [by left|right]. split; [done|]. congruence.
    - destruct Hto as [->|Hto]; [|lia]. eexists. split; [done|]. intros d. simpl. case_decide; [right; split; [done|tauto]|by left]. }
  destruct Hlap as (P & Hrun & HP). eapply wpx_bind_ok; [exact Hrun|]. pose proof (local_refl c (put_ipi P s)) as Hl.
  assert (Haw : forall fs, (forall d, 0 <= sumz (wf (awake d) (messages s) c) fs) -> forall d, 0 <= d < ncpus ->
    P d = true \/ (P d = ipi s d /\ wf (awake d) (messages s) c (SendIpi x k0) <= sumz (wf (awake d) (messages s) c) fs)).
  { intros fs Hfs d Hd. destruct (HP d) as [|[E Hnr]]; [by left|right]. split; [done|]. specialize (Hfs d). unfold wf at 1. simpl.
    rewrite (ind_no (reaches x c d)) by done. rewrite ind_no by (intros [_ [=]]). lia. }
  unfold finish_send. destruct k0 as [|n ds]; run; finish Hs Hl.
  - eapply (neutral_ipi _ k []); [exact Hs|exact Hl|weigh|by apply Haw|by apply entry_below|by intros ?%entry_below|..]; by intros ? ?%elem_of_nil.
  - eapply (neutral_ipi _ k [CallWait (s_data x) n ds]); [exact Hs|exact Hl|weigh| |exact Hk|by intros [=]|..].
    + apply Haw. intros d. unfold wf. simpl. bound_inds. lia.
    + intros g ->%list_elem_of_singleton. simpl in Hk0 |- *. tauto.
    + intros g ->%list_elem_of_singleton. by split.
Qed.

(** A new message that the activation on top holds. *)
Lemma new_message_total f k g b p m msg s1 w :
  stack (threads s c) = f :: k -> messages s !! m = None ->
  local c (put_messages (<[m := msg]> (messages s)) s) (mk_thread (g :: k) b p) s1 -> (forall x i m' k0, f <> SendEnqueue x i m' k0) -> (forall m', f <> ProcessCopy m') ->
  total w s1 = total w s + (wf w (<[m := msg]> (messages s)) c g - wo w c f).
Proof using All.
  intros Hs Hm Hl Hf1 Hf2. pose proof (lo_rest _ _ _ _ Hl) as Hr. set (sA := put_messages (<[m := msg]> (messages s)) s).
  assert (HA : total w sA = total w s).
  { apply total_messages. intros x Hx. rewrite lookup_insert_ne; [done|]. intros ->. pose proof (i_message _ _ HI x) as Hx'.
    unfold message_ok in Hx'. rewrite Hm in Hx'. lia. }
  rewrite (total_change ncpus w sA s1 c c); [|done|done|by rewrite Hr| |by rewrite Hr].
  - rewrite HA, (lo_threads _ _ _ _ Hl), (f_equal message_queue Hr : message_queue s1 = message_queue s). unfold upd. rewrite decide_True by done.
    change (threads sA) with (threads s). rewrite Hs. simpl. unfold wf at 3. destruct f; simpl; try lia; [by destruct (Hf1 x i message k0)|by destruct (Hf2 first)].
  - intros e He. rewrite (lo_threads _ _ _ _ Hl). unfold upd. by rewrite decide_False.
Qed.

(** The weights a step that creates or frees a message does not change. *)
Inductive kept : weight -> Prop :=
| e_basic w : basic ncpus w -> kept w
| e_needs x : kept (needs x)
| e_in_flight id d : kept (in_flight ncpus id d).

(** A step that creates or frees a message. *)
Lemma messages_step f k fs b p M s1 :
  stack (threads s c) = f :: k -> local c (put_messages M s) (mk_thread (fs ++ k) b p) s1 ->
  (forall w, kept w -> total w s1 = total w s) ->
  (forall x, message_ok ncpus s1 x) -> (forall d, total (awake d) s <= total (awake d) s1) ->
  (forall x m, messages s !! x = Some m -> receiver_dealloc m = false -> M !! x = Some m) ->
  HandlerEntry ∉ tail (fs ++ k) -> (head (fs ++ k) = Some HandlerEntry -> b = false) ->
  (forall g, g ∈ fs -> frame_ok ncpus s c g /\ shooting g = None) -> (forall g, g ∈ fs -> since_ok ncpus s c g) -> Inv ncpus s1.
Proof using All.
  intros Hs Hl Ht Hm Ha Hst H1 H2 H3 H4. pose proof (lo_rest _ _ _ _ Hl) as Hr.
  pose proof (lo_threads _ _ _ _ Hl : forall e, threads s1 e = upd (threads s) c (mk_thread (fs ++ k) b p) e) as Hth.
  assert (Hb : forall w, basic ncpus w -> total w s1 = total w s) by (intros w Hw; apply Ht; by constructor).
  eapply (Inv_parts ncpus s s1); eauto; try (by rewrite Hr).
  - intros x. apply Ht, e_needs.
  - intros id d. rewrite Ht by apply e_in_flight. rewrite Hr. apply HI.
  - rewrite Hr. apply HI.
  - intros d Hd Hq. rewrite Hr in Hq. specialize (Ha d). destruct (i_awake _ _ HI d Hd Hq); [left; by rewrite Hr|right; lia].
  - intros e g y v He Hg Hy. destruct (old_or_new ncpus s s1 c f k fs b p Hc HI Hs Hth e g Hg) as [[-> Hin]|Hold].
    + destruct (H3 g Hin) as [_ E]. congruence.
    + pose proof (i_frame _ _ HI e g He Hold) as Hfo. assert (shoot_ok ncpus s y) as (_ & m & E & _ & _ & Ed) by (destruct g; try done; injection Hy as <- <-; apply Hfo).
      rewrite (f_equal messages Hr : messages s1 = M), E. by apply Hst.
  - intros g Hg. destruct (H3 g Hg) as [Hfo Hno]. rewrite Hr. by destruct g.
  - intros g Hg. destruct (H4 g Hg) as [H5 H6]. split; [by rewrite Hr|]. intros y Hy. rewrite Hb by constructor. rewrite Hr. by apply H6.
Qed.

Lemma kmalloc_run hint s0 : kmalloc hint s0 = Ok (NULL, s0) \/ (kmalloc hint s0 = Ok (hint, s0) /\ messages s0 !! hint = None /\ calls s0 !! hint = None /\ counters s0 !! hint = None).
Proof. unfold kmalloc, gets. case_bool_decide; [right|by left]. tauto. Qed.

Lemma ind_iff P Q `{Decision P} `{Decision Q} : (P <-> Q) -> ind P = ind Q.
Proof. intros E. unfold ind. repeat case_decide; tauto. Qed.

Lemma send_loop_alloc hint x i k0 : i < send_end ncpus x -> ~ (is_broadcast x = true /\ i = c) -> keeps hint (SendLoop x i k0).
Proof using All.
  intros Hi Hb. start Hs Hf Hsi Hk Hl. destruct Hf as [Hok Hif]. destruct (send_end_le _ _ Hok) as (He & H0 & _). clear Hl.
  unfold do_send_ipm. rewrite (proj2 (Z.ltb_lt _ _)) by done. replace (is_broadcast x && (i =? c)) with false.
  2:{ symmetry. apply andb_false_iff. destruct (is_broadcast x); [right|by left]. apply Z.eqb_neq. tauto. }
  apply wpx_bind. unfold alloc_message. apply wpx_bind. unfold wpx at 1.
  destruct (kmalloc_run hint s) as [->|(-> & Hm & _ & _)]; [left; done|].
  destruct (Z.eqb_spec hint NULL) as [->|_]; [left; done|]. eapply wpx_bind_ok; [done|]. apply wpx_ret. simpl.
  set (msg := mk_message _ _ _ _ _ _). pose proof (local_refl c (put_messages (<[hint := msg]> (messages s)) s)) as Hl. run. finish Hs Hl.
  pose proof (fun w => new_message_total _ k (SendEnqueue x i hint k0) _ _ hint msg _ w Hs Hm Hl ltac:(done) ltac:(done)) as Ht.
  pose proof (lo_rest _ _ _ _ Hl) as Hr. pose proof (targets_cons x i Hi Hb) as Et. destruct Hok as (Htag & Hto & Hnum & Hk0).
  assert (Em1 : messages s1 = <[hint := msg]> (messages s)) by by rewrite Hr.
  assert (E1 : forall y, ind (is_call y msg) = ind (s_tag x = REMOTE_CALL /\ s_data x = y)) by (intros y; by apply ind_iff).
  assert (E2 : forall y, ind (is_tlb y msg) = 0) by (intros y; apply ind_no; intros [E _]; done).
  assert (E3 : forall y, ind (is_send y msg) = ind (s_number x = y)) by (intros y; apply ind_iff; unfold is_send; simpl; tauto).
  assert (Hz : forall w, kept w -> total w s1 = total w s).
  { intros w Hw. destruct Hw as [w Hw| |]; [destruct Hw| |]; rewrite Ht; unfold wf; simpl; rewrite ?lookup_insert_eq; simpl;
      rewrite ?E1, ?E2, ?E3, ?Et; unfold sends, cnt; simpl; try lia. }
  eapply (messages_step _ k [SendEnqueue x i hint k0]); [exact Hs|exact Hl|exact Hz| | | |exact Hk|by intros [=]|..].
  - intros y. pose proof (i_message _ _ HI y) as Hy. destruct (decide (y = hint)) as [->|Hne].
    + unfold message_ok in *. rewrite Hm in Hy. rewrite (Hz (shoot_messages hint)) by repeat constructor. rewrite Ht.
      rewrite Em1, lookup_insert_eq. unfold wf. simpl. rewrite ind_yes by done. split_and!; [lia|lia|done].
    + apply (message_same ncpus s); [|done]. unfold same_messages. rewrite (Hz (shoot_messages y)) by repeat constructor. rewrite Ht.
      rewrite Em1, lookup_insert_ne by done. unfold wf. simpl. rewrite ind_no by congruence. split_and!; [done|lia|done].
  - intros d. rewrite Ht. unfold wf. simpl. lia.
  - intros y m Hy _. rewrite lookup_insert_ne; [done|]. congruence.
  - intros g ->%list_elem_of_singleton. simpl. split; [|done]. split; [|split; [lia|done]]. done.
  - intros g ->%list_elem_of_singleton. by split.
Qed.

(** *** Receiving *)

Lemma process_take hint first q : message_queue s c = first :: q -> keeps hint Process.
Proof using All.
  intros Hq. start Hs Hf Hsi Hk Hl. unfold process_messages. eapply wpx_bind_ok; [done|]. simpl. rewrite Hq. eapply wpx_bind_ok; [done|]. simpl. clear Hl.
  pose proof (local_refl c (put_queues (upd (message_queue s) c q) s)) as Hl. run. finish Hs Hl. pose proof (lo_rest _ _ _ _ Hl) as Hr.
  eapply (Inv_move ncpus s s1 c Process k [ProcessCopy first] _ _ Hc HI Hs (lo_threads _ _ _ _ Hl) c q Hc); try (by rewrite Hr).
  - intros w Hw. rewrite Hq. destruct Hw as [w Hw|]; [destruct Hw as [| |w Hw]; [| |destruct Hw]|]; unfold wf; simpl; lia.
  - intros e. unfold wf. simpl. rewrite (ind_iff (c = e /\ true = true) (c = e)) by tauto. lia.
  - unfold wf. simpl. rewrite ind_yes by done. lia.
  - exact Hk.
  - by intros [=].
  - by intros g ->%list_elem_of_singleton.
  - intros g ->%list_elem_of_singleton. by split.
Qed.

Lemma process_copy hint first : keeps hint (ProcessCopy first).
Proof using All.
  start Hs Hf Hsi Hk Hl. unfold process_messages. top_weight (occ first) Hs Hle.
  pose proof (i_message _ _ HI first) as Hm. unfold message_ok in Hm. destruct (messages s !! first) as [msg|] eqn:Em; [|lia].
  eapply wpx_bind_ok; [unfold rd_message; by rewrite Em|]. set (M := if receiver_dealloc msg then delete first (messages s) else messages s).
  eapply wpx_bind_ok with (a := tt) (s' := put_messages M s).
  { subst M. destruct (receiver_dealloc msg); simpl; [|by destruct s]. unfold kfree_message, bind, rd_message. rewrite Em. done. }
  clear Hl. pose proof (local_refl c (put_messages M s)) as Hl. run. finish Hs Hl. pose proof (lo_rest _ _ _ _ Hl) as Hr.
  set (sA := put_threads (threads s1) s).
  assert (HA : forall w, total w sA = total w s + (sumz (wf w (messages s) c) [ProcessDispatch msg] - wf w (messages s) c (ProcessCopy first))).
  { intros w. apply (total_goto ncpus s sA c _ k [ProcessDispatch msg] (IF_ (threads s c)) (preempt (threads s c))); try done. apply Hl. }
  assert (Ht : forall w, total w s1 = total w s + (wf w (messages s) c (ProcessDispatch msg) - wf w (messages s) c (ProcessCopy first))).
  { intros w. rewrite Hr. change (put_threads (threads s1) (put_messages M s)) with (put_messages M sA). rewrite total_messages; [rewrite HA; simpl; lia|].
    intros x. rewrite HA. unfold wf. simpl. subst M. destruct (receiver_dealloc msg); [|done]. destruct (decide (x = first)) as [->|Hne]; [|by rewrite lookup_delete_ne].
    rewrite ind_yes by done. lia. }
  assert (Hz : forall w, kept w -> total w s1 = total w s).
  { intros w Hw. destruct Hw as [w Hw| |]; [destruct Hw| |]; rewrite Ht; unfold wf; simpl; rewrite ?Em; simpl; lia. }
  eapply (messages_step _ k [ProcessDispatch msg]); [exact Hs|exact Hl|exact Hz| | | |exact Hk|by intros [=]|..].
  - assert (Em1 : messages s1 = M) by by rewrite Hr. intros y. pose proof (i_message _ _ HI y) as Hy. unfold message_ok in *.
    rewrite (Hz (shoot_messages y)) by repeat constructor. rewrite Ht, Em1. unfold wf. simpl.
    destruct (decide (y = first)) as [->|Hne]; [rewrite ind_yes by done|rewrite ind_no by congruence].
    + subst M. destruct (receiver_dealloc msg) eqn:Er; [rewrite lookup_delete_eq; lia|]. rewrite Em, Er. exact Hm.
    + assert (M !! y = messages s !! y) as -> by (subst M; destruct (receiver_dealloc msg); [by rewrite lookup_delete_ne|done]).
      destruct (messages s !! y) as [m|]; [destruct (receiver_dealloc m)|]; split_and!; try tauto; lia.
  - intros d. rewrite Ht. unfold wf. simpl. lia.
  - intros x m Hx Hd. subst M. destruct (receiver_dealloc msg) eqn:Er; [|done]. rewrite lookup_delete_ne; [done|]. intros ->. congruence.
  - by intros g ->%list_elem_of_singleton.
  - intros g ->%list_elem_of_singleton. by split.
Qed.

(** What a message counts, by its tag. *)
Lemma content msg :
  (forall x, ind (is_call x msg) = match tag msg with REMOTE_CALL => ind (data msg = x) | _ => 0 end) /\
  (forall x, ind (is_tlb x msg) = match tag msg with TLB_SHOOTDOWN => ind (data msg = x) | _ => 0 end) /\
  (forall id, ind (is_send id msg) = match tag msg with TLB_SHOOTDOWN => 0 | _ => ind (number msg = id) end).
Proof.
  split_and!; intros x; destruct (tag msg) eqn:E;
    first [apply ind_no; intros [? ?]; congruence|apply ind_iff; unfold is_call, is_tlb, is_send; rewrite E; split; [by intros [_ ?]|by intros ?]].
Qed.

Lemma process_dispatch hint msg : keeps hint (ProcessDispatch msg).
Proof using All.
  start Hs Hf Hsi Hk Hl. unfold process_messages. eapply wpx_bind_ok; [done|]. simpl. set (D := delivered s ++ _). clear Hl.
  pose proof (local_refl c (put_delivered D s)) as Hl.
  set (g := match tag msg with TEST_TAG => Process | REMOTE_CALL => HandleCheck (data msg) | TLB_SHOOTDOWN => TlbFlush (data msg) end).
  assert (Hrun : match tag msg with TEST_TAG => goto c Process | REMOTE_CALL => goto c (HandleCheck (data msg)) | TLB_SHOOTDOWN => goto c (TlbFlush (data msg)) end = goto c g)
    by (subst g; by destruct (tag msg)).
  rewrite Hrun. run. finish Hs Hl. pose proof (lo_rest _ _ _ _ Hl) as Hr.
  pose proof (lo_threads _ _ _ _ Hl : forall e, threads s1 e = upd (threads s) c (mk_thread ([g] ++ k) _ _) e) as Hth.
  assert (Ht : forall w, total w s1 = total w s + (sumz (wf w (messages s) c) [g] - wf w (messages s) c (ProcessDispatch msg))).
  { intros w. apply (total_goto ncpus s s1 c _ k [g] (IF_ (threads s c)) (preempt (threads s c))); try done; by rewrite Hr. }
  assert (Hg : forall d, frame_ok ncpus s d g /\ shooting g = None /\ requested g = None /\ handling g = true) by (intros d; subst g; by destruct (tag msg)).
  eapply (Inv_parts ncpus s s1 c _ k [g]); try done; try (by rewrite Hr).
  - intros w Hw. rewrite Ht. subst g. destruct (content msg) as (Ecl & Etl & _).
    destruct Hw; unfold wf; simpl; try rewrite Ecl; try rewrite Etl; destruct (tag msg); simpl; lia.
  - intros x. rewrite Ht. subst g. unfold wf. destruct (tag msg); simpl; lia.
  - intros x. apply (message_same ncpus s); [|apply HI]. unfold same_messages. rewrite !Ht. rewrite (f_equal messages Hr : messages s1 = messages s).
    subst g. unfold wf. destruct (tag msg); simpl; split_and!; lia || done.
  - intros id d. pose proof (i_flight _ _ HI id d) as Hfl. rewrite Ht. rewrite (f_equal delivered Hr : delivered s1 = D), (f_equal issued Hr : issued s1 = issued s), Hfl.
    destruct (content msg) as (_ & _ & Esd). subst D g. unfold cnt, wf. rewrite sumz_app. simpl. rewrite Esd. destruct (tag msg); simpl; try lia.
    all: rewrite (ind_iff ((number msg, c) = (id, d)) (c = d /\ number msg = id)) by naive_solver; unfold ind; repeat case_decide; try tauto; lia.
  - rewrite Hr. apply HI.
  - intros d Hd Hq. rewrite Hr in Hq. rewrite Ht. destruct (i_awake _ _ HI d Hd Hq); [left; by rewrite Hr|right]. unfold wf. simpl.
    destruct (Hg d) as (_ & _ & _ & ->). subst g. destruct (tag msg); simpl; lia.
  - intros [= E]. subst g. by destruct (tag msg).
  - intros g' ->%list_elem_of_singleton. rewrite Hr. apply Hg.
  - intros g' ->%list_elem_of_singleton. destruct (Hg c) as (_ & E1 & E2 & _). split; rewrite ?E1, ?E2; done.
Qed.

(** *** TLB shootdowns *)

(** The weights that do not concern shootdowns. *)
Inductive unshot : weight -> Prop :=
| u_refs x : unshot (refs ncpus x)
| u_owners x : unshot (owners x)
| u_needs x : unshot (needs x)
| u_dests x d : unshot (dests_at x d)
| u_frees x : unshot (frees x)
| u_incs x : unshot (incs x)
| u_asyncs x : unshot (asyncs x)
| u_syncs x : unshot (syncs x)
| u_callfrees x : unshot (callfrees x)
| u_pending x d : unshot (pending_at ncpus x d)
| u_in_flight id d : unshot (in_flight ncpus id d).

(** A step that changes only what concerns shootdowns. *)
Lemma shoot_step f k fs b p s1 :
  stack (threads s c) = f :: k -> (forall e, threads s1 e = upd (threads s) c (mk_thread (fs ++ k) b p) e) ->
  calls s1 = calls s -> issued s1 = issued s -> delivered s1 = delivered s -> next_number s1 = next_number s ->
  (forall w, unshot w -> total w s1 = total w s) ->
  (forall x, message_ok ncpus s1 x) -> (forall x, counter_ok ncpus s1 x) ->
  (forall x d, total (requests_at x d) s1 <= total (shoots_at x d) s1) ->
  (forall d, 0 <= d < ncpus -> message_queue s1 d <> [] -> ipi s1 d = true \/ 1 <= total (awake d) s1) ->
  (forall d, tlb s d <= tlb s1 d) ->
  (forall e g y, 0 <= e < ncpus -> g ∈ stack (threads s e) -> g ∈ stack (threads s1 e) -> requested g = Some y ->
    total (requests_at (wait y) (target y)) s <= total (requests_at (wait y) (target y)) s1 \/ since y (target y) < tlb s1 (target y)) ->
  (forall e g y b, 0 <= e < ncpus -> g ∈ stack (threads s e) -> g ∈ stack (threads s1 e) -> shooting g = Some (y, b) ->
    messages s1 !! tlb_message y = messages s !! tlb_message y) ->
  HandlerEntry ∉ tail (fs ++ k) -> (head (fs ++ k) = Some HandlerEntry -> b = false) ->
  (forall g, g ∈ fs -> frame_ok ncpus s1 c g) -> (forall g, g ∈ fs -> since_ok ncpus s1 c g) -> Inv ncpus s1.
Proof using All.
  intros Hs Hth Ec Ei Ed En Ht Hm Hk Hat Haw Htl Hrq Hms H1 H2 H3 H4. split; try done.
  - intros x. apply (call_same ncpus s); [|apply HI]. unfold same_calls. rewrite Ec, !Ht by constructor.
    split_and!; try done; intros d; by rewrite Ht by constructor.
  - intros id d. rewrite Ei, Ed, Ht by constructor. apply HI.
  - rewrite Ei, En. apply HI.
  - eapply (stacks_step ncpus s s1); eauto.
  - eapply (frames_step ncpus s s1); eauto. lia.
  - eapply (since_step ncpus s s1); eauto.
Qed.

Ltac weigh_unshot Ht := intros w Hw; destruct Hw; rewrite Ht; unfold wf; simpl; try lia.

Lemma tlb_flush hint a : keeps hint (TlbFlush a).
Proof using All.
  start Hs Hf Hsi Hk Hl. unfold process_messages. eapply wpx_bind_ok; [done|]. clear Hl.
  pose proof (local_refl c (put_flushes (upd (tlb s) c (tlb s c + 1)) s)) as Hl. run. finish Hs Hl. pose proof (lo_rest _ _ _ _ Hl) as Hr.
  pose proof (lo_threads _ _ _ _ Hl : forall e, threads s1 e = upd (threads s) c (mk_thread ([TlbAck a] ++ k) _ _) e) as Hth.
  assert (Ht : forall w, total w s1 = total w s + (sumz (wf w (messages s) c) [TlbAck a] - wf w (messages s) c (TlbFlush a))).
  { intros w. apply (total_goto ncpus s s1 c _ k [TlbAck a] (IF_ (threads s c)) (preempt (threads s c))); try done; by rewrite Hr. }
  assert (Em : messages s1 = messages s) by by rewrite Hr. assert (Et : tlb s1 = upd (tlb s) c (tlb s c + 1)) by by rewrite Hr.
  assert (Hup : forall d, tlb s d <= tlb s1 d) by (intros d; rewrite Et; unfold upd; case_decide; subst; lia).
  eapply (shoot_step _ k [TlbAck a]); [exact Hs|exact Hth|by rewrite Hr|by rewrite Hr|by rewrite Hr|by rewrite Hr|weigh_unshot Ht|..].
  - intros x. apply (message_same ncpus s); [|apply HI]. unfold same_messages. rewrite Em, !Ht. unfold wf. simpl. split_and!; [done|lia|lia].
  - intros x. apply (counter_same ncpus s); [|apply HI]. unfold same_counters. rewrite !Ht, (f_equal counters Hr : counters s1 = counters s). unfold wf. simpl. split_and!; [done|lia..].
  - intros x d. pose proof (i_at _ _ HI x d). rewrite !Ht. unfold wf. simpl. bound_inds. nia.
  - intros d Hd Hq. rewrite Hr in Hq. rewrite Ht. destruct (i_awake _ _ HI d Hd Hq); [left; by rewrite Hr|right]. unfold wf. simpl. lia.
  - exact Hup.
  - intros e g y He Hg _ Hy. rewrite Ht. unfold wf. simpl. destruct (decide (target y = c)) as [E|E].
    + right. destruct (i_since _ _ HI e g He Hg) as [H1 _]. rewrite Et, E. unfold upd. rewrite decide_True by done.
      assert (Hsh : exists b, shooting g = Some (y, b)) by (destruct g; try done; injection Hy as ->; by eexists).
      destruct Hsh as [b Hb]. destruct (H1 y b Hb) as [H2 _]. specialize (H2 c). lia.
    + left. rewrite (ind_no (c = target y)) by congruence. lia.
  - intros e g y v _ _ _ _. by rewrite Em.
  - exact Hk.
  - by intros [=].
  - by intros g ->%list_elem_of_singleton.
  - intros g ->%list_elem_of_singleton. by split.
Qed.

(** A step that changes the activation on top and neither messages nor queues. *)
Lemma moved_total f k fs b p s0 s1 :
  stack (threads s c) = f :: k -> local c s0 (mk_thread (fs ++ k) b p) s1 ->
  threads s0 = threads s -> messages s0 = messages s -> message_queue s0 = message_queue s ->
  (forall e, threads s1 e = upd (threads s) c (mk_thread (fs ++ k) b p) e) /\
  (forall w, total w s1 = total w s + (sumz (wf w (messages s) c) fs - wf w (messages s) c f)).
Proof using All.
  intros Hs Hl E1 E2 E3. pose proof (lo_rest _ _ _ _ Hl) as Hr.
  assert (Hth : forall e, threads s1 e = upd (threads s) c (mk_thread (fs ++ k) b p) e) by (intros e; by rewrite (lo_threads _ _ _ _ Hl), E1).
  split; [done|]. intros w. apply (total_goto ncpus s s1 c f k fs b p); try done; by rewrite Hr.
Qed.

(** The only activation that uses a counter is the one on top. *)
Lemma only_shoot w f k y v :
  stack (threads s c) = f :: k -> shooting f = Some (y, v) ->
  (forall d a m, wm w d a m = 0) -> (forall e g, wo (shoot_counters (wait y)) e g = 0 -> wo w e g = 0) ->
  (exists n, counters s !! wait y = Some n) /\ total (shoot_counters (wait y)) s = 1 /\ total w s = wo w c f.
Proof using All.
  intros Hs Hf Hwm Hwo. top_weight (shoot_counters (wait y)) Hs Hle. rewrite Hf, ind_yes in Hle by done.
  assert (Hno : match f with SendEnqueue _ _ _ _ | ProcessCopy _ => False | _ => True end) by by destruct f.
  pose proof (i_counter _ _ HI (wait y)) as Hx. unfold counter_ok in Hx.
  destruct (counters s !! wait y) as [n|]; [|destruct f; try done; lia]. destruct Hx as (H1 & _). split; [by eexists|]. split; [done|].
  set (s2 := put_threads (upd (threads s) c (mk_thread k true 0)) s).
  assert (Ht : forall w, total w s2 = total w s + (0 - wf w (messages s) c f)) by (intros w'; by apply (total_goto ncpus s s2 c f k [] true 0)).
  assert (Hz : total w s2 = 0).
  { apply (total_zero ncpus (shoot_counters (wait y))); [apply (natural_nonneg ncpus); repeat constructor|auto|done|].
    rewrite Ht, H1. unfold wf. simpl. rewrite Hf, ind_yes by done. by destruct f. }
  rewrite Ht in Hz. unfold wf in Hz. destruct f; try done; lia.
Qed.

Lemma only_set f k y v : stack (threads s c) = f :: k -> shooting f = Some (y, v) -> total (counters_set (wait y)) s = if v then 1 else 0.
Proof using All.
  intros Hs Hf. destruct (only_shoot (counters_set (wait y)) f k y v Hs Hf) as (_ & _ & ->); [done| |simpl; rewrite Hf; destruct v; [by apply ind_yes|done]].
  intros e g. simpl. destruct (shooting g) as [[z []]|]; done.
Qed.

Lemma requests_at_le x d : total (requests_at x d) s <= total (requests x) s.
Proof.
  apply total_le; [intros e a _|intros e g _; unfold wf; destruct g]; simpl; unfold of_message; repeat case_match; bound_inds; nia.
Qed.

Lemma tlb_ack hint a : keeps hint (TlbAck a).
Proof using All.
  start Hs Hf Hsi Hk Hl. unfold process_messages, atomic_dec, atomic_read. top_weight (requests a) Hs Hle.
  pose proof (i_counter _ _ HI a) as Ha. unfold counter_ok in Ha. destruct (counters s !! a) as [v|] eqn:Ev; [|lia]. destruct Ha as (H1 & H2 & H3 & H4).
  assert (Hset : total (counters_set a) s = 1).
  { assert (0 <= total (counters_set a) s <= total (shoot_counters a) s); [|lia]. split; [apply total_ge_0, (natural_nonneg ncpus); repeat constructor|].
    apply total_le; [done|]. intros e g _. unfold wf. destruct g; simpl; bound_inds; lia. }
  rewrite (H4 Hset) in Ev. eapply wpx_bind_ok; [unfold bind; rewrite Ev; done|]. simpl. rewrite s32_id by lia. clear Hl.
  pose proof (local_refl c (put_counters (<[a := total (requests a) s - 1]> (counters s)) s)) as Hl. run. finish Hs Hl. pose proof (lo_rest _ _ _ _ Hl) as Hr.
  destruct (moved_total _ k [Process] _ _ _ s1 Hs Hl eq_refl eq_refl eq_refl) as [Hth Ht].
  assert (Em : messages s1 = messages s) by by rewrite Hr. assert (Ek : counters s1 = <[a := total (requests a) s - 1]> (counters s)) by by rewrite Hr.
  eapply (shoot_step _ k [Process]); [exact Hs|exact Hth|by rewrite Hr|by rewrite Hr|by rewrite Hr|by rewrite Hr|weigh_unshot Ht|..].
  - intros x. apply (message_same ncpus s); [|apply HI]. unfold same_messages. rewrite Em, !Ht. unfold wf. simpl. split_and!; [done|lia|lia].
  - intros x. destruct (decide (x = a)) as [->|Hx].
    + unfold counter_ok. rewrite !Ht, Ek, lookup_insert_eq. unfold wf. simpl. rewrite ind_yes by done. split_and!; lia.
    + apply (counter_same ncpus s); [|apply HI]. unfold same_counters. rewrite !Ht, Ek, lookup_insert_ne by done. unfold wf. simpl. no_ind. split_and!; [done|lia..].
  - intros x d. rewrite !Ht. unfold wf. simpl. pose proof (i_at _ _ HI x d). lia.
  - intros d Hd Hq. rewrite Hr in Hq. rewrite Ht. destruct (i_awake _ _ HI d Hd Hq); [left; by rewrite Hr|right]. unfold wf. simpl. lia.
  - intros d. by rewrite Hr.
  - intros e g y He Hg _ Hy. left. rewrite Ht. unfold wf. simpl. lia.
  - intros e g y z _ _ _ _. by rewrite Em.
  - exact Hk.
  - by intros [=].
  - by intros g ->%list_elem_of_singleton.
  - intros g ->%list_elem_of_singleton. by split.
Qed.

(** The condition on the new activation of a shootdown, when the old one had it. *)
Ltac shot Hf Hsi := let g := fresh "g" in intros g ->%list_elem_of_singleton; first [exact Hsi|exact Hf].

Lemma shoot_next hint y : target y < ncpus -> keeps hint (ShootNext y).
Proof using All.
  intros Hlt. start Hs Hf Hsi Hk Hl. unfold tlb_shootdown. rewrite (proj2 (Z.ltb_lt _ _)) by done. pose proof Hf as [Htg Hm].
  destruct (Z.eqb_spec (target y) c) as [E|E]; run; finish Hs Hl.
  - eapply (neutral _ k [ShootNext (next_target y)]); [exact Hs|exact Hl|weigh|weigh_awake|exact Hk|by intros [=]|..]; intros g ->%list_elem_of_singleton.
    + split; [simpl; rewrite u8_id by lia; lia|exact Hm].
    + destruct Hsi as [Hsi _]. split; [|by intros ? [=]]. intros z b [= <- <-]. destruct (Hsi y false eq_refl) as [H1 H2]. split; [exact H1|].
      simpl. rewrite u8_id by lia. intros d Hd Hne. apply H2; [lia|done].
  - eapply (neutral _ k [ShootInit y]); [exact Hs|exact Hl|weigh|weigh_awake|exact Hk|by intros [=]|..].
    + intros g ->%list_elem_of_singleton. done.
    + shot Hf Hsi.
Qed.

Lemma shoot_init hint y : keeps hint (ShootInit y).
Proof using All.
  start Hs Hf Hsi Hk Hl. unfold tlb_shootdown, atomic_init, atomic_read.
  pose proof (only_set _ _ y false Hs eq_refl : _ = 0) as Hset. pose proof (i_counter _ _ HI (wait y)) as Ha. unfold counter_ok in Ha.
  top_weight (shoot_counters (wait y)) Hs Hle.
  destruct (counters s !! wait y) as [v|] eqn:Ev; [|lia]. destruct Ha as (H1 & H2 & H3 & H4). specialize (H3 Hset).
  eapply wpx_bind_ok; [unfold bind; rewrite Ev; done|]. simpl. clear Hl.
  pose proof (local_refl c (put_counters (<[wait y := 1]> (counters s)) s)) as Hl. run. finish Hs Hl. pose proof (lo_rest _ _ _ _ Hl) as Hr.
  destruct (moved_total _ k [ShootEnqueue y] _ _ _ s1 Hs Hl eq_refl eq_refl eq_refl) as [Hth Ht].
  assert (Em : messages s1 = messages s) by by rewrite Hr. assert (Ek : counters s1 = <[wait y := 1]> (counters s)) by by rewrite Hr.
  eapply (shoot_step _ k [ShootEnqueue y]); [exact Hs|exact Hth|by rewrite Hr|by rewrite Hr|by rewrite Hr|by rewrite Hr|weigh_unshot Ht|..].
  - intros x. apply (message_same ncpus s); [|apply HI]. unfold same_messages. rewrite Em, !Ht. unfold wf. simpl. split_and!; [done|lia|lia].
  - intros x. destruct (decide (x = wait y)) as [->|Hx].
    + unfold counter_ok. rewrite !Ht, Ek, lookup_insert_eq. unfold wf. simpl. rewrite ind_yes by done. split_and!; lia.
    + apply (counter_same ncpus s); [|apply HI]. unfold same_counters. rewrite !Ht, Ek, lookup_insert_ne by done. unfold wf. simpl. no_ind. split_and!; [done|lia..].
  - intros x d. rewrite !Ht. unfold wf. simpl. pose proof (i_at _ _ HI x d). lia.
  - intros d Hd Hq. rewrite Hr in Hq. rewrite Ht. destruct (i_awake _ _ HI d Hd Hq); [left; by rewrite Hr|right]. unfold wf. simpl. lia.
  - intros d. by rewrite Hr.
  - intros e g z He Hg _ Hy. left. rewrite Ht. unfold wf. simpl. lia.
  - intros e g z b _ _ _ _. by rewrite Em.
  - exact Hk.
  - by intros [=].
  - intros g ->%list_elem_of_singleton. rewrite Hr. exact Hf.
  - intros g ->%list_elem_of_singleton. destruct Hsi as [Hsi _]. split; [|by intros ? [=]]. rewrite Hr. intros z b [= <- <-]. exact (Hsi y false eq_refl).
Qed.

Lemma shoot_ipi hint y : keeps hint (ShootIpi y).
Proof using All.
  start Hs Hf Hsi Hk Hl. pose proof Hf as (_ & Htg & _). unfold tlb_shootdown, lapic_send_ipi. rewrite (proj2 (Z.ltb_lt _ _)) by done.
  eapply wpx_bind_ok; [done|]. clear Hl. pose proof (local_refl c (put_ipi (upd (ipi s) (target y) true) s)) as Hl. run. finish Hs Hl.
  eapply (neutral_ipi _ k [ShootEnable y]); [exact Hs|exact Hl|weigh| |exact Hk|by intros [=]|shot Hf Hsi..].
  intros d Hd. unfold upd. case_decide as E; [by left|right]. split; [done|]. unfold wf. simpl. rewrite (ind_no (target y = d)) by congruence. lia.
Qed.

Lemma shoot_enable hint y : keeps hint (ShootEnable y).
Proof using All.
  start Hs Hf Hsi Hk Hl. unfold tlb_shootdown. run. finish Hs Hl.
  eapply (neutral _ k [ShootWait y (IF_ (threads s c))]); [exact Hs|exact Hl|weigh|weigh_awake|exact Hk|by intros [=]|shot Hf Hsi..].
Qed.

Lemma shoot_wait hint y irqs : keeps hint (ShootWait y irqs).
Proof using All.
  start Hs Hf Hsi Hk Hl. pose proof Hf as ((_ & Hm) & Htg & Hne). unfold tlb_shootdown, atomic_read.
  pose proof (only_set _ _ y true Hs eq_refl : _ = 1) as Hset. pose proof (i_counter _ _ HI (wait y)) as Ha. unfold counter_ok in Ha.
  top_weight (shoot_counters (wait y)) Hs Hle.
  destruct (counters s !! wait y) as [v|] eqn:Ev; [|lia]. destruct Ha as (H1 & H2 & H3 & H4). specialize (H4 Hset).
  eapply wpx_bind_ok; [by rewrite Ev|]. destruct (Z.eqb_spec v 0) as [->|_]; [|by apply wpx_ret]. run. finish Hs Hl.
  pose proof (lo_rest _ _ _ _ Hl) as Hr. destruct (moved_total _ k [ShootNext (next_target y)] _ _ _ s1 Hs Hl eq_refl eq_refl eq_refl) as [Hth Ht].
  pose proof (requests_at_le (wait y)) as Hra. assert (Em : messages s1 = messages s) by by rewrite Hr. destruct Hf as ((Htr & _) & _).
  eapply (shoot_step _ k [ShootNext (next_target y)]); [exact Hs|exact Hth|by rewrite Hr|by rewrite Hr|by rewrite Hr|by rewrite Hr|weigh_unshot Ht|..].
  - intros x. apply (message_same ncpus s); [|apply HI]. unfold same_messages. rewrite Em, !Ht. unfold wf. simpl. split_and!; [done|lia|lia].
  - assert (Ek : counters s1 = counters s) by by rewrite Hr. intros x. destruct (decide (x = wait y)) as [->|Hx].
    + unfold counter_ok. rewrite !Ht, Ek, Ev. unfold wf. simpl. rewrite ind_yes by done. split_and!; lia.
    + apply (counter_same ncpus s); [|apply HI]. unfold same_counters. rewrite !Ht, Ek. unfold wf. simpl. no_ind. split_and!; [done|lia..].
  - intros x d. destruct (decide (x = wait y)) as [->|Hx].
    + transitivity 0; [|apply total_ge_0, (natural_nonneg ncpus); repeat constructor]. rewrite Ht. specialize (Hra d). unfold wf. simpl. lia.
    + rewrite !Ht. unfold wf. simpl. rewrite ind_no by naive_solver. pose proof (i_at _ _ HI x d). lia.
  - intros d Hd Hq. rewrite Hr in Hq. rewrite Ht. destruct (i_awake _ _ HI d Hd Hq); [left; by rewrite Hr|right]. unfold wf. simpl. lia.
  - intros d. by rewrite Hr.
  - intros e g z He Hg _ Hy. left. rewrite Ht. unfold wf. simpl. lia.
  - intros e g z b _ _ _ _. by rewrite Em.
  - exact Hk.
  - by intros [=].
  - intros g ->%list_elem_of_singleton. split; [simpl; rewrite u8_id by lia; lia|]. by rewrite Em.
  - intros g ->%list_elem_of_singleton. destruct Hsi as [Hs1 Hs2]. split; [|by intros ? [=]]. intros z b [= <- <-]. destruct (Hs1 y true eq_refl) as [H5 H6].
    rewrite Hr. split; [exact H5|]. simpl. rewrite u8_id by lia. intros d Hd Hdc. destruct (decide (d = target y)) as [->|Hdt]; [|apply H6; [lia|done]].
    specialize (Hra (target y)). destruct (Hs2 y eq_refl); [done|lia].
Qed.

Lemma shoot_enqueue hint y : keeps hint (ShootEnqueue y).
Proof using All.
  start Hs Hf Hsi Hk Hl. pose proof Hf as ((Htr & m & Em & Etag & Edat & Erd) & Htg & Hne). unfold tlb_shootdown, enqueue_message.
  rewrite bool_decide_true by lia. eapply wpx_bind_ok; [unfold bind, rd_message; simpl; by rewrite Em|]. simpl. rewrite decide_True by done. clear Hl.
  set (q := tlb_message y :: message_queue s (target y)).
  pose proof (local_refl c (put_queues (upd (message_queue s) (target y) q) s)) as Hl. run. finish Hs Hl. pose proof (lo_rest _ _ _ _ Hl) as Hr.
  pose proof (lo_threads _ _ _ _ Hl : forall e, threads s1 e = upd (threads s) c (mk_thread ([ShootIpi y] ++ k) _ _) e) as Hth.
  assert (Ht : forall w, total w s1 = total w s + (wf w (messages s) c (ShootIpi y) - wf w (messages s) c (ShootEnqueue y)) + wm w (target y) (tlb_message y) (Some m)).
  { intros w. rewrite (total_queue ncpus s s1 c _ k [ShootIpi y] _ _ Hc HI Hs Hth w (target y) q); [|lia|by rewrite Hr|by rewrite Hr]. subst q. simpl. rewrite Em. lia. }
  assert (E1 : forall x, ind (is_call x m) = 0) by (intros x; apply ind_no; intros [? _]; congruence).
  assert (E2 : forall x, ind (is_tlb x m) = ind (wait y = x)) by (intros x; apply ind_iff; unfold is_tlb; rewrite Edat; tauto).
  assert (E3 : forall x, ind (is_send x m) = 0) by (intros x; apply ind_no; intros [? _]; congruence).
  assert (Em1 : messages s1 = messages s) by by rewrite Hr.
  assert (Hup : forall x d, total (requests_at x d) s1 = total (requests_at x d) s + ind (wait y = x /\ target y = d)).
  { intros x d. rewrite Ht. unfold wf. simpl. rewrite E2. indicators. }
  eapply (shoot_step _ k [ShootIpi y]); [exact Hs|exact Hth|by rewrite Hr|by rewrite Hr|by rewrite Hr|by rewrite Hr| |..].
  - intros w Hw. rewrite Ht. destruct Hw; unfold wf; simpl; rewrite ?E1, ?E3; lia.
  - intros x. pose proof (i_message _ _ HI x) as Hx. unfold message_ok in *. rewrite Em1, !Ht. unfold wf. simpl. destruct (decide (x = tlb_message y)) as [->|Hx'].
    + rewrite Em, Erd in *. split; [lia|tauto].
    + rewrite !(ind_no (tlb_message y = x)) by congruence. destruct (messages s !! x) as [m'|]; [destruct (receiver_dealloc m')|]; split_and!; try tauto; lia.
  - intros x. apply (counter_same ncpus s); [|apply HI]. unfold same_counters. rewrite !Ht, (f_equal counters Hr : counters s1 = counters s). unfold wf. simpl. rewrite E2. split_and!; [done|lia..].
  - intros x d. rewrite Hup, Ht. unfold wf. simpl. pose proof (i_at _ _ HI x d). lia.
  - intros d Hd Hq. rewrite Ht. unfold wf. simpl. destruct (decide (d = target y)) as [->|Hdt].
    + right. rewrite (ind_yes (target y = target y)) by done. assert (0 <= total (awake (target y)) s); [|bound_inds; lia]. apply total_ge_0, awake_nonneg.
    + rewrite Hr in Hq. simpl in Hq. unfold upd in Hq. rewrite decide_False in Hq by done. destruct (i_awake _ _ HI d Hd Hq); [left; by rewrite Hr|right; bound_inds; lia].
  - intros d. by rewrite Hr.
  - intros e g z He Hg _ Hy. left. rewrite Hup. bound_inds. lia.
  - intros e g z b _ _ _ _. by rewrite Em1.
  - exact Hk.
  - by intros [=].
  - intros g ->%list_elem_of_singleton. rewrite Hr. exact Hf.
  - intros g ->%list_elem_of_singleton. destruct Hsi as [Hsi _]. split; [rewrite Hr; intros z b [= <- <-]; exact (Hsi y true eq_refl)|].
    intros z [= <-]. right. rewrite Hup, ind_yes by done. assert (0 <= total (requests_at (wait y) (target y)) s); [|lia].
    apply total_ge_0, (natural_nonneg ncpus); repeat constructor.
Qed.

(** A message whose counter has no requests is held nowhere. *)
Lemma unheld y m : messages s !! tlb_message y = Some m -> is_tlb (wait y) m -> total (requests (wait y)) s = 0 -> total (occ (tlb_message y)) s = 0.
Proof.
  intros Em Hm H3. assert (0 <= total (occ (tlb_message y)) s) by (apply total_ge_0, (natural_nonneg ncpus); repeat constructor).
  assert (total (occ (tlb_message y)) s <= total (requests (wait y)) s); [|lia]. assert (Hq : ind (is_tlb (wait y) m) = 1) by by apply ind_yes.
  assert (Hle : forall d a, wm (occ (tlb_message y)) d a (messages s !! a) <= wm (requests (wait y)) d a (messages s !! a)).
  { intros d a. simpl. destruct (decide (a = tlb_message y)) as [->|Hne]; [rewrite Em; simpl; rewrite Hq; bound_inds; lia|].
    rewrite ind_no by done. destruct (messages s !! a); simpl; bound_inds; lia. }
  apply total_le; [intros; apply Hle|]. intros e g _. unfold wf. destruct g; try (simpl; bound_inds; lia); [specialize (Hle i message)|specialize (Hle e first)]; simpl in *; lia.
Qed.

Lemma shoot_end hint y : ncpus <= target y -> keeps hint (ShootNext y).
Proof using All.
  intros Hge. start Hs Hf Hsi Hk Hl. unfold tlb_shootdown. rewrite (proj2 (Z.ltb_ge _ _)) by done. pose proof Hf as (_ & m & Em & Etag & Edat & Erd).
  pose proof (only_set _ _ y false Hs eq_refl : _ = 0) as Hset. destruct (only_shoot (counters_set (wait y)) _ _ y false Hs eq_refl) as ((v & Ev) & H1 & _); [done| |].
  { intros e g. simpl. destruct (shooting g) as [[z []]|]; done. }
  pose proof (i_counter _ _ HI (wait y)) as Ha. unfold counter_ok in Ha. rewrite Ev in Ha. destruct Ha as (_ & _ & H3 & _). specialize (H3 Hset).
  pose proof (i_message _ _ HI (tlb_message y)) as Hmy. unfold message_ok in Hmy. rewrite Em, Erd in Hmy. destruct Hmy as [Hmy _].
  pose proof (unheld y m Em (conj Etag Edat) H3) as Hocc.
  eapply wpx_bind_ok; [done|]. simpl. set (sB := put_messages _ _). clear Hl. pose proof (local_refl c sB) as Hl. run. finish Hs Hl. pose proof (lo_rest _ _ _ _ Hl) as Hr.
  pose proof (lo_threads _ _ _ _ Hl : forall e, threads s1 e = upd (threads s) c (mk_thread ([] ++ k) _ _) e) as Hth.
  assert (Ht : forall w, total w s1 = total w s - wf w (messages s) c (ShootNext y)).
  { set (sA := put_threads (threads s1) s). assert (HA : forall w, total w sA = total w s + (0 - wf w (messages s) c (ShootNext y))).
    { intros w. by apply (total_goto ncpus s sA c _ k [] (IF_ (threads s c)) (preempt (threads s c))). }
    intros w. transitivity (total w (put_messages (messages s1) sA)); [by rewrite Hr|]. rewrite total_messages; [rewrite HA; lia|].
    intros x Hx. rewrite HA in Hx. unfold wf in Hx. simpl in Hx. rewrite Hr. simpl. rewrite lookup_delete_ne; [done|]. intros <-. lia. }
  assert (Em1 : messages s1 = delete (tlb_message y) (messages s)) by by rewrite Hr. assert (Ek : counters s1 = delete (wait y) (counters s)) by by rewrite Hr.
  eapply (shoot_step _ k []); [exact Hs|exact Hth|by rewrite Hr|by rewrite Hr|by rewrite Hr|by rewrite Hr|weigh_unshot Ht|..].
  - intros x. destruct (decide (x = tlb_message y)) as [->|Hx].
    + unfold message_ok. rewrite Em1, lookup_delete_eq, !Ht. unfold wf. simpl. rewrite ind_yes by done. lia.
    + apply (message_same ncpus s); [|apply HI]. unfold same_messages. rewrite Em1, lookup_delete_ne, !Ht by done. unfold wf. simpl. no_ind. split_and!; [done|lia..].
  - intros x. destruct (decide (x = wait y)) as [->|Hx].
    + unfold counter_ok. rewrite Ek, lookup_delete_eq, !Ht. unfold wf. simpl. rewrite ind_yes by done. lia.
    + apply (counter_same ncpus s); [|apply HI]. unfold same_counters. rewrite Ek, lookup_delete_ne, !Ht by done. unfold wf. simpl. no_ind. split_and!; [done|lia..].
  - intros x d. rewrite !Ht. unfold wf. simpl. pose proof (i_at _ _ HI x d). lia.
  - intros d Hd Hq. rewrite Hr in Hq. rewrite Ht. destruct (i_awake _ _ HI d Hd Hq); [left; by rewrite Hr|right]. unfold wf. simpl. rewrite ind_no by (intros [_ [=]]). lia.
  - intros d. by rewrite Hr.
  - intros e g z He Hg _ Hy. left. rewrite Ht. unfold wf. simpl. lia.
  - intros e g z b He _ Hg Hz. rewrite Em1, lookup_delete_ne; [done|]. intros E.
    pose proof (total_frame_le ncpus (shoot_messages (tlb_message y)) s1 e g ltac:(apply (natural_nonneg ncpus); repeat constructor) He Hg) as Hle.
    rewrite Ht, Hmy in Hle. unfold wf in Hle. simpl in Hle. rewrite Hz, !ind_yes in Hle by done. by destruct g.
  - by apply entry_below.
  - by intros ?%entry_below.
  - by intros ? ?%elem_of_nil.
  - by intros ? ?%elem_of_nil.
Qed.

(** *** What other code does *)

Definition keeps_kernel (ch : choice) : Prop :=
  forall k, stack (threads s c) = Kernel :: k -> wpx no_memory (run_kernel ncpus c ch) (fun _ => Inv ncpus) s.

Ltac start_kernel Hs Hk Hl :=
  intros k Hs; destruct (top_ok _ _ Hs) as (_ & _ & Hk); pose proof (local_refl c s) as Hl; unfold run_kernel.

Lemma set_flag b : keeps_kernel (SetFlag b).
Proof using All.
  start_kernel Hs Hk Hl. run. finish Hs Hl. eapply (neutral _ k [Kernel]); [exact Hs|exact Hl|weigh|weigh_awake|sides Hk..].
Qed.

Lemma return_kernel : keeps_kernel ReturnKernel.
Proof using All.
  start_kernel Hs Hk Hl. eapply wpx_bind_ok; [done|]. unfold when. destruct (negb _); [|by apply wpx_ret]. run. finish Hs Hl.
  eapply (neutral _ k []); [exact Hs|exact Hl|weigh|weigh_awake|by apply entry_below|by intros ?%entry_below|..]; by intros ? ?%elem_of_nil.
Qed.

Lemma take_ipi f k : stack (threads s c) = f :: k -> wpx no_memory (interrupt c) (fun _ => Inv ncpus) s.
Proof using All.
  intros Hs. destruct (top_ok _ _ Hs) as (Hf & Hsi & Hk). pose proof (local_refl c s) as Hl. unfold interrupt. run. unfold when, gets. unfold wpx at 1.
  destruct (IF_ (threads s c)) eqn:Hif; [|by apply wpx_ret]. destruct (ipi s c); [|by apply wpx_ret]. simpl.
  assert (Hne : f <> HandlerEntry). { intros ->. pose proof (proj2 (i_stack _ _ HI c)) as H. rewrite Hs, Hif in H. by specialize (H eq_refl). }
  eapply wpx_bind_ok; [done|]. clear Hl. pose proof (local_refl c (put_ipi (upd (ipi s) c false) s)) as Hl. run. finish Hs Hl. pose proof (lo_rest _ _ _ _ Hl) as Hr.
  destruct (moved_total _ k [HandlerEntry; f] _ _ _ s1 Hs Hl eq_refl eq_refl eq_refl) as [Hth Ht].
  assert (Hw : forall w, counted ncpus w -> sumz (wf w (messages s) c) [HandlerEntry; f] = wf w (messages s) c f) by weigh.
  eapply (Inv_neutral ncpus s s1 c f k [HandlerEntry; f]); try done; try (by rewrite Hr).
  - intros d Hd Hq Hi. rewrite Ht. simpl. destruct (decide (d = c)) as [->|Hdc].
    + right. pose proof (total_ge_0 ncpus (awake c) s (awake_nonneg c)). unfold wf at 1. simpl. rewrite ind_yes by done. lia.
    + rewrite Hr. simpl. unfold upd. rewrite decide_False by done. destruct Hi; [by left|right]. unfold wf at 1. simpl. bound_inds. lia.
  - simpl. set_solver.
  - intros g [->|Hg]%elem_of_cons; [done|]. apply list_elem_of_singleton in Hg as ->. rewrite Hr. destruct f; done.
  - intros g [->|Hg]%elem_of_cons; [by split|]. apply list_elem_of_singleton in Hg as ->. destruct Hsi as [H1 H2]. split; [by rewrite Hr|].
    intros y Hy. rewrite Ht, Hw by repeat constructor. rewrite Hr. destruct (H2 y Hy); [by left|right; lia].
Qed.

Lemma cnt_pair (n id d : Z) l : cnt (id, d) (map (pair n) l) = ind (n = id) * cnt d l.
Proof.
  unfold cnt. induction l as [|e l IH]; simpl; [lia|]. rewrite IH. rewrite (ind_iff ((n, e) = (id, d)) (n = id /\ e = d)) by naive_solver. indicators.
Qed.

Lemma NoDup_targets x i : NoDup (send_targets ncpus c x i).
Proof. apply NoDup_filter, NoDup_zrange. Qed.

Lemma NoDup_issue l : NoDup l -> NoDup (issued s ++ map (pair (next_number s)) l).
Proof using HI.
  intros Hl. destruct (i_issued _ _ HI) as [H1 H2]. apply NoDup_app. split; [done|]. split.
  - intros q Hq (e & <- & _)%list_elem_of_In%in_map_iff. specialize (H2 _ Hq). simpl in H2. lia.
  - apply NoDup_ListNoDup, Finite.Injective_map_NoDup; [by intros ? ? [=]|by apply NoDup_ListNoDup].
Qed.

(** A send starts; [k0] is what its caller does next. *)
Lemma issue_step k b p x k0 C s1 :
  stack (threads s c) = Kernel :: k -> s_number x = next_number s -> s_tag x <> TLB_SHOOTDOWN -> is_broadcast x = true \/ 0 <= to_cpu x < ncpus ->
  match k0 with Return => True | Await n ds => s_tag x = REMOTE_CALL /\ n = Z.of_nat (length ds) /\ n <= 255 /\ call_dests ncpus c ds end ->
  local c (put_issued (next_number s + 1) (issued s ++ map (pair (s_number x)) (send_targets ncpus c x (send_start x))) (put_calls C s))
    (mk_thread ([SendLoop x (send_start x) k0; Kernel] ++ k) b p) s1 ->
  (forall a, call_ok ncpus s1 a) -> Inv ncpus s1.
Proof using All.
  intros Hs Hnum Htag Hto Hk0 Hl Hcall. destruct (top_ok _ _ Hs) as (_ & _ & Hk). pose proof (lo_rest _ _ _ _ Hl) as Hr.
  destruct (moved_total _ k [SendLoop x (send_start x) k0; Kernel] _ _ _ s1 Hs Hl eq_refl eq_refl eq_refl) as [Hth Ht].
  assert (Hok : send_ok ncpus s1 c x k0). { unfold send_ok. rewrite (f_equal next_number Hr : next_number s1 = next_number s + 1). split_and!; try done. lia. }
  split; try done.
  - intros y. apply (message_same ncpus s); [|apply HI]. unfold same_messages. rewrite !Ht, (f_equal messages Hr : messages s1 = messages s). unfold wf. simpl. split_and!; [done|lia..].
  - intros y. apply (counter_same ncpus s); [|apply HI]. unfold same_counters. rewrite !Ht, (f_equal counters Hr : counters s1 = counters s). unfold wf. simpl. split_and!; [done|lia..].
  - intros y d. rewrite !Ht. unfold wf. simpl. pose proof (i_at _ _ HI y d). lia.
  - intros id d. pose proof (i_flight _ _ HI id d) as Hfl. pose proof (cnt_pair (s_number x) id d (send_targets ncpus c x (send_start x))) as Hp.
    rewrite Ht, Hr. unfold wf. simpl. rewrite cnt_app. lia.
  - rewrite Hr, Hnum. simpl. split; [apply NoDup_issue, NoDup_targets|]. intros q [Hq|Hq]%elem_of_app; [apply (i_issued _ _ HI) in Hq; lia|].
    apply list_elem_of_In, in_map_iff in Hq as (e & <- & _). simpl. lia.
  - intros d Hd Hq. rewrite Hr in Hq. rewrite Ht. destruct (i_awake _ _ HI d Hd Hq); [left; by rewrite Hr|right]. unfold wf. simpl. bound_inds. lia.
  - eapply (stacks_step ncpus s s1); eauto; [|by intros [=]]. simpl. set_solver.
  - eapply (frames_step ncpus s s1); eauto; [by rewrite Hr|rewrite Hr; simpl; lia|]. intros g [->|[->|Hg]%elem_of_cons]%elem_of_cons; [|done|by apply elem_of_nil in Hg].
    split; [done|]. unfold send_start. destruct Hto as [Hb|Hb]; [rewrite Hb|destruct (is_broadcast x)]; lia.
  - eapply (since_step ncpus s s1); eauto; [by rewrite Hr| |].
    + intros e g y _ _ _ _. left. rewrite Ht. unfold wf. simpl. lia.
    + intros g [->|[->|Hg]%elem_of_cons]%elem_of_cons; [by split..|by apply elem_of_nil in Hg].
Qed.

Lemma start_test cpu d n : is_broadcast (mk_send cpu TEST_TAG d n (next_number s)) = true \/ 0 <= cpu < ncpus ->
  forall k, stack (threads s c) = Kernel :: k -> wpx no_memory (start_send ncpus c cpu TEST_TAG d n (fun _ => Return)) (fun _ => Inv ncpus) s.
Proof using All.
  intros Hto k Hs. unfold start_send. eapply wpx_bind_ok; [done|]. cbn zeta. eapply wpx_bind_ok; [done|]. set (x := mk_send _ _ _ _ _).
  replace s with (put_calls (calls s) s) at 2 by by destruct s. set (sB := put_issued _ _ _).
  pose proof (local_refl c sB) as Hl. run. finish Hs Hl. pose proof (lo_rest _ _ _ _ Hl) as Hr.
  destruct (moved_total _ k [SendLoop x (send_start x) Return; Kernel] _ _ _ s1 Hs Hl eq_refl eq_refl eq_refl) as [Hth Ht].
  eapply (issue_step k _ _ x Return (calls s)); [exact Hs|done|done|exact Hto|done|exact Hl|].
  intros a. apply (call_same ncpus s); [|apply HI]. unfold same_calls. split; [by rewrite Hr|].
  split_and!; try (intros ?); rewrite Ht; unfold wf; simpl; unfold sends; rewrite ?(ind_no (TEST_TAG = REMOTE_CALL /\ d = a)) by (intros [[=] _]); lia.
Qed.

(** The weights of the call at [x]. *)
Inductive calling (x : Z) : weight -> Prop :=
| l_refs : calling x (refs ncpus x)
| l_owners : calling x (owners x)
| l_needs : calling x (needs x)
| l_dests d : calling x (dests_at x d)
| l_frees : calling x (frees x)
| l_incs : calling x (incs x)
| l_asyncs : calling x (asyncs x)
| l_syncs : calling x (syncs x)
| l_callfrees : calling x (callfrees x)
| l_pending d : calling x (pending_at ncpus x d).

(** Nothing refers to a call that does not exist. *)
Lemma no_call x w : calls s !! x = None -> calling x w -> total w s = 0.
Proof using HI.
  intros Hx Hw. pose proof (i_call _ _ HI x) as H. unfold call_ok in H. rewrite Hx in H. destruct H as (H1 & H2 & H3 & H4).
  assert (Hnn : forall w, basic ncpus w -> nonneg w) by (intros ? Hb; apply (natural_nonneg ncpus); by constructor).
  assert (N1 := Hnn _ (k_refs _ x)). assert (N2 := Hnn _ (k_owners _ x)). assert (N3 := Hnn _ (k_frees _ x)). assert (N4 := Hnn _ (k_incs _ x)).
  set (u := plus (plus (refs ncpus x) (owners x)) (plus (frees x) (incs x))).
  assert (Hu : nonneg u) by (by repeat apply plus_nonneg).
  assert (Hpart : forall e g, wo u e g = 0 -> wo (refs ncpus x) e g = 0 /\ wo (owners x) e g = 0 /\ wo (frees x) e g = 0 /\ wo (incs x) e g = 0).
  { intros e g. pose proof (proj2 N1 e g). pose proof (proj2 N2 e g). pose proof (proj2 N3 e g). pose proof (proj2 N4 e g). unfold u, plus. cbn [wo]. lia. }
  apply (total_zero ncpus u); [done| | |subst u; rewrite !total_plus; lia].
  - intros e a m Hm. simpl in Hm. destruct Hw; simpl; lia.
  - intros e g Hg. apply Hpart in Hg as (G1 & G2 & G3 & G4). destruct Hw; try done.
    all: destruct g; simpl in *; try done; try (destruct k; simpl in *; try done); try (destruct h; simpl in *; try done); try lia; try nia.
    all: unfold sends in *; apply Z.mul_eq_0 in G1 as [E|E]; [rewrite E; lia|].
    all: destruct (send_targets _ _ _ _); [unfold cnt; simpl; lia|done].
Qed.

Lemma targets_one x : is_broadcast x = false -> 0 <= to_cpu x < ncpus -> send_targets ncpus c x (send_start x) = [to_cpu x].
Proof using Hn.
  intros Hb Ht. unfold send_targets, send_start, send_end. rewrite Hb, u8_id by lia. rewrite range_cons, range_nil by lia.
  by rewrite filter_cons_True by (intros [[=] _]).
Qed.

Lemma filter_id (P : Z -> Prop) `{!forall x, Decision (P x)} (l : list Z) : (forall x, x ∈ l -> P x) -> filter P l = l.
Proof. induction l as [|x l IH]; intros Hx; [done|]. rewrite filter_cons_True by (apply Hx; left). f_equal. apply IH. intros y Hy. apply Hx. by right. Qed.

Lemma targets_all x : is_broadcast x = true -> Z.of_nat (length (send_targets ncpus c x (send_start x))) = ncpus - 1.
Proof using Hn Hc.
  intros Hb. unfold send_targets, send_start, send_end. rewrite Hb.
  rewrite (range_app 0 c ncpus), (range_cons c) by lia. rewrite filter_app, filter_cons_False by tauto.
  rewrite !filter_id; [unfold range; rewrite length_app, !length_zrange; lia|..]; intros j Hj%elem_of_range [_ ?]; lia.
Qed.

Lemma targets_dests x : is_broadcast x = true \/ 0 <= to_cpu x < ncpus -> call_dests ncpus c (send_targets ncpus c x (send_start x)).
Proof using Hn Hc.
  intros Hto. destruct (is_broadcast x) eqn:Hb.
  - right. unfold send_targets, send_start, send_end. rewrite Hb. apply list_filter_iff. intros d. tauto.
  - left. destruct Hto as [|Hto]; [done|]. exists (to_cpu x). split; [done|by apply targets_one].
Qed.

(** A remote call starts: [n] cpus execute it. *)
Lemma start_call hint cpu f a n (wt : bool) k :
  stack (threads s c) = Kernel :: k -> (cpu =? IPI_BROADCAST) = true \/ 0 <= cpu < ncpus -> 0 <= n <= 255 -> (n = 0 -> ncpus = 1) ->
  (forall d m, let x := mk_send cpu REMOTE_CALL d SIZEOF_REM_DATA m in Z.of_nat (length (send_targets ncpus c x (send_start x))) = n) ->
  wpx no_memory (do rem_data <- new_call hint f a (n + if wt then 1 else 0) wt;
                 start_send ncpus c cpu REMOTE_CALL rem_data SIZEOF_REM_DATA (if wt then Await n else fun _ => Return)) (fun _ => Inv ncpus) s.
Proof using All.
  intros Hs Hto Hnn Hn1 Hlen. apply wpx_bind. unfold new_call. apply wpx_bind. unfold wpx at 1.
  destruct (kmalloc_run hint s) as [->|(-> & _ & Hx & _)]; [right; done|]. destruct (Z.eqb_spec hint NULL) as [->|_]; [right; done|].
  eapply wpx_bind_ok; [done|]. apply wpx_ret. unfold start_send. eapply wpx_bind_ok; [done|]. cbn zeta. eapply wpx_bind_ok; [done|].
  set (r := mk_call _ _ _ _ _ _). set (x := mk_send _ _ _ _ _). set (k0 := (if wt then Await n else fun _ => Return) _). set (sB := put_issued _ _ _).
  specialize (Hlen hint (next_number s)). change (Z.of_nat (length (send_targets ncpus c x (send_start x))) = n) in Hlen.
  pose proof (local_refl c sB) as Hl. run. finish Hs Hl. pose proof (lo_rest _ _ _ _ Hl) as Hr.
  destruct (moved_total _ k [SendLoop x (send_start x) k0; Kernel] _ _ _ s1 Hs Hl eq_refl eq_refl eq_refl) as [Hth Ht].
  eapply (issue_step k _ _ x k0 (<[hint := r]> (calls s))); [exact Hs|done|done|exact Hto| |exact Hl|].
  { subst k0. destruct wt; [|done]. simpl. split_and!; [done|by rewrite Hlen|lia|exact (targets_dests x Hto)]. }
  assert (Esd : forall y v, sends y x v = ind (hint = y) * v) by (intros y v; unfold sends; f_equal; apply ind_iff; simpl; tauto).
  assert (Hz := fun w => no_call hint w Hx).
  intros y. destruct (decide (y = hint)) as [->|Hne].
  - assert (Ec : calls s1 !! hint = Some r) by (rewrite Hr; apply lookup_insert_eq). unfold call_ok. rewrite Ec, !Ht, !Hz by constructor.
    unfold wf. simpl. rewrite Esd, Hlen, ind_yes by done. subst k0 r. destruct wt; simpl; rewrite ?ind_yes by done; split_and!; try lia.
    intros d. rewrite !Ht, !Hz by constructor. unfold wf. simpl. rewrite Esd, ind_yes by done. change (cnt d []) with 0. lia.
  - apply (call_same ncpus s); [|apply HI]. unfold same_calls. split; [rewrite Hr; simpl; by rewrite lookup_insert_ne|].
    split_and!; try (intros ?); rewrite Ht; unfold wf; simpl; rewrite ?Esd; subst k0; destruct wt; simpl; rewrite ?(ind_no (hint = y)) by congruence; lia.
Qed.

Definition valid (ch : choice) : Prop :=
  match ch with Send cpu _ _ | ExecCall _ cpu _ _ _ => 0 <= cpu < ncpus | _ => True end.

Lemma start_shootdown amsg await junk : keeps_kernel (Shootdown amsg await junk).
Proof using All.
  start_kernel Hs Hk Hl. unfold exec_tlb_shootdown. unfold wpx. case_bool_decide as Hfree; [|done].
  destruct Hfree as (Hne & Hm & _ & _ & _ & _ & Hwt). match goal with |- match ?m ?sB with _ => _ end => change (wpx no_memory m (fun _ => Inv ncpus) sB); set (s0 := sB) end.
  set (msg := mk_message _ _ _ _ _ _) in s0. set (y := mk_shootdown amsg await 0 (tlb s)). clear Hl.
  pose proof (local_refl c s0) as Hl. run. finish Hs Hl. pose proof (lo_rest _ _ _ _ Hl) as Hr.
  pose proof (lo_threads _ _ _ _ Hl : forall e, threads s1 e = upd (threads s) c (mk_thread ([ShootNext y; Kernel] ++ k) _ _) e) as Hth.
  pose proof (i_message _ _ HI amsg) as Hma. unfold message_ok in Hma. rewrite Hm in Hma. pose proof (i_counter _ _ HI await) as Hka. unfold counter_ok in Hka. rewrite Hwt in Hka.
  assert (Ht : forall w, total w s1 = total w s + (sumz (wf w (messages s) c) [ShootNext y; Kernel] - wf w (messages s) c Kernel)).
  { set (sA := put_threads (threads s1) s). assert (HA : forall w, total w sA = total w s + (sumz (wf w (messages s) c) [ShootNext y; Kernel] - wf w (messages s) c Kernel)).
    { intros w. by apply (total_goto ncpus s sA c _ k [ShootNext y; Kernel] (IF_ (threads s c)) (preempt (threads s c))). }
    intros w. transitivity (total w (put_messages (messages s1) sA)); [by rewrite Hr|]. rewrite total_messages; [apply HA|].
    intros x Hx. rewrite HA in Hx. unfold wf in Hx. simpl in Hx. rewrite Hr. simpl. rewrite lookup_insert_ne; [done|]. intros <-. lia. }
  assert (Em1 : messages s1 = <[amsg := msg]> (messages s)) by by rewrite Hr. assert (Ek : counters s1 = <[await := junk]> (counters s)) by by rewrite Hr.
  assert (Hset : total (counters_set await) s = 0).
  { assert (0 <= total (counters_set await) s <= total (shoot_counters await) s); [|lia]. split; [apply total_ge_0, (natural_nonneg ncpus); repeat constructor|].
    apply total_le; [done|]. intros e g _. unfold wf. destruct g; simpl; bound_inds; lia. }
  eapply (shoot_step _ k [ShootNext y; Kernel]); [exact Hs|exact Hth|by rewrite Hr|by rewrite Hr|by rewrite Hr|by rewrite Hr|weigh_unshot Ht|..].
  - intros x. destruct (decide (x = amsg)) as [->|Hx].
    + unfold message_ok. rewrite Em1, lookup_insert_eq, !Ht. unfold wf. simpl. rewrite ind_yes by done. split; [lia|done].
    + apply (message_same ncpus s); [|apply HI]. unfold same_messages. rewrite Em1, lookup_insert_ne, !Ht by done. unfold wf. simpl. no_ind. split_and!; [done|lia..].
  - intros x. destruct (decide (x = await)) as [->|Hx].
    + unfold counter_ok. rewrite Ek, lookup_insert_eq, !Ht. unfold wf. simpl. rewrite ind_yes by done. split_and!; lia.
    + apply (counter_same ncpus s); [|apply HI]. unfold same_counters. rewrite Ek, lookup_insert_ne, !Ht by done. unfold wf. simpl. no_ind. split_and!; [done|lia..].
  - intros x d. rewrite !Ht. unfold wf. simpl. pose proof (i_at _ _ HI x d). lia.
  - intros d Hd Hq. rewrite Hr in Hq. rewrite Ht. destruct (i_awake _ _ HI d Hd Hq); [left; by rewrite Hr|right]. unfold wf. simpl. bound_inds. lia.
  - intros d. by rewrite Hr.
  - intros e g z He Hg _ Hy. left. rewrite Ht. unfold wf. simpl. lia.
  - intros e g z b He Hg _ Hz. rewrite Em1, lookup_insert_ne; [done|]. intros E.
    pose proof (total_frame_le ncpus (shoot_messages amsg) s e g ltac:(apply (natural_nonneg ncpus); repeat constructor) He Hg) as Hle.
    unfold wf in Hle. simpl in Hle. rewrite Hz, ind_yes in Hle by done. destruct g; try done; lia.
  - simpl. set_solver.
  - by intros [=].
  - intros g [->|[->|Hg]%elem_of_cons]%elem_of_cons; [|done|by apply elem_of_nil in Hg]. split; [simpl; lia|]. exists msg. rewrite Em1, lookup_insert_eq. done.
  - intros g [->|[->|Hg]%elem_of_cons]%elem_of_cons; [|by split|by apply elem_of_nil in Hg]. split; [|by intros ? [=]]. intros z b [= <- <-]. rewrite Hr. simpl. split; [done|lia].
Qed.

(** Every step of an activation, and every step of other code, keeps the
    invariant. *)
Lemma frame_step hint f : keeps hint f.
Proof using All.
  destruct f; try (by auto using send_enqueue, send_ipi, call_wait, call_free, shoot_init, shoot_enqueue, shoot_ipi, shoot_enable, shoot_wait, handler_entry, handler_exit,
    process_copy, process_dispatch, tlb_flush, tlb_ack, handle_check, handle_mode, handle_dec, handle_free, handle_return, handle_sync_dec, handle_sync_inc).
  - intros k _. by apply wpx_ret.
  - destruct (Z.lt_ge_cases i (send_end ncpus x)); [|by apply send_loop_end].
    destruct (decide (is_broadcast x = true /\ i = c)); [by apply send_loop_skip|by apply send_loop_alloc].
  - destruct (Z.lt_ge_cases (target x) ncpus); [by apply shoot_next|by apply shoot_end].
  - destruct (message_queue s c) as [|first q] eqn:Hq; [by apply process_empty|by apply (process_take hint first q)].
  - destruct h; [apply handle_call_copied|apply handle_call_original].
Qed.

Lemma kernel_step ch : valid ch -> keeps_kernel ch.
Proof using All.
  destruct ch; simpl; intros Hv; try (intros k Hs; by apply wpx_ret).
  - intros k Hs. apply (start_test cpu d n) with k; auto.
  - intros k Hs. apply (start_test IPI_BROADCAST d n) with k; auto.
  - intros k Hs. unfold run_kernel, exec_remote_call. replace (if wait then 2 else 1) with (1 + if wait then 1 else 0) by by destruct wait.
    apply (start_call hint cpu f a 1 wait k); [done|by right|lia|lia|]. intros d m x. by rewrite targets_one by (done || (apply Z.eqb_neq; simpl; unfold IPI_BROADCAST; lia)).
  - intros k Hs. unfold run_kernel, broadcast_remote_call. replace (ncpus - (if wait then 0 else 1)) with (ncpus - 1 + if wait then 1 else 0) by (destruct wait; lia).
    apply (start_call hint IPI_BROADCAST f a (ncpus - 1) wait k); [done|by left|lia|lia|]. intros d m x. by rewrite targets_all.
  - apply start_shootdown.
  - apply return_kernel.
  - apply set_flag.
Qed.

Lemma step_keeps ch : valid ch -> wpx no_memory (cpu_step ncpus c ch) (fun _ => Inv ncpus) s.
Proof using All.
  intros Hv. unfold cpu_step. eapply wpx_bind_ok; [done|]. destruct (stack (threads s c)) as [|f k] eqn:Hs; [by apply wpx_ret|].
  destruct ch; try (destruct f; try (by apply wpx_ret); by apply kernel_step with k); [by apply frame_step with k|by apply take_ipi with f k].
Qed.

End Steps.
