(* ===== verification/IpmProps.v ===== *)
(** * What inter-processor messages guarantee

    The states that the cpus reach from [init_ipm] by steps of any cpu in any
    order satisfy the invariant of [IpmSpec].  From it follow: no step accesses
    freed memory or fails an assertion; a call that was waited for was executed
    once by each of its destinations; a shootdown returns after every other TLB
    was flushed; every message is delivered once, and nothing leaks; no message
    waits without anybody to wake its receiver up; and the handler returns after
    it has processed what was in its queue. *)

From S2P Require Import Prelude Spinlock Ipm IpmSpec IpmSteps.

(** ** Boot *)

Lemma init_ipm_run ncpus : 0 <= ncpus ->
  exists b, init_ipm ncpus 0 zeroed = Ok (tt, b) /\ registered b = true /\ boot_if b = false /\
    (forall c, 0 <= c < ncpus -> unlocked (message_queue_lock b c) /\ boot_queue b c = Some []) /\ (forall c, default [] (boot_queue b c) = []).
Proof.
  intros Hn. set (I := fun i b => boot_if b = false /\ (forall c, i <= c -> message_queue_lock b c = mk_spinlock 0 false 0) /\
    (forall c, 0 <= c < i -> unlocked (message_queue_lock b c) /\ boot_queue b c = Some []) /\ (forall c, default [] (boot_queue b c) = [])).
  assert (H : wp (for_each (range 0 ncpus) (init_queue 0)) (fun _ => I ncpus) zeroed).
  { apply wp_for_range; [done|split_and!; [done|done|lia|done]|]. intros i b Hi (Hif & Hz & Hd & He).
    unfold init_queue. eapply wp_bind_ok with (a := tt); [unfold zoom; rewrite (Hz i) by lia; done|]. unfold wp. simpl.
    split_and!; [done|..]; simpl; intros c; unfold upd.
    - intros Hc. destruct (decide (c = i)); [lia|]. apply Hz. lia.
    - intros Hc. destruct (decide (c = i)); [done|]. apply Hd. lia.
    - destruct (decide (c = i)); [done|]. apply He. }
  apply wp_ok in H as ([] & b & Hr & H1 & _ & H2 & H3). unfold init_ipm, bind. rewrite Hr. eexists. split; [done|]. by split_and!.
Qed.

(** Only cpu 0 can run it: the owner of a lock that is zero is cpu 0. *)
Lemma init_ipm_other_cpu ncpus c : 1 <= ncpus -> c <> 0 -> init_ipm ncpus c zeroed = Halt (Panic "lock->owner == cpu_id()").
Proof.
  intros Hn Hc. unfold init_ipm. rewrite range_cons by lia. unfold bind. simpl. unfold init_queue, zoom, bind, spinlock_unlock, bind. simpl.
  destruct c; [done|done|done].
Qed.

Section Props.
Context (ncpus : Z).
Hypothesis Hn : 1 <= ncpus <= 255.

(** The states the cpus reach. *)
Inductive ipm_reachable : ipmst -> Prop :=
| r_start c b : init_ipm ncpus c zeroed = Ok (tt, b) -> ipm_reachable (started b)
| r_step c ch s s' : ipm_reachable s -> 0 <= c < ncpus -> valid ncpus ch -> cpu_step ncpus c ch s = Ok (tt, s') -> ipm_reachable s'.

(** Every activation is other code. *)
Definition idle (s : ipmst) : Prop :=
  forall c, 0 <= c < ncpus -> message_queue s c = [] /\ forall f, f ∈ stack (threads s c) -> f = Kernel.

Lemma sumz_zero {A} (f : A -> Z) l : (forall x, x ∈ l -> f x = 0) -> sumz f l = 0.
Proof.
  intros Hf. rewrite (sumz_ext f (fun _ => 0)) by done. clear. induction l; simpl; lia.
Qed.

Lemma idle_zero s w : idle s -> (forall c, wo w c Kernel = 0) -> total ncpus w s = 0.
Proof.
  intros Hi Hw. apply sumz_zero. intros c Hc%elem_of_range. destruct (Hi c Hc) as [Hq Hs]. unfold cpu_weight. rewrite Hq. simpl.
  apply sumz_zero. intros f Hf. rewrite (Hs f Hf). unfold wf. rewrite Hw. done.
Qed.

Lemma started_Inv c b : init_ipm ncpus c zeroed = Ok (tt, b) -> Inv ncpus (started b).
Proof using Hn.
  intros Hr. assert (Hc : c = 0) by (destruct (decide (c = 0)); [done|]; rewrite init_ipm_other_cpu in Hr by (done || lia); done). subst c.
  destruct (init_ipm_run ncpus) as (b' & Hr' & _ & _ & _ & Hq); [lia|]. rewrite Hr in Hr'. injection Hr' as <-.
  assert (Hi : idle (started b)) by (intros c _; split; [apply Hq|]; by intros f ->%list_elem_of_singleton).
  assert (Ht : forall w, (forall c, wo w c Kernel = 0) -> total ncpus w (started b) = 0) by (intros; by apply idle_zero).
  split; try done.
  - intros x. unfold message_ok. simpl. by rewrite !Ht.
  - intros x. unfold call_ok. simpl. by rewrite !Ht.
  - intros x. unfold counter_ok. simpl. by rewrite !Ht.
  - intros x d. by rewrite !Ht.
  - intros id d. by rewrite !Ht.
  - split; [constructor|]. by intros p ?%elem_of_nil.
  - intros d _ Hne. by destruct (Hne (Hq d)).
  - intros c. split; [apply not_elem_of_nil|by intros [=]].
  - by intros c f _ ->%list_elem_of_singleton.
  - intros c f _ ->%list_elem_of_singleton. by split.
Qed.

Lemma reachable_Inv s : ipm_reachable s -> Inv ncpus s.
Proof using Hn.
  induction 1 as [c b Hb|c ch s s' _ IH Hc Hv Hstep]; [by apply (started_Inv c)|].
  pose proof (step_keeps ncpus Hn c Hc s IH ch Hv) as H. unfold wpx in H. by rewrite Hstep in H.
Qed.

(** A weight that counts something counts an activation. *)
Lemma total_pos s w : (forall d a m, wm w d a m = 0) -> 1 <= total ncpus w s ->
  exists c f, 0 <= c < ncpus /\ f ∈ stack (threads s c) /\ wo w c f <> 0.
Proof.
  intros Hw Ht. destruct (decide (Exists (fun c => Exists (fun f => wo w c f <> 0) (stack (threads s c))) (range 0 ncpus))) as [He|He].
  - apply Exists_exists in He as (c & Hc%elem_of_range & He). apply Exists_exists in He as (f & Hf & Hne). by exists c, f.
  - assert (total ncpus w s = 0); [|lia]. apply sumz_zero. intros c Hc. unfold cpu_weight. rewrite !sumz_zero; [done| |].
    + intros f Hf. unfold wf. assert (wo w c f = 0) as ->; [|destruct f; rewrite ?Hw; done]. destruct (decide (wo w c f = 0)); [done|]. destruct He.
      apply Exists_exists. exists c. split; [done|]. apply Exists_exists. by exists f.
    + intros a _. apply Hw.
Qed.

(** ** Safety *)

(** C14: No step of any cpu, in any state the cpus reach, accesses a message, call
    or counter that was freed, fails an assertion or panics, but for the panics
    of a sender that gets no memory. *)
Theorem ipm_safe s c ch :
  ipm_reachable s -> 0 <= c < ncpus -> valid ncpus ch ->
  match cpu_step ncpus c ch s with
  | Ok (_, s') => ipm_reachable s'
  | Halt h => no_memory h
  end.
Proof using Hn.
  intros Hr Hc Hv. pose proof (step_keeps ncpus Hn c Hc s (reachable_Inv s Hr) ch Hv) as H. unfold wpx in H.
  destruct (cpu_step ncpus c ch s) as [[[] s']|h] eqn:E; [|done]. by apply (r_step c ch s).
Qed.

(** ** Remote calls *)

Lemma cnt_zero {A} `{EqDecision A} (x : A) l : cnt x l = 0 -> x ∉ l.
Proof.
  intros Hz Hx. pose proof (sumz_elem (fun y => ind (y = x)) l x ltac:(intros y _; apply ind_bounds) Hx) as Hle. unfold cnt in Hz. cbv beta in Hle.
  rewrite ind_yes in Hle by done. lia.
Qed.

Lemma cnt_notin {A} `{EqDecision A} (x : A) l : x ∉ l -> cnt x l = 0.
Proof. intros Hx. apply sumz_zero. intros y Hy. apply ind_no. by intros ->. Qed.

Lemma cnt_perm {A} `{EqDecision A} (l k : list A) : (forall x, cnt x l = cnt x k) -> l ≡ₚ k.
Proof.
  revert k. induction l as [|x l IH]; intros k Hk.
  - destruct k as [|y k]; [done|]. specialize (Hk y). symmetry in Hk. change (cnt y []) with 0 in Hk. apply cnt_zero in Hk. set_solver.
  - assert (Hx : x ∈ k). { destruct (decide (x ∈ k)) as [|Hx]; [done|]. specialize (Hk x). rewrite (cnt_notin x k Hx) in Hk. apply cnt_zero in Hk. set_solver. }
    apply elem_of_Permutation in Hx as [k' Hp]. rewrite Hp. f_equiv. apply IH. intros y. specialize (Hk y).
    assert (cnt y k = cnt y (x :: k')) as E by (clear -Hp; unfold cnt; induction Hp; simpl in *; lia). rewrite E in Hk. unfold cnt in *. simpl in Hk. lia.
Qed.

Lemma pending_zero s a d : total ncpus (refs ncpus a) s = 0 -> total ncpus (pending_at ncpus a d) s = 0.
Proof.
  apply total_zero; [apply (natural_nonneg ncpus); repeat constructor|intros e x m Hm; simpl in *; lia|].
  intros e g Hg. destruct g; simpl in *; try done; try lia; try (destruct h; simpl in *; lia).
  all: unfold sends in *; apply Z.mul_eq_0 in Hg as [E|E]; [rewrite E; lia|].
  all: destruct (send_targets _ _ _ _); [unfold cnt; simpl; lia|done].
Qed.

(** C15: While a cpu waits for a remote call, every destination has executed the
    function at most as often as it is a destination; when all have completed,
    and so when the wait ends, each destination has executed it exactly once, the
    sender holds the last reference, and the destinations are the one cpu of
    [exec_remote_call] or all other cpus. *)
Theorem remote_call_correct s c f a n ds k :
  ipm_reachable s -> 0 <= c < ncpus -> stack (threads s c) = f :: k -> f = CallWait a n ds \/ f = CallFree a n ds ->
  call_dests ncpus c ds /\ n = Z.of_nat (length ds) /\
  exists r, calls s !! a = Some r /\ is_synchronous r = true /\ completed_count r <= n /\ (forall d, cnt d (executed r) <= cnt d ds) /\
    (completed_count r = n \/ f = CallFree a n ds -> completed_count r = n /\ ref_count r = 1 /\ executed r ≡ₚ ds).
Proof using Hn.
  intros Hr Hc Hs Hf. pose proof (reachable_Inv s Hr) as HI. destruct (top_ok ncpus c Hc s HI f k Hs) as (Hok & _ & _).
  assert (Hok' : n = Z.of_nat (length ds) /\ n <= 255 /\ call_dests ncpus c ds) by (by destruct Hf as [->| ->]). destruct Hok' as (Hlen & _ & Hd).
  split; [done|]. split; [done|]. pose proof (i_call _ _ HI a) as Ha. unfold call_ok in Ha.
  assert (Hw1 : waits a (fun _ _ => 1) f = 1) by (destruct Hf as [->| ->]; simpl; rewrite ind_yes by done; lia).
  assert (Hnn : forall w, basic ncpus w -> 0 <= total ncpus w s) by (intros w Hw; apply total_ge_0, (natural_nonneg ncpus); by constructor).
  pose proof (top_le ncpus c Hc s (owners a) f k Hs ltac:(repeat constructor)) as Hle. assert (wf (owners a) (messages s) c f = 1) as E1 by (unfold wf; simpl; rewrite Hw1; by destruct Hf as [->| ->]).
  destruct (calls s !! a) as [r|] eqn:Er; [|lia]. exists r. destruct Ha as (H1 & H2 & H3). destruct (is_synchronous r) eqn:Esy; [|lia].
  destruct H3 as (Ho & _ & _ & Hcc & Hex & Hcf).
  assert (Hnd : total ncpus (needs a) s = n).
  { transitivity (waits a (fun n _ => n) f); [by apply (only_owner ncpus Hn c Hc s HI f k)|]. destruct Hf as [->| ->]; simpl; rewrite ind_yes by done; lia. }
  assert (Hda : forall d, total ncpus (dests_at a d) s = cnt d ds).
  { intros d. transitivity (waits a (fun _ ds => cnt d ds) f); [by apply (only_owner ncpus Hn c Hc s HI f k)|]. destruct Hf as [->| ->]; simpl; rewrite ind_yes by done; lia. }
  pose proof (Hnn _ (k_refs _ a)). pose proof (Hnn _ (k_incs _ a)). split_and!; [done|done|lia| |].
  - intros d. specialize (Hex d). rewrite Hda in Hex. pose proof (Hnn _ (k_pending _ a d)). lia.
  - intros Hdone. assert (Hz : total ncpus (refs ncpus a) s = 0 /\ total ncpus (incs a) s = 0).
    { destruct Hdone as [E| ->]; [lia|]. apply Hcf. pose proof (top_le ncpus c Hc s (callfrees a) _ k Hs ltac:(repeat constructor)) as Hl2. unfold wf in Hl2. simpl in Hl2.
      rewrite ind_yes in Hl2 by done. lia. }
    split_and!; [lia|lia|]. apply cnt_perm. intros d. specialize (Hex d). rewrite Hda in Hex. rewrite (pending_zero s a d (proj1 Hz)) in Hex. lia.
Qed.

(** ** TLB shootdowns *)


(** ** Delivery *)

Lemma NoDup_cnt {A} `{EqDecision A} (l : list A) : NoDup l <-> forall x, cnt x l <= 1.
Proof.
  split.
  - intros Hl x. destruct (decide (x ∈ l)) as [Hx|Hx]; [|rewrite cnt_notin by done; lia]. apply elem_of_Permutation in Hx as [l' Hp].
    rewrite Hp in Hl. apply NoDup_cons in Hl as [Hx _].
    assert (cnt x l = cnt x (x :: l')) as -> by (clear -Hp; unfold cnt; induction Hp; simpl in *; lia). change (cnt x (x :: l')) with (ind (x = x) + cnt x l').
    rewrite (cnt_notin x l' Hx), ind_yes by done. lia.
  - induction l as [|x l IH]; intros Hl; [constructor|]. constructor.
    + intros Hx. specialize (Hl x). change (cnt x (x :: l)) with (ind (x = x) + cnt x l) in Hl. rewrite ind_yes in Hl by done.
      pose proof (cnt_zero x l). pose proof (cnt_nonneg x l). destruct (decide (cnt x l = 0)); [tauto|lia].
    + apply IH. intros y. specialize (Hl y). change (cnt y (x :: l)) with (ind (x = y) + cnt y l) in Hl. pose proof (ind_bounds (x = y)). lia.
Qed.

(** C17: Every message is delivered to its destination at most once, and none is
    delivered that was not sent.  When the cpus are idle, all messages that were
    sent were delivered, and all messages, counters and (with more than one cpu)
    calls were freed. *)
Theorem ipm_delivery_correct s :
  ipm_reachable s ->
  NoDup (issued s) /\ NoDup (delivered s) /\ (forall p, p ∈ delivered s -> p ∈ issued s) /\
  (idle s -> delivered s ≡ₚ issued s /\ messages s = ∅ /\ counters s = ∅ /\ (2 <= ncpus -> calls s = ∅)).
Proof using Hn.
  intros Hr. pose proof (reachable_Inv s Hr) as HI. destruct (i_issued _ _ HI) as [Hnd _]. pose proof (i_flight _ _ HI) as Hfl.
  assert (Hle : forall p, cnt p (delivered s) <= cnt p (issued s)).
  { intros [id d]. rewrite Hfl. pose proof (total_ge_0 ncpus (in_flight ncpus id d) s (natural_nonneg ncpus _ (k_in_flight _ id d))). lia. }
  split_and!; [done| | |].
  - apply NoDup_cnt. intros p. rewrite Hle. by apply NoDup_cnt.
  - intros p Hp. destruct (decide (p ∈ issued s)) as [|Hx]; [done|]. specialize (Hle p). rewrite (cnt_notin p (issued s) Hx) in Hle.
    pose proof (cnt_nonneg p (delivered s)). destruct (cnt_zero p (delivered s)); [lia|done].
  - intros Hi. assert (Ht : forall w, (forall c, wo w c Kernel = 0) -> total ncpus w s = 0) by (intros; by apply idle_zero).
    split_and!; [apply cnt_perm; intros [id d]; rewrite Hfl, Ht by done; lia|..]; [| |intros H2]; apply map_eq; intros x; rewrite lookup_empty.
    + pose proof (i_message _ _ HI x) as Hx. unfold message_ok in Hx. rewrite !Ht in Hx by done. destruct (messages s !! x) as [m|]; [|done].
      destruct (receiver_dealloc m); lia.
    + pose proof (i_counter _ _ HI x) as Hx. unfold counter_ok in Hx. rewrite !Ht in Hx by done. destruct (counters s !! x); [lia|done].
    + pose proof (i_call _ _ HI x) as Hx. unfold call_ok in Hx. rewrite !Ht in Hx by done. destruct (calls s !! x) as [r|]; [|done].
      destruct (is_synchronous r); lia.
Qed.

(** The activation [f] of the cpu [c] will send an interrupt to [d]. *)
Definition will_interrupt (c : Z) (f : frame) (d : Z) : Prop :=
  match f with
  | SendLoop x _ _ | SendEnqueue x _ _ _ | SendIpi x _ => reaches x c d
  | ShootIpi y => target y = d
  | _ => False
  end.

(** C18: No wake-up is lost: while there is a message in the queue of a cpu, the
    interrupt is pending there, its handler is running and will look at the queue
    again, or a sender will send the interrupt. *)
Theorem ipm_wakeup s d :
  ipm_reachable s -> 0 <= d < ncpus -> message_queue s d <> [] ->
  ipi s d = true \/ (exists f, f ∈ stack (threads s d) /\ handling f = true) \/
  (exists c f, 0 <= c < ncpus /\ f ∈ stack (threads s c) /\ will_interrupt c f d).
Proof using Hn.
  intros Hr Hd Hq. pose proof (reachable_Inv s Hr) as HI. destruct (i_awake _ _ HI d Hd Hq) as [|Ha]; [by left|right].
  apply total_pos in Ha as (c & f & Hc & Hf & Hne); [|done]. simpl in Hne.
  destruct (decide (c = d /\ handling f = true)) as [Hh|Hh]; [left; destruct Hh as [-> Hh]; by exists f|right]. exists c, f. split; [done|]. split; [done|].
  rewrite (ind_no (c = d /\ handling f = true)) in Hne by done. unfold ind in Hne. destruct f; simpl; repeat case_decide; done || lia.
Qed.

(** ** The handler returns *)

(** The cpu [d] goes on alone; functions called remotely return. *)
Definition drive (d : Z) : M ipmst unit :=
  do t <- get_thread d;
  cpu_step ncpus d (match stack t with Kernel :: _ => ReturnKernel | _ => Go 0 end).

Fixpoint drive_n (d : Z) (n : nat) : M ipmst unit :=
  match n with 0%nat => ret tt | S n' => drive d;;; drive_n d n' end.

(** What is delivered when a message is processed, and the messages that the
    handler will process: the one it has taken, and those in the queue. *)
Definition deliveries (d : Z) (m : ipm_message) : list (Z * Z) := match tag m with TLB_SHOOTDOWN => [] | _ => [(number m, d)] end.
Definition deliveries_at (s : ipmst) (d a : Z) : list (Z * Z) := match messages s !! a with Some m => deliveries d m | None => [] end.
Definition backlog (s : ipmst) (d : Z) : list (Z * Z) := flat_map (deliveries_at s d) (message_queue s d).

Definition taken (s : ipmst) (d : Z) (top : list frame) : list (Z * Z) :=
  match top with [ProcessCopy a] => deliveries_at s d a | [ProcessDispatch m] => deliveries d m | _ => [] end.

(** How far the handler is from the next message. *)
Definition rank (top : list frame) : option nat :=
  match top with
  | [Process] => Some 0
  | [TlbAck _] | [HandleSyncInc _] => Some 1
  | [TlbFlush _] | [HandleSyncDec _] => Some 2
  | [HandleReturn _ _] => Some 3
  | [Kernel; HandleReturn _ _] => Some 4
  | [HandleCall _] => Some 5
  | [HandleFree _ _] => Some 6
  | [HandleDec _ _] => Some 7
  | [HandleMode _] => Some 8
  | [HandleCheck _] => Some 9
  | [ProcessDispatch _] => Some 10
  | [ProcessCopy _] => Some 11
  | _ => None
  end%nat.

Record at_work (d : Z) (k top : list frame) (r : nat) (s : ipmst) : Prop := {
  w_reach : ipm_reachable s; w_stack : stack (threads s d) = top ++ k; w_rank : rank top = Some r }.

Definition to_deliver (d : Z) (top : list frame) (s : ipmst) : list (Z * Z) := delivered s ++ taken s d top ++ backlog s d.

Lemma drive_safe d s : ipm_reachable s -> 0 <= d < ncpus -> match drive d s with Ok (_, s') => ipm_reachable s' | Halt h => no_memory h end.
Proof using Hn.
  intros Hr Hd. set (ch := match stack (threads s d) with Kernel :: _ => ReturnKernel | _ => Go 0 end).
  assert (Hv : valid ncpus ch) by (subst ch; by destruct (stack (threads s d)) as [|[] ?]). change (drive d s) with (cpu_step ncpus d ch s).
  pose proof (step_keeps ncpus Hn d Hd s (reachable_Inv s Hr) ch Hv) as H. unfold wpx in H.
  destruct (cpu_step ncpus d ch s) as [[[] s']|h] eqn:Es; [by apply (r_step d ch s)|done].
Qed.

(** One step of the handler. *)
Definition work_on (d : Z) (k top : list frame) (r : nat) (s : ipmst) : Prop :=
  exists s' top' r', drive d s = Ok (tt, s') /\ at_work d k top' r' s' /\
    (16 * length (message_queue s' d) + r' < 16 * length (message_queue s d) + r)%nat /\ to_deliver d top' s' = to_deliver d top s.

Ltac drive_eval Hs :=
  unfold drive, cpu_step, run_frame, process_messages, handle_remote_call, run_kernel, kfree_message, kfree_call, dec_and_test_ref_count, atomic_dec,
    rd_message, rd_call, wr_call, cpu_invalidate_tlb, atomic_read, goto, call, return_, interrupts_enabled, cpu_set_interrupt_flag, get_thread, set_thread, gets, modify, when, must, ASSERT, panic, ret, bind;
  simpl; rewrite Hs; simpl.

Ltac tops top Hs Hk :=
  destruct top as [|f [|g top]]; [done|destruct f; try done|destruct f; try done; destruct top; [destruct g; try done|by destruct g]]; simpl in Hs.

Lemma drive_runs d k top r s : 0 <= d < ncpus -> at_work d k top r s -> exists s', drive d s = Ok (tt, s') /\ ipm_reachable s'.
Proof using Hn.
  intros Hd [Hr Hs Hk]. pose proof (drive_safe d s Hr Hd) as H. destruct (drive d s) as [[[] s']|h] eqn:E; [by exists s'|]. exfalso.
  revert E. tops top Hs Hk; drive_eval Hs; intros E; unfold halt_with in *;
    repeat (case_match; simplify_eq/=; try discriminate); try discriminate; destruct H as [H|H]; simplify_eq/=; discriminate.
Qed.

Lemma flat_map_elem {A B} (f g : A -> list B) l : (forall x, x ∈ l -> f x = g x) -> flat_map f l = flat_map g l.
Proof. induction l as [|x l IH]; intros E; [done|]. simpl. rewrite E by left. f_equal. apply IH. intros y Hy. apply E. by right. Qed.

(** A message that is held once is not in the queue while the handler holds it. *)
Lemma held_once d s a k : 0 <= d < ncpus -> stack (threads s d) = ProcessCopy a :: k -> total ncpus (occ a) s = 1 -> a ∉ message_queue s d.
Proof.
  intros Hd Hs Ht Ha. assert (Hno : nonneg (occ a)) by (apply (natural_nonneg ncpus); constructor).
  pose proof (sumz_elem (cpu_weight (occ a) s) (range 0 ncpus) d ltac:(intros; by apply cpu_weight_nonneg) ltac:(by apply elem_of_range)) as Hle.
  change (sumz (cpu_weight (occ a) s) (range 0 ncpus)) with (total ncpus (occ a) s) in Hle. rewrite Ht in Hle. unfold cpu_weight in Hle. rewrite Hs in Hle.
  pose proof (sumz_elem (fun x => wm (occ a) d x (messages s !! x)) (message_queue s d) a ltac:(intros; apply Hno) Ha) as H1.
  pose proof (sumz_nonneg (wf (occ a) (messages s) d) k ltac:(intros; by apply wf_nonneg)) as H2. cbn [sumz] in Hle. unfold wf at 1 in Hle. simpl in Hle, H1.
  rewrite (ind_yes (a = a)) in * by done. lia.
Qed.

Ltac arrive Hs :=
  solve [simpl; unfold upd; repeat (rewrite decide_True by done; simpl); rewrite Hs; reflexivity|reflexivity|simpl; lia].

Lemma work_step d k top r s : 0 <= d < ncpus -> at_work d k top r s -> (top = [Process] -> message_queue s d <> []) -> work_on d k top r s.
Proof using Hn.
  intros Hd Hw Hq. destruct (drive_runs d k top r s Hd Hw) as (s' & E & Hr'). destruct Hw as [Hr Hs Hk]. pose proof E as E'. revert E'.
  assert (Hint : forall top' r', stack (threads s' d) = top' ++ k -> rank top' = Some r' ->
    (16 * length (message_queue s' d) + r' < 16 * length (message_queue s d) + r)%nat -> to_deliver d top' s' = to_deliver d top s -> work_on d k top r s).
  { intros top' r' H1 H2 H3 H4. by exists s', top', r'. }
  tops top Hs Hk; injection Hk as <-; drive_eval Hs.
  all: try (intros E'; unfold halt_with in *; repeat (case_match; simplify_eq/=; try discriminate); try (injection E' as <-);
    first [eapply (Hint [_]); arrive Hs|eapply (Hint [_; _]); arrive Hs]).
  - destruct (message_queue s d) as [|a q] eqn:Eq; [by destruct Hq|]. intros [= <-].
    apply (Hint [ProcessCopy a] 11%nat); simpl; unfold upd; rewrite ?decide_True by done; simpl; [by rewrite Hs|done|lia|].
    unfold to_deliver, backlog. simpl. unfold upd. rewrite decide_True by done. rewrite Eq. done.
  - pose proof (reachable_Inv s Hr) as HI. pose proof (i_message _ _ HI first) as Hm. unfold message_ok in Hm.
    destruct (messages s !! first) as [m|] eqn:Em; [|done]. intros E'.
    assert (Es : s' = put_threads (threads s') (put_messages (if receiver_dealloc m then delete first (messages s) else messages s) s) /\
      stack (threads s' d) = ProcessDispatch m :: k).
    { unfold halt_with in E'. destruct (receiver_dealloc m); [rewrite Em in E'|]; injection E' as <-; simpl; unfold upd; rewrite decide_True by done; simpl; rewrite Hs; [done|by destruct s]. }
    destruct Es as [Es Est]. eapply (Hint [ProcessDispatch m]); [exact Est|done|rewrite Es; simpl; lia|].
    unfold to_deliver. f_equal; [by rewrite Es|]. simpl. unfold deliveries_at at 1. rewrite Em. f_equal. unfold backlog.
    rewrite (f_equal message_queue Es : message_queue s' = message_queue s). apply flat_map_elem. intros a Ha. unfold deliveries_at. rewrite Es. simpl.
    destruct (receiver_dealloc m); [|done]. rewrite lookup_delete_ne; [done|]. intros <-.
    destruct Hm as [Hm _]. by destruct (held_once d s first k Hd Hs Hm).
  - destruct (tag msg) eqn:Et; intros [= <-]; eapply (Hint [_]);
      try (simpl; unfold upd; rewrite decide_True by done; simpl; rewrite Hs; reflexivity); try reflexivity; try (simpl; lia);
      unfold to_deliver, taken, deliveries; rewrite Et; simpl; by rewrite ?app_nil_r, <- ?app_assoc.
  - rewrite bool_decide_false by by rewrite Hs. simpl. intros [= <-]. eapply (Hint [_]); arrive Hs.
Qed.

Lemma upd_same {A} (f : Z -> A) d v : upd f d v d = v.
Proof. unfold upd. by rewrite decide_True. Qed.

Lemma drive_n_app d n m s s' : drive_n d n s = Ok (tt, s') -> drive_n d (n + m) s = drive_n d m s'.
Proof.
  revert s. induction n as [|n IH]; intros s; simpl; [by intros [= <-]|]. unfold bind. destruct (drive d s) as [[[] s1]|h]; [apply IH|done].
Qed.

(** The deliveries and the end of the handler. *)
Lemma drive_handler d s f k : stack (threads s d) = f :: k ->
  (f = HandlerEntry /\ IF_ (threads s d) = false) \/ (f = Process /\ message_queue s d = []) \/ f = HandlerExit ->
  exists t, drive d s = Ok (tt, put_threads t s) /\
    t d = match f with
          | HandlerEntry => mk_thread (Process :: k) true (preempt (threads s d) + 1)
          | Process => mk_thread (HandlerExit :: k) (IF_ (threads s d)) (preempt (threads s d))
          | _ => mk_thread k true (preempt (threads s d) - 1)
          end.
Proof.
  intros Hs Hf.
  unfold drive, cpu_step, run_frame, process_messages, ipm_handler, iret, interrupts_enabled, preempt_disable, preempt_enable, return_, cpu_set_interrupt_flag, goto, get_thread,
    set_thread, gets, modify, ASSERT, panic, ret, bind. simpl. rewrite Hs.
  destruct Hf as [[-> Hi]|[[-> Hq]| ->]]; [rewrite Hi|rewrite Hq|]; simpl; eexists; (split; [done|]); do 4 (rewrite ?upd_same; simpl); by rewrite Hs.
Qed.

Lemma work_loop d k n : 0 <= d < ncpus -> forall top r s, at_work d k top r s -> (16 * length (message_queue s d) + r <= n)%nat ->
  exists m s', drive_n d m s = Ok (tt, s') /\ at_work d k [Process] 0 s' /\ message_queue s' d = [] /\ delivered s' = to_deliver d top s.
Proof using Hn.
  intros Hd. induction n as [n IH] using lt_wf_ind. intros top r s Hw Hle.
  assert (Hcase : (top = [Process] /\ message_queue s d = []) \/ ~ (top = [Process] /\ message_queue s d = [])).
  { destruct (message_queue s d); [|right; by intros [_ [=]]]. destruct top as [|[] [|? ?]]; (by left) || (right; by intros [[=] _]). }
  destruct Hcase as [Hdone|Hmore].
  - destruct Hdone as [-> Hq]. pose proof (w_rank _ _ _ _ _ Hw) as Hk. injection Hk as <-. exists 0%nat, s. unfold to_deliver, backlog. rewrite Hq. simpl. by rewrite app_nil_r.
  - destruct (work_step d k top r s Hd Hw) as (s1 & top1 & r1 & Hs1 & Hw1 & Hlt & Hdel); [intros ->; tauto|].
    destruct (IH (16 * length (message_queue s1 d) + r1)%nat ltac:(lia) top1 r1 s1 Hw1 ltac:(lia)) as (m & s2 & Hrun & H1 & H2 & H3).
    exists (S m), s2. split; [simpl; unfold bind; by rewrite Hs1|]. by rewrite <- Hdel.
Qed.

(** C19: The interrupt handler terminates, if the functions that are called
    remotely return: the cpu, running alone, returns to what was interrupted, with
    its queue empty and interrupts enabled; what was in the queue has been
    delivered, in the order of the queue. *)
Theorem ipm_handler_terminates s d k :
  ipm_reachable s -> 0 <= d < ncpus -> stack (threads s d) = HandlerEntry :: k ->
  exists n s', drive_n d n s = Ok (tt, s') /\ ipm_reachable s' /\ stack (threads s' d) = k /\ IF_ (threads s' d) = true /\
    message_queue s' d = [] /\ delivered s' = delivered s ++ backlog s d.
Proof using Hn.
  intros Hr Hd Hs. pose proof (i_stack _ _ (reachable_Inv s Hr) d) as [_ Hif]. rewrite Hs in Hif. specialize (Hif eq_refl).
  destruct (drive_handler d s _ _ Hs (or_introl (conj eq_refl Hif))) as (t1 & E1 & Et1).
  pose proof (drive_safe d s Hr Hd) as Hr1. rewrite E1 in Hr1.
  assert (Hw : at_work d k [Process] 0 (put_threads t1 s)) by (split; [done|simpl; by rewrite Et1|done]).
  destruct (work_loop d k _ Hd _ _ _ Hw (le_n _)) as (n & s2 & Hrun & [Hr2 Hst2 _] & Hq2 & Hdel).
  destruct (drive_handler d s2 _ _ Hst2 (or_intror (or_introl (conj eq_refl Hq2)))) as (t3 & E3 & Et3).
  pose proof (drive_safe d s2 Hr2 Hd) as Hr3. rewrite E3 in Hr3.
  destruct (drive_handler d (put_threads t3 s2) HandlerExit k) as (t4 & E4 & Et4); [simpl; by rewrite Et3|auto|].
  pose proof (drive_safe d _ Hr3 Hd) as Hr4. rewrite E4 in Hr4.
  exists (1 + (n + 2))%nat. eexists. split; [|split; [exact Hr4|]; simpl; rewrite Et4; by rewrite Hdel].
  rewrite (drive_n_app d 1 _ _ (put_threads t1 s)) by (simpl; unfold bind; by rewrite E1). rewrite (drive_n_app d n _ _ _ Hrun).
  simpl. unfold bind. by rewrite E3, E4.
Qed.

End Props.

(** ** Samples *)

(** Two cpus after the boot, and after steps that are given. *)
Definition boot2 : ipm_boot := match init_ipm 2 0 zeroed with Ok (_, b) => b | Halt _ => zeroed end.

Fixpoint steps (ncpus : Z) (l : list (Z * choice)) : M ipmst unit :=
  match l with [] => ret tt | (c, ch) :: l' => cpu_step ncpus c ch;;; steps ncpus l' end.

Definition sample (l : list (Z * choice)) : ipmst := match steps 2 l (started boot2) with Ok (_, s) => s | Halt _ => started boot2 end.

Lemma steps_reachable ncpus l s s' :
  ipm_reachable ncpus s -> Forall (fun x => 0 <= x.1 < ncpus /\ valid ncpus x.2) l -> steps ncpus l s = Ok (tt, s') -> ipm_reachable ncpus s'.
Proof.
  revert s. induction l as [|[c ch] l IH]; intros s Hr Hl; simpl; [by intros [= <-]|]. unfold bind.
  destruct (cpu_step ncpus c ch s) as [[[] s1]|h] eqn:E; [|done]. apply Forall_cons in Hl as [[Hc Hv] Hl]. apply IH; [|done]. by apply (r_step _ c ch s).
Qed.

Lemma sample_reachable l : Forall (fun x => 0 <= x.1 < 2 /\ valid 2 x.2) l -> ipm_reachable 2 (sample l).
Proof.
  intros Hl. assert (Hb : ipm_reachable 2 (started boot2)) by (by apply (r_start 2 0)). unfold sample.
  destruct (steps 2 l (started boot2)) as [[[] s]|h] eqn:E; [|done]. by apply (steps_reachable 2 l (started boot2)).
Qed.

Ltac sampled := apply sample_reachable; repeat (apply Forall_cons; split; [split; [simpl; lia|simpl; lia || exact I]|]); apply Forall_nil; exact I.

Definition go (c : Z) (n : nat) : list (Z * choice) := replicate n (c, Go 200).

(** Cpu 0 calls a function on cpu 1 and waits: it has sent the message; cpu 1
    takes the interrupt; cpu 1 has completed the call; both are idle. *)
Definition call_sent : list (Z * choice) := (0, ExecCall 100 1 7 8 true) :: go 0 2.
Definition call_taken : list (Z * choice) := call_sent ++ go 0 2 ++ [(1, SetFlag true); (1, TakeIpi)].
Definition call_done : list (Z * choice) := call_taken ++ go 1 7 ++ [(1, ReturnKernel)] ++ go 1 3 ++ go 0 1.
Definition call_idle : list (Z * choice) := call_done ++ go 0 1 ++ go 1 2.

(** Cpu 0 has cpu 1 flush its TLB. *)
Definition shot : list (Z * choice) :=
  (0, Shootdown 300 400 5) :: go 0 6 ++ [(1, SetFlag true); (1, TakeIpi)] ++ go 1 6 ++ go 0 1.

Lemma ipm_safe_witness :
  ipm_reachable 2 (sample call_done) /\
  match cpu_step 2 0 (Go 0) (sample call_done) with Ok (_, s') => ipm_reachable 2 s' | Halt h => no_memory h end.
Proof.
  assert (Hr : ipm_reachable 2 (sample call_done)) by sampled. split; [exact Hr|]. apply (ipm_safe 2); [lia|exact Hr|lia|exact I].
Defined.

Lemma remote_call_correct_witness :
  exists r, calls (sample call_done) !! 100 = Some r /\ completed_count r = 1 /\ executed r ≡ₚ [1].
Proof.
  assert (Hr : ipm_reachable 2 (sample call_done)) by sampled.
  destruct (remote_call_correct 2 ltac:(lia) (sample call_done) 0 (CallFree 100 1 [1]) 100 1 [1] [Kernel] Hr ltac:(lia) ltac:(vm_compute; reflexivity) ltac:(by right))
    as (_ & _ & r & H1 & _ & _ & _ & H2). destruct (H2 (or_intror eq_refl)) as (H3 & _ & H4). exists r. split; [exact H1|]. split; [exact H3|exact H4].
Defined.


Lemma ipm_delivery_correct_witness : delivered (sample call_idle) ≡ₚ issued (sample call_idle) /\ issued (sample call_idle) = [(0, 1)] /\ calls (sample call_idle) = ∅.
Proof.
  assert (Hr : ipm_reachable 2 (sample call_idle)) by sampled.
  destruct (ipm_delivery_correct 2 ltac:(lia) (sample call_idle) Hr) as (_ & _ & _ & H). destruct H as (H1 & _ & _ & H2).
  - intros c Hc. assert (E : c = 0 \/ c = 1) by lia. destruct E as [-> | ->]; (split; [vm_compute; reflexivity|]); intros f Hf.
    + assert (E : stack (threads (sample call_idle) 0) = [Kernel]) by (vm_compute; reflexivity). rewrite E in Hf. by apply list_elem_of_singleton in Hf.
    + assert (E : stack (threads (sample call_idle) 1) = [Kernel]) by (vm_compute; reflexivity). rewrite E in Hf. by apply list_elem_of_singleton in Hf.
  - split; [exact H1|]. split; [vm_compute; reflexivity|apply H2; lia].
Defined.

Lemma ipm_wakeup_witness :
  message_queue (sample call_sent) 1 = [200] /\
  (ipi (sample call_sent) 1 = true \/ (exists f, f ∈ stack (threads (sample call_sent) 1) /\ handling f = true) \/
   (exists c f, 0 <= c < 2 /\ f ∈ stack (threads (sample call_sent) c) /\ will_interrupt c f 1)).
Proof.
  assert (Hr : ipm_reachable 2 (sample call_sent)) by sampled. assert (Hq : message_queue (sample call_sent) 1 = [200]) by (vm_compute; reflexivity).
  split; [exact Hq|]. apply (ipm_wakeup 2 ltac:(lia) (sample call_sent) 1 Hr ltac:(lia)). by rewrite Hq.
Defined.

Lemma ipm_handler_terminates_witness :
  exists n s', drive_n 2 1 n (sample call_taken) = Ok (tt, s') /\ stack (threads s' 1) = [Kernel] /\ delivered s' = [(0, 1)].
Proof.
  assert (Hr : ipm_reachable 2 (sample call_taken)) by sampled.
  destruct (ipm_handler_terminates 2 ltac:(lia) (sample call_taken) 1 [Kernel] Hr ltac:(lia) ltac:(vm_compute; reflexivity)) as (n & s' & H1 & _ & H2 & _ & _ & H3).
  exists n, s'. split; [exact H1|]. split; [exact H2|]. rewrite H3. vm_compute. reflexivity.
Defined.

(** With one cpu, [broadcast_remote_call] without waiting never frees its call. *)
Lemma broadcast_leaks : exists s, ipm_reachable 1 s /\ idle 1 s /\ calls s !! 100 <> None.
Proof.
  set (l := (0, BroadcastCall 100 7 8 false) :: go 0 3).
  set (b := match init_ipm 1 0 zeroed with Ok (_, b) => b | Halt _ => zeroed end).
  destruct (steps 1 l (started b)) as [[[] s]|h] eqn:E; [|vm_compute in E; discriminate].
  assert (Hr : ipm_reachable 1 s).
  { apply (steps_reachable 1 l (started b)); [by apply (r_start 1 0)| |exact E]. repeat (apply Forall_cons; split; [split; [simpl; lia|exact I]|]). by apply Forall_nil. }
  vm_compute in E. injection E as <-. eexists. split; [exact Hr|]. split; [|vm_compute; discriminate].
  intros c Hc. assert (c = 0) as -> by lia. split; [reflexivity|]. intros f Hf. vm_compute in Hf. by apply list_elem_of_singleton in Hf.
Qed.
