(* ===== verification/Sched.v ===== *)
(** * The scheduler: [src/sched_core.c], [src/ts.c], and the context switch of
    [src/proc.c] and [src/proc_asm.S]

    Any number of cpus run processes.  A cpu executes the activations of one
    kernel stack; a context switch saves what is left of it in the process and
    goes on with what another process had saved.  A step of a cpu is a part of a
    function between two points where an interrupt or another cpu could make a
    difference; an operation of the trivial scheduler works under the lock of its
    run queue and is one step.  What a process does outside of these functions is
    [Code], which may call them, change the interrupt flag, and be interrupted by
    the timer. *)

From S2P Require Import Prelude Percpu.

(** ** Data *)

Definition PROC_RUNNABLE : Z := 0x0.
Definition PROC_WAITING_EIP : Z := 0x1.
Definition PROC_DEAD : Z := 0x2.

(** The activations on a kernel stack.  [Code n]: the code of the process, with
    [n] calls to [preempt_disable] (ghost) that it has not undone. *)
Inductive frame :=
| Code (n : Z)
(* [schedule] *)
| Schedule
| ScheduleChecked
| ScheduleDecide
| SchedulePick
| ScheduleNext (next : Z)
| ScheduleEnable
| ScheduleEnd
(* [sched_enqueue_proc], [sched_dequeue_proc], [sched_tick] *)
| EnqueueProc (proc : Z)
| DequeueProc (proc : Z)
| EnablePreempt
(* [sched_update_curr] *)
| UpdateCurr (irqs : bool) (curr : Z)
| UpdateEnd (irqs : bool)
(* [do_exit] *)
| ExitProc (curr code : Z)
(* [generic_interrupt_handler] around [sched_tick] *)
| TickEntry
| TickBody
| TickExit.

(** [saved] is the part of the kernel stack that [kernel_stack_ptr] points to,
    [kernel_stack] its bottom. *)
Record proc := mk_proc {
  addr_space : Z; is_kernel_proc : bool; state_flags : Z; exit_code : Z; p_cpu : Z; kernel_stack : Z; saved : list frame }.

(** [live] is what is on the stack of the cpu, [on] (ghost) the process whose
    stack it is.  [switching] holds the registers of [do_context_switch] after
    the stack was switched: the process to put back (0: none) and whether to
    enable interrupts.  [cr3] is the current address space, [esp0] the stack of the TSS. *)
Record cpu := mk_cpu {
  live : list frame; on : Z; switching : option (Z * bool);
  IF : bool; gs : Z; cr3 : Z; esp0 : Z;
  preempt_count : Z; sched_running : bool; resched_flag : bool; context_switches : Z;
  idle_proc : Z; curr_proc : Z }.

(** [SCHEDULER]: the scheduler is [ts_sched]. *)
Record machine := mk_machine { cpus : gmap Z cpu; procs : gmap Z proc; RUNQUEUE : list Z; SCHEDULER : bool }.

Section Setters.
Definition set_state_flags v p := mk_proc (addr_space p) (is_kernel_proc p) v (exit_code p) (p_cpu p) (kernel_stack p) (saved p).
Definition set_exit_code v p := mk_proc (addr_space p) (is_kernel_proc p) (state_flags p) v (p_cpu p) (kernel_stack p) (saved p).
Definition set_p_cpu v p := mk_proc (addr_space p) (is_kernel_proc p) (state_flags p) (exit_code p) v (kernel_stack p) (saved p).
Definition set_saved v p := mk_proc (addr_space p) (is_kernel_proc p) (state_flags p) (exit_code p) (p_cpu p) (kernel_stack p) v.
Definition set_live v t := mk_cpu v (on t) (switching t) (IF t) (gs t) (cr3 t) (esp0 t) (preempt_count t) (sched_running t) (resched_flag t) (context_switches t) (idle_proc t) (curr_proc t).
Definition set_stack v o t := mk_cpu v o (switching t) (IF t) (gs t) (cr3 t) (esp0 t) (preempt_count t) (sched_running t) (resched_flag t) (context_switches t) (idle_proc t) (curr_proc t).
Definition set_switching v t := mk_cpu (live t) (on t) v (IF t) (gs t) (cr3 t) (esp0 t) (preempt_count t) (sched_running t) (resched_flag t) (context_switches t) (idle_proc t) (curr_proc t).
Definition set_view v t := mk_cpu (live t) (on t) (switching t) (v_if v) (v_gs v) (cr3 t) (esp0 t) (v_count v) (v_running v) (resched_flag t) (context_switches t) (idle_proc t) (curr_proc t).
Definition set_cr3 v t := mk_cpu (live t) (on t) (switching t) (IF t) (gs t) v (esp0 t) (preempt_count t) (sched_running t) (resched_flag t) (context_switches t) (idle_proc t) (curr_proc t).
Definition set_esp0 v t := mk_cpu (live t) (on t) (switching t) (IF t) (gs t) (cr3 t) v (preempt_count t) (sched_running t) (resched_flag t) (context_switches t) (idle_proc t) (curr_proc t).
Definition set_resched_flag v t := mk_cpu (live t) (on t) (switching t) (IF t) (gs t) (cr3 t) (esp0 t) (preempt_count t) (sched_running t) v (context_switches t) (idle_proc t) (curr_proc t).
Definition set_context_switches v t := mk_cpu (live t) (on t) (switching t) (IF t) (gs t) (cr3 t) (esp0 t) (preempt_count t) (sched_running t) (resched_flag t) v (idle_proc t) (curr_proc t).
Definition set_curr v t := mk_cpu (live t) (on t) (switching t) (IF t) (gs t) (cr3 t) (esp0 t) (preempt_count t) (sched_running t) (resched_flag t) (context_switches t) (idle_proc t) v.
Definition set_cpus v s := mk_machine v (procs s) (RUNQUEUE s) (SCHEDULER s).
Definition set_procs v s := mk_machine (cpus s) v (RUNQUEUE s) (SCHEDULER s).
Definition set_RUNQUEUE v s := mk_machine (cpus s) (procs s) v (SCHEDULER s).
End Setters.

Definition view (t : cpu) : cpu_view := mk_view (IF t) (preempt_count t) (sched_running t) (gs t).

Definition NO_PROC : Z := 0xFFFFFFFF.

(** ** Statements *)

Section Ops.
Context (c : Z).

Definition get_cpu : M machine cpu := fun s => must (cpus s !! c) "percpu area" s.
Definition update_cpu (f : cpu -> cpu) : M machine unit :=
  do t <- get_cpu; modify (fun s => set_cpus (<[c := f t]> (cpus s)) s).

Definition rd_proc (a : Z) : M machine proc := fun s => must (procs s !! a) "struct proc" s.
Definition update_proc (a : Z) (f : proc -> proc) : M machine unit :=
  do p <- rd_proc a; modify (fun s => set_procs (<[a := f p]> (procs s)) s).

(** The activation on top goes on at [f]; it calls [f]; it returns. *)
Definition goto (f : frame) : M machine unit := update_cpu (fun t => set_live (f :: tail (live t)) t).
Definition call (f : frame) : M machine unit := update_cpu (fun t => set_live (f :: live t) t).
Definition return_ : M machine unit := update_cpu (fun t => set_live (tail (live t)) t).

(** The variables of the cpu, for [Percpu]. *)
Definition sched_vars : CpuVars machine := {|
  interrupts_enabled := do t <- get_cpu; ret (IF t);
  cpu_set_interrupt_flag b := update_cpu (fun t => set_view (mk_view b (preempt_count t) (sched_running t) (gs t)) t);
  cpu_read_gs := do t <- get_cpu; ret (gs t);
  read_preempt_count := do t <- get_cpu; ret (preempt_count t);
  write_preempt_count n := update_cpu (fun t => set_view (mk_view (IF t) n (sched_running t) (gs t)) t);
  read_sched_running := do t <- get_cpu; ret (sched_running t) |}.

#[local] Existing Instance sched_vars.

(** [preempt_enable] calls [schedule] in the end. *)
Definition enable : M machine unit := Percpu.preempt_enable (call Schedule).
Definition enable_no_resched : M machine unit := Percpu.preempt_enable_no_resched (call Schedule).

Definition read_var {A} (f : cpu -> A) : M machine A := this_cpu_var (do t <- get_cpu; ret (f t)).
Definition write_var (f : cpu -> cpu) : M machine unit := this_cpu_var (update_cpu f).

Definition get_curr_proc : M machine Z := with_preempt_disabled (call Schedule) (read_var curr_proc).
Definition set_curr_proc (p : Z) : M machine unit := with_preempt_disabled (call Schedule) (write_var (set_curr p)).

Definition proc_is_runnable (p : proc) : bool := state_flags p =? PROC_RUNNABLE.

(** *** The trivial scheduler *)

Definition ts_enqueue_proc (p : Z) : M machine unit := modify (fun s => set_RUNQUEUE (RUNQUEUE s ++ [p]) s).

Definition in_runqueue (p : Z) (s : machine) : bool := existsb (Z.eqb p) (RUNQUEUE s).

Definition remove_first (p : Z) : list Z -> list Z :=
  fix go l := match l with [] => [] | q :: l' => if q =? p then l' else q :: go l' end.

Definition ts_dequeue_proc (p : Z) : M machine unit :=
  do b <- gets (in_runqueue p);
  ASSERT b "in_runqueue(proc) && runqueue";;;
  modify (fun s => set_RUNQUEUE (remove_first p (RUNQUEUE s)) s).

Definition ts_pick_next_proc : M machine Z :=
  do q <- gets RUNQUEUE;
  match q with
  | [] => ret NO_PROC
  | next :: q' => modify (set_RUNQUEUE q');;; ret next
  end.

Definition sched_resched : M machine unit :=
  Percpu.preempt_disable;;; write_var (set_resched_flag true);;; enable.

Definition ts_tick : M machine unit := sched_resched.

(** *** The core *)

Definition assert_scheduler : M machine unit := do b <- gets SCHEDULER; ASSERT b "SCHEDULER".

Definition cpu_is_idle (cpu : Z) : M machine bool :=
  do t <- (fun s => must (cpus s !! cpu) "percpu area" s); ret (curr_proc t =? idle_proc t).

Definition curr_cpu_need_resched : M machine bool :=
  do curr <- get_curr_proc;
  if curr =? 0 then ret true else
  do idle <- cpu_is_idle c;
  if (idle : bool) then ret true else
  do flag <- read_var resched_flag;
  if (flag : bool) then ret true else
  do p <- rd_proc curr;
  ret (negb (proc_is_runnable p)).

Definition sched_put_prev_proc (prev : Z) : M machine unit :=
  Percpu.preempt_disable;;;
  do idle <- read_var idle_proc;
  do sched <- gets SCHEDULER;
  do go <- (if sched && negb (prev =? 0) && negb (prev =? idle)
            then do p <- rd_proc prev; ret (proc_is_runnable p) else ret false);
  when go (ts_enqueue_proc prev);;;
  enable.

(** [do_context_switch] up to and including the switch of the stack. *)
Definition context_switch (curr next : Z) (irqs : bool) : M machine unit :=
  do t <- get_cpu;
  when (negb (curr =? 0)) (update_proc curr (set_saved (live t)));;;
  do n <- rd_proc next;
  update_cpu (fun t => set_switching (Some (curr, irqs)) (set_stack (saved n) next t)).

(** The rest of it: [prev] is put back, then preemption and interrupts are
    enabled. *)
Definition finish_switch (prev : Z) (irqs : bool) : M machine unit :=
  if negb (prev =? 0) then
    sched_put_prev_proc prev;;;
    update_cpu (set_switching (Some (0, irqs)))
  else
    enable_no_resched;;;
    when irqs (cpu_set_interrupt_flag true);;;
    update_cpu (set_switching None).

(** The caller of [switch_to_proc] resumes at [ScheduleEnd]. *)
Definition switch_to_proc (next : Z) : M machine unit :=
  do p <- preemptible;
  ASSERT (negb p) "!preemptible()";;;
  do irqs <- interrupts_enabled;
  cpu_set_interrupt_flag false;;;
  do curr <- get_curr_proc;
  update_proc next (set_p_cpu c);;;
  set_curr_proc next;;;
  do n <- rd_proc next;
  update_cpu (set_cr3 (addr_space n));;;
  when (negb (is_kernel_proc n)) (update_cpu (set_esp0 (kernel_stack n)));;;
  goto ScheduleEnd;;;
  context_switch curr next irqs.

(** [curr] and [idle] of the source do not change while preemption is disabled; each
    is read in the step that uses it. *)
Definition schedule (f : frame) : M machine unit :=
  match f with
  | Schedule =>
      assert_scheduler;;;
      do p <- preemptible;
      if negb p then return_ else goto ScheduleChecked
  | ScheduleChecked =>
      do irqs <- interrupts_enabled;
      ASSERT irqs "interrupts_enabled()";;;
      Percpu.preempt_disable;;;
      goto ScheduleDecide
  | ScheduleDecide =>
      do b <- curr_cpu_need_resched;
      if (b : bool) then goto SchedulePick else goto ScheduleEnable
  | SchedulePick =>
      do next <- ts_pick_next_proc;
      do idle <- read_var idle_proc;
      goto (ScheduleNext (if next =? NO_PROC then idle else next))
  | ScheduleNext next =>
      do curr <- get_curr_proc;
      do p <- rd_proc next;
      ASSERT (proc_is_runnable p) "proc_is_runnable(next)";;;
      write_var (set_resched_flag false);;;
      if negb (next =? curr) then
        write_var (fun t => set_context_switches (u64 (context_switches t + 1)) t);;;
        switch_to_proc next
      else goto ScheduleEnable
  | ScheduleEnable => enable_no_resched;;; goto ScheduleEnd
  | ScheduleEnd =>
      do irqs <- interrupts_enabled;
      ASSERT irqs "interrupts_enabled()";;;
      do p <- preemptible;
      ASSERT p "preemptible()";;;
      return_
  | _ => ret tt
  end.

(** The second half of [sched_enqueue_proc] and [sched_dequeue_proc]. *)
Definition run_wrapper (f : frame) : M machine unit :=
  match f with
  | EnqueueProc p => ts_enqueue_proc p;;; goto EnablePreempt
  | DequeueProc p => ts_dequeue_proc p;;; goto EnablePreempt
  | EnablePreempt => return_;;; enable
  | _ => ret tt
  end.

(** [get_callback] of [interrupt.c], which looks the handler up with preemption
    disabled, and may call [schedule] when it enables it again. *)
Definition get_callback : M machine unit := Percpu.preempt_disable;;; enable.

Definition sched_tick (f : frame) : M machine unit :=
  match f with
  | TickEntry =>
      do irqs <- interrupts_enabled;
      ASSERT (negb irqs) "!interrupts_enabled()";;;
      cpu_set_interrupt_flag true;;;
      goto TickBody;;;
      get_callback
  | TickBody =>
      assert_scheduler;;;
      Percpu.preempt_disable;;;
      ts_tick;;;
      goto TickExit;;;
      call EnablePreempt
  | TickExit =>
      cpu_set_interrupt_flag false;;;
      return_;;;
      cpu_set_interrupt_flag true
  | _ => ret tt
  end.

(** The timer interrupt. *)
Definition timer_interrupt : M machine unit :=
  do t <- get_cpu;
  when (IF t && sched_running t) (cpu_set_interrupt_flag false;;; call TickEntry).

(** [get_curr_proc] where it may call [schedule]: the caller goes on at [f curr]. *)
Definition with_curr (f : Z -> frame) : M machine unit :=
  Percpu.preempt_disable;;;
  do curr <- read_var curr_proc;
  call (f curr);;;
  enable.

Definition do_exit (code : Z) : M machine unit := with_curr (fun curr => ExitProc curr code).

Definition sched_update_curr : M machine unit :=
  assert_scheduler;;;
  do irqs <- interrupts_enabled;
  cpu_set_interrupt_flag false;;;
  with_curr (UpdateCurr irqs).

Definition run_curr (f : frame) : M machine unit :=
  match f with
  | ExitProc curr code =>
      update_proc curr (set_exit_code code);;;
      do p <- rd_proc curr;
      update_proc curr (set_state_flags (Z.lor (state_flags p) PROC_DEAD));;;
      return_
  | UpdateCurr irqs curr =>
      do p <- rd_proc curr;
      goto (UpdateEnd irqs);;;
      when (negb (proc_is_runnable p)) sched_resched
  | UpdateEnd irqs => cpu_set_interrupt_flag irqs;;; return_
  | _ => ret tt
  end.

Definition sched_enqueue_proc (p : Z) : M machine unit :=
  assert_scheduler;;;
  do x <- rd_proc p;
  ASSERT (proc_is_runnable x) "proc_is_runnable(proc)";;;
  Percpu.preempt_disable;;;
  call (EnqueueProc p).

Definition sched_dequeue_proc (p : Z) : M machine unit :=
  assert_scheduler;;;
  Percpu.preempt_disable;;;
  call (DequeueProc p).

(** [lapic_start_timer] disables interrupts before it arms the timer, which ticks
    where [sched_running] is set. *)
Definition enable_sched_tick : M machine unit := cpu_set_interrupt_flag false.

(** The counter that
    is set to 0 forgets the calls to [preempt_disable] of the caller, to which
    [schedule] does not return. *)
Definition sched_start : M machine unit :=
  write_var (fun t => set_view (mk_view (IF t) (preempt_count t) true (gs t)) t);;;
  write_var (fun t => set_view (mk_view (IF t) 0 (sched_running t) (gs t)) t);;;
  goto (Code 0);;;
  enable_sched_tick;;;
  cpu_set_interrupt_flag true;;;
  call Schedule.

(** The end of [load_elf_binary]: the process can run. *)
Definition ready (p : Z) : M machine unit :=
  update_proc p (fun x => set_state_flags (Z.land (state_flags x) (Z.lnot PROC_WAITING_EIP)) x).

(** ** Steps *)

Inductive choice :=
| Go
| Timer
| CallSchedule
| Resched
| Disable
| Enable
| SetFlag (b : bool)
| Exit (code : Z)
| Update
| Enqueue (p : Z)
| Dequeue (p : Z)
| Ready (p : Z)
| Start.

Definition set_code (n : Z) : M machine unit := goto (Code n).

Definition run_code (n : Z) (ch : choice) : M machine unit :=
  match ch with
  | CallSchedule => call Schedule
  | Resched => sched_resched
  | Disable => Percpu.preempt_disable;;; set_code (n + 1)
  | Enable => set_code (n - 1);;; enable
  | SetFlag b => cpu_set_interrupt_flag b
  | Exit code => do_exit code
  | Update => sched_update_curr
  | Enqueue p => sched_enqueue_proc p
  | Dequeue p => sched_dequeue_proc p
  | Ready p => ready p
  | Start => sched_start
  | Go | Timer => ret tt
  end.

Definition run_frame (f : frame) : M machine unit :=
  match f with
  | Code _ => ret tt
  | Schedule | ScheduleChecked | ScheduleDecide | SchedulePick | ScheduleNext _ | ScheduleEnable | ScheduleEnd => schedule f
  | EnqueueProc _ | DequeueProc _ | EnablePreempt => run_wrapper f
  | UpdateCurr _ _ | UpdateEnd _ | ExitProc _ _ => run_curr f
  | TickEntry | TickBody | TickExit => sched_tick f
  end.

Definition cpu_step (ch : choice) : M machine unit :=
  do t <- get_cpu;
  match switching t with
  | Some (prev, irqs) => finish_switch prev irqs
  | None =>
      match live t with
      | [] => ret tt
      | f :: _ =>
          match ch, f with
          | Timer, _ => timer_interrupt
          | Go, _ => run_frame f
          | _, Code n => run_code n ch
          | _, _ => ret tt
          end
      end
  end.

End Ops.

(** ** Initialisation *)

(** [sched_init] on the cpus [l], with the idle processes that [create_kproc]
    returned for them. *)
Definition init_cpu (c idle : Z) : M machine unit :=
  if idle =? 0 then panic "Cannot create idle proc for cpu" else
  update_cpu c (fun t => mk_cpu (live t) (on t) (switching t) (IF t) (gs t) (cr3 t) (esp0 t) 0 false false 0 idle 0).

Definition sched_init (l : list (Z * Z)) : M machine unit :=
  for_each l (fun x => init_cpu x.1 x.2);;;
  do b <- gets SCHEDULER;
  when b (modify (set_RUNQUEUE [])).
