(* ===== verification/SchedSpec.v ===== *)
(** * The invariant of the scheduler

    [at_cpu c s t] is the state [s] in which the cpu [c] is [t]; the first part
    says what the statements of [Sched] do to it.  The second part is the
    invariant: every process is in at most one place (running, in the run queue,
    or in the hands of a function that moves it), interrupts and preemption are
    as the activations expect them, and the cpu runs its process in the address
    space and with the kernel stack of that process. *)

From S2P Require Import Prelude Percpu Sched.

Definition at_cpu (c : Z) (s : machine) (t : cpu) : machine := set_cpus (<[c := t]> (cpus s)) s.

Lemma at_cpu_twice c s t t' : at_cpu c (at_cpu c s t) t' = at_cpu c s t'.
Proof. unfold at_cpu, set_cpus. simpl. by rewrite insert_insert_eq. Qed.

Lemma at_cpu_id c s t : cpus s !! c = Some t -> at_cpu c s t = s.
Proof. intros Ht. unfold at_cpu, set_cpus. rewrite insert_id by done. by destruct s. Qed.

Lemma at_cpu_lookup c s t : cpus (at_cpu c s t) !! c = Some t.
Proof. simpl. by rewrite lookup_insert_eq. Qed.

Lemma same_state s c t : at_cpu c (set_RUNQUEUE (RUNQUEUE s) (set_procs (procs s) s)) t = at_cpu c s t.
Proof. by destruct s. Qed.

(** ** The variables of a cpu *)

Section Run.
Context (c : Z).

#[local] Hint Extern 0 (CpuVars machine) => exact (sched_vars c) : typeclass_instances.

Lemma get_cpu_at s t : get_cpu c (at_cpu c s t) = Ok (t, at_cpu c s t).
Proof. unfold get_cpu. by rewrite at_cpu_lookup. Qed.

Lemma update_cpu_at s t f : update_cpu c f (at_cpu c s t) = Ok (tt, at_cpu c s (f t)).
Proof. unfold update_cpu. erewrite bind_ok by apply get_cpu_at. unfold modify. by rewrite <- (at_cpu_twice c s t (f t)). Qed.

Definition this_view (s : machine) : cpu_view := match cpus s !! c with Some t => view t | None => mk_view false 0 false 0 end.
Definition put_view (v : cpu_view) (s : machine) : machine := match cpus s !! c with Some t => at_cpu c s (set_view v t) | None => s end.
Definition vars_ok (s : machine) : Prop := exists t, cpus s !! c = Some t /\ gs t <> 0.

#[refine] Instance sched_vars_laws : CpuVarsLaws machine := {| cv_ok := vars_ok; cv_view := this_view; cv_put := put_view |}.
Proof.
  - intros s v (t & Ht & Hg) E. unfold put_view, this_view in *. rewrite Ht in *. eexists. split; [apply at_cpu_lookup|]. simpl. by rewrite E.
  - intros s v (t & Ht & Hg) _. unfold put_view, this_view in *. rewrite Ht, at_cpu_lookup. by destruct v.
  - intros s v w (t & Ht & Hg) _ _. unfold put_view. rewrite Ht, at_cpu_lookup, at_cpu_twice. done.
  - intros s (t & Ht & Hg). unfold put_view, this_view. rewrite Ht. rewrite <- (at_cpu_id c s t Ht) at 2. by destruct t.
  - intros s (t & Ht & Hg). unfold this_view. by rewrite Ht.
  - intros s (t & Ht & Hg). unfold this_view. rewrite <- (at_cpu_id c s t Ht). rewrite at_cpu_lookup. simpl. by erewrite bind_ok by apply get_cpu_at.
  - intros s b (t & Ht & Hg). unfold this_view, put_view. rewrite <- (at_cpu_id c s t Ht). rewrite at_cpu_lookup, at_cpu_twice. simpl. by rewrite update_cpu_at.
  - intros s (t & Ht & Hg). unfold this_view. rewrite <- (at_cpu_id c s t Ht). rewrite at_cpu_lookup. simpl. by erewrite bind_ok by apply get_cpu_at.
  - intros s (t & Ht & Hg). unfold this_view. rewrite <- (at_cpu_id c s t Ht). rewrite at_cpu_lookup. simpl. by erewrite bind_ok by apply get_cpu_at.
  - intros s n (t & Ht & Hg). unfold this_view, put_view. rewrite <- (at_cpu_id c s t Ht). rewrite at_cpu_lookup, at_cpu_twice. simpl. by rewrite update_cpu_at.
  - intros s (t & Ht & Hg). unfold this_view. rewrite <- (at_cpu_id c s t Ht). rewrite at_cpu_lookup. simpl. by erewrite bind_ok by apply get_cpu_at.
Defined.

Lemma vars_ok_at s t : gs t <> 0 -> vars_ok (at_cpu c s t).
Proof. intros Hg. exists t. by rewrite at_cpu_lookup. Qed.

Lemma this_view_at s t : this_view (at_cpu c s t) = view t.
Proof. unfold this_view. by rewrite at_cpu_lookup. Qed.

Lemma cv_view_at s t : cv_view (at_cpu c s t) = view t.
Proof. apply this_view_at. Qed.

(** The cpu with another interrupt flag and counter. *)
Definition with_if (b : bool) (t : cpu) : cpu := set_view (mk_view b (preempt_count t) (sched_running t) (gs t)) t.
Definition with_count (n : Z) (t : cpu) : cpu := set_view (mk_view (IF t) n (sched_running t) (gs t)) t.
Definition with_call (f : frame) (t : cpu) : cpu := set_live (f :: live t) t.

Lemma set_preempt_at s t n : set_preempt (v_if (view t)) n (at_cpu c s t) = at_cpu c s (with_count n t).
Proof.
  unfold set_preempt. simpl. rewrite this_view_at. unfold put_view. rewrite at_cpu_lookup, at_cpu_twice. done.
Qed.

Lemma flag_at s t : interrupts_enabled (at_cpu c s t) = Ok (IF t, at_cpu c s t).
Proof. simpl. by erewrite bind_ok by apply get_cpu_at. Qed.

Lemma set_flag_at s t b : cpu_set_interrupt_flag b (at_cpu c s t) = Ok (tt, at_cpu c s (with_if b t)).
Proof. apply update_cpu_at. Qed.

Lemma preemptible_at s t : gs t <> 0 -> preemptible (at_cpu c s t) = Ok ((preempt_count t =? 0) && IF t, at_cpu c s t).
Proof. intros Hg. rewrite preemptible_run by by apply vars_ok_at. simpl. by rewrite this_view_at. Qed.

Lemma disable_at s t : gs t <> 0 -> 0 <= preempt_count t < 2 ^ 32 - 1 ->
  Percpu.preempt_disable (at_cpu c s t) = Ok (tt, at_cpu c s (with_count (preempt_count t + 1) t)).
Proof.
  intros Hg Hc. rewrite preempt_disable_run by by apply vars_ok_at. rewrite cv_view_at.
  change (v_count (view t)) with (preempt_count t). rewrite u32_id by lia. by rewrite set_preempt_at.
Qed.

Lemma read_var_at {A} (f : cpu -> A) s t : gs t <> 0 -> IF t = false \/ preempt_count t <> 0 ->
  read_var c f (at_cpu c s t) = Ok (f t, at_cpu c s t).
Proof.
  intros Hg Hp. unfold read_var. rewrite this_cpu_var_run; [|by apply vars_ok_at|by rewrite cv_view_at].
  by erewrite bind_ok by apply get_cpu_at.
Qed.

Lemma write_var_at f s t : gs t <> 0 -> IF t = false \/ preempt_count t <> 0 ->
  write_var c f (at_cpu c s t) = Ok (tt, at_cpu c s (f t)).
Proof.
  intros Hg Hp. unfold write_var. rewrite this_cpu_var_run; [|by apply vars_ok_at|by rewrite cv_view_at]. apply update_cpu_at.
Qed.

Definition enabled (t : cpu) : cpu :=
  let t' := with_count (preempt_count t - 1) t in if (preempt_count t =? 1) && sched_running t then with_call Schedule t' else t'.

Lemma enable_at s t : gs t <> 0 -> 0 < preempt_count t < 2 ^ 32 -> enable c (at_cpu c s t) = Ok (tt, at_cpu c s (enabled t)).
Proof.
  intros Hg Hc. unfold enable, Percpu.preempt_enable. rewrite do_preempt_enable_run; [|by apply vars_ok_at|by rewrite cv_view_at].
  rewrite cv_view_at. change (v_count (view t)) with (preempt_count t). change (v_running (view t)) with (sched_running t).
  rewrite set_preempt_at. unfold enabled. destruct (_ && _); [apply update_cpu_at|done].
Qed.

Lemma enable_no_resched_at s t : gs t <> 0 -> 0 < preempt_count t < 2 ^ 32 ->
  enable_no_resched c (at_cpu c s t) = Ok (tt, at_cpu c s (with_count (preempt_count t - 1) t)).
Proof.
  intros Hg Hc. unfold enable_no_resched, Percpu.preempt_enable_no_resched. rewrite do_preempt_enable_run; [|by apply vars_ok_at|by rewrite cv_view_at].
  rewrite cv_view_at. by rewrite set_preempt_at.
Qed.

Lemma with_count_twice m n t : with_count m (with_count n t) = with_count m t.
Proof. by destruct t. Qed.

Lemma with_count_same t : with_count (preempt_count t) t = t.
Proof. by destruct t. Qed.

Lemma with_count_back m n t : with_count m (with_count n t) = with_count m t.
Proof. by destruct t. Qed.

(** Where preemption is disabled, the current process is read and set in place. *)
Lemma get_curr_at s t : gs t <> 0 -> 0 < preempt_count t < 2 ^ 32 - 1 ->
  get_curr_proc c (at_cpu c s t) = Ok (curr_proc t, at_cpu c s t).
Proof.
  intros Hg Hc. unfold get_curr_proc, with_preempt_disabled. erewrite bind_ok by (apply disable_at; [done|lia]).
  erewrite bind_ok by (apply read_var_at; [done|right; simpl; lia]).
  change (preempt_enable (call c Schedule)) with (enable c). erewrite bind_ok by (apply enable_at; [done|simpl; lia]).
  unfold ret. unfold enabled. simpl. rewrite (proj2 (Z.eqb_neq _ 1)) by lia. simpl. rewrite with_count_twice.
  replace (preempt_count t + 1 - 1) with (preempt_count t) by lia. by rewrite with_count_same.
Qed.

Lemma set_curr_at s t p : gs t <> 0 -> 0 < preempt_count t < 2 ^ 32 - 1 ->
  set_curr_proc c p (at_cpu c s t) = Ok (tt, at_cpu c s (set_curr p t)).
Proof.
  intros Hg Hc. unfold set_curr_proc, with_preempt_disabled. erewrite bind_ok by (apply disable_at; [done|lia]).
  erewrite bind_ok by (apply write_var_at; [done|right; simpl; lia]).
  change (preempt_enable (call c Schedule)) with (enable c). erewrite bind_ok by (apply enable_at; [done|simpl; lia]).
  unfold ret. unfold enabled. simpl. rewrite (proj2 (Z.eqb_neq _ 1)) by lia. simpl.
  replace (preempt_count t + 1 - 1) with (preempt_count t) by lia. by destruct t.
Qed.

Lemma rd_proc_at s t a p : procs s !! a = Some p -> rd_proc a (at_cpu c s t) = Ok (p, at_cpu c s t).
Proof. intros Hp. unfold rd_proc. simpl. by rewrite Hp. Qed.

Lemma update_proc_at s t a p f : procs s !! a = Some p ->
  update_proc a f (at_cpu c s t) = Ok (tt, at_cpu c (set_procs (<[a := f p]> (procs s)) s) t).
Proof. intros Hp. unfold update_proc. by erewrite bind_ok by by apply rd_proc_at. Qed.

Lemma pick_at s t : ts_pick_next_proc (at_cpu c s t) =
  match RUNQUEUE s with [] => Ok (NO_PROC, at_cpu c s t) | p :: q => Ok (p, at_cpu c (set_RUNQUEUE q s) t) end.
Proof. unfold ts_pick_next_proc, bind, gets. simpl. by destruct (RUNQUEUE s). Qed.

Lemma enqueue_at s t p : ts_enqueue_proc p (at_cpu c s t) = Ok (tt, at_cpu c (set_RUNQUEUE (RUNQUEUE s ++ [p]) s) t).
Proof. done. Qed.

End Run.

(** ** The invariant *)

(** How often an activation has disabled preemption. *)
Definition held (f : frame) : Z :=
  match f with
  | Code n => n
  | ScheduleDecide | SchedulePick | ScheduleNext _ | ScheduleEnable | EnqueueProc _ | DequeueProc _ | EnablePreempt => 1
  | _ => 0
  end.

Fixpoint holds (l : list frame) : Z := match l with [] => 0 | f :: l' => held f + holds l' end.

(** The interrupt flag that an activation relies on, and the one it leaves. *)
Definition relies (f : frame) : option bool :=
  match f with
  | ScheduleChecked | ScheduleDecide | SchedulePick | ScheduleNext _ | ScheduleEnable | ScheduleEnd | TickBody | TickExit => Some true
  | TickEntry | UpdateCurr _ _ | UpdateEnd _ => Some false
  | _ => None
  end.

Definition leaves (f : frame) (b : bool) : bool :=
  match f with UpdateCurr irqs _ | UpdateEnd irqs => irqs | TickEntry => true | _ => b end.

(** [schedule] goes on only where preemption is enabled. *)
Definition preemptive (f : frame) : bool :=
  match f with ScheduleChecked | ScheduleDecide | SchedulePick | ScheduleNext _ | ScheduleEnable | ScheduleEnd => true | _ => false end.

Fixpoint flags_ok (b : bool) (l : list frame) : Prop :=
  match l with
  | [] => True
  | f :: l' => (forall v, relies f = Some v -> b = v) /\ (preemptive f = true -> holds l' = 0) /\ flags_ok (leaves f b) l'
  end.

(** The processes that an activation is about to run or to enqueue. *)
Definition waiting (f : frame) : list Z := match f with ScheduleNext p | EnqueueProc p => [p] | _ => [] end.

Definition runnable (s : machine) (p : Z) : Prop := exists x, procs s !! p = Some x /\ state_flags x = PROC_RUNNABLE.

(** The processes of a cpu, but for its idle process. *)
Definition of_cpu (t : cpu) : list Z :=
  filter (fun p => p <> 0 /\ p <> idle_proc t)
    (on t :: match switching t with Some (prev, _) => [prev] | None => [] end ++ flat_map waiting (live t)).

Definition all_of (m : gmap Z cpu) : list Z := flat_map of_cpu (map_to_list m).*2.

(** All places where processes are. *)
Definition places (s : machine) : list Z := RUNQUEUE s ++ all_of (cpus s).

Section Invariant.
Context (ids : gset Z) (idle : Z -> Z).

Definition not_idle (p : Z) : Prop := forall c, c ∈ ids -> idle c <> p.

(** The activations of the process [a] that are not its code. *)
Definition frame_of (a : Z) (f : frame) : Prop :=
  match f with
  | Code _ => False
  | UpdateCurr _ p => p = a /\ a <> 0
  | ExitProc p _ => p = a /\ a <> 0 /\ not_idle a
  | EnqueueProc p => p <> 0 /\ not_idle p
  | ScheduleNext p => p <> 0
  | _ => True
  end.

(** The depth of a kernel stack. *)
Definition DEPTH : Z := 4096.

Definition stack_ok (a : Z) (l : list frame) : Prop :=
  exists fs n, l = fs ++ [Code n] /\ 0 <= n < 2 ^ 31 /\ Forall (frame_of a) fs /\ Z.of_nat (length fs) <= DEPTH + 4.

Definition saved_ok (a : Z) (l : list frame) : Prop := stack_ok a l /\ holds l = 0 /\ flags_ok true l.

Definition mode_ok (s : machine) (t : cpu) : Prop :=
  match switching t with
  | None => preempt_count t = holds (live t) /\ flags_ok (IF t) (live t)
  | Some (prev, irqs) =>
      preempt_count t = 1 /\ IF t = false /\ irqs = true /\ holds (live t) = 0 /\ flags_ok true (live t) /\ on t <> 0 /\
      (prev = 0 \/ is_Some (procs s !! prev))
  end.

Definition context_ok (s : machine) (t : cpu) : Prop :=
  on t <> 0 -> exists p, procs s !! on t = Some p /\
    cr3 t = addr_space p /\ (is_kernel_proc p = false -> esp0 t = kernel_stack p).

Record cpu_ok (s : machine) (c : Z) (t : cpu) : Prop := {
  c_gs : gs t <> 0;
  c_idle : idle_proc t = idle c;
  c_curr : curr_proc t = on t;
  c_context : context_ok s t;
  c_stack : stack_ok (on t) (live t);
  c_mode : mode_ok s t;
  c_next : forall p, p ∈ flat_map waiting (live t) -> runnable s p }.

Definition place_ok (s : machine) (p : Z) : Prop := p <> 0 /\ p <> NO_PROC /\ not_idle p /\ is_Some (procs s !! p).

Record Inv (s : machine) : Prop := {
  v_sched : SCHEDULER s = true;
  v_ids : dom (cpus s) = ids;
  v_idle : forall c, c ∈ ids -> runnable s (idle c) /\ idle c <> 0;
  v_cpu : forall c t, cpus s !! c = Some t -> cpu_ok s c t;
  v_saved : forall a x, procs s !! a = Some x -> saved_ok a (saved x);
  v_places : NoDup (places s);
  v_place : forall p, p ∈ places s -> place_ok s p;
  v_queue : forall p, p ∈ RUNQUEUE s -> runnable s p }.

(** What a step of the cpu [c] preserves beyond the invariant: no process that
    can run is lost, but one that is dequeued; and the stack of a process that is
    not running stays as it is until the process runs again, on that stack. *)
Definition dequeues (c : Z) (s : machine) (p : Z) : Prop := exists t k, cpus s !! c = Some t /\ live t = DequeueProc p :: k.

Record moves (c : Z) (s s' : machine) : Prop := {
  m_keep : forall p, p ∈ places s -> runnable s' p -> p ∈ places s' \/ dequeues c s p;
  m_stack : forall a x, procs s !! a = Some x -> (forall d t, cpus s !! d = Some t -> on t <> a) ->
    exists x', procs s' !! a = Some x' /\ saved x' = saved x /\ forall d t, cpus s' !! d = Some t -> on t = a -> live t = saved x }.

Lemma moves_refl c s : moves c s s.
Proof.
  split; [by left|]. intros a x Hx Hno. exists x. split_and!; try done. intros d t Ht E. by destruct (Hno d t Ht).
Qed.

(** ** Places *)

Lemma all_of_lookup m c t : m !! c = Some t -> all_of m ≡ₚ of_cpu t ++ all_of (delete c m).
Proof.
  intros Ht. unfold all_of. rewrite <- (insert_delete_id m c t Ht) at 1. rewrite map_to_list_insert by by rewrite lookup_delete_eq. done.
Qed.

Lemma places_lookup s c t : cpus s !! c = Some t -> places s ≡ₚ RUNQUEUE s ++ of_cpu t ++ all_of (delete c (cpus s)).
Proof. intros Ht. unfold places. by rewrite (all_of_lookup _ c t Ht). Qed.

Lemma places_at c s t : places (at_cpu c s t) ≡ₚ RUNQUEUE s ++ of_cpu t ++ all_of (delete c (cpus s)).
Proof. rewrite (places_lookup _ c t) by apply at_cpu_lookup. simpl. by rewrite delete_insert_eq. Qed.

Lemma in_all_of m p c t : m !! c = Some t -> p ∈ of_cpu t -> p ∈ all_of m.
Proof. intros Ht Hp. rewrite (all_of_lookup m c t Ht). apply elem_of_app. by left. Qed.

(** ** Stacks *)

Lemma stack_goto a f g l : stack_ok a (f :: l) -> frame_of a f -> frame_of a g -> stack_ok a (g :: l).
Proof.
  intros (fs & n & E & Hn & Hf & Hl) Hnf Hg. destruct fs as [|f' fs]; [injection E as -> ->; done|]. injection E as -> ->.
  exists (g :: fs), n. apply Forall_cons in Hf as [_ Hf]. split; [done|]. split; [done|]. split; [by constructor|exact Hl].
Qed.

Lemma stack_call a g l : stack_ok a l -> frame_of a g -> Z.of_nat (length l) <= DEPTH + 2 -> stack_ok a (g :: l).
Proof.
  intros (fs & n & -> & Hn & Hf & Hl) Hg Hd. exists (g :: fs), n. split; [done|]. split; [done|]. split; [by constructor|].
  rewrite length_app in Hd. simpl in *. lia.
Qed.

Lemma stack_return a f l : stack_ok a (f :: l) -> frame_of a f -> stack_ok a l.
Proof.
  intros (fs & n & E & Hn & Hf & Hl) Hnf. destruct fs as [|f' fs]; [injection E as -> ->; done|]. injection E as -> ->.
  exists fs, n. apply Forall_cons in Hf as [_ Hf]. simpl in Hl. split_and!; try done; lia.
Qed.

Lemma stack_code a n l : stack_ok a (Code n :: l) -> l = [] /\ 0 <= n < 2 ^ 31.
Proof.
  intros (fs & m & E & Hn & Hf & _). destruct fs as [|f fs]; [by injection E as -> ->|]. injection E as <- ->. by apply Forall_cons in Hf as [[] _].
Qed.

Lemma stack_set_code a n m : 0 <= m < 2 ^ 31 -> stack_ok a [Code n] -> stack_ok a [Code m].
Proof. intros Hm _. exists [], m. unfold DEPTH. split_and!; try done; simpl; lia. Qed.

Lemma held_nonneg a fs : Forall (frame_of a) fs -> 0 <= holds fs <= Z.of_nat (length fs).
Proof. induction 1 as [|f fs Hf _ IH]; simpl; [lia|]. assert (0 <= held f <= 1) by (destruct f; simpl in *; done || lia). lia. Qed.

Lemma holds_app l k : holds (l ++ k) = holds l + holds k.
Proof. induction l as [|f l IH]; simpl; lia. Qed.

Lemma stack_holds a l : stack_ok a l -> 0 <= holds l < 2 ^ 31 + 4200.
Proof.
  intros (fs & n & -> & Hn & Hf & Hl). rewrite holds_app. pose proof (held_nonneg a fs Hf). unfold DEPTH in Hl. simpl. lia.
Qed.

Lemma stack_holds_tail a f l : stack_ok a (f :: l) -> frame_of a f -> 0 <= holds l.
Proof. intros Hs Hf. eapply stack_holds, stack_return; eauto. Qed.

(** A stack without calls to [preempt_disable] has no process in its hands. *)
Lemma saved_waiting a l : stack_ok a l -> holds l = 0 -> flat_map waiting l = [].
Proof.
  intros (fs & n & -> & Hn & Hf & _). rewrite holds_app. simpl. pose proof (held_nonneg a fs Hf). intros Hz. assert (Hz' : holds fs = 0) by lia. clear Hz.
  rewrite flat_map_app. simpl. rewrite app_nil_r. induction Hf as [|f fs Hff Hfs IH]; [done|]. simpl in *. pose proof (held_nonneg a fs Hfs) as Hb.
  assert (0 <= held f) by (destruct f; simpl in *; done || lia). destruct f; simpl in *; try lia; try (apply IH; lia).
Qed.

(** ** Steps *)

Section Step.
Context (s : machine) (c : Z) (t t' : cpu) (q' : list Z) (P' : gmap Z proc).
Hypothesis HI : Inv s.
Hypothesis Ht : cpus s !! c = Some t.

Abbreviation s' := (at_cpu c (set_RUNQUEUE q' (set_procs P' s)) t').

(** What a step may do to the processes. *)
Definition procs_step : Prop :=
  (forall a x, procs s !! a = Some x -> exists x', P' !! a = Some x' /\
    addr_space x' = addr_space x /\ is_kernel_proc x' = is_kernel_proc x /\ kernel_stack x' = kernel_stack x /\
    (saved x' = saved x \/ (a = on t /\ saved_ok a (saved x'))) /\
    (state_flags x = PROC_RUNNABLE -> state_flags x' = PROC_RUNNABLE \/ (a = on t /\ a <> 0 /\ not_idle a))) /\
  (forall a x', P' !! a = Some x' -> is_Some (procs s !! a)).

Lemma cpu_in_ids : c ∈ ids.
Proof using Ht HI. rewrite <- (v_ids s HI). by apply elem_of_dom. Qed.

Lemma on_place : on t <> 0 -> not_idle (on t) -> on t ∈ of_cpu t.
Proof using Ht HI.
  intros H0 Hni. unfold of_cpu. apply list_elem_of_filter. split; [|left]. split; [done|]. rewrite (c_idle _ _ _ (v_cpu s HI c t Ht)).
  intros E. by apply (Hni c cpu_in_ids).
Qed.

(** The current process is in no other place. *)
Lemma on_elsewhere p : on t <> 0 -> not_idle (on t) -> p ∈ RUNQUEUE s \/ p ∈ all_of (delete c (cpus s)) -> p <> on t.
Proof using Ht HI.
  intros H0 Hni Hp ->. pose proof (v_places s HI) as Hnd. rewrite (places_lookup s c t Ht) in Hnd.
  pose proof (on_place H0 Hni) as Hon. apply NoDup_app in Hnd as (_ & Hd1 & Hnd). apply NoDup_app in Hnd as (_ & Hd2 & _).
  destruct Hp as [Hp|Hp]; [by apply (Hd1 _ Hp), elem_of_app; left|by apply (Hd2 _ Hon)].
Qed.

Lemma runnable_step p : procs_step -> runnable s p -> p <> on t \/ on t = 0 \/ ~ not_idle p -> runnable s' p.
Proof.
  intros [HP _] (x & Hx & Hf) Hp. destruct (HP p x Hx) as (x' & Hx' & _ & _ & _ & _ & Hrun). exists x'. split; [done|].
  destruct (Hrun Hf) as [|(-> & H0 & Hni)]; [done|]. destruct Hp as [|[|]]; done.
Qed.

Lemma place_step p : procs_step -> place_ok s p -> place_ok s' p.
Proof. intros [HP _] (H1 & H2 & H3 & x & Hx). destruct (HP p x Hx) as (x' & Hx' & _). split_and!; try done; by exists x'. Qed.

(** The other cpus stay as they are. *)
Lemma other_cpu d u : procs_step -> d <> c -> cpus s !! d = Some u -> cpu_ok s d u -> cpu_ok s' d u.
Proof using All.
  intros HP Hd Hu [H1 H2 H3 H4 H5 H6 H7]. pose proof (proj1 HP) as HP1. split; try done.
  - intros H0. destruct (H4 H0) as (x & Hx & Hc & He). destruct (HP1 _ x Hx) as (x' & Hx' & E1 & E2 & E3 & _). exists x'.
    rewrite E1, E2, E3. done.
  - unfold mode_ok in *. destruct (switching u) as [[prev irqs]|]; [|done]. destruct H6 as (? & ? & ? & ? & ? & ? & Hp). split_and!; try done.
    destruct Hp as [|[x Hx]]; [by left|right]. destruct (HP1 _ x Hx) as (x' & Hx' & _). by exists x'.
  - intros p Hp. specialize (H7 p Hp). apply runnable_step; [done|done|]. destruct (decide (on t = 0)) as [|H0]; [by right; left|].
    destruct (decide (p = on t)) as [->|]; [|by left]. right. right. intros Hni.
    assert (Hpl : on t ∈ of_cpu u).
    { unfold of_cpu. apply list_elem_of_filter. split.
      - split; [done|]. rewrite H2. apply not_eq_sym, Hni. rewrite <- (v_ids s HI). by apply elem_of_dom.
      - right. apply elem_of_app. by right. }
    assert (Hu' : delete c (cpus s) !! d = Some u) by by rewrite lookup_delete_ne.
    by apply (on_elsewhere (on t) H0 Hni (or_intror (in_all_of _ _ d u Hu' Hpl))).
Qed.

(** A step of the cpu [c]: [new] comes into play, [dropped] goes out. *)
Lemma advance new dropped :
  procs_step -> cpu_ok s' c t' ->
  (RUNQUEUE s ++ of_cpu t ++ new) ≡ₚ (q' ++ of_cpu t' ++ dropped) ->
  (forall p, p ∈ q' -> p ∈ RUNQUEUE s \/ runnable s' p) ->
  NoDup new -> (forall p, p ∈ new -> (p ∉ places s) /\ place_ok s p) ->
  (forall p, p ∈ dropped -> ~ runnable s' p \/ dequeues c s p) ->
  on t' = on t \/ (exists x, procs s !! on t' = Some x /\ live t' = saved x) ->
  Inv s' /\ moves c s s'.
Proof using All.
  intros HP Hcpu Hpl Hq Hnew Hnew' Hdrop Hon. pose proof (proj1 HP) as HP1.
  assert (Hall : places s ++ new ≡ₚ places s' ++ dropped).
  { assert (Hsw : forall a b d n : list Z, (a ++ b ++ d) ++ n ≡ₚ (a ++ b ++ n) ++ d).
    { intros a b d n. rewrite <- !(assoc_L app). by rewrite (Permutation_app_comm d n). }
    rewrite (places_lookup s c t Ht), places_at. simpl. by rewrite Hsw, Hpl, Hsw. }
  assert (Hnd : NoDup (places s' ++ dropped)).
  { rewrite <- Hall. apply NoDup_app. split; [apply HI|]. split; [|done]. intros p Hp Hn. by destruct (Hnew' p Hn). }
  assert (Hin : forall p, p ∈ places s' -> p ∈ places s \/ p ∈ new).
  { intros p Hp. apply elem_of_app. rewrite Hall. apply elem_of_app. by left. }
  split; split.
  - apply HI.
  - simpl. rewrite dom_insert_L. pose proof cpu_in_ids. rewrite (v_ids s HI). set_solver.
  - intros d Hd. destruct (v_idle s HI d Hd) as [Hr H0]. split; [|done]. apply runnable_step; [done|done|]. right. right. intros Hni. by apply (Hni d Hd).
  - intros d u Hu. simpl in Hu. destruct (decide (d = c)) as [->|Hd]; [rewrite lookup_insert_eq in Hu; by injection Hu as <-|].
    rewrite lookup_insert_ne in Hu by done. apply other_cpu; [done|done|done|by apply HI].
  - intros a x' Hx'. simpl in Hx'. destruct (proj2 HP a x' Hx') as [x Hx]. destruct (HP1 a x Hx) as (x2 & Hx2 & _ & _ & _ & Hs & _).
    rewrite Hx' in Hx2. injection Hx2 as <-. destruct Hs as [->|[_ Hs]]; [by apply (v_saved s HI)|done].
  - by apply NoDup_app in Hnd as [? _].
  - intros p Hp. apply place_step; [done|]. destruct (Hin p Hp) as [Hold|Hn]; [by apply HI|by apply Hnew'].
  - intros p Hp. destruct (Hq p Hp) as [Hold|]; [|done]. apply runnable_step; [done|by apply HI|].
    destruct (decide (on t = 0)) as [|H0]; [by right; left|]. destruct (decide (p = on t)) as [->|]; [|by left]. right. right. intros Hni.
    by apply (on_elsewhere (on t) H0 Hni (or_introl Hold)).
  - intros p Hp Hr. assert (Hp' : p ∈ places s' ++ dropped) by (rewrite <- Hall; apply elem_of_app; by left).
    apply elem_of_app in Hp' as [|Hd]; [by left|right]. by destruct (Hdrop p Hd).
  - intros a x Hx Hno. destruct (HP1 a x Hx) as (x' & Hx' & _ & _ & _ & Hs & _). exists x'. split; [done|].
    assert (Hna : a <> on t) by (intros ->; by apply (Hno c t Ht)). split; [by destruct Hs as [|[? _]]|].
    intros d u Hu Hua. simpl in Hu. destruct (decide (d = c)) as [->|Hd].
    + rewrite lookup_insert_eq in Hu. injection Hu as <-. destruct Hon as [E|(x2 & Hx2 & El)]; [congruence|]. rewrite Hua, Hx in Hx2. by injection Hx2 as <-.
    + rewrite lookup_insert_ne in Hu by done. by destruct (Hno d u Hu).
Qed.

End Step.

(** A step that only changes the cpu itself. *)
Section Local.
Context (s : machine) (c : Z) (t : cpu).
Hypothesis HI : Inv s.
Hypothesis Ht : cpus s !! c = Some t.

Definition same_context (t t' : cpu) : Prop :=
  gs t' = gs t /\ idle_proc t' = idle_proc t /\ curr_proc t' = curr_proc t /\ on t' = on t /\ cr3 t' = cr3 t /\ esp0 t' = esp0 t.

Lemma same_procs : procs_step s t (procs s).
Proof. split; [|by eauto]. intros a x Hx. exists x. by split_and!; auto. Qed.

Lemma local_step t' :
  same_context t t' -> switching t = None -> switching t' = None ->
  stack_ok (on t) (live t') -> preempt_count t' = holds (live t') -> flags_ok (IF t') (live t') ->
  flat_map waiting (live t') = flat_map waiting (live t) ->
  Inv (at_cpu c s t') /\ moves c s (at_cpu c s t').
Proof using All.
  intros (E1 & E2 & E3 & E4 & E5 & E6) Hs Hs' Hst Hc Hf Hw. rewrite <- same_state. destruct (v_cpu s HI c t Ht) as [H1 H2 H3 H4 H5 H6 H7].
  apply (advance s c t t' (RUNQUEUE s) (procs s) HI Ht [] []); try done; [apply same_procs| | |by intros p Hp; left|constructor|by intros ? ?%elem_of_nil|by intros ? ?%elem_of_nil|by left].
  - split; [by rewrite E1|by rewrite E2|by rewrite E3, E4| | |by unfold mode_ok; rewrite Hs'|].
    + unfold context_ok. rewrite E4, E5, E6. intros H0. destruct (H4 H0) as (x & Hx & Hcx). by exists x.
    + by rewrite E4.
    + rewrite Hw. exact H7.
  - unfold of_cpu. by rewrite E2, E4, Hs, Hs', Hw.
Qed.

(** Preemption is enabled again, which may call [schedule]. *)
Lemma enabled_ok a t1 :
  stack_ok a (live t1) -> Z.of_nat (length (live t1)) <= DEPTH + 2 -> preempt_count t1 = holds (live t1) + 1 -> flags_ok (IF t1) (live t1) ->
  stack_ok a (live (enabled t1)) /\ preempt_count (enabled t1) = holds (live (enabled t1)) /\ flags_ok (IF (enabled t1)) (live (enabled t1)) /\
  flat_map waiting (live (enabled t1)) = flat_map waiting (live t1) /\ same_context t1 (enabled t1) /\ switching (enabled t1) = switching t1 /\ IF (enabled t1) = IF t1.
Proof.
  intros H1 H2 H3 H4. unfold enabled. cbv zeta. destruct (_ && _); simpl; split_and!; try done; try lia. by apply stack_call.
Qed.

Lemma enabled_step t1 :
  same_context t t1 -> switching t = None -> switching t1 = None ->
  stack_ok (on t) (live t1) -> Z.of_nat (length (live t1)) <= DEPTH + 2 -> preempt_count t1 = holds (live t1) + 1 -> flags_ok (IF t1) (live t1) ->
  flat_map waiting (live t1) = flat_map waiting (live t) ->
  Inv (at_cpu c s (enabled t1)) /\ moves c s (at_cpu c s (enabled t1)).
Proof using All.
  intros (E1 & E2 & E3 & E4 & E5 & E6) Hs Hs1 H1 H2 H3 H4 H5. destruct (enabled_ok (on t) t1 H1 H2 H3 H4) as (G1 & G2 & G3 & G4 & (F1 & F2 & F3 & F4 & F5 & F6) & G6 & _).
  apply local_step; try done; [|by rewrite G6|by rewrite G4]. split_and!; congruence.
Qed.

End Local.


End Invariant.
