(* ===== verification/SchedSteps.v ===== *)
(** * Every step keeps the invariant of the scheduler *)

From S2P Require Import Prelude Percpu Sched SchedSpec.

(** Runs the statements that change the cpu. *)
Ltac run1 :=
  match goal with |- wpx _ (bind _ _) _ _ => idtac end; first
  [ eapply wpx_bind_ok; [first
      [ apply flag_at | apply set_flag_at | apply update_cpu_at | apply get_cpu_at
      | apply preemptible_at; done
      | apply disable_at; [done|simpl; lia]
      | apply enable_at; [done|simpl; lia]
      | apply enable_no_resched_at; [done|simpl; lia]
      | apply read_var_at; [done|simpl; first [right; lia|left; done]]
      | apply write_var_at; [done|simpl; first [right; lia|left; done]]
      | apply get_curr_at; [done|simpl; lia]
      | apply set_curr_at; [done|simpl; lia] ]|]
  | apply wpx_bind, wpx_assert; [done|] ].
Ltac run := repeat run1.

(** The last statement. *)
Lemma wpx_last {A} (E : halt -> Prop) (m : M machine A) Q s0 a s1 : m s0 = Ok (a, s1) -> Q a s1 -> wpx E m Q s0.
Proof. intros Hm HQ. unfold wpx. by rewrite Hm. Qed.

(** What [sched_put_prev_proc] does with a process that is put back. *)
Definition put_back (s : machine) (t : cpu) (prev : Z) (x : proc) : list Z := if negb (prev =? idle_proc t) && proc_is_runnable x then RUNQUEUE s ++ [prev] else RUNQUEUE s.

Lemma put_prev_run c s t prev x : SCHEDULER s = true -> gs t <> 0 -> preempt_count t = 1 -> prev <> 0 -> procs s !! prev = Some x ->
  sched_put_prev_proc c prev (at_cpu c s t) = Ok (tt, at_cpu c (set_RUNQUEUE (put_back s t prev x) s) t).
Proof.
  intros Hsc Hg Hc H0 Hx. unfold sched_put_prev_proc, put_back. erewrite bind_ok by (apply disable_at; [done|simpl; lia]).
  erewrite bind_ok by (apply read_var_at; [done|right; simpl; lia]). simpl. erewrite bind_ok by done. simpl. rewrite Hsc, (proj2 (Z.eqb_neq _ 0) H0). simpl.
  assert (Hen : forall q, enable c (at_cpu c (set_RUNQUEUE q s) (with_count (preempt_count t + 1) t)) = Ok (tt, at_cpu c (set_RUNQUEUE q s) t)).
  { intros q. rewrite enable_at by (simpl; lia). unfold enabled. cbv zeta. rewrite with_count_twice. cbn [preempt_count with_count set_view v_count]. rewrite (proj2 (Z.eqb_neq _ 1)) by lia. rewrite Z.add_simpl_r. simpl andb. cbv iota. by rewrite with_count_same. }
  assert (Hq : set_RUNQUEUE (RUNQUEUE s) s = s) by by destruct s.
  destruct (prev =? idle_proc t); simpl; [erewrite bind_ok by done; erewrite bind_ok by done; by rewrite <- Hq at 1; rewrite Hen|].
  erewrite bind_ok by (erewrite bind_ok by (apply rd_proc_at; exact Hx); done). destruct (proc_is_runnable x); simpl;
    [erewrite bind_ok by apply enqueue_at; by rewrite Hen|erewrite bind_ok by done; by rewrite <- Hq at 1; rewrite Hen].
Qed.

Section Steps.
Context (ids : gset Z) (idle : Z -> Z) (c : Z) (s : machine) (t : cpu).
Hypothesis HI : Inv ids idle s.
Hypothesis Ht : cpus s !! c = Some t.
Hypothesis Hroom : Z.of_nat (length (live t)) < DEPTH.

Abbreviation stack_ok := (stack_ok ids idle).
Abbreviation cpu_ok := (cpu_ok ids idle).

(** What stops a cpu: a process that is to be dequeued is not in the queue. *)
Definition not_queued (h : halt) : Prop := h = Panic "in_runqueue(proc) && runqueue" /\ exists p, dequeues c s p /\ (p ∉ RUNQUEUE s).

Definition keeps (m : M machine unit) : Prop := wpx not_queued m (fun _ s' => Inv ids idle s' /\ moves c s s') (at_cpu c s t).

(** ** A cpu between context switches *)

Section Normal.
Context (f : frame) (k : list frame).
Hypothesis Hsw : switching t = None.
Hypothesis Hl : live t = f :: k.

Lemma normal : gs t <> 0 /\ idle_proc t = idle c /\ curr_proc t = on t /\ stack_ok (on t) (f :: k) /\
  preempt_count t = held f + holds k /\ (forall v, relies f = Some v -> IF t = v) /\ (preemptive f = true -> holds k = 0) /\ flags_ok (leaves f (IF t)) k /\ Z.of_nat (length k) < DEPTH - 1.
Proof using All.
  destruct (v_cpu _ _ s HI c t Ht) as [H1 H2 H3 _ H5 H6 _]. unfold mode_ok in H6. rewrite Hsw, Hl in H6. rewrite Hl in H5, Hroom. simpl in *. split_and!; try done; try tauto; lia.
Qed.

Lemma count_bounds : 0 <= preempt_count t < 2 ^ 32 - 2 /\ (frame_of ids idle (on t) f -> 0 <= holds k).
Proof using All.
  destruct normal as (_ & _ & _ & H & E & _). pose proof (stack_holds _ _ _ _ H) as Hb. simpl in Hb. split; [lia|]. intros Hf. by eapply stack_holds_tail.
Qed.

End Normal.

Ltac start Hsw Hl :=
  intros k Hsw Hl; destruct (normal _ _ Hsw Hl) as (Hg & Hid & Hcur & Hst & Hc & Hrel & Hpre & Hfl & Hlen); destruct (count_bounds _ _ Hsw Hl) as [Hcb Hkb];
  simpl in Hc, Hrel, Hpre, Hfl; unfold keeps.

Ltac ctx := unfold same_context; simpl; split_and!; done.

(** The end of a step that only changes the cpu. *)
Ltac local_end Hsw Hl := apply (local_step ids idle s c t); [exact HI|exact Ht|ctx|exact Hsw|exact Hsw|simpl; rewrite Hl; simpl..].
Ltac enabled_end Hsw Hl := apply (enabled_step ids idle s c t); [exact HI|exact Ht|ctx|exact Hsw|exact Hsw|simpl; rewrite Hl; simpl..].

Definition keeps_frame (f : frame) : Prop := forall k, switching t = None -> live t = f :: k -> keeps (run_frame c f).

Lemma schedule_entry : keeps_frame Schedule.
Proof using All.
  start Hsw Hl. unfold run_frame, schedule, assert_scheduler. apply wpx_bind. eapply wpx_bind_ok; [done|]. apply wpx_assert; [apply HI|].
  run. destruct (Z.eqb_spec (preempt_count t) 0) as [E|E], (IF t) eqn:Hif; simpl; (eapply wpx_last; [apply update_cpu_at|]); local_end Hsw Hl;
    rewrite ?Hif; try lia; try done; try (by eapply stack_return); try (by eapply stack_goto).
  split_and!; [by intros v [= <-]|lia|done].
Qed.

Lemma schedule_checked : keeps_frame ScheduleChecked.
Proof using All.
  start Hsw Hl. unfold run_frame, schedule. run. rewrite (Hrel true eq_refl). run. eapply wpx_last; [apply update_cpu_at|].
  local_end Hsw Hl; [by eapply stack_goto|lia|split_and!; [exact Hrel|try exact Hpre; lia|done]|done].
Qed.

Lemma schedule_decide : keeps_frame ScheduleDecide.
Proof using All.
  start Hsw Hl. specialize (Hkb I). unfold run_frame, schedule. apply wpx_bind.
  assert (Hd : exists b, curr_cpu_need_resched c (at_cpu c s t) = Ok (b, at_cpu c s t)).
  { unfold curr_cpu_need_resched. erewrite bind_ok by (apply get_curr_at; [done|lia]). rewrite Hcur. destruct (Z.eqb_spec (on t) 0) as [|H0]; [by eexists|].
    unfold cpu_is_idle. erewrite bind_ok by (erewrite bind_ok by (by rewrite at_cpu_lookup); done). simpl. destruct (_ =? _); [by eexists|].
    erewrite bind_ok by (apply read_var_at; [done|right; lia]). destruct (resched_flag t); [by eexists|].
    destruct (c_context _ _ _ _ _ (v_cpu _ _ s HI c t Ht) H0) as (p & Hp & _). erewrite bind_ok by by apply rd_proc_at. by eexists. }
  destruct Hd as [b Hd]. eapply wpx_last; [exact Hd|]. destruct b; (eapply wpx_last; [apply update_cpu_at|]); local_end Hsw Hl;
    try (by eapply stack_goto); try lia; try done; (split_and!; [exact Hrel|try exact Hpre; lia|done]).
Qed.

Lemma schedule_enable : keeps_frame ScheduleEnable.
Proof using All.
  start Hsw Hl. specialize (Hkb I). unfold run_frame, schedule. run. eapply wpx_last; [apply update_cpu_at|].
  local_end Hsw Hl; [by eapply stack_goto|lia|split_and!; [exact Hrel|try exact Hpre; lia|done]|done].
Qed.

Lemma schedule_end : keeps_frame ScheduleEnd.
Proof using All.
  start Hsw Hl. pose proof (Hrel true eq_refl) as Hif. unfold run_frame, schedule. run. rewrite Hif. run.
  rewrite (Hpre eq_refl) in Hc. rewrite Hc. simpl. run. eapply wpx_last; [apply update_cpu_at|].
  local_end Hsw Hl; [by eapply stack_return|rewrite (Hpre eq_refl); lia|done|done].
Qed.

(** The processes of a cpu whose stack has none in its hands but on top. *)
Lemma of_cpu_top f k : switching t = None -> live t = f :: k -> stack_ok (on t) (f :: k) -> frame_of ids idle (on t) f -> holds k = 0 ->
  of_cpu t = filter (fun p => p <> 0 /\ p <> idle_proc t) (on t :: waiting f).
Proof.
  intros Hsw Hl Hst Hf Hz. unfold of_cpu. rewrite Hsw, Hl. cbn [flat_map]. rewrite (saved_waiting ids idle (on t) k), app_nil_r; [done|by eapply stack_return|done].
Qed.

Lemma schedule_pick : keeps_frame SchedulePick.
Proof using All.
  start Hsw Hl. specialize (Hpre eq_refl). unfold run_frame, schedule, ts_pick_next_proc. pose proof (cpu_in_ids _ _ s c t HI Ht) as Hci.
  pose proof (of_cpu_top _ _ Hsw Hl Hst I Hpre) as Hof. destruct (v_idle _ _ s HI c Hci) as [Hir Hi0].
  assert (Hw : flat_map waiting k = []) by (eapply (saved_waiting ids idle); [by eapply stack_return|done]).
  assert (Hok : forall p q', p <> 0 -> runnable s p -> let t' := set_live (ScheduleNext p :: k) t in cpu_ok (at_cpu c (set_RUNQUEUE q' (set_procs (procs s) s)) t') c t').
  { intros p q' Hp Hr t'. destruct (v_cpu _ _ s HI c t Ht) as [G1 G2 G3 G4 G5 G6 G7]. split; try done; simpl.
    - by eapply stack_goto.
    - unfold mode_ok. simpl. rewrite Hsw. split; [lia|]. split_and!; [exact Hrel|done|done].
    - rewrite Hw. intros p' ->%list_elem_of_singleton. done. }
  pose proof (pick_at c s t) as Hpick. destruct (RUNQUEUE s) as [|p q] eqn:Eq.
  - eapply wpx_bind_ok; [exact Hpick|]. run. rewrite Z.eqb_refl. eapply wpx_last; [apply update_cpu_at|]. cbv beta. rewrite Hl. cbn [tail].
    rewrite <- (same_state s c). rewrite Eq, Hid.
    apply (advance ids idle s c t _ [] (procs s) HI Ht [] []); [apply same_procs|apply Hok; done| |by intros ? ?%elem_of_nil|constructor|by intros ? ?%elem_of_nil..|by left].
    rewrite Eq, !app_nil_r. simpl. rewrite Hof. unfold of_cpu. simpl. rewrite Hsw, Hw. simpl. rewrite !filter_cons, filter_nil, (decide_False (P := idle c <> 0 /\ idle c <> idle_proc t)); [done|].
    rewrite Hid. tauto.
  - assert (Hp : p ∈ places s) by (unfold places; rewrite Eq; left). destruct (v_place _ _ s HI p Hp) as (P0 & P1 & P2 & _).
    assert (Hrp : runnable s p) by (apply HI; rewrite Eq; left).
    eapply wpx_bind_ok; [exact Hpick|]. run. rewrite (proj2 (Z.eqb_neq _ _) P1). eapply wpx_last; [apply update_cpu_at|]. cbv beta. rewrite Hl. cbn [tail].
    replace (set_RUNQUEUE q s) with (set_RUNQUEUE q (set_procs (procs s) s)) by by destruct s.
    apply (advance ids idle s c t _ q (procs s) HI Ht [] []); [apply same_procs|apply Hok; done| |rewrite Eq; intros; left; by right|constructor|by intros ? ?%elem_of_nil..|by left].
    rewrite Eq, !app_nil_r. simpl. rewrite Hof. unfold of_cpu. simpl. rewrite Hsw, Hw. simpl. rewrite !filter_cons, filter_nil, (decide_True (P := p <> 0 /\ p <> idle_proc t)).
    + case_decide; rewrite Permutation_middle; [|done]. f_equiv. apply perm_swap.
    + split; [done|]. rewrite Hid. apply not_eq_sym, P2, Hci.
Qed.

(** The process that was picked is the current one only if it is the idle one. *)
Lemma next_is_curr next k : switching t = None -> live t = ScheduleNext next :: k -> next = on t -> next <> 0 -> next = idle_proc t.
Proof using HI Ht.
  intros Hsw Hl E H0. destruct (decide (next = idle_proc t)) as [|Hi]; [done|exfalso].
  pose proof (v_places _ _ s HI) as Hnd. rewrite (places_lookup s c t Ht) in Hnd. apply NoDup_app in Hnd as (_ & _ & Hnd). apply NoDup_app in Hnd as (Hnd & _).
  unfold of_cpu in Hnd. rewrite Hsw, Hl in Hnd. simpl in Hnd. rewrite !filter_cons, !decide_True in Hnd by (rewrite <- ?E; done). rewrite E in Hnd.
  apply NoDup_cons in Hnd as [Hnd _]. apply Hnd. left.
Qed.

(** The state after the stack was switched to that of [next]. *)
Definition switched (next : Z) (n : proc) (t : cpu) : cpu :=
  mk_cpu (saved n) next (Some (on t, IF t)) false (gs t) (addr_space n) (if is_kernel_proc n then esp0 t else kernel_stack n)
    (preempt_count t) (sched_running t) false (u64 (context_switches t + 1)) (idle_proc t) next.

Definition parked (k : list frame) (next : Z) (n : proc) : gmap Z proc :=
  let P := <[next := set_p_cpu c n]> (procs s) in
  match P !! on t with Some x => if on t =? 0 then P else <[on t := set_saved (ScheduleEnd :: k) x]> P | None => P end.

Lemma switch_run next n k :
  gs t <> 0 -> curr_proc t = on t -> preempt_count t = 1 -> live t = ScheduleNext next :: k -> next <> on t ->
  (on t <> 0 -> is_Some (procs s !! on t)) -> procs s !! next = Some n ->
  switch_to_proc c next (at_cpu c s (set_context_switches (u64 (context_switches t + 1)) (set_resched_flag false t))) =
    Ok (tt, at_cpu c (set_procs (parked k next n) s) (switched next n t)).
Proof.
  intros Hg Hcur Hc Hl Hne Hon Hn. unfold switch_to_proc.
  erewrite bind_ok by by apply preemptible_at. simpl. rewrite Hc. simpl.
  erewrite bind_ok by done. erewrite bind_ok by apply flag_at. erewrite bind_ok by apply set_flag_at.
  erewrite bind_ok by (apply get_curr_at; [done|simpl; lia]). simpl.
  erewrite bind_ok by (apply update_proc_at; exact Hn). erewrite bind_ok by (apply set_curr_at; [done|simpl; lia]).
  erewrite bind_ok by (apply rd_proc_at; simpl; apply lookup_insert_eq). simpl.
  erewrite bind_ok by apply update_cpu_at.
  assert (Hlast : forall u, live u = ScheduleNext next :: k -> forall b,
    (goto c ScheduleEnd;;; context_switch c (on t) next b) (at_cpu c (set_procs (<[next := set_p_cpu c n]> (procs s)) s) u) =
      Ok (tt, at_cpu c (set_procs (parked k next n) s) (set_switching (Some (on t, b)) (set_stack (saved n) next (set_live (ScheduleEnd :: k) u))))).
  { intros u Hu b. erewrite bind_ok by apply update_cpu_at. unfold context_switch. erewrite bind_ok by apply get_cpu_at. unfold parked. cbv zeta.
    rewrite lookup_insert_ne by done. rewrite Hu. destruct (Z.eqb_spec (on t) 0) as [E0|E0].
    - erewrite bind_ok by done. erewrite bind_ok by (apply rd_proc_at; simpl; apply lookup_insert_eq). rewrite update_cpu_at. by destruct (procs s !! on t).
    - destruct (Hon E0) as [x Hx]. rewrite Hx. simpl negb. erewrite bind_ok by (apply update_proc_at; simpl; by rewrite lookup_insert_ne).
      erewrite bind_ok by (apply rd_proc_at; simpl; rewrite lookup_insert_ne by done; apply lookup_insert_eq). by rewrite update_cpu_at. }
  rewrite Hcur. destruct (is_kernel_proc n) eqn:Ek; [erewrite bind_ok by done|erewrite bind_ok by apply update_cpu_at]; rewrite Hlast by done; unfold switched; rewrite Ek; done.
Qed.

Lemma parked_step k next n :
  procs s !! next = Some n -> next <> on t -> saved_ok ids idle (on t) (ScheduleEnd :: k) -> procs_step ids idle s t (parked k next n).
Proof.
  intros Hn Hne Hk. assert (HP : forall a x, procs s !! a = Some x -> exists x', <[next := set_p_cpu c n]> (procs s) !! a = Some x' /\
    addr_space x' = addr_space x /\ is_kernel_proc x' = is_kernel_proc x /\ kernel_stack x' = kernel_stack x /\ saved x' = saved x /\ state_flags x' = state_flags x).
  { intros a x Hx. destruct (decide (a = next)) as [->|Ha]; [|exists x; by rewrite lookup_insert_ne]. rewrite Hn in Hx. injection Hx as <-.
    exists (set_p_cpu c n). by rewrite lookup_insert_eq. }
  assert (HQ : forall a x', <[next := set_p_cpu c n]> (procs s) !! a = Some x' -> is_Some (procs s !! a)).
  { intros a x'. destruct (decide (a = next)) as [->|Ha]; [by rewrite Hn|rewrite lookup_insert_ne by done; by eauto]. }
  unfold parked. cbv zeta. destruct (<[next := set_p_cpu c n]> (procs s) !! on t) as [y|] eqn:Ey; [destruct (on t =? 0)|];
    [split; [intros a x Hx; destruct (HP a x Hx) as (x' & ? & ? & ? & ? & Es & Ef); exists x'; rewrite Ef; split_and!; auto|exact HQ]
    | |split; [intros a x Hx; destruct (HP a x Hx) as (x' & ? & ? & ? & ? & Es & Ef); exists x'; rewrite Ef; split_and!; auto|exact HQ]].
  split.
  - intros a x Hx. destruct (HP a x Hx) as (x' & Hx' & E1 & E2 & E3 & E4 & E5). destruct (decide (a = on t)) as [->|Ha].
    + rewrite Ey in Hx'. injection Hx' as ->. exists (set_saved (ScheduleEnd :: k) x'). rewrite lookup_insert_eq. simpl. rewrite E5. split_and!; auto.
    + exists x'. rewrite lookup_insert_ne by done. rewrite E5. split_and!; auto.
  - intros a x'. destruct (decide (a = on t)) as [->|Ha]; [rewrite lookup_insert_eq; intros _; by eapply HQ|rewrite lookup_insert_ne by done; apply HQ].
Qed.

Lemma schedule_next next : keeps_frame (ScheduleNext next).
Proof using All.
  start Hsw Hl. pose proof (Hrel true eq_refl) as Hif. specialize (Hpre eq_refl).
  assert (Hfn : frame_of ids idle (on t) (ScheduleNext next)).
  { destruct Hst as (fs & m & E & _ & Hf & _). destruct fs as [|g fs]; [done|]. injection E as <- _. by apply Forall_cons in Hf as [? _]. }
  pose proof (of_cpu_top _ _ Hsw Hl Hst Hfn Hpre) as Hof. assert (Hc1 : preempt_count t = 1) by lia.
  destruct (v_cpu _ _ s HI c t Ht) as [G1 G2 G3 G4 G5 G6 G7]. destruct (G7 next) as (n & Hn & Hrn); [rewrite Hl; left|].
  unfold run_frame, schedule. run. eapply wpx_bind_ok; [by apply rd_proc_at|].
  apply wpx_bind, wpx_assert; [unfold proc_is_runnable; by rewrite Hrn|]. run. rewrite Hcur. destruct (Z.eqb_spec next (on t)) as [E|E]; simpl negb; cbv iota.
  - eapply wpx_last; [apply update_cpu_at|]. cbv beta. pose proof (next_is_curr next k Hsw Hl E Hfn) as Hi.
    rewrite <- same_state. eapply (advance ids idle s c t _ (RUNQUEUE s) (procs s) HI Ht [] []); [apply same_procs| | |by left|constructor|by intros ? ?%elem_of_nil..|by left].
    + split; try done; simpl; rewrite ?Hl; [by eapply stack_goto| |].
      * unfold mode_ok. simpl. rewrite Hsw. simpl. split; [lia|]. split_and!; [exact Hrel|done|done].
      * intros p Hp. apply G7. rewrite Hl. right. exact Hp.
    + rewrite !app_nil_r. f_equiv. rewrite Hof. unfold of_cpu. simpl. rewrite Hsw, Hl. simpl.
      rewrite (saved_waiting ids idle (on t) k) by (done || by eapply stack_return). rewrite !filter_cons, filter_nil, (decide_False (P := next <> 0 /\ next <> idle_proc t)); [done|tauto].
  - run. assert (Hon : on t <> 0 -> is_Some (procs s !! on t)) by (intros H0; destruct (G4 H0) as (x & Hx & _); by exists x).
    eapply wpx_last; [apply switch_run; done|].
    replace (set_procs (parked k next n) s) with (set_RUNQUEUE (RUNQUEUE s) (set_procs (parked k next n) s)) by by destruct s.
    assert (Hso : saved_ok ids idle (on t) (ScheduleEnd :: k)).
    { split; [by eapply stack_goto|]. simpl. split; [done|]. rewrite Hif in Hfl. split_and!; try done. by intros v [= <-]. }
    pose proof (parked_step k next n Hn E Hso) as HP. destruct (v_saved _ _ s HI next n Hn) as (S1 & S2 & S3).
    eapply (advance ids idle s c t _ (RUNQUEUE s) _ HI Ht [] []); [exact HP| | |by left|constructor|by intros ? ?%elem_of_nil..|right; by exists n].
    + destruct (proj1 HP next n Hn) as (n' & Hn' & N1 & N2 & N3 & _ & _). split; try done; simpl.
      * intros _. exists n'. rewrite N1, N2, N3. split_and!; try done. simpl. by intros ->.
      * unfold mode_ok. simpl. rewrite Hif. split_and!; try done. destruct (decide (on t = 0)) as [|H0]; [by left|right]. destruct (Hon H0) as [x Hx].
        destruct (proj1 HP (on t) x Hx) as (x' & Hx' & _). by exists x'.
      * rewrite (saved_waiting ids idle next (saved n)) by done. by intros p ?%elem_of_nil.
    + rewrite !app_nil_r. f_equiv. rewrite Hof. unfold of_cpu. simpl. rewrite (saved_waiting ids idle next (saved n)) by done. simpl. rewrite !filter_cons, filter_nil.
      repeat case_decide; try done. apply perm_swap.
Qed.

(** ** The wrappers *)

Lemma frame_of_top f k : stack_ok (on t) (f :: k) -> (forall n, f <> Code n) -> frame_of ids idle (on t) f.
Proof.
  intros (fs & m & E & _ & Hf & _) Hnc. destruct fs as [|g fs]; [injection E as -> _; by destruct (Hnc m)|]. injection E as <- _. by apply Forall_cons in Hf as [? _].
Qed.

Lemma enable_preempt : keeps_frame EnablePreempt.
Proof using All.
  start Hsw Hl. specialize (Hkb I). unfold run_frame, run_wrapper. run. eapply wpx_last; [apply enable_at; [done|simpl; lia]|].
  enabled_end Hsw Hl; [by eapply stack_return|unfold DEPTH in *; lia|lia|done|done].
Qed.

Lemma update_curr irqs p : keeps_frame (UpdateCurr irqs p).
Proof using All.
  start Hsw Hl. destruct (frame_of_top _ _ Hst ltac:(done)) as [-> H0]. specialize (Hkb (conj eq_refl H0)). pose proof (Hrel false eq_refl) as Hif.
  destruct (c_context _ _ _ _ _ (v_cpu _ _ s HI c t Ht) H0) as (p & Hp & _).
  unfold run_frame, run_curr. eapply wpx_bind_ok; [by apply rd_proc_at|]. run. unfold when. destruct (negb _).
  - unfold sched_resched. run. eapply wpx_last; [apply enable_at; [done|simpl; lia]|].
    enabled_end Hsw Hl; [by eapply stack_goto|unfold DEPTH in *; simpl; lia|lia|split_and!; [exact Hrel|done|done]|done].
  - eapply wpx_last; [done|]. local_end Hsw Hl; [by eapply stack_goto|lia|split_and!; [exact Hrel|done|done]|done].
Qed.

Lemma update_end irqs : keeps_frame (UpdateEnd irqs).
Proof using All.
  start Hsw Hl. unfold run_frame, run_curr. run. eapply wpx_last; [apply update_cpu_at|].
  local_end Hsw Hl; [by eapply stack_return|lia|done|done].
Qed.

Lemma tick_entry : keeps_frame TickEntry.
Proof using All.
  start Hsw Hl. specialize (Hkb I). pose proof (Hrel false eq_refl) as Hif. unfold run_frame, sched_tick, get_callback. run. rewrite Hif. run.
  eapply wpx_last; [apply enable_at; [done|simpl; lia]|].
  enabled_end Hsw Hl; [by eapply stack_goto|unfold DEPTH in *; simpl; lia|lia|split_and!; [by intros v [= <-]|done|done]|done].
Qed.

Lemma tick_body : keeps_frame TickBody.
Proof using All.
  start Hsw Hl. specialize (Hkb I). pose proof (Hrel true eq_refl) as Hif. unfold run_frame, sched_tick, assert_scheduler, ts_tick, sched_resched.
  apply wpx_bind. eapply wpx_bind_ok; [done|]. apply wpx_assert; [apply HI|]. run. apply wpx_bind. run.
  eapply wpx_last; [apply enable_at; [done|simpl; lia]|]. unfold enabled. simpl. rewrite (proj2 (Z.eqb_neq _ 1)) by lia. simpl. run.
  eapply wpx_last; [apply update_cpu_at|]. local_end Hsw Hl; [|lia|split_and!; [by intros v [=]|done|exact Hrel|done|done]|done].
  apply stack_call; [by eapply stack_goto|done|]. unfold DEPTH in *. simpl. lia.
Qed.

Lemma tick_exit : keeps_frame TickExit.
Proof using All.
  start Hsw Hl. pose proof (Hrel true eq_refl) as Hif. unfold run_frame, sched_tick. run. eapply wpx_last; [apply set_flag_at|].
  local_end Hsw Hl; [by eapply stack_return|lia|by rewrite <- Hif|done].
Qed.

Lemma timer f k : switching t = None -> live t = f :: k -> keeps (timer_interrupt c).
Proof using All.
  revert k. start Hsw Hl. assert (Hlen' : Z.of_nat (length (f :: k)) < DEPTH) by by rewrite <- Hl. unfold timer_interrupt. run. unfold when. destruct (IF t) eqn:Hif, (sched_running t); simpl;
    try (eapply wpx_last; [done|]; local_end Hsw Hl; rewrite ?Hif; done).
  run. eapply wpx_last; [apply update_cpu_at|]. local_end Hsw Hl; [|lia|split_and!; [by intros v [= <-]|done|exact Hrel|exact Hpre|exact Hfl]|done].
  apply stack_call; [done|done|]. unfold DEPTH in *. simpl in *. lia.
Qed.

(** ** Steps that move a process *)

Lemma next_ok t' : flat_map waiting (live t') = flat_map waiting (live t) -> forall p, p ∈ flat_map waiting (live t') -> runnable s p.
Proof using HI Ht. intros ->. apply (v_cpu _ _ s HI c t Ht). Qed.

Lemma filter_top (p a : Z) (P : Z -> Prop) `{forall x, Decision (P x)} l : P p -> filter P (a :: p :: l) ≡ₚ p :: filter P (a :: l).
Proof. intros Hp. rewrite !filter_cons, (decide_True (P := P p)) by done. case_decide; [apply perm_swap|done]. Qed.

Lemma enqueue_proc p : keeps_frame (EnqueueProc p).
Proof using All.
  start Hsw Hl. pose proof (frame_of_top _ _ Hst ltac:(done)) as Hfo. specialize (Hkb Hfo). destruct Hfo as [H0 Hni]. pose proof (cpu_in_ids _ _ s c t HI Ht) as Hci.
  destruct (v_cpu _ _ s HI c t Ht) as [G1 G2 G3 G4 G5 G6 G7]. pose proof (G7 p ltac:(rewrite Hl; left)) as Hr.
  unfold run_frame, run_wrapper. eapply wpx_bind_ok; [apply enqueue_at|]. eapply wpx_last; [apply update_cpu_at|]. cbv beta. rewrite Hl. cbn [tail].
  replace (set_RUNQUEUE (RUNQUEUE s ++ [p]) s) with (set_RUNQUEUE (RUNQUEUE s ++ [p]) (set_procs (procs s) s)) by by destruct s.
  eapply (advance ids idle s c t _ _ (procs s) HI Ht [] []); [apply same_procs| | | |constructor|by intros ? ?%elem_of_nil..|by left].
  - split; try done; simpl; [by eapply stack_goto| |].
    + unfold mode_ok. simpl. rewrite Hsw. split; [lia|]. split_and!; [done|done|exact Hfl].
    + intros q Hq. apply G7. rewrite Hl. by right.
  - rewrite !app_nil_r. unfold of_cpu. simpl. rewrite Hsw, Hl. simpl. rewrite <- (assoc_L app). f_equiv. apply (filter_top p (on t)). split; [done|]. rewrite Hid. intros ->. by apply (Hni c Hci).
  - intros q [Hq|Hq%list_elem_of_singleton]%elem_of_app; [by left|right; by rewrite Hq].
Qed.

Lemma remove_first_perm p q : existsb (Z.eqb p) q = true -> q ≡ₚ p :: remove_first p q.
Proof.
  induction q as [|a q IH]; [done|]. simpl. rewrite (Z.eqb_sym a p). destruct (Z.eqb_spec p a) as [->|Hne]; [done|]. simpl. intros H. rewrite (IH H) at 1. apply perm_swap.
Qed.

Lemma dequeue_proc p : keeps_frame (DequeueProc p).
Proof using All.
  start Hsw Hl. specialize (Hkb I). assert (Hd : dequeues c s p) by (by exists t, k).
  destruct (v_cpu _ _ s HI c t Ht) as [G1 G2 G3 G4 G5 G6 G7]. unfold run_frame, run_wrapper, ts_dequeue_proc. apply wpx_bind. eapply wpx_bind_ok; [done|].
  unfold in_runqueue. simpl. destruct (existsb (Z.eqb p) (RUNQUEUE s)) eqn:E; [|split; [done|exists p; split; [done|]; intros Hin; apply (not_true_iff_false (existsb (Z.eqb p) (RUNQUEUE s))); [done|]; apply existsb_exists; exists p; by rewrite Z.eqb_refl; split; [apply list_elem_of_In|]]].
  apply wpx_bind, wpx_assert; [done|]. eapply wpx_last; [done|]. eapply wpx_last; [exact (update_cpu_at c (set_RUNQUEUE (remove_first p (RUNQUEUE s)) s) t _)|]. cbv beta. rewrite Hl. cbn [tail].
  replace (set_RUNQUEUE (remove_first p (RUNQUEUE s)) s) with (set_RUNQUEUE (remove_first p (RUNQUEUE s)) (set_procs (procs s) s)) by by destruct s.
  eapply (advance ids idle s c t _ _ (procs s) HI Ht [] [p]); [apply same_procs| | | |constructor|by intros ? ?%elem_of_nil| |by left].
  - split; try done; simpl; [by eapply stack_goto| |].
    + unfold mode_ok. simpl. rewrite Hsw. split; [lia|]. split_and!; [done|done|exact Hfl].
    + intros q Hq. apply G7. by rewrite Hl.
  - unfold of_cpu. simpl. rewrite Hsw, Hl, app_nil_r. simpl. rewrite (remove_first_perm p (RUNQUEUE s) E) at 1. simpl. rewrite (assoc_L app), <- Permutation_cons_append. done.
  - intros q Hq. left. rewrite (remove_first_perm p (RUNQUEUE s) E). by right.
  - intros q ->%list_elem_of_singleton. by right.
Qed.


(** The process in hand is not the current one. *)
Lemma waiting_not_on p : switching t = None -> p ∈ flat_map waiting (live t) -> on t <> 0 -> not_idle ids idle (on t) -> p <> on t.
Proof using HI Ht.
  intros Hsw Hp H0 Hni ->. pose proof (v_places _ _ s HI) as Hnd. rewrite (places_lookup s c t Ht) in Hnd. apply NoDup_app in Hnd as (_ & _ & Hnd). apply NoDup_app in Hnd as (Hnd & _).
  assert (Hi : on t <> idle_proc t) by (rewrite (c_idle _ _ _ _ _ (v_cpu _ _ s HI c t Ht)); apply not_eq_sym, Hni; by eapply cpu_in_ids).
  unfold of_cpu in Hnd. rewrite Hsw in Hnd. simpl in Hnd. rewrite filter_cons, decide_True in Hnd by done. apply NoDup_cons in Hnd as [Hnd _]. apply Hnd. by apply list_elem_of_filter.
Qed.

(** A change of the flags of a process that is not to run any more. *)
Lemma flags_step x x' : procs s !! on t = Some x ->
  addr_space x' = addr_space x -> is_kernel_proc x' = is_kernel_proc x -> kernel_stack x' = kernel_stack x -> saved x' = saved x ->
  on t <> 0 -> not_idle ids idle (on t) -> procs_step ids idle s t (<[on t := x']> (procs s)).
Proof.
  intros Hx E1 E2 E3 E4 H0 Hni. split.
  - intros a y Hy. destruct (decide (a = on t)) as [->|Ha].
    + rewrite Hx in Hy. injection Hy as <-. exists x'. rewrite lookup_insert_eq. split_and!; try done; [by left|by right].
    + exists y. rewrite lookup_insert_ne by done. split_and!; try done; by left.
  - intros a y. destruct (decide (a = on t)) as [->|Ha]; [by rewrite Hx|]. rewrite lookup_insert_ne by done. by eauto.
Qed.

Lemma exit_proc p code : keeps_frame (ExitProc p code).
Proof using All.
  start Hsw Hl. pose proof (frame_of_top _ _ Hst ltac:(done)) as Hfo. specialize (Hkb Hfo). destruct Hfo as (-> & H0 & Hni).
  destruct (v_cpu _ _ s HI c t Ht) as [G1 G2 G3 G4 G5 G6 G7]. destruct (G4 H0) as (x & Hx & Hcr & Hes).
  unfold run_frame, run_curr. eapply wpx_bind_ok; [by apply update_proc_at|]. eapply wpx_bind_ok; [apply rd_proc_at; apply lookup_insert_eq|].
  eapply wpx_bind_ok; [apply update_proc_at; apply lookup_insert_eq|]. eapply wpx_last; [apply update_cpu_at|]. cbv beta. simpl procs. rewrite insert_insert_eq, Hl. cbn [tail].
  set (x' := set_state_flags _ _). assert (HP : procs_step ids idle s t (<[on t := x']> (procs s))) by (by eapply flags_step).
  change (set_procs (<[on t := x']> (procs s)) (set_procs _ s)) with (set_RUNQUEUE (RUNQUEUE s) (set_procs (<[on t := x']> (procs s)) s)).
  eapply (advance ids idle s c t _ _ _ HI Ht [] []); [exact HP| | |by left|constructor|by intros ? ?%elem_of_nil..|by left].
  - split; try done; simpl; [|by eapply stack_return| |].
    + intros _. exists x'. simpl. by rewrite lookup_insert_eq.
    + unfold mode_ok. simpl. rewrite Hsw. split; [lia|]. exact Hfl.
    + intros q Hq. apply (runnable_step ids idle s c t _ _ _ q); [done|apply G7; by rewrite Hl|]. left. apply waiting_not_on; [done|by rewrite Hl|done..].
  - unfold of_cpu. simpl. by rewrite Hsw, Hl.
Qed.

(** ** The end of a context switch *)

Lemma finish_put prev : switching t = Some (prev, true) -> prev <> 0 -> keeps (finish_switch c prev true).
Proof using All.
  intros Hsw H0. destruct (v_cpu _ _ s HI c t Ht) as [G1 G2 G3 G4 G5 G6 G7]. pose proof G6 as Hm. unfold mode_ok in Hm. rewrite Hsw in Hm.
  destruct Hm as (Hc & Hif & _ & Hh & Hfl & Hon & [|[x Hx]]); [done|]. pose proof (saved_waiting _ _ _ _ G5 Hh) as Hw.
  unfold keeps, finish_switch. rewrite (proj2 (Z.eqb_neq _ 0) H0). simpl. eapply wpx_bind_ok; [eapply put_prev_run; [apply HI|done..]|]. eapply wpx_last; [apply update_cpu_at|].
  replace (set_RUNQUEUE (put_back s t prev x) s) with (set_RUNQUEUE (put_back s t prev x) (set_procs (procs s) s)) by by destruct s.
  assert (Hof : of_cpu t = filter (fun p => p <> 0 /\ p <> idle_proc t) [on t; prev]) by (unfold of_cpu; by rewrite Hsw, Hw).
  eapply (advance ids idle s c t _ _ _ HI Ht [] (if decide (prev <> idle_proc t /\ proc_is_runnable x = false) then [prev] else [])); [apply same_procs| | | |constructor|by intros ? ?%elem_of_nil| |by left].
  - split; try done. unfold mode_ok. simpl. split_and!; try done. by left.
  - rewrite Hof, app_nil_r. unfold of_cpu, put_back. simpl. rewrite Hw. simpl. rewrite !filter_cons, filter_nil. rewrite (decide_False (P := 0 <> 0 /\ _)) by tauto.
    destruct (Z.eqb_spec prev (idle_proc t)) as [E|E]; simpl.
    + rewrite (decide_False (P := prev <> 0 /\ _)) by tauto. rewrite (decide_False (P := prev <> idle_proc t /\ _)) by tauto. by rewrite app_nil_r.
    + rewrite (decide_True (P := prev <> 0 /\ _)) by done. destruct (proc_is_runnable x); [rewrite (decide_False (P := _ /\ true = false)) by (intros [_ ?]; done)|rewrite (decide_True (P := _ /\ false = false)) by done];
        rewrite ?app_nil_r, <- ?(assoc_L app); f_equiv; case_decide; simpl; try done; apply perm_swap.
  - intros p. unfold put_back. destruct (_ && _) eqn:E; [|by left]. intros [Hp|Hp%list_elem_of_singleton]%elem_of_app; [by left|right]. subst p. exists x. split; [done|].
    apply andb_true_iff in E as [_ E]. by apply Z.eqb_eq.
  - case_decide as E; [|by intros ? ?%elem_of_nil]. intros p ->%list_elem_of_singleton. left. intros (y & Hy & Hf). simpl in Hy. rewrite Hx in Hy. injection Hy as <-.
    destruct E as [_ E]. unfold proc_is_runnable in E. by rewrite Hf in E.
Qed.

Lemma finish_enable : switching t = Some (0, true) -> keeps (finish_switch c 0 true).
Proof using All.
  intros Hsw. destruct (v_cpu _ _ s HI c t Ht) as [G1 G2 G3 G4 G5 G6 G7]. pose proof G6 as Hm. unfold mode_ok in Hm. rewrite Hsw in Hm.
  destruct Hm as (Hc & Hif & _ & Hh & Hfl & Hon & _). unfold keeps, finish_switch. simpl. run. unfold when. run. eapply wpx_last; [apply update_cpu_at|].
  rewrite <- same_state. eapply (advance ids idle s c t _ _ _ HI Ht [] []); [apply same_procs| | |by left|constructor|by intros ? ?%elem_of_nil..|by left].
  - split; try done. unfold mode_ok. simpl. split; [rewrite Hc; lia|done].
  - unfold of_cpu. simpl. rewrite Hsw. simpl. rewrite !filter_cons. by rewrite (decide_False (P := 0 <> 0 /\ _)) by tauto.
Qed.

Lemma finish prev irqs : switching t = Some (prev, irqs) -> keeps (finish_switch c prev irqs).
Proof using All.
  intros Hsw. pose proof (c_mode _ _ _ _ _ (v_cpu _ _ s HI c t Ht)) as Hm. unfold mode_ok in Hm. rewrite Hsw in Hm. destruct Hm as (_ & _ & -> & _).
  destruct (decide (prev = 0)) as [->|]; [by apply finish_enable|by apply finish_put].
Qed.

(** ** The code of a process *)

(** What the callers of the scheduler guarantee: preemption is enabled as often
    as it was disabled; only a process exits, and no idle process does; a process
    that is enqueued can run and is in no other place; a cpu starts the scheduler
    once, before it runs a process, where it cannot be preempted. *)
Definition allowed (n : Z) (ch : choice) : Prop :=
  match ch with
  | Disable => n + 1 < 2 ^ 31
  | Enable => 0 < n
  | Exit _ => on t <> 0 /\ not_idle ids idle (on t)
  | Update => on t <> 0
  | Enqueue p => runnable s p /\ place_ok ids idle s p /\ (p ∉ places s)
  | Ready p => is_Some (procs s !! p)
  | Start => on t = 0 /\ (IF t = false \/ n <> 0)
  | _ => True
  end.

Definition keeps_code (ch : choice) : Prop := forall n k, switching t = None -> live t = Code n :: k -> allowed n ch -> keeps (run_code c n ch).

Ltac start_code Hsw Hl Hc Hfl Hal :=
  intros n; start Hsw Hl; intros Hal; match goal with H : stack_ok _ (Code _ :: _) |- _ => destruct (stack_code _ _ _ _ _ H) as [-> Hn] end;
  simpl in Hc, Hfl, Hal; unfold run_code.

Ltac one_code := split_and!; done.

Lemma code_schedule : keeps_code CallSchedule.
Proof using All.
  start_code Hsw Hl Hc Hfl Hal. eapply wpx_last; [apply update_cpu_at|]. local_end Hsw Hl; [|lia|one_code|done]. apply stack_call; [done|done|by unfold DEPTH].
Qed.

Lemma code_resched : keeps_code Resched.
Proof using All.
  start_code Hsw Hl Hc Hfl Hal. unfold sched_resched. run. eapply wpx_last; [apply enable_at; [done|simpl; lia]|].
  enabled_end Hsw Hl; [done|done|lia|one_code|done].
Qed.

Lemma code_disable : keeps_code Disable.
Proof using All.
  start_code Hsw Hl Hc Hfl Hal. run. eapply wpx_last; [apply update_cpu_at|]. local_end Hsw Hl; [|lia|one_code|done].
  eapply stack_set_code; [|exact Hst]. lia.
Qed.

Lemma code_enable : keeps_code Enable.
Proof using All.
  start_code Hsw Hl Hc Hfl Hal. unfold set_code, goto. run. eapply wpx_last; [apply enable_at; [done|simpl; lia]|]. enabled_end Hsw Hl; [|done|lia|one_code|done].
  eapply stack_set_code; [|exact Hst]. lia.
Qed.

Lemma code_flag b : keeps_code (SetFlag b).
Proof using All. start_code Hsw Hl Hc Hfl Hal. eapply wpx_last; [apply set_flag_at|]. local_end Hsw Hl; [done|lia|one_code|done]. Qed.

Lemma code_exit code : keeps_code (Exit code).
Proof using All.
  start_code Hsw Hl Hc Hfl Hal. unfold do_exit, with_curr, call. run. eapply wpx_last; [apply enable_at; [done|simpl; lia]|]. change (curr_proc (with_count _ t)) with (curr_proc t). rewrite Hcur.
  enabled_end Hsw Hl; [|done|lia|one_code|done]. apply stack_call; [done| |by unfold DEPTH]. simpl. tauto.
Qed.

Lemma code_update : keeps_code Update.
Proof using All.
  start_code Hsw Hl Hc Hfl Hal. unfold sched_update_curr, assert_scheduler, with_curr, call. apply wpx_bind. eapply wpx_bind_ok; [done|]. apply wpx_assert; [apply HI|].
  run. eapply wpx_last; [apply enable_at; [done|simpl; lia]|]. simpl curr_proc. rewrite Hcur.
  enabled_end Hsw Hl; [|done|lia|split_and!; try done; by intros v [= <-]|done]. apply stack_call; [done|done|by unfold DEPTH].
Qed.

Lemma code_dequeue p : keeps_code (Dequeue p).
Proof using All.
  start_code Hsw Hl Hc Hfl Hal. unfold sched_dequeue_proc, assert_scheduler. apply wpx_bind. eapply wpx_bind_ok; [done|]. apply wpx_assert; [apply HI|].
  run. eapply wpx_last; [apply update_cpu_at|]. local_end Hsw Hl; [|lia|one_code|done]. apply stack_call; [done|done|by unfold DEPTH].
Qed.

Lemma code_start : keeps_code Start.
Proof using All.
  start_code Hsw Hl Hc Hfl Hal. unfold sched_start, enable_sched_tick, goto, call. assert (Hal' : IF t = false \/ preempt_count t <> 0) by (destruct Hal as [_ [|]]; [by left|right; lia]).
  eapply wpx_bind_ok; [apply write_var_at; [done|exact Hal']|]. eapply wpx_bind_ok; [apply write_var_at; [done|exact Hal']|]. run.
  eapply wpx_last; [apply update_cpu_at|]. local_end Hsw Hl; [|lia|one_code|done]. apply stack_call; [|done|by unfold DEPTH]. eapply stack_set_code; [lia|exact Hst].
Qed.

Lemma code_enqueue p : keeps_code (Enqueue p).
Proof using All.
  start_code Hsw Hl Hc Hfl Hal. destruct Hal as ((x & Hx & Hf) & Hp & Hnp). unfold sched_enqueue_proc, assert_scheduler. apply wpx_bind. eapply wpx_bind_ok; [done|]. apply wpx_assert; [apply HI|].
  eapply wpx_bind_ok; [by apply rd_proc_at|]. apply wpx_bind, wpx_assert; [unfold proc_is_runnable; by rewrite Hf|]. run. eapply wpx_last; [apply update_cpu_at|]. cbv beta.
  destruct (v_cpu _ _ s HI c t Ht) as [G1 G2 G3 G4 G5 G6 G7]. destruct Hp as (P0 & P1 & P2 & P3). pose proof (cpu_in_ids _ _ s c t HI Ht) as Hci.
  rewrite <- same_state. eapply (advance ids idle s c t _ _ _ HI Ht [p] []); [apply same_procs| | |by left|apply NoDup_singleton| |by intros ? ?%elem_of_nil|by left].
  - split; try done; simpl; rewrite Hl.
    + apply stack_call; [done|done|by unfold DEPTH].
    + unfold mode_ok. simpl. rewrite Hsw. simpl. split; [lia|one_code].
    + intros q ->%list_elem_of_singleton. by exists x.
  - rewrite !app_nil_r. f_equiv. unfold of_cpu. simpl. rewrite Hsw, Hl. simpl. rewrite (filter_top p (on t) _ []); [by rewrite <- Permutation_cons_append|].
    split; [done|]. rewrite Hid. apply not_eq_sym, P2, Hci.
  - intros q ->%list_elem_of_singleton. by split_and!.
Qed.

Lemma code_ready p : keeps_code (Ready p).
Proof using All.
  start_code Hsw Hl Hc Hfl Hal. destruct Hal as [x Hx]. unfold ready. eapply wpx_last; [by apply update_proc_at|]. cbv beta. match goal with |- context [set_state_flags ?v x] => set (x' := set_state_flags v x) end.
  assert (HP : forall a y, procs s !! a = Some y -> exists y', <[p := x']> (procs s) !! a = Some y' /\ addr_space y' = addr_space y /\ is_kernel_proc y' = is_kernel_proc y /\
    kernel_stack y' = kernel_stack y /\ saved y' = saved y /\ (state_flags y = PROC_RUNNABLE -> state_flags y' = PROC_RUNNABLE)).
  { intros a y Hy. destruct (decide (a = p)) as [->|Ha]; [|exists y; by rewrite lookup_insert_ne]. rewrite Hx in Hy. injection Hy as <-. exists x'. rewrite lookup_insert_eq.
    split_and!; try done. simpl. by intros ->. }
  change (set_procs (<[p := x']> (procs s)) s) with (set_RUNQUEUE (RUNQUEUE s) (set_procs (<[p := x']> (procs s)) s)).
  assert (HPS : procs_step ids idle s t (<[p := x']> (procs s))).
  { split; [intros a y Hy; destruct (HP a y Hy) as (y' & ? & ? & ? & ? & ? & ?); exists y'; split_and!; auto|].
    intros a y. destruct (decide (a = p)) as [->|Ha]; [by rewrite Hx|]. rewrite lookup_insert_ne by done. by eauto. }
  eapply (advance ids idle s c t _ _ _ HI Ht [] []); [exact HPS| |done|by left|constructor|by intros ? ?%elem_of_nil..|by left].
  destruct (v_cpu _ _ s HI c t Ht) as [G1 G2 G3 G4 G5 G6 G7]. split; try done.
  - intros H0. destruct (G4 H0) as (y & Hy & E1 & E2). destruct (HP _ y Hy) as (y' & Hy' & F1 & F2 & F3 & _). exists y'. by rewrite F1, F2, F3.
  - unfold mode_ok in *. by rewrite Hsw in *.
  - rewrite Hl. by intros ? ?%elem_of_nil.
Qed.

(** ** The step of a cpu *)

Lemma frame_keeps f : keeps_frame f.
Proof using All.
  destruct f; [|apply schedule_entry|apply schedule_checked|apply schedule_decide|apply schedule_pick|apply schedule_next|apply schedule_enable|apply schedule_end
    |apply enqueue_proc|apply dequeue_proc|apply enable_preempt|apply update_curr|apply update_end|apply exit_proc|apply tick_entry|apply tick_body|apply tick_exit].
  start Hsw Hl. eapply wpx_last; [done|]. local_end Hsw Hl; [done|lia|done|done].
Qed.

Lemma code_keeps ch : keeps_code ch.
Proof using All.
  destruct ch; [| |apply code_schedule|apply code_resched|apply code_disable|apply code_enable|apply code_flag|apply code_exit|apply code_update
    |apply code_enqueue|apply code_dequeue|apply code_ready|apply code_start];
  start_code Hsw Hl Hc Hfl Hal; (eapply wpx_last; [done|]; local_end Hsw Hl; [done|lia|done|done]).
Qed.

(** A choice that the code of the cpu can make. *)
Definition valid (ch : choice) : Prop := match live t with Code n :: _ => allowed n ch | _ => True end.

Lemma sched_step_keeps ch : valid ch -> keeps (cpu_step c ch).
Proof using All.
  intros Hv. unfold keeps, cpu_step. eapply wpx_bind_ok; [apply get_cpu_at|]. destruct (switching t) as [[prev irqs]|] eqn:Hsw; [by apply finish|].
  assert (Hl : exists f k, live t = f :: k).
  { destruct (c_stack _ _ _ _ _ (v_cpu _ _ s HI c t Ht)) as (fs & n & E & _). rewrite E. destruct fs; by repeat eexists. }
  destruct Hl as (f & k & Hl). rewrite Hl.
  assert (Hs : keeps (ret tt)) by (eapply wpx_last; [done|]; rewrite at_cpu_id by done; split; [exact HI|apply moves_refl]).
  unfold valid in Hv. rewrite Hl in Hv. destruct ch; [by eapply frame_keeps|by eapply timer|destruct f; try exact Hs; by eapply code_keeps..].
Qed.

End Steps.
