(* ===== verification/SchedProps.v ===== *)
(** * What the scheduler guarantees

    The states that the cpus reach from [sched_init] by steps of any cpu in any
    order satisfy the invariant of [SchedSpec].  From it follow: no assertion
    fails but that of a process that is dequeued twice; no process runs on two
    cpus, or runs while it is in the run queue; no process is lost, and a process
    goes on where it was stopped; and processes take turns. *)

From S2P Require Import Prelude Percpu Sched SchedSpec SchedSteps.

(** ** Boot *)

Section Boot.
Context (l : list (Z * Z)).

Definition cpu_ids : gset Z := list_to_set l.*1.
Definition idle_of (c : Z) : Z := default 0 ((list_to_map l : gmap Z Z) !! c).

(** A cpu that has not started the scheduler. *)
Definition fresh_cpu (t : cpu) : Prop := gs t <> 0 /\ live t = [Code 0] /\ on t = 0 /\ switching t = None.

(** The state in which [sched_init] is called: the idle process of each cpu was
    created, and no process has run. *)
Record booted (s : machine) : Prop := {
  b_sched : SCHEDULER s = true;
  b_keys : NoDup l.*1;
  b_ids : dom (cpus s) = cpu_ids;
  b_cpu : forall c t, cpus s !! c = Some t -> fresh_cpu t;
  b_idle : forall c i, (c, i) ∈ l -> runnable s i;
  b_procs : procs s !! 0 = None /\ forall a x, procs s !! a = Some x -> saved x = [Code 0] }.

Lemma idle_of_in c i : NoDup l.*1 -> (c, i) ∈ l -> idle_of c = i.
Proof. intros Hnd Hi. unfold idle_of. by rewrite (elem_of_list_to_map_1 l c i Hnd Hi). Qed.

Definition inited (c : Z) (t : cpu) : Prop := idle_proc t = idle_of c /\ curr_proc t = 0 /\ preempt_count t = 0 /\ sched_running t = false.

Lemma init_cpus s : booted s ->
  wp (for_each l (fun x => init_cpu x.1 x.2))
    (fun _ s' => SCHEDULER s' = true /\ dom (cpus s') = cpu_ids /\ procs s' = procs s /\ forall c t, cpus s' !! c = Some t -> fresh_cpu t /\ inited c t) s.
Proof.
  intros [B1 B2 B3 B4 B5 B6].
  set (I := fun l' s' => (forall x, x ∈ l' -> x ∈ l) /\ SCHEDULER s' = true /\ dom (cpus s') = cpu_ids /\ procs s' = procs s /\
    forall c t, cpus s' !! c = Some t -> fresh_cpu t /\ (inited c t \/ c ∈ l'.*1)).
  eapply wp_mono; [apply (wp_for_each I)|].
  - split_and!; try done. intros c t Ht. split; [by eapply B4|right]. apply elem_of_dom_2 in Ht. rewrite B3 in Ht. by apply elem_of_list_to_set in Ht.
  - intros [c i] l' s' (H1 & H2 & H3 & H4 & H5). simpl. assert (Hci : (c, i) ∈ l) by (apply H1; left).
    assert (Hi : i <> 0) by (destruct (B5 c i Hci) as (x & Hx & _); intros ->; by rewrite (proj1 B6) in Hx).
    unfold init_cpu. rewrite (proj2 (Z.eqb_neq _ _) Hi).
    assert (Hc : is_Some (cpus s' !! c)) by (apply elem_of_dom; rewrite H3; apply elem_of_list_to_set, list_elem_of_fmap; by exists (c, i)).
    destruct Hc as [t Ht]. unfold wp. rewrite <- (at_cpu_id c s' t Ht), update_cpu_at. split_and!; [intros x Hx; apply H1; by right|done| |done|].
    + simpl. rewrite dom_insert_L. apply elem_of_dom_2 in Ht. set_solver.
    + intros d u. simpl. destruct (decide (d = c)) as [->|Hd].
      * rewrite lookup_insert_eq. intros [= <-]. split; [apply (H5 c t Ht)|left]. split_and!; try done. simpl. symmetry. by apply idle_of_in.
      * rewrite lookup_insert_ne by done. intros Hu. destruct (H5 d u Hu) as [? [|Hin]]; [by auto|]. split; [done|right]. by apply elem_of_cons in Hin as [->|].
  - intros _ s' (_ & H2 & H3 & H4 & H5). split_and!; try done. intros c t Ht. destruct (H5 c t Ht) as [? [|Hn]]; [done|]. by apply elem_of_nil in Hn.
Qed.

Lemma fresh_inv s : SCHEDULER s = true -> dom (cpus s) = cpu_ids -> RUNQUEUE s = [] ->
  (forall c, c ∈ cpu_ids -> runnable s (idle_of c) /\ idle_of c <> 0) -> (forall c t, cpus s !! c = Some t -> fresh_cpu t /\ inited c t) ->
  (forall a x, procs s !! a = Some x -> saved x = [Code 0]) -> Inv cpu_ids idle_of s.
Proof.
  intros H1 H2 H3 H4 H5 H6. assert (Hs : forall a, stack_ok cpu_ids idle_of a [Code 0]) by (intros a; exists [], 0; unfold DEPTH; split_and!; try done; simpl; lia).
  assert (Hp : places s = []).
  { unfold places, all_of. rewrite H3. simpl. apply elem_of_nil_inv. intros p Hp. apply list_elem_of_In, in_flat_map in Hp as (u & Hu & Hp).
    apply list_elem_of_In, list_elem_of_fmap in Hu as ([d u'] & -> & Hu). apply elem_of_map_to_list in Hu. destruct (H5 d u' Hu) as [(F1 & F2 & F3 & F4) _].
    simpl in Hp. unfold of_cpu in Hp. by rewrite F2, F3, F4 in Hp. }
  split; try done.
  - intros c t Ht. destruct (H5 c t Ht) as ((F1 & F2 & F3 & F4) & F5 & F6 & F7 & F8). split; try done; [by rewrite F3|intros Hn; by rewrite F3 in Hn|by rewrite F2| |by rewrite F2; intros ? ?%elem_of_nil].
    unfold mode_ok. rewrite F4, F2, F7. by split_and!.
  - intros a x Hx. rewrite (H6 a x Hx). split; [done|]. by split_and!.
  - rewrite Hp. constructor.
  - rewrite Hp. by intros ? ?%elem_of_nil.
  - rewrite H3. by intros ? ?%elem_of_nil.
Qed.

(** [sched_init] establishes the invariant. *)
Lemma sched_init_inv s : booted s -> wp (sched_init l) (fun _ s' => Inv cpu_ids idle_of s' /\ procs s' = procs s /\ RUNQUEUE s' = []) s.
Proof.
  intros B. unfold sched_init. apply wp_bind. eapply wp_mono; [by apply init_cpus|]. intros _ s1 (H1 & H2 & H3 & H4). unfold bind, gets, when, modify, wp. rewrite H1. simpl.
  split; [|done]. apply fresh_inv; try done; [|simpl; rewrite H3; apply B].
  intros c Hc. apply elem_of_list_to_set, list_elem_of_fmap in Hc as ([c' i] & -> & Hci). simpl. rewrite (idle_of_in c' i) by (done || apply B).
  destruct (b_idle s B c' i Hci) as (x & Hx & Hf). split; [exists x; simpl; by rewrite H3|]. intros ->. by rewrite (proj1 (b_procs s B)) in Hx.
Qed.

(** ** Runs *)

(** A step of the cpu [c], whose kernel stack has room. *)
Definition sched_step (c : Z) (ch : choice) (s s' : machine) : Prop :=
  exists t, cpus s !! c = Some t /\ Z.of_nat (length (live t)) < DEPTH /\ valid cpu_ids idle_of s t ch /\ cpu_step c ch s = Ok (tt, s').

Inductive sched_reachable : machine -> Prop :=
| sr_start s0 s : booted s0 -> sched_init l s0 = Ok (tt, s) -> sched_reachable s
| sr_step c ch s s' : sched_reachable s -> sched_step c ch s s' -> sched_reachable s'.

Lemma step_wp c ch s t : Inv cpu_ids idle_of s -> cpus s !! c = Some t -> Z.of_nat (length (live t)) < DEPTH -> valid cpu_ids idle_of s t ch ->
  wpx (not_queued c s) (cpu_step c ch) (fun _ s' => Inv cpu_ids idle_of s' /\ moves c s s') s.
Proof. intros HI Ht Hr Hv. pose proof (sched_step_keeps cpu_ids idle_of c s t HI Ht Hr ch Hv) as H. unfold keeps in H. by rewrite at_cpu_id in H. Qed.

Lemma step_inv c ch s s' : Inv cpu_ids idle_of s -> sched_step c ch s s' -> Inv cpu_ids idle_of s' /\ moves c s s'.
Proof. intros HI (t & Ht & Hr & Hv & E). pose proof (step_wp c ch s t HI Ht Hr Hv) as H. unfold wpx in H. by rewrite E in H. Qed.

Lemma sched_reachable_inv s : sched_reachable s -> Inv cpu_ids idle_of s.
Proof.
  induction 1 as [s0 s B E|c ch s s' _ IH Hs]; [|by eapply step_inv]. pose proof (sched_init_inv s0 B) as H. unfold wp in H. rewrite E in H. apply H.
Qed.

End Boot.

(** ** Safety *)

Section Safety.
Context (l : list (Z * Z)).

(** C10: every step of every cpu, from every state that the cpus reach after [sched_init], with any interleaving and timer interrupts at
    any point where interrupts are enabled, completes: no assertion of [schedule], [switch_to_proc], [preempt_enable], of the accesses to
    percpu variables or of the interrupt handler fails, and no [struct proc] is accessed that does not exist.  The one exception is the assertion of
    [ts_dequeue_proc], for a process that is not in the run queue. *)
Theorem sched_safe c ch s t :
  sched_reachable l s -> cpus s !! c = Some t -> Z.of_nat (length (live t)) < DEPTH -> valid (cpu_ids l) (idle_of l) s t ch ->
  match cpu_step c ch s with
  | Ok (_, s') => sched_reachable l s'
  | Halt h => h = Panic "in_runqueue(proc) && runqueue" /\ exists p k, live t = DequeueProc p :: k /\ (p ∉ RUNQUEUE s)
  end.
Proof.
  intros Hs Ht Hr Hv. pose proof (step_wp l c ch s t (sched_reachable_inv l s Hs) Ht Hr Hv) as H. unfold wpx in H.
  destruct (cpu_step c ch s) as [[[] s']|h] eqn:E; [by eapply sr_step; [done|]; exists t|].
  destruct H as (-> & p & (t' & k & Ht' & Hl) & Hq). rewrite Ht in Ht'. injection Ht' as <-. split; [done|]. by exists p, k.
Qed.

(** A process of a cpu is the idle process of that cpu, or of none. *)
Lemma on_cases s c t : Inv (cpu_ids l) (idle_of l) s -> cpus s !! c = Some t -> on t <> 0 ->
  on t = idle_of l c \/ (on t ∈ of_cpu t /\ not_idle (cpu_ids l) (idle_of l) (on t)).
Proof.
  intros HI Ht H0. destruct (decide (on t = idle_of l c)) as [|Hi]; [by left|right].
  assert (Hin : on t ∈ of_cpu t).
  { unfold of_cpu. apply list_elem_of_filter. split; [|left]. by rewrite (c_idle _ _ _ _ _ (v_cpu _ _ s HI c t Ht)). }
  split; [done|]. apply (v_place _ _ s HI). unfold places. apply elem_of_app. right. by eapply in_all_of.
Qed.

Lemma on_unique s c d t u : Inv (cpu_ids l) (idle_of l) s -> cpus s !! c = Some t -> cpus s !! d = Some u -> c <> d ->
  (idle_of l c <> idle_of l d) -> on t = on u -> on t = 0.
Proof.
  intros HI Ht Hu Hcd Hi E. destruct (decide (on t = 0)) as [|H0]; [done|exfalso]. pose proof H0 as H0'. rewrite E in H0'.
  pose proof (cpu_in_ids _ _ s c t HI Ht) as Hc. pose proof (cpu_in_ids _ _ s d u HI Hu) as Hd.
  destruct (on_cases s c t HI Ht H0) as [Hci|[Hin Hni]], (on_cases s d u HI Hu H0') as [Hdi|[Hin' Hni']].
  - congruence.
  - apply (Hni' c Hc). congruence.
  - apply (Hni d Hd). congruence.
  - pose proof (v_places _ _ s HI) as Hnd. rewrite (places_lookup s c t Ht) in Hnd. apply NoDup_app in Hnd as (_ & _ & Hnd). apply NoDup_app in Hnd as (_ & Hnd & _).
    apply (Hnd (on t) Hin). rewrite E. apply (in_all_of _ _ d u); [by rewrite lookup_delete_ne|done].
Qed.

(** C11: in every state that the cpus reach, the run queue has no process twice and only runnable ones; a process that runs on a cpu is not
    in the run queue and runs on no other cpu; and each cpu has the process that it runs in its [curr_proc], the address space of that process
    loaded, and for a user process its kernel stack in the TSS. *)
Theorem sched_exclusive s :
  sched_reachable l s -> (forall c d, c ∈ cpu_ids l -> d ∈ cpu_ids l -> c <> d -> idle_of l c <> idle_of l d) ->
  NoDup (RUNQUEUE s) /\ (forall p, p ∈ RUNQUEUE s -> runnable s p) /\
  (forall c t, cpus s !! c = Some t -> curr_proc t = on t /\ (on t ∉ RUNQUEUE s) /\
    (on t <> 0 -> exists x, procs s !! on t = Some x /\ cr3 t = addr_space x /\ (is_kernel_proc x = false -> esp0 t = kernel_stack x))) /\
  (forall c d t u, cpus s !! c = Some t -> cpus s !! d = Some u -> c <> d -> on t = on u -> on t = 0).
Proof.
  intros Hs%sched_reachable_inv Hi. split_and!.
  - pose proof (v_places _ _ s Hs) as Hnd. by apply NoDup_app in Hnd as [? _].
  - apply (v_queue _ _ s Hs).
  - intros c t Ht. destruct (v_cpu _ _ s Hs c t Ht) as [_ _ H3 H4 _ _ _]. split; [done|]. split; [|exact H4]. intros Hq.
    assert (Hpl : on t ∈ places s) by (apply elem_of_app; by left). destruct (v_place _ _ s Hs _ Hpl) as (H0 & _ & Hni & _).
    destruct (on_cases s c t Hs Ht H0) as [Hci|[Hin _]]; [by apply (Hni c (cpu_in_ids _ _ s c t Hs Ht))|].
    pose proof (v_places _ _ s Hs) as Hnd. apply NoDup_app in Hnd as (_ & Hnd & _). apply (Hnd _ Hq). by eapply in_all_of.
  - intros c d t u Ht Hu Hcd. apply (on_unique s c d); try done. apply Hi; [by eapply cpu_in_ids..|done].
Qed.

(** C12: no step loses a process: one that is queued, running or in the hands of a function of the scheduler is still so after the step if it can
    run, unless the step dequeues it.  And the kernel stack of a process that does not run is left alone; the cpu that resumes the process runs on that
    stack, from where the process was stopped. *)
Theorem sched_conserves c ch s s' :
  sched_reachable l s -> sched_step l c ch s s' ->
  (forall p, p ∈ places s -> runnable s' p -> p ∈ places s' \/ exists t k, cpus s !! c = Some t /\ live t = DequeueProc p :: k) /\
  (forall a x, procs s !! a = Some x -> (forall d t, cpus s !! d = Some t -> on t <> a) ->
    exists x', procs s' !! a = Some x' /\ saved x' = saved x /\ forall d t, cpus s' !! d = Some t -> on t = a -> live t = saved x).
Proof.
  intros Hs%sched_reachable_inv Hst. destruct (step_inv l c ch s s' Hs Hst) as [_ [H1 H2]]. split; [exact H1|exact H2].
Qed.

End Safety.

(** ** An example: two cpus, their idle processes and a user process *)

Section Example.

Definition ex_idles : list (Z * Z) := [(0, 0x1000); (1, 0x2000)].
Definition ex_cpu : cpu := mk_cpu [Code 0] 0 None false 0x18 0x7000 0 0 false false 0 0 0.
Definition ex_kproc : proc := mk_proc 0x7000 true PROC_RUNNABLE 0 0 0x9000 [Code 0].
Definition ex_uproc : proc := mk_proc 0x8000 false PROC_RUNNABLE 0 0 0xA000 [Code 0].
Definition ex_boot : machine :=
  mk_machine {[0 := ex_cpu; 1 := ex_cpu]} {[0x1000 := ex_kproc; 0x2000 := ex_kproc; 0x3000 := ex_uproc]} [] true.

Definition ok_or {A} (d : machine) (r : result (A * machine)) : machine := match r with Ok (_, s) => s | Halt _ => d end.

(** [n] steps of the cpu [c] that leave its stack with room. *)
Fixpoint path (c : Z) (n : nat) (s : machine) : option machine :=
  match n with
  | O => Some s
  | S n' =>
      match cpus s !! c with
      | Some t => if Z.of_nat (length (live t)) <? DEPTH then match cpu_step c Go s with Ok (_, s') => path c n' s' | Halt _ => None end else None
      | None => None
      end
  end.

Lemma path_reachable l c n s s' : sched_reachable l s -> path c n s = Some s' -> sched_reachable l s'.
Proof.
  revert s. induction n as [|n IH]; intros s Hs; simpl; [by intros [= <-]|]. destruct (cpus s !! c) as [t|] eqn:Ht; [|done].
  destruct (Z.ltb_spec (Z.of_nat (length (live t))) DEPTH) as [Hr|]; [|done]. destruct (cpu_step c Go s) as [[[] s1]|] eqn:E; [|done]. apply IH. eapply sr_step; [done|]. exists t. split_and!; try done.
  unfold valid. by destruct (live t) as [|[] ?].
Qed.

Definition ex_init : machine := ok_or ex_boot (sched_init ex_idles ex_boot).
Definition ex_enqueue : machine := ok_or ex_boot (cpu_step 0 (Enqueue 0x3000) ex_init).
Definition ex_queued : machine := default ex_boot (path 0 2 ex_enqueue).
Definition ex_start : machine := ok_or ex_boot (cpu_step 0 Start ex_queued).
Definition ex_running : machine := default ex_boot (path 0 7 ex_start).

Lemma ex_booted : booted ex_idles ex_boot.
Proof.
  split; try done.
  - unfold ex_idles. simpl. repeat constructor; set_solver.
  - intros c t. unfold ex_boot. simpl. rewrite lookup_insert_Some, lookup_singleton_Some. intros [[_ <-]|[_ [_ <-]]]; by split_and!.
  - intros c i. unfold ex_idles. rewrite !elem_of_cons, elem_of_nil. intros [[= -> ->]|[[= -> ->]|[]]]; by eexists.
  - split; [done|]. intros a x. unfold ex_boot. simpl. rewrite !lookup_insert_Some, lookup_singleton_Some. intros [[_ <-]|[_ [[_ <-]|[_ [_ <-]]]]]; done.
Qed.

Lemma ex_queued_reachable : sched_reachable ex_idles ex_queued.
Proof.
  apply (path_reachable _ 0 2 ex_enqueue); [|vm_compute; reflexivity]. apply (sr_step _ 0 (Enqueue 0x3000) ex_init).
  - apply (sr_start _ ex_boot); [apply ex_booted|vm_compute; reflexivity].
  - exists (default ex_cpu (cpus ex_init !! 0)). split_and!; [vm_compute; reflexivity|by vm_compute| |vm_compute; reflexivity].
    change (allowed (cpu_ids ex_idles) (idle_of ex_idles) ex_init (default ex_cpu (cpus ex_init !! 0)) 0 (Enqueue 0x3000)).
    split; [by exists ex_uproc|]. split; [|replace (places ex_init) with (@nil Z) by (vm_compute; reflexivity); apply not_elem_of_nil]. unfold place_ok. split_and!; [done|done| |by exists ex_uproc].
    intros c Hc. unfold cpu_ids, ex_idles in Hc. simpl in Hc. assert (c = 0 \/ c = 1) as [->| ->] by set_solver; by vm_compute.
Qed.

Lemma ex_start_step : sched_step ex_idles 0 Start ex_queued ex_start.
Proof.
  exists (default ex_cpu (cpus ex_queued !! 0)). split_and!; [vm_compute; reflexivity|by vm_compute| |vm_compute; reflexivity]. vm_compute. split; [done|by left].
Qed.

Lemma ex_running_reachable : sched_reachable ex_idles ex_running.
Proof.
  apply (path_reachable _ 0 7 ex_start); [|vm_compute; reflexivity]. apply (sr_step _ 0 Start ex_queued); [apply ex_queued_reachable|apply ex_start_step].
Qed.

Definition ex_running_cpu : cpu := default ex_cpu (cpus ex_running !! 0).

Lemma ex_running_lookup : cpus ex_running !! 0 = Some ex_running_cpu.
Proof. vm_compute. reflexivity. Qed.

Definition ex_ticked : machine := ok_or ex_boot (cpu_step 0 Timer ex_running).

Lemma ex_ticked_step : cpu_step 0 Timer ex_running = Ok (tt, ex_ticked).
Proof. vm_compute. reflexivity. Qed.

Lemma sched_safe_witness : cpu_step 0 Timer ex_running = Ok (tt, ex_ticked) /\ sched_reachable ex_idles ex_ticked.
Proof.
  split; [exact ex_ticked_step|]. pose proof (sched_safe ex_idles 0 Timer ex_running ex_running_cpu ex_running_reachable ex_running_lookup) as H.
  rewrite ex_ticked_step in H. apply H; [vm_compute; reflexivity|vm_compute; exact I].
Defined.

Lemma sched_exclusive_witness : exists t, cpus ex_running !! 0 = Some t /\ on t = 0x3000 /\ (0x3000 ∉ RUNQUEUE ex_running) /\ cr3 t = 0x8000 /\ esp0 t = 0xA000.
Proof.
  destruct (sched_exclusive ex_idles ex_running ex_running_reachable) as (_ & _ & H & _).
  { intros c d Hc Hd Hcd. unfold cpu_ids, ex_idles in Hc, Hd. simpl in Hc, Hd. assert (c = 0 \/ c = 1) as [->| ->] by set_solver; assert (d = 0 \/ d = 1) as [->| ->] by set_solver; done. }
  exists ex_running_cpu. destruct (H 0 ex_running_cpu ex_running_lookup) as (_ & Hq & _).
  assert (E : on ex_running_cpu = 0x3000) by (vm_compute; reflexivity). rewrite E in Hq. split; [apply ex_running_lookup|]. split; [exact E|]. split; [exact Hq|]. split; vm_compute; reflexivity.
Defined.

Lemma sched_conserves_witness : 0x3000 ∈ places ex_start.
Proof.
  destruct (sched_conserves ex_idles 0 Start ex_queued ex_start ex_queued_reachable ex_start_step) as [H _].
  destruct (H 0x3000) as [|(t & k & Ht & Hl)]; [|by exists ex_uproc|done|].
  - replace (places ex_queued) with [0x3000] by (vm_compute; reflexivity). left.
  - revert Ht. vm_compute. intros [= <-]. by vm_compute in Hl.
Defined.

End Example.
