(* ===== verification/SchedTurns.v ===== *)
(** * Processes take turns

    On a cpu that runs only its processes and the timer, a tick of the timer gives
    the cpu to the process at the head of the run queue and puts the one that ran
    at the end of it: [n] ticks rotate the processes [n] times. *)

From S2P Require Import Prelude Percpu Sched SchedSpec SchedSteps.

(** [n] steps of the activation on top. *)
Fixpoint go (c : Z) (n : nat) : M machine unit :=
  match n with O => ret tt | S n' => cpu_step c Go;;; go c n' end.

#[local] Arguments go : simpl never.

(** A tick: the timer interrupt, and what the cpu does until it runs the code of a
    process again. *)
Definition quantum (c : Z) : M machine unit := cpu_step c Timer;;; go c 17.

Fixpoint quanta (c : Z) (n : nat) : M machine unit :=
  match n with O => ret tt | S n' => quantum c;;; quanta c n' end.

(** The stack of a process that did not run yet, or that a tick preempted. *)
Definition preempted (k : list frame) : Prop := k = [Code 0] \/ k = [ScheduleEnd; TickExit; Code 0].

(** The cpu [c] runs the code of [a], and [q] is the run queue. *)
Record turn (c : Z) (s : machine) (a : Z) (q : list Z) : Prop := {
  t_sched : SCHEDULER s = true;
  t_queue : RUNQUEUE s = q;
  t_cpu : exists t, cpus s !! c = Some t /\ gs t <> 0 /\ live t = [Code 0] /\ on t = a /\ curr_proc t = a /\ switching t = None /\
    preempt_count t = 0 /\ IF t = true /\ sched_running t = true /\ resched_flag t = false /\ idle_proc t ∉ a :: q;
  t_procs : forall p, p ∈ a :: q -> p <> 0 /\ p <> NO_PROC /\ exists x, procs s !! p = Some x /\ state_flags x = PROC_RUNNABLE /\ (p ∈ q -> preempted (saved x));
  t_nodup : NoDup (a :: q) }.

Section Turn.
Context (E : halt -> Prop) (c : Z).

Lemma wpx_go n Q s t f k : switching t = None -> live t = f :: k ->
  wpx E (run_frame c f) (fun _ => wpx E (go c n) Q) (at_cpu c s t) -> wpx E (go c (S n)) Q (at_cpu c s t).
Proof.
  intros Hsw Hl H. cbn [go]. apply wpx_bind. unfold cpu_step. eapply wpx_bind_ok; [apply get_cpu_at|]. by rewrite Hsw, Hl.
Qed.

Lemma wpx_finish n Q s t prev irqs : switching t = Some (prev, irqs) ->
  wpx E (finish_switch c prev irqs) (fun _ => wpx E (go c n) Q) (at_cpu c s t) -> wpx E (go c (S n)) Q (at_cpu c s t).
Proof. intros Hsw H. cbn [go]. apply wpx_bind. unfold cpu_step. eapply wpx_bind_ok; [apply get_cpu_at|]. by rewrite Hsw. Qed.

(** The cpu with the given activations, flag, counter and [resched_flag]. *)
Definition cpu_at (t : cpu) (l : list frame) (i : bool) (n : Z) (r : bool) : cpu :=
  mk_cpu l (on t) (switching t) i (gs t) (cr3 t) (esp0 t) n (sched_running t) r (context_switches t) (idle_proc t) (curr_proc t).

Context (s : machine) (t : cpu).
Hypothesis Hg : gs t <> 0.
Hypothesis Hsw : switching t = None.
Hypothesis Hr : sched_running t = true.
Hypothesis Hs : SCHEDULER s = true.

Ltac frame := eapply wpx_go; [exact Hsw|reflexivity|]; unfold run_frame.

(** [schedule] up to the decision. *)
Lemma turn_enter n Q k r : 
  wpx E (go c n) Q (at_cpu c s (cpu_at t (ScheduleDecide :: k) true 1 r)) ->
  wpx E (go c (2 + n)) Q (at_cpu c s (cpu_at t (Schedule :: k) true 0 r)).
Proof using Hg Hsw Hs.
  intros H. frame. unfold schedule, assert_scheduler. apply wpx_bind. eapply wpx_bind_ok; [done|]. apply wpx_assert; [done|].
  run. simpl. eapply wpx_last; [apply update_cpu_at|]. simpl.
  eapply (wpx_go n Q s (cpu_at t (ScheduleChecked :: k) true 0 r)); [exact Hsw|reflexivity|]. unfold run_frame, schedule. run. eapply wpx_last; [apply update_cpu_at|]. exact H.
Qed.

(** The current process goes on. *)
Lemma turn_stay n Q k x : on t <> 0 -> curr_proc t = on t -> on t <> idle_proc t -> procs s !! on t = Some x -> state_flags x = PROC_RUNNABLE ->
  wpx E (go c n) Q (at_cpu c s (cpu_at t k true 0 false)) ->
  wpx E (go c (3 + n)) Q (at_cpu c s (cpu_at t (ScheduleDecide :: k) true 1 false)).
Proof using Hg Hsw.
  intros H0 Hcur Hi Hx Hf H. frame. unfold schedule, curr_cpu_need_resched. apply wpx_bind.
  run. simpl. rewrite Hcur, (proj2 (Z.eqb_neq _ _) H0). unfold cpu_is_idle. eapply wpx_bind_ok; [erewrite bind_ok by (by rewrite at_cpu_lookup); done|]. simpl.
  rewrite Hcur, (proj2 (Z.eqb_neq _ _) Hi). run. simpl. eapply wpx_bind_ok; [by apply rd_proc_at|]. eapply wpx_last; [done|]. unfold proc_is_runnable. rewrite Hf. simpl.
  eapply wpx_last; [apply update_cpu_at|]. simpl.
  eapply (wpx_go _ Q s (cpu_at t (ScheduleEnable :: k) true 1 false)); [exact Hsw|reflexivity|]. unfold run_frame, schedule. run. eapply wpx_last; [apply update_cpu_at|]. simpl.
  eapply (wpx_go _ Q s (cpu_at t (ScheduleEnd :: k) true 0 false)); [exact Hsw|reflexivity|]. unfold run_frame, schedule. run. simpl. run. eapply wpx_last; [apply update_cpu_at|]. exact H.
Qed.

(** The cpu goes to the process [p] at the head of the queue. *)
Definition next_cpu (p : Z) (x : proc) : cpu :=
  mk_cpu (saved x) p None true (gs t) (addr_space x) (if is_kernel_proc x then esp0 t else kernel_stack x) 0 (sched_running t) false (u64 (context_switches t + 1)) (idle_proc t) p.

Definition next_state (k : list frame) (p : Z) (q : list Z) (x : proc) : machine := set_RUNQUEUE (q ++ [on t]) (set_procs (parked c s t k p x) s).

Lemma turn_decide n Q k : on t <> 0 -> curr_proc t = on t -> on t <> idle_proc t ->
  wpx E (go c n) Q (at_cpu c s (cpu_at t (SchedulePick :: k) true 1 true)) ->
  wpx E (go c (1 + n)) Q (at_cpu c s (cpu_at t (ScheduleDecide :: k) true 1 true)).
Proof using Hg Hsw.
  intros H0 Hcur Hi H. frame. unfold schedule, curr_cpu_need_resched. apply wpx_bind.
  run. simpl. rewrite Hcur, (proj2 (Z.eqb_neq _ _) H0). unfold cpu_is_idle. eapply wpx_bind_ok; [erewrite bind_ok by (by rewrite at_cpu_lookup); done|]. simpl.
  rewrite Hcur, (proj2 (Z.eqb_neq _ _) Hi). run. simpl. eapply wpx_last; [done|]. eapply wpx_last; [apply update_cpu_at|]. exact H.
Qed.

Lemma turn_pick n Q k p q : RUNQUEUE s = p :: q -> p <> NO_PROC -> on t <> 0 -> curr_proc t = on t -> on t <> idle_proc t ->
  wpx E (go c n) Q (at_cpu c (set_RUNQUEUE q s) (cpu_at t (ScheduleNext p :: k) true 1 true)) ->
  wpx E (go c (2 + n)) Q (at_cpu c s (cpu_at t (ScheduleDecide :: k) true 1 true)).
Proof using Hg Hsw.
  intros Hq Hp H0 Hcur Hi H. apply turn_decide; try done.
  eapply (wpx_go _ Q s (cpu_at t (SchedulePick :: k) true 1 true)); [exact Hsw|reflexivity|]. unfold run_frame, schedule.
  eapply wpx_bind_ok; [rewrite pick_at, Hq; reflexivity|]. run. rewrite (proj2 (Z.eqb_neq _ _) Hp). eapply wpx_last; [apply update_cpu_at|]. exact H.
Qed.

Lemma turn_pick_idle n Q k : RUNQUEUE s = [] -> on t <> 0 -> curr_proc t = on t -> on t <> idle_proc t ->
  wpx E (go c n) Q (at_cpu c s (cpu_at t (ScheduleNext (idle_proc t) :: k) true 1 true)) ->
  wpx E (go c (2 + n)) Q (at_cpu c s (cpu_at t (ScheduleDecide :: k) true 1 true)).
Proof using Hg Hsw.
  intros Hq H0 Hcur Hi H. apply turn_decide; try done.
  eapply (wpx_go _ Q s (cpu_at t (SchedulePick :: k) true 1 true)); [exact Hsw|reflexivity|]. unfold run_frame, schedule.
  eapply wpx_bind_ok; [rewrite pick_at, Hq; reflexivity|]. run. rewrite Z.eqb_refl. eapply wpx_last; [apply update_cpu_at|]. exact H.
Qed.

Lemma turn_switch n Q k p q x y : RUNQUEUE s = q -> p <> 0 -> p <> on t -> on t <> 0 -> curr_proc t = on t -> on t <> idle_proc t ->
  procs s !! p = Some x -> state_flags x = PROC_RUNNABLE -> procs s !! on t = Some y -> state_flags y = PROC_RUNNABLE ->
  wpx E (go c n) Q (at_cpu c (next_state k p q x) (next_cpu p x)) ->
  wpx E (go c (3 + n)) Q (at_cpu c s (cpu_at t (ScheduleNext p :: k) true 1 true)).
Proof using Hg Hsw Hs.
  intros Hq Hp0 Hne H0 Hcur Hi Hx Hfx Hy Hfy H. set (u := cpu_at t (ScheduleNext p :: k) true 1 true).
  frame. unfold schedule. run. eapply wpx_bind_ok; [by apply rd_proc_at|]. apply wpx_bind, wpx_assert; [unfold proc_is_runnable; by rewrite Hfx|]. run. simpl. rewrite Hcur, (proj2 (Z.eqb_neq _ _) Hne). simpl. run.
  eapply wpx_last; [apply (switch_run c s u p x k); done|]. unfold switched. change (parked c s u k p x) with (parked c s t k p x). simpl.
  eapply wpx_finish; [reflexivity|]. unfold finish_switch. rewrite (proj2 (Z.eqb_neq _ _) H0). simpl.
  assert (Hpk : parked c s t k p x !! on t = Some (set_saved (ScheduleEnd :: k) y)).
  { unfold parked. cbv zeta. rewrite lookup_insert_ne by done. rewrite Hy, (proj2 (Z.eqb_neq _ _) H0). apply lookup_insert_eq. }
  eapply wpx_bind_ok; [eapply put_prev_run; [done|done|done|done|exact Hpk]|]. eapply wpx_last; [apply update_cpu_at|].
  unfold put_back, proc_is_runnable. simpl. rewrite Hfy, (proj2 (Z.eqb_neq _ _) Hi). simpl. rewrite Hq.
  eapply wpx_finish; [reflexivity|]. unfold finish_switch. simpl. run. unfold when. run. eapply wpx_last; [apply update_cpu_at|]. exact H.
Qed.

(** The interrupt, up to the request to reschedule. *)
Lemma turn_tick n Q f k r :
  wpx E (go c n) Q (at_cpu c s (cpu_at t (Schedule :: TickBody :: f :: k) true 0 r)) ->
  wpx E (cpu_step c Timer;;; go c (1 + n)) Q (at_cpu c s (cpu_at t (f :: k) true 0 r)).
Proof using Hg Hsw Hr.
  intros H. apply wpx_bind. unfold cpu_step at 1. eapply wpx_bind_ok; [apply get_cpu_at|]. simpl. rewrite Hsw. unfold timer_interrupt. run. simpl. rewrite Hr. unfold when. run.
  eapply wpx_last; [apply update_cpu_at|]. simpl.
  eapply (wpx_go _ Q s (cpu_at t (TickEntry :: f :: k) false 0 r)); [exact Hsw|reflexivity|]. unfold run_frame, sched_tick, get_callback. run.
  eapply wpx_last; [apply enable_at; [done|simpl; lia]|]. unfold enabled. simpl. rewrite Hr. exact H.
Qed.

Lemma turn_body n Q k r :
  wpx E (go c n) Q (at_cpu c s (cpu_at t (Schedule :: TickExit :: k) true 0 true)) ->
  wpx E (go c (2 + n)) Q (at_cpu c s (cpu_at t (TickBody :: k) true 0 r)).
Proof using Hg Hsw Hr Hs.
  intros H. frame. unfold sched_tick, assert_scheduler, ts_tick, sched_resched. apply wpx_bind. eapply wpx_bind_ok; [done|]. apply wpx_assert; [done|]. run. apply wpx_bind. run.
  eapply wpx_last; [apply enable_at; [done|simpl; lia]|]. unfold enabled. simpl. run. eapply wpx_last; [apply update_cpu_at|]. simpl.
  eapply (wpx_go _ Q s (cpu_at t (EnablePreempt :: TickExit :: k) true 1 true)); [exact Hsw|reflexivity|]. unfold run_frame, run_wrapper, return_. run.
  eapply wpx_last; [apply enable_at; [done|simpl; lia]|]. unfold enabled. simpl. rewrite Hr. exact H.
Qed.

(** A process that was preempted goes on in its code. *)
Lemma turn_resume Q k r : preempted k ->
  Q tt (at_cpu c s (cpu_at t [Code 0] true 0 r)) -> wpx E (go c 2) Q (at_cpu c s (cpu_at t k true 0 r)).
Proof using Hg Hsw.
  intros [->| ->] H.
  - frame. eapply wpx_last; [done|]. frame. eapply wpx_last; [done|]. by eapply wpx_last.
  - frame. unfold schedule. run. simpl. run. eapply wpx_last; [apply update_cpu_at|]. simpl.
    eapply (wpx_go _ Q s (cpu_at t [TickExit; Code 0] true 0 r)); [exact Hsw|reflexivity|]. unfold run_frame, sched_tick, return_. run.
    eapply wpx_last; [apply set_flag_at|]. eapply wpx_last; [done|]. exact H.
Qed.

End Turn.

(** What a tick does, where [next] is the process that [schedule] chooses. *)
Section Quantum.
Context (c : Z) (s : machine) (t : cpu) (p : Z) (q : list Z) (x y : proc).
Hypothesis Hg : gs t <> 0.
Hypothesis Hsw : switching t = None.
Hypothesis Hr : sched_running t = true.
Hypothesis Hs : SCHEDULER s = true.
Hypothesis Ht : t = cpu_at t [Code 0] true 0 false.
Hypothesis Hcur : curr_proc t = on t.
Hypothesis Hi : on t <> idle_proc t.
Hypothesis H0 : on t <> 0.
Hypothesis Hp : p <> 0 /\ p <> on t.
Hypothesis Hq : RUNQUEUE s = p :: q /\ p <> NO_PROC \/ RUNQUEUE s = [] /\ q = [] /\ p = idle_proc t.
Hypothesis Hx : procs s !! p = Some x /\ state_flags x = PROC_RUNNABLE /\ preempted (saved x).
Hypothesis Hy : procs s !! on t = Some y /\ state_flags y = PROC_RUNNABLE.

Abbreviation after := (at_cpu c (next_state c (set_RUNQUEUE q s) t [TickExit; Code 0] p q x) (set_live [Code 0] (next_cpu t p x))).

Lemma quantum_run : quantum c (at_cpu c s t) = Ok (tt, after).
Proof using All.
  destruct Hp as [Hp0 Hpa], Hx as (Hx1 & Hfx & Hpre), Hy as [Hy1 Hfy].
  assert (H : wpx (fun _ => False) (quantum c) (fun _ s' => s' = after) (at_cpu c s t)).
  { rewrite Ht at 1. unfold quantum. apply (turn_tick _ c s t Hg Hsw Hr 16). apply (turn_enter _ c s t Hg Hsw Hs 14).
    apply (turn_stay _ c s t Hg Hsw 11 _ _ y); try done. apply (turn_body _ c s t Hg Hsw Hr Hs 9). apply (turn_enter _ c s t Hg Hsw Hs 7).
    assert (H : wpx (fun _ => False) (go c 5) (fun _ s' => s' = after) (at_cpu c (set_RUNQUEUE q s) (cpu_at t [ScheduleNext p; TickExit; Code 0] true 1 true))).
    { apply (turn_switch _ c (set_RUNQUEUE q s) t Hg Hsw Hs 2 _ _ p q x y); try done.
      apply (turn_resume _ c _ (next_cpu t p x) Hg eq_refl _ (saved x) false Hpre). done. }
    destruct Hq as [[Hq' Hpn]|(Hq' & Eq & Ep)]; [by apply (turn_pick _ c s t Hg Hsw 5 _ _ p q)|].
    apply (turn_pick_idle _ c s t Hg Hsw 5); try done. rewrite <- Ep. replace s with (set_RUNQUEUE q s) by (rewrite Eq, <- Hq'; by destruct s). done. }
  unfold wpx in H. destruct (quantum c _) as [[[] s']|h]; [by rewrite H|done].
Qed.

(** The processes after it. *)
Lemma after_procs a : procs after !! a =
  if decide (a = on t) then Some (set_saved [ScheduleEnd; TickExit; Code 0] y) else if decide (a = p) then Some (set_p_cpu c x) else procs s !! a.
Proof using Hp Hy H0.
  destruct Hp as [_ Hpa], Hy as [Hy1 _]. simpl. unfold parked. cbv zeta. rewrite lookup_insert_ne by done. simpl. rewrite Hy1, (proj2 (Z.eqb_neq _ _) H0).
  case_decide as E1; [subst; apply lookup_insert_eq|]. rewrite lookup_insert_ne by done. case_decide as E2; [subst; apply lookup_insert_eq|]. by rewrite lookup_insert_ne.
Qed.

End Quantum.

Lemma turn_state c s a q : turn c s a q -> exists t, at_cpu c s t = s /\ cpus s !! c = Some t /\ gs t <> 0 /\ switching t = None /\ sched_running t = true /\
  t = cpu_at t [Code 0] true 0 false /\ curr_proc t = on t /\ on t = a /\ (idle_proc t ∉ a :: q).
Proof.
  intros T. destruct (t_cpu _ _ _ _ T) as (t & Ht & Hg & Hl & Ho & Hc & Hsw & Hn & Hi & Hr & Hf & Hd). exists t. split; [by apply at_cpu_id|].
  split_and!; try done; [|congruence]. destruct t; simpl in *. by subst.
Qed.

(** A tick gives the cpu to the head of the run queue. *)
Lemma turn_next c s a p q : turn c s a (p :: q) -> exists s', quantum c s = Ok (tt, s') /\ turn c s' p (q ++ [a]).
Proof.
  intros T. destruct (turn_state _ _ _ _ T) as (t & Es & Ht & Hg & Hsw & Hr & Et & Hcur & Hon & Hid). subst a.
  destruct (t_procs _ _ _ _ T (on t)) as (H0 & Hn0 & y & Hy & Hfy & _); [left|]. destruct (t_procs _ _ _ _ T p) as (Hp0 & Hpn & x & Hx & Hfx & Hpre); [right; left|].
  pose proof (t_nodup _ _ _ _ T) as Hnd. apply NoDup_cons in Hnd as [Hn1 Hnd]. apply not_elem_of_cons in Hn1 as [Hpa Hnq].
  assert (Hi : on t <> idle_proc t) by (apply not_elem_of_cons in Hid as [? _]; by apply not_eq_sym).
  pose proof (after_procs c s t p q x y H0 (conj Hp0 (not_eq_sym Hpa)) (conj Hy Hfy)) as HP.
  eexists. split; [rewrite <- Es at 1; apply (quantum_run c s t p q x y); try done; [apply T|left; split; [apply T|done]|split_and!; auto; apply Hpre; left]|].
  split; [apply T|done| | |].
  - exists (set_live [Code 0] (next_cpu t p x)). rewrite at_cpu_lookup. split_and!; try done. simpl. intros Hin. apply Hid.
    rewrite elem_of_cons, elem_of_app, list_elem_of_singleton in Hin. rewrite !elem_of_cons. tauto.
  - intros p' Hp'. assert (Hin : p' ∈ on t :: p :: q) by (rewrite elem_of_cons, elem_of_app, list_elem_of_singleton in Hp'; rewrite !elem_of_cons; tauto).
    destruct (t_procs _ _ _ _ T p' Hin) as (P0 & Pn & z & Hz & Hfz & Hprez). split_and!; try done. rewrite HP.
    case_decide as E1; [eexists; split; [done|]; split; [exact Hfy|]; intros _; by right|]. case_decide as E2.
    + eexists. split; [done|]. split; [exact Hfx|]. intros Hq. subst p'. exfalso. apply NoDup_cons in Hnd as [Hnd _]. apply elem_of_app in Hq as [|Hq%list_elem_of_singleton]; done.
    + exists z. split; [done|]. split; [done|]. intros Hq. apply Hprez. apply elem_of_app in Hq as [|Hq%list_elem_of_singleton]; [by right|done].
  - change (NoDup ((p :: q) ++ [on t])). rewrite <- Permutation_cons_append. apply (t_nodup _ _ _ _ T).
Qed.

(** [rot l] is [l] with its head at the end. *)
Lemma rot_lookup (a : Z) l i : (i < S (length l))%nat -> (l ++ [a]) !! i = (a :: l) !! ((i + 1) mod S (length l))%nat.
Proof.
  intros Hi. destruct (decide (i = length l)) as [->|Hne].
  - rewrite lookup_app_r, Nat.sub_diag by lia. replace (length l + 1)%nat with (S (length l)) by lia. by rewrite Nat.Div0.mod_same.
  - rewrite lookup_app_l by lia. rewrite Nat.mod_small by lia. by rewrite Nat.add_1_r.
Qed.

(** C13: on a cpu that runs only its processes and the timer, [n] ticks complete without a failed assertion and rotate the processes [n] times: with [m]
    processes, the one at position [k] after [n] ticks (0: running, the others in the order of the run queue) was at position [(n + k) mod m] before.
    So each process runs in one of every [m] ticks, and goes on in its own code. *)
Theorem sched_round_robin c s a q n :
  turn c s a q -> q <> [] ->
  exists s' a' q', quanta c n s = Ok (tt, s') /\ turn c s' a' q' /\ length q' = length q /\
    forall k, (k <= length q)%nat -> (a' :: q') !! k = (a :: q) !! ((n + k) mod S (length q))%nat.
Proof.
  revert s a q. induction n as [|n IH]; intros s a q T Hq.
  - exists s, a, q. split_and!; try done. intros k Hk. rewrite Nat.mod_small by lia. done.
  - destruct q as [|p q]; [done|]. destruct (turn_next c s a p q T) as (s1 & E1 & T1).
    destruct (IH s1 p (q ++ [a]) T1) as (s' & a' & q' & E2 & T2 & Hl & Hk); [by destruct q|].
    rewrite length_app in Hl, Hk. cbn [length] in Hl, Hk. replace (length q + 1)%nat with (S (length q)) in Hl, Hk by lia. exists s', a', q'. split_and!; try done.
    + simpl. by erewrite bind_ok by exact E1.
    + cbn [length]. intros k Hkl. rewrite Hk by lia. change (p :: q ++ [a]) with ((p :: q) ++ [a]).
      rewrite rot_lookup by (cbn [length]; apply Nat.mod_upper_bound; lia). cbn [length]. f_equal. rewrite Nat.Div0.add_mod_idemp_l. f_equal. lia.
Qed.

(** A tick while the run queue is empty runs the idle process, though the current
    process can go on: it is put back after the next one was picked. *)
Lemma last_process_waits c s a t x :
  turn c s a [] -> cpus s !! c = Some t -> idle_proc t <> 0 -> procs s !! idle_proc t = Some x -> state_flags x = PROC_RUNNABLE -> preempted (saved x) ->
  exists s' t', quantum c s = Ok (tt, s') /\ cpus s' !! c = Some t' /\ on t' = idle_proc t /\ RUNQUEUE s' = [a] /\ runnable s' a.
Proof.
  intros T Ht Hi0 Hx Hfx Hpre. destruct (turn_state _ _ _ _ T) as (t0 & Es & Ht0 & Hg & Hsw & Hr & Et & Hcur & Hon & Hid). rewrite Ht in Ht0. injection Ht0 as <-. subst a.
  destruct (t_procs _ _ _ _ T (on t)) as (H0 & _ & y & Hy & Hfy & _); [left|]. assert (Hi : idle_proc t <> on t) by (by apply not_elem_of_cons in Hid as [? _]).
  pose proof (after_procs c s t (idle_proc t) [] x y H0 (conj Hi0 Hi) (conj Hy Hfy) (on t)) as HP.
  do 2 eexists. split; [rewrite <- Es at 1; apply (quantum_run c s t (idle_proc t) [] x y); try done; [apply T|right; split; [apply T|done]]|].
  rewrite at_cpu_lookup. split; [done|]. split; [done|]. split; [done|]. rewrite decide_True in HP by done. by eexists.
Qed.

(** Two user processes on a cpu. *)
Definition ex_turn : machine :=
  mk_machine {[0 := mk_cpu [Code 0] 0x3000 None true 0x18 0x8000 0xA000 0 true false 0 0x1000 0x3000]}
    {[0x3000 := mk_proc 0x8000 false PROC_RUNNABLE 0 0 0xA000 [Code 0]; 0x4000 := mk_proc 0x9000 false PROC_RUNNABLE 0 0 0xB000 [Code 0]]} [0x4000] true.

Lemma ex_turn_ok : turn 0 ex_turn 0x3000 [0x4000].
Proof.
  split; try done.
  - eexists. split; [reflexivity|]. split_and!; try done. simpl. rewrite !elem_of_cons, elem_of_nil. by intros [|[|]].
  - intros p. rewrite !elem_of_cons, elem_of_nil. intros [->|[->|[]]]; split_and!; try done; eexists; (split; [reflexivity|]); split; try done; intros _; by left.
  - apply NoDup_cons. split; [by rewrite list_elem_of_singleton|apply NoDup_singleton].
Qed.

Lemma sched_round_robin_witness : exists s' a' q', quanta 0 3 ex_turn = Ok (tt, s') /\ turn 0 s' a' q' /\ (a' :: q') !! 0%nat = Some 0x4000.
Proof.
  destruct (sched_round_robin 0 ex_turn 0x3000 [0x4000] 3 ex_turn_ok ltac:(done)) as (s' & a' & q' & E & T & _ & H). exists s', a', q'. split_and!; [exact E|exact T|]. by rewrite (H 0%nat) by (simpl; lia).
Defined.
