(* ===== verification/Vga.v ===== *)
(** * The text screen: [src/vga.c]

    The screen is a matrix of 16-bit cells in memory.  [stream_write] puts
    characters at the cursor, wraps lines and scrolls.  The specification is a list
    of rows that only grows: the screen shows the last of them. *)

From S2P Require Import Prelude Math CMem.

Record vga := mk_vga { vmem : mem; MATRIX_ADDR : Z; cursor : Z }.

Definition set_vmem (m : mem) (s : vga) : vga := mk_vga m (MATRIX_ADDR s) (cursor s).
Definition set_cursor (c : Z) : M vga unit := modify (fun s => mk_vga (vmem s) (MATRIX_ADDR s) (u16 c)).
Definition vga_set_buffer_addr (addr : Z) : M vga unit := modify (fun s => mk_vga (vmem s) addr (cursor s)).

Definition on_mem {A} (m : M mem A) : M vga A := zoom vmem set_vmem m.

(** A [uint16_t] in memory. *)
Definition rd16 (a : Z) : M mem Z := do lo <- rd8 a; do hi <- rd8 (u32 (a + 1)); ret (lo + 256 * hi).
Definition wr16 (a v : Z) : M mem unit := wr8 a (v mod 256);;; wr8 (u32 (a + 1)) (v / 256 mod 256).

(** [enum color_t] *)
Definition BLACK : Z := 0.
Definition LIGHT_GREY : Z := 7.

Definition create_color_desc (fg bg : Z) : Z := u8 (Z.lor fg (Z.shiftl bg 4)).
Definition create_char (chr color : Z) : Z := u16 (Z.lor (u8 chr) (Z.shiftl color 8)).

Section Vga.
Context (VGA_WIDTH VGA_HEIGHT : Z).

Definition cursor_max : Z := VGA_WIDTH * VGA_HEIGHT.

(** [MATRIX_ADDR[i]] *)
Definition get_cell (i : Z) : M vga Z := do a <- gets MATRIX_ADDR; on_mem (rd16 (u32 (a + 2 * i))).
Definition set_cell (i v : Z) : M vga unit := do a <- gets MATRIX_ADDR; on_mem (wr16 (u32 (a + 2 * i)) v).

Definition put_char_at (c x y : Z) : M vga unit :=
  if (VGA_WIDTH <=? x) || (VGA_HEIGHT <=? y) then ret tt
  else set_cell (u16 (x + y * VGA_WIDTH)) c.

Definition clear_matrix : M vga unit :=
  do a <- gets MATRIX_ADDR; on_mem (memzero a (VGA_WIDTH * VGA_HEIGHT * 2)).

Definition scroll_up : M vga unit :=
  do a <- gets MATRIX_ADDR;
  on_mem (memcpy a (u32 (a + 2 * VGA_WIDTH)) (VGA_WIDTH * (VGA_HEIGHT - 1) * 2));;;
  on_mem (memzero (u32 (a + 2 * (VGA_WIDTH * (VGA_HEIGHT - 1)))) (VGA_WIDTH * 2)).

(** The condition of the first test of [handle_newline]. *)
Definition wrapped : M vga bool :=
  do cur <- gets cursor;
  if (0 <? cur) && (cur mod VGA_WIDTH =? 0) then do c <- get_cell (cur - 1); ret (negb (c =? 0)) else ret false.

Definition handle_newline : M vga unit :=
  do b <- wrapped;
  if (b : bool) then ret tt else
  do cur <- gets cursor;
  let line := u8 (cur / VGA_WIDTH) in
  if line =? VGA_HEIGHT - 1 then scroll_up;;; set_cursor (line * VGA_WIDTH)
  else set_cursor ((line + 1) * VGA_WIDTH).

Definition handle_char (chr : Z) : M vga unit :=
  if chr =? 10 then handle_newline else
  do cur <- gets cursor;
  when (cur =? cursor_max) (scroll_up;;; set_cursor ((cur / VGA_WIDTH - 1) * VGA_WIDTH));;;
  do cur <- gets cursor;
  set_cell cur (create_char chr (create_color_desc LIGHT_GREY BLACK));;;
  set_cursor (cur + 1).

Definition stream_write (buf : list Z) : M vga Z :=
  for_each buf handle_char;;; ret (Z.of_nat (length buf)).

Definition vga_init : M vga unit :=
  modify (fun s => mk_vga (vmem s) (to_virt (MATRIX_ADDR s)) (cursor s));;; clear_matrix.

End Vga.

(** ** Specification *)

Definition glyph (c : Z) : Z := u8 c + 0x700.

(** The rows that were written before the last one, and the last one. *)
Record text := mk_text { above : list (list Z); last_row : list Z }.

Section Spec.
Context (W H : nat).

(** A character goes to the end of the last row, or starts a new one if it is full.
    A newline starts a new row, but after a row that is full. *)
Definition feed (t : text) (c : Z) : text :=
  if decide (length (last_row t) = W) then
    if c =? 10 then t else mk_text (above t ++ [last_row t]) [c]
  else if c =? 10 then mk_text (above t ++ [last_row t]) []
  else mk_text (above t) (last_row t ++ [c]).

Definition rows (t : text) : list (list Z) := above t ++ [last_row t].

(** The last [H] rows, from the top of the screen. *)
Definition shown (l : list (list Z)) : list (list Z) := drop (length l - H) l.
Definition grid (l : list (list Z)) : list (list Z) := shown l ++ replicate (H - length (shown l)) [].

Definition padded (r : list Z) : list Z := map glyph r ++ replicate (W - length r) 0.
Definition cells (g : list (list Z)) : list Z := concat (map padded g).

Definition cell_bytes (l : list Z) : list Z := flat_map (fun v => [v mod 256; v / 256 mod 256]) l.

(** Rows fit the screen; a row that a newline left is not full. *)
Definition text_ok (t : text) : Prop :=
  Forall (fun r => (length r <= W)%nat) (rows t) /\
  (last_row t = [] -> forall r, last (above t) = Some r -> (length r < W)%nat).

(** The memory [m0] with the screen of [t] at [a]. *)
Record shows (m0 : mem) (a : Z) (t : text) (s : vga) : Prop := {
  sh_addr : MATRIX_ADDR s = a;
  sh_cells : stored m0 a (cell_bytes (cells (grid (rows t)))) (vmem s);
  sh_cursor : cursor s = Z.of_nat ((length (shown (rows t)) - 1) * W + length (last_row t));
  sh_text : text_ok t }.

End Spec.

(** ** The memory of the screen *)

Lemma stored_over m0 a l m (k : nat) l' m' :
  stored m0 a l m -> stored m (a + Z.of_nat k) l' m' -> (k + length l' <= length l)%nat ->
  stored m0 a (take k l ++ l' ++ drop (k + length l') l) m'.
Proof.
  intros H1 H2 Hk i. rewrite H2, H1. rewrite !length_app, length_take, length_drop, Nat.min_l by lia.
  destruct (decide (a + Z.of_nat k <= i < a + Z.of_nat k + Z.of_nat (length l'))) as [D1|D1];
    [|destruct (decide (a <= i < a + Z.of_nat (length l))) as [D2|D2]].
  - rewrite decide_True by lia. rewrite lookup_app_r by (rewrite length_take; lia). rewrite length_take, Nat.min_l by lia. rewrite lookup_app_l by lia. f_equal. lia.
  - rewrite decide_True by lia. destruct (decide (i < a + Z.of_nat k)).
    + rewrite lookup_app_l by (rewrite length_take; lia). by rewrite lookup_take_lt by lia.
    + rewrite lookup_app_r by (rewrite length_take; lia). rewrite length_take, Nat.min_l by lia. rewrite lookup_app_r by lia. rewrite lookup_drop. f_equal. lia.
  - by rewrite decide_False by lia.
Qed.

Lemma length_cell_bytes l : length (cell_bytes l) = (2 * length l)%nat.
Proof. induction l; simpl; lia. Qed.

Lemma cell_bytes_app l k : cell_bytes (l ++ k) = cell_bytes l ++ cell_bytes k.
Proof. apply flat_map_app. Qed.

Lemma cell_bytes_take l i : take (2 * i) (cell_bytes l) = cell_bytes (take i l).
Proof.
  revert i. induction l as [|v l IH]; intros [|i]; try done. replace (2 * S i)%nat with (S (S (2 * i))) by lia. simpl. by rewrite <- IH.
Qed.

Lemma cell_bytes_drop l i : drop (2 * i) (cell_bytes l) = cell_bytes (drop i l).
Proof.
  revert i. induction l as [|v l IH]; intros [|i]; try done. replace (2 * S i)%nat with (S (S (2 * i))) by lia. simpl. by rewrite <- IH.
Qed.

Lemma cell_bytes_lookup l i v : l !! i = Some v -> cell_bytes l !! (2 * i)%nat = Some (v mod 256) /\ cell_bytes l !! (2 * i + 1)%nat = Some (v / 256 mod 256).
Proof.
  revert i. induction l as [|w l IH]; intros [|i]; try done; simpl; [by intros [= ->]|]. intros Hi. destruct (IH i Hi) as [E1 E2].
  replace (i + S (i + 0))%nat with (S (2 * i)) by lia. rewrite <- E1, <- E2. split; done.
Qed.

Lemma cell_bytes_insert l i v : (i < length l)%nat ->
  cell_bytes (<[i := v]> l) = take (2 * i) (cell_bytes l) ++ [v mod 256; v / 256 mod 256] ++ drop (2 * i + 2) (cell_bytes l).
Proof.
  intros Hi. rewrite insert_take_drop by done. rewrite cell_bytes_app, cell_bytes_take. replace (2 * i + 2)%nat with (2 * S i)%nat by lia. by rewrite cell_bytes_drop.
Qed.

(** The cells [l] at [a], over the memory [m0]. *)
Section Cells.
Context (m0 : mem) (a : Z) (l : list Z) (m : mem).
Hypothesis Ha : in_space a (2 * Z.of_nat (length l)).
Hypothesis Hs : stored m0 a (cell_bytes l) m.

Lemma cells_mapped : mapped m a (2 * Z.of_nat (length l)).
Proof using Hs. intros k Hk. rewrite Hs, length_cell_bytes, decide_True by lia. apply lookup_lt_is_Some. rewrite length_cell_bytes. lia. Qed.

Lemma cells_bytes : bytes_at m a (cell_bytes l).
Proof using Hs. intros i b Hi. pose proof (lookup_lt_Some _ _ _ Hi). rewrite Hs, decide_True by lia. rewrite <- Hi. f_equal. lia. Qed.

Lemma rd16_wp (i : nat) v (Q : Z -> mem -> Prop) : l !! i = Some v -> 0 <= v < 65536 -> Q v m -> wp (rd16 (a + 2 * Z.of_nat i)) Q m.
Proof using Ha Hs.
  intros Hi Hv HQ. destruct (cell_bytes_lookup l i v Hi) as [E1 E2]. apply cells_bytes in E1, E2. pose proof (lookup_lt_Some _ _ _ Hi). unfold in_space in Ha.
  unfold rd16. apply wp_bind. replace (a + 2 * Z.of_nat i) with (a + Z.of_nat (2 * i)) by lia. apply (rd8_wp _ _ (v mod 256)); [done|]. apply wp_bind. rewrite u32_id by lia.
  replace (a + Z.of_nat (2 * i) + 1) with (a + Z.of_nat (2 * i + 1)) by lia. apply (rd8_wp _ _ (v / 256 mod 256)); [done|]. apply wp_ret.
  replace (v mod 256 + 256 * ((v / 256) mod 256)) with v by (Z.to_euclidean_division_equations; lia). done.
Qed.

Lemma wr16_wp (i : nat) v (Q : unit -> mem -> Prop) : (i < length l)%nat ->
  (forall m', stored m0 a (cell_bytes (<[i := v]> l)) m' -> Q tt m') -> wp (wr16 (a + 2 * Z.of_nat i) v) Q m.
Proof using Ha Hs.
  intros Hi HQ. unfold in_space in Ha. pose proof cells_mapped as Hm. unfold wr16. apply wp_bind, wr8_wp; [apply Hm; lia|]. rewrite u32_id by lia. apply wr8_wp.
  { destruct (decide (a + 2 * Z.of_nat i + 1 = a + 2 * Z.of_nat i)); [lia|]. rewrite lookup_insert_ne by done. apply Hm. lia. }
  apply HQ. rewrite cell_bytes_insert by done. set (b := [v mod 256; v / 256 mod 256]). assert (Eb : (2 * i + 2 = 2 * i + length b)%nat) by done. rewrite Eb.
  apply (stored_over m0 a _ m); [done| |rewrite length_cell_bytes; simpl; lia]. replace (a + Z.of_nat (2 * i)) with (a + 2 * Z.of_nat i) by lia.
  pose proof (stored_snoc m _ [v mod 256] (v / 256 mod 256) _ (stored_snoc m (a + 2 * Z.of_nat i) [] (v mod 256) m (stored_nil _ _))) as H. simpl in H. by rewrite Z.add_0_r in H.
Qed.

(** Moving the cells up by [w], and clearing the rest. *)
Lemma scroll_wp (w : nat) (Q : unit -> mem -> Prop) : (w <= length l)%nat ->
  (forall m', stored m0 a (cell_bytes (drop w l ++ replicate w 0)) m' -> Q tt m') ->
  wp (memcpy a (a + 2 * Z.of_nat w) (2 * Z.of_nat (length l - w));;; memzero (a + 2 * Z.of_nat (length l - w)) (2 * Z.of_nat w)) Q m.
Proof using Ha Hs.
  intros Hw HQ. unfold in_space in Ha. set (k := cell_bytes (drop w l)). assert (Hk : length k = (2 * (length l - w))%nat) by (unfold k; by rewrite length_cell_bytes, length_drop).
  apply wp_bind. replace (2 * Z.of_nat (length l - w)) with (Z.of_nat (length k)) by lia. eapply wp_mono.
  - apply memcpy_wp; unfold in_space; [lia|lia| |intros i Hi; apply cells_mapped; lia|left; lia].
    intros i b Hi. pose proof (lookup_lt_Some _ _ _ Hi). replace (a + 2 * Z.of_nat w + Z.of_nat i) with (a + Z.of_nat (2 * w + i)) by lia. apply cells_bytes.
    unfold k in Hi. rewrite <- cell_bytes_drop, lookup_drop in Hi. done.
  - intros [] m1 H1. assert (H1' : stored m0 a (k ++ drop (2 * (length l - w)) (cell_bytes l)) m1).
    { rewrite <- Hk. apply (stored_over m0 a _ m 0); [done|by rewrite Z.add_0_r|rewrite length_cell_bytes; lia]. }
    unfold memzero. eapply wp_mono; [apply memset_wp; unfold in_space; [lia|]|].
    { intros i Hi. eapply stored_mapped; [exact H1| |exact Hi]. intros j Hj. apply cells_mapped. lia. }
    intros [] m2 H2. apply HQ. rewrite cell_bytes_app. replace (cell_bytes (replicate w 0)) with (replicate (Z.to_nat (2 * Z.of_nat w)) 0).
    + pose proof (stored_over m0 a _ m1 (length k) _ m2 H1' H2) as H3. rewrite take_app_length, (drop_ge (k ++ _)), app_nil_r in H3;
        [apply H3|]; rewrite length_app, length_drop, length_cell_bytes, length_replicate; lia.
    + clear. replace (Z.to_nat (2 * Z.of_nat w)) with (2 * w)%nat by lia. induction w as [|w IH]; [done|]. replace (2 * S w)%nat with (S (S (2 * w))) by lia. simpl. by rewrite <- IH.
Qed.

End Cells.

(** ** Rows *)

Section Grid.
Context (H : nat).

Lemma length_shown l : length (shown H l) = (length l `min` H)%nat.
Proof. unfold shown. rewrite length_drop. lia. Qed.

Lemma length_grid l : length (grid H l) = H.
Proof. unfold grid. rewrite length_app, length_replicate, length_shown. lia. Qed.

Hypothesis HH : (0 < H)%nat.

Lemma shown_snoc d x : shown H (d ++ [x]) = drop (S (length d) - H) d ++ [x].
Proof using HH. unfold shown. rewrite length_app. simpl. rewrite Nat.add_1_r. rewrite drop_app_le by lia. done. Qed.

(** Another last row. *)
Lemma grid_last d x y : grid H (d ++ [y]) = <[(length (shown H (d ++ [x])) - 1)%nat := y]> (grid H (d ++ [x])).
Proof using HH.
  unfold grid. assert (E : length (shown H (d ++ [y])) = length (shown H (d ++ [x]))) by (rewrite !length_shown, !length_app; done). rewrite E.
  rewrite !shown_snoc, length_app. simpl. rewrite Nat.add_sub. rewrite <- !(assoc_L app). rewrite insert_app_r_alt by lia. by rewrite Nat.sub_diag.
Qed.

Lemma grid_lookup_last d x : grid H (d ++ [x]) !! (length (shown H (d ++ [x])) - 1)%nat = Some x.
Proof using HH.
  unfold grid. rewrite !shown_snoc, length_app. simpl. rewrite Nat.add_sub. rewrite <- (assoc_L app). rewrite lookup_app_r by lia. by rewrite Nat.sub_diag.
Qed.

(** A new row where the screen is not full. *)
Lemma grid_new l x : (length l < H)%nat -> grid H (l ++ [x]) = <[length l := x]> (grid H l).
Proof using HH.
  intros Hl. unfold grid, shown. rewrite !length_app. simpl. replace (length l + 1 - H)%nat with 0%nat by lia. replace (length l - H)%nat with 0%nat by lia. rewrite !drop_0.
  rewrite length_app. simpl. rewrite insert_app_r_alt by lia. rewrite Nat.sub_diag. replace (H - length l)%nat with (S (H - (length l + 1))) by lia. simpl. by rewrite <- (assoc_L app).
Qed.

(** A new row where the screen is full: it scrolls. *)
Lemma grid_scroll l x : (H <= length l)%nat -> exists r, grid H l = r :: tail (grid H l) /\ grid H (l ++ [x]) = tail (grid H l) ++ [x].
Proof using HH.
  intros Hl. unfold grid. rewrite !length_shown, length_app. simpl. rewrite !Nat.min_r by lia. rewrite Nat.sub_diag. simpl. rewrite !app_nil_r. rewrite shown_snoc. unfold shown.
  destruct (drop (length l - H) l) as [|r g] eqn:E; [apply (f_equal length) in E; rewrite length_drop in E; simpl in E; lia|]. exists r. split; [done|]. simpl. f_equal.
  replace (S (length l) - H)%nat with (length l - H + 1)%nat by lia. rewrite <- drop_drop, E. done.
Qed.

End Grid.

Section Rows.
Context (W : nat).

Abbreviation fits := (Forall (fun r : list Z => (length r <= W)%nat)).

Lemma length_padded r : (length r <= W)%nat -> length (padded W r) = W.
Proof. intros Hr. unfold padded. rewrite length_app, length_map, length_replicate. lia. Qed.

Lemma length_cells g : fits g -> length (cells W g) = (length g * W)%nat.
Proof. induction 1 as [|r g Hr _ IH]; [done|]. unfold cells in *. simpl. rewrite length_app, length_padded, IH by done. done. Qed.

Lemma cells_app g k : cells W (g ++ k) = cells W g ++ cells W k.
Proof. unfold cells. by rewrite map_app, concat_app. Qed.

Lemma cells_split g j r : g !! j = Some r -> cells W g = cells W (take j g) ++ padded W r ++ cells W (drop (S j) g).
Proof. intros Hj. rewrite <- (take_drop_middle g j r Hj) at 1. by rewrite cells_app. Qed.

Lemma padded_snoc r c : (length r < W)%nat -> <[length r := glyph c]> (padded W r) = padded W (r ++ [c]).
Proof.
  intros Hr. unfold padded. replace (W - length r)%nat with (S (W - length (r ++ [c]))) by (rewrite length_app; simpl; lia). simpl.
  rewrite insert_app_r_alt by (rewrite length_map; lia). rewrite length_map, Nat.sub_diag. simpl. by rewrite map_app, <- (assoc_L app).
Qed.

Lemma cells_insert g j r c : fits g -> g !! j = Some r -> (length r < W)%nat ->
  <[(j * W + length r)%nat := glyph c]> (cells W g) = cells W (<[j := r ++ [c]]> g).
Proof.
  intros Hg Hj Hr. pose proof (lookup_lt_Some _ _ _ Hj) as Hlt. assert (Hl : length (cells W (take j g)) = (j * W)%nat) by (rewrite length_cells, length_take; [f_equal; lia|by apply Forall_take]).
  rewrite (cells_split g j r Hj). rewrite insert_app_r_alt by lia. rewrite Hl. replace (j * W + length r - j * W)%nat with (length r) by lia.
  rewrite insert_app_l by (rewrite length_padded; lia). rewrite padded_snoc by done.
  rewrite (cells_split (<[j := r ++ [c]]> g) j (r ++ [c])) by by apply list_lookup_insert_eq. by rewrite take_insert_ge, drop_insert_lt by lia.
Qed.

Lemma cells_lookup g j r k : fits g -> g !! j = Some r -> (k < W)%nat -> cells W g !! (j * W + k)%nat = Some (from_option glyph 0 (r !! k)).
Proof.
  intros Hg Hj Hk. pose proof (lookup_lt_Some _ _ _ Hj) as Hlt. assert (Hl : length (cells W (take j g)) = (j * W)%nat) by (rewrite length_cells, length_take; [f_equal; lia|by apply Forall_take]).
  pose proof (proj1 (Forall_lookup _ g) Hg j r Hj) as Hr. simpl in Hr. rewrite (cells_split g j r Hj). rewrite lookup_app_r by lia. rewrite Hl. replace (j * W + k - j * W)%nat with k by lia.
  rewrite lookup_app_l by (rewrite length_padded; lia). unfold padded. destruct (decide (k < length r)%nat) as [Hc|Hc].
  - rewrite lookup_app_l by (rewrite length_map; lia). rewrite list_lookup_fmap. destruct (r !! k) eqn:E; [done|]. apply lookup_ge_None in E. lia.
  - rewrite lookup_app_r by (rewrite length_map; lia). rewrite length_map, lookup_replicate_2 by lia. by rewrite (proj2 (lookup_ge_None r k)) by lia.
Qed.

Lemma cells_scroll r g : (length r <= W)%nat -> drop W (cells W (r :: g)) ++ replicate W 0 = cells W (g ++ [[]]).
Proof.
  intros Hr. rewrite cells_app. unfold cells at 1. simpl. rewrite drop_app_length' by by rewrite length_padded. unfold cells at 2. simpl. rewrite app_nil_r. unfold padded. simpl. by rewrite Nat.sub_0_r.
Qed.

Lemma grid_fits H l : fits l -> fits (grid H l).
Proof. intros Hl. apply Forall_app. split; [by apply Forall_drop|]. apply Forall_replicate. simpl. lia. Qed.

End Rows.

Lemma last_fits (W : nat) t : Forall (fun r => (length r <= W)%nat) (rows t) -> (length (last_row t) <= W)%nat.
Proof. intros Hf. apply (proj1 (Forall_forall _ _) Hf). apply elem_of_app. right. left. Qed.

(** ** Operations *)

Section Screen.
Context (W H : nat) (m0 : mem) (a : Z).
Hypothesis HW : (0 < W < 256)%nat.
Hypothesis HH : (0 < H < 256)%nat.
Hypothesis Ha : in_space a (2 * Z.of_nat (H * W) + 1).

Abbreviation VGA_WIDTH := (Z.of_nat W).
Abbreviation VGA_HEIGHT := (Z.of_nat H).

(** The cells [l] are on the screen, and the cursor is at [c]. *)
Definition screen (l : list Z) (c : nat) (s : vga) : Prop :=
  MATRIX_ADDR s = a /\ cursor s = Z.of_nat c /\ length l = (H * W)%nat /\ stored m0 a (cell_bytes l) (vmem s).

Lemma get_cell_wp l c i v s (Q : Z -> vga -> Prop) : screen l c s -> l !! i = Some v -> 0 <= v < 65536 -> Q v s -> wp (get_cell (Z.of_nat i)) Q s.
Proof using All.
  intros (E1 & E2 & E3 & E4) Hi Hv HQ. unfold get_cell. eapply wp_bind_ok; [done|]. apply wp_zoom. rewrite E1. pose proof (lookup_lt_Some _ _ _ Hi). rewrite E3 in *. unfold in_space in Ha.
  rewrite u32_id by lia. apply (rd16_wp m0 a l _ ltac:(unfold in_space in *; rewrite E3; lia) E4 i v); [done|done|]. unfold set_vmem. by destruct s.
Qed.

Lemma set_cell_wp l c i v s (Q : unit -> vga -> Prop) : screen l c s -> (i < H * W)%nat -> (forall s', screen (<[i := v]> l) c s' -> Q tt s') -> wp (set_cell (Z.of_nat i) v) Q s.
Proof using All.
  intros (E1 & E2 & E3 & E4) Hi HQ. unfold set_cell. eapply wp_bind_ok; [done|]. apply wp_zoom. rewrite E1. unfold in_space in Ha.
  rewrite u32_id by lia. apply (wr16_wp m0 a l); [unfold in_space in *; rewrite E3; lia|done|lia|]. intros m' Hm. apply HQ. split_and!; try done. by rewrite length_insert.
Qed.

Lemma scroll_up_wp l c s (Q : unit -> vga -> Prop) : screen l c s -> (forall s', screen (drop W l ++ replicate W 0) c s' -> Q tt s') -> wp (scroll_up VGA_WIDTH VGA_HEIGHT) Q s.
Proof using All.
  intros (E1 & E2 & E3 & E4) HQ. assert (HWH : (W <= H * W)%nat) by (destruct H; simpl; lia). unfold in_space in Ha.
  assert (HQ' : forall m', stored m0 a (cell_bytes (drop W l ++ replicate W 0)) m' -> Q tt (set_vmem m' s)).
  { intros m' Hm. apply HQ. split_and!; try done. rewrite length_app, length_drop, length_replicate. lia. }
  pose proof (scroll_wp m0 a l (vmem s) ltac:(unfold in_space in *; rewrite E3; lia) E4 W (fun _ m' => Q tt (set_vmem m' s)) ltac:(lia) HQ') as Hwp.
  assert (Ew : VGA_WIDTH * (VGA_HEIGHT - 1) = Z.of_nat (H * W - W)) by (rewrite Nat2Z.inj_sub, Nat2Z.inj_mul by lia; ring).
  unfold scroll_up. eapply wp_bind_ok; [done|]. rewrite E1, E3 in *. rewrite Ew, !u32_id by lia. rewrite (Z.mul_comm _ 2).
  replace (VGA_WIDTH * 2) with (2 * VGA_WIDTH) by lia. unfold wp, bind, on_mem, zoom in *. destruct (memcpy _ _ _ _) as [[[] m1]|]; [|done]. simpl. by destruct (memzero _ _ m1) as [[[] m2]|].
Qed.

Lemma set_cursor_wp l c c' s (Q : unit -> vga -> Prop) : screen l c s -> Z.of_nat c' < 65536 -> (forall s', screen l c' s' -> Q tt s') -> wp (set_cursor (Z.of_nat c')) Q s.
Proof. intros (E1 & E2 & E3 & E4) Hc HQ. apply HQ. split_and!; try done. simpl. apply u16_id. lia. Qed.

Lemma char_glyph c : create_char c (create_color_desc LIGHT_GREY BLACK) = glyph c.
Proof.
  assert (Hb : forallb (fun x => u16 (Z.lor x 0x700) =? x + 0x700) (range 0 256) = true) by (vm_compute; reflexivity).
  unfold create_char, glyph. apply Z.eqb_eq. apply (proj1 (forallb_forall _ _) Hb). apply list_elem_of_In, elem_of_range, u8_range.
Qed.

(** The row of the cursor. *)
Definition line_of (t : text) : nat := (length (shown H (rows t)) - 1)%nat.

Lemma line_bound t : (line_of t < H)%nat /\ line_of t = (length (above t) `min` (H - 1))%nat.
Proof using HW HH. unfold line_of. rewrite length_shown. unfold rows. rewrite length_app. simpl. lia. Qed.

Lemma shows_screen t s : shows W H m0 a t s <-> screen (cells W (grid H (rows t))) (line_of t * W + length (last_row t)) s /\ text_ok W t.
Proof.
  split.
  - intros [E1 E2 E3 E4]. split; [|done]. split_and!; try done. rewrite length_cells, length_grid by apply grid_fits, E4. done.
  - intros [(E1 & E2 & E3 & E4) Ht]. by split.
Qed.

(** A character that fits the last row. *)
Lemma put_glyph t c s (Q : unit -> vga -> Prop) :
  screen (cells W (grid H (rows t))) (line_of t * W + length (last_row t)) s -> Forall (fun r => (length r <= W)%nat) (rows t) -> (length (last_row t) < W)%nat ->
  (forall s', shows W H m0 a (mk_text (above t) (last_row t ++ [c])) s' -> Q tt s') ->
  wp (do cur <- gets cursor; set_cell cur (create_char c (create_color_desc LIGHT_GREY BLACK));;; set_cursor (cur + 1)) Q s.
Proof using All.
  intros Hs Hf Hk HQ. destruct (line_bound t) as [Hj _]. pose proof Hs as (_ & Ec & _).
  assert (Hi : (line_of t * W + length (last_row t) < H * W)%nat) by nia. assert (Hmax : Z.of_nat (H * W) < 65536) by nia.
  eapply wp_bind_ok; [done|]. rewrite Ec. apply wp_bind. eapply set_cell_wp; [exact Hs|done|]. intros s1 Hs1.
  replace (Z.of_nat (line_of t * W + length (last_row t)) + 1) with (Z.of_nat (line_of t * W + length (last_row t ++ [c]))) by (rewrite length_app; simpl; lia).
  eapply set_cursor_wp; [exact Hs1|rewrite length_app; simpl; lia|]. intros s2 Hs2. apply HQ, shows_screen.
  split; [|split; [|by destruct (last_row t)]].
  - unfold rows at 1. simpl. rewrite (grid_last H ltac:(lia) (above t) (last_row t)). change (above t ++ [last_row t]) with (rows t). fold (line_of t).
    rewrite <- cells_insert; [|by apply grid_fits|apply grid_lookup_last; lia|done]. rewrite <- char_glyph.
    replace (line_of (mk_text (above t) (last_row t ++ [c]))) with (line_of t) by (unfold line_of; rewrite !length_shown; unfold rows; by rewrite !length_app). done.
  - apply Forall_app in Hf as [Hf _]. apply Forall_app. split; [done|]. apply Forall_singleton. simpl. rewrite length_app. simpl. lia.
Qed.

(** A new row. *)
Definition new_row (t : text) : text := mk_text (rows t) [].

Lemma new_row_fits t : Forall (fun r => (length r <= W)%nat) (rows t) -> Forall (fun r => (length r <= W)%nat) (rows (new_row t)).
Proof. intros Hf. apply Forall_app. split; [done|]. apply Forall_singleton. simpl. lia. Qed.

Lemma new_row_below t : (line_of t < H - 1)%nat -> grid H (rows (new_row t)) = grid H (rows t) /\ line_of (new_row t) = S (line_of t).
Proof using HW HH.
  intros Hj. destruct (line_bound t) as [_ E]. destruct (line_bound (new_row t)) as [_ E']. simpl in E'. unfold rows in E' at 1. rewrite length_app in E'. simpl in E'. split; [|lia].
  assert (Hlen : length (rows t) = S (length (above t))) by (unfold rows; rewrite length_app; simpl; lia).
  unfold rows at 1. simpl. rewrite grid_new by lia. apply list_insert_id. unfold grid, shown. replace (length (rows t) - H)%nat with 0%nat by lia. rewrite drop_0.
  rewrite lookup_app_r by lia. rewrite Nat.sub_diag. apply lookup_replicate_2. lia.
Qed.

Lemma new_row_scroll t : line_of t = (H - 1)%nat -> Forall (fun r => (length r <= W)%nat) (rows t) ->
  drop W (cells W (grid H (rows t))) ++ replicate W 0 = cells W (grid H (rows (new_row t))) /\ line_of (new_row t) = (H - 1)%nat.
Proof using HW HH.
  intros Hj Hf. destruct (line_bound t) as [_ E]. destruct (line_bound (new_row t)) as [_ E']. simpl in E'. unfold rows in E' at 1. rewrite length_app in E'. simpl in E'. split; [|lia].
  assert (Hlen : length (rows t) = S (length (above t))) by (unfold rows; rewrite length_app; simpl; lia).
  destruct (grid_scroll H ltac:(lia) (rows t) [] ltac:(lia)) as (r & E1 & E2). pose proof (grid_fits W H _ Hf) as Hg. rewrite E1 in Hg. apply Forall_cons in Hg as [Hr _].
  unfold rows at 2. simpl. rewrite E2, E1. simpl. by apply cells_scroll.
Qed.

Lemma row_above d r t : (0 < line_of t)%nat -> above t = d ++ [r] -> (1 < H)%nat -> grid H (rows t) !! (line_of t - 1)%nat = Some r.
Proof using HW HH.
  intros Hj Ed H2. destruct (line_bound t) as [_ Ej]. unfold grid. rewrite lookup_app_l by (rewrite length_shown; unfold rows; rewrite length_app; simpl; lia).
  unfold shown. rewrite lookup_drop. unfold rows. rewrite Ed in *. rewrite !length_app in *. simpl in *. rewrite lookup_app_l by (rewrite length_app; simpl; lia).
  rewrite lookup_app_r by lia. replace (_ - length d)%nat with 0%nat by lia. done.
Qed.

(** Whether the cursor is where a full row ended. *)
Lemma wrapped_wp t s (Q : bool -> vga -> Prop) : shows W H m0 a t s -> Q (bool_decide (length (last_row t) = W)) s -> wp (wrapped VGA_WIDTH) Q s.
Proof using All.
  intros Hs HQ. apply shows_screen in Hs as [Hs [Hf Hl]]. destruct (line_bound t) as [Hj Ej]. pose proof Hs as (_ & Ec & _). pose proof (grid_fits W H _ Hf) as Hg.
  pose proof (last_fits W t Hf) as Hk.
  unfold wrapped. eapply wp_bind_ok; [done|]. rewrite Ec.
  destruct (decide (length (last_row t) = W)) as [Ek|Ek]; [rewrite bool_decide_eq_true_2 in HQ by done|rewrite bool_decide_eq_false_2 in HQ by done].
  - assert (Hc : Z.of_nat (line_of t * W + length (last_row t)) = (Z.of_nat (line_of t) + 1) * VGA_WIDTH) by (rewrite Ek; lia).
    rewrite Hc, Z.mod_mul by lia. rewrite (proj2 (Z.ltb_lt _ _)) by nia. simpl. apply wp_bind.
    destruct (lookup_lt_is_Some_2 (last_row t) (W - 1)) as [x Hx]; [lia|].
    pose proof (cells_lookup W _ (line_of t) (last_row t) (W - 1) Hg ltac:(apply grid_lookup_last; lia) ltac:(lia)) as Hcell. rewrite Hx in Hcell. simpl in Hcell.
    replace ((Z.of_nat (line_of t) + 1) * VGA_WIDTH - 1) with (Z.of_nat (line_of t * W + (W - 1))) by lia. unfold glyph in Hcell. pose proof (u8_range x).
    eapply get_cell_wp; [exact Hs|exact Hcell|lia|]. apply wp_ret. by rewrite (proj2 (Z.eqb_neq _ 0)) by lia.
  - destruct (Z.ltb_spec 0 (Z.of_nat (line_of t * W + length (last_row t)))) as [Hp|]; [|by apply wp_ret]. simpl.
    replace (Z.of_nat (line_of t * W + length (last_row t))) with (Z.of_nat (length (last_row t)) + Z.of_nat (line_of t) * VGA_WIDTH) by lia.
    rewrite Z.mod_add, Z.mod_small by lia. destruct (Z.eqb_spec (Z.of_nat (length (last_row t))) 0) as [E0|]; [|by apply wp_ret]. simpl.
    assert (Enil : last_row t = []) by (destruct (last_row t); [done|simpl in E0; lia]). destruct (last (above t)) as [r|] eqn:El.
    + apply last_Some in El as [d Ed]. specialize (Hl Enil r eq_refl). apply wp_bind.
      pose proof (cells_lookup W _ (line_of t - 1) r (W - 1) Hg ltac:(apply (row_above d); [lia|done|lia]) ltac:(lia)) as Hcell. rewrite (proj2 (lookup_ge_None r (W - 1)) ltac:(lia)) in Hcell. simpl in Hcell.
      replace (Z.of_nat (length (last_row t)) + Z.of_nat (line_of t) * VGA_WIDTH - 1) with (Z.of_nat ((line_of t - 1) * W + (W - 1))) by nia.
      eapply get_cell_wp; [exact Hs|exact Hcell|lia|]. by apply wp_ret.
    + apply last_None in El. rewrite El in Ej. simpl in Ej. lia.
Qed.

Lemma handle_newline_wp t s : shows W H m0 a t s -> wp (handle_newline VGA_WIDTH VGA_HEIGHT) (fun _ => shows W H m0 a (feed W t 10)) s.
Proof using All.
  intros Hs. unfold handle_newline. apply wp_bind. eapply wrapped_wp; [exact Hs|]. unfold feed. simpl.
  case_bool_decide as Ek; [by rewrite decide_True|rewrite decide_False by done].
  apply shows_screen in Hs as [Hs [Hf _]]. destruct (line_bound t) as [Hj _]. pose proof Hs as (_ & Ec & _). pose proof (last_fits W t Hf) as Hk. pose proof (new_row_fits t Hf) as Hf'.
  assert (Hok : text_ok W (new_row t)) by (split; [done|]; intros _ r; unfold new_row, rows; simpl; rewrite last_snoc; intros [= <-]; lia).
  eapply wp_bind_ok; [done|]. cbv zeta. rewrite Ec. replace (Z.of_nat (line_of t * W + length (last_row t))) with (Z.of_nat (length (last_row t)) + Z.of_nat (line_of t) * VGA_WIDTH) by lia.
  rewrite Z.div_add, Z.div_small, Z.add_0_l by lia. rewrite u8_id by lia. destruct (Z.eqb_spec (Z.of_nat (line_of t)) (VGA_HEIGHT - 1)) as [El|El].
  - destruct (new_row_scroll t ltac:(lia) Hf) as [E1 E2]. apply wp_bind. eapply scroll_up_wp; [exact Hs|]. intros s1 Hs1. rewrite E1 in Hs1.
    replace (Z.of_nat (line_of t) * VGA_WIDTH) with (Z.of_nat (line_of (new_row t) * W + 0)) by (rewrite E2; nia). eapply set_cursor_wp; [exact Hs1|nia|]. intros s2 Hs2. by apply shows_screen.
  - destruct (new_row_below t ltac:(lia)) as [E1 E2]. rewrite <- E1 in Hs. replace ((Z.of_nat (line_of t) + 1) * VGA_WIDTH) with (Z.of_nat (line_of (new_row t) * W + 0)) by (rewrite E2; nia).
    eapply set_cursor_wp; [exact Hs|nia|]. intros s2 Hs2. by apply shows_screen.
Qed.

Lemma handle_char_wp t c s : shows W H m0 a t s -> wp (handle_char VGA_WIDTH VGA_HEIGHT c) (fun _ => shows W H m0 a (feed W t c)) s.
Proof using All.
  intros Hs. unfold handle_char. destruct (Z.eqb_spec c 10) as [->|Hc]; [by apply handle_newline_wp|].
  apply shows_screen in Hs as [Hs [Hf _]]. destruct (line_bound t) as [Hj _]. pose proof Hs as (_ & Ec & _). pose proof (last_fits W t Hf) as Hk. pose proof (new_row_fits t Hf) as Hf'.
  unfold feed. rewrite (proj2 (Z.eqb_neq _ _) Hc). eapply wp_bind_ok; [done|]. unfold cursor_max. rewrite Ec.
  destruct (decide (length (last_row t) = W)) as [Ek|Ek].
  - apply wp_bind. destruct (Z.eqb_spec (Z.of_nat (line_of t * W + length (last_row t))) (VGA_WIDTH * VGA_HEIGHT)) as [El|El]; simpl.
    + assert (Ej : line_of t = (H - 1)%nat) by nia. destruct (new_row_scroll t Ej Hf) as [E1 E2]. apply wp_bind. eapply scroll_up_wp; [exact Hs|]. intros s1 Hs1. rewrite E1 in Hs1.
      rewrite El, (Z.mul_comm VGA_WIDTH VGA_HEIGHT), Z.div_mul by lia. replace ((VGA_HEIGHT - 1) * VGA_WIDTH) with (Z.of_nat (line_of (new_row t) * W + 0)) by (rewrite E2; nia).
      eapply set_cursor_wp; [exact Hs1|nia|]. intros s2 Hs2. apply (put_glyph (new_row t)); [exact Hs2|done|simpl; lia|]. intros s3 Hs3. exact Hs3.
    + destruct (new_row_below t ltac:(nia)) as [E1 E2]. apply wp_ret. apply (put_glyph (new_row t)); [|done|simpl; lia|by intros s3 Hs3].
      rewrite E1, E2. simpl. replace (W + line_of t * W + 0)%nat with (line_of t * W + length (last_row t))%nat by lia. exact Hs.
  - rewrite (proj2 (Z.eqb_neq _ (VGA_WIDTH * VGA_HEIGHT))) by nia. apply wp_bind, wp_ret. apply (put_glyph t); [exact Hs|done|lia|by intros s3 Hs3].
Qed.

Lemma write_wp t buf s : shows W H m0 a t s -> wp (for_each buf (handle_char VGA_WIDTH VGA_HEIGHT)) (fun _ => shows W H m0 a (foldl (feed W) t buf)) s.
Proof using All.
  revert t s. induction buf as [|c buf IH]; intros t s Hs; [done|]. simpl. apply wp_bind. eapply wp_mono; [by apply handle_char_wp|]. intros [] s1 Hs1. by apply IH.
Qed.

End Screen.

(** The screen without text. *)
Lemma blank_bytes (W H : nat) : (0 < H)%nat -> cell_bytes (cells W (grid H [[]])) = replicate (Z.to_nat (2 * Z.of_nat (H * W))) 0.
Proof.
  intros HH. assert (Hg : grid H [[]] = replicate H []).
  { unfold grid. rewrite length_shown. simpl length. rewrite Nat.min_l by lia. unfold shown. simpl length. replace (1 - H)%nat with 0%nat by lia. simpl. replace H with (S (H - 1)) at 2 by lia. done. }
  rewrite Hg. replace (Z.to_nat (2 * Z.of_nat (H * W))) with (H * (2 * W))%nat by lia. clear. induction H as [|h IH]; [done|]. rewrite Nat.mul_succ_l, Nat.add_comm, replicate_add, <- IH.
  change (cells W (replicate (S h) [])) with (padded W [] ++ cells W (replicate h [])). rewrite cell_bytes_app. f_equal. unfold padded. simpl. rewrite Nat.sub_0_r. clear.
  induction W as [|w IH]; [done|]. replace (S w + (S w + 0))%nat with (S (S (w + (w + 0)))) by lia. simpl. by rewrite <- IH.
Qed.

Lemma clear_wp (W H : nat) m0 a s : (0 < W < 256)%nat -> (0 < H < 256)%nat -> in_space a (2 * Z.of_nat (H * W) + 1) -> mapped m0 a (2 * Z.of_nat (H * W)) ->
  vmem s = m0 -> MATRIX_ADDR s = a -> cursor s = 0 -> wp (clear_matrix (Z.of_nat W) (Z.of_nat H)) (fun _ => shows W H m0 a (mk_text [] [])) s.
Proof.
  intros HW HH Ha Hm <- <- Hc. unfold clear_matrix. eapply wp_bind_ok; [done|]. apply wp_zoom. unfold memzero. replace (Z.of_nat W * Z.of_nat H * 2) with (2 * Z.of_nat (H * W)) by lia.
  unfold in_space in Ha. eapply wp_mono; [apply memset_wp; [unfold in_space; lia|done]|]. intros [] m' Hs. split; try done; [|rewrite length_shown; simpl length; rewrite Nat.min_l by lia; exact Hc|split; [repeat constructor; simpl; lia|done]].
  simpl. unfold rows. simpl app. by rewrite blank_bytes by lia.
Qed.

(** ** Properties *)

(** C38: after [vga_init], writing any text to the screen, in any number of calls of [stream_write], returns the length of the text, and the matrix shows it
    as the specification lays it out: characters fill rows of the width of the screen, a newline starts a new row, and the last rows are shown, each
    character with its color.  No access is outside of the matrix, and no other memory changes. *)
Theorem vga_write_correct (W H : nat) s bufs :
  (0 < W < 256)%nat -> (0 < H < 256)%nat -> let a := to_virt (MATRIX_ADDR s) in
  in_space a (2 * Z.of_nat (H * W) + 1) -> mapped (vmem s) a (2 * Z.of_nat (H * W)) -> cursor s = 0 ->
  exists s1, vga_init (Z.of_nat W) (Z.of_nat H) s = Ok (tt, s1) /\
  exists s2, for_each bufs (fun buf => do n <- stream_write (Z.of_nat W) (Z.of_nat H) buf; ASSERT (n =? Z.of_nat (length buf)) "length") s1 = Ok (tt, s2) /\
    shows W H (vmem s) a (foldl (feed W) (mk_text [] []) (concat bufs)) s2.
Proof.
  intros HW HH a Ha Hm Hc. assert (Hi : wp (vga_init (Z.of_nat W) (Z.of_nat H)) (fun _ => shows W H (vmem s) a (mk_text [] [])) s).
  { unfold vga_init. eapply wp_bind_ok; [done|]. by apply clear_wp. }
  apply wp_ok in Hi as ([] & s1 & E1 & Hs1). exists s1. split; [done|]. clear E1. generalize dependent (mk_text [] []). revert s1.
  induction bufs as [|buf bufs IH]; intros s1 t Hs1; [by exists s1|]. simpl. pose proof (write_wp W H _ _ HW HH Ha t buf s1 Hs1) as ([] & s2 & E2 & Hs2)%wp_ok.
  destruct (IH s2 _ Hs2) as (s3 & E3 & Hs3). exists s3. rewrite foldl_app. split; [|done]. unfold stream_write, bind. rewrite E2. simpl. by rewrite Z.eqb_refl.
Qed.

Definition ex_vga : vga := mk_vga (list_to_map (map (fun i => (i, 0xFF)) (range 0xC00B8000 0xC00B800C))) 0xB8000 0.

Lemma ex_vga_mapped : mapped (vmem ex_vga) 0xC00B8000 12.
Proof.
  intros k Hk. apply elem_of_dom. unfold ex_vga. cbn [vmem]. rewrite dom_list_to_map. apply elem_of_list_to_set. apply list_elem_of_fmap. exists (k, 0xFF). split; [done|].
  apply list_elem_of_fmap. exists k. split; [done|]. apply elem_of_range. lia.
Qed.

Lemma vga_write_correct_witness :
  foldl (feed 2) (mk_text [] []) [65; 66; 10; 67] = mk_text [[65; 66]] [67] /\
  exists s1, vga_init (Z.of_nat 2) (Z.of_nat 3) ex_vga = Ok (tt, s1) /\
  exists s2, for_each [[65; 66; 10]; [67]] (fun buf => do n <- stream_write (Z.of_nat 2) (Z.of_nat 3) buf; ASSERT (n =? Z.of_nat (length buf)) "length") s1 = Ok (tt, s2) /\
    shows 2 3 (vmem ex_vga) (to_virt (MATRIX_ADDR ex_vga)) (foldl (feed 2) (mk_text [] []) (concat [[65; 66; 10]; [67]])) s2.
Proof.
  split; [vm_compute; reflexivity|]. apply (vga_write_correct 2 3 ex_vga [[65; 66; 10]; [67]]); [lia|lia| |exact ex_vga_mapped|reflexivity].
  unfold in_space. vm_compute. split_and!; done.
Defined.

(** Newlines after a row that is full are dropped, however many there are. *)
Lemma newlines_dropped (W : nat) t n : length (last_row t) = W -> foldl (feed W) t (replicate n 10) = t.
Proof. intros Hl. induction n as [|n IH]; [done|]. simpl. unfold feed at 2. by rewrite decide_True. Qed.
