(* ===== verification/Tty.v ===== *)
(** * Formatted output: [src/tty.c]

    [tty_printf] over any output stream.  The format and the strings are in memory,
    read by [rd]; the arguments are the 32-bit words that the caller pushed.  The
    specification [format] gives the characters of the output, and the code writes
    them one by one. *)

From S2P Require Import Prelude Math CMem.

Definition s64 (x : Z) : Z := let y := u64 x in if y <? 2 ^ 63 then y else y - 2 ^ 64.

(** ** The code *)

Section Tty.
(** [OUTPUT_STREAM->write], reading a byte of memory, and the lock of the tty. *)
Context {S : Type} (write : list Z -> M S Z) (rd : Z -> M S Z) (lock unlock : M S unit).

Definition putc (chr : Z) : M S unit := write [u8 chr];;; ret tt.

Definition max_digits : nat := 19.

(** [while (curr)]: the digits of [curr], the last one first.  Writing behind the
    end of the array traps. *)
Fixpoint uint_digits (fuel : nat) (curr : Z) (digits : list Z) : M S (list Z) :=
  if curr =? 0 then ret digits else
  match fuel with
  | O => halt_with (Hang "output_uint")
  | Datatypes.S fuel' =>
      if (max_digits <=? length digits)%nat then halt_with (Trap "digits") else
      uint_digits fuel' (curr / 10) (digits ++ [48 + curr mod 10])
  end.

(** A 64-bit number has at most 20 digits. *)
Definition output_uint (n : Z) : M S unit :=
  if n =? 0 then putc 48 else
  do digits <- uint_digits 20 n [];
  for_each (rev digits) putc.

Definition output_sint (n : Z) : M S unit :=
  if n <? 0 then putc 45;;; output_uint (u64 (- n)) else output_uint (u64 n).

(** The value of [i] in the iterations of the loop of [output_uint_hex]. *)
Definition hex_shifts (is64bits : bool) : list Z := map (fun k => 4 * k) (rev (range 0 (if is64bits then 16 else 8))).

Definition output_uint_hex (n : Z) (is64bits : bool) : M S unit :=
  putc 48;;; putc 120;;;
  for_each (hex_shifts is64bits) (fun i =>
    let mask := u64 (Z.shiftl 0xF i) in
    let half_byte := u8 (Z.shiftr (Z.land n mask) i) in
    if half_byte <? 0xA then putc (48 + half_byte) else putc (65 + (half_byte - 0xA))).

(** [va_arg] of a 32-bit and of a 64-bit type. *)
Definition va_arg32 (l : list Z) : M S (Z * list Z) :=
  match l with w :: l' => ret (w, l') | [] => halt_with (Trap "va_arg") end.
Definition va_arg64 (l : list Z) : M S (Z * list Z) :=
  match l with lo :: hi :: l' => ret (lo + 2 ^ 32 * hi, l') | _ => halt_with (Trap "va_arg") end.

Section Fuel.
(** More than the length of the strings. *)
Context (fuel : nat).

Fixpoint put_string (n : nat) (str i : Z) : M S unit :=
  match n with
  | O => halt_with (Hang "handle_substitution")
  | Datatypes.S n' =>
      do len <- strlen fuel rd str;
      if i <? len then do c <- rd (u32 (str + i)); putc c;;; put_string n' str (u32 (i + 1)) else ret tt
  end.

Definition substitute (type : Z) (list : list Z) : M S (Datatypes.list Z) :=
  if type =? 100 then do '(v, l) <- va_arg32 list; output_sint (s32 v);;; ret l
  else if type =? 68 then do '(v, l) <- va_arg64 list; output_sint (s64 v);;; ret l
  else if type =? 117 then do '(v, l) <- va_arg32 list; output_uint v;;; ret l
  else if type =? 85 then do '(v, l) <- va_arg64 list; output_uint v;;; ret l
  else if (type =? 112) || (type =? 120) then do '(v, l) <- va_arg32 list; output_uint_hex v false;;; ret l
  else if type =? 88 then do '(v, l) <- va_arg64 list; output_uint_hex v true;;; ret l
  else if type =? 115 then do '(str, l) <- va_arg32 list; put_string fuel str 0;;; ret l
  else if type =? 99 then do '(v, l) <- va_arg32 list; putc v;;; ret l
  else putc 37;;; putc type;;; ret list.

(** It returns the pointers that the code updates through its arguments. *)
Definition handle_substitution (fmt : Z) (list : list Z) : M S (Z * Datatypes.list Z) :=
  do type <- rd fmt;
  do l <- substitute type list;
  ret (u32 (fmt + 1), l).

(** [while ( *curr && ( *curr != '%') )] *)
Fixpoint put_text (n : nat) (curr : Z) : M S Z :=
  match n with
  | O => halt_with (Hang "do_printf")
  | Datatypes.S n' =>
      do c <- rd curr;
      if (c =? 0) || (c =? 37) then ret curr else putc c;;; put_text n' (u32 (curr + 1))
  end.

Fixpoint printf_loop (n : nat) (curr : Z) (list : list Z) : M S unit :=
  match n with
  | O => halt_with (Hang "do_printf")
  | Datatypes.S n' =>
      if curr =? 0 then ret tt else
      do curr <- put_text fuel curr;
      do c <- rd curr;
      if c =? 0 then ret tt else
      let curr := u32 (curr + 1) in
      do c <- rd curr;
      if c =? 0 then putc 37 else
      do '(curr, list) <- handle_substitution curr list;
      printf_loop n' curr list
  end.

Definition do_printf (fmt : Z) (list : list Z) : M S unit := printf_loop fuel fmt list.

Definition tty_printf (fmt : Z) (list : list Z) : M S unit := lock;;; do_printf fmt list;;; unlock.

End Fuel.
End Tty.

(** ** Specification *)

(** The digits of [n > 0], with the fuel of its number of bits. *)
Fixpoint digits_of (fuel : nat) (n : Z) : list Z :=
  match fuel with
  | O => []
  | S fuel' => if n =? 0 then [] else digits_of fuel' (n / 10) ++ [48 + n mod 10]
  end.

Definition dec (n : Z) : list Z := if n =? 0 then [48] else digits_of (Z.to_nat (Z.log2 n + 1)) n.
Definition sdec (n : Z) : list Z := if n <? 0 then 45 :: dec (- n) else dec n.

Definition hex_digit (d : Z) : Z := if d <? 10 then 48 + d else 55 + d.
Definition hex (k : nat) (n : Z) : list Z := 48 :: 120 :: map (fun i => hex_digit (n / 16 ^ i mod 16)) (rev (range 0 (Z.of_nat k))).

(** What the number of a conversion is printed as; none where the array of the
    digits is too short. *)
Definition fit (n : Z) (l : list Z) : option (list Z) := if n <? 10 ^ 19 then Some l else None.

Section Format.
Context (str_at : Z -> option (list Z)).

(** The next argument of 32 or of 64 bits, as [f] prints it. *)
Definition with32 (f : Z -> option (list Z)) (args : list Z) : option (list Z * list Z) :=
  match args with v :: args' => match f v with Some l => Some (l, args') | None => None end | [] => None end.
Definition with64 (f : Z -> option (list Z)) (args : list Z) : option (list Z * list Z) :=
  match args with lo :: hi :: args' => match f (lo + 2 ^ 32 * hi) with Some l => Some (l, args') | None => None end | _ => None end.

Definition convert (type : Z) (args : list Z) : option (list Z * list Z) :=
  if type =? 100 then with32 (fun v => Some (sdec (s32 v))) args
  else if type =? 68 then with64 (fun v => Some (sdec (s64 v))) args
  else if type =? 117 then with32 (fun v => Some (dec v)) args
  else if type =? 85 then with64 (fun v => fit v (dec v)) args
  else if (type =? 112) || (type =? 120) then with32 (fun v => Some (hex 8 v)) args
  else if type =? 88 then with64 (fun v => Some (hex 16 v)) args
  else if type =? 115 then with32 str_at args
  else if type =? 99 then with32 (fun v => Some [u8 v]) args
  else Some ([37; type], args).

(** The characters of the output: a [%] and the character behind it are replaced. *)
Fixpoint format (fmt : list Z) (args : list Z) : option (list Z) :=
  match fmt with
  | [] => Some []
  | c :: fmt' =>
      if c =? 37 then
        match fmt' with
        | [] => Some [37]
        | type :: fmt'' =>
            match convert type args with
            | Some (l, args') => match format fmt'' args' with Some l' => Some (l ++ l') | None => None end
            | None => None
            end
        end
      else match format fmt' args with Some l' => Some (c :: l') | None => None end
  end.

End Format.

(** ** Equality of computations *)

Definition meq {S A} (m m' : M S A) : Prop := forall s, m s = m' s.
Infix "≈" := meq (at level 70) : kernel_scope.

#[export] Instance meq_equiv {S A} : Equivalence (@meq S A).
Proof. split; [by intros m s|by intros m m' E s|by intros m m' m'' E E' s; rewrite E]. Qed.

#[export] Instance bind_proper {S A B} : Proper (meq ==> pointwise_relation A meq ==> meq) (@bind S A B).
Proof. intros m m' E k k' Ek s. unfold bind. rewrite E. destruct (m' s) as [[a s']|]; [apply Ek|done]. Qed.

Lemma bind_assoc_meq {S A B C} (m : M S A) (k : A -> M S B) (h : B -> M S C) : (do y <- (do x <- m; k x); h y) ≈ (do x <- m; do y <- k x; h y).
Proof. intros s. unfold bind. by destruct (m s) as [[a s']|]. Qed.

Lemma ret_bind {S A B} (a : A) (k : A -> M S B) : bind (ret a) k ≈ k a.
Proof. done. Qed.

Lemma bind_ret {S} (m : M S unit) : (m;;; ret tt) ≈ m.
Proof. intros s. unfold bind. by destruct (m s) as [[[] s']|]. Qed.

Lemma for_each_app {S A} (l k : list A) (f : A -> M S unit) : for_each (l ++ k) f ≈ (for_each l f;;; for_each k f).
Proof. induction l as [|x l IH]; [done|]. simpl. rewrite bind_assoc_meq. f_equiv. intros []. apply IH. Qed.

(** A value that does not depend on the state. *)
Lemma bind_stable {S A B} (m : M S A) (a : A) (k : A -> M S B) : (forall s, m s = Ok (a, s)) -> bind m k ≈ k a.
Proof. intros E s. by erewrite bind_ok by apply E. Qed.

(** ** Numbers *)

Lemma digits_of_fuel f f' n : 0 <= n < 10 ^ Z.of_nat f -> n < 10 ^ Z.of_nat f' -> digits_of f n = digits_of f' n.
Proof.
  revert f' n. induction f as [|f IH]; intros f' n Hn Hn'.
  - replace n with 0 by (simpl in Hn; lia). by destruct f'.
  - destruct f' as [|f']; [replace n with 0 by (simpl in Hn'; lia); done|]. simpl. destruct (Z.eqb_spec n 0); [done|]. f_equal.
    rewrite !Nat2Z.inj_succ, !Z.pow_succ_r in * by lia. apply IH; Z.to_euclidean_division_equations; lia.
Qed.

Lemma dec_fuel n : 0 < n -> n < 10 ^ Z.of_nat (Z.to_nat (Z.log2 n + 1)).
Proof.
  intros Hn. pose proof (Z.log2_spec n Hn) as [_ H]. pose proof (Z.log2_nonneg n). rewrite Z2Nat.id by lia. eapply Z.lt_le_trans; [exact H|]. apply Z.pow_le_mono_l. lia.
Qed.

Lemma dec_digits f n : 0 < n < 10 ^ Z.of_nat f -> dec n = digits_of f n.
Proof. intros Hn. unfold dec. rewrite (proj2 (Z.eqb_neq n 0)) by lia. apply digits_of_fuel; [split; [lia|apply dec_fuel; lia]|lia]. Qed.

Section Numbers.
Context {S : Type} (write : list Z -> M S Z).

Lemma uint_digits_run k fuel n d : 0 <= n < 10 ^ Z.of_nat k -> (k <= fuel)%nat -> (length d + k <= max_digits)%nat ->
  uint_digits fuel n d = (ret (d ++ rev (digits_of k n)) : M S (list Z)).
Proof.
  revert fuel n d. induction k as [|k IH]; intros fuel n d Hn Hk Hd.
  - replace n with 0 by (simpl in Hn; lia). destruct fuel; simpl; by rewrite app_nil_r.
  - destruct fuel as [|fuel]; [lia|]. cbn [uint_digits digits_of]. destruct (Z.eqb_spec n 0) as [->|Hne]; [by rewrite app_nil_r|].
    unfold max_digits in *. rewrite (proj2 (Nat.leb_gt 19 (length d))) by lia. rewrite Nat2Z.inj_succ, Z.pow_succ_r in Hn by lia. rewrite IH.
    + rewrite rev_app_distr, <- (assoc_L app). done.
    + Z.to_euclidean_division_equations; lia.
    + lia.
    + rewrite length_app. simpl. lia.
Qed.

(** A number with more digits overflows the array. *)
Lemma uint_digits_overflow k fuel n d : 10 ^ Z.of_nat k <= n -> (k < fuel)%nat -> (length d + k = max_digits)%nat ->
  uint_digits fuel n d = (halt_with (Trap "digits") : M S (list Z)).
Proof.
  revert fuel n d. induction k as [|k IH]; intros fuel n d Hn Hk Hd; (destruct fuel as [|fuel]; [lia|]); cbn [uint_digits].
  - simpl in Hn. rewrite (proj2 (Z.eqb_neq n 0)) by lia. rewrite (proj2 (Nat.leb_le _ _)) by lia. done.
  - rewrite Nat2Z.inj_succ, Z.pow_succ_r in Hn by lia. assert (0 < 10 ^ Z.of_nat k) by (apply Z.pow_pos_nonneg; lia). rewrite (proj2 (Z.eqb_neq n 0)) by lia.
    unfold max_digits in *. rewrite (proj2 (Nat.leb_gt 19 (length d))) by lia. apply IH; [Z.to_euclidean_division_equations; lia|lia|rewrite length_app; simpl; lia].
Qed.

Lemma output_uint_run n : 0 <= n < 10 ^ 19 -> output_uint write n ≈ for_each (dec n) (putc write).
Proof.
  intros Hn. unfold output_uint. destruct (Z.eqb_spec n 0) as [->|Hne]; [by simpl; rewrite bind_ret|].
  rewrite (uint_digits_run 19) by (unfold max_digits; change (Z.of_nat 19) with 19; simpl length; lia). rewrite ret_bind. simpl app. rewrite rev_involutive. by rewrite (dec_digits 19) by (simpl; lia).
Qed.

Lemma output_sint_run n : - 2 ^ 63 <= n < 2 ^ 63 -> output_sint write n ≈ for_each (sdec n) (putc write).
Proof.
  intros Hn. unfold output_sint, sdec. destruct (Z.ltb_spec n 0); simpl; rewrite u64_id by lia; [|apply output_uint_run; lia].
  f_equiv. intros []. apply output_uint_run. lia.
Qed.

Lemma hex_half_byte n i : 0 <= n -> 0 <= i < 16 -> u8 (Z.shiftr (Z.land n (u64 (Z.shiftl 0xF (4 * i)))) (4 * i)) = n / 16 ^ i mod 16.
Proof.
  intros Hn Hi. assert (Hs : Z.shiftl 0xF (4 * i) = 15 * 16 ^ i) by (rewrite Z.shiftl_mul_pow2 by lia; by rewrite Z.pow_mul_r by lia).
  assert (Hp : 0 < 16 ^ i <= 16 ^ 15) by (split; [apply Z.pow_pos_nonneg; lia|apply Z.pow_le_mono_r; lia]).
  rewrite u64_id by (rewrite Hs; lia). rewrite Z.shiftr_land, Z.shiftr_shiftl_l, Z.sub_diag, Z.shiftl_0_r by lia.
  change 15 with (Z.ones 4). rewrite Z.land_ones, Z.shiftr_div_pow2, Z.pow_mul_r by lia. change (2 ^ 4) with 16.
  rewrite u8_id; [done|]. pose proof (Z.mod_pos_bound (n / 16 ^ i) 16). lia.
Qed.

Lemma output_uint_hex_run n (b : bool) : 0 <= n -> output_uint_hex write n b ≈ for_each (hex (if b then 16 else 8) n) (putc write).
Proof.
  intros Hn. unfold output_uint_hex, hex, hex_shifts. simpl. f_equiv. intros []. f_equiv. intros [].
  assert (Hl : forall i, i ∈ rev (range 0 (if b then 16 else 8)) -> 0 <= i < 16) by (intros i Hi; apply list_elem_of_In, in_rev, list_elem_of_In, elem_of_range in Hi; destruct b; lia).
  replace (Z.of_nat (if b then 16 else 8)) with (if b then 16 else 8) by by destruct b.
  induction (rev (range 0 (if b then 16 else 8))) as [|i l IH]; [done|]. simpl. rewrite hex_half_byte by (done || apply Hl; left). f_equiv; [|intros []; apply IH; intros j Hj; apply Hl; by right].
  unfold hex_digit. destruct (_ <? _); [done|]. by replace (65 + (n / 16 ^ i mod 16 - 10)) with (55 + n / 16 ^ i mod 16) by lia.
Qed.

End Numbers.

(** ** The loop *)

Lemma u32_next x : u32 (u32 x + 1) = u32 (x + 1).
Proof. unfold u32. by rewrite Zplus_mod_idemp_l. Qed.

Section Printf.
Context {St : Type} (write : list Z -> M St Z) (rd : Z -> M St Z) (fuel : nat) (str_at : Z -> option (list Z)).

(** The string [l] is at [v], in every state. *)
Definition reads (v : Z) (l : list Z) : Prop := Z.of_nat (length l) < 2 ^ 32 /\ (length l < fuel)%nat /\ (0 ∉ l) /\ forall st, cstring rd st v l.

Hypothesis Hstr : forall v l, str_at v = Some l -> reads v l.

Abbreviation words := (Forall (fun w => 0 <= w < 2 ^ 32)).

Lemma reads_char v l i c : reads v l -> l !! i = Some c -> (forall st, rd (u32 (v + Z.of_nat i)) st = Ok (c, st)) /\ c <> 0.
Proof.
  intros (_ & _ & H0 & Hs) Hi. split; [intros st; by destruct (cstring_char st rd v l i c (Hs st) Hi)|]. intros ->. by apply H0, (list_elem_of_lookup_2 _ i).
Qed.

Lemma reads_end v l : reads v l -> forall st, rd (u32 (v + Z.of_nat (length l))) st = Ok (0, st).
Proof. intros (_ & _ & _ & Hs) st. apply (Hs st). Qed.

Lemma put_string_run v l i n : reads v l -> (i <= length l)%nat -> (length l - i < n)%nat ->
  put_string write rd fuel n v (Z.of_nat i) ≈ for_each (drop i l) (putc write).
Proof.
  intros Hs. pose proof Hs as (Hb & Hl & _ & Hc). revert i. induction n as [|n IH]; intros i Hi Hn; [lia|]. simpl.
  rewrite (bind_stable _ (Z.of_nat (length l))) by (intros st; by apply strlen_run).
  destruct (decide (i = length l)) as [->|Hne]; [by rewrite Z.ltb_irrefl, drop_all|]. rewrite (proj2 (Z.ltb_lt _ _)) by lia.
  destruct (lookup_lt_is_Some_2 l i) as [c Ei]; [lia|]. rewrite (drop_S l c i Ei). rewrite (bind_stable _ c) by by eapply reads_char. simpl. f_equiv. intros [].
  rewrite u32_id by lia. replace (Z.of_nat i + 1) with (Z.of_nat (S i)) by lia. apply IH; lia.
Qed.

Lemma s64_range x : - 2 ^ 63 <= s64 x < 2 ^ 63.
Proof. unfold s64. pose proof (u64_range x). cbv zeta. destruct (Z.ltb_spec (u64 x) (2 ^ 63)); lia. Qed.

Lemma s32_range x : - 2 ^ 31 <= s32 x < 2 ^ 31.
Proof. unfold s32. pose proof (u32_range x). case_match; breflect; lia. Qed.

(** An argument of a conversion is what the code reads. *)
Lemma with32_run f out args l args' : (forall v l, 0 <= v < 2 ^ 32 -> f v = Some l -> out v ≈ for_each l (putc write)) ->
  words args -> with32 f args = Some (l, args') -> words args' /\ (do '(v, k) <- va_arg32 args; out v;;; ret k) ≈ (for_each l (putc write);;; ret args').
Proof.
  intros Hf Hw. destruct args as [|v args]; [done|]. apply Forall_cons in Hw as [Hv Hw]. simpl. destruct (f v) as [l1|] eqn:E; [|done]. intros [= <- <-].
  split; [done|]. rewrite ret_bind. by rewrite (Hf v l1 Hv E).
Qed.

Lemma with64_run f out args l args' : (forall v l, 0 <= v < 2 ^ 64 -> f v = Some l -> out v ≈ for_each l (putc write)) ->
  words args -> with64 f args = Some (l, args') -> words args' /\ (do '(v, k) <- va_arg64 args; out v;;; ret k) ≈ (for_each l (putc write);;; ret args').
Proof.
  intros Hf Hw. destruct args as [|lo [|hi args]]; [done|done|]. apply Forall_cons in Hw as [Hlo Hw]. apply Forall_cons in Hw as [Hhi Hw]. unfold with64, va_arg64.
  assert (Hx : 0 <= lo + 2 ^ 32 * hi < 2 ^ 64) by lia. destruct (f (lo + 2 ^ 32 * hi)) as [l1|] eqn:E; [|done]. intros [= <- <-].
  split; [done|]. rewrite ret_bind. by rewrite (Hf _ l1 Hx E).
Qed.

(** The characters of one conversion. *)
Lemma substitute_run type args l args' : words args -> convert str_at type args = Some (l, args') ->
  words args' /\ substitute write rd fuel type args ≈ (for_each l (putc write);;; ret args').
Proof using Hstr.
  intros Hw. unfold convert, substitute. repeat (case_match; [first [apply with32_run|apply with64_run]; try done|]); try (intros v l' Hv [= <-]).
  - apply output_sint_run. pose proof (s32_range v). lia.
  - apply output_sint_run, s64_range.
  - apply output_uint_run. lia.
  - intros v l' Hv Hf. unfold fit in Hf. destruct (Z.ltb_spec v (10 ^ 19)); [injection Hf as <-|done]. apply output_uint_run. lia.
  - apply (output_uint_hex_run write v false). lia.
  - apply (output_uint_hex_run write v true). lia.
  - intros v l' Hv Hf. apply (put_string_run v l' 0); [by apply Hstr|lia|]. destruct (Hstr v l' Hf) as (_ & ? & _). lia.
  - simpl. rewrite bind_ret. unfold putc. by rewrite (u8_id (u8 v)) by apply u8_range.
  - intros [= <- <-]. split; [done|]. simpl. rewrite bind_assoc_meq. f_equiv. intros []. by rewrite bind_ret.
Qed.

(** The text up to a [%] or the end. *)
Lemma put_text_run p fmt i n : reads p fmt -> (i <= length fmt)%nat -> (length fmt - i < n)%nat ->
  exists j, (i <= j <= length fmt)%nat /\ put_text write rd n (u32 (p + Z.of_nat i)) ≈ (for_each (take (j - i) (drop i fmt)) (putc write);;; ret (u32 (p + Z.of_nat j))) /\
    Forall (fun c => c <> 37) (take (j - i) (drop i fmt)) /\ (fmt !! j = None \/ fmt !! j = Some 37).
Proof.
  intros Hs. revert i. induction n as [|n IH]; intros i Hi Hn; [lia|]. destruct (decide (i = length fmt)) as [->|Hne].
  - exists (length fmt). split; [lia|]. simpl. rewrite (bind_stable _ 0) by by apply reads_end. rewrite Nat.sub_diag. simpl. split; [done|]. split; [constructor|left; by apply lookup_ge_None].
  - destruct (lookup_lt_is_Some_2 fmt i) as [c Ei]; [lia|]. destruct (reads_char p fmt i c Hs Ei) as [Hr Hc]. simpl. destruct (Z.eqb_spec c 37) as [->|H37].
    + exists i. split; [lia|]. rewrite (bind_stable _ 37) by done. rewrite Nat.sub_diag. simpl. split; [done|]. split; [constructor|by right].
    + destruct (IH (S i) ltac:(lia) ltac:(lia)) as (j & Hj & E & Hf & He). exists j. split; [lia|]. rewrite (drop_S fmt c i Ei). replace (j - i)%nat with (S (j - S i)) by lia. simpl.
      split; [|split; [by constructor|done]]. rewrite (bind_stable _ c) by done. rewrite (proj2 (Z.eqb_neq c 0) Hc), (proj2 (Z.eqb_neq c 37) H37). simpl. rewrite bind_assoc_meq. f_equiv. intros [].
      rewrite u32_next. replace (p + Z.of_nat i + 1) with (p + Z.of_nat (S i)) by lia. exact E.
Qed.

Lemma format_text text rest args l : Forall (fun c => c <> 37) text -> format str_at (text ++ rest) args = Some l ->
  exists l', format str_at rest args = Some l' /\ l = text ++ l'.
Proof.
  revert l. induction text as [|c text IH]; intros l Hf Hl; [by exists l|]. apply Forall_cons in Hf as [Hc Hf]. simpl in Hl. rewrite (proj2 (Z.eqb_neq c 37) Hc) in Hl.
  destruct (format str_at (text ++ rest) args) as [k|]; [|done]. injection Hl as <-. destruct (IH k Hf eq_refl) as (l' & E & ->). by exists l'.
Qed.

Lemma printf_run p fmt i n args l : reads p fmt -> 0 < p -> p + Z.of_nat (length fmt) < 2 ^ 32 -> (i <= length fmt)%nat -> (length fmt - i < n)%nat ->
  words args -> format str_at (drop i fmt) args = Some l -> printf_loop write rd fuel n (u32 (p + Z.of_nat i)) args ≈ for_each l (putc write).
Proof using Hstr.
  intros Hs Hp Hb. revert i args l. induction n as [|n IH]; intros i args l Hi Hn Hw Hl; [lia|]. cbn [printf_loop]. rewrite (proj2 (Z.eqb_neq (u32 (p + Z.of_nat i)) 0)) by (rewrite u32_id by lia; lia).
  pose proof Hs as (_ & Hfu & _). destruct (put_text_run p fmt i fuel Hs Hi ltac:(lia)) as (j & Hj & E & Hf & He). rewrite E, bind_assoc_meq.
  assert (Hd : drop i fmt = take (j - i) (drop i fmt) ++ drop j fmt) by (rewrite <- (take_drop (j - i) (drop i fmt)) at 1; by rewrite drop_drop, Nat.add_sub_assoc, Nat.add_comm, Nat.add_sub by lia).
  rewrite Hd in Hl. destruct (format_text _ _ _ _ Hf Hl) as (l' & El & ->). rewrite for_each_app. f_equiv. intros []. rewrite ret_bind. clear E Hf Hl Hd.
  destruct He as [He|He].
  - apply lookup_ge_None in He. replace j with (length fmt) in * by lia. rewrite (bind_stable _ 0) by by apply reads_end. rewrite drop_all in El. by injection El as <-.
  - destruct (reads_char p fmt j 37 Hs He) as [Hr _]. rewrite (bind_stable _ 37) by done. rewrite (drop_S fmt 37 j He) in El. simpl in El. pose proof (lookup_lt_Some _ _ _ He) as Hjl. simpl. rewrite u32_next.
    replace (p + Z.of_nat j + 1) with (p + Z.of_nat (S j)) by lia. destruct (decide (S j = length fmt)) as [Ej|Hne].
    + rewrite Ej. rewrite (bind_stable _ 0) by by apply reads_end. rewrite Ej, drop_all in El. injection El as <-. simpl. by rewrite bind_ret.
    + destruct (lookup_lt_is_Some_2 fmt (S j)) as [type Et]; [lia|]. destruct (reads_char p fmt (S j) type Hs Et) as [Hr' Ht]. rewrite (drop_S fmt type (S j) Et) in El.
      rewrite (bind_stable _ type) by done. rewrite (proj2 (Z.eqb_neq type 0) Ht). destruct (convert str_at type args) as [[k args']|] eqn:Ec; [|done].
      destruct (format str_at (drop (S (S j)) fmt) args') as [l2|] eqn:E2; [|done]. injection El as <-. destruct (substitute_run type args k args' Hw Ec) as [Hw' Hsub].
      unfold handle_substitution. rewrite (bind_stable (rd _) type) by done. rewrite !bind_assoc_meq, Hsub, bind_assoc_meq, for_each_app. f_equiv. intros []. rewrite !ret_bind. rewrite u32_next.
      replace (p + Z.of_nat (S j) + 1) with (p + Z.of_nat (S (S j))) by lia. apply IH; [lia|lia|done|done].
Qed.

End Printf.

(** ** Properties *)

(** C39: [tty_printf] is equivalent, for every output stream and in every state, to writing the characters of [format] one by one under the lock of the tty: text is
    copied, each conversion is replaced by its argument as a decimal number, a hexadecimal number, a string or a character, an unknown conversion and a
    [%] at the end stand for themselves, and the loops end with the format. *)
Theorem tty_printf_correct {S} (write : list Z -> M S Z) rd lock unlock fuel str_at p fmt args l :
  (forall v l, str_at v = Some l -> reads rd fuel v l) -> reads rd fuel p fmt -> 0 < p -> p + Z.of_nat (length fmt) < 2 ^ 32 ->
  Forall (fun w => 0 <= w < 2 ^ 32) args -> format str_at fmt args = Some l ->
  tty_printf write rd lock unlock fuel p args ≈ (lock;;; for_each l (putc write);;; unlock).
Proof.
  intros Hstr Hs Hp Hb Hw Hl. unfold tty_printf, do_printf. pose proof Hs as (_ & Hf & _). f_equiv. intros []. f_equiv.
  pose proof (printf_run write rd fuel str_at Hstr p fmt 0 fuel args l Hs Hp Hb ltac:(lia) ltac:(lia) Hw Hl) as H. rewrite Z.add_0_r in H. by rewrite u32_id in H by lia.
Qed.

(** The bytes of an example: the format and a string in one buffer, after four unused bytes. *)
Definition ex_text : list Z := [1; 1; 1; 1; 37; 100; 32; 37; 115; 37; 120; 37; 0; 111; 107; 0].
Definition ex_out (l : list Z) : M (list Z) Z := fun s => Ok (Z.of_nat (length l), s ++ l).

Definition ex_fmt : list Z := [37; 100; 32; 37; 115; 37; 120; 37].
Definition ex_str_at (v : Z) : option (list Z) := if v =? 13 then Some [111; 107] else None.

Lemma ex_reads_fmt : reads (rd_buf (S := list Z) ex_text) 16 4 ex_fmt.
Proof.
  assert (H0 : 0 ∉ ex_fmt) by (unfold ex_fmt; rewrite !not_elem_of_cons; split_and!; try done; apply not_elem_of_nil).
  split; [done|]. split; [vm_compute; lia|]. split; [done|]. intros st. split; [|done]. intros i c Hi. do 8 (destruct i as [|i]; [injection Hi as <-; done|]). done.
Qed.

Lemma ex_reads_str v l : ex_str_at v = Some l -> reads (rd_buf (S := list Z) ex_text) 16 v l.
Proof.
  unfold ex_str_at. destruct (Z.eqb_spec v 13) as [->|]; [|done]. intros [= <-]. assert (H0 : 0 ∉ [111; 107]) by (rewrite !not_elem_of_cons; split_and!; try done; apply not_elem_of_nil).
  split; [done|]. split; [vm_compute; lia|]. split; [done|]. intros st. split; [|done]. intros i c Hi. do 2 (destruct i as [|i]; [injection Hi as <-; done|]). done.
Qed.

Lemma tty_printf_correct_witness :
  tty_printf ex_out (rd_buf ex_text) (ret tt) (ret tt) 16 4 [0xFFFFFFFF; 13; 0xBEEF] [] =
    Ok (tt, [45; 49; 32; 111; 107; 48; 120; 48; 48; 48; 48; 66; 69; 69; 70; 37]).
Proof.
  exact (tty_printf_correct ex_out (rd_buf ex_text) (ret tt) (ret tt) 16 ex_str_at 4 ex_fmt [0xFFFFFFFF; 13; 0xBEEF] [45; 49; 32; 111; 107; 48; 120; 48; 48; 48; 48; 66; 69; 69; 70; 37]
    ex_reads_str ex_reads_fmt ltac:(lia) ltac:(done) ltac:(repeat constructor; lia) ltac:(vm_compute; reflexivity) []).
Defined.

(** *** Numbers *)

Definition value (b : Z) (digit : Z -> Z) (l : list Z) : Z := foldl (fun a c => b * a + digit c) 0 l.

Definition dec_value (c : Z) : Z := c - 48.
Definition hex_value (c : Z) : Z := if c <? 65 then c - 48 else c - 55.

Lemma value_snoc b digit l c : value b digit (l ++ [c]) = b * value b digit l + digit c.
Proof. unfold value. by rewrite foldl_app. Qed.

Lemma value_cons b digit c l : 0 <= b -> value b digit (c :: l) = digit c * b ^ Z.of_nat (length l) + value b digit l.
Proof.
  intros Hb. induction l as [|d l IH] using rev_ind; [unfold value; simpl; lia|]. rewrite app_comm_cons, !value_snoc, IH, length_app. simpl. rewrite Nat.add_1_r, Nat2Z.inj_succ, Z.pow_succ_r by lia. lia.
Qed.

Lemma digits_of_spec f n : 0 <= n < 10 ^ Z.of_nat f ->
  value 10 dec_value (digits_of f n) = n /\ Forall (fun c => 48 <= c <= 57) (digits_of f n) /\ (n = 0 <-> digits_of f n = []) /\ head (digits_of f n) <> Some 48.
Proof.
  revert n. induction f as [|f IH]; intros n Hn; [simpl in Hn; replace n with 0 by lia; done|]. rewrite Nat2Z.inj_succ, Z.pow_succ_r in Hn by lia. simpl. destruct (Z.eqb_spec n 0) as [->|Hne]; [done|].
  destruct (IH (n / 10)) as (E1 & E2 & E3 & E4); [Z.to_euclidean_division_equations; lia|]. pose proof (Z.mod_pos_bound n 10 ltac:(lia)) as Hm. split_and!.
  - rewrite value_snoc, E1. unfold dec_value. Z.to_euclidean_division_equations; lia.
  - apply Forall_app. split; [done|]. constructor; [lia|constructor].
  - split; [done|]. intros E. by apply app_nil in E as [_ ?].
  - destruct (digits_of f (n / 10)) as [|c l] eqn:E; [|exact E4]. simpl. intros [= E0]. assert (n / 10 = 0) by (by apply E3). Z.to_euclidean_division_equations; lia.
Qed.

Lemma dec_spec n : 0 <= n -> value 10 dec_value (dec n) = n /\ Forall (fun c => 48 <= c <= 57) (dec n) /\ (n <> 0 -> head (dec n) <> Some 48).
Proof.
  intros Hn. unfold dec. destruct (Z.eqb_spec n 0) as [->|Hne]; [split_and!; [done|by repeat constructor|done]|].
  destruct (digits_of_spec (Z.to_nat (Z.log2 n + 1)) n) as (E1 & E2 & _ & E4); [split; [lia|apply dec_fuel; lia]|done].
Qed.

Lemma hex_digit_value d : 0 <= d < 16 -> hex_value (hex_digit d) = d.
Proof. intros Hd. unfold hex_value, hex_digit. repeat case_match; breflect; lia. Qed.

Lemma hex_digits n k : 0 <= n ->
  value 16 hex_value (map (fun i => hex_digit (n / 16 ^ i mod 16)) (rev (range 0 (Z.of_nat k)))) = n mod 16 ^ Z.of_nat k.
Proof.
  intros Hn. induction k as [|k IH]; [by rewrite Z.mod_1_r|]. rewrite Nat2Z.inj_succ, <- Z.add_1_r, (range_app 0 (Z.of_nat k)), (range_cons (Z.of_nat k)), (range_nil (Z.of_nat k + 1)) by lia. rewrite rev_app_distr. simpl.
  rewrite value_cons, IH, length_map, length_rev by lia. unfold range. rewrite length_zrange. rewrite Z.sub_0_r, Z2Nat.id by lia. rewrite Z.add_1_r, Z.pow_succ_r by lia.
  assert (0 < 16 ^ Z.of_nat k) by (apply Z.pow_pos_nonneg; lia). rewrite (Z.mul_comm 16), Z.rem_mul_r by lia.
  assert (Hd : hex_value (hex_digit (n / 16 ^ Z.of_nat k mod 16)) = n / 16 ^ Z.of_nat k mod 16).
  { pose proof (Z.mod_pos_bound (n / 16 ^ Z.of_nat k) 16 ltac:(lia)). by apply hex_digit_value. }
  rewrite Hd. lia.
Qed.

(** C40: the number that [output_uint] or [output_sint] prints can be read back: it is made of decimal digits, without a leading zero, behind a minus sign
    if the number is negative, and its value is the number.  [output_uint_hex] prints "0x" and 8 or 16 digits whose value is the number. *)
Theorem tty_numbers_correct {S} (write : list Z -> M S Z) n :
  (0 <= n < 10 ^ 19 -> exists l, output_uint write n ≈ for_each l (putc write) /\ value 10 dec_value l = n /\ Forall (fun c => 48 <= c <= 57) l /\ (n <> 0 -> head l <> Some 48)) /\
  (- 2 ^ 63 <= n < 2 ^ 63 -> exists l, output_sint write n ≈ for_each ((if n <? 0 then [45] else []) ++ l) (putc write) /\ value 10 dec_value l = Z.abs n) /\
  (forall b : bool, 0 <= n < 2 ^ (if b then 64 else 32) -> exists l, output_uint_hex write n b ≈ for_each (48 :: 120 :: l) (putc write) /\
    length l = (if b then 16 else 8)%nat /\ value 16 hex_value l = n).
Proof.
  split_and!.
  - intros Hn. exists (dec n). split; [by apply output_uint_run|]. apply dec_spec. lia.
  - intros Hn. exists (dec (Z.abs n)). split; [|apply dec_spec; lia]. rewrite output_sint_run by done. unfold sdec. destruct (Z.ltb_spec n 0); [by rewrite Z.abs_neq by lia|by rewrite Z.abs_eq by lia].
  - intros b Hn. eexists. split; [apply output_uint_hex_run; lia|]. split.
    + rewrite length_map, length_rev. unfold range. rewrite length_zrange. by destruct b.
    + rewrite hex_digits by lia. apply Z.mod_small. by destruct b.
Qed.

Lemma tty_numbers_correct_witness : exists l, output_uint ex_out 4096 ≈ for_each l (putc ex_out) /\ value 10 dec_value l = 4096.
Proof. destruct (tty_numbers_correct ex_out 4096) as [H _]. destruct (H ltac:(lia)) as (l & E & Ev & _). by exists l. Defined.

(** The array of [output_uint] has room for 19 digits; a number of 64 bits can have 20. *)
Lemma output_uint_overflow {S} (write : list Z -> M S Z) n st : 10 ^ 19 <= n < 2 ^ 64 -> output_uint write n st = Halt (Trap "digits").
Proof.
  intros Hn. unfold output_uint. rewrite (proj2 (Z.eqb_neq n 0)) by lia. by rewrite (uint_digits_overflow write 19) by (unfold max_digits; change (Z.of_nat 19) with 19; simpl length; lia).
Qed.
