(* ===== verification/Serial.v ===== *)
(** * The serial port: [src/serial.c]

    The code reads and writes the registers of the controller through [READ_BYTE] and
    [WRITE_BYTE], which are pointers to functions in the source.  [UartLaws] says what
    a controller does with its registers: the theorems hold for every such controller. *)

From S2P Require Import Prelude.

Class Uart (S : Type) := {
  WRITE_BYTE : Z -> Z -> M S unit;
  READ_BYTE : Z -> M S Z }.

(** [enum register_t] *)
Definition DATA : Z := 0.
Definition INT_ENABLE : Z := 1.
Definition LINE_CTRL : Z := 3.
Definition LINE_STATUS : Z := 5.

Definition MAX_BAUD : Z := 115200.

(** [enum parity_t] *)
Definition NONE : Z := 0.

Section Serial.
Context {S : Type} `{Uart S} (COM : Z).

Definition write_register (reg value : Z) : M S unit := WRITE_BYTE (u16 (COM + reg)) value.
Definition read_register (reg : Z) : M S Z := READ_BYTE (u16 (COM + reg)).

(** [get_status().data_ready] and [get_status().trans_buf_empty] *)
Definition data_ready : M S bool := do v <- read_register LINE_STATUS; ret (Z.testbit v 0).
Definition trans_buf_empty : M S bool := do v <- read_register LINE_STATUS; ret (Z.testbit v 5).

Definition dlab_is (dlab : bool) : M S unit :=
  do val <- read_register LINE_CTRL;
  write_register LINE_CTRL (if dlab then Z.lor val 0x80 else Z.land val 0x7F).

Definition set_baud_rate (rate : Z) : M S unit :=
  ASSERT ((0 <? rate) && (rate <=? MAX_BAUD)) "0 < rate && rate <= MAX_BAUD";;;
  when (rate <? 2) (panic "Requested Baud rate is too small");;;
  let divisor := u16 (MAX_BAUD / rate) in
  dlab_is true;;;
  write_register DATA (Z.land divisor 0xF);;;
  write_register INT_ENABLE (u8 (Z.shiftr divisor 8));;;
  dlab_is false.

Definition set_char_length (length : Z) : M S unit :=
  ASSERT ((5 <=? length) && (length <=? 8)) "5 <= length && length <= 8";;;
  do ln_val <- read_register LINE_CTRL;
  write_register LINE_CTRL (Z.lor (Z.land ln_val 0xFC) (u8 (length - 5))).

Definition set_stop_bits (count : Z) : M S unit :=
  ASSERT ((1 <=? count) && (count <=? 2)) "1 <= count && count <= 2";;;
  do ln_val <- read_register LINE_CTRL;
  write_register LINE_CTRL (Z.lor (Z.land ln_val 0xFB) (u8 (Z.shiftl count 1))).

Definition set_parity (parity : Z) : M S unit :=
  do ln_val <- read_register LINE_CTRL;
  write_register LINE_CTRL (Z.lor (Z.land ln_val 0xC7) (u8 (Z.shiftl parity 3))).

Definition enable_serial_interrupt : M S unit := write_register INT_ENABLE 1.

Fixpoint serial_write (buf : list Z) (sent : Z) : M S Z :=
  match buf with
  | [] => ret sent
  | c :: buf' =>
      do b <- trans_buf_empty;
      if (b : bool) then
        write_register DATA c;;;
        when (c =? 10) (write_register DATA 13);;;
        serial_write buf' (u32 (sent + 1))
      else ret sent
  end.

(** It returns the bytes read; [n] is what is left of [len]. *)
Fixpoint serial_read (n : nat) (buf : list Z) : M S (list Z) :=
  match n with
  | O => ret buf
  | Datatypes.S n' =>
      do b <- data_ready;
      if (b : bool) then do c <- read_register DATA; serial_read n' (buf ++ [c]) else ret buf
  end.

Definition serial_init : M S unit :=
  set_baud_rate 38400;;;
  set_char_length 8;;;
  set_stop_bits 1;;;
  set_parity NONE;;;
  enable_serial_interrupt.

End Serial.

(** ** The controller *)

(** The divisor latch, the interrupt enable and the line control registers, what was
    sent, and what waits to be read. *)
Record uart := mk_uart { dll : Z; dlm : Z; ier : Z; lcr : Z; tx : list Z; rx : list Z }.

(** A write to a register; the latch is behind the first two while DLAB is set. *)
Definition uart_write (reg v : Z) (d : uart) : uart :=
  let dlab := Z.testbit (lcr d) 7 in
  if reg =? DATA then if dlab then mk_uart v (dlm d) (ier d) (lcr d) (tx d) (rx d) else mk_uart (dll d) (dlm d) (ier d) (lcr d) (tx d ++ [v]) (rx d)
  else if reg =? INT_ENABLE then if dlab then mk_uart (dll d) v (ier d) (lcr d) (tx d) (rx d) else mk_uart (dll d) (dlm d) v (lcr d) (tx d) (rx d)
  else mk_uart (dll d) (dlm d) (ier d) v (tx d) (rx d).

Class UartLaws (S : Type) `{Uart S} (COM : Z) := {
  device : S -> uart;
  write_law s reg v : reg ∈ [DATA; INT_ENABLE; LINE_CTRL] -> exists s', WRITE_BYTE (u16 (COM + reg)) v s = Ok (tt, s') /\ device s' = uart_write reg v (device s);
  lcr_law s : READ_BYTE (u16 (COM + LINE_CTRL)) s = Ok (lcr (device s), s);
  status_law s : exists v s', READ_BYTE (u16 (COM + LINE_STATUS)) s = Ok (v, s') /\ device s' = device s }.

Section Proofs.
Context {S : Type} `{UartLaws S COM}.

Lemma write_reg_wp reg v (Q : unit -> S -> Prop) s : reg ∈ [DATA; INT_ENABLE; LINE_CTRL] ->
  (forall s', device s' = uart_write reg v (device s) -> Q tt s') -> wp (write_register COM reg v) Q s.
Proof. intros Hr HQ. destruct (write_law s reg v Hr) as (s' & E & Hd). unfold wp, write_register. rewrite E. by apply HQ. Qed.

Lemma read_lcr : forall s, read_register COM LINE_CTRL s = Ok (lcr (device s), s).
Proof. apply lcr_law. Qed.

Lemma status_wp {A} (f : Z -> M S A) (Q : A -> S -> Prop) s : (forall v s', device s' = device s -> wp (f v) Q s') -> wp (bind (read_register COM LINE_STATUS) f) Q s.
Proof. intros HQ. destruct (status_law s) as (v & s' & E & Hd). eapply wp_bind_ok; [exact E|]. by apply HQ. Qed.

(** The line control register that [serial_init] leaves. *)
Definition line_settings (x : Z) : Z :=
  Z.lor (Z.land (Z.lor (Z.land (Z.lor (Z.land (Z.land (Z.lor x 0x80) 0x7F) 0xFC) 3) 0xFB) 2) 0xC7) 0.

Lemma line_settings_8n1 x : 0 <= x < 256 -> line_settings x = Z.lor (Z.land x 0x40) 3.
Proof.
  intros Hx. assert (Hb : forallb (fun x => line_settings x =? Z.lor (Z.land x 0x40) 3) (range 0 256) = true) by (vm_compute; reflexivity).
  apply Z.eqb_eq, (proj1 (forallb_forall _ _) Hb), list_elem_of_In, elem_of_range, Hx.
Qed.

Lemma dlab_set x : Z.testbit (Z.lor x 0x80) 7 = true.
Proof. rewrite Z.lor_spec. apply orb_true_r. Qed.

Lemma dlab_clear x : Z.testbit (Z.lor (Z.land x 0x40) 3) 7 = false.
Proof. rewrite Z.lor_spec, Z.land_spec. by rewrite andb_false_r. Qed.

Lemma write_lcr v d : uart_write LINE_CTRL v d = mk_uart (dll d) (dlm d) (ier d) v (tx d) (rx d).
Proof. done. Qed.

Lemma change_lcr_wp (f : Z -> Z) (Q : unit -> S -> Prop) s :
  (forall s', device s' = uart_write LINE_CTRL (f (lcr (device s))) (device s) -> Q tt s') -> wp (do v <- read_register COM LINE_CTRL; write_register COM LINE_CTRL (f v)) Q s.
Proof. intros HQ. eapply wp_bind_ok; [apply read_lcr|]. apply write_reg_wp; [rewrite !elem_of_cons; tauto|done]. Qed.

Lemma baud_wp s (Q : unit -> S -> Prop) :
  (forall s', device s' = mk_uart 3 0 (ier (device s)) (Z.land (Z.lor (lcr (device s)) 0x80) 0x7F) (tx (device s)) (rx (device s)) -> Q tt s') -> wp (set_baud_rate COM 38400) Q s.
Proof.
  intros HQ. unfold set_baud_rate. simpl. apply wp_bind, wp_ret, wp_bind, wp_ret. change (u16 (MAX_BAUD / 38400)) with 3. apply wp_bind.
  apply (change_lcr_wp (fun v => Z.lor v 0x80)). intros s1 E1. apply wp_bind, write_reg_wp; [rewrite !elem_of_cons; tauto|]. intros s2 E2. apply wp_bind, write_reg_wp; [rewrite !elem_of_cons; tauto|]. intros s3 E3.
  apply (change_lcr_wp (fun v => Z.land v 0x7F)). intros s4 E4. apply HQ. rewrite E4, write_lcr, E3, E2, E1, write_lcr. unfold uart_write. cbn [lcr dll dlm ier tx rx DATA INT_ENABLE Z.eqb]. rewrite dlab_set. by cbn [lcr dll dlm ier tx rx]; rewrite ?dlab_set.
Qed.

Lemma send_wp c (Q : unit -> S -> Prop) s : Z.testbit (lcr (device s)) 7 = false ->
  (forall s', device s' = mk_uart (dll (device s)) (dlm (device s)) (ier (device s)) (lcr (device s)) (tx (device s) ++ [c]) (rx (device s)) -> Q tt s') -> wp (write_register COM DATA c) Q s.
Proof. intros Hd HQ. apply write_reg_wp; [rewrite !elem_of_cons; tauto|]. intros s' E. apply HQ. rewrite E. unfold uart_write. by rewrite Hd. Qed.

Lemma serial_write_wp buf sent s : Z.testbit (lcr (device s)) 7 = false -> 0 <= sent -> sent + Z.of_nat (length buf) < 2 ^ 32 ->
  wp (serial_write COM buf sent) (fun n s' => sent <= n <= sent + Z.of_nat (length buf) /\
    tx (device s') = tx (device s) ++ flat_map (fun c => if c =? 10 then [10; 13] else [c]) (take (Z.to_nat (n - sent)) buf)) s.
Proof.
  revert sent s. induction buf as [|c buf IH]; intros sent s Hd Hs Hl; simpl; [split; [lia|by rewrite take_nil, app_nil_r]|]. simpl in Hl. apply wp_bind. unfold trans_buf_empty. apply status_wp. intros v s1 E1. apply wp_ret.
  destruct (Z.testbit v 5); [|split; [lia|by rewrite E1, Z.sub_diag, app_nil_r]]. apply wp_bind, send_wp; [by rewrite E1|]. intros s2 E2.
  assert (Hstep : forall s3, device s3 = mk_uart (dll (device s)) (dlm (device s)) (ier (device s)) (lcr (device s)) (tx (device s) ++ (if c =? 10 then [10; 13] else [c])) (rx (device s)) ->
    wp (serial_write COM buf (u32 (sent + 1))) (fun n s' => sent <= n <= sent + Z.pos (Pos.of_succ_nat (length buf)) /\
      tx (device s') = tx (device s) ++ flat_map (fun c => if c =? 10 then [10; 13] else [c]) (take (Z.to_nat (n - sent)) (c :: buf))) s3).
  { intros s3 E3. rewrite u32_id by lia. eapply wp_mono; [apply IH; [by rewrite E3|lia|lia]|]. intros n s' [Hn Ht]. split; [lia|]. rewrite Ht, E3. simpl.
    replace (Z.to_nat (n - sent)) with (Datatypes.S (Z.to_nat (n - (sent + 1)))) by lia. simpl. by rewrite (assoc_L app). }
  apply wp_bind. destruct (Z.eqb_spec c 10) as [->|Hc]; simpl.
  - apply send_wp; [by rewrite E2, E1|]. intros s3 E3. apply Hstep. rewrite E3, E2, E1. simpl. by rewrite <- (assoc_L app).
  - apply wp_ret, Hstep. by rewrite E2, E1.
Qed.

(** [serial_init] sets the divisor for 38400 baud and the line to 8 bits without parity and one stop bit, with the divisor latch hidden again, and enables the
    interrupt for received data; [serial_write] sends a prefix of the buffer, as long as the transmitter is ready, with a carriage return behind every
    newline, and returns its length. *)
Theorem serial_correct s :
  0 <= lcr (device s) < 256 ->
  wp (serial_init COM) (fun _ s1 => dll (device s1) = 3 /\ dlm (device s1) = 0 /\ ier (device s1) = 1 /\ lcr (device s1) = Z.lor (Z.land (lcr (device s)) 0x40) 3 /\ tx (device s1) = tx (device s) /\
    forall buf s2, Z.of_nat (length buf) < 2 ^ 32 -> device s2 = device s1 ->
      wp (serial_write COM buf 0) (fun n s3 => 0 <= n <= Z.of_nat (length buf) /\
        tx (device s3) = tx (device s2) ++ flat_map (fun c => if c =? 10 then [10; 13] else [c]) (take (Z.to_nat n) buf)) s2) s.
Proof.
  intros Hx. unfold serial_init. apply wp_bind, baud_wp. intros s1 E1. apply wp_bind. unfold set_char_length. simpl. apply wp_bind, wp_ret.
  apply (change_lcr_wp (fun v => Z.lor (Z.land v 0xFC) 3)). intros s2 E2. apply wp_bind. unfold set_stop_bits. simpl. apply wp_bind, wp_ret.
  apply (change_lcr_wp (fun v => Z.lor (Z.land v 0xFB) 2)). intros s3 E3. apply wp_bind. apply (change_lcr_wp (fun v => Z.lor (Z.land v 0xC7) 0)). intros s4 E4.
  assert (Ed : device s4 = mk_uart 3 0 (ier (device s)) (line_settings (lcr (device s))) (tx (device s)) (rx (device s))) by (rewrite E4, E3, E2, E1; done).
  rewrite line_settings_8n1 in Ed by done. apply write_reg_wp; [rewrite !elem_of_cons; tauto|]. intros s5 E5. rewrite Ed in E5. unfold uart_write in E5. cbn [lcr dll dlm ier tx rx DATA INT_ENABLE Z.eqb] in E5. rewrite dlab_clear in E5. rewrite E5. simpl. split_and!; try done.
  intros buf s6 Hl E6. eapply wp_mono; [apply serial_write_wp; [rewrite E6; apply dlab_clear|lia|lia]|]. intros n s7 [Hn Ht]. rewrite Z.sub_0_r in Ht. by split; [lia|].
Qed.

End Proofs.

(** A controller: its registers, with a transmitter that is always ready. *)
#[local] Instance ex_uart : Uart uart := {|
  WRITE_BYTE port v := modify (uart_write (port - 0x3F8) v);
  READ_BYTE port := fun d => Ok (if port =? 0x3FB then lcr d else 0x20, d) |}.

#[local] Instance ex_uart_laws : UartLaws uart 0x3F8.
Proof.
  refine {| device := fun d => d |}.
  - intros d reg v Hr. eexists. split; [done|]. rewrite !elem_of_cons, elem_of_nil in Hr. by destruct Hr as [->|[->|[->|[]]]].
  - done.
  - intros d. by eexists _, d.
Defined.

Lemma serial_correct_witness : exists d, serial_init 0x3F8 (mk_uart 0 0 0 0xFF [] []) = Ok (tt, d) /\ dll d = 3 /\ lcr d = 0x43.
Proof.
  pose proof (serial_correct (COM := 0x3F8) (mk_uart 0 0 0 0xFF [] [])) as H. destruct (proj1 (wp_ok _ _ _) (H ltac:(simpl; lia))) as ([] & d & E & H1 & _ & _ & H2 & _). by exists d.
Defined.

(** The low byte of the divisor is cut to four bits: 4800 baud is set as 14400, and the
    number of stop bits 1 sets a bit of the character length. *)
Lemma baud_4800 : exists d, set_baud_rate 0x3F8 4800 (mk_uart 0 0 0 0 [] []) = Ok (tt, d) /\ dll d + 256 * dlm d = 8 /\ MAX_BAUD / 4800 = 24.
Proof. eexists. split; [vm_compute; reflexivity|done]. Qed.

Lemma stop_bit_length : exists d, set_stop_bits 0x3F8 1 (mk_uart 0 0 0 0 [] []) = Ok (tt, d) /\ lcr d = 2.
Proof. eexists. split; [vm_compute; reflexivity|done]. Qed.
