(* ===== verification/Interrupt.v ===== *)
(** * Interrupts: [src/interrupt.c]

    The IDT, the callbacks of the vectors and the generic handler, on one cpu: the
    local callbacks, the IDTR and the variables of that cpu are part of the state.
    What is done under the lock of the global callbacks is one step.  [schedule] is
    what [preempt_enable] calls; [handlers] is the address of the first of the handlers
    of [interrupt_handler.S], which are 5 bytes each. *)

From S2P Require Import Prelude Math Bits Percpu Segmentation.

(** ** Gates *)

(** The fields of [union interrupt_descriptor_t]. *)
Definition gate (offset selector type size dpl : Z) : Z :=
  pack [(16, Z.land offset 0xFFFF); (16, selector); (5, 0); (3, 0); (3, type); (1, size); (1, 0); (2, dpl); (1, 1); (16, Z.shiftr offset 16)].

Definition IDT_ENTRY (segment_sel offset dpl : Z) : Z := gate offset segment_sel 6 1 dpl.
Definition IDT_TASK_GATE_ENTRY (tss_segment_sel dpl : Z) : Z := gate 0 tss_segment_sel 5 0 dpl.

Definition IDT_SIZE : Z := 256.
Definition SYSCALL_VECTOR : Z := 0x80.

(** ** State *)

(** [idtr]: the base and the limit in the register.  [pic]: what was written to the
    ports of the PIC.  [eois] (ghost): the number of writes to the EOI register. *)
Record intst := mk_intst {
  IDT : list Z; GLOBAL_CALLBACKS : list Z; local_callbacks : list Z;
  idtr : Z * Z; pic : list (Z * Z); eois : Z; cpu_vars : cpu_view }.

Section Setters.
Definition set_IDT v s := mk_intst v (GLOBAL_CALLBACKS s) (local_callbacks s) (idtr s) (pic s) (eois s) (cpu_vars s).
Definition set_global v s := mk_intst (IDT s) v (local_callbacks s) (idtr s) (pic s) (eois s) (cpu_vars s).
Definition set_local v s := mk_intst (IDT s) (GLOBAL_CALLBACKS s) v (idtr s) (pic s) (eois s) (cpu_vars s).
Definition set_idtr v s := mk_intst (IDT s) (GLOBAL_CALLBACKS s) (local_callbacks s) v (pic s) (eois s) (cpu_vars s).
Definition set_pic v s := mk_intst (IDT s) (GLOBAL_CALLBACKS s) (local_callbacks s) (idtr s) v (eois s) (cpu_vars s).
Definition set_eois v s := mk_intst (IDT s) (GLOBAL_CALLBACKS s) (local_callbacks s) (idtr s) (pic s) v (cpu_vars s).
Definition set_vars v s := mk_intst (IDT s) (GLOBAL_CALLBACKS s) (local_callbacks s) (idtr s) (pic s) (eois s) v.
End Setters.

Definition with_flag (b : bool) (v : cpu_view) : cpu_view := mk_view b (v_count v) (v_running v) (v_gs v).

#[export] Instance int_vars : CpuVars intst := {|
  interrupts_enabled := gets (fun s => v_if (cpu_vars s));
  cpu_set_interrupt_flag b := modify (fun s => set_vars (with_flag b (cpu_vars s)) s);
  cpu_read_gs := gets (fun s => v_gs (cpu_vars s));
  read_preempt_count := gets (fun s => v_count (cpu_vars s));
  write_preempt_count n := modify (fun s => set_vars (mk_view (v_if (cpu_vars s)) n (v_running (cpu_vars s)) (v_gs (cpu_vars s))) s);
  read_sched_running := gets (fun s => v_running (cpu_vars s)) |}.

(** ** Operations *)

Section Interrupt.
Context (schedule : M intst unit) (handlers IDT_ADDR : Z) (call_back : Z -> M intst unit) (double_fault_panic : Z).

(** [a[i] = v] and [a[i]] for an array of the state. *)
Definition store (get : intst -> list Z) (put : list Z -> intst -> intst) (i v : Z) : M intst unit :=
  do l <- gets get;
  if (0 <=? i) && (i <? Z.of_nat (length l)) then modify (put (<[Z.to_nat i := v]> l)) else halt_with (Trap "array").
Definition load (get : intst -> list Z) (i : Z) : M intst Z := do l <- gets get; must (l !! Z.to_nat i) "array".

Definition get_interrupt_handler (vector : Z) : Z := u32 (handlers + vector * 5).

Definition cpu_lidt (base limit : Z) : M intst unit := modify (set_idtr (base, limit)).
Definition cpu_outb (port v : Z) : M intst unit := modify (fun s => set_pic (pic s ++ [(port, v)]) s).
Definition lapic_eoi : M intst unit := modify (fun s => set_eois (eois s + 1) s).

(** The array that a callback is in. *)
Definition load_callback (global : bool) (vector : Z) : M intst Z :=
  if global then load GLOBAL_CALLBACKS vector else this_cpu_var (load local_callbacks vector).
Definition store_callback (global : bool) (vector callback : Z) : M intst unit :=
  if global then store GLOBAL_CALLBACKS set_global vector callback else this_cpu_var (store local_callbacks set_local vector callback).

Definition get_callback (vector : Z) : M intst Z :=
  Percpu.preempt_disable;;;
  do local_callback <- load_callback false vector;
  Percpu.preempt_enable schedule;;;
  if negb (local_callback =? 0) then ret local_callback else load GLOBAL_CALLBACKS vector.

(** [vector] is [frame->vector]. *)
Definition generic_interrupt_handler (vector : Z) : M intst bool :=
  do irqs <- interrupts_enabled;
  ASSERT (negb irqs) "!interrupts_enabled()";;;
  lapic_eoi;;;
  cpu_set_interrupt_flag true;;;
  do callback <- get_callback (u8 vector);
  (if negb (callback =? 0) then call_back callback else panic "Unexpected interrupt in kernel");;;
  cpu_set_interrupt_flag false;;;
  ret false.

Definition disable_pic : M intst unit := cpu_outb 0xA1 0xFF;;; cpu_outb 0x21 0xFF.

Definition register_callback (vector callback : Z) (global : bool) : M intst unit :=
  do cb <- load_callback global vector;
  ASSERT ((cb =? 0) || (cb =? callback)) "!callbacks[vector] || callbacks[vector] == callback";;;
  store_callback global vector callback.

Definition delete_callback (vector : Z) (global : bool) : M intst unit :=
  when (negb global) Percpu.preempt_disable;;;
  store_callback global vector 0;;;
  when (negb global) Percpu.preempt_disable.

Definition interrupt_register_global_callback (vector callback : Z) : M intst unit := register_callback vector callback true.
Definition interrupt_register_local_callback (vector callback : Z) : M intst unit := register_callback vector callback false.
Definition interrupt_delete_global_callback (vector : Z) : M intst unit := delete_callback vector true.
Definition interrupt_delete_local_callback (vector : Z) : M intst unit := delete_callback vector false.

(** An entry of the table. *)
Definition init_vector (vector : Z) : M intst unit :=
  if vector =? 8 then store IDT set_IDT vector (IDT_TASK_GATE_ENTRY (SEG_SEL 5 0) 0)
  else store IDT set_IDT vector (IDT_ENTRY kernel_code_selector (get_interrupt_handler vector) 0).

Definition interrupt_init : M intst unit :=
  cpu_set_interrupt_flag false;;;
  modify (fun s => set_IDT (replicate (length (IDT s)) 0) s);;;
  for_each (range 0 IDT_SIZE) init_vector;;;
  store IDT set_IDT SYSCALL_VECTOR (IDT_ENTRY kernel_code_selector (get_interrupt_handler SYSCALL_VECTOR) 3);;;
  cpu_lidt (to_phys IDT_ADDR) (IDT_SIZE * 8 - 1);;;
  disable_pic;;;
  modify (fun s => set_global (replicate (length (GLOBAL_CALLBACKS s)) 0) s);;;
  interrupt_register_global_callback 0x8 double_fault_panic.

Definition interrupt_fixup_idtr : M intst unit :=
  do desc <- gets idtr; cpu_lidt (to_virt desc.1) desc.2.

Definition ap_interrupt_init : M intst unit := cpu_lidt IDT_ADDR (IDT_SIZE * 8 - 1).

Definition interrupt_vector_has_error_code (vector : Z) : bool :=
  (vector =? 0x8) || (vector =? 0xA) || (vector =? 0xB) || (vector =? 0xC) || (vector =? 0xD) || (vector =? 0xE) || (vector =? 0x11).

End Interrupt.

(** ** The gates *)

Definition decodes (g offset selector type size dpl : Z) : Prop :=
  bits 0 16 g + 2 ^ 16 * bits 48 16 g = offset /\ bits 16 16 g = selector /\ bits 32 8 g = 0 /\ bits 40 3 g = type /\ bits 43 1 g = size /\ bits 45 2 g = dpl /\ bits 47 1 g = 1.

Lemma gate_decodes offset selector type size dpl :
  0 <= offset < 2 ^ 32 -> 0 <= selector < 2 ^ 16 -> 0 <= type < 8 -> 0 <= size < 2 -> 0 <= dpl < 4 -> decodes (gate offset selector type size dpl) offset selector type size dpl.
Proof.
  intros Ho Hs Ht Hz Hd. unfold decodes, gate. set (fs := [_; _; _; _; _; _; _; _; _; _]).
  assert (Hw : widths_ok (map fst fs)) by (apply widths_okb; reflexivity).
  assert (Hb : forall i off w v, fs !! i = Some (w, v) -> off = total_width (map fst (take i fs)) -> bits off w (pack fs) = v mod 2 ^ w) by (intros i off w v; by apply bits_pack_nth).
  rewrite (Hb 0%nat 0 16 _ eq_refl eq_refl), (Hb 9%nat 48 16 _ eq_refl eq_refl), (Hb 1%nat 16 16 _ eq_refl eq_refl), (Hb 4%nat 40 3 _ eq_refl eq_refl), (Hb 5%nat 43 1 _ eq_refl eq_refl), (Hb 7%nat 45 2 _ eq_refl eq_refl), (Hb 8%nat 47 1 _ eq_refl eq_refl).
  change 0xFFFF with (Z.ones 16). rewrite Z.land_ones, Z.shiftr_div_pow2, Z.mod_mod by lia.
  split_and!; try (apply Z.mod_small; lia); [Z.to_euclidean_division_equations; lia|].
  change 8 with (5 + 3). rewrite <- bits_join by lia. change (32 + 5) with 37. by rewrite (Hb 2%nat 32 5 _ eq_refl eq_refl), (Hb 3%nat 37 3 _ eq_refl eq_refl).
Qed.

(** ** Arrays *)

Lemma store_wp get put i v (Q : unit -> intst -> Prop) s : 0 <= i < Z.of_nat (length (get s)) -> Q tt (put (<[Z.to_nat i := v]> (get s)) s) -> wp (store get put i v) Q s.
Proof. intros Hi HQ. unfold store. eapply wp_bind_ok; [done|]. rewrite (proj2 (Z.leb_le 0 i)), (proj2 (Z.ltb_lt _ _)) by lia. exact HQ. Qed.

Lemma load_run get i v s : get s !! Z.to_nat i = Some v -> load get i s = Ok (v, s).
Proof. intros Hi. unfold load. erewrite bind_ok by done. by rewrite Hi. Qed.

(** ** Initialisation *)

Section Init.
Context (handlers IDT_ADDR double_fault_panic : Z).

(** The gate of a vector. *)
Definition expected (vector : Z) : Z :=
  if vector =? 8 then IDT_TASK_GATE_ENTRY (SEG_SEL 5 0) 0
  else IDT_ENTRY kernel_code_selector (get_interrupt_handler handlers vector) (if vector =? SYSCALL_VECTOR then 3 else 0).

Lemma fill_wp s : length (IDT s) = 256%nat ->
  wp (for_each (range 0 IDT_SIZE) (init_vector handlers)) (fun _ s' => s' = set_IDT (IDT s') s /\ length (IDT s') = 256%nat /\
    forall v, 0 <= v < 256 -> IDT s' !! Z.to_nat v = Some (if v =? 8 then expected 8 else IDT_ENTRY kernel_code_selector (get_interrupt_handler handlers v) 0)) s.
Proof.
  intros Hl. eapply wp_mono; [apply (wp_for_range (fun i s' => s' = set_IDT (IDT s') s /\ length (IDT s') = 256%nat /\
    forall v, 0 <= v < i -> IDT s' !! Z.to_nat v = Some (if v =? 8 then expected 8 else IDT_ENTRY kernel_code_selector (get_interrupt_handler handlers v) 0)))|].
  - done.
  - split_and!; [by destruct s|done|lia].
  - intros i s1 Hi (E & Hl1 & Hv). unfold IDT_SIZE in Hi.
    assert (H : init_vector handlers i = store IDT set_IDT i (if i =? 8 then expected 8 else IDT_ENTRY kernel_code_selector (get_interrupt_handler handlers i) 0)) by (unfold init_vector; by destruct (i =? 8)).
    rewrite H. apply store_wp; [lia|]. simpl. rewrite length_insert. split_and!; [by rewrite E|done|]. intros v Hv'. destruct (decide (v = i)) as [->|Hne].
    + apply list_lookup_insert_eq. lia.
    + rewrite list_lookup_insert_ne by lia. apply Hv. lia.
  - done.
Qed.

(** C28: [interrupt_init] leaves interrupts disabled and the IDTR with the physical address and the size of the IDT.  Every vector has a present gate: the double fault a
    task gate for its TSS, every other vector a 32-bit interrupt gate with its own handler in the code segment of the kernel, which only for system calls can be
    raised from user mode.  The PIC is masked, and the only callback is that of the double fault. *)
Theorem interrupt_init_correct s :
  length (IDT s) = 256%nat -> length (GLOBAL_CALLBACKS s) = 256%nat ->
  exists s', interrupt_init handlers IDT_ADDR double_fault_panic s = Ok (tt, s') /\
    v_if (cpu_vars s') = false /\ idtr s' = (to_phys IDT_ADDR, 2047) /\ pic s' = pic s ++ [(0xA1, 0xFF); (0x21, 0xFF)] /\
    GLOBAL_CALLBACKS s' = <[8%nat := double_fault_panic]> (replicate 256 0) /\
    forall v, 0 <= v < 256 -> exists g, IDT s' !! Z.to_nat v = Some g /\
      if v =? 8 then decodes g 0 0x28 5 0 0
      else decodes g (u32 (handlers + 5 * v)) kernel_code_selector 6 1 (if v =? 0x80 then 3 else 0).
Proof.
  intros Hl Hg.
  assert (H : wp (interrupt_init handlers IDT_ADDR double_fault_panic) (fun _ s' => v_if (cpu_vars s') = false /\ idtr s' = (to_phys IDT_ADDR, 2047) /\
    pic s' = pic s ++ [(0xA1, 0xFF); (0x21, 0xFF)] /\ GLOBAL_CALLBACKS s' = <[8%nat := double_fault_panic]> (replicate 256 0) /\
    forall v, 0 <= v < 256 -> IDT s' !! Z.to_nat v = Some (expected v)) s).
  { unfold interrupt_init. eapply wp_bind_ok; [done|]. eapply wp_bind_ok; [done|]. apply wp_bind. eapply wp_mono; [apply fill_wp; simpl; by rewrite length_replicate|].
    intros [] s1 (E & Hl1 & Hv). apply wp_bind, store_wp; [rewrite Hl1; unfold SYSCALL_VECTOR; lia|]. rewrite E in Hv |- *. simpl in Hv |- *. unfold disable_pic.
    do 2 (eapply wp_bind_ok; [done|]). eapply wp_bind_ok; [done|]. unfold interrupt_register_global_callback, register_callback.
    eapply wp_bind_ok; [apply load_run; simpl; rewrite Hg; done|]. eapply wp_bind_ok; [done|]. apply store_wp; [simpl; rewrite length_replicate, Hg; lia|]. simpl. rewrite Hg. split_and!; try done; [by rewrite <- (assoc_L app)|].
    intros v Hv'. unfold expected. destruct (Z.eqb_spec v SYSCALL_VECTOR) as [->|Hne].
    - rewrite list_lookup_insert_eq by (rewrite E in Hl1; simpl in Hl1; rewrite Hl1; unfold SYSCALL_VECTOR; lia). done.
    - rewrite list_lookup_insert_ne by (unfold SYSCALL_VECTOR in *; lia). rewrite Hv by lia. by destruct (v =? 8). }
  apply wp_ok in H as ([] & s' & E & H1 & H2 & H3 & H4 & H5). exists s'. split_and!; try done. intros v Hv. exists (expected v). split; [by apply H5|]. unfold expected.
  destruct (v =? 8); [apply gate_decodes; vm_compute; split; done || lia|]. unfold get_interrupt_handler. rewrite (Z.mul_comm v 5). unfold SYSCALL_VECTOR.
  pose proof (u32_range (handlers + 5 * v)). apply gate_decodes; [lia|vm_compute; by split|lia|lia|destruct (_ =? _); lia].
Qed.

End Init.

(** ** Dispatch *)

Definition int_ok (s : intst) : Prop := v_gs (cpu_vars s) <> 0.

#[export, refine] Instance int_vars_laws : CpuVarsLaws intst := {| cv_ok := int_ok; cv_view := cpu_vars; cv_put := set_vars |}.
Proof.
  - intros s v Hs E. unfold int_ok. simpl. by rewrite E.
  - done.
  - done.
  - intros s _. by destruct s.
  - done.
  - done.
  - done.
  - done.
  - done.
  - done.
  - done.
Defined.

Section Dispatch.
Context (schedule : M intst unit) (call_back : Z -> M intst unit).

(** The callback that an interrupt calls: that of the cpu, or the global one. *)
Definition handler_of (v : Z) (s : intst) : Z :=
  let local := nth (Z.to_nat v) (local_callbacks s) 0 in if local =? 0 then nth (Z.to_nat v) (GLOBAL_CALLBACKS s) 0 else local.

(** Where [preempt_enable] does not call the scheduler. *)
Definition quiet (s : intst) : Prop := int_ok s /\ 0 <= v_count (cpu_vars s) < 2 ^ 32 - 1 /\ (0 < v_count (cpu_vars s) \/ v_running (cpu_vars s) = false).

Lemma get_callback_run v s : quiet s -> 0 <= v < 256 -> length (local_callbacks s) = 256%nat -> length (GLOBAL_CALLBACKS s) = 256%nat ->
  get_callback schedule v s = Ok (handler_of v s, s).
Proof.
  intros (Hok & Hc & Hr) Hv Hl Hg. destruct (lookup_lt_is_Some_2 (local_callbacks s) (Z.to_nat v)) as [x Hx]; [lia|]. destruct (lookup_lt_is_Some_2 (GLOBAL_CALLBACKS s) (Z.to_nat v)) as [y Hy]; [lia|].
  unfold get_callback, handler_of. rewrite (nth_lookup_Some _ _ _ _ Hx), (nth_lookup_Some _ _ _ _ Hy).
  erewrite bind_ok by by apply preempt_disable_run. simpl cv_view. rewrite u32_id by lia. set (s1 := set_preempt _ _ s).
  assert (Hok1 : int_ok s1) by done.
  erewrite bind_ok by (unfold load_callback; rewrite this_cpu_var_run; [apply load_run; exact Hx|done|right; simpl; lia]).
  unfold Percpu.preempt_enable. erewrite bind_ok.
  2:{ rewrite do_preempt_enable_run; [|done|simpl; lia]. simpl. destruct Hr as [Hr|Hr]; [rewrite (proj2 (Z.eqb_neq _ 1)) by lia; done|]. rewrite Hr, andb_false_r. done. }
  simpl. unfold set_preempt. simpl. replace (v_count (cpu_vars s) + 1 - 1) with (v_count (cpu_vars s)) by lia.
  replace (set_vars _ s1) with s by (unfold s1, set_preempt; simpl; destruct s as [? ? ? ? ? ? []]; done).
  destruct (Z.eqb_spec x 0); [by apply load_run|done].
Qed.

(** Registering sets the entry of the vector, unless another callback is there. *)
Lemma register_callback_run v cb (global : bool) s :
  int_ok s -> v_if (cpu_vars s) = false -> 0 <= v < 256 -> length (local_callbacks s) = 256%nat -> length (GLOBAL_CALLBACKS s) = 256%nat ->
  let old := nth (Z.to_nat v) (if global then GLOBAL_CALLBACKS s else local_callbacks s) 0 in
  register_callback v cb global s =
    if (old =? 0) || (old =? cb) then Ok (tt, if global then set_global (<[Z.to_nat v := cb]> (GLOBAL_CALLBACKS s)) s else set_local (<[Z.to_nat v := cb]> (local_callbacks s)) s)
    else Halt (Panic "!callbacks[vector] || callbacks[vector] == callback").
Proof.
  intros Hok Hif Hv Hl Hg. destruct (lookup_lt_is_Some_2 (local_callbacks s) (Z.to_nat v)) as [x Hx]; [lia|]. destruct (lookup_lt_is_Some_2 (GLOBAL_CALLBACKS s) (Z.to_nat v)) as [y Hy]; [lia|].
  assert (Hrun : forall B (m : M intst B), this_cpu_var m s = m s) by (intros B m; apply this_cpu_var_run; [done|by left]).
  unfold register_callback, load_callback, store_callback. destruct global; rewrite ?(nth_lookup_Some _ _ _ _ Hx), ?(nth_lookup_Some _ _ _ _ Hy);
    (erewrite bind_ok by (rewrite ?Hrun; apply load_run; eassumption)); cbv zeta; destruct (_ || _); try done; (erewrite bind_ok by done); rewrite ?Hrun; unfold store;
    (erewrite bind_ok by done); by rewrite (proj2 (Z.leb_le 0 v)), (proj2 (Z.ltb_lt _ _)) by lia.
Qed.


End Dispatch.

(** [delete_callback] disables preemption a second time where it should enable it. *)
Lemma delete_local_disables v s : int_ok s -> 0 <= v_count (cpu_vars s) < 2 ^ 32 - 2 -> 0 <= v < 256 -> length (local_callbacks s) = 256%nat ->
  exists s', interrupt_delete_local_callback v s = Ok (tt, s') /\ v_count (cpu_vars s') = v_count (cpu_vars s) + 2 /\ v_if (cpu_vars s') = v_if (cpu_vars s) /\
    local_callbacks s' = <[Z.to_nat v := 0]> (local_callbacks s).
Proof.
  intros Hok Hc Hv Hl. unfold interrupt_delete_local_callback, delete_callback. simpl. erewrite bind_ok by by apply preempt_disable_run. rewrite u32_id by (simpl; lia). set (s1 := set_preempt _ _ s).
  assert (Hs : store_callback false v 0 s1 = Ok (tt, set_local (<[Z.to_nat v := 0]> (local_callbacks s)) s1)).
  { unfold store_callback. rewrite this_cpu_var_run; [|done|right; simpl; lia]. unfold store. erewrite bind_ok by done. by rewrite (proj2 (Z.leb_le 0 v)), (proj2 (Z.ltb_lt _ _)) by (simpl; lia). }
  erewrite bind_ok by exact Hs. rewrite preempt_disable_run by done. eexists. split; [done|]. simpl. rewrite u32_id by lia. split_and!; [lia|done|done].
Qed.

Definition ex_int : intst := mk_intst (replicate 256 7) (replicate 256 7) (replicate 256 0) (0, 0) [] 0 (mk_view true 0 false 0x18).

Lemma interrupt_init_correct_witness : exists s', interrupt_init 0xC0100000 0xC0200000 0xC0300000 ex_int = Ok (tt, s') /\ idtr s' = (0x200000, 2047) /\
  exists g, IDT s' !! 0x80%nat = Some g /\ decodes g 0xC0100280 kernel_code_selector 6 1 3.
Proof.
  destruct (interrupt_init_correct 0xC0100000 0xC0200000 0xC0300000 ex_int ltac:(reflexivity) ltac:(reflexivity)) as (s' & E & _ & Hi & _ & _ & H).
  exists s'. split; [exact E|]. split; [exact Hi|]. exact (H 0x80 ltac:(lia)).
Defined.

Definition ex_int_on : intst := mk_intst (replicate 256 7) (replicate 256 0) (replicate 256 0) (0, 0) [] 0 (mk_view false 0 false 0x18).

