(* ===== verification/Apic.v ===== *)
(** * The interrupt controllers: [src/lapic.c], [src/lapic_def.c], [src/ioapic.c]

    The registers of the LAPIC of a cpu and of the I/O APIC.  The layouts of the
    interrupt command register and of a redirection entry are sequences of bit
    fields.  A message is sent when the low word of the command register is written;
    the delivery status is set for [delay] reads after that.  Between two reads of its
    count in [lapic_sleep] the timer counts [cycles] cycles.  The callbacks and the
    interrupt flag are those of the state of [Interrupt.v]. *)

From S2P Require Import Prelude Math Bits Percpu Interrupt.

(** [enum delivery_mode_t] *)
Definition NORMAL : Z := 0.
Definition SYSTEM_MANAGEMENT_INTERRUPT : Z := 2.
Definition NON_MASKABLE : Z := 4.
Definition INIT : Z := 5.
Definition STARTUP : Z := 6.
Definition EXTERNAL : Z := 7.
(** [enum trigger_mode_t], [enum destination_shorthand_t] *)
Definition EDGE : Z := 0.
Definition LEVEL : Z := 1.
Definition SHORTHAND_NONE : Z := 0.
Definition ALL_EXCL_SELF : Z := 3.

Definition IPI_BROADCAST : Z := 0xFF.

(** ** The LAPIC *)

Module Lapic.

(** [struct icr], as its fields and as the two words that are written. *)
Record icr := mk_icr { vector : Z; delivery_mode : Z; destination_mode : Z; level : Z; trigger_mode : Z; destination_shorthand : Z; destination : Z }.

Definition icr_value (i : icr) : Z :=
  pack [(8, vector i); (3, delivery_mode i); (1, destination_mode i); (2, 0); (1, level i); (1, trigger_mode i); (2, 0); (2, destination_shorthand i); (36, 0); (8, destination i)].
Definition icr_low (i : icr) : Z := icr_value i mod 2 ^ 32.
Definition icr_high (i : icr) : Z := icr_value i / 2 ^ 32.

Definition icr_is_valid (i : icr) : bool :=
  if ((delivery_mode i =? SYSTEM_MANAGEMENT_INTERRUPT) || (delivery_mode i =? INIT)) && negb (vector i =? 0) then false
  else if negb (delivery_mode i =? INIT) then negb (level i =? 0)
  else if negb (level i =? 0) then vector i =? 0
  else trigger_mode i =? LEVEL.

(** [busy]: the number of reads for which the delivery status is set.  [sent] (ghost):
    the values of the command register that were sent.  [elapsed] (ghost): the cycles
    spent in [lapic_sleep]. *)
Record lapic := mk_lapic {
  spurious_interrupt_vector : Z; lvt_timer : Z; initial_count : Z; current_count : Z; icr_hi : Z; busy : nat;
  sent : list Z; elapsed : Z; ints : intst }.

Definition set_lvt v s := mk_lapic (spurious_interrupt_vector s) v (initial_count s) (current_count s) (icr_hi s) (busy s) (sent s) (elapsed s) (ints s).
(** A write to the initial count starts the timer. *)
Definition set_count v s := mk_lapic (spurious_interrupt_vector s) (lvt_timer s) v v (icr_hi s) (busy s) (sent s) (elapsed s) (ints s).
Definition count_down n s :=
  mk_lapic (spurious_interrupt_vector s) (lvt_timer s) (initial_count s) (Z.max 0 (current_count s - n)) (icr_hi s) (busy s) (sent s) (elapsed s + n) (ints s).
Definition set_icr hi b snt s := mk_lapic (spurious_interrupt_vector s) (lvt_timer s) (initial_count s) (current_count s) hi b snt (elapsed s) (ints s).
Definition set_ints v s := mk_lapic (spurious_interrupt_vector s) (lvt_timer s) (initial_count s) (current_count s) (icr_hi s) (busy s) (sent s) (elapsed s) v.

Section Lapic.
Context (delay : nat) (cycles LAPIC_TIMER_FREQ ncpus : Z).

Definition get_lapic_base_addr (apic_base_msr : Z) : Z := u32 (Z.land apic_base_msr 0xFFFFF000).

Definition enable_apic : M lapic unit :=
  modify (fun s => mk_lapic (Z.lor (spurious_interrupt_vector s) (Z.shiftl 1 8)) (lvt_timer s) (initial_count s) (current_count s) (icr_hi s) (busy s) (sent s) (elapsed s) (ints s)).

Definition ap_init_lapic : M lapic unit := enable_apic.

Definition start_timer (count : Z) (periodic : bool) (vector : Z) (masked : bool) : M lapic unit :=
  let periodic_bit := if periodic then Z.shiftl 1 17 else 0 in
  let masked_bit := Z.shiftl (b2z masked) 16 in
  modify (set_lvt (Z.lor (Z.lor masked_bit periodic_bit) vector));;;
  modify (set_count count).

Definition lapic_stop_timer : M lapic unit :=
  modify (fun s => set_lvt (Z.lor (lvt_timer s) (Z.shiftl 1 16)) s);;;
  modify (set_count 0).

Definition lapic_start_timer (msec : Z) (periodic : bool) (vector callback : Z) : M lapic unit :=
  lapic_stop_timer;;;
  zoom ints set_ints (cpu_set_interrupt_flag false);;;
  let count := u32 (u64 (msec * (LAPIC_TIMER_FREQ / 1000))) in
  zoom ints set_ints (interrupt_register_local_callback vector callback);;;
  start_timer count periodic vector false.

(** [while (LAPIC->current_count.val) cpu_pause();] *)
Fixpoint wait_count (fuel : nat) : M lapic unit :=
  match fuel with
  | O => halt_with (Hang "lapic_sleep")
  | S fuel' =>
      do c <- gets current_count;
      if c =? 0 then ret tt else modify (count_down cycles);;; wait_count fuel'
  end.

Definition lapic_sleep (msec : Z) : M lapic unit :=
  let count := u32 (u64 (msec * LAPIC_TIMER_FREQ) / 1000) in
  start_timer count false 0 true;;;
  wait_count (S (Z.to_nat count)).

(** The low word of the command register is read until the message was sent. *)
Fixpoint wait_delivered (fuel : nat) : M lapic unit :=
  match fuel with
  | O => halt_with (Hang "write_icr")
  | S fuel' =>
      do b <- gets busy;
      match b with
      | O => ret tt
      | S b' => modify (fun s => set_icr (icr_hi s) b' (sent s) s);;; wait_delivered fuel'
      end
  end.

Definition write_icr (i : icr) : M lapic unit :=
  ASSERT (icr_is_valid i) "icr_is_valid(icr)";;;
  modify (fun s => set_icr (icr_high i) (busy s) (sent s) s);;;
  modify (fun s => set_icr (icr_hi s) delay (sent s ++ [icr_low i + 2 ^ 32 * icr_hi s]) s);;;
  wait_delivered (S delay).

Definition lapic_send_broadcast_init : M lapic unit := write_icr (mk_icr 0 INIT 0 1 0 ALL_EXCL_SELF 0).

Definition lapic_send_broadcast_sipi (trampoline : Z) : M lapic unit :=
  ASSERT (is_4kib_aligned trampoline) "is_4kib_aligned(trampoline)";;;
  write_icr (mk_icr (u8 (Z.shiftr trampoline 12)) STARTUP 0 1 0 ALL_EXCL_SELF 0).

Definition lapic_send_ipi (dest_cpu vector : Z) : M lapic unit :=
  if dest_cpu <? ncpus then write_icr (mk_icr vector NORMAL 0 1 0 SHORTHAND_NONE dest_cpu)
  else if dest_cpu =? IPI_BROADCAST then write_icr (mk_icr vector NORMAL 0 1 0 ALL_EXCL_SELF 0)
  else panic "Invalid cpu id".

End Lapic.
End Lapic.

(** ** The I/O APIC *)

Module Ioapic.

Definition IOAPICVER : Z := 1.
Definition IOREDTBL (n : Z) : Z := u8 (0x10 + n * 2).

(** [struct redirection_entry] *)
Record redirection_entry := mk_entry {
  vector : Z; delivery_mode : Z; destination_mode : Z; waiting_for_apic : Z; polarity : Z; trigger_mode : Z; masked : Z; dest : Z }.

Definition entry_widths : list Z := [8; 3; 1; 1; 1; 1; 1; 1; 39; 4; 4].
Definition entry_value (e : redirection_entry) : Z :=
  pack [(8, vector e); (3, delivery_mode e); (1, destination_mode e); (1, waiting_for_apic e); (1, polarity e); (1, 0); (1, trigger_mode e); (1, masked e); (39, 0); (4, dest e); (4, 0)].
Definition entry_of (v : Z) : redirection_entry :=
  mk_entry (bits 0 8 v) (bits 8 3 v) (bits 11 1 v) (bits 12 1 v) (bits 13 1 v) (bits 15 1 v) (bits 16 1 v) (bits 56 4 v).

Definition redirection_entry_is_valid (e : redirection_entry) : bool :=
  if delivery_mode e =? SYSTEM_MANAGEMENT_INTERRUPT then (trigger_mode e =? EDGE) && (vector e =? 0)
  else if (delivery_mode e =? NON_MASKABLE) || (delivery_mode e =? INIT) || (delivery_mode e =? EXTERNAL) then trigger_mode e =? EDGE
  else true.

(** The selected register, and the registers. *)
Record ioapic := mk_ioapic { ioregsel : Z; registers : Z -> Z }.

Definition read_register (reg : Z) : M ioapic Z :=
  modify (fun s => mk_ioapic reg (registers s));;; gets (fun s => registers s (ioregsel s)).
Definition write_register (reg value : Z) : M ioapic unit :=
  modify (fun s => mk_ioapic reg (registers s));;;
  modify (fun s => mk_ioapic (ioregsel s) (fun r => if r =? ioregsel s then value else registers s r)).

Definition get_max_redirections : M ioapic Z := do v <- read_register IOAPICVER; ret (u8 (bits 16 8 v + 1)).

Definition read_redirection (index : Z) : M ioapic redirection_entry :=
  let reg := IOREDTBL index in
  do low <- read_register reg;
  do high <- read_register (u8 (reg + 1));
  ret (entry_of (low + 2 ^ 32 * high)).

Definition write_redirection (index : Z) (entry : redirection_entry) : M ioapic unit :=
  ASSERT (redirection_entry_is_valid entry) "redirection_entry_is_valid(entry)";;;
  let reg := IOREDTBL index in
  let curr_entry := mk_entry (vector entry) (delivery_mode entry) (destination_mode entry) 0 (polarity entry) (trigger_mode entry) (masked entry) (dest entry) in
  write_register (u8 (reg + 1)) (entry_value curr_entry / 2 ^ 32);;;
  write_register reg (entry_value curr_entry mod 2 ^ 32).

Section Redirect.
(** [cpu_apic_id()], and [acpi_get_isa_interrupt_vector_mapping], which asserts that the
    vector is at most 15. *)
Context (apic_id : Z) (isa_mapping : Z -> Z).

Definition compute_destination_for_interrupt (vector : Z) : M ioapic Z :=
  ASSERT (32 <=? vector) "vector >= 32";;; ret apic_id.

Definition redirect_isa_interrupt (isa_vector new_vector : Z) : M ioapic unit :=
  ASSERT (isa_vector <=? 15) "isa_vector <= 15";;;
  ASSERT (31 <? new_vector) "31 < new_vector";;;
  do d <- compute_destination_for_interrupt new_vector;
  write_redirection (isa_mapping isa_vector) (mk_entry new_vector NORMAL 0 0 0 EDGE 0 (d mod 16)).

Definition remove_redirection_for_isa_interrupt (isa_vector : Z) : M ioapic unit :=
  ASSERT (isa_vector <=? 15) "isa_vector <= 15";;;
  let mappedisa := isa_mapping isa_vector in
  do e <- read_redirection mappedisa;
  write_redirection mappedisa (mk_entry (vector e) (delivery_mode e) (destination_mode e) (waiting_for_apic e) (polarity e) (trigger_mode e) 1 (dest e)).

End Redirect.
End Ioapic.

(** ** The command register *)

Section LapicProofs.
Import Lapic.

Definition icr_of (v : Z) : icr := mk_icr (bits 0 8 v) (bits 8 3 v) (bits 11 1 v) (bits 14 1 v) (bits 15 1 v) (bits 18 2 v) (bits 56 8 v).

Definition icr_ok (i : icr) : Prop :=
  0 <= vector i < 2 ^ 8 /\ 0 <= delivery_mode i < 2 ^ 3 /\ 0 <= destination_mode i < 2 ^ 1 /\ 0 <= level i < 2 ^ 1 /\ 0 <= trigger_mode i < 2 ^ 1 /\
  0 <= destination_shorthand i < 2 ^ 2 /\ 0 <= destination i < 2 ^ 8.

Lemma icr_of_value i : icr_ok i -> icr_of (icr_value i) = i.
Proof.
  intros (H1 & H2 & H3 & H4 & H5 & H6 & H7). unfold icr_value. set (fs := [_; _; _; _; _; _; _; _; _; _]). assert (Hw : widths_ok (map fst fs)) by (apply widths_okb; reflexivity).
  assert (Hb : forall k off w v, fs !! k = Some (w, v) -> off = total_width (map fst (take k fs)) -> 0 <= v < 2 ^ w -> bits off w (pack fs) = v).
  { intros k off w v Hk Ho Hv. rewrite (bits_pack_nth fs k off w v) by done. by apply Z.mod_small. }
  unfold icr_of. rewrite (Hb 0%nat 0 8 _ eq_refl eq_refl H1), (Hb 1%nat 8 3 _ eq_refl eq_refl H2), (Hb 2%nat 11 1 _ eq_refl eq_refl H3), (Hb 4%nat 14 1 _ eq_refl eq_refl H4),
    (Hb 5%nat 15 1 _ eq_refl eq_refl H5), (Hb 7%nat 18 2 _ eq_refl eq_refl H6), (Hb 9%nat 56 8 _ eq_refl eq_refl H7). by destruct i.
Qed.

Lemma icr_words i : icr_low i + 2 ^ 32 * icr_high i = icr_value i.
Proof. unfold icr_low, icr_high. pose proof (Z.div_mod (icr_value i) (2 ^ 32)). lia. Qed.

Context (delay : nat) (freq ncpus : Z).

Lemma wait_delivered_run fuel s : (busy s < fuel)%nat -> exists s', wait_delivered fuel s = Ok (tt, s') /\ s' = set_icr (icr_hi s) 0 (sent s) s.
Proof.
  remember (busy s) as b eqn:Eb. revert s b Eb. induction fuel as [|fuel IH]; intros s b Eb Hb; [lia|]. simpl. erewrite bind_ok by done. rewrite <- Eb. destruct b as [|b].
  - eexists. split; [done|]. destruct s; simpl in *. by subst.
  - erewrite bind_ok by done. destruct (IH (set_icr (icr_hi s) b (sent s) s) b eq_refl ltac:(lia)) as (s' & E & ->). by eexists.
Qed.

(** A message: what is sent is what was asked for, once. *)
Definition sends (i : icr) (s s' : lapic) : Prop :=
  exists v, sent s' = sent s ++ [v] /\ icr_of v = i /\ busy s' = 0%nat /\ lvt_timer s' = lvt_timer s /\ initial_count s' = initial_count s.

Lemma write_icr_run i s : icr_ok i -> icr_is_valid i = true -> exists s', write_icr delay i s = Ok (tt, s') /\ sends i s s'.
Proof.
  intros Hi Hv. unfold write_icr. rewrite Hv. erewrite bind_ok by done. erewrite bind_ok by done. erewrite bind_ok by done. cbn [icr_hi set_icr]. rewrite icr_words.
  set (s1 := set_icr _ delay _ _). destruct (wait_delivered_run (S delay) s1) as (s' & E & ->); [simpl; lia|]. eexists. split; [exact E|]. exists (icr_value i). by rewrite icr_of_value.
Qed.

(** C32: an IPI to a cpu or to all others, the INIT and the startup IPI are valid commands for the LAPIC: the checks on the command register pass, the high word is written before the low
    one that sends it, exactly one message is sent, its fields are those asked for, and the functions return when it was delivered.  An IPI to a cpu that
    does not exist panics, and so does a startup address that is not the start of a frame. *)
Theorem lapic_send_correct s dest v trampoline :
  0 <= dest < 256 -> 0 <= v < 256 -> 0 <= trampoline < 2 ^ 20 ->
  (if (dest <? ncpus) || (dest =? IPI_BROADCAST)
   then exists s', lapic_send_ipi delay ncpus dest v s = Ok (tt, s') /\
     sends (if dest <? ncpus then mk_icr v NORMAL 0 1 0 SHORTHAND_NONE dest else mk_icr v NORMAL 0 1 0 ALL_EXCL_SELF 0) s s'
   else lapic_send_ipi delay ncpus dest v s = Halt (Panic "Invalid cpu id")) /\
  (exists s', lapic_send_broadcast_init delay s = Ok (tt, s') /\ sends (mk_icr 0 INIT 0 1 0 ALL_EXCL_SELF 0) s s') /\
  (if trampoline mod 4096 =? 0
   then exists s', lapic_send_broadcast_sipi delay trampoline s = Ok (tt, s') /\ sends (mk_icr (trampoline / 4096) STARTUP 0 1 0 ALL_EXCL_SELF 0) s s'
   else lapic_send_broadcast_sipi delay trampoline s = Halt (Panic "is_4kib_aligned(trampoline)")).
Proof.
  intros Hd Hv Ht. split_and!.
  - unfold lapic_send_ipi. destruct (dest <? ncpus); [|destruct (dest =? IPI_BROADCAST); [|done]]; simpl; (apply write_icr_run; [|done]); unfold icr_ok; simpl; split_and!; unfold NORMAL, SHORTHAND_NONE, ALL_EXCL_SELF; lia.
  - apply write_icr_run; [|done]. unfold icr_ok. simpl. unfold INIT, ALL_EXCL_SELF. lia.
  - unfold lapic_send_broadcast_sipi. rewrite is_4kib_aligned_mod. destruct (trampoline mod 4096 =? 0); [|done]. erewrite bind_ok by done.
    assert (Hq : 0 <= trampoline / 4096 < 256) by (Z.to_euclidean_division_equations; lia). rewrite Z.shiftr_div_pow2 by lia. change (2 ^ 12) with 4096. rewrite u8_id by lia.
    apply write_icr_run; [|done]. unfold icr_ok. simpl. unfold STARTUP, ALL_EXCL_SELF. lia.
Qed.

(** [lapic_sleep] returns, less than one round of its loop after the count is over. *)
Lemma wait_count_run cycles fuel s : 0 < cycles -> 0 <= current_count s -> (Z.to_nat (current_count s) < fuel)%nat ->
  exists s', wait_count cycles fuel s = Ok (tt, s') /\ current_count s' = 0 /\ initial_count s' = initial_count s /\ lvt_timer s' = lvt_timer s /\
    current_count s <= elapsed s' - elapsed s < current_count s + cycles /\ (current_count s = 0 -> elapsed s' = elapsed s).
Proof.
  intros Hc. revert s. induction fuel as [|fuel IH]; intros s H0 Hf; [lia|]. simpl. erewrite bind_ok by done. destruct (Z.eqb_spec (current_count s) 0) as [E|E].
  - eexists. split; [done|]. split_and!; try done; lia.
  - erewrite bind_ok by done. destruct (IH (count_down cycles s)) as (s' & R & E1 & E2 & E3 & E4 & E5); [simpl; lia..|]. exists s'. simpl in *. split_and!; try done; lia.
Qed.

(** The fields that [start_timer] programs. *)
Lemma lvt_fields v (periodic masked : bool) : 0 <= v < 256 ->
  let x := Z.lor (Z.lor (Z.shiftl (b2z masked) 16) (if periodic then Z.shiftl 1 17 else 0)) v in
  bits 0 8 x = v /\ bits 8 8 x = 0 /\ bits 16 1 x = b2z masked /\ bits 17 1 x = b2z periodic.
Proof.
  intros Hv. assert (Hb : forallb (fun v => forallb (fun '(p, k) => let x := Z.lor (Z.lor (Z.shiftl (b2z k) 16) (if (p : bool) then Z.shiftl 1 17 else 0)) v in
    (bits 0 8 x =? v) && (bits 8 8 x =? 0) && (bits 16 1 x =? b2z k) && (bits 17 1 x =? b2z p)) [(true, true); (true, false); (false, true); (false, false)]) (range 0 256) = true) by (vm_compute; reflexivity).
  eapply forallb_forall in Hb; [|by apply list_elem_of_In, elem_of_range]. eapply (proj1 (forallb_forall _ _)) in Hb; [|apply list_elem_of_In; instantiate (1 := (periodic, masked)); destruct periodic, masked; set_solver].
  cbv beta iota zeta in *. breflect. split_and!; done.
Qed.

(** C31: [lapic_start_timer] arms the timer with the vector unmasked, in the mode asked for, with interrupts disabled and the callback registered on the cpu; it panics if the vector has another
    callback.  The count is at most [msec] cycles short of the time asked for, as long as it fits the 32 bits of the register.  [lapic_sleep] returns: it waits no longer than one round of its loop
    more than its count, which is less than one cycle short of the time asked for. *)
Theorem lapic_timer_bounds cycles s msec periodic v cb :
  0 <= freq < 2 ^ 63 -> 0 <= msec -> msec * freq < 1000 * 2 ^ 32 -> 0 <= v < 256 -> 0 < cycles ->
  int_ok (ints s) -> length (local_callbacks (ints s)) = 256%nat -> length (GLOBAL_CALLBACKS (ints s)) = 256%nat ->
  let old := nth (Z.to_nat v) (local_callbacks (ints s)) 0 in
  (if (old =? 0) || (old =? cb)
   then exists s', lapic_start_timer freq msec periodic v cb s = Ok (tt, s') /\
     bits 0 8 (lvt_timer s') = v /\ bits 16 1 (lvt_timer s') = 0 /\ bits 17 1 (lvt_timer s') = b2z periodic /\
     v_if (cpu_vars (ints s')) = false /\ local_callbacks (ints s') = <[Z.to_nat v := cb]> (local_callbacks (ints s)) /\
     0 <= msec * freq - 1000 * initial_count s' <= 1000 * msec /\ 0 <= initial_count s' < 2 ^ 32
   else exists msg, lapic_start_timer freq msec periodic v cb s = Halt (Panic msg)) /\
  (exists s', lapic_sleep cycles freq msec s = Ok (tt, s') /\ bits 16 1 (lvt_timer s') = 1 /\ current_count s' = 0 /\
     0 <= msec * freq - 1000 * initial_count s' < 1000 /\ initial_count s' <= elapsed s' - elapsed s < initial_count s' + cycles).
Proof.
  intros Hf Hm Hp Hv Hcy Hok Hl Hg old. split.
  - unfold lapic_start_timer. erewrite bind_ok by done. erewrite bind_ok by done. set (s1 := set_ints _ _).
    assert (Hr := register_callback_run v cb false (ints s1) Hok eq_refl Hv Hl Hg). cbv zeta in Hr. change (local_callbacks (ints s1)) with (local_callbacks (ints s)) in Hr. fold old in Hr.
    destruct (_ || _); unfold bind at 1, zoom, interrupt_register_local_callback; rewrite Hr; [|by eexists]. eexists. split; [done|]. simpl.
    pose proof (lvt_fields v periodic false Hv) as (F1 & _ & F2 & F3).
    assert (Hq : 0 <= freq / 1000 /\ 1000 * (freq / 1000) <= freq < 1000 * (freq / 1000) + 1000) by (Z.to_euclidean_division_equations; lia).
    assert (Hc : 0 <= msec * (freq / 1000) < 2 ^ 32) by nia. rewrite u64_id, u32_id by lia. split_and!; try done; try lia; nia.
  - unfold lapic_sleep. assert (Hq : 0 <= msec * freq) by nia. rewrite (u64_id (msec * freq)) by lia. erewrite bind_ok by done. rewrite u32_id by (Z.to_euclidean_division_equations; lia).
    match goal with |- context [wait_count _ _ ?s1] => destruct (wait_count_run cycles (S (Z.to_nat (msec * freq / 1000))) s1) as (s' & R & E1 & E2 & E3 & E4 & _) end;
      [done|cbn; Z.to_euclidean_division_equations; lia|cbn; lia|]. exists s'. split; [exact R|]. cbn in *. rewrite E3, E2. split_and!; try done; Z.to_euclidean_division_equations; lia.
Qed.

End LapicProofs.

Definition ex_lapic : Lapic.lapic := Lapic.mk_lapic 0xFF 0x10000 0 0 0 0 [] 0 ex_int_on.

Lemma lapic_send_correct_witness : exists s', Lapic.lapic_send_ipi 3 4 2 33 ex_lapic = Ok (tt, s') /\ sends (Lapic.mk_icr 33 NORMAL 0 1 0 SHORTHAND_NONE 2) ex_lapic s'.
Proof. exact (proj1 (lapic_send_correct 3 4 ex_lapic 2 33 0x8000 ltac:(lia) ltac:(lia) ltac:(lia))). Defined.

Lemma lapic_timer_bounds_witness :
  (exists s', Lapic.lapic_start_timer 62500000 4 true 34 0xC0100000 ex_lapic = Ok (tt, s') /\ bits 17 1 (Lapic.lvt_timer s') = 1) /\
  exists s', Lapic.lapic_sleep 100 62500000 10 ex_lapic = Ok (tt, s') /\ Lapic.current_count s' = 0.
Proof.
  split.
  - destruct (lapic_timer_bounds 62500000 100 ex_lapic 4 true 34 0xC0100000 ltac:(lia) ltac:(lia) ltac:(lia) ltac:(lia) ltac:(lia) ltac:(done) eq_refl eq_refl) as [(s' & E & _ & _ & H & _) _]. exists s'. split; [exact E|exact H].
  - destruct (lapic_timer_bounds 62500000 100 ex_lapic 10 true 34 0xC0100000 ltac:(lia) ltac:(lia) ltac:(lia) ltac:(lia) ltac:(lia) ltac:(done) eq_refl eq_refl) as [_ (s' & E & _ & H & _)]. exists s'. split; [exact E|exact H].
Defined.

(** A sleep that does not fit is cut: 5 seconds at 1 GHz end after 0.7 seconds. *)
Lemma sleep_wraps : exists s', Lapic.lapic_sleep 100 1000000000 5000 ex_lapic = Ok (tt, s') /\ Lapic.elapsed s' < 705033000.
Proof.
  unfold Lapic.lapic_sleep. cbv zeta. assert (Hc : u32 (u64 (5000 * 1000000000) / 1000) = 705032704) by (vm_compute; reflexivity). rewrite Hc. clear Hc.
  assert (Hc : exists c, c = 705032704) by eauto. destruct Hc as [c Hc]. rewrite <- Hc. erewrite bind_ok by reflexivity.
  match goal with |- context [Lapic.wait_count _ _ ?s1] => destruct (wait_count_run 100 (S (Z.to_nat c)) s1) as (s' & R & E1 & E2 & E3 & E4 & _) end; [lia|cbn; lia|cbn; lia|].
  exists s'. split; [exact R|]. cbn in E4. lia.
Qed.

(** ** The redirection table *)

Section IoapicProofs.
Import Ioapic.

Definition entry_ok (e : redirection_entry) : Prop :=
  0 <= vector e < 2 ^ 8 /\ 0 <= delivery_mode e < 2 ^ 3 /\ 0 <= destination_mode e < 2 ^ 1 /\ 0 <= waiting_for_apic e < 2 ^ 1 /\ 0 <= polarity e < 2 ^ 1 /\ 0 <= trigger_mode e < 2 ^ 1 /\
  0 <= masked e < 2 ^ 1 /\ 0 <= dest e < 2 ^ 4.

Lemma entry_of_value e : entry_ok e -> entry_of (entry_value e) = e.
Proof.
  intros (H1 & H2 & H3 & H4 & H5 & H6 & H7 & H8). unfold entry_value. set (fs := [_; _; _; _; _; _; _; _; _; _; _]). assert (Hw : widths_ok (map fst fs)) by (apply widths_okb; reflexivity).
  assert (Hb : forall k off w v, fs !! k = Some (w, v) -> off = total_width (map fst (take k fs)) -> 0 <= v < 2 ^ w -> bits off w (pack fs) = v).
  { intros k off w v Hk Ho Hv. rewrite (bits_pack_nth fs k off w v) by done. by apply Z.mod_small. }
  unfold entry_of. rewrite (Hb 0%nat 0 8 _ eq_refl eq_refl H1), (Hb 1%nat 8 3 _ eq_refl eq_refl H2), (Hb 2%nat 11 1 _ eq_refl eq_refl H3), (Hb 3%nat 12 1 _ eq_refl eq_refl H4), (Hb 4%nat 13 1 _ eq_refl eq_refl H5),
    (Hb 6%nat 15 1 _ eq_refl eq_refl H6), (Hb 7%nat 16 1 _ eq_refl eq_refl H7), (Hb 9%nat 56 4 _ eq_refl eq_refl H8). by destruct e.
Qed.

(** The value of an entry of the table. *)
Definition redirection (s : ioapic) (i : Z) : Z := registers s (0x10 + 2 * i) + 2 ^ 32 * registers s (0x11 + 2 * i).

Lemma IOREDTBL_eq i : 0 <= i < 120 -> IOREDTBL i = 0x10 + i * 2 /\ u8 (IOREDTBL i + 1) = 0x10 + i * 2 + 1.
Proof. intros. unfold IOREDTBL. rewrite (u8_id (0x10 + i * 2)) by lia. rewrite u8_id by lia. done. Qed.

Lemma read_redirection_run i s : 0 <= i < 120 -> exists s', read_redirection i s = Ok (entry_of (redirection s i), s') /\ registers s' = registers s.
Proof.
  intros Hi. destruct (IOREDTBL_eq i Hi) as [E1 E2]. unfold read_redirection, redirection. cbv zeta. rewrite E2, E1. replace (0x10 + 2 * i) with (0x10 + i * 2) by lia. replace (0x11 + 2 * i) with (0x10 + i * 2 + 1) by lia. by eexists.
Qed.

(** Writing an entry changes it, and nothing else, without the bit that is read only. *)
Lemma write_redirection_run i e s : 0 <= i < 120 -> entry_ok e -> waiting_for_apic e = 0 -> redirection_entry_is_valid e = true ->
  exists s', write_redirection i e s = Ok (tt, s') /\ entry_of (redirection s' i) = e /\ forall r, r <> 0x10 + 2 * i -> r <> 0x11 + 2 * i -> registers s' r = registers s r.
Proof.
  intros Hi He Hw Hv. destruct (IOREDTBL_eq i Hi) as [E1 E2]. unfold write_redirection. cbv zeta. rewrite Hv, E2, E1. erewrite bind_ok by done. eexists. split; [done|]. unfold redirection. simpl.
  replace (mk_entry _ _ _ 0 _ _ _ _) with e by (destruct e; simpl in *; by subst). split.
  - rewrite (proj2 (Z.eqb_eq (16 + 2 * i) (16 + i * 2))) by lia. rewrite (proj2 (Z.eqb_neq (17 + 2 * i) (16 + i * 2))) by lia. rewrite (proj2 (Z.eqb_eq (17 + 2 * i) (16 + i * 2 + 1))) by lia.
    replace (entry_value e mod 2 ^ 32 + 2 ^ 32 * (entry_value e / 2 ^ 32)) with (entry_value e) by (pose proof (Z.div_mod (entry_value e) (2 ^ 32)); lia). by apply entry_of_value.
  - intros r H1 H2. rewrite (proj2 (Z.eqb_neq r (16 + i * 2))), (proj2 (Z.eqb_neq r (16 + i * 2 + 1))) by lia. done.
Qed.

(** Nothing but the entry [i] changes. *)
Definition only_entry (i : Z) (s s' : ioapic) : Prop := forall r, r <> 0x10 + 2 * i -> r <> 0x11 + 2 * i -> registers s' r = registers s r.

Lemma redirect_run apic_id isa_mapping isa v s : 0 <= apic_id < 16 -> isa <= 15 -> 31 < v < 256 -> 0 <= isa_mapping isa < 120 ->
  exists s', redirect_isa_interrupt apic_id isa_mapping isa v s = Ok (tt, s') /\
    entry_of (redirection s' (isa_mapping isa)) = mk_entry v NORMAL 0 0 0 EDGE 0 apic_id /\ only_entry (isa_mapping isa) s s'.
Proof.
  intros Ha Hi Hv Hm. unfold redirect_isa_interrupt. rewrite (proj2 (Z.leb_le isa 15)), (proj2 (Z.ltb_lt 31 v)) by lia. erewrite bind_ok by done. erewrite bind_ok by done.
  unfold compute_destination_for_interrupt. rewrite (proj2 (Z.leb_le 32 v)) by lia. erewrite bind_ok by done. rewrite Z.mod_small by lia.
  apply write_redirection_run; [done|unfold entry_ok, NORMAL, EDGE; simpl; lia|done|done].
Qed.

Lemma remove_run isa_mapping isa v dst s : isa <= 15 -> 0 <= v < 256 -> 0 <= dst < 16 -> 0 <= isa_mapping isa < 120 ->
  entry_of (redirection s (isa_mapping isa)) = mk_entry v NORMAL 0 0 0 EDGE 0 dst ->
  exists s', remove_redirection_for_isa_interrupt isa_mapping isa s = Ok (tt, s') /\
    entry_of (redirection s' (isa_mapping isa)) = mk_entry v NORMAL 0 0 0 EDGE 1 dst /\ only_entry (isa_mapping isa) s s'.
Proof.
  intros Hi Hv Hd Hm E. unfold remove_redirection_for_isa_interrupt. rewrite (proj2 (Z.leb_le isa 15)) by lia. erewrite bind_ok by done.
  destruct (read_redirection_run _ s Hm) as (s1 & E1 & R1). erewrite bind_ok by exact E1. rewrite E. simpl.
  destruct (write_redirection_run (isa_mapping isa) (mk_entry v NORMAL 0 0 0 EDGE 1 dst) s1) as (s2 & E2 & D2 & F2); [done|unfold entry_ok, NORMAL, EDGE; simpl; lia|done|done|].
  exists s2. split_and!; try done. intros r H1 H2. by rewrite F2, R1.
Qed.

(** [redirect_isa_interrupt] makes the entry of the (mapped) ISA interrupt one that delivers the vector to the calling cpu, edge-triggered and unmasked, and changes no other register;
    [remove_redirection_for_isa_interrupt] then masks that entry and keeps its other fields.  Vectors that are reserved, and interrupts that are not ISA interrupts, fail an assertion. *)
Theorem ioapic_redirect_correct apic_id isa_mapping isa v s :
  0 <= apic_id < 16 -> 0 <= isa -> 0 <= v < 256 -> (forall k, 0 <= isa_mapping k < 120) ->
  let i := isa_mapping isa in
  if (isa <=? 15) && (31 <? v) then
    exists s1, redirect_isa_interrupt apic_id isa_mapping isa v s = Ok (tt, s1) /\
      entry_of (redirection s1 i) = mk_entry v NORMAL 0 0 0 EDGE 0 apic_id /\ only_entry i s s1 /\
    exists s2, remove_redirection_for_isa_interrupt isa_mapping isa s1 = Ok (tt, s2) /\
      entry_of (redirection s2 i) = mk_entry v NORMAL 0 0 0 EDGE 1 apic_id /\ only_entry i s s2
  else exists msg, redirect_isa_interrupt apic_id isa_mapping isa v s = Halt (Panic msg).
Proof.
  intros Ha Hi Hv Hm i. specialize (Hm isa). destruct (Z.leb_spec isa 15); [destruct (Z.ltb_spec 31 v)|]; simpl.
  - destruct (redirect_run apic_id isa_mapping isa v s) as (s1 & E1 & D1 & F1); [done|done|lia|done|]. exists s1. split_and!; try done.
    destruct (remove_run isa_mapping isa v apic_id s1) as (s2 & E2 & D2 & F2); try done. exists s2. split_and!; try done. intros r H1 H2. by rewrite F2, F1.
  - unfold redirect_isa_interrupt. rewrite (proj2 (Z.leb_le isa 15)), (proj2 (Z.ltb_ge 31 v)) by lia. by eexists.
  - unfold redirect_isa_interrupt. rewrite (proj2 (Z.leb_gt isa 15)) by lia. by eexists.
Qed.

End IoapicProofs.

Lemma ioapic_redirect_correct_witness :
  exists s1, Ioapic.redirect_isa_interrupt 0 (fun k => if k =? 0 then 2 else k mod 16) 0 32 (Ioapic.mk_ioapic 0 (fun _ => 0)) = Ok (tt, s1) /\
    Ioapic.entry_of (redirection s1 2) = Ioapic.mk_entry 32 NORMAL 0 0 0 EDGE 0 0.
Proof.
  destruct (ioapic_redirect_correct 0 (fun k => if k =? 0 then 2 else k mod 16) 0 32 (Ioapic.mk_ioapic 0 (fun _ => 0)) ltac:(lia) ltac:(lia) ltac:(lia)
    ltac:(intros k; simpl; destruct (k =? 0); [lia|]; pose proof (Z.mod_pos_bound k 16); lia)) as (s1 & E & H & _). by exists s1.
Defined.
