(* ===== verification/Calibrate.v ===== *)
(** * The frequency of the LAPIC timer: [calibrate_timer] of [src/lapic.c]

    The LAPIC timer counts down while the PIT underflows; the handler of its interrupt
    reads the count at the last of [N] underflows.  [lead] cycles of the LAPIC pass
    before the PIT is started, and [period k] between its underflows [k] and [k + 1].
    An underflow runs the handler if the entry of the I/O APIC is not masked and the
    callback of its vector on the cpu is the handler. *)

From S2P Require Import Prelude Math Bits Percpu Interrupt Apic.
Import Lapic Ioapic.

(** [underflows] (ghost): how often the PIT underflowed. *)
Record calst := mk_cal {
  lap : lapic; io : ioapic; num_underflows_remaining : Z; calibrate_done : bool; current_at_pit_interrupt : Z;
  LAPIC_TIMER_FREQ : Z; ports : list (Z * Z); underflows : nat }.

Definition set_lap v s := mk_cal v (io s) (num_underflows_remaining s) (calibrate_done s) (current_at_pit_interrupt s) (LAPIC_TIMER_FREQ s) (ports s) (underflows s).
Definition set_io v s := mk_cal (lap s) v (num_underflows_remaining s) (calibrate_done s) (current_at_pit_interrupt s) (LAPIC_TIMER_FREQ s) (ports s) (underflows s).
Definition set_remaining v s := mk_cal (lap s) (io s) v (calibrate_done s) (current_at_pit_interrupt s) (LAPIC_TIMER_FREQ s) (ports s) (underflows s).
Definition set_done c s := mk_cal (lap s) (io s) (num_underflows_remaining s) true c (LAPIC_TIMER_FREQ s) (ports s) (underflows s).
Definition set_freq v s := mk_cal (lap s) (io s) (num_underflows_remaining s) (calibrate_done s) (current_at_pit_interrupt s) v (ports s) (underflows s).
Definition set_ports v s := mk_cal (lap s) (io s) (num_underflows_remaining s) (calibrate_done s) (current_at_pit_interrupt s) (LAPIC_TIMER_FREQ s) v (underflows s).
Definition set_underflows v s := mk_cal (lap s) (io s) (num_underflows_remaining s) (calibrate_done s) (current_at_pit_interrupt s) (LAPIC_TIMER_FREQ s) (ports s) v.

(** The timer in periodic mode, [n] cycles later. *)
Definition run_timer n (s : lapic) : lapic :=
  mk_lapic (spurious_interrupt_vector s) (lvt_timer s) (initial_count s) ((current_count s - n) mod initial_count s) (icr_hi s) (busy s) (sent s) (elapsed s) (ints s).

Section Calibrate.
Context (apic_id : Z) (isa_mapping : Z -> Z) (PIT_HANDLER lead : Z) (period : nat -> Z).

Definition on_ints {A} (m : M intst A) : M calst A := zoom lap set_lap (zoom ints set_ints m).
Definition outb (port v : Z) : M calst unit := modify (fun s => set_ports (ports s ++ [(port, v)]) s).

Definition calibrate_timer_pit_handler : M calst unit :=
  modify (fun s => set_remaining (u32 (num_underflows_remaining s - 1)) s);;;
  do n <- gets num_underflows_remaining;
  when (n =? 0)
    (modify (fun s => set_done (current_count (lap s)) s);;;
     zoom io set_io (remove_redirection_for_isa_interrupt isa_mapping 0)).

(** The next underflow of the PIT and its interrupt. *)
Definition pit_underflow : M calst unit :=
  modify (fun s => set_underflows (S (underflows s)) (set_lap (run_timer (period (underflows s)) (lap s)) s));;;
  do e <- zoom io set_io (read_redirection (isa_mapping 0));
  do s <- gets (fun s => ints (lap s));
  when (v_if (cpu_vars s) && (masked e =? 0) && (handler_of (Ioapic.vector e) s =? PIT_HANDLER)) calibrate_timer_pit_handler.

(** [while (!calibrate_done);] *)
Fixpoint wait_calibrated (fuel : nat) : M calst unit :=
  match fuel with
  | O => halt_with (Hang "calibrate_timer")
  | S fuel' => do d <- gets calibrate_done; if (d : bool) then ret tt else pit_underflow;;; wait_calibrated fuel'
  end.

Definition calibrate_timer : M calst unit :=
  let N := 20 in
  modify (set_remaining N);;;
  let vector := 32 in
  zoom lap set_lap (start_timer 0xFFFFFFFF true vector true);;;
  zoom io set_io (redirect_isa_interrupt apic_id isa_mapping 0 vector);;;
  on_ints (interrupt_register_local_callback vector PIT_HANDLER);;;
  let cmd := Z.lor (Z.shiftl 3 4) (Z.shiftl 2 1) in
  outb 0x43 cmd;;;
  let pit_base_freq := 1193182 in
  let counter := 29102 in
  ASSERT (pit_base_freq mod counter =? 0) "!(pit_base_freq % counter)";;;
  outb 0x40 (u8 (Z.land counter 0xFF));;;
  on_ints (cpu_set_interrupt_flag true);;;
  modify (fun s => set_lap (run_timer lead (lap s)) s);;;
  do current_at_start <- gets (fun s => current_count (lap s));
  outb 0x40 (u8 (Z.shiftr counter 8));;;
  wait_calibrated (S (Z.to_nat N));;;
  do c <- gets current_at_pit_interrupt;
  ASSERT (c <? current_at_start) "current_at_pit_interrupt < current_at_start";;;
  on_ints (cpu_set_interrupt_flag false);;;
  on_ints (interrupt_delete_local_callback vector);;;
  zoom lap set_lap lapic_stop_timer;;;
  let delta := u32 (current_at_start - c) in
  let pit_curr_freq := pit_base_freq / counter in
  modify (set_freq (u64 (delta * pit_curr_freq) / N)).

(** ** The wait *)

(** The cycles of the first [n] periods. *)
Definition cycles_after (n : nat) : Z := foldr Z.add 0 (map period (seq 0 n)).

Lemma cycles_after_S n : cycles_after (S n) = cycles_after n + period n.
Proof.
  unfold cycles_after. rewrite seq_S, map_app. simpl. generalize (map period (seq 0 n)). intros l. induction l as [|x l IH]; simpl; lia.
Qed.

Lemma cycles_after_mono n m : (forall k, 0 < period k) -> (n <= m)%nat -> cycles_after n <= cycles_after m.
Proof. intros Hp H. induction H as [|m H IH]; [lia|]. rewrite cycles_after_S. pose proof (Hp m). lia. Qed.

Lemma cycles_after_near n F e : (forall k, - e <= 41 * period k - F <= e) -> - (Z.of_nat n * e) <= 41 * cycles_after n - Z.of_nat n * F <= Z.of_nat n * e.
Proof. intros Hp. induction n as [|n IH]; [done|]. rewrite cycles_after_S. pose proof (Hp n). lia. Qed.

(** What holds while the handler waits for the rest of the underflows. *)
Record waiting (dst : Z) (l0 : intst) (start : Z) (n : nat) (s : calst) : Prop := mk_waiting {
  w_done : calibrate_done s = false;
  w_left : num_underflows_remaining s = 20 - Z.of_nat n;
  w_under : underflows s = n;
  w_initial : initial_count (lap s) = 0xFFFFFFFF;
  w_count : current_count (lap s) = start - cycles_after n;
  w_ints : ints (lap s) = l0;
  w_entry : entry_of (redirection (io s) (isa_mapping 0)) = mk_entry 32 NORMAL 0 0 0 EDGE 0 dst }.

(** What holds when the loop ends. *)
Record calibrated (dst : Z) (l0 : intst) (start : Z) (s : calst) : Prop := mk_calibrated {
  c_done : calibrate_done s = true;
  c_value : current_at_pit_interrupt s = start - cycles_after 20;
  c_ints : ints (lap s) = l0;
  c_entry : entry_of (redirection (io s) (isa_mapping 0)) = mk_entry 32 NORMAL 0 0 0 EDGE 1 dst }.

Context (dst : Z) (l0 : intst) (start : Z).
Hypotheses (Hdst : 0 <= dst < 16) (Hmap : 0 <= isa_mapping 0 < 120) (Hpos : forall k, 0 < period k).
Hypotheses (Hif : v_if (cpu_vars l0) = true) (Hcb : handler_of 32 l0 = PIT_HANDLER) (Hstart : cycles_after 20 < start < 0xFFFFFFFF).

Lemma underflow_run n s : waiting dst l0 start n s -> (n < 20)%nat ->
  exists s', pit_underflow s = Ok (tt, s') /\ ports s' = ports s /\ if (n =? 19)%nat then calibrated dst l0 start s' else waiting dst l0 start (S n) s'.
Proof using Hdst Hmap Hpos Hif Hcb Hstart.
  intros [W1 W2 W3 W4 W5 W6 W7] Hn. unfold pit_underflow. erewrite bind_ok by done. set (s1 := set_underflows _ _).
  destruct (read_redirection_run (isa_mapping 0) (io s1) Hmap) as (i1 & E1 & R1).
  assert (Ez : zoom io set_io (read_redirection (isa_mapping 0)) s1 = Ok (mk_entry 32 NORMAL 0 0 0 EDGE 0 dst, set_io i1 s1)) by (unfold zoom; rewrite E1; simpl; by rewrite W7).
  erewrite bind_ok by exact Ez. erewrite bind_ok by done. simpl. rewrite W6, Hif, Hcb, Z.eqb_refl. simpl.
  assert (Hm : cycles_after (S n) <= cycles_after 20) by (apply cycles_after_mono; [done|lia]). pose proof (cycles_after_S n) as Hs. pose proof (Hpos n) as Hpn.
  assert (H0 : 0 <= cycles_after n) by (apply (cycles_after_mono 0 n Hpos); lia).
  assert (Hc : (current_count (lap s) - period (underflows s)) mod initial_count (lap s) = start - cycles_after (S n)).
  { rewrite W3, W4, W5. rewrite Z.mod_small by lia. lia. }
  assert (W7' : entry_of (redirection i1 (isa_mapping 0)) = mk_entry 32 NORMAL 0 0 0 EDGE 0 dst) by (unfold redirection in *; rewrite R1; exact W7).
  unfold calibrate_timer_pit_handler. erewrite bind_ok by done. erewrite bind_ok by done. simpl. rewrite W2, u32_id by lia. destruct (Nat.eqb_spec n 19) as [->|Hne].
  - simpl. erewrite bind_ok by done. destruct (remove_run isa_mapping 0 32 dst i1) as (i2 & E2 & D2 & _); [lia|lia|done|done|exact W7'|]. unfold zoom. simpl. rewrite E2. eexists. split; [done|]. split; [done|].
    constructor; simpl; [done|exact Hc|exact W6|exact D2].
  - rewrite (proj2 (Z.eqb_neq _ 0)) by lia. simpl. eexists. split; [done|]. split; [done|]. constructor; simpl; [done|lia|by rewrite W3|done|exact Hc|done|exact W7'].
Qed.

Lemma wait_calibrated_run k s : (k <= 20)%nat -> waiting dst l0 start (20 - k) s -> k <> 0%nat -> exists s', wait_calibrated (S k) s = Ok (tt, s') /\ ports s' = ports s /\ calibrated dst l0 start s'.
Proof using Hdst Hmap Hpos Hif Hcb Hstart.
  revert s. induction k as [|k IH]; intros s Hk Hw Hne; [done|]. destruct (underflow_run _ s Hw) as (s1 & E1 & P1 & H1); [lia|].
  change (wait_calibrated (S (S k)) s) with (bind (gets calibrate_done) (fun d => if (d : bool) then ret tt else pit_underflow;;; wait_calibrated (S k)) s).
  erewrite bind_ok by done. rewrite (w_done _ _ _ _ _ Hw). erewrite bind_ok by exact E1. destruct (Nat.eqb_spec (20 - S k) 19) as [E|E].
  - assert (k = 0%nat) as -> by lia. simpl. erewrite bind_ok by done. rewrite (c_done _ _ _ _ H1). by eexists.
  - replace (S (20 - S k)) with (20 - k)%nat in H1 by lia. destruct (IH s1) as (s2 & E2 & P2 & H2); [lia|done|lia|]. exists s2. rewrite P2. done.
Qed.

End Calibrate.

(** ** The result *)

Lemma zoom_ok {S T A} (get : S -> T) put (m : M T A) a t s : m (get s) = Ok (a, t) -> zoom get put m s = Ok (a, put t s).
Proof. unfold zoom. by intros ->. Qed.

(** A cpu at boot: interrupts are disabled and nothing uses the vector of the PIT. *)
Definition boot_ready (s : calst) : Prop :=
  let l := ints (lap s) in
  calibrate_done s = false /\ underflows s = 0%nat /\ int_ok l /\ v_if (cpu_vars l) = false /\ 0 <= v_count (cpu_vars l) < 2 ^ 32 - 2 /\
  length (local_callbacks l) = 256%nat /\ length (GLOBAL_CALLBACKS l) = 256%nat /\ nth 32 (local_callbacks l) 0 = 0.

(** What the calls before the wait leave. *)
Lemma calibrate_setup apic_id isa_mapping PIT_HANDLER (s : calst) :
  0 <= apic_id < 16 -> 0 <= isa_mapping 0 < 120 -> PIT_HANDLER <> 0 -> boot_ready s ->
  exists i1, redirect_isa_interrupt apic_id isa_mapping 0 32 (io s) = Ok (tt, i1) /\ entry_of (redirection i1 (isa_mapping 0)) = mk_entry 32 NORMAL 0 0 0 EDGE 0 apic_id /\
    let l1 := set_local (<[32%nat := PIT_HANDLER]> (local_callbacks (ints (lap s)))) (ints (lap s)) in
    interrupt_register_local_callback 32 PIT_HANDLER (ints (lap s)) = Ok (tt, l1) /\
    handler_of 32 (set_vars (with_flag true (cpu_vars l1)) l1) = PIT_HANDLER.
Proof.
  intros Ha Hm Hp (_ & _ & Hok & Hif & Hc & Hl & Hg & H32). destruct (redirect_run apic_id isa_mapping 0 32 (io s)) as (i1 & E1 & D1 & _); [done|lia|lia|done|].
  exists i1. split; [done|]. split; [done|]. cbv zeta. split.
  - unfold interrupt_register_local_callback. rewrite register_callback_run by (done || lia). change (Z.to_nat 32) with 32%nat. by rewrite H32.
  - unfold handler_of. cbn [set_vars set_local local_callbacks GLOBAL_CALLBACKS]. change (Z.to_nat 32) with 32%nat. rewrite nth_lookup, list_lookup_insert_eq by lia. simpl. by rewrite (proj2 (Z.eqb_neq _ _) Hp).
Qed.

(** C30: [calibrate_timer] returns, and the frequency it computes is that of the LAPIC timer: if each period of the PIT, of 29102 / 1193182 = 1 / 41 of a second, lasts as long as [F / 41] cycles
    up to an error of [e / 41], the result is [F] up to [e + 1].  The PIT is programmed with that period, and afterwards its interrupt is masked, its callback deleted,
    the timer stopped and interrupts are disabled. *)
Theorem calibrate_bounds apic_id isa_mapping PIT_HANDLER lead period s F e :
  0 <= apic_id < 16 -> 0 <= isa_mapping 0 < 120 -> PIT_HANDLER <> 0 -> boot_ready s ->
  (forall k, 0 < period k) -> (forall k, - e <= 41 * period k - F <= e) -> 0 < lead -> lead + cycles_after period 20 < 0xFFFFFFFF ->
  exists s', calibrate_timer apic_id isa_mapping PIT_HANDLER lead period s = Ok (tt, s') /\
    - (e + 1) <= LAPIC_TIMER_FREQ s' - F <= e + 1 /\
    ports s' = ports s ++ [(0x43, 0x34); (0x40, 29102 mod 256); (0x40, 29102 / 256)] /\
    masked (entry_of (redirection (io s') (isa_mapping 0))) = 1 /\ nth 32 (local_callbacks (ints (lap s'))) 0 = 0 /\
    initial_count (lap s') = 0 /\ v_if (cpu_vars (ints (lap s'))) = false.
Proof.
  intros Ha Hm Hp Hb Hpos Hnear Hl Hsum. destruct (calibrate_setup apic_id isa_mapping PIT_HANDLER s Ha Hm Hp Hb) as (i1 & E1 & D1 & E2 & Hh). destruct Hb as (B1 & B2 & Hok & Hif & Hc & Hln & Hg & H32).
  set (l1 := set_local _ _) in *. set (l2 := set_vars (with_flag true (cpu_vars l1)) l1) in *. pose proof (cycles_after_near period 20 F e Hnear) as Hn. pose proof (cycles_after_mono period 1 20 Hpos ltac:(lia)) as Hm1.
  assert (H1 : 0 < cycles_after period 1) by (rewrite cycles_after_S; pose proof (Hpos 0%nat); unfold cycles_after; simpl; lia).
  unfold calibrate_timer. cbv zeta. erewrite bind_ok by done. erewrite bind_ok by done. erewrite bind_ok by (apply zoom_ok; exact E1). erewrite bind_ok by (apply zoom_ok, zoom_ok; exact E2).
  erewrite bind_ok by done. erewrite bind_ok by done. erewrite bind_ok by done. erewrite bind_ok by done. erewrite bind_ok by done. erewrite bind_ok by done. erewrite bind_ok by done.
  match goal with |- context [bind (wait_calibrated _ _ _ _) _ ?x] => set (s1 := x) end.
  destruct (wait_calibrated_run isa_mapping PIT_HANDLER period apic_id l2 (0xFFFFFFFF - lead) Ha Hm Hpos eq_refl Hh ltac:(lia) 20 s1) as (s2 & E3 & P2 & [C1 C2 C3 C4]); [lia| |done|].
  { constructor; try done. simpl. rewrite Z.mod_small by lia. unfold cycles_after. simpl. lia. }
  change (Z.to_nat 20) with 20%nat. erewrite bind_ok by exact E3. erewrite bind_ok by done. rewrite C2.
  match goal with |- context [_ <? ?st] => replace st with (0xFFFFFFFF - lead) by (cbn; rewrite Z.mod_small; lia) end. rewrite (proj2 (Z.ltb_lt _ _)) by lia. erewrite bind_ok by done. erewrite bind_ok by done.
  destruct (delete_local_disables 32 (set_vars (with_flag false (cpu_vars l2)) l2)) as (l3 & E4 & _ & I3 & L3); [done|simpl; lia|lia|by simpl; rewrite length_insert|].
  erewrite bind_ok by (apply zoom_ok, zoom_ok; cbn [lap set_lap ints set_ints]; rewrite C3; exact E4). erewrite bind_ok by done. eexists. split; [done|]. simpl. rewrite u32_id by lia. change (1193182 / 29102) with 41. rewrite u64_id by lia. split_and!; try done.
  - Z.to_euclidean_division_equations; lia.
  - Z.to_euclidean_division_equations; lia.
  - rewrite P2. simpl. by rewrite <- !app_assoc.
  - exact (f_equal masked C4).
  - rewrite L3, nth_lookup, list_lookup_insert_eq by (simpl; rewrite length_insert; lia). done.
Qed.

Lemma calibrate_bounds_witness : exists s', calibrate_timer 0 (fun _ => 2) 0xC0100000 1000 (fun k => 24390243 + Z.of_nat (k mod 2)) (mk_cal ex_lapic (Ioapic.mk_ioapic 0 (fun _ => 0)) 0 false 0 0 [] 0) = Ok (tt, s') /\
  - 39 <= LAPIC_TIMER_FREQ s' - 1000000000 <= 39.
Proof.
  destruct (calibrate_bounds 0 (fun _ => 2) 0xC0100000 1000 (fun k => 24390243 + Z.of_nat (k mod 2)) (mk_cal ex_lapic (Ioapic.mk_ioapic 0 (fun _ => 0)) 0 false 0 0 [] 0) 1000000000 38) as (s' & E & H & _).
  - lia.
  - lia.
  - done.
  - repeat split; simpl; lia || done.
  - intros k. lia.
  - intros k. pose proof (Nat.mod_upper_bound k 2). lia.
  - lia.
  - by vm_compute.
  - exists s'. split; [exact E|exact H].
Defined.
