(* ===== verification/Acpi.v ===== *)
(** * The ACPI tables: [src/acpi.c]

    The bytes of the physical memory, the pages below the kernel that are mapped to
    themselves, and the variables of the parser.  Addresses of the kernel half are
    mapped to low memory; an access to another page that is not mapped traps.  The
    operations on the page tables are those that [PagingProps.v] shows: mapping a page
    again the same way succeeds, unmapping one that is not mapped panics;
    [no_memory] says where there is no frame for a page table.  [LOG] is left out. *)

From S2P Require Import Prelude Math CMem.

(** ** State *)

Record config := mk_config { IO_APIC_ADDR : Z; NCPUS : Z; isa_vector_mapping : list Z }.
Record acpi := mk_acpi { phys : mem; ptab : gset Z; conf : config }.

Definition set_ptab v s := mk_acpi (phys s) v (conf s).
Definition set_conf v s := mk_acpi (phys s) (ptab s) v.

Definition set_ioapic v c := mk_config v (NCPUS c) (isa_vector_mapping c).
Definition set_ncpus v c := mk_config (IO_APIC_ADDR c) v (isa_vector_mapping c).
Definition set_isa v c := mk_config (IO_APIC_ADDR c) (NCPUS c) v.

(** The values of the globals at boot. *)
Definition boot_config : config := mk_config 0 0 (range 0 16).

(** ** Memory *)

Definition vbyte (s : acpi) (v : Z) : option Z :=
  if KERNEL_PHY_OFFSET <=? v then phys s !! to_phys v else if decide (v / 4096 ∈ ptab s) then phys s !! v else None.

Definition rd (v : Z) : M acpi Z := fun s => must (vbyte s v) "page fault" s.

(** A little-endian number of [n] bytes. *)
Fixpoint rd_num (n : nat) (v : Z) : M acpi Z :=
  match n with
  | O => ret 0
  | S n' => do b <- rd v; do rest <- rd_num n' (u32 (v + 1)); ret (b + 256 * rest)
  end.

Fixpoint rd_bytes (n : nat) (v : Z) : M acpi (list Z) :=
  match n with
  | O => ret []
  | S n' => do b <- rd v; do rest <- rd_bytes n' (u32 (v + 1)); ret (b :: rest)
  end.

(** The pages that a region touches, as the loops of [paging.c] count them. *)
Definition region (a len : Z) : list Z :=
  let n := ceil_x_over_y_u32 (u32 (len + a mod 4096)) 4096 in range (a / 4096) (a / 4096 + n).

Definition paging_unmap (a len : Z) : M acpi unit :=
  for_each (region a len) (fun p =>
    do t <- gets ptab;
    if decide (p ∈ t) then modify (set_ptab (t ∖ {[p]})) else panic "Address is not mapped.").

Section Parser.
(** [kmalloc_fails]: [kmalloc] returns NULL for the signature. *)
Context (no_memory : Z -> Z -> bool) (kmalloc_fails : bool).

Definition paging_map (a len : Z) : M acpi bool :=
  if no_memory a len then ret false
  else modify (fun s => set_ptab (ptab s ∪ list_to_set (region a len)) s);;; ret true.

(** ** Tables *)

Definition SIZEOF_SDT_HEADER : Z := 36.
Definition SIZEOF_MADT : Z := 44.
Definition SIZEOF_RSDP : Z := 36.
(** The offset of [length] in [struct rsdp_desc]. *)
Definition RSDP_LENGTH : Z := 20.

Fixpoint sum_bytes (n : nat) (ptr sum : Z) : M acpi Z :=
  match n with
  | O => ret sum
  | S n' => do b <- rd ptr; sum_bytes n' (u32 (ptr + 1)) (u8 (sum + b))
  end.

Definition verify_checksum_raw (ptr len : Z) : M acpi bool :=
  do sum <- sum_bytes (Z.to_nat len) ptr 0; ret (sum =? 0).

Definition rsdp_revision (rsdp : Z) : M acpi Z := rd (u32 (rsdp + 15)).

Definition verify_rsdp_desc_checksum (rsdp : Z) : M acpi bool :=
  do v1 <- verify_checksum_raw rsdp RSDP_LENGTH;
  if negb v1 then ret false
  else
    do revision <- rsdp_revision rsdp;
    if negb (revision =? 0) then
      do v2 <- verify_checksum_raw (u32 (rsdp + RSDP_LENGTH)) (SIZEOF_RSDP - RSDP_LENGTH);
      if negb v2 then ret false else ret true
    else ret true.

(** [sdt->length] *)
Definition sdt_length (sdt : Z) : M acpi Z := rd_num 4 (u32 (sdt + 4)).

Definition verify_sdt_checksum (sdt : Z) : M acpi bool :=
  do len <- sdt_length sdt; verify_checksum_raw sdt len.

(** "RSD PTR " and "APIC" *)
Definition RSD_PTR : list Z := [82; 83; 68; 32; 80; 84; 82; 32].
Definition APIC : list Z := [65; 80; 73; 67].

(** The loop from [ptr], with [n] steps left; [None] is the NULL pointer. *)
Fixpoint scan (n : nat) (ptr : Z) : M acpi (option Z) :=
  match n with
  | O => ret None
  | S n' =>
      do found <- strneq rd ptr (rd_buf RSD_PTR) 0 8;
      if (found : bool) then ret (Some ptr) else scan n' (ptr + 16)
  end.

Definition find_rsdp_desc : M acpi (option Z) :=
  let ebda_start := to_virt 0x000A0000 in
  let ebda_end := to_virt 0x00100000 in
  scan (Z.to_nat ((ebda_end - ebda_start) / 16)) ebda_start.

(** The string, in a buffer that [kmalloc] has zeroed. *)
Definition get_sdt_signature (sdt : Z) : M acpi (list Z) :=
  if kmalloc_fails then panic "Cannot allocate SDT signature string"
  else do l <- rd_bytes 4 sdt; ret (l ++ [0]).

Definition number_of_tables_for_rsdt (rsdt : Z) : M acpi Z := do len <- sdt_length rsdt; ret (u32 (len - SIZEOF_SDT_HEADER) / 4).
Definition number_of_tables_for_xsdt (xsdt : Z) : M acpi Z := do len <- sdt_length xsdt; ret (u32 (len - SIZEOF_SDT_HEADER) / 8).

Definition map_table (table : Z) : M acpi unit :=
  do ok <- paging_map table SIZEOF_SDT_HEADER;
  if negb ok then panic "Cannot map table in ACPI parser"
  else
    do len <- sdt_length table;
    do ok <- paging_map table len;
    if negb ok then panic "Cannot map table in ACPI parser" else ret tt.

Definition unmap_table (table : Z) : M acpi unit := do len <- sdt_length table; paging_unmap table len.

(** ** The MADT *)

Definition on_conf {A} (m : M config A) : M acpi A := zoom conf set_conf m.

Definition process_madt_local_apic_entry (entry : Z) : M acpi unit :=
  do flags <- rd_num 4 (u32 (entry + 4));
  when (negb (flags =? 0)) (on_conf (modify (fun c => set_ncpus (u16 (NCPUS c + 1)) c))).

Definition process_madt_ioapic_entry (entry : Z) : M acpi unit :=
  do addr <- gets (fun s => IO_APIC_ADDR (conf s));
  ASSERT (addr =? 0) "!IO_APIC_ADDR";;;
  do ioapic_addr <- rd_num 4 (u32 (entry + 4));
  on_conf (modify (set_ioapic ioapic_addr)).

(** [isa_vector_mapping[i] = v] *)
Definition set_mapping (i v : Z) : M config unit := fun c =>
  if (0 <=? i) && (i <? Z.of_nat (length (isa_vector_mapping c))) then Ok (tt, set_isa (<[Z.to_nat i := v]> (isa_vector_mapping c)) c)
  else Halt (Trap "isa_vector_mapping").

Definition process_madt_int_src_override_entry (entry : Z) : M acpi unit :=
  do bus <- rd (u32 (entry + 2));
  when (bus =? 0)
    (do source_irq <- rd (u32 (entry + 3));
     do global_system_interrupt <- rd_num 4 (u32 (entry + 4));
     on_conf (set_mapping source_irq (u8 global_system_interrupt))).

(** [enum madt_entry_type_t] *)
Definition PROC_LOCAL_APIC : Z := 0.
Definition IO_APIC : Z := 1.
Definition INTERRUPT_SOURCE_OVERRIDE : Z := 2.

Definition process_madt_entry (ptr : Z) : M acpi unit :=
  do type <- rd ptr;
  if type =? PROC_LOCAL_APIC then process_madt_local_apic_entry ptr
  else if type =? IO_APIC then process_madt_ioapic_entry ptr
  else if type =? INTERRUPT_SOURCE_OVERRIDE then process_madt_int_src_override_entry ptr
  else ret tt.

Fixpoint madt_loop (fuel : nat) (ptr end_of_madt : Z) : M acpi unit :=
  match fuel with
  | O => halt_with (Hang "process_madt")
  | S fuel' =>
      if ptr <? end_of_madt then
        process_madt_entry ptr;;;
        do length <- rd (u32 (ptr + 1));
        madt_loop fuel' (u32 (ptr + length)) end_of_madt
      else ret tt
  end.

(** Each entry that is not empty has at least one byte: [length + 1] steps are enough. *)
Definition process_madt (madt : Z) : M acpi unit :=
  do length <- sdt_length madt;
  madt_loop (S (Z.to_nat length)) (u32 (madt + SIZEOF_MADT)) (u32 (madt + length)).

Definition acpi_table_callback (sdt : Z) : M acpi unit :=
  do signature <- get_sdt_signature sdt;
  do is_madt <- streq 6 (rd_buf signature) 0 (rd_buf (APIC ++ [0])) 0;
  when is_madt (process_madt sdt).

(** ** The walk *)

(** The body of both loops. *)
Definition visit_table (root sdt : Z) (callback : Z -> M acpi unit) : M acpi unit :=
  map_table sdt;;;
  do valid <- verify_sdt_checksum sdt;
  when valid (callback sdt);;;
  unmap_table sdt;;;
  map_table root.

Definition parse_acpi_v2_info (callback : Z -> M acpi unit) (xsdt : Z) : M acpi unit :=
  map_table xsdt;;;
  do n_tables <- number_of_tables_for_xsdt xsdt;
  for_each (range 0 n_tables) (fun i =>
    do sdt_off <- rd_num 8 (u32 (xsdt + SIZEOF_SDT_HEADER + 8 * i));
    when (negb (Z.shiftr sdt_off 32 =? 0)) (panic "SDT above the 4GiB limit.");;;
    visit_table xsdt (u32 sdt_off) callback);;;
  unmap_table xsdt.

Definition parse_acpi_v1_info (callback : Z -> M acpi unit) (rsdt : Z) : M acpi unit :=
  map_table rsdt;;;
  do n_tables <- number_of_tables_for_rsdt rsdt;
  for_each (range 0 n_tables) (fun i =>
    do sdt <- rd_num 4 (u32 (rsdt + SIZEOF_SDT_HEADER + 4 * i));
    visit_table rsdt sdt callback);;;
  unmap_table rsdt.

Definition parse_acpi_info (callback : Z -> M acpi unit) : M acpi unit :=
  do rsdp <- find_rsdp_desc;
  match rsdp with
  | None => panic "Could not find RSDP"
  | Some rsdp =>
      do valid <- verify_rsdp_desc_checksum rsdp;
      when (negb valid) (panic "RSDP checksum is invalid.");;;
      do revision <- rsdp_revision rsdp;
      if negb (revision =? 0) then
        do xsdt_off <- rd_num 8 (u32 (rsdp + 24));
        when (negb (Z.shiftr xsdt_off 32 =? 0)) (panic "The XSDT is above the 4GiB limit, cannot reach in PM");;;
        parse_acpi_v2_info callback (u32 xsdt_off)
      else
        do rsdt <- rd_num 4 (u32 (rsdp + 16));
        parse_acpi_v1_info callback rsdt
  end.

Definition acpi_init : M acpi unit := parse_acpi_info acpi_table_callback.

End Parser.

Definition acpi_get_ioapic_addr : M acpi Z := gets (fun s => IO_APIC_ADDR (conf s)).
Definition acpi_get_isa_interrupt_vector_mapping (isa_vector : Z) : M acpi Z :=
  ASSERT (isa_vector <=? 15) "isa_vector <= 15";;;
  do l <- gets (fun s => isa_vector_mapping (conf s)); must (l !! Z.to_nat isa_vector) "isa_vector_mapping".
Definition acpi_get_number_cpus : M acpi Z :=
  do n <- gets (fun s => NCPUS (conf s)); ASSERT (negb (n =? 0)) "NCPUS";;; ret n.
