(* ===== verification/AcpiProps.v ===== *)
(** * Properties of the ACPI parser

    Tables are sequences of bytes in memory.  The entries of a MADT are an inductive
    type with the encoding of the ACPI specification; what they mean is a program on
    the variables of the parser alone.  [acpi_init] does to the whole state what the
    entries of all the valid MADTs do to these variables. *)

From S2P Require Import Prelude Math CMem Acpi.

(** ** The contents of tables *)

(** The number of [n] bytes from the [k]-th on, and its bytes. *)
Fixpoint num (n : nat) (l : list Z) : Z := match n with O => 0 | S n' => hd 0 l + 256 * num n' (tl l) end.
Fixpoint le (n : nat) (v : Z) : list Z := match n with O => [] | S n' => v mod 256 :: le n' (v / 256) end.
Definition field (k n : nat) (l : list Z) : Z := num n (drop k l).

Inductive entry :=
| LocalApic (acpi_processor_id apic_id flags : Z)
| IoApic (ioapic_id ioapic_addr global_sys_int_base : Z)
| Override (bus source_irq global_system_interrupt flags : Z)
| Other (type : Z) (data : list Z).

Definition encode (e : entry) : list Z :=
  match e with
  | LocalApic p a f => [0; 8; p; a] ++ le 4 f
  | IoApic i a b => [1; 12; i; 0] ++ le 4 a ++ le 4 b
  | Override b i g f => [2; 10; b; i] ++ le 4 g ++ le 2 f
  | Other t d => [t; Z.of_nat (length d) + 2] ++ d
  end.

Definition byte_ok (b : Z) : Prop := 0 <= b < 256.

Definition entry_ok (e : entry) : Prop :=
  match e with
  | LocalApic p a f => byte_ok p /\ byte_ok a /\ 0 <= f < 2 ^ 32
  | IoApic i a b => byte_ok i /\ 0 <= a < 2 ^ 32 /\ 0 <= b < 2 ^ 32
  | Override b i g f => byte_ok b /\ byte_ok i /\ 0 <= g < 2 ^ 32 /\ 0 <= f < 2 ^ 16
  | Other t d => 3 <= t < 256 /\ Z.of_nat (length d) + 2 < 256
  end.

(** What an entry means. *)
Definition apply_entry (e : entry) : M config unit :=
  match e with
  | LocalApic _ _ f => when (negb (f =? 0)) (modify (fun c => set_ncpus (u16 (NCPUS c + 1)) c))
  | IoApic _ a _ => do addr <- gets IO_APIC_ADDR; ASSERT (addr =? 0) "!IO_APIC_ADDR";;; modify (set_ioapic a)
  | Override b i g _ => when (b =? 0) (set_mapping i (u8 g))
  | Other _ _ => ret tt
  end.

Definition checksum (l : list Z) : Z := foldr Z.add 0 l mod 256.

(** The entries of a table that are used: those of a MADT with a valid checksum. *)
Inductive contains (bs : list Z) : list entry -> Prop :=
| contains_invalid : checksum bs <> 0 -> contains bs []
| contains_other : take 4 bs <> APIC -> contains bs []
| contains_madt h es : checksum bs = 0 -> take 4 bs = APIC -> length h = 44%nat -> bs = h ++ concat (map encode es) -> Forall entry_ok es -> contains bs es.

(** ** Reading *)

(** The bytes [bs] are readable at [v]. *)
Definition sees (s : acpi) (v : Z) (bs : list Z) : Prop := forall i b, bs !! i = Some b -> vbyte s (v + Z.of_nat i) = Some b.

Lemma sees_app s v l1 l2 : sees s v (l1 ++ l2) <-> sees s v l1 /\ sees s (v + Z.of_nat (length l1)) l2.
Proof.
  split.
  - intros H. split; intros i b Hi; [by apply H, lookup_app_l_Some|]. specialize (H (length l1 + i)%nat b). rewrite lookup_app_r in H by lia. replace (length l1 + i - length l1)%nat with i in H by lia. rewrite <- Z.add_assoc, <- Nat2Z.inj_add. by apply H.
  - intros [H1 H2] i b [Hi|[Hle Hi]]%lookup_app_Some; [by apply H1|]. replace (v + Z.of_nat i) with (v + Z.of_nat (length l1) + Z.of_nat (i - length l1)) by lia. by apply H2.
Qed.

Lemma sees_cons s v b l : sees s v (b :: l) <-> vbyte s v = Some b /\ sees s (v + 1) l.
Proof.
  rewrite (sees_app s v [b] l). simpl. split; intros [H1 H2]; split; try done.
  - rewrite <- (H1 0%nat b eq_refl). f_equal. lia.
  - intros [|i] c Hi; simplify_eq/=. by rewrite Z.add_0_r.
Qed.

Lemma sees_drop s v l k : sees s v l -> sees s (v + Z.of_nat k) (drop k l).
Proof. intros H i b Hi. rewrite lookup_drop in Hi. rewrite <- Z.add_assoc, <- Nat2Z.inj_add. by apply H. Qed.

Lemma sees_take s v l k : sees s v l -> sees s v (take k l).
Proof. intros H i b Hi. apply lookup_take_Some in Hi as [Hi _]. by apply H. Qed.

Lemma rd_run s v b : vbyte s v = Some b -> rd v s = Ok (b, s).
Proof. unfold rd, must. by intros ->. Qed.

Lemma rd_num_run n s v l : sees s v l -> (n <= length l)%nat -> 0 <= v -> v + Z.of_nat n < 2 ^ 32 -> rd_num n v s = Ok (num n l, s).
Proof.
  revert v l. induction n as [|n IH]; intros v l Hs Hl Hv Hb; [done|]. destruct l as [|b l]; simpl in Hl; [lia|]. apply sees_cons in Hs as [H1 H2].
  simpl. erewrite bind_ok by by apply rd_run. rewrite u32_id by lia. erewrite bind_ok by (apply (IH _ l); [done|lia..]). done.
Qed.

Lemma rd_field k n s v bs : sees s v bs -> (k + n <= length bs)%nat -> 0 <= v -> v + Z.of_nat (k + n) < 2 ^ 32 -> rd_num n (u32 (v + Z.of_nat k)) s = Ok (field k n bs, s).
Proof. intros Hs Hl Hv Hb. rewrite u32_id by lia. apply rd_num_run; [by apply sees_drop|rewrite length_drop; lia|lia|lia]. Qed.

Lemma rd_at k s v bs : sees s v bs -> (k < length bs)%nat -> 0 <= v -> v + Z.of_nat k < 2 ^ 32 -> rd (u32 (v + Z.of_nat k)) s = Ok (nth k bs 0, s).
Proof. intros Hs Hk Hv Hb. rewrite u32_id by lia. apply rd_run, Hs. destruct (lookup_lt_is_Some_2 bs k Hk) as [b Hb']. by rewrite (nth_lookup_Some _ _ _ _ Hb'). Qed.

Lemma rd_bytes_run n s v l : sees s v l -> (n <= length l)%nat -> 0 <= v -> v + Z.of_nat n < 2 ^ 32 -> rd_bytes n v s = Ok (take n l, s).
Proof.
  revert v l. induction n as [|n IH]; intros v l Hs Hl Hv Hb; [done|]. destruct l as [|b l]; simpl in Hl; [lia|]. apply sees_cons in Hs as [H1 H2].
  simpl. erewrite bind_ok by by apply rd_run. rewrite u32_id by lia. erewrite bind_ok by (apply (IH _ l); [done|lia..]). done.
Qed.

Lemma sum_bytes_run s l v sum : sees s v l -> 0 <= v -> v + Z.of_nat (length l) < 2 ^ 32 -> 0 <= sum < 256 -> sum_bytes (length l) v sum s = Ok ((sum + foldr Z.add 0 l) mod 256, s).
Proof.
  revert v sum. induction l as [|b l IH]; intros v sum Hs Hv Hb Hsum; [simpl; by rewrite Z.add_0_r, Z.mod_small|]. apply sees_cons in Hs as [H1 H2].
  simpl in *. erewrite bind_ok by by apply rd_run. rewrite u32_id by lia. rewrite IH; [|done|lia|lia|apply Z.mod_pos_bound; lia]. unfold u8. rewrite Zplus_mod_idemp_l. by rewrite Z.add_assoc.
Qed.

Lemma verify_checksum_run s v l : sees s v l -> 0 <= v -> v + Z.of_nat (length l) < 2 ^ 32 -> verify_checksum_raw v (Z.of_nat (length l)) s = Ok (checksum l =? 0, s).
Proof. intros Hs Hv Hb. unfold verify_checksum_raw. rewrite Nat2Z.id. by erewrite bind_ok by (apply sum_bytes_run; [done|done|done|lia]). Qed.

(** ** Encodings *)

Lemma num_le n v l : 0 <= v < 256 ^ Z.of_nat n -> num n (le n v ++ l) = v.
Proof.
  revert v. induction n as [|n IH]; intros v Hv; [simpl in *; lia|]. simpl. rewrite IH.
  - pose proof (Z.div_mod v 256). lia.
  - rewrite Nat2Z.inj_succ, Z.pow_succ_r in Hv by lia. split; [apply Z.div_pos; lia|apply Z.div_lt_upper_bound; lia].
Qed.

Lemma length_le n v : length (le n v) = n.
Proof. revert v. induction n as [|n IH]; intros v; [done|]. simpl. by rewrite IH. Qed.

Lemma length_encode e : entry_ok e -> nth 1 (encode e) 0 = Z.of_nat (length (encode e)) /\ (2 <= length (encode e))%nat.
Proof. destruct e; simpl; intros; split; lia. Qed.

(** ** An entry *)

Lemma entry_refines s p e : sees s p (encode e) -> entry_ok e -> 0 <= p -> p + Z.of_nat (length (encode e)) < 2 ^ 32 ->
  process_madt_entry p s = zoom conf set_conf (apply_entry e) s.
Proof.
  intros Hs He Hp Hb. unfold process_madt_entry. pose proof (length_encode e He) as [_ Hl].
  assert (H0 : rd p s = Ok (nth 0 (encode e) 0, s)) by (rewrite <- (rd_at 0 s p (encode e)) by (done || lia); f_equal; rewrite u32_id; lia). erewrite bind_ok by exact H0. clear H0.
  destruct e as [pi ai f|i a b|b i g f|t d]; simpl in He; cbn [encode app nth]; unfold PROC_LOCAL_APIC, IO_APIC, INTERRUPT_SOURCE_OVERRIDE; cbn [Z.eqb Pos.eqb].
  - unfold process_madt_local_apic_entry. erewrite bind_ok by (apply (rd_field 4 4 s p _ Hs); simpl in *; lia). change (field 4 4 _) with (num 4 (le 4 f ++ [])). rewrite num_le by lia. simpl.
    destruct (f =? 0); simpl; [unfold zoom; simpl; by destruct s|done].
  - unfold process_madt_ioapic_entry. erewrite bind_ok by done. unfold zoom, apply_entry. erewrite (bind_ok (gets IO_APIC_ADDR)) by done. destruct (IO_APIC_ADDR (conf s) =? 0); [|done]. erewrite !bind_ok by done.
    erewrite bind_ok by (apply (rd_field 4 4 s p _ Hs); simpl in *; lia). change (field 4 4 _) with (num 4 (le 4 a ++ le 4 b)). by rewrite num_le by lia.
  - unfold process_madt_int_src_override_entry. erewrite bind_ok by (apply (rd_at 2 s p _ Hs); simpl in *; lia). simpl. destruct (b =? 0); simpl; [|unfold zoom; simpl; by destruct s].
    erewrite bind_ok by (apply (rd_at 3 s p _ Hs); simpl in *; lia). erewrite bind_ok by (apply (rd_field 4 4 s p _ Hs); simpl in *; lia). change (field 4 4 _) with (num 4 (le 4 g ++ le 2 f)). by rewrite num_le by lia.
  - rewrite !(proj2 (Z.eqb_neq _ _)) by lia. unfold zoom. simpl. by destruct s.
Qed.

(** ** A MADT *)

Lemma sees_conf s c v bs : sees (set_conf c s) v bs <-> sees s v bs.
Proof. done. Qed.

(** What the entries do to the state, one after the other. *)
Lemma zoom_conf_bind {A} (m : M config unit) (k : M config A) (k' : M acpi A) s :
  (forall c, k' (set_conf c s) = zoom conf set_conf k (set_conf c s)) ->
  (zoom conf set_conf m;;; k') s = zoom conf set_conf (m;;; k) s.
Proof.
  intros Hk. unfold bind, zoom. destruct (m (conf s)) as [[[] c]|h]; [|done]. rewrite Hk. unfold zoom. simpl. by destruct (k c) as [[]|].
Qed.

Lemma zoom_conf_ret s : zoom conf set_conf (ret tt) s = Ok (tt, s).
Proof. unfold zoom. simpl. by destruct s. Qed.

Lemma madt_loop_refines es fuel s p :
  let n := Z.of_nat (length (concat (map encode es))) in
  sees s p (concat (map encode es)) -> Forall entry_ok es -> 0 <= p -> p + n < 2 ^ 32 -> (Z.to_nat n < fuel)%nat ->
  madt_loop fuel p (p + n) s = zoom conf set_conf (for_each es apply_entry) s.
Proof.
  revert fuel s p. induction es as [|e es IH]; intros fuel s p n Hs He Hp Hb Hf; (destruct fuel as [|fuel]; [lia|]); cbn [map concat] in *.
  - subst n. cbn [length madt_loop for_each]. rewrite Z.add_0_r, Z.ltb_irrefl. by rewrite zoom_conf_ret.
  - apply Forall_cons in He as [He Hes]. apply sees_app in Hs as [Hs1 Hs2]. unfold n in *. rewrite length_app in *. pose proof (length_encode e He) as [Hl Hl2].
    cbn [madt_loop for_each]. rewrite (proj2 (Z.ltb_lt _ _)) by lia. unfold bind at 1. rewrite (entry_refines s p e) by (done || lia).
    apply (zoom_conf_bind (apply_entry e) (for_each es apply_entry) (do length <- rd (u32 (p + 1)); madt_loop fuel (u32 (p + length)) _)). intros c.
    erewrite bind_ok by (apply (rd_at 1 _ p (encode e)); [done|lia..]). rewrite Hl, u32_id by lia.
    rewrite <- (IH fuel (set_conf c s) (p + Z.of_nat (length (encode e)))) by (done || lia). f_equal. lia.
Qed.

(** The table is that of a MADT if its signature says so. *)
Lemma is_madt_run {S} (st : S) sig : length sig = 4%nat -> streq 6 (rd_buf (sig ++ [0])) 0 (rd_buf (APIC ++ [0])) 0 st = Ok (bool_decide (sig = APIC), st).
Proof.
  intros Hl. assert (Hd : exists s1 rest, sig ++ [0] = s1 ++ (0 :: rest) /\ (0 ∉ s1) /\ (length s1 <= 4)%nat).
  { destruct (decide (0 ∈ sig)) as [H|H]; [|exists sig, []; split_and!; [done|done|lia]]. apply list_elem_of_split_l in H as (l1 & l2 & -> & H1). exists l1, (l2 ++ [0]). rewrite <- app_assoc. split_and!; [done|done|].
    rewrite length_app in Hl. lia. }
  destruct Hd as (s1 & rest & E & H0 & Hs). rewrite E. rewrite (streq_run st 6 _ _ 0 s1 0 APIC); [|apply cstring_buf; [done|lia]|apply (cstring_buf st APIC []); [|simpl; lia]|lia|simpl; lia].
  2:{ unfold APIC. set_solver. }
  do 2 f_equal. apply bool_decide_ext. split.
  - intros ->. unfold APIC in E. assert (Hr : rest = []) by (apply (f_equal length) in E; rewrite !length_app in E; simpl in E; destruct rest; [done|simpl in E; lia]). subst rest. by apply app_inj_tail in E as [-> _].
  - intros ->. destruct rest as [|x rest]; [by apply app_inj_tail in E as [<- _]|]. exfalso.
    assert (Hk : (APIC ++ [0]) !! length s1 = Some 0) by (rewrite E; by apply list_lookup_middle).
    assert (length s1 < 4)%nat by (apply (f_equal length) in E; rewrite !length_app in E; simpl in E; lia). rewrite lookup_app_l in Hk by (simpl; lia). apply list_elem_of_lookup_2 in Hk as He.
    unfold APIC in He. set_solver.
Qed.

(** ** A table *)

(** A table is in memory below the kernel, and its header has its length. *)
Record placed (s : acpi) (a : Z) (bs : list Z) : Prop := mk_placed {
  p_addr : 0 <= a; p_end : a + Z.of_nat (length bs) <= KERNEL_PHY_OFFSET; p_size : (36 <= length bs)%nat;
  p_length : field 4 4 bs = Z.of_nat (length bs); p_bytes : forall i b, bs !! i = Some b -> phys s !! (a + Z.of_nat i) = Some b }.

Definition pages (a : Z) (bs : list Z) : gset Z := list_to_set (region a (Z.of_nat (length bs))).

Lemma elem_of_region a len p : 0 <= a -> 0 < len -> a + len <= KERNEL_PHY_OFFSET -> p ∈ region a len <-> a / 4096 <= p <= (a + len - 1) / 4096.
Proof.
  intros Ha Hl Hb. unfold KERNEL_PHY_OFFSET in Hb. unfold region. rewrite elem_of_range. pose proof (Z.mod_pos_bound a 4096 ltac:(lia)). pose proof (Z.div_mod a 4096 ltac:(lia)).
  rewrite u32_id by lia. pose proof (ceil_x_over_y_bound (len + a mod 4096) 4096 ltac:(lia) ltac:(lia)). set (n := ceil_x_over_y_u32 _ _) in *.
  assert ((a + len - 1) / 4096 = a / 4096 + n - 1) by (symmetry; apply (Z.div_unique_pos _ 4096 _ (a + len - 1 - 4096 * (a / 4096 + n - 1))); lia). lia.
Qed.

Lemma region_prefix a len len' : 0 <= a -> 0 < len <= len' -> a + len' <= KERNEL_PHY_OFFSET -> list_to_set (region a len) ⊆@{gset Z} list_to_set (region a len').
Proof.
  intros Ha Hl Hb p. rewrite !elem_of_list_to_set, !elem_of_region by lia. pose proof (Z.div_le_mono (a + len - 1) (a + len' - 1) 4096). lia.
Qed.

Lemma NoDup_region a len : NoDup (region a len).
Proof. apply NoDup_zrange. Qed.

Lemma placed_same s s' a bs : phys s' = phys s -> placed s a bs -> placed s' a bs.
Proof. intros E []. constructor; try done. by rewrite E. Qed.

Lemma placed_sees s a bs : placed s a bs -> pages a bs ⊆ ptab s -> sees s a bs.
Proof.
  intros [H1 H2 H3 H4 H5] Hp i b Hi. pose proof (lookup_lt_Some _ _ _ Hi). unfold vbyte. rewrite (proj2 (Z.leb_gt _ _)) by (unfold KERNEL_PHY_OFFSET in *; lia). rewrite decide_True; [by apply H5|].
  apply Hp. unfold pages. rewrite elem_of_list_to_set, elem_of_region by lia. split; apply Z.div_le_mono; lia.
Qed.

Lemma sdt_length_run s a bs : placed s a bs -> sees s a (take 8 bs) -> sdt_length a s = Ok (Z.of_nat (length bs), s).
Proof.
  intros [H1 H2 H3 H4 H5] Hs. unfold KERNEL_PHY_OFFSET in *. unfold sdt_length. rewrite <- H4. change 4 with (Z.of_nat 4) at 1. rewrite (rd_field 4 4 s a (take 8 bs)) by (done || rewrite ?length_take; lia).
  unfold field. do 2 f_equal. do 8 (destruct bs as [|? bs]; [simpl in H3; lia|]). done.
Qed.

Lemma unmap_pages l s : NoDup l -> list_to_set l ⊆ ptab s ->
  for_each l (fun p => do t <- gets ptab; if decide (p ∈ t) then modify (set_ptab (t ∖ {[p]})) else panic "Address is not mapped.") s = Ok (tt, set_ptab (ptab s ∖ list_to_set l) s).
Proof.
  revert s. induction l as [|p l IH]; intros s Hn Hs; cbn [for_each].
  - unfold ret. do 2 f_equal. destruct s. unfold set_ptab. simpl. f_equal. set_solver.
  - apply NoDup_cons in Hn as [Hp Hn]. simpl in Hs. erewrite bind_ok by (erewrite bind_ok by done; rewrite decide_True by set_solver; done). rewrite IH; [|done|simpl; set_solver].
    do 2 f_equal. unfold set_ptab. simpl. f_equal. set_solver.
Qed.

Lemma unmap_table_run s a bs : placed s a bs -> pages a bs ⊆ ptab s -> unmap_table a s = Ok (tt, set_ptab (ptab s ∖ pages a bs) s).
Proof.
  intros Hp Hs. unfold unmap_table. erewrite bind_ok by (apply (sdt_length_run s a bs Hp), sees_take, placed_sees; done). apply unmap_pages; [apply NoDup_region|done].
Qed.

Section Walk.
Context (no_memory : Z -> Z -> bool) (kmalloc_fails : bool) (Hmem : forall a len, no_memory a len = false) (Hk : kmalloc_fails = false).

Lemma map_table_run s a bs : placed s a bs -> map_table no_memory a s = Ok (tt, set_ptab (ptab s ∪ pages a bs) s).
Proof using Hmem.
  intros Hp. pose proof Hp as [H1 H2 H3 H4 H5]. unfold map_table, paging_map. rewrite !Hmem. erewrite bind_ok by done. cbn [negb]. set (s1 := set_ptab _ s).
  assert (Hsub : list_to_set (region a SIZEOF_SDT_HEADER) ⊆@{gset Z} pages a bs) by (apply region_prefix; unfold SIZEOF_SDT_HEADER; lia).
  assert (Hs1 : sees s1 a (take 8 bs)).
  { intros i b Hi. apply lookup_take_Some in Hi as [Hi Hlt]. unfold vbyte. rewrite (proj2 (Z.leb_gt _ _)) by (unfold KERNEL_PHY_OFFSET in *; lia). rewrite decide_True; [by apply H5|].
    simpl. apply elem_of_union_r. rewrite elem_of_list_to_set, elem_of_region by (unfold SIZEOF_SDT_HEADER; lia). unfold SIZEOF_SDT_HEADER. split; apply Z.div_le_mono; lia. }
  erewrite bind_ok by (apply (sdt_length_run s1 a bs); [by constructor|done]). rewrite Hmem. erewrite bind_ok by done. simpl. unfold ret, set_ptab. simpl. do 3 f_equal. unfold pages in *. set_solver.
Qed.

(** The callback does what the entries of the table say. *)
Lemma callback_refines s a bs es : placed s a bs -> sees s a bs -> contains bs es ->
  (do valid <- verify_sdt_checksum a; when valid (acpi_table_callback kmalloc_fails a)) s = zoom conf set_conf (for_each es apply_entry) s.
Proof using Hk.
  intros Hp Hs Hc. pose proof Hp as [H1 H2 H3 H4 H5]. unfold KERNEL_PHY_OFFSET in H2. unfold verify_sdt_checksum.
  erewrite bind_ok by (erewrite bind_ok by (apply (sdt_length_run s a bs Hp), sees_take, Hs); apply verify_checksum_run; [done|lia..]).
  destruct (Z.eqb_spec (checksum bs) 0) as [E|E]; [|inversion Hc; subst; by rewrite ?zoom_conf_ret]. unfold when, acpi_table_callback, get_sdt_signature. rewrite Hk.
  erewrite bind_ok by (erewrite bind_ok by (apply (rd_bytes_run 4 s a bs); [done|lia..]); done). erewrite bind_ok by (apply is_madt_run; rewrite length_take; lia).
  destruct Hc as [?|Hn|h es _ Ha Hh -> Hes]; [done|by rewrite bool_decide_false, zoom_conf_ret|]. rewrite bool_decide_true by done. cbn [when]. rewrite length_app in *. apply sees_app in Hs as [Hs1 Hs2]. rewrite Hh in *.
  unfold process_madt. erewrite bind_ok by (apply (sdt_length_run s a _ Hp), sees_take, sees_app; rewrite Hh; done). rewrite length_app, Hh. unfold SIZEOF_MADT. rewrite !u32_id by lia.
  rewrite <- (madt_loop_refines es (S (Z.to_nat (Z.of_nat (44 + length (concat (map encode es)))))) s (a + 44)) by (done || lia). f_equal. lia.
Qed.

Lemma visit_refines root rbs s a bs es : placed s root rbs -> placed s a bs -> contains bs es -> ptab s = pages root rbs ->
  visit_table no_memory root a (acpi_table_callback kmalloc_fails) s = zoom conf set_conf (for_each es apply_entry) s.
Proof using Hmem Hk.
  intros Hr Hp Hc Ht. unfold visit_table. erewrite bind_ok by by apply map_table_run. set (s1 := set_ptab _ s).
  assert (Hs1 : sees s1 a bs) by (apply placed_sees; [by apply (placed_same s)|simpl; set_solver]). pose proof (callback_refines s1 a bs es (placed_same s s1 a bs eq_refl Hp) Hs1 Hc) as Hcb.
  assert (Hrest : forall c, (unmap_table a;;; map_table no_memory root) (set_conf c s1) = Ok (tt, set_conf c s)).
  { intros c. erewrite bind_ok by (apply (unmap_table_run _ a bs); [by apply (placed_same s)|simpl; set_solver]). rewrite (map_table_run _ root rbs) by by apply (placed_same s). simpl. unfold set_ptab, set_conf. simpl. do 3 f_equal. rewrite Ht. set_solver. }
  unfold bind at 1 in Hcb. unfold bind at 1. destruct (verify_sdt_checksum a s1) as [[v s2]|h]; [|unfold zoom in *; simpl in *; by destruct (for_each _ _ _) as [[]|]].
  unfold bind at 1. rewrite Hcb. unfold zoom. simpl. destruct (for_each es apply_entry (conf s)) as [[[] c]|h]; [|done]. apply Hrest.
Qed.

End Walk.

(** ** The root table *)

Lemma for_each_append {S A} (l1 l2 : list A) (f : A -> M S unit) s : for_each (l1 ++ l2) f s = (for_each l1 f;;; for_each l2 f) s.
Proof.
  revert s. induction l1 as [|x l1 IH]; intros s; [done|]. simpl. unfold bind at 1 2 3. destruct (f x s) as [[[] s1]|]; [|done]. rewrite IH. reflexivity.
Qed.

Lemma set_conf_same s : set_conf (conf s) s = s.
Proof. by destruct s. Qed.

Lemma walk_refines (ess : list (list entry)) (f : Z -> M acpi unit) s lo :
  (forall i es c, ess !! i = Some es -> f (lo + Z.of_nat i) (set_conf c s) = zoom conf set_conf (for_each es apply_entry) (set_conf c s)) ->
  for_each (range lo (lo + Z.of_nat (length ess))) f s = zoom conf set_conf (for_each (concat ess) apply_entry) s.
Proof.
  revert s lo. induction ess as [|es ess IH]; intros s lo Hf; simpl length.
  - rewrite Z.add_0_r, range_nil by lia. simpl. by rewrite zoom_conf_ret.
  - rewrite range_cons by lia. simpl. unfold bind at 1. pose proof (Hf 0%nat es (conf s) eq_refl) as H0. rewrite set_conf_same, Z.add_0_r in H0. rewrite H0.
    transitivity (zoom conf set_conf (for_each es apply_entry;;; for_each (concat ess) apply_entry) s); [|unfold zoom; by rewrite for_each_append].
    apply (zoom_conf_bind (for_each es apply_entry) (for_each (concat ess) apply_entry) (for_each (range (lo + 1) (lo + Z.of_nat (S (length ess)))) f)). intros c.
    rewrite <- (IH (set_conf c s) (lo + 1)).
    + do 2 f_equal. lia.
    + intros i es' c' Hi. specialize (Hf (S i) es' c' Hi). replace (lo + Z.of_nat (S i)) with (lo + 1 + Z.of_nat i) in Hf by lia. exact Hf.
Qed.

(** A root table with pointers of [w] bytes to the tables. *)
Record rooted (s : acpi) (w : nat) (root : Z) (rbs : list Z) (tabs : list (Z * list Z)) (ess : list (list entry)) : Prop := mk_rooted {
  r_placed : placed s root rbs;
  r_size : length rbs = (36 + w * length tabs)%nat;
  r_tabs : forall i a bs, tabs !! i = Some (a, bs) -> field (36 + w * i) w rbs = a /\ placed s a bs;
  r_entries : Forall2 (fun t es => contains t.2 es) tabs ess }.

Section Roots.
Context (no_memory : Z -> Z -> bool) (kmalloc_fails : bool) (Hmem : forall a len, no_memory a len = false) (Hk : kmalloc_fails = false).
Abbreviation callback := (acpi_table_callback kmalloc_fails).

(** The walk over the tables, whatever reads the pointers. *)
Lemma parse_refines w root rbs tabs ess s (body : Z -> M acpi unit) (n_tables : M acpi Z) :
  rooted s w root rbs tabs ess -> ptab s = ∅ ->
  (forall s', sees s' root rbs -> placed s' root rbs -> n_tables s' = Ok (Z.of_nat (length tabs), s')) ->
  (forall s' i a bs, sees s' root rbs -> tabs !! i = Some (a, bs) -> 0 <= a < 2 ^ 32 -> field (36 + w * i) w rbs = a -> body (Z.of_nat i) s' = visit_table no_memory root a callback s') ->
  (map_table no_memory root;;; do n <- n_tables; for_each (range 0 n) body;;; unmap_table root) s = zoom conf set_conf (for_each (concat ess) apply_entry) s.
Proof using Hmem Hk.
  intros [R1 R2 R3 R4] Ht Hn Hbody. erewrite bind_ok by by apply map_table_run. set (s1 := set_ptab _ s). assert (Hp1 : ptab s1 = pages root rbs) by (simpl; rewrite Ht; set_solver).
  assert (Hr1 : forall c, placed (set_conf c s1) root rbs) by (intros c; by apply (placed_same s)). assert (Hs1 : sees s1 root rbs) by (apply placed_sees; [apply (Hr1 (conf s1))|set_solver]).
  erewrite bind_ok by (apply Hn; [done|apply (Hr1 (conf s1))]). rewrite (Forall2_length _ _ _ R4). unfold bind at 1. change (Z.of_nat (length ess)) with (0 + Z.of_nat (length ess)).
  rewrite (walk_refines ess body s1 0).
  - unfold zoom. simpl. destruct (for_each (concat ess) apply_entry (conf s)) as [[[] c]|h]; [|done]. rewrite (unmap_table_run (set_conf c s1) root rbs); [|apply Hr1|simpl; set_solver].
    do 2 f_equal. unfold set_ptab, set_conf. simpl. f_equal. rewrite Ht. set_solver.
  - intros i es c Hi. destruct (Forall2_lookup_r _ _ _ _ _ R4 Hi) as ([a bs] & Htab & Hcont). destruct (R3 i a bs Htab) as [Hf Hpl]. rewrite Z.add_0_l.
    rewrite (Hbody (set_conf c s1) i a bs); [|done|done|pose proof (p_addr _ _ _ Hpl); pose proof (p_end _ _ _ Hpl); unfold KERNEL_PHY_OFFSET in *; lia|done].
    apply (visit_refines no_memory kmalloc_fails Hmem Hk root rbs _ a bs es); [apply Hr1|by apply (placed_same s)|done|done].
Qed.

Lemma parse_v1_refines root rbs tabs ess s : rooted s 4 root rbs tabs ess -> ptab s = ∅ ->
  parse_acpi_v1_info no_memory callback root s = zoom conf set_conf (for_each (concat ess) apply_entry) s.
Proof using Hmem Hk.
  intros Hr Ht. pose proof (r_size _ _ _ _ _ _ Hr) as Hsz. pose proof (p_addr _ _ _ (r_placed _ _ _ _ _ _ Hr)) as Ha. pose proof (p_end _ _ _ (r_placed _ _ _ _ _ _ Hr)) as He. unfold KERNEL_PHY_OFFSET in He.
  apply (parse_refines 4 root rbs tabs ess s); [done|done| |].
  - intros s' Hs Hp. unfold number_of_tables_for_rsdt. erewrite bind_ok by (apply (sdt_length_run s' root rbs Hp), sees_take, Hs). unfold SIZEOF_SDT_HEADER, ret. rewrite u32_id by lia. do 2 f_equal.
    rewrite Hsz. symmetry. apply Z.div_unique_exact; lia.
  - intros s' i a bs Hs Hi Hb Hf. pose proof (lookup_lt_Some _ _ _ Hi). unfold SIZEOF_SDT_HEADER. replace (root + 36 + 4 * Z.of_nat i) with (root + Z.of_nat (36 + 4 * i)) by lia.
    erewrite bind_ok by (apply (rd_field (36 + 4 * i) 4 s' root rbs); [done|lia..]). by rewrite Hf.
Qed.

Lemma parse_v2_refines root rbs tabs ess s : rooted s 8 root rbs tabs ess -> ptab s = ∅ ->
  parse_acpi_v2_info no_memory callback root s = zoom conf set_conf (for_each (concat ess) apply_entry) s.
Proof using Hmem Hk.
  intros Hr Ht. pose proof (r_size _ _ _ _ _ _ Hr) as Hsz. pose proof (p_addr _ _ _ (r_placed _ _ _ _ _ _ Hr)) as Ha. pose proof (p_end _ _ _ (r_placed _ _ _ _ _ _ Hr)) as He. unfold KERNEL_PHY_OFFSET in He.
  apply (parse_refines 8 root rbs tabs ess s); [done|done| |].
  - intros s' Hs Hp. unfold number_of_tables_for_xsdt. erewrite bind_ok by (apply (sdt_length_run s' root rbs Hp), sees_take, Hs). unfold SIZEOF_SDT_HEADER, ret. rewrite u32_id by lia. do 2 f_equal.
    rewrite Hsz. symmetry. apply Z.div_unique_exact; lia.
  - intros s' i a bs Hs Hi Hb Hf. pose proof (lookup_lt_Some _ _ _ Hi). unfold SIZEOF_SDT_HEADER. replace (root + 36 + 8 * Z.of_nat i) with (root + Z.of_nat (36 + 8 * i)) by lia.
    erewrite bind_ok by (apply (rd_field (36 + 8 * i) 8 s' root rbs); [done|lia..]). rewrite Hf, Z.shiftr_div_pow2, Z.div_small by lia. simpl. erewrite bind_ok by done. by rewrite u32_id by lia.
Qed.

End Roots.

(** ** The RSDP *)

Lemma signature_run s v l : sees s v l -> length l = 8%nat -> 0 <= v -> v + 8 < 2 ^ 32 -> strneq rd v (rd_buf RSD_PTR) 0 8 s = Ok (bool_decide (l = RSD_PTR), s).
Proof.
  intros Hs Hl Hv Hb. rewrite <- (forallb_range_eq l RSD_PTR) by done. rewrite Hl. apply for_all_run. intros i Hi%elem_of_range.
  replace i with (Z.of_nat (Z.to_nat i)) at 1 by lia. erewrite bind_ok by (apply (rd_at (Z.to_nat i) s v l); [done|lia..]).
  rewrite Z.add_0_l, u32_id by lia. destruct (lookup_lt_is_Some_2 RSD_PTR (Z.to_nat i)) as [c Hc]; [simpl; lia|]. erewrite bind_ok by (unfold rd_buf, must; rewrite Hc; done). by rewrite (nth_lookup_Some _ _ _ _ Hc).
Qed.

(** The first of the places that has the signature. *)
Lemma scan_run s low k j n : sees s 0xC00A0000 low -> (16 * k + 8 <= length low)%nat -> 16 * Z.of_nat k < 0x60000 -> (j <= k)%nat -> (k < j + n)%nat ->
  take 8 (drop (16 * k) low) = RSD_PTR -> (forall i, (i < k)%nat -> take 8 (drop (16 * i) low) <> RSD_PTR) ->
  scan n (0xC00A0000 + 16 * Z.of_nat j) s = Ok (Some (0xC00A0000 + 16 * Z.of_nat k), s).
Proof.
  intros Hs Hl Hb Hj Hn Hk Hi. revert j Hj Hn. induction n as [|n IH]; intros j Hj Hn; [lia|]. cbn [scan].
  assert (Hd : sees s (0xC00A0000 + 16 * Z.of_nat j) (take 8 (drop (16 * j) low))) by (apply sees_take; replace (16 * Z.of_nat j) with (Z.of_nat (16 * j)) by lia; by apply sees_drop).
  erewrite bind_ok by (apply signature_run; [exact Hd|rewrite length_take, length_drop; lia|lia|lia]). destruct (decide (j = k)) as [->|Hne].
  - by rewrite bool_decide_true.
  - rewrite bool_decide_false by (apply Hi; lia). replace (0xC00A0000 + 16 * Z.of_nat j + 16) with (0xC00A0000 + 16 * Z.of_nat (S j)) by lia. apply IH; lia.
Qed.

(** The memory that the firmware leaves: [low] is the memory from 0xA0000 to the end of the RSDP, which is
    the [k]-th paragraph of it and the first with the signature. *)
Record acpi_layout (s : acpi) (k : nat) (low : list Z) (root : Z) (rbs : list Z) (tabs : list (Z * list Z)) (ess : list (list entry)) : Prop := mk_layout {
  l_bytes : forall i b, low !! i = Some b -> phys s !! (0xA0000 + Z.of_nat i) = Some b;
  l_len : length low = (16 * k + 36)%nat;
  l_in : 16 * Z.of_nat k + 36 <= 0x60000;
  l_sig : take 8 (drop (16 * k) low) = RSD_PTR;
  l_first : forall i, (i < k)%nat -> take 8 (drop (16 * i) low) <> RSD_PTR;
  l_root : let rs := drop (16 * k) low in
    checksum (take 20 rs) = 0 /\
    (if nth 15 rs 0 =? 0 then field 16 4 rs = root /\ rooted s 4 root rbs tabs ess
     else checksum (drop 20 rs) = 0 /\ field 24 8 rs = root /\ rooted s 8 root rbs tabs ess);
  l_clean : ptab s = ∅ }.

Lemma low_sees s k low root rbs tabs ess : acpi_layout s k low root rbs tabs ess -> sees s 0xC00A0000 low.
Proof.
  intros [H1 H2 H3 _ _ _ _] i b Hi. pose proof (lookup_lt_Some _ _ _ Hi). unfold vbyte. rewrite (proj2 (Z.leb_le _ _)) by (unfold KERNEL_PHY_OFFSET; lia).
  unfold to_phys, KERNEL_PHY_OFFSET. rewrite u32_id by lia. replace (0xC00A0000 + Z.of_nat i - 0xC0000000) with (0xA0000 + Z.of_nat i) by lia. by apply H1.
Qed.

Section Init.
Context (no_memory : Z -> Z -> bool) (kmalloc_fails : bool) (Hmem : forall a len, no_memory a len = false) (Hk : kmalloc_fails = false).

Lemma acpi_init_refines s k low root rbs tabs ess : acpi_layout s k low root rbs tabs ess ->
  acpi_init no_memory kmalloc_fails s = zoom conf set_conf (for_each (concat ess) apply_entry) s.
Proof using Hmem Hk.
  intros Hlay. pose proof (low_sees _ _ _ _ _ _ _ Hlay) as Hs. destruct Hlay as [H1 H2 H3 H4 H5 [H6 H7] H8]. unfold acpi_init, parse_acpi_info, find_rsdp_desc.
  change (to_virt 0x100000) with 0xC0100000. change (to_virt 0xA0000) with 0xC00A0000. pose proof (scan_run s low k 0 (Z.to_nat ((0xC0100000 - 0xC00A0000) / 16)) Hs) as Hscan. rewrite Z.mul_0_r, Z.add_0_r in Hscan.
  erewrite bind_ok by (apply Hscan; [lia|lia|lia|change ((0xC0100000 - 0xC00A0000) / 16) with 0x6000; lia|done|done]). clear Hscan.
  set (rsdp := 0xC00A0000 + 16 * Z.of_nat k). set (rs := drop (16 * k) low) in *. assert (Hl : length rs = 36%nat) by (unfold rs; rewrite length_drop; lia).
  assert (Hrs : sees s rsdp rs) by (unfold rsdp; replace (16 * Z.of_nat k) with (Z.of_nat (16 * k)) by lia; by apply sees_drop). assert (Hb : 0 <= rsdp /\ rsdp + 36 < 2 ^ 32) by (unfold rsdp; lia).
  assert (Hrev : rsdp_revision rsdp s = Ok (nth 15 rs 0, s)) by (apply (rd_at 15 s rsdp rs); [done|lia..]).
  assert (Hv1 : verify_checksum_raw rsdp 20 s = Ok (true, s)).
  { pose proof (verify_checksum_run s rsdp (take 20 rs)) as H. rewrite length_take, Hl in H. change (Z.of_nat (20 `min` 36)) with 20 in H. rewrite H by (try apply sees_take; done || lia). by rewrite H6. }
  unfold verify_rsdp_desc_checksum, RSDP_LENGTH, SIZEOF_RSDP. destruct (Z.eqb_spec (nth 15 rs 0) 0) as [E|E].
  - destruct H7 as [Hroot Hr]. erewrite bind_ok by (erewrite bind_ok by exact Hv1; cbn [negb]; erewrite bind_ok by exact Hrev; by rewrite E). erewrite bind_ok by done. erewrite bind_ok by exact Hrev. rewrite E. cbn [Z.eqb negb].
    erewrite bind_ok by (apply (rd_field 16 4 s rsdp rs); [done|lia..]). rewrite Hroot. by apply (parse_v1_refines no_memory kmalloc_fails Hmem Hk root rbs tabs).
  - destruct H7 as (Hc2 & Hroot & Hr). pose proof (r_placed _ _ _ _ _ _ Hr) as Hp. pose proof (p_addr _ _ _ Hp). pose proof (p_end _ _ _ Hp). unfold KERNEL_PHY_OFFSET in *.
    assert (Hv2 : verify_checksum_raw (u32 (rsdp + 20)) (36 - 20) s = Ok (true, s)).
    { pose proof (verify_checksum_run s (rsdp + 20) (drop 20 rs)) as H'. rewrite length_drop, Hl in H'. change (Z.of_nat (36 - 20)) with (36 - 20) in H'. rewrite u32_id by lia. rewrite H' by (try apply (sees_drop _ _ _ 20); done || lia). by rewrite Hc2. }
    erewrite bind_ok by (erewrite bind_ok by exact Hv1; cbn [negb]; erewrite bind_ok by exact Hrev; rewrite (proj2 (Z.eqb_neq _ _) E); cbn [negb]; erewrite bind_ok by exact Hv2; done).
    erewrite bind_ok by done. erewrite bind_ok by exact Hrev. rewrite (proj2 (Z.eqb_neq _ _) E). cbn [negb]. erewrite bind_ok by (apply (rd_field 24 8 s rsdp rs); [done|lia..]). rewrite Hroot, Z.shiftr_div_pow2, Z.div_small by lia.
    erewrite bind_ok by done. rewrite u32_id by lia. by apply (parse_v2_refines no_memory kmalloc_fails Hmem Hk root rbs tabs).
Qed.

End Init.

(** ** What the tables say *)

Definition enabled (e : entry) : bool := match e with LocalApic _ _ f => negb (f =? 0) | _ => false end.
Definition cpus (es : list entry) : Z := foldr (fun e n => b2z (enabled e) + n) 0 es.
Fixpoint ioapics (es : list entry) : list Z :=
  match es with [] => [] | IoApic _ a _ :: es' => a :: ioapics es' | _ :: es' => ioapics es' end.
(** The override of an ISA interrupt, if the entry is one. *)
Definition override (i : Z) (e : entry) (v : Z) : Z :=
  match e with Override b irq g _ => if (b =? 0) && (irq =? i) then u8 g else v | _ => v end.
Definition remapped (es : list entry) (i v : Z) : Z := foldl (fun v e => override i e v) v es.
Definition isa_ok (e : entry) : Prop := match e with Override b irq _ _ => b = 0 -> 0 <= irq < 16 | _ => True end.

(** The tables can be used: one I/O APIC at most, and overrides of ISA interrupts only. *)
Definition usable (es : list entry) : Prop := (length (ioapics es) <= 1)%nat /\ Forall isa_ok es.

Lemma apply_all es c : 0 <= NCPUS c < 2 ^ 16 -> length (isa_vector_mapping c) = 16%nat -> Forall isa_ok es ->
  (ioapics es = [] \/ IO_APIC_ADDR c = 0 /\ (length (ioapics es) <= 1)%nat) ->
  exists c', for_each es apply_entry c = Ok (tt, c') /\ NCPUS c' = u16 (NCPUS c + cpus es) /\ IO_APIC_ADDR c' = hd (IO_APIC_ADDR c) (ioapics es) /\ length (isa_vector_mapping c') = 16%nat /\
    forall i v, 0 <= i < 16 -> isa_vector_mapping c !! Z.to_nat i = Some v -> isa_vector_mapping c' !! Z.to_nat i = Some (remapped es i v).
Proof.
  revert c. induction es as [|e es IH]; intros c Hn Hl Hok Hio.
  { exists c. split; [done|]. simpl. rewrite Z.add_0_r. unfold u16. rewrite Z.mod_small by lia. done. }
  apply Forall_cons in Hok as [He Hok].
  assert (Hstep : exists c1, apply_entry e c = Ok (tt, c1) /\ NCPUS c1 = u16 (NCPUS c + b2z (enabled e)) /\ length (isa_vector_mapping c1) = 16%nat /\
    IO_APIC_ADDR c1 = hd (IO_APIC_ADDR c) (ioapics [e]) /\ forall i v, 0 <= i < 16 -> isa_vector_mapping c !! Z.to_nat i = Some v -> isa_vector_mapping c1 !! Z.to_nat i = Some (override i e v)).
  { assert (H0 : u16 (NCPUS c) = NCPUS c) by (unfold u16; rewrite Z.mod_small; lia). destruct e as [p a f|i a b|b irq g f|t d]; simpl in *.
    - destruct (f =? 0); eexists; split; simpl; rewrite ?Z.add_0_r; done.
    - destruct Hio as [Hio|[E0 Hio]]; [done|]. unfold bind, gets. rewrite E0. simpl. eexists. split; [done|]. simpl. rewrite Z.add_0_r. done.
    - rewrite Z.add_0_r. destruct (Z.eqb_spec b 0) as [->|Hb]; [|eexists; split; [done|]; simpl; split_and!; done]. specialize (He eq_refl). simpl. unfold set_mapping. rewrite Hl.
      rewrite (proj2 (Z.leb_le 0 irq)), (proj2 (Z.ltb_lt irq (Z.of_nat 16))) by lia. simpl. eexists. split; [done|]. simpl. rewrite length_insert. split_and!; try done. intros j v Hj Hv.
      destruct (Z.eqb_spec irq j) as [->|Hne]; [by rewrite list_lookup_insert_eq by lia|by rewrite list_lookup_insert_ne by lia].
    - eexists. split; [done|]. rewrite Z.add_0_r. done. }
  destruct Hstep as (c1 & E1 & N1 & L1 & A1 & M1). simpl. destruct (IH c1) as (c2 & E2 & N2 & A2 & L2 & M2).
  - rewrite N1. apply Z.mod_pos_bound. lia.
  - done.
  - done.
  - destruct e; simpl in *; rewrite ?A1; try done. destruct Hio as [Hio|[_ Hio]]; [done|]. left. destruct (ioapics es); [done|simpl in Hio; lia].
  - exists c2. split; [by erewrite bind_ok|]. split; [rewrite N2, N1; unfold u16; rewrite Zplus_mod_idemp_l; f_equal; lia|]. split; [|split; [done|]].
    + rewrite A2, A1. destruct e; try done. simpl in Hio. destruct Hio as [Hio|[_ Hio]]; [done|]. simpl. destruct (ioapics es); [done|simpl in Hio; lia].
    + intros i v Hi Hv. unfold remapped. simpl. apply M2; [done|]. by apply M1.
Qed.

Lemma range16_lookup i : 0 <= i < 16 -> range 0 16 !! Z.to_nat i = Some i.
Proof. intros Hi. unfold range, zrange. rewrite list_lookup_fmap, lookup_seq_lt by lia. simpl. f_equal. lia. Qed.

(** C27: from memory in which the firmware has left its tables, [acpi_init] does exactly what the entries of the MADTs with a valid checksum say, in their order, leaves no table
    mapped and reads no page that is not mapped, although tables share pages.  If the tables can be used, it returns and the number of cpus that are enabled, the address of the I/O APIC
    and the vector of each ISA interrupt are those of the entries. *)
Theorem acpi_init_correct no_memory s k low root rbs tabs ess :
  (forall a len, no_memory a len = false) -> acpi_layout s k low root rbs tabs ess ->
  let es := concat ess in
  acpi_init no_memory false s = zoom conf set_conf (for_each es apply_entry) s /\
  (conf s = boot_config -> usable es -> exists s', acpi_init no_memory false s = Ok (tt, s') /\ phys s' = phys s /\ ptab s' = ∅ /\
    acpi_get_ioapic_addr s' = Ok (hd 0 (ioapics es), s') /\
    (0 < cpus es < 2 ^ 16 -> acpi_get_number_cpus s' = Ok (cpus es, s')) /\
    forall i, 0 <= i < 16 -> acpi_get_isa_interrupt_vector_mapping i s' = Ok (remapped es i i, s')).
Proof.
  intros Hm Hlay es. pose proof (acpi_init_refines no_memory false Hm eq_refl _ _ _ _ _ _ _ Hlay) as Hr. split; [exact Hr|]. intros Hc [Hio Hok].
  destruct (apply_all es (conf s)) as (c & E & N & A & L & M0); [by rewrite Hc|by rewrite Hc|done|right; by rewrite Hc|]. exists (set_conf c s). rewrite Hr. unfold zoom. fold es. rewrite E. rewrite Hc in *.
  split_and!; try done.
  - apply (l_clean _ _ _ _ _ _ _ Hlay).
  - unfold acpi_get_ioapic_addr, gets. simpl. by rewrite A.
  - intros Hn. unfold acpi_get_number_cpus. erewrite bind_ok by done. simpl. rewrite N. simpl NCPUS. rewrite Z.add_0_l. unfold u16. rewrite Z.mod_small by lia. by rewrite (proj2 (Z.eqb_neq _ 0)) by lia.
  - intros i Hi. unfold acpi_get_isa_interrupt_vector_mapping. rewrite (proj2 (Z.leb_le i 15)) by lia. erewrite bind_ok by done. erewrite bind_ok by done. simpl.
    rewrite (M0 i i Hi) by by apply range16_lookup. done.
Qed.

(** An entry of length 0 makes the parser loop for ever. *)
Lemma empty_entry_hangs fuel s p e t : vbyte s p = Some t -> 3 <= t -> vbyte s (p + 1) = Some 0 -> 0 <= p -> p + 1 < 2 ^ 32 -> p < e -> madt_loop fuel p e s = Halt (Hang "process_madt").
Proof.
  intros H0 Ht H1 Hp Hb He. induction fuel as [|fuel IH]; [done|]. cbn [madt_loop]. rewrite (proj2 (Z.ltb_lt _ _)) by lia. erewrite bind_ok.
  2:{ unfold process_madt_entry. erewrite bind_ok by by apply rd_run. unfold PROC_LOCAL_APIC, IO_APIC, INTERRUPT_SOURCE_OVERRIDE. rewrite !(proj2 (Z.eqb_neq t _)) by lia. done. }
  rewrite u32_id by lia. erewrite bind_ok by by apply rd_run. rewrite Z.add_0_r, u32_id by lia. exact IH.
Qed.

(** An override of an interrupt that is not an ISA interrupt writes behind the table. *)
Lemma override_outside c irq g f : length (isa_vector_mapping c) = 16%nat -> 16 <= irq -> apply_entry (Override 0 irq g f) c = Halt (Trap "isa_vector_mapping").
Proof. intros Hl Hi. simpl. unfold set_mapping. rewrite Hl. by rewrite (proj2 (Z.ltb_ge _ _)), andb_false_r by lia. Qed.

(** ** An example: a root table and a MADT on one page *)

Definition ck (l : list Z) : Z := (- foldr Z.add 0 l) mod 256.
Definition ex_table (sig body : list Z) : list Z :=
  let h c := sig ++ le 4 (36 + Z.of_nat (length body)) ++ [1; c] ++ replicate 26 0 in h (ck (h 0 ++ body)) ++ body.
Definition ex_entries : list entry := [LocalApic 0 0 1; LocalApic 1 1 1; LocalApic 2 2 0; IoApic 2 0xFEC00000 0; Override 0 0 2 0; Other 4 [0; 0; 1; 2]].
Definition ex_madt : list Z := ex_table APIC (le 4 0xFEE00000 ++ le 4 1 ++ concat (map encode ex_entries)).
Definition ex_rsdt : list Z := ex_table [82; 83; 68; 84] (le 4 0x7100).
Definition ex_rsdp : list Z := let r c := RSD_PTR ++ [c] ++ replicate 7 0 ++ le 4 0x7000 in r (ck (r 0)) ++ replicate 16 0.
Definition bytes_from (a : Z) (l : list Z) : list (Z * Z) := imap (fun i b => (a + Z.of_nat i, b)) l.
Definition ex_acpi : acpi := mk_acpi (list_to_map (bytes_from 0xA0000 ex_rsdp ++ bytes_from 0x7000 ex_rsdt ++ bytes_from 0x7100 ex_madt)) ∅ boot_config.

Lemma bytes_check (m : mem) a bs : map (fun i => m !! (a + Z.of_nat i)) (seq 0 (length bs)) = map Some bs -> forall i b, bs !! i = Some b -> m !! (a + Z.of_nat i) = Some b.
Proof.
  intros E i b Hi. apply (f_equal (fun l => l !! i)) in E. rewrite !list_lookup_fmap, Hi, lookup_seq_lt in E by (by eapply lookup_lt_Some). simpl in E. by injection E.
Qed.

Lemma ex_layout : acpi_layout ex_acpi 0 ex_rsdp 0x7000 ex_rsdt [(0x7100, ex_madt)] [ex_entries].
Proof.
  assert (P1 : placed ex_acpi 0x7000 ex_rsdt) by (constructor; [lia|by vm_compute|simpl; lia|by vm_compute|apply bytes_check; by vm_compute]).
  assert (P2 : placed ex_acpi 0x7100 ex_madt) by (constructor; [lia|by vm_compute|apply Nat.leb_le; by vm_compute|by vm_compute|apply bytes_check; by vm_compute]).
  constructor; [apply bytes_check; by vm_compute|by vm_compute|lia|by vm_compute|lia| |done]. cbv zeta. split; [by vm_compute|]. change (nth 15 (drop (16 * 0) ex_rsdp) 0 =? 0) with true. cbv iota.
  split; [by vm_compute|]. constructor; [exact P1|by vm_compute| |].
  - intros [|i] a bs Hi; simplify_eq/=. split; [by vm_compute|exact P2].
  - constructor; [|constructor]. apply (contains_madt _ (take 44 ex_madt) ex_entries); [by vm_compute..|]. unfold ex_entries. repeat constructor; simpl; unfold byte_ok; lia.
Qed.

Lemma acpi_init_correct_witness : exists s', acpi_init (fun _ _ => false) false ex_acpi = Ok (tt, s') /\
  acpi_get_number_cpus s' = Ok (2, s') /\ acpi_get_ioapic_addr s' = Ok (0xFEC00000, s') /\ acpi_get_isa_interrupt_vector_mapping 0 s' = Ok (2, s').
Proof.
  destruct (acpi_init_correct (fun _ _ => false) ex_acpi 0 ex_rsdp 0x7000 ex_rsdt [(0x7100, ex_madt)] [ex_entries] (fun _ _ => eq_refl) ex_layout) as [_ H].
  destruct H as (s' & E & _ & _ & H1 & H2 & H3); [done|split; [simpl; lia|unfold ex_entries; repeat constructor; simpl; lia]|]. exists s'. split; [exact E|]. split; [exact (H2 ltac:(vm_compute; split; reflexivity))|]. split; [exact H1|exact (H3 0 ltac:(lia))].
Defined.
